(* ===== verification/_CoqProject ===== *)
-Q . S2P
Prelude.v
Streams.v
WireFormat.v
CityHash.v
CityHashCrc.v
Compressed.v
Text.v
Types.v
TypeParser.v
TypeNames.v
Columns.v
ColumnRows.v
ColumnOps.v
Swap.v
ColumnWire.v
StringStorage.v
LowCardinality.v
Factory.v
Bignum.v
Decimal.v
Values.v
Addresses.v
Typed.v
Classes.v
Dictionaries.v
Sharing.v
SharedCalls.v
SharedDictionaries.v
Block.v
Capacity.v
Protocol.v
BlockWire.v
Endpoints.v
Query.v
Messages.v
Client.v
ClientStates.v
ClientWire.v
Connecting.v
Sockets.v
Tls.v
