(* ===== verification/Prelude.v ===== *)
(** * clickhouse-cpp: a verification development (root file)

    clickhouse-cpp is a client library for the native TCP protocol of ClickHouse.
    An application builds columns and blocks, sends queries and receives blocks
    through callbacks.  Between the application and the socket lie, from the bottom
    up: byte streams with buffers; the wire format of numbers and strings;
    compressed frames with a checksum; types, their names and the parser of the
    names; columns; the factory that makes a column from a type name; blocks; the
    messages of the protocol; and the client, a state machine over one connection
    that reconnects and fails over between endpoints.

    ** Conventions

    A C++ function becomes a Rocq function.  One that changes an object is a
    computation in the monad [M S A := S -> result A * S] of this file, on the
    state [S] of that object; an exception is [Throw e], with the state at the time
    of the throw, so that what a failed call leaves behind is visible.  Undefined
    behaviour that the source can reach (a null pointer, a read outside a buffer,
    the top of an empty stack) is the outcome [Throw Undefined]; a loop that is out
    of fuel is [Throw Diverges].  Neither is caught by a handler.  Integers are [Z]
    with their wrap-around written out ([wrap w], [swrap w]); bytes and strings are
    lists of [byte].  Code that is not in the repository enters as a parameter: LZ4
    and ZSTD (records of operations, with the laws [CodecLaws]), the hash of
    strings of the standard library, the conversions of addresses and the socket
    calls of the C library ([Inet], [SocketApi], with their documented behaviour as
    laws), the application's callbacks.

    ** Files

    - [Prelude]: bytes, words, the result monad, the loop [while], the rules of
      weakest preconditions ([wp]) and of exact loops ([loops]), list lemmas,
      tactics and hint databases.
    - [Streams] (base/input, base/output): the stream classes as type classes
      [InputStream], [OutputStream]; the contract [InputStreamLaws],
      [OutputStreamLaws] that everything above is proved against; the array,
      vector and buffered streams as instances.
    - [WireFormat] (base/wire_format): fixed integers, varints, strings, quoted
      parameters; [reads] and [writes], the specifications of readers and writers.
    - [CityHash] (cityhash/city.cc): the 64- and 128-bit hashes.
    - [CityHashCrc] (city.cc, citycrc.h): the hashes compiled with SSE 4.2.
    - [Compressed] (base/compressed): frames, both directions.
    - [Text]: [std::to_string], [std::stol], the character classes and C strings.
    - [Types], [TypeParser], [TypeNames] (types/): the type tree and its printer;
      the tokenizer, the stack machine of the parser and its cache; the theorems
      that relate them.
    - [Columns] (columns/): the column classes as one inductive type with one
      function per virtual operation.  [ColumnRows]: the abstract view of a column
      as a list of values and the representation invariant; [ColumnOps]: the
      operations refine the list operations; [Swap]: exchanging the contents of two
      columns, with the casts the typed classes make first; [ColumnWire]: saving and loading; [LowCardinality]: the
      dictionaries; [StringStorage]: the blocks and views behind a string column,
      which [Columns] models by its strings.
    - [Values] (the typed operations of columns/): what a column class is to a
      template ([ColumnClass]: its value type, Append of a value, At), what it
      promises ([Described], [Lawful]) and the classes of values: numbers,
      enumerations, strings, dates and times, addresses, UUIDs, decimals.
      [Addresses]: texts of addresses and names of enumerations.  [Typed]: the
      templates ColumnNullableT, ColumnArrayT, ColumnTupleT, ColumnMapT and the
      geometric classes, as functions from classes to classes.  [Dictionaries]:
      ColumnLowCardinalityT and the adaptor that saves a plain column as a
      dictionary column.  [Classes]: the methods of each of the classes that
      delegate to another column, as that class writes them.  [Sharing]: columns
      as objects in a heap, each with its dynamic class, and the views that Wrap makes
      of them, which share their parts; [SharedCalls]: appending columns and loading
      through the objects, and the theorems on views; [SharedDictionaries]: the same for dictionary columns, whose index
      column is behind a bundle of its own.  [Capacity]: Reserve, and the
      references to the numbers of a column that the application can write through.
    - [Bignum] (base/bignum_string.h, types/bignum): wide integers and their text;
      [Decimal] (columns/decimal.cpp): decimals as text.
    - [Factory] (columns/factory.cpp), [Block] (block.cpp), [Endpoints]
      (base/endpoints_iterator), [Query] (query.h), [Protocol] (constants).
    - [BlockWire], [Messages] (client.cpp): blocks and client messages as bytes.
    - [Client] (client.cpp): the record [Impl] with the members of Client::Impl
      and a computation per member function, and the public class.
      [ClientStates]: the protocol of calls; [ClientWire]: selects and inserts
      against a server's response; [Connecting]: handshake, failover, retries.
    - [Sockets] (base/socket): connecting and owning a socket over the system
      calls, its streams and the factory, an instance of the class of factories
      that [Client] is written against.  [Tls] (base/sslsocket): contexts and
      connections over the calls of the TLS library, and the factory for them.

    ** What is proved

    - Streams and wire format: buffering neither loses, adds nor reorders a byte;
      varints, strings and quoted parameters round trip, and a quoted parameter
      cannot leave its quotes.
    - Compression: what is written through a compressed stream is what is read;
      a frame with a wrong checksum delivers nothing; hashing is total and stays
      inside its buffer.
    - Types: the printed name of a type parses to the tree of that type; parsing
      ends on every input; the cache is transparent for names that parse.
    - Columns: append and slice refine the operations on lists of values at any
      nesting of columns without dictionaries; dictionaries keep their invariant and
      roll back a failed append; a saved column with rows, dictionaries included,
      loads back.  The storage of string columns implements the list of strings, and
      never leaves its blocks unless a column is appended to itself.  The factory makes
      an empty column of the type it is given the name of, for names that are read
      back.  Swap exchanges two columns or changes nothing, but that a failing cast to
      a template instance can leave tuples torn ([tuple_swap_tears]).  The generic operations on the delegating classes are the
      methods of the sixteen classes ([class_methods_agree]).  Reserve makes room for
      the rows it is asked for ([reserve_room]).
    - Typed columns: for every class the templates can generate, a value that is
      appended is the value that is read, and the column stays well-formed
      ([typed_columns], by induction on how the class is built); lookups in rows of
      maps; values of dictionary columns; addresses and names of enumerations
      survive the way through text.
    - Views: the object Wrap makes of a column shares its storage, and the two
      stay the same column whatever of the modelled calls ([call] of SharedCalls.v) is
      made on them; the operations on objects in a heap do what the operations on
      values do.  Both hold for dictionary
      columns too, where loading and swapping replace a shared part.
    - Numbers: the text of a 128-, 256- or 512-bit number is printed inside its
      buffer and parsed back, and every other text is refused; a decimal text
      with a point is stored as the number it denotes, and the printed text of a decimal is accepted
      and stored as the same number.
    - Blocks: the row count is that of every column; a block that is sent, plain or
      compressed, at any revision, is received.
    - Client: every sequence of calls follows the abstract machine [transition]; a
      select shows the application exactly the packets of the response; inserts
      send exactly their blocks; a query message can be read back; the handshake
      establishes a good connection; failover tries as many endpoints as there are,
      each once and in order while the iterator is at the current one; retries are
      bounded.
    - Sockets: whatever fails while connecting, no descriptor leaks and none is
      closed twice; reading waits through interruptions and loses nothing.
    - TLS: a connection that is handed out was checked against the host name and
      verified, unless the options skip that; the objects of the TLS library are
      given back, but for one certificate ([certificate_leaked]).
    - Defects: where the code does not do what it means to, a theorem states what
      it does (the ones whose names say what goes wrong: [nullable_slice_loses_default],
      [index_truncated], [cache_poisoned], [unbalanced_undefined],
      [backslash_field_rejected], [undersized_frame_undefined],
      [factory_unknown_nested], [factory_null_nested], [query_refused_midway],
      [failover_skips], [stale_callbacks], [socket_large_read], [dates_refused],
      [uuid_reserve_half], [SwapLow_refused], [tuple_swap_tears],
      [refused_tuple_torn] and the second parts of [refused_value],
      [map_lookup] and [adaptor_wire]).

    ** Fuel and bounds

    Loops are [while fuel body], with the fuel in binary, and the fuel is always
    computed from the input when the source bounds the loop: a transfer loop runs at
    most once per byte, the parser once per character and once for the end
    ([Parse_terminates]), the printer of wide integers at most once per bit,
    operations on columns once per level of nesting, the
    factory once per level of the syntax tree, the failover and retry loops up to
    the number of attempts plus one.  The loops over the packets of a response have
    no bound in the code, because the server decides; their fuel is a parameter of
    the client, and the theorems ask for more than the packets of the response at
    hand.  Statements about termination say that the outcome is not [Diverges].

    The loop around [recv] has 2^64 iterations of fuel; the theorem asks for fewer
    interruptions.

    ** Not modelled

    The code of other systems than unix and the build with BoringSSL; how
    containers grow beyond what Reserve asks for (the standard leaves it open);
    comparison of map rows;
    printing of options; allocation failures.  The transfers of the socket streams are proved for requests below 2^31 bytes only (beyond, the code
    casts the length to int), so the contract of streams that the layers above are
    proved against is not discharged by the sockets without that bound. *)

From Stdlib Require Export ZArith Lia Bool.
From Stdlib Require Export Strings.Byte.
From Stdlib Require Strings.String.
From stdpp Require Export base list list_numbers option numbers gmap.

Export Stdlib.Strings.String.StringSyntax.

Declare Scope cpp_scope.
Delimit Scope cpp_scope with cpp.
#[global] Open Scope Z_scope.
#[global] Open Scope cpp_scope.

(** ** Bytes and strings

    [uint8_t] buffers and [std::string] are both lists of bytes. *)

Abbreviation bytes := (list byte).

Definition str (s : String.string) : bytes := String.list_byte_of_string s.
#[global] Arguments str s%_string_scope.

Definition b2z (b : byte) : Z := Z.of_N (Byte.to_N b).

Definition z2b (z : Z) : byte :=
  match Byte.of_N (Z.to_N (z mod 256)) with
  | Some b => b
  | None => x00
  end.

#[global] Instance byte_eq_dec : EqDecision byte := Byte.byte_eq_dec.

Definition bytes_eqb (a b : bytes) : bool := bool_decide (a = b).

Lemma bytes_eqb_eq (a b : bytes) : bytes_eqb a b = true <-> a = b.
Proof. unfold bytes_eqb. apply bool_decide_eq_true. Qed.

Lemma bytes_eqb_refl (a : bytes) : bytes_eqb a a = true.
Proof. by apply bytes_eqb_eq. Qed.

Lemma b2z_range (b : byte) : 0 <= b2z b < 256.
Proof. unfold b2z. pose proof (Byte.to_N_bounded b). lia. Qed.

Lemma b2z_z2b (z : Z) : b2z (z2b z) = z mod 256.
Proof.
  unfold b2z, z2b. pose proof (Z.mod_pos_bound z 256 eq_refl).
  destruct (Byte.of_N (Z.to_N (z mod 256))) as [b|] eqn:E.
  - apply Byte.to_of_N in E. rewrite E. lia.
  - apply Byte.of_N_None_iff in E. lia.
Qed.

Lemma b2z_inj (a b : byte) : b2z a = b2z b -> a = b.
Proof.
  unfold b2z. intros H. apply N2Z.inj in H.
  pose proof (Byte.of_to_N a) as Ha. pose proof (Byte.of_to_N b) as Hb.
  rewrite H in Ha. congruence.
Qed.

Lemma z2b_b2z (b : byte) : z2b (b2z b) = b.
Proof.
  apply b2z_inj. rewrite b2z_z2b. apply Z.mod_small, b2z_range.
Qed.

Lemma z2b_mod (z : Z) : z2b (z mod 256) = z2b z.
Proof. unfold z2b. by rewrite Zmod_mod. Qed.

(** ** Machine integers

    A [w]-bit unsigned integer is a [Z] in [0, 2^w); wrap-around is written
    out with [wrap].  A signed one is a [Z] in [-2^(w-1), 2^(w-1)). *)

Definition wrap (w : Z) (z : Z) : Z := z mod 2 ^ w.

Definition swrap (w : Z) (z : Z) : Z := (z + 2 ^ (w - 1)) mod 2 ^ w - 2 ^ (w - 1).

Definition is_u (w : Z) (z : Z) : Prop := 0 <= z < 2 ^ w.

Definition is_s (w : Z) (z : Z) : Prop := - 2 ^ (w - 1) <= z < 2 ^ (w - 1).

Lemma wrap_range (w z : Z) : 0 <= w -> is_u w (wrap w z).
Proof. intros. apply Z.mod_pos_bound. by apply Z.pow_pos_nonneg. Qed.

Lemma wrap_id (w z : Z) : is_u w z -> wrap w z = z.
Proof. apply Z.mod_small. Qed.

Lemma wrap_wrap (w z : Z) : wrap w (wrap w z) = wrap w z.
Proof. apply Zmod_mod. Qed.

Lemma pow2_split (w : Z) : 1 <= w -> 2 ^ w = 2 * 2 ^ (w - 1).
Proof. intros. rewrite <- Z.pow_succ_r by lia. f_equal. lia. Qed.

Lemma swrap_range (w z : Z) : 1 <= w -> is_s w (swrap w z).
Proof.
  intros Hw. unfold is_s, swrap. pose proof (pow2_split w Hw).
  pose proof (Z.mod_pos_bound (z + 2 ^ (w - 1)) (2 ^ w)
                (Z.pow_pos_nonneg 2 w ltac:(lia) ltac:(lia))). lia.
Qed.

Lemma swrap_id (w z : Z) : 1 <= w -> is_s w z -> swrap w z = z.
Proof.
  intros Hw [? ?]. unfold swrap. pose proof (pow2_split w Hw).
  rewrite Z.mod_small by lia. lia.
Qed.

Lemma swrap_wrap (w z : Z) : 0 <= w -> swrap w (wrap w z) = swrap w z.
Proof.
  intros. unfold swrap, wrap. f_equal.
  rewrite Zplus_mod_idemp_l. done.
Qed.

Lemma wrap_swrap (w z : Z) : 1 <= w -> wrap w (swrap w z) = wrap w z.
Proof.
  intros. unfold swrap, wrap.
  rewrite Zminus_mod_idemp_l. f_equal. lia.
Qed.

(** ** Little-endian layout of integers in memory *)

Fixpoint le_bytes (n : nat) (z : Z) : bytes :=
  match n with
  | O => []
  | S n => z2b z :: le_bytes n (z / 256)
  end.

Fixpoint le_value (l : bytes) : Z :=
  match l with
  | [] => 0
  | b :: l => b2z b + 256 * le_value l
  end.

Lemma length_le_bytes (n : nat) (z : Z) : length (le_bytes n z) = n.
Proof. revert z. induction n; intros; simpl; [done|by rewrite IHn]. Qed.

Lemma le_value_range (l : bytes) : 0 <= le_value l < 256 ^ Z.of_nat (length l).
Proof.
  induction l as [|b l IH]; simpl le_value; [simpl; lia|].
  cbn [length]. rewrite Nat2Z.inj_succ, Z.pow_succ_r by lia.
  pose proof (b2z_range b). nia.
Qed.

Lemma le_value_bytes (n : nat) (z : Z) :
  le_value (le_bytes n z) = z mod 256 ^ Z.of_nat n.
Proof.
  revert z. induction n as [|n IH]; intros z; [simpl; by rewrite Z.mod_1_r|].
  cbn [le_bytes le_value]. rewrite b2z_z2b, IH, Nat2Z.inj_succ, Z.pow_succ_r by lia.
  assert (0 < 256 ^ Z.of_nat n) by (apply Z.pow_pos_nonneg; lia).
  rewrite (Z.rem_mul_r z 256 (256 ^ Z.of_nat n)) by lia. lia.
Qed.

Lemma le_bytes_value (l : bytes) : le_bytes (length l) (le_value l) = l.
Proof.
  induction l as [|b l IH]; [done|]. cbn [length le_value le_bytes].
  pose proof (b2z_range b). f_equal.
  - rewrite <- z2b_mod, Z.mul_comm, Z_mod_plus_full, z2b_mod. apply z2b_b2z.
  - rewrite Z.mul_comm, Z.div_add, Z.div_small by lia. done.
Qed.

Lemma le_bytes_mod (n : nat) (z : Z) : le_bytes n (z mod 256 ^ Z.of_nat n) = le_bytes n z.
Proof. rewrite <- le_value_bytes. rewrite <- (length_le_bytes n z) at 1. apply le_bytes_value. Qed.

Lemma le_bytes_inj (n : nat) (a b : Z) :
  0 <= a < 256 ^ Z.of_nat n -> 0 <= b < 256 ^ Z.of_nat n ->
  le_bytes n a = le_bytes n b -> a = b.
Proof.
  intros Ha Hb H. apply (f_equal le_value) in H.
  rewrite !le_value_bytes, !Z.mod_small in H; done.
Qed.

(** ** List lemmas shared by the components *)

Definition zlen {A} (l : list A) : Z := Z.of_nat (length l).

Lemma zlen_nonneg {A} (l : list A) : 0 <= zlen l.
Proof. unfold zlen. lia. Qed.

Lemma zlen_nil {A} : zlen (@nil A) = 0.
Proof. done. Qed.

Lemma zlen_cons {A} (x : A) (l : list A) : zlen (x :: l) = 1 + zlen l.
Proof. unfold zlen. cbn [length]. lia. Qed.

Lemma zlen_app {A} (l k : list A) : zlen (l ++ k) = zlen l + zlen k.
Proof. unfold zlen. rewrite length_app. lia. Qed.

Lemma zlen_le_bytes (n : nat) (z : Z) : zlen (le_bytes n z) = Z.of_nat n.
Proof. unfold zlen. by rewrite length_le_bytes. Qed.

Lemma zlen_0 {A} (l : list A) : zlen l = 0 -> l = [].
Proof. destruct l; [done|rewrite zlen_cons; pose proof (zlen_nonneg l); lia]. Qed.

Lemma zlen_pos {A} (l : list A) : l <> [] -> 0 < zlen l.
Proof. destruct l; [done|rewrite zlen_cons; pose proof (zlen_nonneg l); lia]. Qed.

(** [ztake n l] and [zdrop n l] take a (machine integer) count. *)
Definition ztake {A} (n : Z) (l : list A) : list A := take (Z.to_nat (Z.min n (zlen l))) l.

Definition zdrop {A} (n : Z) (l : list A) : list A := drop (Z.to_nat (Z.min n (zlen l))) l.

Lemma ztake_zdrop {A} (n : Z) (l : list A) : ztake n l ++ zdrop n l = l.
Proof. apply take_drop. Qed.

Lemma zlen_ztake {A} (n : Z) (l : list A) : 0 <= n -> zlen (ztake n l) = Z.min n (zlen l).
Proof.
  intros. unfold ztake, zlen. rewrite length_take. lia.
Qed.

Lemma zlen_zdrop {A} (n : Z) (l : list A) : 0 <= n -> zlen (zdrop n l) = zlen l - Z.min n (zlen l).
Proof.
  intros. unfold zdrop, zlen. rewrite length_drop. lia.
Qed.

Lemma ztake_app_exact {A} (l k : list A) : ztake (zlen l) (l ++ k) = l.
Proof.
  unfold ztake. rewrite zlen_app. pose proof (zlen_nonneg k).
  rewrite Z.min_l by lia. unfold zlen. rewrite Nat2Z.id. apply take_app_length.
Qed.

Lemma zdrop_app_exact {A} (l k : list A) : zdrop (zlen l) (l ++ k) = k.
Proof.
  unfold zdrop. rewrite zlen_app. pose proof (zlen_nonneg k).
  rewrite Z.min_l by lia. unfold zlen. rewrite Nat2Z.id. apply drop_app_length.
Qed.

Lemma ztake_all {A} (n : Z) (l : list A) : zlen l <= n -> ztake n l = l.
Proof.
  intros. unfold ztake. rewrite Z.min_r by lia. unfold zlen. rewrite Nat2Z.id.
  by apply take_ge.
Qed.

Lemma zdrop_all {A} (n : Z) (l : list A) : zlen l <= n -> zdrop n l = [].
Proof.
  intros. unfold zdrop. rewrite Z.min_r by lia. unfold zlen. rewrite Nat2Z.id.
  by apply drop_ge.
Qed.

Lemma zdrop_0 {A} (l : list A) : zdrop 0 l = l.
Proof. unfold zdrop. pose proof (zlen_nonneg l). by rewrite Z.min_l by lia. Qed.

Lemma ztake_0 {A} (l : list A) : ztake 0 l = [].
Proof. unfold ztake. pose proof (zlen_nonneg l). by rewrite Z.min_l by lia. Qed.

Lemma zdrop_app_le {A} (n : Z) (l k : list A) :
  0 <= n <= zlen l -> zdrop n (l ++ k) = zdrop n l ++ k.
Proof.
  intros. unfold zdrop. rewrite zlen_app. pose proof (zlen_nonneg k).
  rewrite !Z.min_l by lia. unfold zlen in *. rewrite drop_app_le; [done|lia].
Qed.

Lemma ztake_app_le {A} (n : Z) (l k : list A) :
  0 <= n <= zlen l -> ztake n (l ++ k) = ztake n l.
Proof.
  intros. unfold ztake. rewrite zlen_app. pose proof (zlen_nonneg k).
  rewrite !Z.min_l by lia. unfold zlen in *. rewrite take_app_le; [done|lia].
Qed.

Lemma zdrop_zdrop {A} (n m : Z) (l : list A) :
  0 <= n -> 0 <= m -> zdrop n (zdrop m l) = zdrop (m + n) l.
Proof.
  intros. pose proof (zlen_zdrop m l). unfold zdrop at 1 3.
  rewrite H1 by lia. unfold zdrop. rewrite drop_drop. f_equal. 
  pose proof (zlen_nonneg l). lia.
Qed.

Lemma zlen_replicate {A} (n : nat) (x : A) : zlen (replicate n x) = Z.of_nat n.
Proof. unfold zlen. by rewrite length_replicate. Qed.

Lemma list_max_Forall {A} (f : A -> nat) (l : list A) (n : nat) : (list_max (map f l) <= n)%nat -> Forall (fun a => (f a <= n)%nat) l.
Proof. intros H. apply list_max_le in H. by rewrite List.Forall_map in H. Qed.

Create Rewrite HintDb zlen.
#[export] Hint Rewrite @zlen_nil @zlen_cons @zlen_app zlen_le_bytes : zlen.

Ltac zlen := autorewrite with zlen in *; try lia.

(** ** Outcomes, exceptions and the state-and-exception monad

    A C++ member function becomes a computation [M S A]: it transforms the
    object's state [S] and either returns a value or throws.  A throw keeps
    the state reached so far, as C++ does: nothing is rolled back unless the
    code does it in a [catch]. *)

Inductive exn : Type :=
| ValidationError
| ProtocolError
| UnimplementedError
| AssertionError
| OpenSSLError
| CompressionError
| ServerError (code : Z) (name display_text stack_trace : bytes)
| SystemError
| OutOfRange
| LengthError
| InvalidArgument
| BadCast
| BadOptionalAccess
| Undefined
| Diverges.

Inductive result (A : Type) : Type :=
| Ok (a : A)
| Throw (e : exn).
Arguments Ok {A} a.
Arguments Throw {A} e.

#[global] Instance exn_eq_dec : EqDecision exn.
Proof. solve_decision. Defined.

#[global] Instance result_eq_dec {A} `{EqDecision A} : EqDecision (result A).
Proof. solve_decision. Defined.

Definition M (S A : Type) : Type := S -> result A * S.

Definition ret {S A} (a : A) : M S A := fun s => (Ok a, s).

Definition throw {S A} (e : exn) : M S A := fun s => (Throw e, s).

Definition bind {S A B} (m : M S A) (k : A -> M S B) : M S B :=
  fun s => match m s with
           | (Ok a, s') => k a s'
           | (Throw e, s') => (Throw e, s')
           end.

Definition get {S} : M S S := fun s => (Ok s, s).

Definition put {S} (s : S) : M S unit := fun _ => (Ok tt, s).

Definition modify {S} (f : S -> S) : M S unit := fun s => (Ok tt, f s).

(** [try_catch m h]: run [m]; a thrown exception is passed to the handler.
    Undefined behaviour and divergence are not exceptions: nothing catches them. *)
Definition try_catch {S A} (m : M S A) (h : exn -> M S A) : M S A :=
  fun s => match m s with
           | (Ok a, s') => (Ok a, s')
           | (Throw Undefined, s') => (Throw Undefined, s')
           | (Throw Diverges, s') => (Throw Diverges, s')
           | (Throw e, s') => h e s'
           end.

(** [zoom get set m] runs [m] on a component of a larger state. *)
Definition zoom {S T A} (g : S -> T) (p : T -> S -> S) (m : M T A) : M S A :=
  fun s => let '(r, t) := m (g s) in (r, p t s).

Definition when {S} (b : bool) (m : M S unit) : M S unit := if b then m else ret tt.

Definition lift_result {S A} (r : result A) : M S A := fun s => (r, s).

Definition rbind {A B} (r : result A) (k : A -> result B) : result B :=
  match r with
  | Ok a => k a
  | Throw e => Throw e
  end.

Notation "'let*' x ':=' m 'in' k" := (bind m (fun x => k))
  (at level 10, x name, m at level 100, k at level 200) : cpp_scope.
Notation "'let*' ' p ':=' m 'in' k" := (bind m (fun x => match x with p => k end))
  (at level 10, p pattern, m at level 100, k at level 200) : cpp_scope.
Notation "m ';;;' k" := (bind m (fun _ => k))
  (at level 199, k at level 200, right associativity) : cpp_scope.
Notation "'let!' x ':=' r 'in' k" := (rbind r (fun x => k))
  (at level 10, x name, r at level 100, k at level 200) : cpp_scope.
Notation "'let!' ' p ':=' r 'in' k" := (rbind r (fun x => match x with p => k end))
  (at level 10, p pattern, r at level 100, k at level 200) : cpp_scope.

Lemma bind_ok {S A B} (m : M S A) (k : A -> M S B) s a s' :
  m s = (Ok a, s') -> bind m k s = k a s'.
Proof. unfold bind. by intros ->. Qed.

Lemma bind_throw {S A B} (m : M S A) (k : A -> M S B) s e s' :
  m s = (Throw e, s') -> bind m k s = (Throw e, s').
Proof. unfold bind. by intros ->. Qed.

Lemma bind_inv {S A B} (m : M S A) (k : A -> M S B) s b s' :
  bind m k s = (Ok b, s') -> exists a s1, m s = (Ok a, s1) /\ k a s1 = (Ok b, s').
Proof. unfold bind. destruct (m s) as [[a|e] s1]; [eauto|done]. Qed.

(** ** Loops

    [while fuel body a] runs [body] until it yields [inr]; [fuel] is a binary
    number, so a bound of the size of a machine word costs nothing to
    evaluate.  Running out of fuel is the outcome [Diverges]. *)

Fixpoint loop_pos {S A B} (body : A -> M S (A + B)) (p : positive) (a : A) : M S (A + B) :=
  match p with
  | xH => body a
  | xO p =>
    let* r := loop_pos body p a in
    match r with inl a' => loop_pos body p a' | inr b => ret (inr b) end
  | xI p =>
    let* r0 := body a in
    match r0 with
    | inl a0 =>
      let* r := loop_pos body p a0 in
      match r with inl a' => loop_pos body p a' | inr b => ret (inr b) end
    | inr b => ret (inr b)
    end
  end.

Definition while {S A B} (fuel : positive) (body : A -> M S (A + B)) (a : A) : M S B :=
  let* r := loop_pos body fuel a in
  match r with inr b => ret b | inl _ => throw Diverges end.

Fixpoint loop_nat {S A B} (body : A -> M S (A + B)) (n : nat) (a : A) : M S (A + B) :=
  match n with
  | O => ret (inl a)
  | Datatypes.S n =>
    let* r := body a in
    match r with inl a' => loop_nat body n a' | inr b => ret (inr b) end
  end.

Lemma loop_nat_add {S A B} (body : A -> M S (A + B)) (n m : nat) (a : A) (s : S) :
  loop_nat body (n + m) a s =
  bind (loop_nat body n a)
       (fun r => match r with inl a' => loop_nat body m a' | inr b => ret (inr b) end) s.
Proof.
  revert a s. induction n as [|n IH]; intros a s; [done|].
  cbn [loop_nat Nat.add]. unfold bind.
  destruct (body a s) as [[[a'|b]|e] s']; [|done|done]. rewrite IH. done.
Qed.

Lemma loop_pos_nat {S A B} (body : A -> M S (A + B)) (p : positive) (a : A) (s : S) :
  loop_pos body p a s = loop_nat body (Pos.to_nat p) a s.
Proof.
  revert a s. induction p as [p IH|p IH|]; intros a s.
  - rewrite Pos2Nat.inj_xI. replace (Datatypes.S (2 * Pos.to_nat p))%nat
      with (1 + (Pos.to_nat p + Pos.to_nat p))%nat by lia.
    cbn [loop_pos loop_nat Nat.add]. unfold bind at 1 3.
    destruct (body a s) as [[[a'|b]|e] s']; [|done|done].
    rewrite loop_nat_add. unfold bind. rewrite IH.
    destruct (loop_nat body (Pos.to_nat p) a' s') as [[[a''|b]|e] s'']; [|done|done]. apply IH.
  - rewrite Pos2Nat.inj_xO. replace (2 * Pos.to_nat p)%nat
      with (Pos.to_nat p + Pos.to_nat p)%nat by lia.
    cbn [loop_pos]. rewrite loop_nat_add. unfold bind. rewrite IH.
    destruct (loop_nat body (Pos.to_nat p) a s) as [[[a'|b]|e] s']; [|done|done]. apply IH.
  - cbn [loop_pos]. change (Pos.to_nat 1) with 1%nat. cbn [loop_nat]. unfold bind.
    destruct (body a s) as [[[a'|b]|e] s']; done.
Qed.

(** Total correctness of a loop: an invariant, a measure that every iteration
    decreases, and enough fuel for the measure. *)
Section WhileRule.
Context {S A B : Type} (body : A -> M S (A + B)).
Context (Inv : A -> S -> Prop) (mu : A -> S -> nat) (Post : B -> S -> Prop).
Hypothesis step : forall a s, Inv a s ->
  exists r s', body a s = (Ok r, s') /\
    match r with
    | inl a' => Inv a' s' /\ (mu a' s' < mu a s)%nat
    | inr b => Post b s'
    end.

Lemma loop_nat_rule (n : nat) (a : A) (s : S) :
  Inv a s -> (mu a s < n)%nat ->
  exists b s', loop_nat body n a s = (Ok (inr b), s') /\ Post b s'.
Proof.
  revert a s. induction n as [|n IH]; intros a s HI Hn; [lia|].
  destruct (step a s HI) as ([a'|b] & s' & Hb & HP); cbn [loop_nat]; unfold bind; rewrite Hb.
  - destruct HP as [HI' Hlt]. apply IH; [done|lia].
  - eauto.
Qed.

Lemma while_rule (fuel : positive) (a : A) (s : S) :
  Inv a s -> (mu a s < Pos.to_nat fuel)%nat ->
  exists b s', while fuel body a s = (Ok b, s') /\ Post b s'.
Proof.
  intros HI Hf. destruct (loop_nat_rule _ a s HI Hf) as (b & s' & Hl & HP).
  exists b, s'. unfold while, bind. rewrite loop_pos_nat, Hl. done.
Qed.
End WhileRule.

(** Partial correctness: whatever the loop returns satisfies [Post]. *)
Lemma while_post {S A B} (body : A -> M S (A + B)) (Inv : A -> S -> Prop)
    (Post : B -> S -> Prop) (fuel : positive) (a : A) (s : S) b s' :
  (forall a s r s', Inv a s -> body a s = (Ok r, s') ->
     match r with inl a' => Inv a' s' | inr b => Post b s' end) ->
  Inv a s -> while fuel body a s = (Ok b, s') -> Post b s'.
Proof.
  intros Hstep HI. unfold while, bind. rewrite loop_pos_nat.
  generalize (Pos.to_nat fuel) as n. intros n. revert a s HI.
  induction n as [|n IH]; intros a s HI; cbn [loop_nat]; [done|]. unfold bind.
  destruct (body a s) as [[[a'|b']|e] s1] eqn:E; [| |done].
  - apply IH. exact (Hstep _ _ _ _ HI E).
  - intros [= <- <-]. exact (Hstep _ _ _ _ HI E).
Qed.

(** The loop as a relation: [loops body a s n r s'] when the loop leaves with [r] after [n] iterations. *)
Inductive loops {S A B} (body : A -> M S (A + B)) : A -> S -> nat -> result B -> S -> Prop :=
| loops_exit a s b s' : body a s = (Ok (inr b), s') -> loops body a s 1 (Ok b) s'
| loops_throw a s e s' : body a s = (Throw e, s') -> loops body a s 1 (Throw e) s'
| loops_next a s a' s1 n r s' : body a s = (Ok (inl a'), s1) -> loops body a' s1 n r s' -> loops body a s (Datatypes.S n) r s'.

Lemma loops_while {S A B} (body : A -> M S (A + B)) (fuel : positive) a s n r s' :
  loops body a s n r s' -> (n <= Pos.to_nat fuel)%nat -> while fuel body a s = (r, s').
Proof.
  intros Hl. unfold while, bind. rewrite loop_pos_nat. generalize (Pos.to_nat fuel) as k.
  induction Hl as [a s b s' E|a s e s' E|a s a' s1 n r s' E Hl IH]; intros [|k] Hk; try lia; cbn [loop_nat]; unfold bind; rewrite E; [done|done|].
  apply IH. lia.
Qed.

(** ** A program logic for computations

    [wp m Q s]: the outcome of [m] from [s], value or exception, and the state it
    leaves satisfy [Q]. *)

Definition wp {S A} (m : M S A) (Q : result A -> S -> Prop) (s : S) : Prop := Q (fst (m s)) (snd (m s)).

(** An outcome of the program: a value or an exception, not undefined behaviour or a
    loop that exceeds its bound. *)
Definition defined {A} (r : result A) : Prop := r <> Throw Undefined /\ r <> Throw Diverges.

Lemma defined_ok {A} (a : A) : defined (Ok a).
Proof. by split. Qed.

Lemma defined_throw {A B} (e : exn) : defined (A := A) (Throw e) -> defined (A := B) (Throw e).
Proof. intros [H1 H2]. split; congruence. Qed.

Section WP.
Context {S A B : Type}.

Lemma wp_run (m : M S A) Q s r s' : m s = (r, s') -> wp m Q s -> Q r s'.
Proof. unfold wp. by intros ->. Qed.

Lemma wp_mono (m : M S A) (P Q : result A -> S -> Prop) s : wp m P s -> (forall r s', P r s' -> Q r s') -> wp m Q s.
Proof. unfold wp. auto. Qed.

Lemma wp_bind (m : M S A) (k : A -> M S B) Q s :
  wp m (fun r s' => match r with Ok a => wp (k a) Q s' | Throw e => Q (Throw e) s' end) s -> wp (bind m k) Q s.
Proof. unfold wp, bind. destruct (m s) as [[a|e] s']; done. Qed.

Lemma wp_try (m : M S A) (h : exn -> M S A) Q s :
  wp m (fun r s' => match r with
    | Ok a => Q (Ok a) s'
    | Throw Undefined => Q (Throw Undefined) s'
    | Throw Diverges => Q (Throw Diverges) s'
    | Throw e => wp (h e) Q s'
    end) s -> wp (try_catch m h) Q s.
Proof. unfold wp, try_catch. destruct (m s) as [[a|[]] s']; done. Qed.

(** The rule of loops: an invariant of the iterations, whose exits satisfy [Q]. *)
Lemma wp_while (fuel : positive) (body : A -> M S (A + B)) (Inv : A -> S -> Prop) Q a s :
  (forall a s, Inv a s -> wp (body a) (fun r s' => match r with
     | Ok (inl a') => Inv a' s'
     | Ok (inr b) => Q (Ok b) s'
     | Throw e => Q (Throw e) s'
     end) s) ->
  (forall a s, Inv a s -> Q (Throw Diverges) s) ->
  Inv a s -> wp (while fuel body a) Q s.
Proof.
  intros Hb Hd HI. unfold wp, while, bind. rewrite loop_pos_nat. generalize (Pos.to_nat fuel) as n. intros n.
  revert a s HI. induction n as [|n IH]; intros a s HI; cbn [loop_nat]; [by eapply Hd|].
  unfold bind. specialize (Hb a s HI). unfold wp in Hb. destruct (body a s) as [[[a'|b]|e] s']; cbn in *; auto.
Qed.

(** The same with a measure and enough fuel: the loop does not exceed its bound. *)
Lemma wp_while_total (fuel : positive) (body : A -> M S (A + B)) (Inv : A -> S -> Prop) (mu : A -> nat) Q a s :
  (forall a s, Inv a s -> wp (body a) (fun r s' => match r with
     | Ok (inl a') => Inv a' s' /\ (mu a' < mu a)%nat
     | Ok (inr b) => Q (Ok b) s'
     | Throw e => Q (Throw e) s'
     end) s) ->
  Inv a s -> (mu a < Pos.to_nat fuel)%nat -> wp (while fuel body a) Q s.
Proof.
  intros Hb HI Hf. unfold wp, while, bind. rewrite loop_pos_nat. revert Hf. generalize (Pos.to_nat fuel) as n. intros n.
  revert a s HI. induction n as [|n IH]; intros a s HI Hf; cbn [loop_nat]; [lia|].
  unfold bind. specialize (Hb a s HI). unfold wp in Hb. destruct (body a s) as [[[a'|b]|e] s']; cbn in *; [|done|done].
  apply IH; [tauto|lia].
Qed.
End WP.

(** ** Proof automation *)

(** [mstep H] rewrites the head computation of the goal with [H : m s = (Ok a, s')]. *)
Ltac mstep H := first [ rewrite (bind_ok _ _ _ _ _ H) | rewrite (bind_throw _ _ _ _ _ H) ].

(** Case analysis on every boolean test of the goal, arithmetic ones reflected. *)
Ltac split_if :=
  repeat match goal with
  | |- context [ if (?a <? ?b)%Z then _ else _ ] => destruct (Z.ltb_spec a b)
  | |- context [ if (?a <=? ?b)%Z then _ else _ ] => destruct (Z.leb_spec a b)
  | |- context [ if (?a =? ?b)%Z then _ else _ ] => destruct (Z.eqb_spec a b)
  | |- context [ if ?b then _ else _ ] => destruct b eqn:?
  end.

Create HintDb cpp discriminated.
#[export] Hint Resolve zlen_nonneg b2z_range : cpp.
