(* ===== verification/Streams.v ===== *)
(** * Byte streams (clickhouse/base/input.h, input.cpp, output.h, output.cpp)

    The abstract [InputStream] and [OutputStream] classes of the code are type
    classes; what a client of a stream may rely on is the class of laws
    [InputStreamLaws] / [OutputStreamLaws], against which the wire format is
    verified.  [ArrayInput], [BufferedInput], [ArrayOutput], [BufferOutput] and
    [BufferedOutput] are modelled with their buffers, and the laws are proved
    for them: no byte is lost, duplicated or reordered. *)

From S2P Require Import Prelude.

(** ** Interfaces *)

(** [DoRead len] yields the bytes copied to the caller's buffer, at most [len]. *)
Class InputStream (I : Type) := {
  DoRead : Z -> M I bytes;
  Skip : Z -> M I bool;
}.

(** [DoWrite data] yields the number of bytes taken from [data]. *)
Class OutputStream (O : Type) := {
  DoWrite : bytes -> M O Z;
  DoFlush : M O unit;
}.

(** [DoNext len] yields the bytes of the region handed out, at most [len]. *)
Class ZeroCopyInput (I : Type) := { DoNext : Z -> M I bytes }.

(** [DoNextOut len] reserves a region and yields its address (an offset in the
    stream's buffer) and size; [memcpy_to] fills it. *)
Class ZeroCopyOutput (O : Type) := {
  DoNextOut : Z -> M O (Z * Z);
  memcpy_to : Z -> bytes -> M O unit;
}.

Definition ReadByte {I} `{InputStream I} : M I (option byte) :=
  let* got := DoRead 1 in
  match got with
  | [b] => ret (Some b)
  | _ => ret None
  end.

Definition Read {I} `{InputStream I} (len : Z) : M I bytes := DoRead len.

Definition Write {O} `{OutputStream O} (data : bytes) : M O Z := DoWrite data.

Definition Flush {O} `{OutputStream O} : M O unit := DoFlush.

(** ** Zero-copy base classes *)

Definition ZeroCopyInput_DoRead {I} `{ZeroCopyInput I} (len : Z) : M I bytes :=
  let* result := DoNext len in
  ret result.

(** One iteration of the loop of [ZeroCopyInput::Skip]. *)
Definition ZeroCopyInput_Skip_step {I} `{ZeroCopyInput I} (n : Z) : M I (Z + bool) :=
  if 0 <? n then
    let* chunk := DoNext n in
    if zlen chunk =? 0 then ret (inr false)
    else ret (inl (n - zlen chunk))
  else ret (inr true).

Definition ZeroCopyInput_Skip {I} `{ZeroCopyInput I} (n : Z) : M I bool :=
  while (Z.to_pos (n + 1)) ZeroCopyInput_Skip_step n.

Definition ZeroCopyOutput_DoWrite_step {O} `{ZeroCopyOutput O} (data : bytes) : M O (bytes + bytes) :=
  if 0 <? zlen data then
    let* '(ptr, result) := DoNextOut (zlen data) in
    if result =? 0 then ret (inr data)
    else
      memcpy_to ptr (ztake result data) ;;;
      ret (inl (zdrop result data))
  else ret (inr data).

Definition ZeroCopyOutput_DoWrite {O} `{ZeroCopyOutput O} (data : bytes) : M O Z :=
  let original_len := zlen data in
  let* rest := while (Z.to_pos (original_len + 1)) ZeroCopyOutput_DoWrite_step data in
  ret (original_len - zlen rest).

(** ** Laws of input streams

    [pending i] is everything the stream has still to deliver; [in_good i]
    holds when reading it meets no error. *)
Class InputStreamLaws (I : Type) `{InputStream I} := {
  pending : I -> bytes;
  in_good : I -> Prop;
  DoRead_law : forall i len, in_good i -> 0 < len -> pending i <> [] ->
    exists got i', DoRead len i = (Ok got, i') /\ got <> [] /\ zlen got <= len /\
      pending i = got ++ pending i' /\ in_good i';
}.

(** Streams that report the end of their data by a read of length 0, and that
    can skip. *)
Class InputStreamEof (I : Type) `{InputStreamLaws I} := {
  DoRead_eof : forall i len, in_good i -> 0 < len -> pending i = [] ->
    exists i', DoRead len i = (Ok [], i') /\ pending i' = [] /\ in_good i';
  Skip_law : forall i n, in_good i -> 0 <= n ->
    exists i', Skip n i = (Ok (n <=? zlen (pending i)), i') /\
      pending i' = zdrop n (pending i) /\ in_good i';
}.

(** Streams that can skip what is there. *)
Class InputStreamSkip (I : Type) `{InputStreamLaws I} :=
  Skip_within : forall i n, in_good i -> 0 <= n <= zlen (pending i) ->
    exists i', Skip n i = (Ok true, i') /\ pending i' = zdrop n (pending i) /\ in_good i'.

#[global] Instance InputStreamEof_Skip {I} `{InputStreamEof I} : InputStreamSkip I.
Proof.
  intros i n Hg Hn. destruct (Skip_law i n Hg ltac:(lia)) as (i' & E & Hp & Hg'). exists i'.
  by rewrite (proj2 (Z.leb_le _ _)) in E by lia.
Qed.

(** ** Laws of output streams

    [accepted o] is everything written to the stream so far, in order. *)
Class OutputStreamLaws (O : Type) `{OutputStream O} := {
  accepted : O -> bytes;
  out_good : O -> Prop;
  DoWrite_law : forall o data, out_good o -> data <> [] ->
    exists n o', DoWrite data o = (Ok n, o') /\ 0 < n <= zlen data /\
      accepted o' = accepted o ++ ztake n data /\ out_good o';
  DoFlush_law : forall o, out_good o ->
    exists o', DoFlush o = (Ok tt, o') /\ accepted o' = accepted o /\ out_good o';
}.

(** ** ArrayInput: the memory block [data_, data_ + len_) still to be read. *)

Record ArrayInput := mkArrayInput { ai_data : bytes }.

Definition ArrayInput_Avail (a : ArrayInput) : Z := zlen (ai_data a).

Definition ArrayInput_Exhausted (a : ArrayInput) : bool := ArrayInput_Avail a =? 0.

Definition ArrayInput_Reset (buf : bytes) (_ : ArrayInput) : ArrayInput := mkArrayInput buf.

Definition ArrayInput_DoNext (len : Z) : M ArrayInput bytes :=
  fun a =>
    let len := Z.min (ArrayInput_Avail a) len in
    (Ok (ztake len (ai_data a)), mkArrayInput (zdrop len (ai_data a))).

#[global] Arguments ArrayInput_DoNext : simpl never.

#[global] Instance ArrayInput_ZC : ZeroCopyInput ArrayInput := {| DoNext := ArrayInput_DoNext |}.

#[global] Instance ArrayInput_IS : InputStream ArrayInput :=
  {| DoRead := ZeroCopyInput_DoRead; Skip := ZeroCopyInput_Skip |}.

(** ** BufferedInput: a buffer of [bi_size] bytes in front of a source. *)

Record BufferedInput (Src : Type) := mkBufferedInput {
  bi_source : Src;
  bi_array : ArrayInput;
  bi_size : Z;
}.
Arguments mkBufferedInput {Src}.
Arguments bi_source {Src}.
Arguments bi_array {Src}.
Arguments bi_size {Src}.

Section BufferedInputOps.
Context {Src : Type} `{InputStream Src}.

Definition BufferedInput_new (source : Src) (buflen : Z) : BufferedInput Src :=
  mkBufferedInput source (mkArrayInput []) buflen.

Definition BufferedInput_Reset (b : BufferedInput Src) : BufferedInput Src :=
  mkBufferedInput (bi_source b) (ArrayInput_Reset [] (bi_array b)) (bi_size b).

Definition bi_on_source {A} (m : M Src A) : M (BufferedInput Src) A :=
  zoom bi_source (fun s b => mkBufferedInput s (bi_array b) (bi_size b)) m.

Definition bi_on_array {A} (m : M ArrayInput A) : M (BufferedInput Src) A :=
  zoom bi_array (fun a b => mkBufferedInput (bi_source b) a (bi_size b)) m.

(** [array_input_.Reset(buffer_.data(), source_->Read(buffer_.data(), buffer_.size()))] *)
Definition bi_refill : M (BufferedInput Src) unit :=
  let* b := get in
  let* got := bi_on_source (Read (bi_size b)) in
  bi_on_array (modify (ArrayInput_Reset got)).

Definition BufferedInput_DoNext (len : Z) : M (BufferedInput Src) bytes :=
  let* b := get in
  (if ArrayInput_Exhausted (bi_array b) then bi_refill else ret tt) ;;;
  bi_on_array (ArrayInput_DoNext len).

Definition BufferedInput_DoRead (len : Z) : M (BufferedInput Src) bytes :=
  let* b := get in
  if ArrayInput_Exhausted (bi_array b) then
    if bi_size b / 2 <? len then
      bi_on_source (Read len)
    else
      bi_refill ;;;
      bi_on_array (Read len)
  else
    bi_on_array (Read len).

#[global] Instance BufferedInput_ZC : ZeroCopyInput (BufferedInput Src) :=
  {| DoNext := BufferedInput_DoNext |}.

#[global] Instance BufferedInput_IS : InputStream (BufferedInput Src) :=
  {| DoRead := BufferedInput_DoRead; Skip := ZeroCopyInput_Skip |}.
End BufferedInputOps.

(** ** ArrayOutput: a memory block and a write position. *)

Record ArrayOutput := mkArrayOutput {
  ao_mem : bytes;   (** the block [buf, buf + buffer_size_) *)
  ao_pos : Z;       (** [buf_] minus the start of the block *)
}.

Definition ArrayOutput_Avail (a : ArrayOutput) : Z := zlen (ao_mem a) - ao_pos a.

Definition ArrayOutput_Size (a : ArrayOutput) : Z := zlen (ao_mem a) - ArrayOutput_Avail a.

Definition ArrayOutput_Reset (mem : bytes) (_ : ArrayOutput) : ArrayOutput := mkArrayOutput mem 0.

Definition ArrayOutput_DoNext (len : Z) : M ArrayOutput (Z * Z) :=
  fun a =>
    let len := Z.min len (ArrayOutput_Avail a) in
    (Ok (ao_pos a, len), mkArrayOutput (ao_mem a) (ao_pos a + len)).

(** A store of [data] at offset [off]; writing outside the block is undefined. *)
Definition mem_store (off : Z) (data mem : bytes) : option bytes :=
  if (0 <=? off) && (off + zlen data <=? zlen mem)
  then Some (ztake off mem ++ data ++ zdrop (off + zlen data) mem)
  else None.

Definition ArrayOutput_memcpy (off : Z) (data : bytes) : M ArrayOutput unit :=
  fun a =>
    match mem_store off data (ao_mem a) with
    | Some mem => (Ok tt, mkArrayOutput mem (ao_pos a))
    | None => (Throw Undefined, a)
    end.

#[global] Instance ArrayOutput_ZC : ZeroCopyOutput ArrayOutput :=
  {| DoNextOut := ArrayOutput_DoNext; memcpy_to := ArrayOutput_memcpy |}.

#[global] Instance ArrayOutput_OS : OutputStream ArrayOutput :=
  {| DoWrite := ZeroCopyOutput_DoWrite; DoFlush := ret tt |}.

(** ** BufferOutput: a vector that grows, and a write position. *)

Record BufferOutput := mkBufferOutput { bo_buf : bytes; bo_pos : Z }.

Definition resize (n : Z) (l : bytes) : bytes :=
  ztake n l ++ replicate (Z.to_nat (n - zlen l)) x00.

Definition BufferOutput_DoNext (len : Z) : M BufferOutput (Z * Z) :=
  fun b =>
    let buf := if zlen (bo_buf b) <? bo_pos b + len
               then resize (bo_pos b + len) (bo_buf b) else bo_buf b in
    (Ok (bo_pos b, len), mkBufferOutput buf (bo_pos b + len)).

Definition BufferOutput_memcpy (off : Z) (data : bytes) : M BufferOutput unit :=
  fun b =>
    match mem_store off data (bo_buf b) with
    | Some buf => (Ok tt, mkBufferOutput buf (bo_pos b))
    | None => (Throw Undefined, b)
    end.

#[global] Instance BufferOutput_ZC : ZeroCopyOutput BufferOutput :=
  {| DoNextOut := BufferOutput_DoNext; memcpy_to := BufferOutput_memcpy |}.

#[global] Instance BufferOutput_OS : OutputStream BufferOutput :=
  {| DoWrite := ZeroCopyOutput_DoWrite; DoFlush := ret tt |}.

(** ** BufferedOutput: a buffer in front of a destination. *)

Record BufferedOutput (Dst : Type) := mkBufferedOutput {
  bo_destination : Dst;
  bo_array : ArrayOutput;   (** [array_output_], over [buffer_] *)
}.
Arguments mkBufferedOutput {Dst}.
Arguments bo_destination {Dst}.
Arguments bo_array {Dst}.

Section BufferedOutputOps.
Context {Dst : Type} `{OutputStream Dst}.

Definition BufferedOutput_new (destination : Dst) (buflen : Z) : BufferedOutput Dst :=
  mkBufferedOutput destination (mkArrayOutput (replicate (Z.to_nat buflen) x00) 0).

Definition BufferedOutput_Reset (b : BufferedOutput Dst) : BufferedOutput Dst :=
  mkBufferedOutput (bo_destination b) (ArrayOutput_Reset (ao_mem (bo_array b)) (bo_array b)).

Definition bo_on_dst {A} (m : M Dst A) : M (BufferedOutput Dst) A :=
  zoom bo_destination (fun d b => mkBufferedOutput d (bo_array b)) m.

Definition bo_on_array {A} (m : M ArrayOutput A) : M (BufferedOutput Dst) A :=
  zoom bo_array (fun a b => mkBufferedOutput (bo_destination b) a) m.

(** One iteration of [while (len > 0) { written = destination_->Write(buf, len); ... }];
    the state of the loop is the slice [buf, buf + len). *)
Definition BufferedOutput_DoFlush_step (buf : bytes) : M Dst (bytes + unit) :=
  if 0 <? zlen buf then
    let* written := Write buf in
    ret (inl (zdrop written buf))
  else ret (inr tt).

Definition BufferedOutput_DoFlush : M (BufferedOutput Dst) unit :=
  let* b := get in
  let a := bo_array b in
  if ao_pos a =? 0 then ret tt
  else
    bo_on_dst (while (Z.to_pos (ao_pos a + 1)) BufferedOutput_DoFlush_step
                     (ztake (ao_pos a) (ao_mem a))) ;;;
    bo_on_dst Flush ;;;
    bo_on_array (modify (ArrayOutput_Reset (ao_mem a))).

Definition BufferedOutput_DoNext (len : Z) : M (BufferedOutput Dst) (Z * Z) :=
  let* b := get in
  (if ArrayOutput_Avail (bo_array b) <? len then BufferedOutput_DoFlush else ret tt) ;;;
  bo_on_array (ArrayOutput_DoNext len).

Definition BufferedOutput_DoWrite (data : bytes) : M (BufferedOutput Dst) Z :=
  let* b := get in
  if ArrayOutput_Avail (bo_array b) <? zlen data then
    BufferedOutput_DoFlush ;;;
    if zlen (ao_mem (bo_array b)) / 2 <? zlen data then
      bo_on_dst (Write data)
    else
      bo_on_array (Write data)
  else
    bo_on_array (Write data).

#[global] Instance BufferedOutput_OS : OutputStream (BufferedOutput Dst) :=
  {| DoWrite := BufferedOutput_DoWrite; DoFlush := BufferedOutput_DoFlush |}.
End BufferedOutputOps.

#[global] Arguments ArrayOutput_DoNext : simpl never.
#[global] Arguments ArrayOutput_memcpy : simpl never.
#[global] Arguments BufferOutput_DoNext : simpl never.
#[global] Arguments BufferOutput_memcpy : simpl never.
#[global] Arguments ztake : simpl never.
#[global] Arguments zdrop : simpl never.
#[global] Arguments zlen : simpl never.

(** ** Input streams satisfy their laws *)

Lemma zlen_resize (n : Z) (l : bytes) : 0 <= n -> zlen (resize n l) = n.
Proof.
  intros. unfold resize. rewrite zlen_app, zlen_ztake, zlen_replicate by done. pose proof (zlen_nonneg l). lia.
Qed.

Lemma ztake_min_l {A} (n : Z) (l : list A) : ztake (Z.min (zlen l) n) l = ztake n l.
Proof. unfold ztake. do 2 f_equal. lia. Qed.

Lemma zdrop_min_l {A} (n : Z) (l : list A) : zdrop (Z.min (zlen l) n) l = zdrop n l.
Proof. unfold zdrop. do 2 f_equal. lia. Qed.

Lemma ztake_nil {A} (n : Z) : ztake n (@nil A) = [].
Proof. unfold ztake. apply take_nil. Qed.

Lemma zdrop_nil {A} (n : Z) : zdrop n (@nil A) = [].
Proof. unfold zdrop. apply drop_nil. Qed.

Lemma ztake_nil_inv {A} (n : Z) (l : list A) : 0 < n -> ztake n l = [] -> l = [].
Proof.
  intros Hn H. apply zlen_0. apply (f_equal zlen) in H.
  rewrite zlen_ztake, zlen_nil in H by lia. pose proof (zlen_nonneg l). lia.
Qed.

Lemma ArrayInput_DoNext_eq (len : Z) (a : ArrayInput) :
  ArrayInput_DoNext len a = (Ok (ztake len (ai_data a)), mkArrayInput (zdrop len (ai_data a))).
Proof.
  unfold ArrayInput_DoNext, ArrayInput_Avail. by rewrite ztake_min_l, zdrop_min_l.
Qed.

(** The loop of [ZeroCopyInput::Skip], for any stream whose [DoNext] hands out
    a non-empty piece of what is pending as long as there is any. *)
Section SkipLoop.
Context {I : Type} `{ZeroCopyInput I} (pend : I -> bytes) (good : I -> Prop).
Hypothesis next_ok : forall i len, good i -> 0 < len ->
  exists got i', DoNext len i = (Ok got, i') /\ (pend i <> [] -> got <> []) /\
    zlen got <= len /\ pend i = got ++ pend i' /\ good i'.

Lemma ZeroCopyInput_Skip_ok (i : I) (n : Z) : good i -> 0 <= n ->
  exists i', ZeroCopyInput_Skip n i = (Ok (n <=? zlen (pend i)), i') /\
    pend i' = zdrop n (pend i) /\ good i'.
Proof.
  intros Hg Hn.
  destruct (while_rule ZeroCopyInput_Skip_step
    (fun m j => good j /\ 0 <= m <= n /\ (n - m <= zlen (pend i)) /\ pend j = zdrop (n - m) (pend i))
    (fun m j => Z.to_nat m)
    (fun b j => b = (n <=? zlen (pend i)) /\ pend j = zdrop n (pend i) /\ good j))
    with (fuel := Z.to_pos (n + 1)) (a := n) (s := i) as (b & j & Hw & -> & Hp & Hj).
  - intros m j (Hgj & Hm & Hle & Hp). unfold ZeroCopyInput_Skip_step.
    destruct (Z.ltb_spec 0 m) as [Hpos|Hz].
    + destruct (next_ok j m Hgj Hpos) as (got & j' & E & Hne & Hl & Hd & Hg').
      unfold bind. rewrite E. destruct (Z.eqb_spec (zlen got) 0) as [H0|H0].
      * eexists (inr false), j'. split; [done|]. apply zlen_0 in H0. subst got.
        assert (pend j = []) as Hnil by (destruct (pend j); [done|by specialize (Hne ltac:(done))]).
        rewrite Hp in Hnil. apply (f_equal zlen) in Hnil. rewrite zlen_zdrop, zlen_nil in Hnil by lia.
        simpl in Hd. split_and!; [|rewrite <- Hd, Hp|done].
        -- symmetry. apply Z.leb_gt. lia.
        -- rewrite !zdrop_all; [done|lia|lia].
      * eexists (inl _), j'. split; [done|]. pose proof (zlen_nonneg got).
        assert (zlen got <= zlen (pend j)) by (rewrite Hd; zlen; pose proof (zlen_nonneg (pend j')); lia).
        rewrite Hp, zlen_zdrop in H2 by lia.
        split_and!; [done|lia|lia|lia| |lia].
        replace (n - (m - zlen got)) with ((n - m) + zlen got) by lia.
        rewrite <- zdrop_zdrop, <- Hp, Hd by lia. by rewrite zdrop_app_exact.
    + eexists (inr true), j. split; [done|]. replace m with 0 in * by lia.
      rewrite Z.sub_0_r in *. split_and!; [|done|done]. symmetry. apply Z.leb_le. lia.
  - rewrite Z.sub_diag, zdrop_0. pose proof (zlen_nonneg (pend i)). split_and!; (done || lia).
  - lia.
  - exists j. split_and!; done.
Qed.
End SkipLoop.

(** The same loop on a stream that may fail at its end, as a socket does: skipping what is there. *)
Section SkipWithin.
Context {I : Type} `{ZeroCopyInput I} (pend : I -> bytes) (good : I -> Prop).
Hypothesis next_ok : forall i len, good i -> 0 < len -> pend i <> [] ->
  exists got i', DoNext len i = (Ok got, i') /\ got <> [] /\ zlen got <= len /\ pend i = got ++ pend i' /\ good i'.

Lemma ZeroCopyInput_Skip_within (i : I) (n : Z) : good i -> 0 <= n <= zlen (pend i) ->
  exists i', ZeroCopyInput_Skip n i = (Ok true, i') /\ pend i' = zdrop n (pend i) /\ good i'.
Proof.
  intros Hg Hn.
  destruct (while_rule ZeroCopyInput_Skip_step
    (fun m j => good j /\ 0 <= m <= n /\ pend j = zdrop (n - m) (pend i))
    (fun m j => Z.to_nat m)
    (fun b j => b = true /\ pend j = zdrop n (pend i) /\ good j))
    with (fuel := Z.to_pos (n + 1)) (a := n) (s := i) as (b & j & Hw & -> & Hp & Hj).
  - intros m j (Hgj & Hm & Hp). unfold ZeroCopyInput_Skip_step. destruct (Z.ltb_spec 0 m) as [Hpos|Hz].
    + assert (pend j <> []) as Hne.
      { intros E. rewrite E in Hp. apply (f_equal zlen) in Hp. rewrite zlen_zdrop, zlen_nil in Hp by lia. lia. }
      destruct (next_ok j m Hgj Hpos Hne) as (got & j' & E & Hgot & Hl & Hd & Hg'). unfold bind. rewrite E.
      pose proof (zlen_pos _ Hgot). rewrite (proj2 (Z.eqb_neq (zlen got) 0)) by lia.
      eexists (inl _), j'. split; [done|]. split_and!; [done|lia|lia| |lia].
      replace (n - (m - zlen got)) with ((n - m) + zlen got) by lia.
      rewrite <- zdrop_zdrop, <- Hp, Hd by lia. by rewrite zdrop_app_exact.
    + eexists (inr true), j. split; [done|]. replace m with 0 in * by lia. rewrite Z.sub_0_r in *. done.
  - rewrite Z.sub_diag, zdrop_0. split_and!; (done || lia).
  - lia.
  - exists j. split_and!; done.
Qed.
End SkipWithin.

Lemma ArrayInput_Read_ok (a : ArrayInput) (len : Z) : 0 < len -> ai_data a <> [] ->
  exists got a', DoRead len a = (Ok got, a') /\ got <> [] /\ zlen got <= len /\
    ai_data a = got ++ ai_data a' /\ True.
Proof.
  intros Hlen Hne. cbn [DoRead ArrayInput_IS]. unfold ZeroCopyInput_DoRead, bind.
  cbn [DoNext ArrayInput_ZC]. rewrite ArrayInput_DoNext_eq.
  eexists _, _. split_and!; [done| | |cbn; by rewrite ztake_zdrop|done].
  - intros E. apply ztake_nil_inv in E; done.
  - rewrite zlen_ztake; lia.
Qed.

#[global] Instance ArrayInput_laws : InputStreamLaws ArrayInput :=
  {| pending := ai_data; in_good := fun _ => True;
     DoRead_law := fun a len _ => ArrayInput_Read_ok a len |}.

#[global] Instance ArrayInput_eof : InputStreamEof ArrayInput.
Proof.
  split.
  - intros i len _ Hlen Hp. cbn in *. unfold ZeroCopyInput_DoRead, bind. cbn.
    rewrite ArrayInput_DoNext_eq, Hp, ztake_nil, zdrop_nil. by eexists.

  - intros i n Hg Hn. cbn [Skip ArrayInput_IS].
    apply (ZeroCopyInput_Skip_ok ai_data (fun _ => True)); [|done|done].
    intros j len _ Hlen. cbn. rewrite ArrayInput_DoNext_eq.
    eexists _, _. split_and!; [done| | |cbn; by rewrite ztake_zdrop|done].
    + intros ? E. apply ztake_nil_inv in E; done.
    + rewrite zlen_ztake; lia.
Qed.

Section BufferedInputLaws.
Context {Src : Type} `{InputStreamLaws Src}.

Definition bi_pending (b : BufferedInput Src) : bytes := ai_data (bi_array b) ++ pending (bi_source b).

Definition bi_good (b : BufferedInput Src) : Prop := in_good (bi_source b) /\ 0 < bi_size b.

Lemma exhausted_spec (a : ArrayInput) : ArrayInput_Exhausted a = bool_decide (ai_data a = []).
Proof.
  unfold ArrayInput_Exhausted, ArrayInput_Avail. case_bool_decide as E.
  - by rewrite E.
  - apply Z.eqb_neq. pose proof (zlen_pos _ E). lia.
Qed.

Lemma bi_refill_ok (b : BufferedInput Src) :
  bi_good b -> ai_data (bi_array b) = [] -> pending (bi_source b) <> [] ->
  exists b', bi_refill b = (Ok tt, b') /\ bi_good b' /\ bi_size b' = bi_size b /\
    ai_data (bi_array b') <> [] /\ bi_pending b' = bi_pending b.
Proof.
  intros [Hg Hs] He Hne. destruct (DoRead_law _ _ Hg Hs Hne) as (got & s' & E & Hgot & _ & Hp & Hg').
  unfold bi_refill, bind, bi_on_source, bi_on_array, zoom, get, Read. cbn. rewrite E. cbn.
  eexists. split; [done|]. unfold bi_good, bi_pending. cbn. rewrite He, Hp. done.
Qed.

Lemma bi_array_read (len : Z) (b : BufferedInput Src) :
  bi_good b -> 0 < len -> ai_data (bi_array b) <> [] ->
  exists got b', bi_on_array (Read len) b = (Ok got, b') /\ got <> [] /\ zlen got <= len /\
    bi_pending b = got ++ bi_pending b' /\ bi_good b'.
Proof.
  intros Hg Hlen Hne. destruct (ArrayInput_Read_ok (bi_array b) len Hlen Hne)
    as (got & a' & E & Hgot & Hl & Hp & _).
  unfold bi_on_array, zoom, Read. rewrite E. eexists _, _. split; [done|].
  unfold bi_pending. cbn. rewrite Hp, <- app_assoc. done.
Qed.

#[global, refine] Instance BufferedInput_laws : InputStreamLaws (BufferedInput Src) :=
  {| pending := bi_pending; in_good := bi_good |}.
Proof.
  intros b len Hg Hlen Hne. cbn [DoRead BufferedInput_IS].
  unfold BufferedInput_DoRead, bind, get. rewrite exhausted_spec. case_bool_decide as He.
  - assert (pending (bi_source b) <> []) as Hs by (unfold bi_pending in Hne; by rewrite He in Hne).
    destruct (Z.ltb_spec (bi_size b / 2) len).
    + destruct Hg as [Hg Hsz]. destruct (DoRead_law _ _ Hg Hlen Hs) as (got & s' & E & ? & ? & Hp & ?).
      unfold bi_on_source, zoom, Read. rewrite E. eexists _, _. split; [done|].
      unfold bi_pending, bi_good. cbn. rewrite He, Hp. done.
    + destruct (bi_refill_ok b Hg He Hs) as (b' & E & Hg' & _ & Hn' & Hp). rewrite E, <- Hp.
      by apply bi_array_read.
  - by apply bi_array_read.
Defined.

Lemma BufferedInput_DoNext_ok (b : BufferedInput Src) (len : Z) :
  bi_good b -> 0 < len -> bi_pending b <> [] ->
  exists got b', BufferedInput_DoNext len b = (Ok got, b') /\ got <> [] /\ zlen got <= len /\
    bi_pending b = got ++ bi_pending b' /\ bi_good b'.
Proof.
  intros Hg Hlen Hne. unfold BufferedInput_DoNext, bind, get. rewrite exhausted_spec.
  assert (forall c : BufferedInput Src, bi_on_array (ArrayInput_DoNext len) c = bi_on_array (Read len) c) as Heq.
  { intros c. unfold bi_on_array, zoom, Read. cbn. unfold ZeroCopyInput_DoRead, bind. cbn.
    by rewrite ArrayInput_DoNext_eq. }
  case_bool_decide as He.
  - assert (pending (bi_source b) <> []) as Hs by (unfold bi_pending in Hne; by rewrite He in Hne).
    destruct (bi_refill_ok b Hg He Hs) as (b' & E & Hg' & _ & Hn' & Hp). rewrite E, <- Hp, Heq.
    by apply bi_array_read.
  - cbn. rewrite Heq. by apply bi_array_read.
Qed.

#[global] Instance BufferedInput_skip : InputStreamSkip (BufferedInput Src).
Proof.
  intros b n Hg Hn. apply (ZeroCopyInput_Skip_within bi_pending bi_good); [|done|done].
  intros i len. apply BufferedInput_DoNext_ok.
Qed.
End BufferedInputLaws.

Section BufferedInputEof.
Context {Src : Type} `{InputStreamEof Src}.

Lemma BufferedInput_DoNext_eof (b : BufferedInput Src) (len : Z) :
  bi_good b -> bi_pending b = [] ->
  exists b', BufferedInput_DoNext len b = (Ok [], b') /\ bi_pending b' = [] /\ bi_good b'.
Proof.
  intros [Hg Hs] Hp. unfold bi_pending in Hp. apply app_eq_nil in Hp as [Ha Hp].
  unfold BufferedInput_DoNext, bind, get. rewrite exhausted_spec, bool_decide_true by done.
  destruct (DoRead_eof _ _ Hg Hs Hp) as (s' & E & Hp' & Hg').
  unfold bi_refill, bind, get, bi_on_source, bi_on_array, zoom, Read. cbn. rewrite E. cbn.
  rewrite ArrayInput_DoNext_eq. cbn. rewrite ztake_nil, zdrop_nil.
  eexists. split; [done|]. unfold bi_pending, bi_good. done.
Qed.

#[global] Instance BufferedInput_eof : InputStreamEof (BufferedInput Src).
Proof.
  split.
  - intros b len [Hg Hs] Hlen Hp. cbn in Hp. unfold bi_pending in Hp.
    apply app_eq_nil in Hp as [Ha Hp]. cbn [DoRead BufferedInput_IS].
    unfold BufferedInput_DoRead, bind, get. rewrite exhausted_spec, bool_decide_true by done.
    destruct (Z.ltb_spec (bi_size b / 2) len).
    + destruct (DoRead_eof _ _ Hg Hlen Hp) as (s' & E & Hp' & Hg').
      unfold bi_on_source, zoom, Read. rewrite E. eexists. split; [done|].
      cbn. unfold bi_pending, bi_good. cbn. by rewrite Ha.
    + destruct (DoRead_eof _ _ Hg Hs Hp) as (s' & E & Hp' & Hg').
      unfold bi_refill, bind, get, bi_on_source, bi_on_array, zoom, Read. cbn. rewrite E. cbn.
      unfold ZeroCopyInput_DoRead, bind. cbn. rewrite ArrayInput_DoNext_eq. cbn.
      rewrite ztake_nil, zdrop_nil. eexists. split; [done|]. unfold bi_pending, bi_good. done.
  - intros b n Hg Hn. cbn [Skip BufferedInput_IS].
    apply (ZeroCopyInput_Skip_ok bi_pending bi_good); [|done|done].
    intros c len Hc Hlen. cbn [DoNext BufferedInput_ZC].
    destruct (decide (bi_pending c = [])) as [E|E].
    + destruct (BufferedInput_DoNext_eof c len Hc E) as (c' & -> & Hp & Hg').
      eexists _, _. rewrite E, Hp. split_and!; (done || zlen).
    + destruct (BufferedInput_DoNext_ok c len Hc Hlen E) as (got & c' & -> & ? & ? & ? & ?).
      eexists _, _. split_and!; done.
Qed.
End BufferedInputEof.

(** ** Output streams satisfy their laws *)

Lemma mem_store_ok (off : Z) (data mem : bytes) :
  0 <= off -> off + zlen data <= zlen mem ->
  exists mem', mem_store off data mem = Some mem' /\ zlen mem' = zlen mem /\
    ztake (off + zlen data) mem' = ztake off mem ++ data.
Proof.
  intros H0 H1. unfold mem_store. pose proof (zlen_nonneg data).
  rewrite (proj2 (Z.leb_le 0 off)), (proj2 (Z.leb_le _ _)) by lia. cbn.
  eexists. split; [done|]. rewrite app_assoc.
  assert (zlen (ztake off mem ++ data) = off + zlen data) as Hl
    by (rewrite zlen_app, zlen_ztake by lia; lia).
  split.
  - rewrite zlen_app, Hl, zlen_zdrop by lia. lia.
  - rewrite <- Hl. apply ztake_app_exact.
Qed.

Definition ao_ok (a : ArrayOutput) : Prop := 0 <= ao_pos a <= zlen (ao_mem a).

(** What has been written to the block. *)
Definition ao_written (a : ArrayOutput) : bytes := ztake (ao_pos a) (ao_mem a).

Lemma zlen_ao_written (a : ArrayOutput) : ao_ok a -> zlen (ao_written a) = ao_pos a.
Proof. intros [? ?]. unfold ao_written. rewrite zlen_ztake; lia. Qed.

(** A write takes as much as fits: the whole data when the block has room. *)
(** One turn of the copy loop moves what fits. *)
Lemma ArrayOutput_step_ok (c : ArrayOutput) (d : bytes) : ao_ok c ->
  let n := Z.min (zlen d) (ArrayOutput_Avail c) in
  exists c', ZeroCopyOutput_DoWrite_step d c = (Ok (if 0 <? n then inl (zdrop n d) else inr d), c') /\
    ao_ok c' /\ zlen (ao_mem c') = zlen (ao_mem c) /\ ao_pos c' = ao_pos c + n /\ ao_written c' = ao_written c ++ ztake n d.
Proof.
  intros Hok n. pose proof (zlen_nonneg d). assert (0 <= n) as Hn by (unfold n, ArrayOutput_Avail, ao_ok in *; lia).
  assert (n = 0 -> ao_pos c = ao_pos c + n /\ ao_written c = ao_written c ++ ztake n d) as Hstop by (intros ->; rewrite ztake_0, app_nil_r; split; [lia|done]).
  unfold ZeroCopyOutput_DoWrite_step. destruct (Z.ltb_spec 0 (zlen d)) as [Hpos|Hz].
  - cbn [DoNextOut memcpy_to ArrayOutput_ZC]. unfold bind, ArrayOutput_DoNext. fold n. destruct (Z.eqb_spec n 0) as [H0|H0].
    + eexists. split; [rewrite (proj2 (Z.ltb_ge 0 n)) by lia; reflexivity|]. destruct (Hstop H0). unfold ao_ok, ao_written in *. cbn [ao_mem ao_pos].
      rewrite H0, Z.add_0_r, ztake_0, app_nil_r. split_and!; (done || lia).
    + rewrite (proj2 (Z.ltb_lt 0 n)) by lia. assert (zlen (ztake n d) = n) as Hln by (rewrite zlen_ztake; unfold n; lia).
      destruct (mem_store_ok (ao_pos c) (ztake n d) (ao_mem c)) as (mem' & Hst & Hl & Ht);
        [unfold ao_ok in Hok; lia|rewrite Hln; unfold n, ArrayOutput_Avail; lia|].
      unfold ArrayOutput_memcpy. cbn [ao_mem ao_pos]. rewrite Hst. eexists. split; [reflexivity|]. unfold ao_ok, ao_written in *. cbn [ao_mem ao_pos].
      rewrite Hln in Ht. split_and!; [unfold n, ArrayOutput_Avail; lia|unfold n, ArrayOutput_Avail; lia|lia|done|by rewrite Ht].
  - exists c. assert (n = 0) as H0 by (unfold n, ArrayOutput_Avail, ao_ok in *; lia). rewrite (proj2 (Z.ltb_ge 0 n)) by lia. by destruct (Hstop H0).
Qed.

Lemma ArrayOutput_DoWrite_ok (a : ArrayOutput) (data : bytes) : ao_ok a ->
  exists a', DoWrite data a = (Ok (Z.min (zlen data) (ArrayOutput_Avail a)), a') /\
    ao_ok a' /\ zlen (ao_mem a') = zlen (ao_mem a) /\
    ao_pos a' = ao_pos a + Z.min (zlen data) (ArrayOutput_Avail a) /\
    ao_written a' = ao_written a ++ ztake (ArrayOutput_Avail a) data.
Proof.
  intros Hok. cbn [DoWrite ArrayOutput_OS]. unfold ZeroCopyOutput_DoWrite. pose proof (zlen_nonneg data) as Hz.
  set (n := Z.min (zlen data) (ArrayOutput_Avail a)). assert (0 <= n <= zlen data) as Hn by (unfold n, ArrayOutput_Avail, ao_ok in *; lia).
  assert (ztake (ArrayOutput_Avail a) data = ztake n data) as -> by (unfold n; by rewrite <- (ztake_min_l (ArrayOutput_Avail a))).
  destruct (while_rule ZeroCopyOutput_DoWrite_step
    (fun d c => ao_ok c /\ zlen (ao_mem c) = zlen (ao_mem a) /\
       ((d = data /\ c = a) \/ (d = zdrop n data /\ ao_pos c = ao_pos a + n /\ ao_written c = ao_written a ++ ztake n data)))
    (fun d c => Z.to_nat (zlen d))
    (fun d c => ao_ok c /\ zlen (ao_mem c) = zlen (ao_mem a) /\
       d = zdrop n data /\ ao_pos c = ao_pos a + n /\ ao_written c = ao_written a ++ ztake n data))
    with (fuel := Z.to_pos (zlen data + 1)) (a := data) (s := a)
    as (rest & a' & Hw & Hok' & Hm & -> & Hp & Hwr).
  - intros d c (Hc & Hm & Hcase). destruct (ArrayOutput_step_ok c d Hc) as (c' & E & Hc' & Hm' & Hp' & Hw'). rewrite Hm in Hm'.
    destruct Hcase as [[-> ->]|(-> & Hp & Hw)].
    + fold n in E, Hp', Hw'. eexists _, c'. split; [exact E|]. destruct (Z.ltb_spec 0 n) as [Hpos|H0].
      * split; [|rewrite zlen_zdrop; lia]. split_and!; [done|done|]. by right.
      * assert (n = 0) as E0 by lia. rewrite E0, zdrop_0 in *. by split_and!.
    + assert (Z.min (zlen (zdrop n data)) (ArrayOutput_Avail c) = 0) as E0.
      { rewrite zlen_zdrop by lia. unfold ArrayOutput_Avail, ao_ok in *. fold (zlen (ao_mem a)) in *. unfold n, ArrayOutput_Avail in *. lia. }
      rewrite E0 in *. eexists _, c'. split; [exact E|]. cbn. rewrite Z.add_0_r in Hp'. rewrite ztake_0, app_nil_r in Hw'. rewrite Hp', Hw'. by split_and!.
  - split_and!; [done|done|]. by left.
  - lia.
  - unfold bind. rewrite Hw. exists a'. unfold ret.
    split_and!; [|done|done|done|done]. do 2 f_equal. rewrite zlen_zdrop by lia. lia.
Qed.

(** [BufferOutput] grows its vector: every write is taken in full. *)
Definition bo_ok (b : BufferOutput) : Prop := 0 <= bo_pos b.

Definition bo_written (b : BufferOutput) : bytes := ztake (bo_pos b) (bo_buf b).

Section BufferedOutputLaws.
Context {Dst : Type} `{OutputStreamLaws Dst}.

(** Everything written to the buffered stream: what the destination has
    accepted, followed by the bytes still in the buffer. *)
Definition bo_accepted (b : BufferedOutput Dst) : bytes :=
  accepted (bo_destination b) ++ ao_written (bo_array b).

Definition bo_good (b : BufferedOutput Dst) : Prop :=
  out_good (bo_destination b) /\ ao_ok (bo_array b).

Lemma flush_loop_ok (buf : bytes) (d : Dst) : out_good d ->
  exists d', while (Z.to_pos (zlen buf + 1)) BufferedOutput_DoFlush_step buf d = (Ok tt, d') /\
    accepted d' = accepted d ++ buf /\ out_good d'.
Proof.
  intros Hg.
  destruct (while_rule BufferedOutput_DoFlush_step
    (fun b c => out_good c /\ accepted c ++ b = accepted d ++ buf)
    (fun b c => Z.to_nat (zlen b))
    (fun _ c => accepted c = accepted d ++ buf /\ out_good c))
    with (fuel := Z.to_pos (zlen buf + 1)) (a := buf) (s := d) as ([] & d' & Hw & ? & ?);
    [|by split|pose proof (zlen_nonneg buf); lia|by eexists].
  intros b c [Hc Hacc]. unfold BufferedOutput_DoFlush_step.
  destruct (Z.ltb_spec 0 (zlen b)) as [Hp|Hz].
  - assert (b <> []) as Hne by (intros ->; zlen).
    destruct (DoWrite_law c b Hc Hne) as (n & c' & E & Hn & Ha & Hg').
    unfold bind, Write. rewrite E. eexists (inl _), c'. split; [done|].
    rewrite zlen_zdrop by lia. split_and!; [done| |lia].
    by rewrite Ha, <- app_assoc, ztake_zdrop.
  - eexists (inr tt), c. split; [done|]. split; [|done]. rewrite <- Hacc.
    assert (zlen b = 0) as E by (pose proof (zlen_nonneg b); lia).
    apply zlen_0 in E as ->. by rewrite app_nil_r.
Qed.

Lemma BufferedOutput_DoFlush_ok (b : BufferedOutput Dst) : bo_good b ->
  exists b', BufferedOutput_DoFlush b = (Ok tt, b') /\ bo_good b' /\
    ao_pos (bo_array b') = 0 /\ ao_mem (bo_array b') = ao_mem (bo_array b) /\
    accepted (bo_destination b') = bo_accepted b /\ bo_accepted b' = bo_accepted b.
Proof.
  intros [Hd Ha]. unfold BufferedOutput_DoFlush, bind, get.
  destruct (Z.eqb_spec (ao_pos (bo_array b)) 0) as [Hz|Hz].
  - eexists. split; [done|]. unfold bo_accepted, ao_written. rewrite Hz, ztake_0, app_nil_r.
    split_and!; done.
  - pose proof (zlen_ao_written _ Ha) as Hl.
    destruct (flush_loop_ok (ao_written (bo_array b)) (bo_destination b) Hd) as (d1 & Hw & Hacc & Hg1).
    destruct (DoFlush_law d1 Hg1) as (d2 & Hf & Hacc2 & Hg2).
    unfold bo_on_dst, bo_on_array, zoom. unfold ao_written in Hw, Hl. rewrite Hl in Hw. rewrite Hw.
    cbn. unfold Flush. rewrite Hf. cbn. eexists. split; [done|].
    unfold bo_good, bo_accepted, ao_written, ao_ok. cbn. rewrite Hacc2, Hacc, ztake_0, app_nil_r.
    pose proof (zlen_nonneg (ao_mem (bo_array b))). split_and!; (done || lia).
Qed.

Lemma bo_array_write (b : BufferedOutput Dst) (data : bytes) :
  bo_good b -> zlen data <= ArrayOutput_Avail (bo_array b) ->
  exists b', bo_on_array (Write data) b = (Ok (zlen data), b') /\ bo_good b' /\
    bo_accepted b' = bo_accepted b ++ data /\ zlen (ao_mem (bo_array b')) = zlen (ao_mem (bo_array b)).
Proof.
  intros [Hd Ha] Hle. destruct (ArrayOutput_DoWrite_ok _ data Ha) as (a' & E & Hok & Hm & Hp & Hw).
  unfold bo_on_array, zoom, Write. rewrite E. rewrite Z.min_l by done.
  eexists. split; [done|]. unfold bo_good, bo_accepted. cbn. rewrite Hw, ztake_all by done.
  by rewrite app_assoc.
Qed.

#[global, refine] Instance BufferedOutput_laws : OutputStreamLaws (BufferedOutput Dst) :=
  {| accepted := bo_accepted; out_good := bo_good |}.
Proof.
  - intros b data Hg Hne. cbn [DoWrite BufferedOutput_OS].
    pose proof (zlen_pos _ Hne) as Hpos. unfold BufferedOutput_DoWrite, bind at 1, get.
    assert (forall c, bo_good c -> zlen data <= ArrayOutput_Avail (bo_array c) ->
      exists n b', bo_on_array (Write data) c = (Ok n, b') /\ 0 < n <= zlen data /\
        bo_accepted b' = bo_accepted c ++ ztake n data /\ bo_good b') as Harr.
    { intros c Hc Hle. destruct (bo_array_write c data Hc Hle) as (b' & E & Hg' & Hacc & _).
      exists (zlen data), b'. rewrite ztake_all by lia. split_and!; (done || lia). }
    destruct (Z.ltb_spec (ArrayOutput_Avail (bo_array b)) (zlen data)) as [Hlt|Hge]; [|by apply Harr].
    destruct (BufferedOutput_DoFlush_ok b Hg) as (b1 & E & Hg1 & Hp1 & Hm1 & Hd1 & Hacc1).
    unfold bind. rewrite E. destruct (Z.ltb_spec (zlen (ao_mem (bo_array b)) / 2) (zlen data)) as [Hbig|Hsmall].
    + destruct Hg1 as [Hgd Hga]. destruct (DoWrite_law _ data Hgd Hne) as (n & d' & Ew & Hn & Ha & Hg').
      unfold bo_on_dst, zoom, Write. rewrite Ew. eexists n, _. split; [done|].
      unfold bo_accepted, bo_good. cbn. rewrite Ha, Hd1. split_and!; [lia|lia| |done|done].
      unfold ao_written. rewrite Hp1, ztake_0, !app_nil_r. done.
    + rewrite <- Hacc1. apply Harr; [done|]. unfold ArrayOutput_Avail. rewrite Hp1, Hm1.
      pose proof (Z.div_le_upper_bound (zlen (ao_mem (bo_array b))) 2 (zlen (ao_mem (bo_array b)))).
      pose proof (zlen_nonneg (ao_mem (bo_array b))). lia.
  - intros b Hg. destruct (BufferedOutput_DoFlush_ok b Hg) as (b' & E & ? & _ & _ & _ & ?).
    by exists b'.
Defined.
End BufferedOutputLaws.

Lemma BufferOutput_DoWrite_ok (buf data : bytes) (pos : Z) : 0 <= pos <= zlen buf ->
  DoWrite data (mkBufferOutput buf pos) =
  (Ok (zlen data),
   mkBufferOutput (ztake pos buf ++ data ++ zdrop (pos + zlen data) buf) (pos + zlen data)).
Proof.
  intros Hpos. cbn [DoWrite BufferOutput_OS]. unfold ZeroCopyOutput_DoWrite, while, bind.
  rewrite loop_pos_nat. pose proof (zlen_nonneg data) as Hd0.
  destruct (Z.eqb_spec (zlen data) 0) as [H0|H0].
  - apply zlen_0 in H0 as ->. cbn. rewrite zlen_nil, Z.add_0_r, ztake_zdrop. done.
  - replace (Pos.to_nat (Z.to_pos (zlen data + 1))) with (2 + Z.to_nat (zlen data - 1))%nat by lia.
    cbn [loop_nat Nat.add]. unfold bind, ZeroCopyOutput_DoWrite_step at 1.
    rewrite (proj2 (Z.ltb_lt 0 (zlen data))) by lia.
    cbn [DoNextOut memcpy_to BufferOutput_ZC]. unfold bind, BufferOutput_DoNext, BufferOutput_memcpy.
    cbn [bo_buf bo_pos]. rewrite (proj2 (Z.eqb_neq (zlen data) 0) H0), (ztake_all (zlen data)), (zdrop_all (zlen data)) by lia.
    assert (exists buf1, (if zlen buf <? pos + zlen data then resize (pos + zlen data) buf else buf) = buf ++ buf1
            /\ pos + zlen data <= zlen (buf ++ buf1) /\ (buf1 = [] \/ zlen (buf ++ buf1) = pos + zlen data))
      as (buf1 & -> & Hle & Hcase).
    { destruct (Z.ltb_spec (zlen buf) (pos + zlen data)).
      - unfold resize. rewrite ztake_all by lia. eexists. split; [done|].
        assert (forall n, zlen (replicate n x00) = Z.of_nat n) as Hr
          by (intros; unfold zlen; by rewrite length_replicate).
        rewrite zlen_app, Hr. lia.
      - exists []. rewrite app_nil_r. split_and!; [done|lia|by left]. }
    cbn [bo_buf bo_pos]. unfold mem_store.
    rewrite (proj2 (Z.leb_le 0 pos)), (proj2 (Z.leb_le _ _)) by lia. cbn [andb].
    unfold ret, ZeroCopyOutput_DoWrite_step. change (zlen (@nil byte)) with 0. cbn.
    change (zlen (@nil byte)) with 0. rewrite ztake_app_le, Z.sub_0_r by lia.
    assert (zdrop (pos + zlen data) (buf ++ buf1) = zdrop (pos + zlen data) buf) as ->; [|done].
    destruct Hcase as [->|Hc]; [by rewrite app_nil_r|].
    rewrite !zdrop_all; [done| |lia]. rewrite zlen_app in *. pose proof (zlen_nonneg buf1). lia.
Qed.

(** ** Reference streams

    A source and a sink that transfer at most [chunk] bytes per call, as a
    socket may: the smallest instances of the laws. *)

Record ChunkSource := mkChunkSource { cs_data : bytes; cs_chunk : Z }.

#[global] Instance ChunkSource_IS : InputStream ChunkSource :=
  {| DoRead := fun len s =>
       let n := Z.min len (cs_chunk s) in
       (Ok (ztake n (cs_data s)), mkChunkSource (zdrop n (cs_data s)) (cs_chunk s));
     Skip := fun _ => ret false |}.

#[global, refine] Instance ChunkSource_laws : InputStreamLaws ChunkSource :=
  {| pending := cs_data; in_good := fun s => 0 < cs_chunk s |}.
Proof.
  intros s len Hg Hlen Hne. cbn. eexists _, _. split_and!; [done| | |cbn; by rewrite ztake_zdrop|done].
  - intros E. apply ztake_nil_inv in E; [done|lia].
  - rewrite zlen_ztake; lia.
Defined.

Record ChunkSink := mkChunkSink { sk_data : bytes; sk_chunk : Z }.

#[global] Instance ChunkSink_OS : OutputStream ChunkSink :=
  {| DoWrite := fun data s =>
       let n := Z.min (zlen data) (sk_chunk s) in
       (Ok n, mkChunkSink (sk_data s ++ ztake n data) (sk_chunk s));
     DoFlush := ret tt |}.

#[global, refine] Instance ChunkSink_laws : OutputStreamLaws ChunkSink :=
  {| accepted := sk_data; out_good := fun s => 0 < sk_chunk s |}.
Proof.
  - intros s data Hg Hne. pose proof (zlen_pos _ Hne). cbn.
    eexists _, _. split_and!; [done|lia|lia|done|done].
  - intros s Hg. by exists s.
Defined.
