(* ===== verification/WireFormat.v ===== *)
(** * Wire format (clickhouse/base/wire_format.h, wire_format.cpp)

    The primitives every packet and column is made of: fixed-width integers,
    varints, length-prefixed strings and the quoted form of query parameters.
    They are defined over any [InputStream] / [OutputStream], with the loops
    that cope with short reads and writes, and proved against the laws of
    [Streams]. *)

From S2P Require Import Prelude Streams.

Definition MAX_VARINT_BYTES : nat := 10.

(** Largest string [ReadString] and [SkipString] accept. *)
Definition MAX_STRING : Z := 0x00FFFFFF.

(** ** Reading *)
Section Reading.
Context {I : Type} `{InputStream I}.

Definition ReadAll_step (st : bytes * Z * Z) : M I (bytes * Z * Z + bytes * Z) :=
  let '(acc, len, read_previously) := st in
  if (0 <? len) && negb (read_previously =? 0) then
    let* got := Read len in
    ret (inl (acc ++ got, len - zlen got, zlen got))
  else ret (inr (acc, len)).

(** The bytes stored in the caller's buffer, and [!len]. *)
Definition ReadAll (len : Z) : M I (bytes * bool) :=
  let* '(acc, rest) := while (Z.to_pos (len + 2)) ReadAll_step ([], len, 1) in
  ret (acc, rest =? 0).

Definition ReadBytes (len : Z) : M I (bytes * bool) := ReadAll len.

(** A buffer of which the first bytes have been overwritten by a read. *)
Definition overwrite (got buf : bytes) : bytes := got ++ zdrop (zlen got) buf.

(** [ReadFixed<T>] with [sizeof(T) = n]; [value] is the variable's old content. *)
Definition ReadFixed (n : nat) (value : Z) : M I (bool * Z) :=
  let* '(got, ok) := ReadAll (Z.of_nat n) in
  ret (ok, le_value (overwrite got (le_bytes n value))).

Fixpoint ReadVarint64_loop (k : nat) (i value : Z) : M I (bool * Z) :=
  match k with
  | O => ret (false, value)
  | S k =>
    let* ob := ReadByte in
    match ob with
    | None => ret (false, value)
    | Some byte =>
      let value := Z.lor value (wrap 64 (Z.shiftl (Z.land (b2z byte) 0x7F) (7 * i))) in
      if Z.land (b2z byte) 0x80 =? 0 then ret (true, value)
      else ReadVarint64_loop k (i + 1) value
    end
  end.

Definition ReadVarint64 : M I (bool * Z) := ReadVarint64_loop MAX_VARINT_BYTES 0 0.

Definition ReadUInt64 : M I (bool * Z) := ReadVarint64.

(** [value] is the string passed in; the outcome pairs the returned flag with
    the string afterwards. *)
Definition ReadString (value : bytes) : M I (bool * bytes) :=
  let* '(ok, len) := ReadVarint64 in
  if ok then
    if MAX_STRING <? len then ret (false, value)
    else
      let* '(got, ok) := ReadAll len in
      ret (ok, overwrite got (resize len value))
  else ret (false, value).

Definition SkipString : M I bool :=
  let* '(ok, len) := ReadVarint64 in
  if ok then
    if MAX_STRING <? len then ret false
    else Skip len
  else ret false.
End Reading.

(** ** Writing *)

(** The bytes [WriteVarint64] assembles before writing them out. *)
Fixpoint varint_loop (k : nat) (value : Z) : bytes :=
  match k with
  | O => []
  | S k =>
    let byte := Z.land value 0x7F in
    let byte := if 0x7F <? value then Z.lor byte 0x80 else byte in
    let value := Z.shiftr value 7 in
    z2b byte :: (if value =? 0 then [] else varint_loop k value)
  end.

Definition varint_bytes (value : Z) : bytes := varint_loop MAX_VARINT_BYTES value.

(** [find_quoted_chars] on the range [s]: the text before the first character
    to be quoted, that character, and the text after it. *)
Definition is_quoted_char (c : byte) : bool :=
  match c with
  | x00 | x08 | x09 | x0a | x27 | x5c => true
  | _ => false
  end.

Fixpoint find_quoted_chars (s : bytes) : option (bytes * byte * bytes) :=
  match s with
  | [] => None
  | c :: s =>
    if is_quoted_char c then Some ([], c, s)
    else match find_quoted_chars s with
         | Some (pre, q, post) => Some (c :: pre, q, post)
         | None => None
         end
  end.

(** The loop that counts the characters to be quoted from a position on. *)
Fixpoint count_quoted (fuel : nat) (s : bytes) : Z :=
  match fuel with
  | O => 0
  | S fuel =>
    match find_quoted_chars s with
    | Some (_, _, post) => 1 + count_quoted fuel post
    | None => 0
    end
  end.

(** The three bytes written after the backslash. *)
Definition quoted_code (c : byte) : bytes :=
  match c with
  | x00 => str "x00"
  | x08 => str "x08"
  | x09 => str "\\t"
  | x0a => str "\\n"
  | x27 => str "x27"
  | x5c => str "\\\"
  | _ => []
  end.

Section Writing.
Context {Out : Type} `{OutputStream Out}.

Definition WriteAll_step (st : bytes * Z) : M Out (bytes * Z + bytes) :=
  let '(data, written_previously) := st in
  if (0 <? zlen data) && negb (written_previously =? 0) then
    let* n := Write data in
    ret (inl (zdrop n data, n))
  else ret (inr data).

Definition WriteAll (data : bytes) : M Out unit :=
  let* rest := while (Z.to_pos (zlen data + 2)) WriteAll_step (data, 1) in
  if zlen rest =? 0 then ret tt else throw ProtocolError.

Definition WriteBytes (data : bytes) : M Out unit := WriteAll data.

Definition WriteFixed (n : nat) (value : Z) : M Out unit := WriteAll (le_bytes n value).

Definition WriteVarint64 (value : Z) : M Out unit := WriteAll (varint_bytes value).

Definition WriteUInt64 (value : Z) : M Out unit := WriteVarint64 value.

Definition WriteString (value : bytes) : M Out unit :=
  WriteVarint64 (zlen value) ;;;
  WriteAll value.

(** The [do ... while (quoted_char)] loop of [WriteQuotedString], from the range
    [start, end) on; yields the range left when no such character remains. *)
Fixpoint WriteQuoted_loop (fuel : nat) (s : bytes) : M Out bytes :=
  match fuel with
  | O => throw Diverges
  | S fuel =>
    match find_quoted_chars s with
    | Some (pre, c, post) =>
      WriteAll pre ;;;
      WriteAll (str "\") ;;;
      WriteAll (quoted_code c) ;;;
      WriteQuoted_loop fuel post
    | None => ret s
    end
  end.

Definition WriteQuotedString (value : bytes) : M Out unit :=
  match find_quoted_chars value with
  | None =>
    WriteVarint64 (zlen value + 2) ;;;
    WriteAll (str "'") ;;;
    WriteAll value ;;;
    WriteAll (str "'")
  | Some (_, _, post) =>
    let quoted_count := 1 + count_quoted (length post + 1) post in
    WriteVarint64 (zlen value + 2 + 3 * quoted_count) ;;;
    WriteAll (str "'") ;;;
    let* rest := WriteQuoted_loop (length value + 1) value in
    WriteAll rest ;;;
    WriteAll (str "'")
  end.

Definition NULL_REPRESENTATION : bytes := str "'\\N'".

Definition WriteParamNullRepresentation : M Out unit :=
  WriteVarint64 (zlen NULL_REPRESENTATION) ;;;
  WriteAll NULL_REPRESENTATION.
End Writing.

(** ** Specifications of readers and writers

    [reads m bs a]: whenever [bs] is next on the stream, [m] consumes exactly
    [bs] and returns [a].  [writes m bs a]: [m] appends exactly [bs]. *)

Definition reads {I A} `{InputStreamLaws I} (m : M I A) (bs : bytes) (a : A) : Prop :=
  forall i rest, in_good i -> pending i = bs ++ rest ->
  exists i', m i = (Ok a, i') /\ pending i' = rest /\ in_good i'.

Definition writes {Out A} `{OutputStreamLaws Out} (m : M Out A) (bs : bytes) (a : A) : Prop :=
  forall o, out_good o ->
  exists o', m o = (Ok a, o') /\ accepted o' = accepted o ++ bs /\ out_good o'.

(** [throws m bs e]: with [bs] next on the stream, [m] throws [e]. *)
Definition throws {I A} `{InputStreamLaws I} (m : M I A) (bs : bytes) (e : exn) : Prop :=
  forall i rest, in_good i -> pending i = bs ++ rest -> fst (m i) = Throw e.

Section ReadsRules.
Context {I : Type} `{InputStreamLaws I}.

Lemma reads_ret {A} (a : A) : reads (ret a) [] a.
Proof. intros i rest Hg Hp. by exists i. Qed.

Lemma reads_bind {A B} (m : M I A) (k : A -> M I B) bs cs a b :
  reads m bs a -> reads (k a) cs b -> reads (bind m k) (bs ++ cs) b.
Proof.
  intros Hm Hk i rest Hg Hp. rewrite <- app_assoc in Hp.
  destruct (Hm i _ Hg Hp) as (i1 & E1 & Hp1 & Hg1).
  destruct (Hk i1 _ Hg1 Hp1) as (i2 & E2 & Hp2 & Hg2).
  exists i2. mstep E1. done.
Qed.

Lemma reads_bind_nil {A B} (m : M I A) (k : A -> M I B) bs a b :
  reads m bs a -> reads (k a) [] b -> reads (bind m k) bs b.
Proof. intros Hm Hk. rewrite <- (app_nil_r bs). by eapply reads_bind. Qed.

Lemma reads_pure {A B} (a : A) (k : A -> M I B) cs b :
  reads (k a) cs b -> reads (bind (lift_result (Ok a)) k) cs b.
Proof. done. Qed.

Lemma throws_bind {A B} (m : M I A) (k : A -> M I B) bs cs a e :
  reads m bs a -> throws (k a) cs e -> throws (bind m k) (bs ++ cs) e.
Proof.
  intros Hm Hk i rest Hg Hp. rewrite <- app_assoc in Hp.
  destruct (Hm i _ Hg Hp) as (i1 & E1 & Hp1 & Hg1). mstep E1. eauto.
Qed.

Lemma throws_throw {A} (e : exn) bs : throws (@throw I A e) bs e.
Proof. intros i rest Hg Hp. done. Qed.
End ReadsRules.

Section WritesRules.
Context {Out : Type} `{OutputStreamLaws Out}.

Lemma writes_ret {A} (a : A) : writes (ret a) [] a.
Proof. intros o Hg. exists o. by rewrite app_nil_r. Qed.

Lemma writes_bind {A B} (m : M Out A) (k : A -> M Out B) bs cs a b :
  writes m bs a -> writes (k a) cs b -> writes (bind m k) (bs ++ cs) b.
Proof.
  intros Hm Hk o Hg. destruct (Hm o Hg) as (o1 & E1 & Ha1 & Hg1).
  destruct (Hk o1 Hg1) as (o2 & E2 & Ha2 & Hg2). exists o2. mstep E1.
  by rewrite Ha2, Ha1, app_assoc.
Qed.

Lemma writes_pure {A B} (a : A) (k : A -> M Out B) cs b :
  writes (k a) cs b -> writes (bind (lift_result (Ok a)) k) cs b.
Proof. done. Qed.

Lemma writes_flush : writes Flush [] tt.
Proof.
  intros o Hg. destruct (DoFlush_law o Hg) as (o' & E & Ha & Hg').
  exists o'. by rewrite app_nil_r.
Qed.
End WritesRules.

(** ** The transfer loops *)
Section ReadAllSpec.
Context {I : Type} `{InputStreamLaws I}.

Lemma ReadAll_ok (i : I) (n : Z) : in_good i -> 0 <= n <= zlen (pending i) ->
  exists i', ReadAll n i = (Ok (ztake n (pending i), true), i') /\
    pending i' = zdrop n (pending i) /\ in_good i'.
Proof.
  intros Hg Hn. set (p := pending i).
  destruct (while_rule ReadAll_step
    (fun '(acc, len, prev) j => in_good j /\ 0 <= len <= n /\ acc = ztake (n - len) p /\
        pending j = zdrop (n - len) p /\ prev <> 0)
    (fun '(_, len, _) j => Z.to_nat len)
    (fun '(acc, len) j => len = 0 /\ acc = ztake n p /\ pending j = zdrop n p /\ in_good j))
    with (fuel := Z.to_pos (n + 2)) (a := (@nil byte, n, 1)) (s := i)
    as ([acc len] & j & Hw & -> & -> & Hp & Hj).
  - intros [[acc len] prev] j (Hgj & Hl & -> & Hp & Hprev). unfold ReadAll_step.
    rewrite (proj2 (Z.eqb_neq _ _) Hprev). cbn [negb]. rewrite andb_true_r.
    destruct (Z.ltb_spec 0 len) as [Hpos|Hz].
    + assert (pending j <> []) as Hne.
      { intros E. rewrite E in Hp. symmetry in Hp. apply (f_equal zlen) in Hp.
        rewrite zlen_zdrop, zlen_nil in Hp by lia. fold p in Hn. lia. }
      destruct (DoRead_law j len Hgj Hpos Hne) as (got & j' & E & Hgot & Hlen & Hd & Hg').
      unfold bind, Read. rewrite E. eexists (inl _), j'. split; [done|].
      pose proof (zlen_pos _ Hgot). split_and!; [done|lia|lia| | |lia|lia].
      * replace (n - (len - zlen got)) with (n - len + zlen got) by lia.
        assert (p = ztake (n - len) p ++ got ++ pending j') as Hp'
          by (rewrite <- Hd, Hp, ztake_zdrop; done).
        rewrite Hp' at 2. rewrite app_assoc. fold p in Hn.
        assert (zlen (ztake (n - len) p ++ got) = n - len + zlen got) as <-
          by (rewrite zlen_app, zlen_ztake by lia; lia).
        by rewrite ztake_app_exact.
      * replace (n - (len - zlen got)) with (n - len + zlen got) by lia.
        rewrite <- zdrop_zdrop, <- Hp, Hd by lia. by rewrite zdrop_app_exact.
    + eexists (inr _), j. split; [done|]. replace len with 0 in * by lia.
      rewrite Z.sub_0_r in *. done.
  - rewrite Z.sub_diag, ztake_0, zdrop_0. split_and!; (done || lia).
  - lia.
  - exists j. unfold ReadAll. mstep Hw. done.
Qed.

Lemma reads_ReadAll (bs : bytes) : reads (ReadAll (zlen bs)) bs (bs, true).
Proof.
  intros i rest Hg Hp. pose proof (zlen_nonneg bs). pose proof (zlen_nonneg rest).
  destruct (ReadAll_ok i (zlen bs) Hg) as (i' & E & Hp' & Hg'); [rewrite Hp; zlen|].
  exists i'. rewrite E, Hp'. rewrite Hp, ztake_app_exact, zdrop_app_exact. done.
Qed.

Lemma reads_ReadByte (b : byte) : reads ReadByte [b] (Some b).
Proof.
  intros i rest Hg Hp. destruct (DoRead_law i 1 Hg ltac:(lia)) as (got & i' & E & Hne & Hl & Hd & Hg').
  { by rewrite Hp. }
  exists i'. unfold ReadByte. mstep E. pose proof (zlen_pos _ Hne).
  destruct got as [|c [|d got]]; zlen; [|pose proof (zlen_nonneg got); lia].
  rewrite Hd in Hp. injection Hp as -> ->. done.
Qed.

Lemma reads_ReadFixed (n : nat) (value z : Z) : 0 <= z < 256 ^ Z.of_nat n ->
  reads (ReadFixed n value) (le_bytes n z) (true, z).
Proof.
  intros Hz. unfold ReadFixed. eapply reads_bind_nil.
  - rewrite <- (zlen_le_bytes n z). apply reads_ReadAll.
  - cbn. unfold overwrite. rewrite zdrop_all, app_nil_r by (rewrite !zlen_le_bytes; lia).
    rewrite le_value_bytes, Z.mod_small by done. apply reads_ret.
Qed.
End ReadAllSpec.

Section ReadAllEof.
Context {I : Type} `{InputStreamEof I}.

(** A stream that ends too early: everything there is, and failure. *)
Lemma ReadAll_short (i : I) (n : Z) : in_good i -> zlen (pending i) < n ->
  exists i', ReadAll n i = (Ok (pending i, false), i') /\ pending i' = [] /\ in_good i'.
Proof.
  intros Hg Hn. set (p := pending i).
  destruct (while_rule (S := I) ReadAll_step
    (fun '(acc, len, prev) j => in_good j /\ 0 < len <= n /\ acc ++ pending j = p /\
        zlen acc + len = n /\ (prev = 0 -> pending j = []))
    (fun '(_, len, prev) j => (Z.to_nat len + if (prev =? 0)%Z then 0 else 1)%nat)
    (fun '(acc, len) j => 0 < len /\ acc = p /\ pending j = [] /\ in_good j))
    with (fuel := Z.to_pos (n + 2)) (a := (@nil byte, n, 1)) (s := i)
    as ([acc len] & j & Hw & Hl & -> & Hp & Hj).
  - intros [[acc len] prev] j (Hgj & Hl & Hacc & Hsum & Hprev). unfold ReadAll_step.
    rewrite (proj2 (Z.ltb_lt 0 len)) by lia. cbn [andb].
    destruct (Z.eqb_spec prev 0) as [->|Hnz]; cbn [negb].
    + eexists (inr _), j. rewrite (Hprev eq_refl), app_nil_r in Hacc.
      split; [done|]. split_and!; [lia|done|by apply Hprev|done].
    + destruct (decide (pending j = [])) as [E|E].
      * destruct (DoRead_eof j len Hgj ltac:(lia) E) as (j' & Er & Hp' & Hg').
        unfold bind, Read. rewrite Er. eexists (inl _), j'. split; [done|].
        rewrite E, app_nil_r in Hacc. cbv beta iota. change (zlen (@nil byte)) with 0.
        rewrite Hp', !app_nil_r, Z.sub_0_r. cbn [Z.eqb]. split_and!; (done || lia).
      * destruct (DoRead_law j len Hgj ltac:(lia) E) as (got & j' & Er & Hne & Hlen & Hd & Hg').
        unfold bind, Read. rewrite Er. eexists (inl _), j'. split; [done|].
        pose proof (zlen_pos _ Hne). pose proof (zlen_nonneg (pending j')).
        assert (zlen acc + zlen got + zlen (pending j') = zlen p) by (rewrite <- Hacc, Hd; zlen).
        fold p in Hn. cbv beta iota. rewrite (proj2 (Z.eqb_neq (zlen got) 0)) by lia.
        split_and!; [done|lia|lia| |zlen|lia|lia]. by rewrite <- app_assoc, <- Hd.
  - pose proof (zlen_nonneg (pending i)). split_and!; (done || zlen).
  - pose proof (zlen_nonneg (pending i)). cbn [Z.eqb]. lia.
  - exists j. unfold ReadAll. mstep Hw. rewrite (proj2 (Z.eqb_neq len 0)) by lia. done.
Qed.
End ReadAllEof.

Section WriteAllSpec.
Context {Out : Type} `{OutputStreamLaws Out}.

Lemma writes_WriteAll (data : bytes) : writes (WriteAll data) data tt.
Proof.
  intros o Hg.
  destruct (while_rule WriteAll_step
    (fun '(d, prev) c => out_good c /\ accepted c ++ d = accepted o ++ data /\ prev <> 0)
    (fun '(d, _) c => Z.to_nat (zlen d))
    (fun d c => d = [] /\ accepted c = accepted o ++ data /\ out_good c))
    with (fuel := Z.to_pos (zlen data + 2)) (a := (data, 1)) (s := o)
    as (rest & o' & Hw & -> & Ha & Hg').
  - intros [d prev] c (Hc & Hacc & Hprev). unfold WriteAll_step.
    rewrite (proj2 (Z.eqb_neq _ _) Hprev). cbn [negb]. rewrite andb_true_r.
    destruct (Z.ltb_spec 0 (zlen d)) as [Hpos|Hz].
    + destruct (DoWrite_law c d Hc) as (n & c' & E & Hn & Ha & Hg'); [by intros ->|].
      unfold bind, Write. rewrite E. eexists (inl _), c'. split; [done|].
      cbv beta iota. rewrite zlen_zdrop by lia. split_and!; [done| |lia|lia].
      by rewrite Ha, <- app_assoc, ztake_zdrop.
    + eexists (inr d), c. pose proof (zlen_nonneg d). split; [done|].
      assert (d = []) as -> by (apply zlen_0; lia). by rewrite app_nil_r in Hacc.
  - done.
  - pose proof (zlen_nonneg data). lia.
  - exists o'. unfold WriteAll. mstep Hw. done.
Qed.

Lemma writes_WriteFixed (n : nat) (z : Z) : writes (WriteFixed n z) (le_bytes n z) tt.
Proof. apply writes_WriteAll. Qed.

Lemma writes_WriteVarint64 (z : Z) : writes (WriteVarint64 z) (varint_bytes z) tt.
Proof. apply writes_WriteAll. Qed.

Definition string_bytes (s : bytes) : bytes := varint_bytes (zlen s) ++ s.

Lemma writes_WriteString (s : bytes) : writes (WriteString s) (string_bytes s) tt.
Proof. eapply writes_bind; apply writes_WriteAll. Qed.
End WriteAllSpec.

(** ** Varints *)

Lemma land_7F (z : Z) : Z.land z 0x7F = z mod 128.
Proof. change 0x7F with (Z.ones 7). by rewrite Z.land_ones. Qed.

Lemma lor_add_disjoint (a b n : Z) : 0 <= n -> 0 <= a < 2 ^ n -> Z.lor a (b * 2 ^ n) = a + b * 2 ^ n.
Proof.
  intros Hn Ha. rewrite <- Z.shiftl_mul_pow2 by done.
  assert (Z.land a (Z.shiftl b n) = 0) as Hl.
  { apply Z.bits_inj'. intros m Hm. rewrite Z.land_spec, Z.bits_0.
    destruct (Z.ltb_spec m n).
    - rewrite Z.shiftl_spec_low by done. apply andb_false_r.
    - rewrite <- (Z.mod_small a (2 ^ n)) by done.
      by rewrite Z.mod_pow2_bits_high by lia. }
  rewrite Z.add_nocarry_lxor by done. symmetry. by apply Z.lxor_lor.
Qed.

Lemma lor_80 (m : Z) : 0 <= m < 128 -> Z.lor m 0x80 = m + 128.
Proof. intros Hm. exact (lor_add_disjoint m 1 7 ltac:(lia) Hm). Qed.

(** The byte [WriteVarint64] emits for [v]: seven bits, and the flag that more follow. *)
Lemma varint_byte_value (v : Z) : 0 <= v ->
  b2z (z2b (if 0x7F <? v then Z.lor (Z.land v 0x7F) 0x80 else Z.land v 0x7F)) =
  v mod 128 + (if 127 <? v then 128 else 0).
Proof.
  intros Hv. rewrite b2z_z2b, land_7F. pose proof (Z.mod_pos_bound v 128 ltac:(lia)).
  destruct (127 <? v).
  - rewrite lor_80, Z.mod_small; lia.
  - rewrite Z.mod_small; lia.
Qed.

Lemma flag_bit (m : Z) (b : bool) : 0 <= m < 128 ->
  (Z.land (m + (if b then 128 else 0)) 0x80 =? 0) = negb b.
Proof.
  intros Hm.
  assert (Z.land m 0x80 = 0) as H0.
  { apply Z.bits_inj'. intros k Hk. rewrite Z.land_spec, Z.bits_0. change 0x80 with (2 ^ 7).
    rewrite Z.pow2_bits_eqb by lia. destruct (Z.eqb_spec 7 k) as [<-|]; [|apply andb_false_r].
    rewrite <- (Z.mod_small m (2 ^ 7)) by lia. by rewrite Z.mod_pow2_bits_high by lia. }
  destruct b; cbn [negb].
  - rewrite <- lor_80, Z.land_lor_distr_l, H0 by done. done.
  - by rewrite Z.add_0_r, H0.
Qed.

Section VarintSpec.
Context {I : Type} `{InputStreamLaws I}.

Lemma reads_varint_loop (k : nat) : forall (i v acc : Z),
  0 <= i -> 0 <= v < 2 ^ (7 * Z.of_nat k) -> v * 2 ^ (7 * i) < 2 ^ 64 -> 0 <= acc < 2 ^ (7 * i) ->
  (0 < k)%nat ->
  reads (ReadVarint64_loop k i acc) (varint_loop k v) (true, acc + v * 2 ^ (7 * i)).
Proof.
  induction k as [|k IH]; intros i v acc Hi Hv H64 Hacc Hk; [lia|].
  cbn [varint_loop ReadVarint64_loop].
  pose proof (Z.mod_pos_bound v 128 ltac:(lia)) as Hm.
  assert (0 < 2 ^ (7 * i)) as Hpi by (apply Z.pow_pos_nonneg; lia).
  rewrite Z.shiftr_div_pow2 by lia. change (2 ^ 7) with 128.
  pose proof (Z.div_mod v 128 ltac:(lia)) as Hdm.
  set (b := z2b _). change (b :: ?l) with ([b] ++ l).
  eapply reads_bind; [apply reads_ReadByte|]. cbv beta iota.
  assert (b2z b = v mod 128 + (if 127 <? v then 128 else 0)) as Hb
    by (unfold b; apply varint_byte_value; lia).
  assert (Z.land (b2z b) 0x7F = v mod 128) as Hb7.
  { rewrite land_7F, Hb. destruct (127 <? v); [|rewrite Z.add_0_r; apply Zmod_mod].
    rewrite <- (Z.mul_1_l 128) at 2. rewrite Z_mod_plus_full. apply Zmod_mod. }
  rewrite Hb7, Hb, flag_bit by lia.
  assert (Z.lor acc (wrap 64 (Z.shiftl (v mod 128) (7 * i))) = acc + (v mod 128) * 2 ^ (7 * i)) as ->.
  { rewrite Z.shiftl_mul_pow2 by lia. rewrite wrap_id.
    - apply lor_add_disjoint; lia.
    - unfold is_u. pose proof (Z.mod_le v 128 ltac:(lia) ltac:(lia)). nia. }
  destruct (Z.ltb_spec 127 v) as [Hbig|Hsmall]; cbn [negb].
  - assert (v / 128 <> 0) as Hnz by (pose proof (Z.div_le_lower_bound v 128 1); lia).
    rewrite (proj2 (Z.eqb_neq _ _) Hnz).
    assert (acc + v * 2 ^ (7 * i) = (acc + v mod 128 * 2 ^ (7 * i)) + (v / 128) * 2 ^ (7 * (i + 1))) as ->.
    { replace (7 * (i + 1)) with (7 * i + 7) by lia. rewrite Z.pow_add_r by lia.
      change (2 ^ 7) with 128. rewrite Hdm at 1. ring. }
    assert (0 < k)%nat as Hk'.
    { destruct k; [|lia]. change (2 ^ (7 * Z.of_nat 1)) with 128 in Hv. lia. }
    apply IH; [lia| | | |done].
    + split; [apply Z.div_pos; lia|]. apply Z.div_lt_upper_bound; [lia|].
      change 128 with (2 ^ 7). rewrite <- Z.pow_add_r by lia.
      replace (7 + 7 * Z.of_nat k) with (7 * Z.of_nat (S k)) by lia. lia.
    + replace (7 * (i + 1)) with (7 + 7 * i) by lia. rewrite Z.pow_add_r by lia. change (2 ^ 7) with 128. nia.
    + replace (7 * (i + 1)) with (7 + 7 * i) by lia. rewrite Z.pow_add_r by lia. change (2 ^ 7) with 128. nia.
  - rewrite Z.div_small by lia. cbn. rewrite Z.mod_small by lia. apply reads_ret.
Qed.

Lemma reads_ReadVarint64 (v : Z) : is_u 64 v -> reads ReadVarint64 (varint_bytes v) (true, v).
Proof.
  intros Hv. unfold ReadVarint64, varint_bytes.
  assert (v = 0 + v * 2 ^ (7 * 0)) as E by (rewrite Z.mul_0_r, Z.pow_0_r; lia).
  rewrite E at 2. apply reads_varint_loop; unfold is_u, MAX_VARINT_BYTES in *; lia.
Qed.

Lemma resize_overwrite (s value : bytes) : overwrite s (resize (zlen s) value) = s.
Proof.
  unfold overwrite. rewrite zdrop_all; [apply app_nil_r|].
  unfold resize. rewrite zlen_app, zlen_ztake by apply zlen_nonneg.
  unfold zlen at 3. rewrite length_replicate. lia.
Qed.

Lemma reads_ReadString (value s : bytes) : zlen s <= MAX_STRING ->
  reads (ReadString value) (string_bytes s) (true, s).
Proof.
  intros Hs. unfold ReadString, string_bytes. pose proof (zlen_nonneg s).
  eapply reads_bind; [apply reads_ReadVarint64|]; [unfold is_u, MAX_STRING in *; lia|].
  cbv beta iota. rewrite (proj2 (Z.ltb_ge _ _) Hs).
  eapply reads_bind_nil; [apply reads_ReadAll|]. cbv beta iota. rewrite resize_overwrite.
  apply reads_ret.
Qed.
End VarintSpec.

Lemma reads_SkipString {I} `{InputStreamSkip I} (s : bytes) : zlen s <= MAX_STRING ->
  reads SkipString (string_bytes s) true.
Proof.
  intros Hs. unfold SkipString, string_bytes. pose proof (zlen_nonneg s).
  eapply reads_bind; [apply reads_ReadVarint64|]; [unfold is_u, MAX_STRING in *; lia|].
  cbv beta iota. rewrite (proj2 (Z.ltb_ge _ _) Hs).
  intros i rest Hg Hp. destruct (Skip_within i (zlen s) Hg) as (i' & E & Hp' & Hg').
  { rewrite Hp, zlen_app. pose proof (zlen_nonneg rest). lia. }
  exists i'. by rewrite E, Hp', Hp, zdrop_app_exact.
Qed.

Lemma varint_loop_length (k : nat) (v : Z) : (length (varint_loop k v) <= k)%nat.
Proof.
  revert v. induction k as [|k IH]; intros v; [done|]. cbn [varint_loop length].
  destruct (_ =? 0); cbn [length]; [lia|]. specialize (IH (Z.shiftr v 7)). lia.
Qed.

(** ** Quoted strings (query parameters)

    [quote_body] is the text between the quotes: every special character is
    replaced by a four-byte escape. *)

Definition quote_char (c : byte) : bytes :=
  if is_quoted_char c then str "\" ++ quoted_code c else [c].

Definition quote_body (s : bytes) : bytes := concat (map quote_char s).

Definition quoted (s : bytes) : bytes := str "'" ++ quote_body s ++ str "'".

Definition n_quoted (s : bytes) : Z := zlen (List.filter is_quoted_char s).

Lemma quote_body_app (s t : bytes) : quote_body (s ++ t) = quote_body s ++ quote_body t.
Proof. unfold quote_body. by rewrite map_app, concat_app. Qed.

Lemma quote_char_zlen (c : byte) : zlen (quote_char c) = if is_quoted_char c then 4 else 1.
Proof. by destruct c. Qed.

Lemma quote_body_zlen (s : bytes) : zlen (quote_body s) = zlen s + 3 * n_quoted s.
Proof.
  unfold n_quoted. induction s as [|c s IH]; [done|].
  change (quote_body (c :: s)) with (quote_char c ++ quote_body s).
  rewrite zlen_app, quote_char_zlen, IH, zlen_cons. cbn [List.filter].
  destruct (is_quoted_char c); zlen.
Qed.

Definition plain (s : bytes) : Prop := Forall (fun c => is_quoted_char c = false) s.

Lemma quote_body_plain (s : bytes) : plain s -> quote_body s = s.
Proof.
  induction 1 as [|c s Hc Hs IH]; [done|]. unfold quote_body in *. cbn.
  unfold quote_char at 1. by rewrite Hc, IH.
Qed.

Lemma n_quoted_plain (s t : bytes) : plain s -> n_quoted (s ++ t) = n_quoted t.
Proof.
  unfold n_quoted. induction 1 as [|c s Hc Hs IH]; [done|]. cbn. by rewrite Hc.
Qed.

Lemma find_quoted_chars_spec (s : bytes) :
  match find_quoted_chars s with
  | None => plain s
  | Some (pre, c, post) => s = pre ++ c :: post /\ plain pre /\ is_quoted_char c = true
  end.
Proof.
  induction s as [|c s IH]; cbn [find_quoted_chars]; [constructor|].
  destruct (is_quoted_char c) eqn:E; [split_and!; [done|constructor|done]|].
  destruct (find_quoted_chars s) as [[[pre q] post]|].
  - destruct IH as (-> & Hp & Hq). split_and!; [done|by constructor|done].
  - by constructor.
Qed.

Lemma find_quoted_chars_Some (s pre post : bytes) (c : byte) :
  find_quoted_chars s = Some (pre, c, post) ->
  s = pre ++ c :: post /\ plain pre /\ is_quoted_char c = true.
Proof. intros E. pose proof (find_quoted_chars_spec s) as Hs. by rewrite E in Hs. Qed.

Lemma find_quoted_chars_None (s : bytes) : find_quoted_chars s = None -> plain s.
Proof. intros E. pose proof (find_quoted_chars_spec s) as Hs. by rewrite E in Hs. Qed.

Lemma n_quoted_split (pre post : bytes) (c : byte) : plain pre -> is_quoted_char c = true ->
  n_quoted (pre ++ c :: post) = 1 + n_quoted post.
Proof.
  intros Hp Hc. rewrite n_quoted_plain by done. unfold n_quoted. cbn [List.filter].
  rewrite Hc. apply zlen_cons.
Qed.

Lemma count_quoted_ok (fuel : nat) (s : bytes) : (length s < fuel)%nat -> count_quoted fuel s = n_quoted s.
Proof.
  revert s. induction fuel as [|fuel IH]; intros s Hl; [lia|]. cbn [count_quoted].
  destruct (find_quoted_chars s) as [[[pre c] post]|] eqn:E.
  - apply find_quoted_chars_Some in E as (-> & Hp & Hc). rewrite n_quoted_split by done.
    rewrite length_app in Hl. cbn in Hl. rewrite IH by lia. done.
  - apply find_quoted_chars_None in E. rewrite <- (app_nil_r s), n_quoted_plain by done. done.
Qed.

Section QuotedSpec.
Context {Out : Type} `{OutputStreamLaws Out}.

Lemma writes_WriteQuoted_loop (fuel : nat) : forall s, (length s < fuel)%nat ->
  exists bs rest, writes (WriteQuoted_loop fuel s) bs rest /\ quote_body s = bs ++ rest.
Proof.
  induction fuel as [|fuel IH]; intros s Hl; [lia|]. cbn [WriteQuoted_loop].
  destruct (find_quoted_chars s) as [[[pre c] post]|] eqn:E.
  - apply find_quoted_chars_Some in E as (-> & Hp & Hc).
    rewrite length_app in Hl. cbn in Hl. destruct (IH post ltac:(lia)) as (bs & rest & Hw & Hq).
    exists (pre ++ str "\" ++ quoted_code c ++ bs), rest. split.
    + eapply writes_bind; [apply writes_WriteAll|]. eapply writes_bind; [apply writes_WriteAll|].
      eapply writes_bind; [apply writes_WriteAll|]. done.
    + rewrite quote_body_app, (quote_body_plain pre) by done.
      change (quote_body (c :: post)) with (quote_char c ++ quote_body post).
      unfold quote_char. rewrite Hc, Hq. by rewrite <- !app_assoc.
  - exists [], s. split; [apply writes_ret|]. apply quote_body_plain. by apply find_quoted_chars_None.
Qed.

Lemma quoted_zlen (s : bytes) : zlen (quoted s) = zlen s + 2 + 3 * n_quoted s.
Proof.
  unfold quoted. rewrite !zlen_app, quote_body_zlen.
  change (zlen (str "'")) with 1. lia.
Qed.

Lemma writes_WriteQuotedString (s : bytes) : writes (WriteQuotedString s) (string_bytes (quoted s)) tt.
Proof.
  unfold WriteQuotedString, string_bytes. rewrite quoted_zlen.
  destruct (find_quoted_chars s) as [[[pre c] post]|] eqn:E.
  - apply find_quoted_chars_Some in E as (-> & Hp & Hc).
    rewrite count_quoted_ok by lia. rewrite n_quoted_split by done.
    destruct (writes_WriteQuoted_loop (length (pre ++ c :: post) + 1) (pre ++ c :: post) ltac:(lia))
      as (bs & rest & Hw & Hq).
    eapply writes_bind; [apply writes_WriteVarint64|].
    eapply writes_bind; [apply writes_WriteAll|]. rewrite Hq, <- app_assoc.
    eapply writes_bind; [apply Hw|]. eapply writes_bind; apply writes_WriteAll.
  - apply find_quoted_chars_None in E.
    assert (n_quoted s = 0) as -> by (rewrite <- (app_nil_r s); by rewrite n_quoted_plain).
    rewrite Z.mul_0_r, Z.add_0_r. unfold quoted. rewrite (quote_body_plain s E).
    eapply writes_bind; [apply writes_WriteVarint64|].
    eapply writes_bind; [apply writes_WriteAll|]. eapply writes_bind; apply writes_WriteAll.
Qed.
End QuotedSpec.

(** Decoding of the escapes, as the reader of a quoted parameter does it. *)
Definition unquote_code (a b c : byte) : option byte :=
  match a, b, c with
  | x78, x30, x30 => Some x00
  | x78, x30, x38 => Some x08
  | x5c, x5c, x74 => Some x09
  | x5c, x5c, x6e => Some x0a
  | x78, x32, x37 => Some x27
  | x5c, x5c, x5c => Some x5c
  | _, _, _ => None
  end.

Fixpoint unquote_body (s : bytes) : option bytes :=
  match s with
  | [] => Some []
  | x5c :: a :: b :: c :: s =>
    match unquote_code a b c, unquote_body s with
    | Some q, Some r => Some (q :: r)
    | _, _ => None
    end
  | c :: s => if is_quoted_char c then None
              else option_map (cons c) (unquote_body s)
  end.

Lemma unquote_quote_body (s : bytes) : unquote_body (quote_body s) = Some s.
Proof.
  induction s as [|c s IH]; [done|].
  change (quote_body (c :: s)) with (quote_char c ++ quote_body s).
  revert IH. generalize (quote_body s). intros q IH.
  destruct c; cbn in *; by rewrite IH.
Qed.

Lemma quote_body_clean (s : bytes) (c : byte) :
  In c (quote_body s) -> c = x5c \/ is_quoted_char c = false.
Proof.
  unfold quote_body. rewrite in_concat. intros (l & Hl & Hc).
  apply in_map_iff in Hl as (d & <- & _). revert Hc.
  destruct d; cbn; intuition (subst; auto).
Qed.

(** ** Main results *)

(** C36. Varints round trip over every stream, however it splits the data: what
    [WriteVarint64 v] appends to an output stream is at most ten bytes long, and
    [ReadVarint64] on an input stream that delivers these bytes next consumes
    exactly them and returns [v], for every 64-bit [v]. *)
Theorem varint_roundtrip {Out I} `{OutputStreamLaws Out} `{InputStreamLaws I} (v : Z) (Hv : is_u 64 v) :
  exists bs, zlen bs <= 10 /\
    writes (Out := Out) (WriteVarint64 v) bs tt /\ reads (I := I) ReadVarint64 bs (true, v).
Proof.
  exists (varint_bytes v). split_and!; [|apply writes_WriteVarint64|by apply reads_ReadVarint64].
  pose proof (varint_loop_length MAX_VARINT_BYTES v). unfold varint_bytes, zlen, MAX_VARINT_BYTES in *. lia.
Qed.

Lemma varint_roundtrip_witness :
  exists bs, zlen bs <= 10 /\
    writes (Out := ChunkSink) (WriteVarint64 (2 ^ 64 - 1)) bs tt /\
    reads (I := ChunkSource) ReadVarint64 bs (true, 2 ^ 64 - 1).
Proof. apply (varint_roundtrip (2 ^ 64 - 1)). unfold is_u. lia. Defined.

(** Strings round trip: a string of at most 0x00FFFFFF bytes written by
    [WriteString] is what [ReadString] returns, whatever the variable held
    before, and [SkipString] skips exactly its bytes; a longer one is refused
    by the reader, which leaves the variable alone. *)
Lemma string_roundtrip {Out I} `{OutputStreamLaws Out} `{InputStreamEof I} (s : bytes) (Hs : is_u 64 (zlen s)) :
  exists bs, writes (Out := Out) (WriteString s) bs tt /\
    (zlen s <= MAX_STRING ->
       forall value, reads (I := I) (ReadString value) bs (true, s) /\ reads (I := I) SkipString bs true) /\
    (MAX_STRING < zlen s ->
       exists pre, bs = pre ++ s /\ forall value, reads (I := I) (ReadString value) pre (false, value)).
Proof.
  exists (string_bytes s). split_and!; [apply writes_WriteString| |].
  - intros Hl value. split; [by apply reads_ReadString|by apply reads_SkipString].
  - intros Hl. exists (varint_bytes (zlen s)). split; [done|]. intros value. unfold ReadString.
    eapply reads_bind_nil; [by apply reads_ReadVarint64|]. cbv beta iota.
    rewrite (proj2 (Z.ltb_lt _ _) Hl). apply reads_ret.
Qed.

(** Quoted parameters cannot break out of their framing: the length prefix
    [WriteQuotedString] computes by counting is the length of what it then
    writes; the text between the two quotes has no raw quote, NUL, backspace,
    tab or newline; and decoding its escapes gives the parameter back. *)
Lemma quoted_string_framing {Out I} `{OutputStreamLaws Out} `{InputStreamLaws I} (s : bytes)
    (Hs : zlen s + 2 + 3 * n_quoted s <= MAX_STRING) :
  exists bs body, writes (Out := Out) (WriteQuotedString s) bs tt /\
    (forall value, reads (I := I) (ReadString value) bs (true, str "'" ++ body ++ str "'")) /\
    (forall c, In c body -> c = x5c \/ is_quoted_char c = false) /\
    unquote_body body = Some s.
Proof.
  exists (string_bytes (quoted s)), (quote_body s).
  split_and!; [apply writes_WriteQuotedString| |apply quote_body_clean|apply unquote_quote_body].
  intros value. fold (quoted s). apply reads_ReadString. by rewrite quoted_zlen.
Qed.


(** C37. A [BufferedInput] is transparent: for any read sizes, reading through
    its buffer (filled in blocks, bypassed for large reads) delivers the bytes
    of the source in order; [n] bytes are read in full when that many are
    pending, and otherwise the reader gets what is left and a failure. *)
Theorem BufferedInput_transparent {Src} `{InputStreamEof Src} (b : BufferedInput Src) (n : Z)
    (Hb : bi_good b) (Hn : 0 <= n) :
  exists b', ReadAll n b = (Ok (ztake n (bi_pending b), n <=? zlen (bi_pending b)), b') /\
    bi_pending b' = zdrop n (bi_pending b) /\ bi_good b'.
Proof.
  destruct (Z.leb_spec n (zlen (bi_pending b))) as [Hle|Hgt].
  - exact (ReadAll_ok b n Hb (conj Hn Hle)).
  - destruct (ReadAll_short (I := BufferedInput Src) b n ltac:(exact Hb) ltac:(exact Hgt)) as (b' & E & Hp & Hg). exists b'.
    rewrite ztake_all, zdrop_all by lia. done.
Qed.

Lemma BufferedInput_transparent_witness :
  exists b', ReadAll 6 (BufferedInput_new (mkArrayInput (str "transparent")) 4) =
    (Ok (str "transp", true), b') /\ bi_pending b' = str "arent" /\ bi_good b'.
Proof.
  destruct (BufferedInput_transparent (BufferedInput_new (mkArrayInput (str "transparent")) 4) 6)
    as (b' & E & Hp & Hg); [split; [exact I|vm_compute; reflexivity]|lia|].
  exists b'. split; [exact E|]. split; [exact Hp|exact Hg].
Defined.

(** A [BufferedOutput] delivers: after any sequence of writes and a flush,
    the destination has received exactly the data, in order, whatever the size
    of the buffer and however few bytes the destination takes per call. *)
Lemma BufferedOutput_delivers {Dst} `{OutputStreamLaws Dst} (b : BufferedOutput Dst) (l : list bytes)
    (Hb : bo_good b) :
  exists b', bind (foldr (fun d k => WriteAll d ;;; k) (ret tt) l) (fun _ => Flush) b = (Ok tt, b') /\
    accepted (bo_destination b') = bo_accepted b ++ concat l /\ ao_pos (bo_array b') = 0 /\ bo_good b'.
Proof.
  assert (writes (Out := BufferedOutput Dst)
    (foldr (fun d k => WriteAll d ;;; k) (ret tt) l) (concat l) tt) as Hw.
  { induction l as [|d l IH]; [apply writes_ret|]. cbn. eapply writes_bind; [apply writes_WriteAll|done]. }
  destruct (Hw b Hb) as (b1 & E1 & Ha1 & Hg1).
  destruct (BufferedOutput_DoFlush_ok b1 Hg1) as (b2 & E2 & Hg2 & Hp2 & _ & Hd2 & _).
  exists b2. rewrite (bind_ok _ _ _ _ _ E1). unfold Flush. cbn [DoFlush BufferedOutput_OS].
  rewrite E2, Hd2. split_and!; done.
Qed.

