(* ===== verification/CityHash.v ===== *)
(** * CityHash (clickhouse/cityhash/city.h, city.cc)

    The 64- and 128-bit hashes the client uses: type identity, the dedup map of
    LowCardinality columns and the checksum of compressed frames.  A pointer is
    an offset in the hashed buffer, and a load outside the buffer is the
    outcome [Undefined]: the theorems show that no length makes the code read
    out of bounds, that its loops end, and that results fit their width. *)

From S2P Require Import Prelude.

(** ** 64-bit arithmetic *)

Definition add64 (a b : Z) : Z := wrap 64 (a + b).

Definition sub64 (a b : Z) : Z := wrap 64 (a - b).

Definition mul64 (a b : Z) : Z := wrap 64 (a * b).

Definition shl64 (a n : Z) : Z := wrap 64 (Z.shiftl a n).

Infix "+%" := add64 (at level 50, left associativity).
Infix "-%" := sub64 (at level 50, left associativity).
Infix "*%" := mul64 (at level 40, left associativity).
Infix "^%" := Z.lxor (at level 52, left associativity).
Infix ">>%" := Z.shiftr (at level 38, left associativity).

(** ** Loads *)

Definition load (n : nat) (s : bytes) (p : Z) : result Z :=
  if (0 <=? p) && (p + Z.of_nat n <=? zlen s)
  then Ok (le_value (ztake (Z.of_nat n) (zdrop p s)))
  else Throw Undefined.

Definition Fetch64 (s : bytes) (p : Z) : result Z := load 8 s p.

Definition Fetch32 (s : bytes) (p : Z) : result Z := load 4 s p.

Definition k0 : Z := 0xc3a5c85c97cb3127.

Definition k1 : Z := 0xb492b66fbe98f273.

Definition k2 : Z := 0x9ae16a3b2f90404f.

Definition k3 : Z := 0xc949d7c7509e6557.

(** ** Mixing *)

Definition Rotate (val shift : Z) : Z :=
  if (shift =? 0) then val else Z.lor (val >>% shift) (shl64 val (64 - shift)).

Definition RotateByAtLeast1 (val shift : Z) : Z :=
  Z.lor (val >>% shift) (shl64 val (64 - shift)).

Definition ShiftMix (val : Z) : Z := val ^% (val >>% 47).

Definition kMul : Z := 0x9ddfea08eb382d69.

Definition Hash128to64 (x : Z * Z) : Z :=
  let a := (fst x ^% snd x) *% kMul in
  let a := a ^% (a >>% 47) in
  let b := (snd x ^% a) *% kMul in
  let b := b ^% (b >>% 47) in
  b *% kMul.

Definition HashLen16 (u v : Z) : Z := Hash128to64 (u, v).

(** The hashes below work on [len] bytes at offset [p] of the buffer [s]. *)

Definition HashLen0to16 (s : bytes) (p len : Z) : result Z :=
  if (8 <? len) then
    let! a := Fetch64 s p in
    let! b := Fetch64 s (p + len - 8) in
    Ok (HashLen16 a (RotateByAtLeast1 (b +% len) len) ^% b)
  else if (4 <=? len) then
    let! a := Fetch32 s p in
    let! b := Fetch32 s (p + len - 4) in
    Ok (HashLen16 (len +% shl64 a 3) b)
  else if (0 <? len) then
    let! a := load 1 s p in
    let! b := load 1 s (p + Z.shiftr len 1) in
    let! c := load 1 s (p + len - 1) in
    let y := wrap 32 (a + wrap 32 (Z.shiftl b 8)) in
    let z := wrap 32 (len + wrap 32 (Z.shiftl c 2)) in
    Ok (ShiftMix ((y *% k2) ^% (z *% k3)) *% k2)
  else Ok k2.

Definition HashLen17to32 (s : bytes) (p len : Z) : result Z :=
  let! f0 := Fetch64 s p in
  let! b := Fetch64 s (p + 8) in
  let! f1 := Fetch64 s (p + len - 8) in
  let! f2 := Fetch64 s (p + len - 16) in
  let a := f0 *% k1 in
  let c := f1 *% k2 in
  let d := f2 *% k0 in
  Ok (HashLen16 (Rotate (a -% b) 43 +% Rotate c 30 +% d)
                (a +% Rotate (b ^% k3) 20 -% c +% len)).

Definition WeakHashLen32 (w x y z a b : Z) : Z * Z :=
  let a := a +% w in
  let b := Rotate (b +% a +% z) 21 in
  let c := a in
  let a := a +% x in
  let a := a +% y in
  let b := b +% Rotate a 44 in
  (a +% z, b +% c).

Definition WeakHashLen32WithSeeds (s : bytes) (p a b : Z) : result (Z * Z) :=
  let! w := Fetch64 s p in
  let! x := Fetch64 s (p + 8) in
  let! y := Fetch64 s (p + 16) in
  let! z := Fetch64 s (p + 24) in
  Ok (WeakHashLen32 w x y z a b).

Definition HashLen33to64 (s : bytes) (p len : Z) : result Z :=
  let! f0 := Fetch64 s p in
  let! f8 := Fetch64 s (p + 8) in
  let! f16 := Fetch64 s (p + 16) in
  let! f24 := Fetch64 s (p + 24) in
  let! e32 := Fetch64 s (p + len - 32) in
  let! e24 := Fetch64 s (p + len - 24) in
  let! e16 := Fetch64 s (p + len - 16) in
  let! e8 := Fetch64 s (p + len - 8) in
  let z := f24 in
  let a := f0 +% (len +% e16) *% k0 in
  let b := Rotate (a +% z) 52 in
  let c := Rotate a 37 in
  let a := a +% f8 in
  let c := c +% Rotate a 7 in
  let a := a +% f16 in
  let vf := a +% z in
  let vs := b +% Rotate a 31 +% c in
  let a := f16 +% e32 in
  let z := e8 in
  let b := Rotate (a +% z) 52 in
  let c := Rotate a 37 in
  let a := a +% e24 in
  let c := c +% Rotate a 7 in
  let a := a +% e16 in
  let wf := a +% z in
  let ws := b +% Rotate a 31 +% c in
  let r := ShiftMix ((vf +% ws) *% k2 +% (wf +% vs) *% k0) in
  Ok (ShiftMix (r *% k0 +% vs) *% k2).

(** The 56 bytes of state of the long-input loops. *)
Record city := mkCity { cx : Z; cy : Z; cz : Z; cv : Z * Z; cw : Z * Z }.

(** The body shared by the loops of [CityHash64] and [CityHash128WithSeed]. *)
Definition city_round (s : bytes) (p : Z) (c : city) : result city :=
  let '(mkCity x y z v w) := c in
  let! f16 := Fetch64 s (p + 16) in
  let! f48 := Fetch64 s (p + 48) in
  let x := Rotate (x +% y +% fst v +% f16) 37 *% k1 in
  let y := Rotate (y +% snd v +% f48) 42 *% k1 in
  let x := x ^% snd w in
  let y := y ^% fst v in
  let z := Rotate (z ^% fst w) 33 in
  let! v := WeakHashLen32WithSeeds s p (snd v *% k1) (x +% fst w) in
  let! w := WeakHashLen32WithSeeds s (p + 32) (z +% snd w) y in
  Ok (mkCity z y x v w).

(** [do ... while (len != 0)], [len] a multiple of 64. *)
Fixpoint city64_loop (fuel : nat) (s : bytes) (p len : Z) (c : city) : result city :=
  match fuel with
  | O => Throw Diverges
  | S fuel =>
    let! c := city_round s p c in
    if (len - 64 =? 0) then Ok c
    else city64_loop fuel s (p + 64) (len - 64) c
  end.

Definition CityHash64 (s : bytes) : result Z :=
  let len := zlen s in
  if (len <=? 32) then
    if (len <=? 16) then HashLen0to16 s 0 len else HashLen17to32 s 0 len
  else if (len <=? 64) then HashLen33to64 s 0 len
  else
    let! x := Fetch64 s 0 in
    let! fy := Fetch64 s (len - 16) in
    let! fz := Fetch64 s (len - 56) in
    let y := fy ^% k1 in
    let z := fz ^% k0 in
    let! v := WeakHashLen32WithSeeds s (len - 64) len y in
    let! w := WeakHashLen32WithSeeds s (len - 32) (len *% k1) k0 in
    let z := z +% ShiftMix (snd v) *% k1 in
    let x := Rotate (z +% x) 39 *% k1 in
    let y := Rotate y 33 *% k1 in
    let len' := Z.land (len - 1) (wrap 64 (Z.lnot 63)) in
    let! c := city64_loop (Z.to_nat (len' / 64)) s 0 len' (mkCity x y z v w) in
    let '(mkCity x y z v w) := c in
    Ok (HashLen16 (HashLen16 (fst v) (fst w) +% ShiftMix y *% k1 +% z)
                  (HashLen16 (snd v) (snd w) +% x)).

Definition CityHash64WithSeeds (s : bytes) (seed0 seed1 : Z) : result Z :=
  let! h := CityHash64 s in
  Ok (HashLen16 (h -% seed0) seed1).

Definition CityHash64WithSeed (s : bytes) (seed : Z) : result Z :=
  CityHash64WithSeeds s k2 seed.

(** The [do ... while (len > 16)] loop of [CityMurmur]. *)
Fixpoint murmur_loop (fuel : nat) (s : bytes) (p len : Z) (a b c d : Z) : result (Z * Z * Z * Z) :=
  match fuel with
  | O => Throw Diverges
  | S fuel =>
    let! f0 := Fetch64 s p in
    let! f8 := Fetch64 s (p + 8) in
    let a := a ^% (ShiftMix (f0 *% k1) *% k1) in
    let a := a *% k1 in
    let b := b ^% a in
    let c := c ^% (ShiftMix (f8 *% k1) *% k1) in
    let c := c *% k1 in
    let d := d ^% c in
    if (16 <? len - 16) then murmur_loop fuel s (p + 16) (len - 16) a b c d
    else Ok (a, b, c, d)
  end.

Definition CityMurmur (s : bytes) (p len : Z) (seed : Z * Z) : result (Z * Z) :=
  let a := fst seed in
  let b := snd seed in
  let! st :=
    if (len <=? 16) then
      let a := ShiftMix (a *% k1) *% k1 in
      let! h := HashLen0to16 s p len in
      let c := b *% k1 +% h in
      let! f := if (8 <=? len) then Fetch64 s p else Ok c in
      let d := ShiftMix (a +% f) in
      Ok (a, b, c, d)
    else
      let! f8 := Fetch64 s (p + len - 8) in
      let! f16 := Fetch64 s (p + len - 16) in
      let c := HashLen16 (f8 +% k1) a in
      let d := HashLen16 (b +% len) (c +% f16) in
      let a := a +% d in
      murmur_loop (Z.to_nat len) s p len a b c d in
  let '(a, b, c, d) := st in
  let a := HashLen16 a c in
  let b := HashLen16 d b in
  Ok (a ^% b, HashLen16 b a).

(** [do { two rounds } while (len >= 128)]; yields the state, the offset and
    the length left. *)
Fixpoint city128_loop (fuel : nat) (s : bytes) (p len : Z) (c : city) : result (city * Z * Z) :=
  match fuel with
  | O => Throw Diverges
  | S fuel =>
    let! c := city_round s p c in
    let! c := city_round s (p + 64) c in
    if (128 <=? len - 128) then city128_loop fuel s (p + 128) (len - 128) c
    else Ok (c, (p + 128), (len - 128))
  end.

(** [for (tail_done = 0; tail_done < len; )]: chunks of 32 bytes from the end. *)
Fixpoint city128_tail (fuel : nat) (s : bytes) (p len tail_done : Z) (c : city) : result city :=
  match fuel with
  | O => Throw Diverges
  | S fuel =>
    if (tail_done <? len) then
      let '(mkCity x y z v w) := c in
      let tail_done := (tail_done + 32) in
      let y := Rotate (y -% x) 42 *% k0 +% snd v in
      let! f := Fetch64 s (p + len - tail_done + 16) in
      let w := (fst w +% f, snd w) in
      let x := Rotate x 49 *% k0 +% fst w in
      let w := (fst w +% fst v, snd w) in
      let! v := WeakHashLen32WithSeeds s (p + len - tail_done) (fst v) (snd v) in
      city128_tail fuel s p len tail_done (mkCity x y z v w)
    else Ok c
  end.

Definition CityHash128WithSeed (s : bytes) (p len : Z) (seed : Z * Z) : result (Z * Z) :=
  if (len <? 128) then CityMurmur s p len seed
  else
    let x := fst seed in
    let y := snd seed in
    let z := len *% k1 in
    let! f0 := Fetch64 s p in
    let! f8 := Fetch64 s (p + 8) in
    let! f88 := Fetch64 s (p + 88) in
    let v1 := Rotate (y ^% k1) 49 *% k1 +% f0 in
    let v2 := Rotate v1 42 *% k1 +% f8 in
    let w1 := Rotate (y +% z) 35 *% k1 +% x in
    let w2 := Rotate (x +% f88) 53 *% k1 in
    let! st := city128_loop (Z.to_nat (len / 128)) s p len (mkCity x y z (v1, v2) (w1, w2)) in
    let '(c, p, len) := st in
    let '(mkCity x y z v w) := c in
    let y := y +% (Rotate (fst w) 37 *% k0 +% z) in
    let x := x +% Rotate (fst v +% z) 49 *% k0 in
    let! c := city128_tail 5 s p len 0 (mkCity x y z v w) in
    let '(mkCity x y z v w) := c in
    let x := HashLen16 x (fst v) in
    let y := HashLen16 y (fst w) in
    Ok (HashLen16 (x +% snd v) (snd w) +% y, HashLen16 (x +% snd w) (y +% snd v)).

Definition CityHash128 (s : bytes) : result (Z * Z) :=
  let len := zlen s in
  if (16 <=? len) then
    let! f0 := Fetch64 s 0 in
    let! f8 := Fetch64 s 8 in
    CityHash128WithSeed s 16 (len - 16) (f0 ^% k3, f8)
  else if (8 <=? len) then
    let! f0 := Fetch64 s 0 in
    let! f1 := Fetch64 s (len - 8) in
    CityHash128WithSeed [] 0 0 (f0 ^% (len *% k0), f1 ^% k1)
  else CityHash128WithSeed s 0 len (k0, k1).


(** ** Loads stay in the buffer *)

Lemma load_ok (n : nat) (s : bytes) (p : Z) : 0 <= p -> p + Z.of_nat n <= zlen s ->
  exists v, load n s p = Ok v /\ 0 <= v < 256 ^ Z.of_nat n.
Proof.
  intros H0 H1. unfold load. rewrite (proj2 (Z.leb_le 0 p) H0), (proj2 (Z.leb_le _ _) H1).
  eexists. split; [done|]. pose proof (le_value_range (ztake (Z.of_nat n) (zdrop p s))) as Hr.
  fold (zlen (ztake (Z.of_nat n) (zdrop p s))) in Hr.
  rewrite zlen_ztake, zlen_zdrop in Hr by lia.
  replace (Z.min (Z.of_nat n) (zlen s - Z.min p (zlen s))) with (Z.of_nat n) in Hr by lia. done.
Qed.

Lemma Fetch64_ok (s : bytes) (p : Z) : 0 <= p -> p + 8 <= zlen s ->
  exists v, Fetch64 s p = Ok v /\ is_u 64 v.
Proof. exact (load_ok 8 s p). Qed.

Lemma Fetch32_ok (s : bytes) (p : Z) : 0 <= p -> p + 4 <= zlen s ->
  exists v, Fetch32 s p = Ok v /\ is_u 32 v.
Proof. exact (load_ok 4 s p). Qed.

Lemma lxor_u64 (a b : Z) : is_u 64 a -> is_u 64 b -> is_u 64 (Z.lxor a b).
Proof.
  intros Ha Hb. unfold is_u in *. split; [apply Z.lxor_nonneg; lia|].
  assert (Z.lxor a b = Z.land (Z.lxor a b) (Z.ones 64)) as ->.
  { rewrite <- (Z.mod_small a (2 ^ 64)), <- (Z.mod_small b (2 ^ 64)) by done.
    rewrite <- !Z.land_ones by lia. apply Z.bits_inj'. intros n Hn.
    rewrite Z.land_spec, !Z.lxor_spec, !Z.land_spec.
    by destruct (Z.testbit a n), (Z.testbit b n), (Z.testbit (Z.ones 64) n). }
  rewrite Z.land_ones by lia. apply Z.mod_pos_bound. lia.
Qed.

Lemma mul64_u64 (a b : Z) : is_u 64 (mul64 a b).
Proof. apply wrap_range. lia. Qed.

Lemma HashLen16_u64 (a b : Z) : is_u 64 (HashLen16 a b).
Proof. apply mul64_u64. Qed.

Lemma add64_u64 (a b : Z) : is_u 64 (add64 a b).
Proof. apply wrap_range. lia. Qed.

Create HintDb city discriminated.
#[export] Hint Resolve lxor_u64 mul64_u64 HashLen16_u64 add64_u64 : city.

(** [fetch] replaces a load by its value, the bounds being linear facts. *)
Ltac fetch :=
  match goal with
  | |- context [ Fetch64 ?s ?p ] =>
    let v := fresh "f" in let E := fresh "E" in let Hv := fresh "Hv" in
    destruct (Fetch64_ok s p ltac:(lia) ltac:(lia)) as (v & E & Hv); rewrite E; clear E; cbn [rbind]
  | |- context [ Fetch32 ?s ?p ] =>
    let v := fresh "f" in let E := fresh "E" in let Hv := fresh "Hv" in
    destruct (Fetch32_ok s p ltac:(lia) ltac:(lia)) as (v & E & Hv); rewrite E; clear E; cbn [rbind]
  end.

Section Safe.
Context (s : bytes).

Lemma HashLen0to16_ok (p len : Z) : 0 <= p -> 0 <= len <= 16 -> p + len <= zlen s ->
  exists h, HashLen0to16 s p len = Ok h /\ is_u 64 h.
Proof.
  intros Hp Hl Hs. unfold HashLen0to16.
  destruct (Z.ltb_spec 8 len); [repeat fetch; eexists; split; [done|]; auto with city|].
  destruct (Z.leb_spec 4 len); [repeat fetch; eexists; split; [done|]; auto with city|].
  destruct (Z.ltb_spec 0 len); [|by eexists].
  assert (0 <= Z.shiftr len 1 <= len - 1) as Hsh.
  { rewrite Z.shiftr_div_pow2 by lia. change (2 ^ 1) with 2. pose proof (Z.div_lt len 2).
    pose proof (Z.div_pos len 2). lia. }
  destruct (load_ok 1 s p) as (a & -> & _); [lia|lia|].
  destruct (load_ok 1 s (p + Z.shiftr len 1)) as (b & -> & _); [lia|lia|].
  destruct (load_ok 1 s (p + len - 1)) as (c & -> & _); [lia|lia|].
  cbn [rbind]. eexists. split; [done|]. auto with city.
Qed.

Lemma HashLen17to32_ok (p len : Z) : 0 <= p -> 16 < len -> p + len <= zlen s ->
  exists h, HashLen17to32 s p len = Ok h /\ is_u 64 h.
Proof.
  intros Hp Hl Hs. unfold HashLen17to32. repeat fetch. eexists. split; [done|]. auto with city.
Qed.

Lemma WeakHash_ok (p a b : Z) : 0 <= p -> p + 32 <= zlen s ->
  exists h, WeakHashLen32WithSeeds s p a b = Ok h.
Proof. intros. unfold WeakHashLen32WithSeeds. repeat fetch. by eexists. Qed.

Lemma HashLen33to64_ok (p len : Z) : 0 <= p -> 32 < len -> p + len <= zlen s ->
  exists h, HashLen33to64 s p len = Ok h /\ is_u 64 h.
Proof.
  intros Hp Hl Hs. unfold HashLen33to64. repeat fetch. eexists. split; [done|]. auto with city.
Qed.

Lemma city_round_ok (p : Z) (c : city) : 0 <= p -> p + 64 <= zlen s ->
  exists c', city_round s p c = Ok c'.
Proof.
  intros Hp Hs. destruct c as [x y z v w]. unfold city_round. repeat fetch.
  match goal with |- context [ WeakHashLen32WithSeeds s p ?a ?b ] =>
    destruct (WeakHash_ok p a b) as (h1 & ->); [lia|lia|] end. cbn [rbind].
  match goal with |- context [ WeakHashLen32WithSeeds s (p + 32) ?a ?b ] =>
    destruct (WeakHash_ok (p + 32) a b) as (h2 & ->); [lia|lia|] end. by eexists.
Qed.

Lemma city64_loop_ok (n : nat) : forall p c, 0 <= p -> p + 64 * Z.of_nat (S n) <= zlen s ->
  exists c', city64_loop (S n) s p (64 * Z.of_nat (S n)) c = Ok c'.
Proof.
  induction n as [|n IH]; intros p c Hp Hs; cbn [city64_loop];
    destruct (city_round_ok p c) as (c1 & ->); [lia|lia| |lia|lia|]; cbn [rbind]; [by eexists|].
  replace (64 * Z.of_nat (S (S n)) - 64) with (64 * Z.of_nat (S n)) by lia.
  rewrite (proj2 (Z.eqb_neq (64 * Z.of_nat (S n)) 0)) by lia. apply IH; lia.
Qed.

Lemma murmur_loop_ok (n : nat) : forall p len a b c d, 0 <= p -> 16 < len -> p + len <= zlen s ->
  len <= Z.of_nat n -> exists r, murmur_loop n s p len a b c d = Ok r.
Proof.
  induction n as [|n IH]; intros p len a b c d Hp Hl Hs Hn; [lia|]. cbn [murmur_loop].
  repeat fetch. destruct (Z.ltb_spec 16 (len - 16)); [apply IH; lia|by eexists].
Qed.

Lemma CityMurmur_ok (p len : Z) (seed : Z * Z) : 0 <= p -> 0 <= len -> p + len <= zlen s ->
  exists h, CityMurmur s p len seed = Ok h /\ is_u 64 (fst h) /\ is_u 64 (snd h).
Proof.
  intros Hp Hl Hs. unfold CityMurmur.
  assert (forall r : result (Z * Z * Z * Z), (exists v, r = Ok v) ->
    exists h, rbind r (fun '(a, b, c, d) =>
      Ok (HashLen16 a c ^% HashLen16 d b, HashLen16 (HashLen16 d b) (HashLen16 a c))) = Ok h
      /\ is_u 64 (fst h) /\ is_u 64 (snd h)) as Hfin.
  { intros r ([[[a b] c] d] & ->). eexists. split; [done|]. cbn. auto with city. }
  apply Hfin. destruct (Z.leb_spec len 16).
  - destruct (HashLen0to16_ok p len) as (h & -> & _); [lia|lia|lia|]. cbn [rbind].
    destruct (Z.leb_spec 8 len); [fetch|]; by eexists.
  - repeat fetch. apply murmur_loop_ok; lia.
Qed.

Lemma city128_loop_ok (n : nat) : forall p len c, 0 <= p -> 128 <= len -> p + len <= zlen s ->
  len <= 128 * Z.of_nat n + 127 ->
  exists c' p' len', city128_loop n s p len c = Ok (c', p', len') /\
    p' + len' = p + len /\ p + 128 <= p' /\ 0 <= len' < 128.
Proof.
  induction n as [|n IH]; intros p len c Hp Hl Hs Hn; [lia|]. cbn [city128_loop].
  destruct (city_round_ok p c) as (c1 & ->); [lia|lia|]. cbn [rbind].
  destruct (city_round_ok (p + 64) c1) as (c2 & ->); [lia|lia|]. cbn [rbind].
  destruct (Z.leb_spec 128 (len - 128)).
  - destruct (IH (p + 128) (len - 128) c2) as (c' & p' & l' & -> & ? & ? & ?); [lia..|].
    eexists _, _, _. split; [done|]. lia.
  - eexists _, _, _. split; [done|]. lia.
Qed.

Lemma city128_tail_ok (n : nat) : forall p len k c, 128 <= p -> 0 <= len < 128 -> p + len <= zlen s ->
  0 <= k <= 4 -> 5 <= Z.of_nat n + k ->
  exists c', city128_tail n s p len (32 * k) c = Ok c'.
Proof.
  induction n as [|n IH]; intros p len k c Hp Hl Hs Hk Hn; [lia|]. cbn [city128_tail].
  destruct (Z.ltb_spec (32 * k) len); [|by eexists].
  destruct c as [x y z v w]. fetch.
  destruct (WeakHash_ok (p + len - (32 * k + 32)) (fst v) (snd v)) as (v' & ->); [lia|lia|]. cbn [rbind].
  replace (32 * k + 32) with (32 * (k + 1)) by lia. apply IH; lia.
Qed.

Lemma CityHash128WithSeed_ok (p len : Z) (seed : Z * Z) : 0 <= p -> 0 <= len -> p + len <= zlen s ->
  exists h, CityHash128WithSeed s p len seed = Ok h /\ is_u 64 (fst h) /\ is_u 64 (snd h).
Proof.
  intros Hp Hl Hs. unfold CityHash128WithSeed.
  destruct (Z.ltb_spec len 128); [by apply CityMurmur_ok|]. repeat fetch.
  match goal with |- context [ city128_loop ?n s p len ?c ] =>
    destruct (city128_loop_ok n p len c) as (c' & p' & l' & -> & ? & ? & ?) end; [lia..| |].
  { pose proof (Z.div_mod len 128). pose proof (Z.mod_pos_bound len 128). lia. }
  cbn [rbind]. destruct c' as [x y z v w].
  match goal with |- context [ city128_tail 5 s p' l' 0 ?c ] =>
    destruct (city128_tail_ok 5 p' l' 0 c) as ([x' y' z' v' w'] & E) end; [lia..|].
  rewrite Z.mul_0_r in E. rewrite E.
  cbn [rbind]. eexists. split; [done|]. cbn. auto with city.
Qed.
End Safe.

Lemma round_down_64 (x : Z) : 0 <= x < 2 ^ 64 -> Z.land x (wrap 64 (Z.lnot 63)) = 64 * (x / 64).
Proof.
  intros Hx. change (wrap 64 (Z.lnot 63)) with (Z.ldiff (Z.ones 64) (Z.ones 6)).
  assert (Z.land x (Z.ldiff (Z.ones 64) (Z.ones 6)) = Z.ldiff (Z.land x (Z.ones 64)) (Z.ones 6)) as ->.
  { apply Z.bits_inj'. intros n Hn. rewrite !Z.land_spec, !Z.ldiff_spec, Z.land_spec.
    by rewrite andb_assoc. }
  rewrite Z.land_ones, Z.mod_small, Z.ldiff_ones_r by lia.
  rewrite Z.shiftl_mul_pow2, Z.shiftr_div_pow2 by lia. change (2 ^ 6) with 64. lia.
Qed.

Lemma CityHash64_ok (s : bytes) : zlen s < 2 ^ 64 -> exists h, CityHash64 s = Ok h /\ is_u 64 h.
Proof.
  intros Hs. pose proof (zlen_nonneg s). unfold CityHash64.
  destruct (Z.leb_spec (zlen s) 32).
  { destruct (Z.leb_spec (zlen s) 16); [apply HashLen0to16_ok|apply HashLen17to32_ok]; lia. }
  destruct (Z.leb_spec (zlen s) 64); [apply HashLen33to64_ok; lia|].
  repeat fetch.
  match goal with |- context [ WeakHashLen32WithSeeds s (zlen s - 64) ?a ?b ] =>
    destruct (WeakHash_ok s (zlen s - 64) a b) as (v & ->) end; [lia..|]. cbn [rbind].
  match goal with |- context [ WeakHashLen32WithSeeds s (zlen s - 32) ?a ?b ] =>
    destruct (WeakHash_ok s (zlen s - 32) a b) as (w & ->) end; [lia..|]. cbn [rbind].
  rewrite round_down_64 by lia. rewrite (Z.mul_comm 64), Z.div_mul, (Z.mul_comm _ 64) by lia.
  pose proof (Z.div_le_lower_bound (zlen s - 1) 64 1 ltac:(lia) ltac:(lia)).
  pose proof (Z.mul_div_le (zlen s - 1) 64 ltac:(lia)).
  destruct (Z.to_nat ((zlen s - 1) / 64)) as [|n] eqn:E; [lia|].
  replace ((zlen s - 1) / 64) with (Z.of_nat (S n)) in * by lia.
  match goal with |- context [ city64_loop _ s 0 _ ?c ] =>
    destruct (city64_loop_ok s n 0 c) as ([x y z v' w'] & ->) end; [lia..|].
  cbn [rbind]. eexists. split; [done|]. auto with city.
Qed.

Lemma CityHash128_ok (s : bytes) :
  exists h, CityHash128 s = Ok h /\ is_u 64 (fst h) /\ is_u 64 (snd h).
Proof.
  pose proof (zlen_nonneg s). unfold CityHash128.
  destruct (Z.leb_spec 16 (zlen s)).
  { repeat fetch. apply CityHash128WithSeed_ok; lia. }
  destruct (Z.leb_spec 8 (zlen s)).
  { repeat fetch. apply CityHash128WithSeed_ok; zlen. }
  apply CityHash128WithSeed_ok; lia.
Qed.

(** ** Main result *)

(** C40. CityHash is safe and total: for every buffer (below the size of the
    address space) both hashes terminate without reading a byte outside it,
    and yield values of their width; this includes the tail loop of the
    128-bit hash, which reads backwards over bytes already consumed. *)
Theorem CityHash_total (s : bytes) (Hs : zlen s < 2 ^ 64) :
  (exists h, CityHash64 s = Ok h /\ is_u 64 h) /\
  (exists lo hi, CityHash128 s = Ok (lo, hi) /\ is_u 64 lo /\ is_u 64 hi).
Proof.
  split; [by apply CityHash64_ok|].
  destruct (CityHash128_ok s) as ([lo hi] & E & ? & ?). by exists lo, hi.
Qed.

Lemma CityHash_total_witness :
  (exists h, CityHash64 (str "Moscow") = Ok h /\ is_u 64 h) /\
  (exists lo hi, CityHash128 (str "Moscow") = Ok (lo, hi) /\ is_u 64 lo /\ is_u 64 hi).
Proof. apply (CityHash_total (str "Moscow")). vm_compute. reflexivity. Defined.

(** The values the ClickHouse documentation gives for [cityHash64]. *)
Example CityHash64_Moscow : CityHash64 (str "Moscow") = Ok 12507901496292878638.
Proof. vm_compute. reflexivity. Qed.

Example CityHash64_quote :
  CityHash64 (str "How can you write a big system without C++?  -Paul Glick") = Ok 6237945311650045625.
Proof. vm_compute. reflexivity. Qed.
