(* ===== verification/CityHashCrc.v ===== *)
(** * The SSE 4.2 hashes (clickhouse/cityhash/city.cc under __SSE4_2__, citycrc.h)

    The hashes of 256 and 128 bits that mix with the processor's CRC
    instruction.  They are compiled where SSE 4.2 is enabled; no other part of
    the client calls them.  The instruction is a parameter, of which the code
    needs that the result is a zero-extended 32-bit word; [crc32c_u64] is the
    documented function (CRC-32C, bit-reflected), an instance of it.  As in
    CityHash.v a load outside the buffer is [Undefined].  The theorems: every
    length is hashed without leaving the buffer and without exhausting the
    loops' fuel; the short form is the long form of the zero-padded input, under
    a seed that tells the lengths apart; up to 900 bytes the 128-bit hashes are
    the portable ones. *)

From S2P Require Import Prelude.
From S2P Require Import CityHash.

(** What [_mm_crc32_u64] promises. *)
Class CrcInstruction (mm_crc32_u64 : Z -> Z -> Z) : Prop :=
  crc_result_u32 : forall crc v, is_u 32 (mm_crc32_u64 crc v).

(** The local variables of the loop over chunks. *)
Record crc_state := mkCrc {
  ra : Z; rb : Z; rc : Z; rd : Z; re : Z; rt : Z;
  rf : Z; rg : Z; rh : Z; ri : Z; rj : Z }.

(** The local variables of the loop over the tail. *)
Record crc_tail := mkTail { ta : Z; tc : Z; td : Z; tv : Z * Z }.

(** [uint64 result[4]]. *)
Record crc256 := mkCrc256 { res0 : Z; res1 : Z; res2 : Z; res3 : Z }.

Section Hashes.
Context (mm_crc32_u64 : Z -> Z -> Z).

(** [CHUNK(multiplier, z)] at offset [p]; the caller advances [p] by 40. *)
Definition CHUNK (multiplier z : Z) (s : bytes) (p : Z) (st : crc_state) : result crc_state :=
  let '(mkCrc a b c d e t f g h i j) := st in
  let old_a := a in
  let! f0 := Fetch64 s p in
  let a := Rotate b (41 ^% z) *% multiplier +% f0 in
  let! f8 := Fetch64 s (p + 8) in
  let b := Rotate c (27 ^% z) *% multiplier +% f8 in
  let! f16 := Fetch64 s (p + 16) in
  let c := Rotate d (41 ^% z) *% multiplier +% f16 in
  let! f24 := Fetch64 s (p + 24) in
  let d := Rotate e (33 ^% z) *% multiplier +% f24 in
  let! f32 := Fetch64 s (p + 32) in
  let e := Rotate t (25 ^% z) *% multiplier +% f32 in
  let t := old_a in
  let f := mm_crc32_u64 f a in
  let g := mm_crc32_u64 g b in
  let h := mm_crc32_u64 h c in
  let i := mm_crc32_u64 i d in
  let j := mm_crc32_u64 j e in
  Ok (mkCrc a b c d e t f g h i j).

(** [do { six chunks } while (--iters > 0)]; yields the state and [s]. *)
Fixpoint crc_loop (fuel : nat) (s : bytes) (p iters : Z) (st : crc_state) : result (crc_state * Z) :=
  match fuel with
  | O => Throw Diverges
  | S fuel =>
    let! st := CHUNK 1 1 s p st in
    let! st := CHUNK k0 0 s (p + 40) st in
    let! st := CHUNK 1 1 s (p + 80) st in
    let! st := CHUNK k0 0 s (p + 120) st in
    let! st := CHUNK 1 1 s (p + 160) st in
    let! st := CHUNK k0 0 s (p + 200) st in
    let iters := iters -% 1 in
    if (0 <? iters) then crc_loop fuel s (p + 240) iters st
    else Ok (st, p + 240)
  end.

(** [for (size_t tail_done = 0; tail_done < len; )]. *)
Fixpoint crc_tail_loop (fuel : nat) (s : bytes) (p len tail_done : Z) (st : crc_tail) : result crc_tail :=
  match fuel with
  | O => Throw Diverges
  | S fuel =>
    if (tail_done <? len) then
      let '(mkTail a c d v) := st in
      let tail_done := tail_done + 32 in
      let c := Rotate (c -% a) 42 *% k0 +% snd v in
      let! f := Fetch64 s (p + len - tail_done + 16) in
      let d := d +% f in
      let a := Rotate a 49 *% k0 +% d in
      let d := d +% fst v in
      let! v := WeakHashLen32WithSeeds s (p + len - tail_done) (fst v) (snd v) in
      crc_tail_loop fuel s p len tail_done (mkTail a c d v)
    else Ok st
  end.

(** Requires [len >= 240]. *)
Definition CityHashCrc256Long (s : bytes) (len seed : Z) : result crc256 :=
  let! f56 := Fetch64 s 56 in
  let a := f56 +% k0 in
  let! f96 := Fetch64 s 96 in
  let b := f96 +% k0 in
  let c := HashLen16 b len in
  let result1 := c in
  let! f120 := Fetch64 s 120 in
  let d := f120 *% k0 +% len in
  let result2 := d in
  let! f184 := Fetch64 s 184 in
  let e := f184 +% seed in
  let f := seed in
  let t := c +% d in
  let iters := len / 240 in
  let len := len - iters * 240 in
  let! r := crc_loop (Z.to_nat iters) s 0 iters (mkCrc a b c d e t f 0 0 0 0) in
  let '(mkCrc a b c d e t f g h i j, p) := r in
  let j := j +% shl64 i 32 in
  let a := HashLen16 a j in
  let h := h +% shl64 g 32 in
  let b := b *% k0 +% h in
  let c := HashLen16 c f +% i in
  let d := HashLen16 d e in
  let v := (j +% e, HashLen16 h t) in
  let h := snd v +% f in
  let! r := crc_tail_loop 9 s p len 0 (mkTail a c d v) in
  let '(mkTail a c d v) := r in
  let e := HashLen16 a d +% fst v in
  let f := HashLen16 b c +% a in
  let g := HashLen16 (fst v) (snd v) +% c in
  let result0 := e +% f +% g +% h in
  let a := ShiftMix ((a +% g) *% k0) *% k0 +% b in
  let result1 := result1 +% (a +% result0) in
  let a := ShiftMix (a *% k0) *% k0 +% c in
  let result2 := result2 +% (a +% result1) in
  let a := ShiftMix ((a +% e) *% k0) *% k0 in
  let result3 := a +% result2 in
  Ok (mkCrc256 result0 result1 result2 result3).

(** [~static_cast<uint32>(len)]. *)
Definition short_seed (len : Z) : Z := wrap 32 (Z.lnot (wrap 32 len)).

(** Requires [len < 240]: [buf] is the input and zeros up to 240 bytes. *)
Definition CityHashCrc256Short (s : bytes) : result crc256 :=
  let len := zlen s in
  let buf := s ++ List.repeat Byte.x00 (Z.to_nat (240 - len)) in
  CityHashCrc256Long buf 240 (short_seed len).

Definition CityHashCrc256 (s : bytes) : result crc256 :=
  let len := zlen s in
  if (240 <=? len) then CityHashCrc256Long s len 0 else CityHashCrc256Short s.

Definition CityHashCrc128WithSeed (s : bytes) (seed : Z * Z) : result (Z * Z) :=
  let len := zlen s in
  if (len <=? 900) then CityHash128WithSeed s 0 len seed
  else
    let! r := CityHashCrc256 s in
    let u := snd seed +% res0 r in
    let v := fst seed +% res1 r in
    Ok (HashLen16 u (v +% res2 r), HashLen16 (Rotate v 32) (u *% k0 +% res3 r)).

Definition CityHashCrc128 (s : bytes) : result (Z * Z) :=
  let len := zlen s in
  if (len <=? 900) then CityHash128 s
  else
    let! r := CityHashCrc256 s in
    Ok (res2 r, res3 r).

(** ** Every length is hashed inside the buffer *)

(** The words of a result fit 64 bits. *)
Definition crc256_u64 (r : crc256) : Prop :=
  is_u 64 (res0 r) /\ is_u 64 (res1 r) /\ is_u 64 (res2 r) /\ is_u 64 (res3 r).

Lemma CHUNK_ok (m z : Z) (s : bytes) (p : Z) (st : crc_state) : 0 <= p -> p + 40 <= zlen s ->
  exists st', CHUNK m z s p st = Ok st'.
Proof. intros. destruct st. unfold CHUNK. repeat fetch. by eexists. Qed.

(** [chunk] replaces a chunk by its result. *)
Ltac chunk :=
  match goal with
  | |- context [ CHUNK ?m ?z ?s ?p ?st ] =>
    destruct (CHUNK_ok m z s p st ltac:(lia) ltac:(lia)) as (? & ->); cbn [rbind]
  end.

Lemma crc_loop_ok (s : bytes) (n : nat) : forall p iters st,
  0 <= p -> 0 < iters < 2 ^ 64 -> iters <= Z.of_nat n -> p + 240 * iters <= zlen s ->
  exists st', crc_loop n s p iters st = Ok (st', p + 240 * iters).
Proof.
  induction n as [|n IH]; intros p iters st Hp Hi Hn Hs; [lia|]. cbn [crc_loop]. repeat chunk.
  replace (iters -% 1) with (iters - 1) by (unfold sub64; rewrite wrap_id; unfold is_u; lia).
  destruct (Z.ltb_spec 0 (iters - 1)).
  - match goal with |- context [ crc_loop n s _ _ ?st ] =>
      destruct (IH (p + 240) (iters - 1) st) as (st' & ->) end; [lia..|].
    exists st'. do 2 f_equal. lia.
  - eexists. do 2 f_equal. lia.
Qed.

Lemma crc_tail_loop_ok (s : bytes) (n : nat) : forall p len k st,
  240 <= p -> 0 <= len < 240 -> p + len <= zlen s -> 0 <= k <= 8 -> 9 <= Z.of_nat n + k ->
  exists st', crc_tail_loop n s p len (32 * k) st = Ok st'.
Proof.
  induction n as [|n IH]; intros p len k st Hp Hl Hs Hk Hn; [lia|]. cbn [crc_tail_loop].
  destruct (Z.ltb_spec (32 * k) len); [|by eexists].
  destruct st as [a c d v]. fetch.
  destruct (WeakHash_ok s (p + len - (32 * k + 32)) (fst v) (snd v)) as (v' & ->); [lia|lia|].
  cbn [rbind]. replace (32 * k + 32) with (32 * (k + 1)) by lia. apply IH; lia.
Qed.

Lemma CityHashCrc256Long_ok (s : bytes) (len seed : Z) : 240 <= len -> len <= zlen s -> len < 2 ^ 64 ->
  exists r, CityHashCrc256Long s len seed = Ok r /\ crc256_u64 r.
Proof.
  intros Hl Hs H64. unfold CityHashCrc256Long. repeat fetch.
  pose proof (Z.div_mod len 240 ltac:(lia)). pose proof (Z.mod_pos_bound len 240 ltac:(lia)).
  match goal with |- context [ crc_loop ?n s 0 ?k ?st ] =>
    destruct (crc_loop_ok s n 0 k st) as ([a b c d e t f' g h i j] & ->) end; [lia..|]. cbn [rbind].
  match goal with |- context [ crc_tail_loop 9 s ?p ?l 0 ?st ] =>
    destruct (crc_tail_loop_ok s 9 p l 0 st) as ([a' c' d' v'] & E') end; [lia..|].
  rewrite Z.mul_0_r in E'. rewrite E'. cbn [rbind]. eexists. split; [done|].
  unfold crc256_u64. cbn. auto with city.
Qed.

Lemma CityHashCrc256_ok (s : bytes) : zlen s < 2 ^ 64 ->
  exists r, CityHashCrc256 s = Ok r /\ crc256_u64 r.
Proof.
  intros Hs. pose proof (zlen_nonneg s). unfold CityHashCrc256.
  destruct (Z.leb_spec 240 (zlen s)); [apply CityHashCrc256Long_ok; lia|].
  apply CityHashCrc256Long_ok; [lia| |lia]. unfold zlen in *. rewrite length_app, repeat_length. lia.
Qed.

(** The three hashes of citycrc.h are total on every buffer of the address
    space: no load leaves it, the tail loop included, which reads up to 31
    bytes back into chunks already hashed, and the words have their width. *)
Theorem CityHashCrc_total (s : bytes) (seed : Z * Z) : zlen s < 2 ^ 64 ->
  (exists r, CityHashCrc256 s = Ok r /\ crc256_u64 r) /\
  (exists h, CityHashCrc128WithSeed s seed = Ok h /\ is_u 64 (fst h) /\ is_u 64 (snd h)) /\
  (exists h, CityHashCrc128 s = Ok h /\ is_u 64 (fst h) /\ is_u 64 (snd h)).
Proof.
  intros Hs. pose proof (zlen_nonneg s).
  destruct (CityHashCrc256_ok s Hs) as (r & E & Hr). split; [by exists r|].
  unfold CityHashCrc128WithSeed, CityHashCrc128. destruct (Z.leb_spec (zlen s) 900).
  - split; [apply CityHash128WithSeed_ok; lia|apply CityHash128_ok].
  - rewrite E. cbn [rbind]. destruct Hr as (? & ? & ? & ?).
    split; (eexists; split; [done|]; cbn; auto with city).
Qed.

(** ** The CRC words stay 32 bits wide *)

(** The accumulators [f] to [j] hold 32-bit words between chunks, so that
    [j += i << 32] and [h += g << 32] place two of them side by side. *)
Definition crc_words (st : crc_state) : Prop :=
  Forall (is_u 32) [rf st; rg st; rh st; ri st; rj st].

Lemma CHUNK_words `{!CrcInstruction mm_crc32_u64} (m z : Z) (s : bytes) (p : Z) (st st' : crc_state) :
  CHUNK m z s p st = Ok st' -> crc_words st'.
Proof.
  destruct st. unfold CHUNK. intros E.
  repeat match type of E with rbind ?r _ = _ => destruct r; cbn [rbind] in E; [|done] end.
  injection E as <-. unfold crc_words. cbn. repeat constructor; apply crc_result_u32.
Qed.

Lemma crc_loop_words `{!CrcInstruction mm_crc32_u64} (s : bytes) (n : nat) : forall p iters st st' p',
  crc_loop n s p iters st = Ok (st', p') -> crc_words st'.
Proof.
  induction n as [|n IH]; intros p iters st st' p' E; [done|]. cbn [crc_loop] in E.
  do 5 (match type of E with rbind ?r _ = _ => destruct r; cbn [rbind] in E; [|done] end).
  match type of E with rbind ?r _ = _ => destruct r as [st6|] eqn:E6; cbn [rbind] in E; [|done] end.
  destruct (0 <? iters -% 1); [by eapply IH|]. injection E as <- _. by eapply CHUNK_words.
Qed.

(** Two 32-bit words joined by [lo += hi << 32]: no bit is lost or mixed. *)
Lemma join_words (lo hi : Z) : is_u 32 lo -> is_u 32 hi ->
  lo +% shl64 hi 32 = hi * 2 ^ 32 + lo.
Proof.
  unfold is_u. intros Hlo Hhi. unfold shl64, add64. rewrite Z.shiftl_mul_pow2 by lia.
  rewrite (wrap_id 64 (hi * 2 ^ 32)) by (unfold is_u; lia).
  rewrite wrap_id by (unfold is_u; lia). lia.
Qed.

(** What the loop leaves is joined without loss: [j += i << 32] and
    [h += g << 32] are the 64-bit words with these halves. *)
Lemma crc_loop_joined `{!CrcInstruction mm_crc32_u64} (s : bytes) (n : nat) (p iters : Z)
    (st st' : crc_state) (p' : Z) : crc_loop n s p iters st = Ok (st', p') ->
  rj st' +% shl64 (ri st') 32 = ri st' * 2 ^ 32 + rj st' /\
  rh st' +% shl64 (rg st') 32 = rg st' * 2 ^ 32 + rh st'.
Proof.
  intros E. apply crc_loop_words in E. unfold crc_words in E.
  rewrite !Forall_cons in E. destruct E as (? & ? & ? & ? & ? & _). split; by apply join_words.
Qed.
End Hashes.

(** ** The short form tells lengths apart *)

Lemma short_seed_lt (len : Z) : 0 <= len < 2 ^ 32 -> short_seed len = 2 ^ 32 - 1 - len.
Proof.
  intros H. unfold short_seed. rewrite (wrap_id 32 len) by done. unfold Z.lnot, wrap.
  rewrite <- (Z.mod_small (2 ^ 32 - 1 - len) (2 ^ 32)) by lia.
  replace (2 ^ 32 - 1 - len) with (Z.pred (- len) + 1 * 2 ^ 32) by lia.
  by rewrite Z.mod_add by lia.
Qed.

(** The padded buffer and the seed of [CityHashCrc256Short] determine the
    input, and the seed is never the one of the long form. *)
Lemma short_input_unique (s1 s2 : bytes) : zlen s1 < 240 -> zlen s2 < 240 ->
  s1 ++ List.repeat Byte.x00 (Z.to_nat (240 - zlen s1)) =
    s2 ++ List.repeat Byte.x00 (Z.to_nat (240 - zlen s2)) ->
  short_seed (zlen s1) = short_seed (zlen s2) -> s1 = s2.
Proof.
  intros H1 H2 Hb Hs. pose proof (zlen_nonneg s1). pose proof (zlen_nonneg s2).
  rewrite !short_seed_lt in Hs by lia.
  apply app_inj_1 in Hb as [? _]; [done|]. unfold zlen in *. lia.
Qed.

Lemma short_seed_nonzero (len : Z) : 0 <= len < 240 -> short_seed len <> 0.
Proof. intros. rewrite short_seed_lt; lia. Qed.

(** ** The instruction *)

(** CRC-32C of one more bit, the polynomial bit-reflected. *)
Definition crc32c_bit (r : Z) : Z :=
  if Z.testbit r 0 then Z.shiftr r 1 ^% 0x82f63b78 else Z.shiftr r 1.

(** The 64 bits of [v] shifted into the low 32 bits of [crc]. *)
Definition crc32c_u64 (crc v : Z) : Z :=
  wrap 32 (Nat.iter 64 crc32c_bit (wrap 32 crc ^% v)).

#[export] Instance crc32c_instruction : CrcInstruction crc32c_u64.
Proof. intros crc v. apply wrap_range. lia. Qed.

Example CityHashCrc_runs :
  match CityHashCrc128 crc32c_u64 (List.repeat Byte.x61 931) with Ok _ => true | _ => false end = true.
Proof. vm_compute. reflexivity. Qed.

(** The check value of CRC-32C, on an input of eight bytes "12345678". *)
Example crc32c_check :
  crc32c_u64 0xffffffff (le_value (str "12345678")) ^% 0xffffffff = 0x6087809a.
Proof. vm_compute. reflexivity. Qed.
