(* ===== verification/Compressed.v ===== *)
(** * Compressed frames (clickhouse/base/compressed.h, compressed.cpp)

    [CompressedOutput] cuts what is written to it into chunks and sends each as
    a frame: checksum, method, sizes, compressed data.  [CompressedInput]
    reassembles the data.  The two compression libraries are vendored C code and
    enter as records of operations with the calling conventions of their
    headers; the laws the code relies on are the class [CodecLaws]. *)

From S2P Require Import Prelude Streams WireFormat CityHash.

Definition HEADER_SIZE : Z := 9.

Module CompressionMethodByte.
Definition NONE : Z := 0x02.
Definition LZ4 : Z := 0x82.
Definition ZSTD : Z := 0x90.
End CompressionMethodByte.

Definition EXTRA_COMPRESS_BUFFER_SIZE : Z := 4096.

Definition DBMS_MAX_COMPRESSED_SIZE : Z := 0x40000000.

Module CompressionMethod.
Inductive t := None | LZ4 | ZSTD.
End CompressionMethod.

(** ** The libraries

    A function that fills a destination buffer yields its return value and the
    bytes it stored. *)

Record lz4_api := {
  LZ4_compressBound : Z -> Z;
  LZ4_compress_default : bytes -> Z -> Z -> Z * bytes;  (** src, srcSize, dstCapacity *)
  LZ4_decompress_safe : bytes -> Z -> Z * bytes;        (** src, dstCapacity *)
}.

Record zstd_api := {
  ZSTD_compressBound : Z -> Z;
  ZSTD_compress : Z -> bytes -> Z -> Z * bytes;         (** dstCapacity, src, srcSize *)
  ZSTD_decompress : Z -> bytes -> Z * bytes;            (** dstCapacity, src *)
  ZSTD_isError : Z -> bool;
}.

(** A checksum as it lies in memory. *)
Definition uint128_value (h : Z * Z) : Z := fst h + 2 ^ 64 * snd h.

(** ** CompressedInput *)

Record CompressedInput (I : Type) := mkCompressedInput {
  ci_input : I;
  ci_data : bytes;          (** [data_] *)
  ci_mem : ArrayInput;      (** [mem_], what is left of [data_] *)
}.
Arguments mkCompressedInput {I}.
Arguments ci_input {I}.
Arguments ci_data {I}.
Arguments ci_mem {I}.

Section CompressedInputOps.
Context (lz4 : lz4_api) (zstd : zstd_api).
Context {I : Type} `{InputStream I}.

Definition CompressedInput_new (input : I) : CompressedInput I :=
  mkCompressedInput input [] (mkArrayInput []).

(** The destructor's check, when no exception is in flight. *)
Definition CompressedInput_delete (c : CompressedInput I) : result unit :=
  if ArrayInput_Exhausted (ci_mem c) then Ok tt else Throw CompressionError.

Definition ci_on_input {A} (m : M I A) : M (CompressedInput I) A :=
  zoom ci_input (fun i c => mkCompressedInput i (ci_data c) (ci_mem c)) m.

Definition ci_on_mem {A} (m : M ArrayInput A) : M (CompressedInput I) A :=
  zoom ci_mem (fun a c => mkCompressedInput (ci_input c) (ci_data c) a) m.

Definition set_data (data : bytes) : M (CompressedInput I) unit :=
  modify (fun c => mkCompressedInput (ci_input c) data (ci_mem c)).

(** [ReadBytes] from [input_] to [buf + off]: storing past the buffer is undefined. *)
Definition ReadBytes_into (buf : bytes) (off len : Z) : M I (bytes * bool) :=
  let* '(got, ok) := ReadBytes len in
  match mem_store off got buf with
  | Some buf => ret (buf, ok)
  | None => throw Undefined
  end.

(** The header block: [tmp] of [compressed] bytes, filled through a [BufferOutput]. *)
Definition write_header (method compressed original : Z) : M BufferOutput unit :=
  let* _ := Write (le_bytes 1 method) in
  let* _ := Write (le_bytes 4 compressed) in
  let* _ := Write (le_bytes 4 original) in
  Flush.

Definition header_tmp (method compressed original : Z) : result bytes :=
  match write_header method compressed original
          (mkBufferOutput (replicate (Z.to_nat compressed) x00) 0) with
  | (Ok _, b) => Ok (bo_buf b)
  | (Throw e, _) => Throw e
  end.

(** [Decompress], once the frame is in [tmp]: the checksum, then the data. *)
Definition Decompress_block (hash method compressed original : Z) (tmp : bytes)
    : M (CompressedInput I) bool :=
  let* h := lift_result (CityHash128 (ztake compressed tmp)) in
  if negb (hash =? uint128_value h) then throw CompressionError else
  let data := replicate (Z.to_nat original) x00 in
  set_data data ;;;
  let src := ztake (compressed - HEADER_SIZE) (zdrop HEADER_SIZE tmp) in
  if method =? CompressionMethodByte.LZ4 then
    let '(res, out) := LZ4_decompress_safe lz4 src original in
    if res <? 0 then throw CompressionError
    else
      let data := overwrite out data in
      set_data data ;;;
      ci_on_mem (modify (ArrayInput_Reset data)) ;;;
      ret true
  else
    let '(res, out) := ZSTD_decompress zstd original src in
    if ZSTD_isError zstd res then throw CompressionError
    else
      let data := overwrite out data in
      set_data data ;;;
      ci_on_mem (modify (ArrayInput_Reset data)) ;;;
      ret true.

Definition Decompress : M (CompressedInput I) bool :=
  let* '(ok, hash) := ci_on_input (ReadFixed 16 0) in
  if negb ok then ret false else
  let* '(ok, method) := ci_on_input (ReadFixed 1 0) in
  if negb ok then ret false else
  if negb (method =? CompressionMethodByte.LZ4) && negb (method =? CompressionMethodByte.ZSTD)
  then throw CompressionError else
  let* '(ok, compressed) := ci_on_input (ReadFixed 4 0) in
  if negb ok then ret false else
  let* '(ok, original) := ci_on_input (ReadFixed 4 0) in
  if negb ok then ret false else
  if DBMS_MAX_COMPRESSED_SIZE <? compressed then throw CompressionError else
  let* tmp := lift_result (header_tmp method compressed original) in
  let* '(tmp, ok) :=
    ci_on_input (ReadBytes_into tmp HEADER_SIZE (wrap 64 (compressed - HEADER_SIZE))) in
  if negb ok then ret false else
  Decompress_block hash method compressed original tmp.

Definition CompressedInput_DoNext (len : Z) : M (CompressedInput I) bytes :=
  let* c := get in
  if ArrayInput_Exhausted (ci_mem c) then
    let* ok := Decompress in
    if ok then ci_on_mem (ArrayInput_DoNext len) else ret []
  else ci_on_mem (ArrayInput_DoNext len).

Definition CompressedInput_ZC : ZeroCopyInput (CompressedInput I) :=
  {| DoNext := CompressedInput_DoNext |}.

Definition CompressedInput_IS : InputStream (CompressedInput I) :=
  let _ := CompressedInput_ZC in
  {| DoRead := ZeroCopyInput_DoRead; Skip := ZeroCopyInput_Skip |}.
End CompressedInputOps.

(** ** CompressedOutput *)

Record CompressedOutput (Out : Type) := mkCompressedOutput {
  co_destination : Out;
  co_max_chunk : Z;         (** [max_compressed_chunk_size_] *)
  co_buffer : bytes;        (** [compressed_buffer_] *)
  co_method : CompressionMethod.t;
}.
Arguments mkCompressedOutput {Out}.
Arguments co_destination {Out}.
Arguments co_max_chunk {Out}.
Arguments co_buffer {Out}.
Arguments co_method {Out}.

Section CompressedOutputOps.
Context (lz4 : lz4_api) (zstd : zstd_api).
Context {Out : Type} `{OutputStream Out}.

Definition co_on_dst {A} (m : M Out A) : M (CompressedOutput Out) A :=
  zoom co_destination (fun d c => mkCompressedOutput d (co_max_chunk c) (co_buffer c) (co_method c)) m.

Definition set_buffer (buf : bytes) : M (CompressedOutput Out) unit :=
  modify (fun c => mkCompressedOutput (co_destination c) (co_max_chunk c) buf (co_method c)).

(** Storing past the end of [compressed_buffer_] is undefined. *)
Definition co_store (off : Z) (data : bytes) : M (CompressedOutput Out) unit :=
  let* c := get in
  match mem_store off data (co_buffer c) with
  | Some buf => set_buffer buf
  | None => throw Undefined
  end.

Definition PreallocateCompressBuffer (input_size : Z) : M (CompressedOutput Out) unit :=
  let* c := get in
  match co_method c with
  | CompressionMethod.LZ4 =>
    let estimated := LZ4_compressBound lz4 (swrap 32 input_size) in
    if estimated <=? 0 then throw CompressionError
    else set_buffer (resize (estimated + HEADER_SIZE + EXTRA_COMPRESS_BUFFER_SIZE) (co_buffer c))
  | CompressionMethod.ZSTD =>
    let estimated := ZSTD_compressBound zstd (swrap 32 input_size) in
    if ZSTD_isError zstd estimated then throw CompressionError
    else set_buffer (resize (estimated + HEADER_SIZE + EXTRA_COMPRESS_BUFFER_SIZE) (co_buffer c))
  | CompressionMethod.None => ret tt
  end.

(** The part of [Compress] common to both methods: the header, then checksum
    and frame to the destination. *)
Definition send_frame (method compressed_size len : Z) : M (CompressedOutput Out) unit :=
  co_store 0 (le_bytes 1 method) ;;;
  co_store 1 (le_bytes 4 (wrap 32 (compressed_size + HEADER_SIZE))) ;;;
  co_store 5 (le_bytes 4 (wrap 32 len)) ;;;
  let* c := get in
  let frame := ztake (compressed_size + HEADER_SIZE) (co_buffer c) in
  let* h := lift_result (CityHash128 frame) in
  co_on_dst (WriteFixed 16 (uint128_value h)) ;;;
  co_on_dst (WriteBytes frame).

Definition Compress (data : bytes) : M (CompressedOutput Out) unit :=
  let len := zlen data in
  let* c := get in
  let capacity := swrap 32 (wrap 64 (zlen (co_buffer c) - HEADER_SIZE)) in
  (match co_method c with
   | CompressionMethod.LZ4 =>
     let '(compressed_size, out) := LZ4_compress_default lz4 data (swrap 32 len) capacity in
     co_store HEADER_SIZE out ;;;
     if compressed_size <=? 0 then throw CompressionError
     else send_frame CompressionMethodByte.LZ4 compressed_size len
   | CompressionMethod.ZSTD =>
     let '(compressed_size, out) := ZSTD_compress zstd capacity data (swrap 32 len) in
     co_store HEADER_SIZE out ;;;
     if ZSTD_isError zstd compressed_size then throw CompressionError
     else send_frame CompressionMethodByte.ZSTD compressed_size len
   | CompressionMethod.None => throw CompressionError
   end) ;;;
  co_on_dst Flush.

Definition CompressedOutput_DoWrite_step (max_chunk_size : Z) (data : bytes)
    : M (CompressedOutput Out) (bytes + bytes) :=
  if 0 <? zlen data then
    let to_compress := Z.min (zlen data) max_chunk_size in
    Compress (ztake to_compress data) ;;;
    ret (inl (zdrop to_compress data))
  else ret (inr data).

Definition CompressedOutput_DoWrite (data : bytes) : M (CompressedOutput Out) Z :=
  let original_len := zlen data in
  let* c := get in
  let max_chunk_size := if 0 <? co_max_chunk c then co_max_chunk c else zlen data in
  (if co_max_chunk c <? max_chunk_size then PreallocateCompressBuffer (zlen data) else ret tt) ;;;
  let* rest := while (Z.to_pos (original_len + 1)) (CompressedOutput_DoWrite_step max_chunk_size) data in
  ret (original_len - zlen rest).

Definition CompressedOutput_DoFlush : M (CompressedOutput Out) unit := co_on_dst Flush.

Definition CompressedOutput_OS : OutputStream (CompressedOutput Out) :=
  {| DoWrite := CompressedOutput_DoWrite; DoFlush := CompressedOutput_DoFlush |}.

Definition CompressedOutput_new (destination : Out) (max_chunk : Z) (method : CompressionMethod.t)
    : result unit * CompressedOutput Out :=
  PreallocateCompressBuffer max_chunk (mkCompressedOutput destination max_chunk [] method).
End CompressedOutputOps.

(** ** Reference decoder of a frame

    What one frame at the head of [bs] means, as a function on bytes: the data
    it carries (never empty) and the bytes after it. *)
Section Decode.
Context (lz4 : lz4_api) (zstd : zstd_api).

Definition decode_body (method original : Z) (src : bytes) : option bytes :=
  let zeros := replicate (Z.to_nat original) x00 in
  if method =? CompressionMethodByte.LZ4 then
    let '(res, out) := LZ4_decompress_safe lz4 src original in
    if res <? 0 then None else Some (overwrite out zeros)
  else if method =? CompressionMethodByte.ZSTD then
    let '(res, out) := ZSTD_decompress zstd original src in
    if ZSTD_isError zstd res then None else Some (overwrite out zeros)
  else None.

Definition header (method compressed original : Z) : bytes :=
  le_bytes 1 method ++ le_bytes 4 compressed ++ le_bytes 4 original.

Definition decode_frame (bs : bytes) : option (bytes * bytes) :=
  let hash := le_value (ztake 16 bs) in
  let method := le_value (ztake 1 (zdrop 16 bs)) in
  let compressed := le_value (ztake 4 (zdrop 17 bs)) in
  let original := le_value (ztake 4 (zdrop 21 bs)) in
  let block := ztake compressed (zdrop 16 bs) in
  if (HEADER_SIZE <=? compressed) && (compressed <=? DBMS_MAX_COMPRESSED_SIZE)
     && (16 + compressed <=? zlen bs)
  then
    match CityHash128 block, decode_body method original (zdrop HEADER_SIZE block) with
    | Ok h, Some (x :: data) =>
      if hash =? uint128_value h then Some (x :: data, zdrop (16 + compressed) bs) else None
    | _, _ => None
    end
  else None.

(** The shape of a frame; [decode_frame] recognises exactly these. *)
Inductive is_frame : bytes -> bytes -> Prop :=
| frame_intro h method compressed original body data :
    is_u 64 (fst h) -> is_u 64 (snd h) -> is_u 8 method -> is_u 32 compressed -> is_u 32 original ->
    compressed <= DBMS_MAX_COMPRESSED_SIZE -> zlen body = compressed - HEADER_SIZE ->
    CityHash128 (header method compressed original ++ body) = Ok h ->
    decode_body method original body = Some data -> data <> [] ->
    is_frame (le_bytes 16 (uint128_value h) ++ header method compressed original ++ body) data.

(** Cutting a list into a prefix of [n] bytes, which are those of an integer. *)
Lemma split_le (n : nat) (bs : bytes) : Z.of_nat n <= zlen bs ->
  bs = le_bytes n (le_value (ztake (Z.of_nat n) bs)) ++ zdrop (Z.of_nat n) bs /\
  0 <= le_value (ztake (Z.of_nat n) bs) < 256 ^ Z.of_nat n.
Proof.
  intros Hn. assert (length (ztake (Z.of_nat n) bs) = n) as Hl.
  { pose proof (zlen_ztake (Z.of_nat n) bs ltac:(lia)) as E. unfold zlen in *. lia. }
  pose proof (le_value_range (ztake (Z.of_nat n) bs)) as Hr. rewrite Hl in Hr. split; [|done].
  rewrite <- Hl at 1. rewrite le_bytes_value. by rewrite ztake_zdrop.
Qed.

Lemma zlen_header (m c o : Z) : zlen (header m c o) = HEADER_SIZE.
Proof. unfold header. zlen. done. Qed.

Lemma CityHash128_range (s : bytes) h : CityHash128 s = Ok h -> is_u 64 (fst h) /\ is_u 64 (snd h).
Proof. intros E. destruct (CityHash128_ok s) as (h' & E' & ?). congruence. Qed.

Lemma decode_frame_inv (bs data rest : bytes) : decode_frame bs = Some (data, rest) ->
  exists f, is_frame f data /\ bs = f ++ rest.
Proof.
  unfold decode_frame. set (compressed := le_value (ztake 4 (zdrop 17 bs))).
  set (method := le_value (ztake 1 (zdrop 16 bs))). set (original := le_value (ztake 4 (zdrop 21 bs))).
  set (hash := le_value (ztake 16 bs)). set (block := ztake compressed (zdrop 16 bs)).
  destruct (Z.leb_spec HEADER_SIZE compressed) as [H9|]; [|done].
  destruct (Z.leb_spec compressed DBMS_MAX_COMPRESSED_SIZE) as [Hmax|]; [|done].
  destruct (Z.leb_spec (16 + compressed) (zlen bs)) as [Hlen|]; [|done]. cbn [andb].
  destruct (CityHash128 block) as [h|] eqn:Eh; [|done].
  destruct (decode_body method original (zdrop HEADER_SIZE block)) as [[|x d]|] eqn:Ed; [done| |done].
  destruct (Z.eqb_spec hash (uint128_value h)) as [Hh|]; [|done]. intros [= <- <-].
  unfold HEADER_SIZE in *.
  destruct (split_le 16 bs) as [E1 R1]; [lia|]. change (Z.of_nat 16) with 16 in *. fold hash in E1, R1.
  destruct (split_le 1 (zdrop 16 bs)) as [E2 R2]; [rewrite zlen_zdrop; lia|].
  change (Z.of_nat 1) with 1 in *. rewrite zdrop_zdrop in E2 by lia. change (16 + 1) with 17 in E2.
  destruct (split_le 4 (zdrop 17 bs)) as [E3 R3]; [rewrite zlen_zdrop; lia|].
  change (Z.of_nat 4) with 4 in *. rewrite zdrop_zdrop in E3 by lia. change (17 + 4) with 21 in E3.
  destruct (split_le 4 (zdrop 21 bs)) as [E4 R4]; [rewrite zlen_zdrop; lia|].
  change (Z.of_nat 4) with 4 in *. rewrite zdrop_zdrop in E4 by lia. change (21 + 4) with 25 in E4.
  fold method in E2, R2. fold compressed in E3, R3. fold original in E4, R4.
  assert (zdrop 16 bs = header method compressed original ++ zdrop 25 bs) as Ehd.
  { unfold header. rewrite E2, E3, E4 at 1. by rewrite <- !app_assoc. }
  set (body := ztake (compressed - 9) (zdrop 25 bs)).
  assert (zlen body = compressed - 9) as Hbody by (unfold body; rewrite zlen_ztake, zlen_zdrop; lia).
  assert (zdrop 25 bs = body ++ zdrop (16 + compressed) bs) as Erest.
  { rewrite <- (ztake_zdrop (compressed - 9) (zdrop 25 bs)) at 1. rewrite zdrop_zdrop by lia.
    fold body. by replace (25 + (compressed - 9)) with (16 + compressed) by lia. }
  assert (block = header method compressed original ++ body) as Eblk.
  { unfold block. rewrite Ehd, Erest, app_assoc.
    replace compressed with (zlen (header method compressed original ++ body)) at 1
      by (rewrite zlen_app, zlen_header; unfold HEADER_SIZE; lia).
    apply ztake_app_exact. }
  rewrite Eblk in Eh, Ed. change 9 with HEADER_SIZE in Ed.
  rewrite <- (zlen_header method compressed original), zdrop_app_exact in Ed.
  destruct (CityHash128_range _ _ Eh) as [? ?].
  eexists. split.
  - apply (frame_intro h method compressed original body); try done;
      change (256 ^ 1) with (2 ^ 8) in *; change (256 ^ 4) with (2 ^ 32) in *; done.
  - rewrite <- Hh, <- !app_assoc, <- Erest, <- Ehd. exact E1.
Qed.

Lemma uint128_range h : is_u 64 (fst h) -> is_u 64 (snd h) -> 0 <= uint128_value h < 256 ^ Z.of_nat 16.
Proof. unfold is_u, uint128_value. change (256 ^ Z.of_nat 16) with (2 ^ 64 * 2 ^ 64). nia. Qed.

Lemma ztake_le_bytes (n : nat) (m z : Z) (l : bytes) : m = Z.of_nat n ->
  0 <= z < 256 ^ m -> le_value (ztake m (le_bytes n z ++ l)) = z.
Proof.
  intros -> Hz. rewrite <- (zlen_le_bytes n z) at 1. rewrite ztake_app_exact.
  by rewrite le_value_bytes, Z.mod_small.
Qed.

Lemma zdrop_le_bytes (n : nat) (k m z : Z) (l : bytes) : m = Z.of_nat n -> m <= k ->
  zdrop k (le_bytes n z ++ l) = zdrop (k - m) l.
Proof.
  intros -> Hk. replace k with (Z.of_nat n + (k - Z.of_nat n)) at 1 by lia.
  rewrite <- zdrop_zdrop by lia. rewrite <- (zlen_le_bytes n z) at 2. by rewrite zdrop_app_exact.
Qed.

Lemma decode_frame_intro (f data rest : bytes) : is_frame f data -> decode_frame (f ++ rest) = Some (data, rest).
Proof.
  intros Hf. destruct Hf as [h m c o body data Hh1 Hh2 Hm Hc Ho Hmax Hbody Hcity Hdec Hne].
  pose proof (uint128_range h Hh1 Hh2) as Hu. unfold is_u in Hm, Hc, Ho.
  pose proof (zlen_nonneg body). pose proof (zlen_nonneg rest).
  assert (HEADER_SIZE <= c) by lia.
  unfold decode_frame. rewrite <- app_assoc. rewrite ztake_le_bytes by (done || lia).
  rewrite !(zdrop_le_bytes 16 _ 16) by lia. cbn [Z.sub Z.opp Z.add Z.pos_sub Pos.pred_double].
  change (16 - 16) with 0. change (17 - 16) with 1. change (21 - 16) with 5. rewrite zdrop_0.
  assert (le_value (ztake 1 ((header m c o ++ body) ++ rest)) = m) as ->.
  { unfold header. rewrite <- !app_assoc. by apply ztake_le_bytes. }
  assert (le_value (ztake 4 (zdrop 1 ((header m c o ++ body) ++ rest))) = c) as ->.
  { unfold header. rewrite <- !app_assoc, (zdrop_le_bytes 1 _ 1) by lia. rewrite zdrop_0. by apply ztake_le_bytes. }
  assert (le_value (ztake 4 (zdrop 5 ((header m c o ++ body) ++ rest))) = o) as ->.
  { unfold header. rewrite <- !app_assoc, (zdrop_le_bytes 1 _ 1), (zdrop_le_bytes 4 _ 4) by lia.
    change (5 - 1 - 4) with 0. rewrite zdrop_0. by apply ztake_le_bytes. }
  assert (zlen (header m c o ++ body) = c) as Hblk by (rewrite zlen_app, zlen_header; lia).
  assert (ztake c ((header m c o ++ body) ++ rest) = header m c o ++ body) as ->
    by (rewrite <- Hblk at 1; apply ztake_app_exact).
  rewrite Hcity. rewrite <- (zlen_header m c o) at 2. rewrite zdrop_app_exact, Hdec.
  rewrite (proj2 (Z.leb_le _ _)), (proj2 (Z.leb_le c _)), (proj2 (Z.leb_le (16 + c) _)); [| |lia|lia].
  2: { rewrite !zlen_app, zlen_le_bytes, zlen_header in *. lia. }
  cbn [andb]. destruct data as [|x data]; [done|]. rewrite Z.eqb_refl. do 2 f_equal.
  rewrite (zdrop_le_bytes 16 _ 16) by lia. replace (16 + c - 16) with c by lia.
  rewrite <- Hblk at 1. apply zdrop_app_exact.
Qed.
End Decode.

(** ** [CompressedInput] implements the reference decoder *)

Lemma replicate_split (n : Z) (k : nat) (b : byte) : Z.of_nat k <= n ->
  zdrop (Z.of_nat k) (replicate (Z.to_nat n) b) = replicate (Z.to_nat (n - Z.of_nat k)) b.
Proof.
  intros. unfold zdrop, zlen. rewrite length_replicate, drop_replicate. f_equal. lia.
Qed.

Lemma header_tmp_ok (m c o : Z) : HEADER_SIZE <= c ->
  header_tmp m c o = Ok (header m c o ++ replicate (Z.to_nat (c - HEADER_SIZE)) x00).
Proof.
  unfold HEADER_SIZE. intros Hc. unfold header_tmp, write_header, Write, bind.
  pose proof (zlen_replicate (Z.to_nat c) x00) as Hz.
  rewrite BufferOutput_DoWrite_ok by lia. rewrite !zlen_le_bytes, ztake_0. cbn [app].
  rewrite Z.add_0_l, (replicate_split c 1) by lia.
  pose proof (zlen_replicate (Z.to_nat (c - Z.of_nat 1)) x00) as Hz1.
  rewrite BufferOutput_DoWrite_ok by (zlen). rewrite !zlen_le_bytes.
  rewrite <- (zlen_le_bytes 1 m) at 1. rewrite ztake_app_exact.
  rewrite (zdrop_le_bytes 1 _ 1) by lia. change (Z.of_nat 1 + Z.of_nat 4 - 1) with (Z.of_nat 4).
  rewrite replicate_split by lia.
  pose proof (zlen_replicate (Z.to_nat (c - Z.of_nat 1 - Z.of_nat 4)) x00) as Hz2.
  rewrite BufferOutput_DoWrite_ok by (zlen). rewrite !zlen_le_bytes.
  cbn [Flush DoFlush BufferOutput_OS ret bo_buf]. unfold ret. cbn [bo_buf]. f_equal.
  rewrite (app_assoc (le_bytes 1 m)).
  assert (zlen (le_bytes 1 m ++ le_bytes 4 c) = Z.of_nat 1 + Z.of_nat 4) as Hl by zlen.
  rewrite <- Hl at 1. rewrite ztake_app_exact, <- zdrop_zdrop by lia. rewrite <- Hl, zdrop_app_exact.
  unfold header. rewrite <- !app_assoc. do 3 f_equal.
  rewrite replicate_split by lia. f_equal. lia.
Qed.

Section CompressedInputSpec.
Context (lz4 : lz4_api) (zstd : zstd_api).
Context {I : Type} `{InputStreamLaws I}.

Lemma ci_input_reads {A} (m : M I A) bs a rest (c : CompressedInput I) :
  reads m bs a -> in_good (ci_input c) -> pending (ci_input c) = bs ++ rest ->
  exists i', ci_on_input m c = (Ok a, mkCompressedInput i' (ci_data c) (ci_mem c)) /\
    pending i' = rest /\ in_good i'.
Proof.
  intros Hr Hg Hp. destruct (Hr _ _ Hg Hp) as (i' & E & ? & ?). exists i'.
  unfold ci_on_input, zoom. rewrite E. done.
Qed.

Lemma reads_ReadBytes_into (pre body suf : bytes) (len : Z) : zlen body = len -> zlen suf = len ->
  reads (ReadBytes_into (pre ++ suf) (zlen pre) len) body (pre ++ body, true).
Proof.
  intros <- Hs. unfold ReadBytes_into, ReadBytes.
  eapply reads_bind_nil; [apply reads_ReadAll|]. cbv beta iota. unfold mem_store.
  pose proof (zlen_nonneg pre). rewrite zlen_app, Hs, (proj2 (Z.leb_le _ _)), (proj2 (Z.leb_le _ _)) by lia.
  cbn [andb]. rewrite ztake_app_exact, zdrop_all by (rewrite zlen_app; lia).
  rewrite app_nil_r. apply reads_ret.
Qed.

(** The reading part: a frame of legal size and method is read into [tmp]. *)
Lemma Decompress_reads (c : CompressedInput I) (hash m cs o : Z) (body rest : bytes) :
  0 <= hash < 256 ^ Z.of_nat 16 -> is_u 8 m -> is_u 32 cs -> is_u 32 o ->
  m = CompressionMethodByte.LZ4 \/ m = CompressionMethodByte.ZSTD ->
  cs <= DBMS_MAX_COMPRESSED_SIZE -> zlen body = cs - HEADER_SIZE ->
  in_good (ci_input c) -> pending (ci_input c) = le_bytes 16 hash ++ header m cs o ++ body ++ rest ->
  exists i', Decompress lz4 zstd c =
      Decompress_block lz4 zstd hash m cs o (header m cs o ++ body) (mkCompressedInput i' (ci_data c) (ci_mem c)) /\
    pending i' = rest /\ in_good i'.
Proof.
  intros Hh Hm Hc Ho Hmethod Hmax Hbody Hg Hp. unfold header in Hp. rewrite <- !app_assoc in Hp.
  pose proof (zlen_nonneg body). unfold Decompress, HEADER_SIZE in *.
  destruct (ci_input_reads _ _ _ _ c (reads_ReadFixed 16 0 _ Hh) Hg Hp)
    as (i1 & E1 & Hp1 & Hg1). mstep E1. cbv beta iota. cbn [negb].
  destruct (ci_input_reads _ _ _ _ (mkCompressedInput i1 (ci_data c) (ci_mem c)) (reads_ReadFixed 1 0 m Hm) Hg1 Hp1)
    as (i2 & E2 & Hp2 & Hg2). mstep E2. cbv beta iota. cbn [negb ci_data ci_mem].
  assert (negb (m =? CompressionMethodByte.LZ4) && negb (m =? CompressionMethodByte.ZSTD) = false) as ->
    by (by destruct Hmethod as [-> | ->]).
  destruct (ci_input_reads _ _ _ _ (mkCompressedInput i2 (ci_data c) (ci_mem c)) (reads_ReadFixed 4 0 cs Hc) Hg2 Hp2)
    as (i3 & E3 & Hp3 & Hg3). mstep E3. cbv beta iota. cbn [negb ci_data ci_mem].
  destruct (ci_input_reads _ _ _ _ (mkCompressedInput i3 (ci_data c) (ci_mem c)) (reads_ReadFixed 4 0 o Ho) Hg3 Hp3)
    as (i4 & E4 & Hp4 & Hg4). mstep E4. cbv beta iota. cbn [negb ci_data ci_mem].
  rewrite (proj2 (Z.ltb_ge _ _) Hmax), header_tmp_ok by (unfold HEADER_SIZE; lia). unfold HEADER_SIZE.
  unfold bind at 1, lift_result at 1. rewrite wrap_id by (unfold is_u in *; lia).
  assert (reads (ReadBytes_into (header m cs o ++ replicate (Z.to_nat (cs - 9)) x00) 9 (cs - 9))
            body (header m cs o ++ body, true)) as Hrd.
  { refine (reads_ReadBytes_into (header m cs o) body _ (cs - 9) Hbody _). rewrite zlen_replicate. lia. }
  destruct (ci_input_reads _ _ _ _ (mkCompressedInput i4 (ci_data c) (ci_mem c)) Hrd Hg4 Hp4)
    as (i5 & E5 & Hp5 & Hg5). mstep E5. cbv beta iota. cbn [negb ci_data ci_mem].
  exists i5. done.
Qed.

Lemma Decompress_block_ok (c : CompressedInput I) h m cs o body data :
  zlen body = cs - HEADER_SIZE -> CityHash128 (header m cs o ++ body) = Ok h ->
  decode_body lz4 zstd m o body = Some data ->
  Decompress_block lz4 zstd (uint128_value h) m cs o (header m cs o ++ body) c =
  (Ok true, mkCompressedInput (ci_input c) data (mkArrayInput data)).
Proof.
  intros Hbody Hcity Hdec. unfold Decompress_block. unfold HEADER_SIZE in *.
  assert (zlen (header m cs o ++ body) = cs) as Hblk by (rewrite zlen_app, zlen_header; unfold HEADER_SIZE; lia).
  rewrite ztake_all, Hcity by lia. unfold bind at 1, lift_result. rewrite Z.eqb_refl. cbn [negb].
  assert (ztake (cs - 9) (zdrop 9 (header m cs o ++ body)) = body) as ->.
  { change 9 with HEADER_SIZE at 2. rewrite <- (zlen_header m cs o), zdrop_app_exact.
    apply ztake_all. lia. }
  unfold decode_body in Hdec.
  destruct (m =? CompressionMethodByte.LZ4); [|destruct (m =? CompressionMethodByte.ZSTD); [|done]].
  - destruct (LZ4_decompress_safe lz4 body o) as [res out]. unfold bind, set_data, modify.
    destruct (res <? 0); [done|]. injection Hdec as ->. done.
  - destruct (ZSTD_decompress zstd o body) as [res out]. unfold bind, set_data, modify.
    destruct (ZSTD_isError zstd res); [done|]. injection Hdec as ->. done.
Qed.

Lemma decode_body_method m o body data : decode_body lz4 zstd m o body = Some data ->
  m = CompressionMethodByte.LZ4 \/ m = CompressionMethodByte.ZSTD.
Proof.
  unfold decode_body. destruct (Z.eqb_spec m CompressionMethodByte.LZ4); [auto|].
  destruct (Z.eqb_spec m CompressionMethodByte.ZSTD); [auto|done].
Qed.

Lemma Decompress_ok (c : CompressedInput I) f data rest :
  is_frame lz4 zstd f data -> in_good (ci_input c) -> pending (ci_input c) = f ++ rest ->
  exists i', Decompress lz4 zstd c = (Ok true, mkCompressedInput i' data (mkArrayInput data)) /\
    pending i' = rest /\ in_good i'.
Proof.
  intros Hf. destruct Hf as [h m cs o body data Hh1 Hh2 Hm Hc Ho Hmax Hbody Hcity Hdec Hne].
  intros Hg Hp. rewrite <- !app_assoc in Hp.
  destruct (Decompress_reads c (uint128_value h) m cs o body rest) as (i' & E & Hp' & Hg');
    try done; [by apply uint128_range|by eapply decode_body_method|].
  exists i'. rewrite E, (Decompress_block_ok _ h m cs o body data) by done. done.
Qed.

(** Decoding a whole stream of frames. *)
Fixpoint unframe (n : nat) (bs : bytes) : option bytes :=
  match bs, n with
  | [], _ => Some []
  | _, O => None
  | _, S n =>
    match decode_frame lz4 zstd bs with
    | Some (data, rest) => match unframe n rest with Some d => Some (data ++ d) | None => None end
    | None => None
    end
  end.
End CompressedInputSpec.

Section CompressedInputLaws.
Context (lz4 : lz4_api) (zstd : zstd_api).
Context {I : Type} `{InputStreamLaws I}.

Lemma frame_length f data : is_frame lz4 zstd f data -> (25 <= length f)%nat.
Proof.
  intros []. unfold header. rewrite !length_app, !length_le_bytes. lia.
Qed.

Lemma unframe_fuel (n : nat) : forall bs d (m : nat), unframe lz4 zstd n bs = Some d -> (length bs <= m)%nat ->
  unframe lz4 zstd m bs = Some d.
Proof.
  induction n as [|n IH]; intros bs d m E Hm; (destruct bs as [|b bs]; [by destruct m|]); [done|].
  destruct m as [|m]; [cbn in Hm; lia|]. cbn [unframe] in *.
  destruct (decode_frame lz4 zstd (b :: bs)) as [[data rest]|] eqn:Ed; [|done].
  destruct (decode_frame_inv _ _ _ _ _ Ed) as (f & Hf & Hb). apply frame_length in Hf.
  destruct (unframe lz4 zstd n rest) as [d'|] eqn:Eu; [|done].
  rewrite (IH rest d' m); [done|done|]. rewrite Hb, length_app in Hm. lia.
Qed.

(** Frames followed by [tail], which is not part of the compressed data: in a
    connection, the packets that follow. *)
Context (tail : bytes).

Definition ci_framed (c : CompressedInput I) : bytes :=
  take (length (pending (ci_input c)) - length tail) (pending (ci_input c)).

Definition ci_unread (c : CompressedInput I) : option bytes :=
  unframe lz4 zstd (length (ci_framed c)) (ci_framed c).

(** What the stream has still to deliver: the rest of the current frame and
    the data of the frames to come. *)
Definition ci_pending (c : CompressedInput I) : bytes :=
  ai_data (ci_mem c) ++ default [] (ci_unread c).

Definition ci_good (c : CompressedInput I) : Prop :=
  in_good (ci_input c) /\ pending (ci_input c) = ci_framed c ++ tail /\ is_Some (ci_unread c).

Lemma ci_framed_app (c : CompressedInput I) F : pending (ci_input c) = F ++ tail -> ci_framed c = F.
Proof.
  intros E. unfold ci_framed. rewrite E, length_app. replace (length F + length tail - length tail)%nat with (length F) by lia.
  by apply take_app_length.
Qed.

Lemma ci_good_intro (c : CompressedInput I) F u : in_good (ci_input c) -> pending (ci_input c) = F ++ tail ->
  unframe lz4 zstd (length F) F = Some u -> ci_good c /\ ci_unread c = Some u.
Proof.
  intros Hg Hp Hu. unfold ci_good, ci_unread. rewrite (ci_framed_app c F Hp), Hu. split; [|done]. split_and!; [done|done|by eexists].
Qed.

Lemma ci_unread_step (c : CompressedInput I) : ci_unread c <> Some [] -> ci_good c ->
  exists f data rest d, is_frame lz4 zstd f data /\ pending (ci_input c) = f ++ rest ++ tail /\
    unframe lz4 zstd (length rest) rest = Some d /\ ci_unread c = Some (data ++ d).
Proof.
  unfold ci_unread. intros Hne (_ & -> & [d E]). revert Hne E. unfold ci_unread.
  destruct (ci_framed c) as [|b p]; [done|]. cbn [length unframe].
  intros _ E. destruct (decode_frame lz4 zstd (b :: p)) as [[data rest]|] eqn:Ed; [|done].
  destruct (decode_frame_inv _ _ _ _ _ Ed) as (f & Hf & Hb).
  destruct (unframe lz4 zstd (length p) rest) as [d'|] eqn:Eu; [|done].
  exists f, data, rest, d'. split_and!; [done|by rewrite Hb, <- app_assoc| |done]. by eapply unframe_fuel.
Qed.

(** Nothing pending: every frame has been consumed. *)
Lemma ci_drained (c : CompressedInput I) : ci_good c -> ci_pending c = [] ->
  CompressedInput_delete c = Ok tt /\ pending (ci_input c) = tail.
Proof.
  intros Hg Hp. unfold ci_pending in Hp. apply app_eq_nil in Hp as [Hm Hr].
  split; [unfold CompressedInput_delete, ArrayInput_Exhausted, ArrayInput_Avail; by rewrite Hm|].
  destruct (decide (ci_unread c = Some [])) as [E|E].
  - destruct Hg as (_ & -> & _). unfold ci_unread in E. destruct (ci_framed c) as [|b p]; [done|]. exfalso.
    cbn [length unframe] in E. destruct (decode_frame lz4 zstd (b :: p)) as [[d rest]|] eqn:Ed; [|done].
    destruct (decode_frame_inv _ _ _ _ _ Ed) as (f & Hf & _).
    destruct (unframe lz4 zstd (length p) rest) as [d'|]; [|done]. inversion Hf; subst. by destruct d.
  - destruct (ci_unread c) as [[|x u]|] eqn:Eu; [done|done|]. destruct Hg as (_ & _ & [? ?]). congruence.
Qed.

#[refine] Instance CompressedInput_laws :
    @InputStreamLaws (CompressedInput I) (CompressedInput_IS lz4 zstd) :=
  {| pending := ci_pending; in_good := ci_good |}.
Proof.
  intros c len Hgood Hlen Hne. cbn [DoRead CompressedInput_IS].
  unfold ZeroCopyInput_DoRead. cbn [DoNext CompressedInput_ZC].
  assert (forall i dat a F u, a <> [] -> in_good i -> pending i = F ++ tail ->
    unframe lz4 zstd (length F) F = Some u ->
    exists got c', ci_on_mem (ArrayInput_DoNext len) (mkCompressedInput i dat (mkArrayInput a)) = (Ok got, c') /\
      got <> [] /\ zlen got <= len /\ a ++ u = got ++ ci_pending c' /\ ci_good c') as Hmem.
  { intros i dat a F u Ha Hi Hp Hu. unfold ci_on_mem, zoom. cbn [ci_mem]. rewrite ArrayInput_DoNext_eq.
    eexists _, _. split; [done|]. cbn [ai_data ci_input ci_data]. split_and!.
    - intros E. by apply ztake_nil_inv in E.
    - rewrite zlen_ztake; lia.
    - unfold ci_pending. destruct (ci_good_intro (mkCompressedInput i dat (mkArrayInput (zdrop len a))) F u Hi Hp Hu) as [_ ->].
      cbn. by rewrite app_assoc, ztake_zdrop.
    - by eapply ci_good_intro. }
  destruct c as [i dat [a]]. unfold bind at 1, CompressedInput_DoNext, bind at 1, get. cbn [ci_mem].
  unfold ArrayInput_Exhausted, ArrayInput_Avail. cbn [ai_data].
  destruct (Z.eqb_spec (zlen a) 0) as [Hz|Hz].
  - apply zlen_0 in Hz. subst a. unfold ci_pending in Hne. cbn [ci_mem ai_data app] in Hne.
    destruct (ci_unread_step (mkCompressedInput i dat (mkArrayInput []))) as (f & data & rest & d & Hf & Hp & Hu & Ec);
      [intros E; by rewrite E in Hne|done|].
    destruct (Decompress_ok lz4 zstd _ _ _ _ Hf (proj1 Hgood) Hp) as (i' & E & Hp' & Hg').
    unfold bind. rewrite E.
    destruct (Hmem i' data data rest d) as (got & c' & -> & ? & ? & ? & ?); [by inversion Hf|done|done|done|].
    exists got, c'. unfold ci_pending at 1. rewrite Ec. cbn. split_and!; done.
  - destruct Hgood as (Hg & Hp & [u Hu]).
    destruct (Hmem i dat a (ci_framed (mkCompressedInput i dat (mkArrayInput a))) u) as (got & c' & -> & ? & ? & ? & ?); [by intros ->|done|exact Hp|exact Hu|].
    exists got, c'. unfold ci_pending at 1. rewrite Hu. cbn. split_and!; done.
Defined.
End CompressedInputLaws.

(** ** What the code relies on of a compression library

    For inputs up to [max_in] bytes: the bound is valid, grows with the input
    and stays below the largest frame the reader accepts; a buffer of that size
    is enough; and decompression undoes compression. *)
Class CodecLaws (bound : Z -> Z) (compress : bytes -> Z -> Z -> Z * bytes)
    (decompress : bytes -> Z -> Z * bytes) (cfail dfail : Z -> bool) (max_in : Z) : Prop := {
  max_in_int : max_in < 2 ^ 31;
  bound_ok : forall n, 0 <= n <= max_in ->
    cfail (bound n) = false /\ 0 < bound n <= DBMS_MAX_COMPRESSED_SIZE - HEADER_SIZE;
  bound_mono : forall n m, 0 <= n <= m -> m <= max_in -> bound n <= bound m;
  compress_ok : forall data cap, 0 < zlen data <= max_in -> bound (zlen data) <= cap < 2 ^ 31 ->
    exists out, compress data (zlen data) cap = (zlen out, out) /\
      cfail (zlen out) = false /\ zlen out <= bound (zlen data) /\
      decompress out (zlen data) = (zlen data, data) /\ dfail (zlen data) = false;
}.

Definition lz4_ok (lz4 : lz4_api) (max_in : Z) : Prop :=
  CodecLaws (LZ4_compressBound lz4) (LZ4_compress_default lz4) (LZ4_decompress_safe lz4)
    (fun r => r <=? 0) (fun r => r <? 0) max_in.

Definition zstd_ok (zstd : zstd_api) (max_in : Z) : Prop :=
  CodecLaws (ZSTD_compressBound zstd) (fun src n cap => ZSTD_compress zstd cap src n)
    (fun src cap => ZSTD_decompress zstd cap src) (ZSTD_isError zstd) (ZSTD_isError zstd) max_in.

(** The codec a method selects. *)
Definition method_bound lz4 zstd (m : CompressionMethod.t) : Z -> Z :=
  match m with CompressionMethod.ZSTD => ZSTD_compressBound zstd | _ => LZ4_compressBound lz4 end.

Definition method_ok lz4 zstd (m : CompressionMethod.t) (max_in : Z) : Prop :=
  match m with
  | CompressionMethod.None => False
  | CompressionMethod.LZ4 => lz4_ok lz4 max_in
  | CompressionMethod.ZSTD => zstd_ok zstd max_in
  end.

Lemma method_bound_ok lz4 zstd m max_in n : method_ok lz4 zstd m max_in -> 0 <= n <= max_in ->
  0 < method_bound lz4 zstd m n <= DBMS_MAX_COMPRESSED_SIZE - HEADER_SIZE.
Proof. destruct m; [done| |]; intros Hm Hn; apply (bound_ok (CodecLaws := Hm) n Hn). Qed.

Lemma method_bound_mono lz4 zstd m max_in n k : method_ok lz4 zstd m max_in -> 0 <= n <= k -> k <= max_in ->
  method_bound lz4 zstd m n <= method_bound lz4 zstd m k.
Proof. destruct m; [done| |]; intros Hm Hn Hk; by apply (bound_mono (CodecLaws := Hm) n k). Qed.

Lemma method_max lz4 zstd m max_in : method_ok lz4 zstd m max_in -> max_in < 2 ^ 31.
Proof. destruct m; [done| |]; intros Hm; apply (max_in_int (CodecLaws := Hm)). Qed.

Lemma mem_store_mid (pre mid suf data : bytes) : zlen mid = zlen data ->
  mem_store (zlen pre) data (pre ++ mid ++ suf) = Some (pre ++ data ++ suf).
Proof.
  intros Hl. unfold mem_store. pose proof (zlen_nonneg pre). pose proof (zlen_nonneg suf).
  rewrite (proj2 (Z.leb_le _ _)), (proj2 (Z.leb_le _ _)) by (rewrite ?zlen_app; lia). cbn [andb].
  rewrite ztake_app_exact, (app_assoc pre mid suf), <- Hl, <- zlen_app, zdrop_app_exact. done.
Qed.

Section CompressedOutputSpec.
Context (lz4 : lz4_api) (zstd : zstd_api) (max_in : Z).
Context {Out : Type} `{OutputStreamLaws Out}.

Lemma co_dst_writes {A} (m : M Out A) bs a (c : CompressedOutput Out) :
  writes m bs a -> out_good (co_destination c) ->
  exists o', co_on_dst m c = (Ok a, mkCompressedOutput o' (co_max_chunk c) (co_buffer c) (co_method c)) /\
    accepted o' = accepted (co_destination c) ++ bs /\ out_good o'.
Proof.
  intros Hw Hg. destruct (Hw _ Hg) as (o' & E & ? & ?). exists o'.
  unfold co_on_dst, zoom. rewrite E. done.
Qed.

Lemma co_store_mid (pre mid suf data : bytes) (o : Out) mx me : zlen mid = zlen data ->
  co_store (zlen pre) data (mkCompressedOutput o mx (pre ++ mid ++ suf) me) =
  (Ok tt, mkCompressedOutput o mx (pre ++ data ++ suf) me).
Proof.
  intros Hl. unfold co_store, bind, get. cbn [co_buffer]. by rewrite mem_store_mid.
Qed.

(** One chunk becomes one frame at the destination. *)
Lemma store_send_ok (mb n : Z) (out buf : bytes) (o : Out) mx me :
  is_u 8 mb -> 0 < n < 2 ^ 31 -> zlen out + HEADER_SIZE <= DBMS_MAX_COMPRESSED_SIZE ->
  zlen out + HEADER_SIZE <= zlen buf -> out_good o ->
  exists o' buf' h, (co_store HEADER_SIZE out ;;; send_frame mb (zlen out) n) (mkCompressedOutput o mx buf me)
      = (Ok tt, mkCompressedOutput o' mx buf' me) /\
    zlen buf' = zlen buf /\ out_good o' /\
    CityHash128 (header mb (zlen out + HEADER_SIZE) n ++ out) = Ok h /\
    accepted o' = accepted o ++ le_bytes 16 (uint128_value h) ++ header mb (zlen out + HEADER_SIZE) n ++ out.
Proof.
  intros Hmb Hn Hmax Hbuf Hg. pose proof (zlen_nonneg out). unfold HEADER_SIZE, DBMS_MAX_COMPRESSED_SIZE in *.
  assert (exists a b c d e, buf = a ++ b ++ c ++ d ++ e /\ zlen a = 1 /\ zlen b = 4 /\ zlen c = 4 /\
    zlen d = zlen out) as (a & b & c & d & e & -> & Ha & Hb & Hc & Hd).
  { exists (ztake 1 buf), (ztake 4 (zdrop 1 buf)), (ztake 4 (zdrop 5 buf)),
      (ztake (zlen out) (zdrop 9 buf)), (zdrop (9 + zlen out) buf).
    rewrite !zlen_ztake, !zlen_zdrop by lia. split_and!; try lia.
    rewrite <- (ztake_zdrop 1 buf) at 1. f_equal.
    rewrite <- (ztake_zdrop 4 (zdrop 1 buf)) at 1. rewrite zdrop_zdrop by lia. change (1 + 4) with 5. f_equal.
    rewrite <- (ztake_zdrop 4 (zdrop 5 buf)) at 1. rewrite zdrop_zdrop by lia. change (5 + 4) with 9. f_equal.
    rewrite <- (ztake_zdrop (zlen out) (zdrop 9 buf)) at 1. by rewrite zdrop_zdrop by lia. }
  set (hd := header mb (zlen out + 9) n).
  destruct (CityHash128_ok (hd ++ out)) as (h & Eh & _).
  assert (co_store (zlen (a ++ b ++ c)) out (mkCompressedOutput o mx ((a ++ b ++ c) ++ d ++ e) me) =
    (Ok tt, mkCompressedOutput o mx ((a ++ b ++ c) ++ out ++ e) me)) as S1 by (by apply co_store_mid).
  assert (zlen (a ++ b ++ c) = 9) as Hl by (rewrite !zlen_app; lia). rewrite Hl, <- !app_assoc in S1.

  assert (co_store 0 (le_bytes 1 mb) (mkCompressedOutput o mx (a ++ b ++ c ++ out ++ e) me) =
    (Ok tt, mkCompressedOutput o mx (le_bytes 1 mb ++ b ++ c ++ out ++ e) me)) as S2
    by (apply (co_store_mid [] a); rewrite Ha, zlen_le_bytes; done).
  assert (co_store 1 (le_bytes 4 (zlen out + 9)) (mkCompressedOutput o mx (le_bytes 1 mb ++ b ++ c ++ out ++ e) me) =
    (Ok tt, mkCompressedOutput o mx (le_bytes 1 mb ++ le_bytes 4 (zlen out + 9) ++ c ++ out ++ e) me)) as S3
    by (apply (co_store_mid (le_bytes 1 mb) b); rewrite Hb, zlen_le_bytes; done).
  assert (co_store 5 (le_bytes 4 n) (mkCompressedOutput o mx (le_bytes 1 mb ++ le_bytes 4 (zlen out + 9) ++ c ++ out ++ e) me) =
    (Ok tt, mkCompressedOutput o mx (hd ++ out ++ e) me)) as S4.
  { unfold hd, header. rewrite <- !app_assoc, !(app_assoc (le_bytes 1 mb)).
    apply (co_store_mid (le_bytes 1 mb ++ le_bytes 4 (zlen out + 9)) c). rewrite Hc, zlen_le_bytes. done. }
  mstep S1. unfold send_frame. mstep S2. rewrite (wrap_id 32 (zlen out + HEADER_SIZE)), (wrap_id 32 n)
    by (unfold is_u, HEADER_SIZE; lia). unfold HEADER_SIZE. mstep S3. mstep S4.
  unfold bind at 1, get. cbn [co_buffer].
  assert (ztake (zlen out + 9) (hd ++ out ++ e) = hd ++ out) as ->.
  { rewrite app_assoc. replace (zlen out + 9) with (zlen (hd ++ out)) at 1
      by (unfold hd; rewrite zlen_app, zlen_header; unfold HEADER_SIZE; lia). apply ztake_app_exact. }
  rewrite Eh. unfold bind at 1, lift_result.
  destruct (co_dst_writes _ _ _ (mkCompressedOutput o mx (hd ++ out ++ e) me)
    (writes_WriteFixed 16 (uint128_value h)) Hg) as (o1 & E1 & A1 & G1). mstep E1.
  destruct (co_dst_writes _ _ _ (mkCompressedOutput o1 mx (hd ++ out ++ e) me)
    (writes_WriteAll (hd ++ out)) G1) as (o2 & E2 & A2 & G2).
  cbn [co_max_chunk co_buffer co_method co_destination] in *.
  exists o2, (hd ++ out ++ e), h. unfold WriteBytes. rewrite E2. split; [done|].
  split; [unfold hd; rewrite !zlen_app, zlen_header; unfold HEADER_SIZE; lia|].
  split; [done|]. split; [done|]. by rewrite A2, A1, <- !app_assoc.
Qed.

Lemma overwrite_full (data zeros : bytes) : zlen zeros = zlen data -> overwrite data zeros = data.
Proof. intros. unfold overwrite. rewrite zdrop_all by lia. apply app_nil_r. Qed.

(** The buffer is large enough for chunks of [n] bytes. *)
Definition room (n : Z) (c : CompressedOutput Out) : Prop :=
  method_bound lz4 zstd (co_method c) n + HEADER_SIZE <= zlen (co_buffer c) < 2 ^ 31.

Lemma Compress_ok (data : bytes) (c : CompressedOutput Out) (n : Z) :
  method_ok lz4 zstd (co_method c) max_in -> 0 < zlen data <= n -> n <= max_in -> room n c ->
  out_good (co_destination c) ->
  exists c' f, Compress lz4 zstd data c = (Ok tt, c') /\ is_frame lz4 zstd f data /\
    accepted (co_destination c') = accepted (co_destination c) ++ f /\ out_good (co_destination c') /\
    room n c' /\ co_method c' = co_method c /\ co_max_chunk c' = co_max_chunk c.
Proof.
  intros Hm Hl Hn [Hr1 Hr2] Hg. destruct c as [o mx buf me]. unfold room.
  cbn [co_method co_buffer co_max_chunk co_destination] in *.
  pose proof (method_max _ _ _ _ Hm) as Hmax. pose proof (method_bound_ok _ _ _ _ n Hm ltac:(lia)) as Hb.
  pose proof (method_bound_mono _ _ _ _ (zlen data) n Hm ltac:(lia) Hn) as Hmono.
  unfold Compress. unfold bind at 1, get. cbn [co_buffer co_method]. unfold HEADER_SIZE, DBMS_MAX_COMPRESSED_SIZE in *.
  rewrite (wrap_id 64) by (unfold is_u; lia). rewrite !(swrap_id 32) by (unfold is_s; change (32 - 1) with 31; lia).
  assert (forall mb out, is_u 8 mb -> zlen out <= method_bound lz4 zstd me (zlen data) ->
    decode_body lz4 zstd mb (zlen data) out = Some data ->
    exists c' f, ((co_store 9 out ;;; send_frame mb (zlen out) (zlen data)) ;;; co_on_dst Flush)
        (mkCompressedOutput o mx buf me) = (Ok tt, c') /\ is_frame lz4 zstd f data /\
      accepted (co_destination c') = accepted o ++ f /\ out_good (co_destination c') /\
      (method_bound lz4 zstd (co_method c') n + 9 <= zlen (co_buffer c') < 2 ^ 31) /\
      co_method c' = me /\ co_max_chunk c' = mx) as Hfin.
  { intros mb out Hmb Hlen Hdec.
    destruct (store_send_ok mb (zlen data) out buf o mx me) as (o1 & buf1 & h & E1 & Hb1 & G1 & Eh & A1);
      unfold HEADER_SIZE, DBMS_MAX_COMPRESSED_SIZE in *; [done|lia|lia|lia|done|]. mstep E1.
    destruct (co_dst_writes _ _ _ (mkCompressedOutput o1 mx buf1 me) writes_flush G1) as (o2 & E2 & A2 & G2).
    rewrite E2. cbn [co_method co_buffer co_max_chunk co_destination] in *.
    eexists _, _. split; [done|]. cbn [co_method co_buffer co_max_chunk co_destination].
    destruct (CityHash128_range _ _ Eh). pose proof (zlen_nonneg out). split.
    - apply (frame_intro _ _ h mb (zlen out + 9) (zlen data) out); try done; unfold is_u, HEADER_SIZE, DBMS_MAX_COMPRESSED_SIZE; [lia..|].
      intros ->. zlen.
    - rewrite A2, A1, app_nil_r, Hb1. split_and!; (done || lia). }
  destruct me; [done| |].
  - destruct (compress_ok (CodecLaws := Hm) data (zlen buf - 9)) as (out & E & Hcf & Hlen & Hdec & Hdf);
      [lia|cbn in Hr1, Hmono; lia|]. rewrite E.
    specialize (Hfin CompressionMethodByte.LZ4 out). unfold bind in *. rewrite Hcf. apply Hfin; [done|done|].
    unfold decode_body. cbn. rewrite Hdec, Hdf. f_equal. apply overwrite_full. rewrite zlen_replicate. lia.
  - destruct (compress_ok (CodecLaws := Hm) data (zlen buf - 9)) as (out & E & Hcf & Hlen & Hdec & Hdf);
      [lia|cbn in Hr1, Hmono; lia|]. rewrite E.
    specialize (Hfin CompressionMethodByte.ZSTD out). unfold bind in *. rewrite Hcf. apply Hfin; [done|done|].
    unfold decode_body. cbn. rewrite Hdec, Hdf. f_equal. apply overwrite_full. rewrite zlen_replicate. lia.
Qed.

Lemma Preallocate_ok (n : Z) (c : CompressedOutput Out) :
  method_ok lz4 zstd (co_method c) max_in -> 0 <= n <= max_in ->
  exists buf, PreallocateCompressBuffer lz4 zstd n c =
      (Ok tt, mkCompressedOutput (co_destination c) (co_max_chunk c) buf (co_method c)) /\
    room n (mkCompressedOutput (co_destination c) (co_max_chunk c) buf (co_method c)).
Proof.
  intros Hm Hn. destruct c as [o mx buf me]. unfold PreallocateCompressBuffer, bind, get, room.
  cbn [co_method co_buffer co_max_chunk co_destination] in *. pose proof (method_max _ _ _ _ Hm).
  pose proof (method_bound_ok _ _ _ _ n Hm Hn) as Hb.
  rewrite !(swrap_id 32) by (unfold is_s; change (32 - 1) with 31; lia).
  unfold HEADER_SIZE, EXTRA_COMPRESS_BUFFER_SIZE, DBMS_MAX_COMPRESSED_SIZE in *.
  destruct me; [done| |]; destruct (bound_ok (CodecLaws := Hm) n Hn) as [-> _];
    (eexists; split; [done|]); rewrite zlen_resize; cbn in *; lia.
Qed.

(** A stream of frames carrying [data]. *)
Inductive frames : bytes -> bytes -> Prop :=
| frames_nil : frames [] []
| frames_cons f d F D : is_frame lz4 zstd f d -> frames F D -> frames (f ++ F) (d ++ D).

Lemma frames_snoc F D f d : frames F D -> is_frame lz4 zstd f d -> frames (F ++ f) (D ++ d).
Proof.
  induction 1; intros Hf.
  - cbn [app]. rewrite <- (app_nil_r f), <- (app_nil_r d). constructor; [done|constructor].
  - rewrite <- !app_assoc. constructor; auto.
Qed.

Lemma frames_unframe F D : frames F D -> unframe lz4 zstd (length F) F = Some D.
Proof.
  induction 1 as [|f d F D Hf HF IH]; [done|].
  pose proof (frame_length _ _ _ _ Hf) as Hlen. pose proof (decode_frame_intro _ _ f d F Hf) as E.
  destruct f as [|b f]; [cbn in Hlen; lia|]. cbn [app length unframe] in *. rewrite E.
  rewrite (unframe_fuel _ _ (length F) F D); [done|done|]. rewrite length_app. lia.
Qed.

Lemma CompressedOutput_DoWrite_ok (data : bytes) (c : CompressedOutput Out) :
  let chunk := if 0 <? co_max_chunk c then co_max_chunk c else zlen data in
  method_ok lz4 zstd (co_method c) max_in -> 0 <= co_max_chunk c -> chunk <= max_in ->
  room (co_max_chunk c) c -> out_good (co_destination c) ->
  exists c' F, CompressedOutput_DoWrite lz4 zstd data c = (Ok (zlen data), c') /\ frames F data /\
    accepted (co_destination c') = accepted (co_destination c) ++ F /\ out_good (co_destination c') /\
    room chunk c' /\ co_method c' = co_method c /\ co_max_chunk c' = co_max_chunk c.
Proof.
  intros chunk Hm Hmx Hch Hroom Hg. unfold CompressedOutput_DoWrite. unfold bind at 1, get. fold chunk.
  pose proof (zlen_nonneg data) as Hd.
  assert (exists c1, (if co_max_chunk c <? chunk then PreallocateCompressBuffer lz4 zstd (zlen data) else ret tt) c
      = (Ok tt, c1) /\ co_destination c1 = co_destination c /\ co_method c1 = co_method c /\
      co_max_chunk c1 = co_max_chunk c /\ room chunk c1) as (c1 & E1 & Hd1 & Hm1 & Hx1 & Hr1).
  { destruct (Z.ltb_spec (co_max_chunk c) chunk) as [Hlt|Hge].
    - assert (chunk = zlen data) as Hc by (unfold chunk in *; destruct (Z.ltb_spec 0 (co_max_chunk c)); lia).
      destruct (Preallocate_ok (zlen data) c) as (buf & -> & Hr); [done|lia|].
      eexists. rewrite Hc. split_and!; done.
    - exists c. split_and!; try done.
      replace chunk with (co_max_chunk c); [done|unfold chunk in *; destruct (Z.ltb_spec 0 (co_max_chunk c)); lia]. }
  mstep E1.
  assert (chunk = zlen data \/ 0 < chunk) as Hcd
    by (unfold chunk; destruct (Z.ltb_spec 0 (co_max_chunk c)); auto).
  clearbody chunk.
  destruct (while_rule (CompressedOutput_DoWrite_step lz4 zstd chunk)
    (fun d k => (co_method k = co_method c /\ co_max_chunk k = co_max_chunk c) /\ out_good (co_destination k) /\ room chunk k /\
       exists F done, frames F done /\ data = done ++ d /\
         accepted (co_destination k) = accepted (co_destination c) ++ F)
    (fun d k => Z.to_nat (zlen d))
    (fun d k => d = [] /\ (co_method k = co_method c /\ co_max_chunk k = co_max_chunk c) /\ room chunk k /\
       out_good (co_destination k) /\ exists F, frames F data /\ accepted (co_destination k) = accepted (co_destination c) ++ F))
    with (fuel := Z.to_pos (zlen data + 1)) (a := data) (s := c1)
    as (rest & c' & Hw & -> & [Hm' Hx'] & Hr' & Hg' & F & HF & HA).
  - intros d k ([Hmk Hxk] & Hgk & Hrk & F & dn & HF & Hdd & HA). unfold CompressedOutput_DoWrite_step.
    destruct (Z.ltb_spec 0 (zlen d)) as [Hpos|Hz].
    + assert (0 < chunk) as Hc.
      { destruct Hcd as [->|]; [|done]. rewrite Hdd, zlen_app. pose proof (zlen_nonneg dn). lia. }
      pose proof (zlen_ztake (Z.min (zlen d) chunk) d ltac:(lia)) as Hlt.
      destruct (Compress_ok (ztake (Z.min (zlen d) chunk) d) k chunk) as (k' & f & E & Hf & Ha & Hgk' & Hrk' & Hmk' & Hxk');
        [by rewrite Hmk|rewrite Hlt; lia|done|done|done|]. mstep E.
      eexists (inl _), k'. split; [done|]. rewrite zlen_zdrop by lia. split; [|lia].
      split_and!; [by rewrite Hmk'|by rewrite Hxk'|done|done|].
      exists (F ++ f), (dn ++ ztake (Z.min (zlen d) chunk) d). split_and!; [by apply frames_snoc| |].
      * by rewrite <- app_assoc, ztake_zdrop.
      * by rewrite Ha, HA, app_assoc.
    + eexists (inr d), k. split; [done|]. assert (d = []) as -> by (apply zlen_0; pose proof (zlen_nonneg d); lia).
      rewrite app_nil_r in Hdd. subst dn. split_and!; [done|done|done|done|done|]. by exists F.
  - rewrite Hm1, Hx1, Hd1. split_and!; [done|done|done|done|]. exists [], []. rewrite app_nil_r.
    split_and!; [constructor|done|done].
  - lia.
  - mstep Hw. exists c', F. change (zlen (@nil byte)) with 0. rewrite Z.sub_0_r. done.
Qed.

(** The data of a sequence of frames, read as one. *)
Lemma frames_app F1 D1 F2 D2 : frames F1 D1 -> frames F2 D2 -> frames (F1 ++ F2) (D1 ++ D2).
Proof. induction 1; intros; [done|]. rewrite <- !app_assoc. constructor; auto. Qed.

(** *** A compressed stream is an output stream

    [base] is what the destination had accepted when the stream was made; what
    the stream has accepted is the data of the frames sent since. *)
Context (base : bytes).

Definition co_sent (c : CompressedOutput Out) : bytes := drop (length base) (accepted (co_destination c)).

Definition co_accepted (c : CompressedOutput Out) : bytes :=
  default [] (unframe lz4 zstd (length (co_sent c)) (co_sent c)).

Definition co_good (c : CompressedOutput Out) : Prop :=
  out_good (co_destination c) /\ method_ok lz4 zstd (co_method c) max_in /\ 0 < co_max_chunk c <= max_in /\
  room (co_max_chunk c) c /\ accepted (co_destination c) = base ++ co_sent c /\ frames (co_sent c) (co_accepted c).

Lemma co_good_intro (c : CompressedOutput Out) F D :
  out_good (co_destination c) -> method_ok lz4 zstd (co_method c) max_in -> 0 < co_max_chunk c <= max_in ->
  room (co_max_chunk c) c -> accepted (co_destination c) = base ++ F -> frames F D ->
  co_good c /\ co_sent c = F /\ co_accepted c = D.
Proof.
  intros Hg Hm Hx Hr Ha HF. assert (co_sent c = F) as Hs by (unfold co_sent; by rewrite Ha, drop_app_length).
  assert (co_accepted c = D) as Hacc by (unfold co_accepted; by rewrite Hs, (frames_unframe _ _ HF)).
  split; [|done]. unfold co_good. rewrite Hs, Hacc. split_and!; (done || lia).
Qed.

#[refine] Instance CompressedOutput_laws : @OutputStreamLaws (CompressedOutput Out) (CompressedOutput_OS lz4 zstd) :=
  {| accepted := co_accepted; out_good := co_good |}.
Proof.
  - intros c data (Hg & Hm & Hx & Hr & Ha & HF) Hne. cbn [DoWrite CompressedOutput_OS].
    destruct (CompressedOutput_DoWrite_ok data c) as (c' & F & E & HF' & HA & Hg' & Hr' & Hm' & Hx'); try done; try lia;
      rewrite ?(proj2 (Z.ltb_lt 0 (co_max_chunk c))) in * by lia; try lia; try done.
    pose proof (zlen_pos _ Hne). exists (zlen data), c'. rewrite ztake_all by lia.
    destruct (co_good_intro c' (co_sent c ++ F) (co_accepted c ++ data)) as (? & ? & ?); rewrite ?Hm', ?Hx'; try done.
    + by rewrite HA, Ha, <- app_assoc.
    + by apply frames_app.
  - intros c (Hg & Hm & Hx & Hr & Ha & HF). cbn [DoFlush CompressedOutput_OS]. unfold CompressedOutput_DoFlush, co_on_dst, zoom.
    destruct (DoFlush_law (co_destination c) Hg) as (d & E & Had & Hgd). unfold Flush. rewrite E. eexists. split; [done|].
    edestruct (co_good_intro (mkCompressedOutput d (co_max_chunk c) (co_buffer c) (co_method c)) (co_sent c) (co_accepted c))
      as (? & ? & ?); cbn [co_destination co_method co_max_chunk]; try done. by rewrite Had.
Defined.
End CompressedOutputSpec.

(** ** A codec that stores its input, to run the code with *)

Definition store_lz4 : lz4_api := {|
  LZ4_compressBound n := if n <? 0 then 0 else n + 1;
  LZ4_compress_default src n cap := if n <=? cap then (n, ztake n src) else (0, []);
  LZ4_decompress_safe src cap := if zlen src <=? cap then (zlen src, src) else (-1, []);
|}.

Definition store_zstd : zstd_api := {|
  ZSTD_compressBound n := n + 1;
  ZSTD_compress cap src n := if n <=? cap then (n, ztake n src) else (2 ^ 64 - 1, []);
  ZSTD_decompress cap src := if zlen src <=? cap then (zlen src, src) else (2 ^ 64 - 1, []);
  ZSTD_isError r := 2 ^ 64 - 100 <? r;
|}.

Lemma store_lz4_ok : lz4_ok store_lz4 1000.
Proof.
  assert (forall n, 0 <= n -> LZ4_compressBound store_lz4 n = n + 1) as Hb
    by (intros n Hn; cbn; by rewrite (proj2 (Z.ltb_ge n 0) Hn)).
  unfold HEADER_SIZE, DBMS_MAX_COMPRESSED_SIZE. split.
  - lia.
  - intros n Hn. rewrite Hb, (proj2 (Z.leb_gt _ _)) by lia. unfold HEADER_SIZE, DBMS_MAX_COMPRESSED_SIZE. lia.
  - intros n m Hn Hm. rewrite !Hb by lia. lia.
  - intros data cap Hd. rewrite Hb by lia. intros Hcap. exists data. cbn.
    rewrite (proj2 (Z.leb_le _ _)), (proj2 (Z.leb_gt _ _)), Z.leb_refl, (proj2 (Z.ltb_ge _ _)), ztake_all by lia.
    split_and!; (done || lia).
Qed.

(** ** Main results *)

(** C15. Compression is transparent and leaves nothing behind: for any data,
    method and chunk limit, and any conforming destination and source,
    everything written through a [CompressedOutput] reaches the destination as
    a sequence of frames, and a [CompressedInput] over those frames delivers
    exactly the data, consumes exactly the frames whatever follows them, and may
    be destroyed (all checksums match). *)
Theorem compressed_roundtrip {Out I} `{OutputStreamLaws Out} `{InputStreamLaws I}
    (lz4 : lz4_api) (zstd : zstd_api) (max_in : Z) (method : CompressionMethod.t)
    (Hcodec : method_ok lz4 zstd method max_in)
    (dst : Out) (Hdst : out_good dst) (chunk : Z) (data : bytes)
    (Hchunk : 0 <= chunk <= max_in) (Hdata : chunk = 0 -> zlen data <= max_in) :
  exists c0 c1 F,
    CompressedOutput_new lz4 zstd dst chunk method = (Ok tt, c0) /\
    CompressedOutput_DoWrite lz4 zstd data c0 = (Ok (zlen data), c1) /\
    accepted (co_destination c1) = accepted dst ++ F /\
    forall (src : I) tail, in_good src -> pending src = F ++ tail ->
    exists c', @ReadAll _ (CompressedInput_IS lz4 zstd) (zlen data) (CompressedInput_new src) = (Ok (data, true), c') /\
      CompressedInput_delete c' = Ok tt /\ pending (ci_input c') = tail.
Proof.
  destruct (Preallocate_ok lz4 zstd max_in chunk (mkCompressedOutput dst chunk [] method) Hcodec Hchunk)
    as (buf & E0 & Hroom). cbn [co_destination co_max_chunk co_method] in *.
  destruct (CompressedOutput_DoWrite_ok lz4 zstd max_in data (mkCompressedOutput dst chunk buf method))
    as (c1 & F & E1 & HF & HA & _ & _); cbn [co_destination co_max_chunk co_method]; [done|lia| |done|done|].
  { destruct (Z.ltb_spec 0 chunk); [lia|apply Hdata; lia]. }
  eexists _, c1, F. split; [exact E0|]. split; [done|]. split; [done|]. intros src tail Hsrc Hp.
  destruct (ci_good_intro lz4 zstd tail (CompressedInput_new src) F data Hsrc Hp (frames_unframe _ _ _ _ HF)) as [Hg0 Hun].
  assert (ci_pending lz4 zstd tail (CompressedInput_new src) = data) as Hpe
    by (unfold ci_pending; rewrite Hun; done).
  destruct (ReadAll_ok (H0 := CompressedInput_laws lz4 zstd tail) (CompressedInput_new src) (zlen data))
    as (c' & E & Hp' & Hg'); cbn [pending in_good CompressedInput_laws] in *; [done|rewrite Hpe; pose proof (zlen_nonneg data); lia|].
  exists c'. rewrite E, Hpe, ztake_all by lia. rewrite Hpe, zdrop_all in Hp' by lia. split; [done|]. by apply ci_drained with (lz4 := lz4) (zstd := zstd).
Qed.

Lemma compressed_roundtrip_witness :
  exists c0 c1 F,
    CompressedOutput_new store_lz4 store_zstd (mkChunkSink [] 5) 4 CompressionMethod.LZ4 = (Ok tt, c0) /\
    CompressedOutput_DoWrite store_lz4 store_zstd (str "hello world") c0 = (Ok 11, c1) /\
    accepted (co_destination c1) = [] ++ F /\
    forall (src : ChunkSource) tail, in_good src -> pending src = F ++ tail ->
    exists c', @ReadAll _ (CompressedInput_IS store_lz4 store_zstd) 11 (CompressedInput_new src)
        = (Ok (str "hello world", true), c') /\
      CompressedInput_delete c' = Ok tt /\ pending (ci_input c') = tail.
Proof.
  refine (compressed_roundtrip store_lz4 store_zstd 1000 CompressionMethod.LZ4 store_lz4_ok
            (mkChunkSink [] 5) _ 4 (str "hello world") _ _); [cbn; lia|lia|]. intros Hc. discriminate Hc.
Defined.

(** C31. Corruption is detected before the data is used: on a frame of legal size
    and method whose checksum is not that of its header and body, [Decompress]
    throws [CompressionError], and hands out nothing: [data_] and [mem_] are
    unchanged. *)
Theorem corruption_detected {I} `{InputStreamLaws I} (lz4 : lz4_api) (zstd : zstd_api)
    (c : CompressedInput I) (hash method original : Z) (body rest : bytes) (h : Z * Z)
    (Hgood : in_good (ci_input c))
    (Hhash : is_u 128 hash) (Horig : is_u 32 original)
    (Hmethod : method = CompressionMethodByte.LZ4 \/ method = CompressionMethodByte.ZSTD)
    (Hsize : zlen body + HEADER_SIZE <= DBMS_MAX_COMPRESSED_SIZE)
    (Hp : pending (ci_input c) = le_bytes 16 hash ++ header method (zlen body + HEADER_SIZE) original ++ body ++ rest)
    (Hcity : CityHash128 (header method (zlen body + HEADER_SIZE) original ++ body) = Ok h)
    (Hbad : hash <> uint128_value h) :
  exists c', Decompress lz4 zstd c = (Throw CompressionError, c') /\
    ci_data c' = ci_data c /\ ci_mem c' = ci_mem c.
Proof.
  pose proof (zlen_nonneg body). unfold HEADER_SIZE, DBMS_MAX_COMPRESSED_SIZE in *.
  destruct (Decompress_reads lz4 zstd c hash method (zlen body + 9) original body rest) as (i' & E & _ & _);
    unfold HEADER_SIZE, DBMS_MAX_COMPRESSED_SIZE; try done; [by destruct Hmethod as [-> | ->]|unfold is_u; lia|lia|].
  rewrite E. unfold Decompress_block.
  rewrite ztake_all, Hcity by (rewrite zlen_app, zlen_header; unfold HEADER_SIZE; lia).
  unfold bind at 1, lift_result. rewrite (proj2 (Z.eqb_neq _ _) Hbad). cbn [negb].
  eexists. split; [done|]. done.
Qed.

Lemma corruption_detected_witness :
  exists c', Decompress store_lz4 store_zstd
      (CompressedInput_new (mkArrayInput (le_bytes 16 0 ++ header CompressionMethodByte.LZ4 12 3 ++ str "abc" ++ [])))
      = (Throw CompressionError, c') /\ ci_data c' = [] /\ ci_mem c' = mkArrayInput [].
Proof.
  destruct (CityHash128 (header CompressionMethodByte.LZ4 12 3 ++ str "abc")) as [h|] eqn:E; [|vm_compute in E; discriminate E].
  refine (corruption_detected store_lz4 store_zstd
    (CompressedInput_new (mkArrayInput (le_bytes 16 0 ++ header CompressionMethodByte.LZ4 12 3 ++ str "abc" ++ [])))
    0 CompressionMethodByte.LZ4 3 (str "abc") [] h _ _ _ _ _ _ E _).
  - exact I.
  - split; reflexivity || discriminate.
  - split; reflexivity || discriminate.
  - left. reflexivity.
  - discriminate.
  - reflexivity.
  - vm_compute in E. injection E as <-. vm_compute. discriminate.
Defined.

(** The reader's size check has no lower bound: a frame header that declares
    fewer than [HEADER_SIZE] compressed bytes makes the code ask for about 2^64
    bytes and store whatever arrives past the end of its nine-byte buffer; with
    a single byte behind the header, the outcome is undefined behaviour. *)
Lemma undersized_frame_undefined (lz4 : lz4_api) (zstd : zstd_api) (compressed : Z)
    (Hc : 0 <= compressed < HEADER_SIZE) :
  fst (Decompress lz4 zstd
    (CompressedInput_new (mkArrayInput
       (le_bytes 16 0 ++ header CompressionMethodByte.LZ4 compressed 0 ++ [x2a])))) = Throw Undefined.
Proof.
  unfold HEADER_SIZE in Hc.
  assert (compressed = 0 \/ compressed = 1 \/ compressed = 2 \/ compressed = 3 \/ compressed = 4 \/
          compressed = 5 \/ compressed = 6 \/ compressed = 7 \/ compressed = 8) as Hcase by lia.
  destruct Hcase as [-> |[-> |[-> |[-> |[-> |[-> |[-> |[-> | ->]]]]]]]]; vm_compute; reflexivity.
Qed.
