(* ===== verification/Text.v ===== *)
(** * Text helpers of the standard library the code uses

    [std::to_string] and [std::stol] on decimal numbers and the character
    classes of the C locale, with the round trip between them. *)

From S2P Require Import Prelude.

Definition is_digit (c : byte) : bool := (48 <=? b2z c) && (b2z c <=? 57).

Definition is_alpha (c : byte) : bool :=
  ((65 <=? b2z c) && (b2z c <=? 90)) || ((97 <=? b2z c) && (b2z c <=? 122)).

(** [tolower] in the C locale. *)
Definition to_lower (c : byte) : byte :=
  if (65 <=? b2z c) && (b2z c <=? 90) then z2b (b2z c + 32) else c.

(** The decimal digits of [n >= 0], in front of [acc]. *)
Fixpoint dec_digits (fuel : nat) (n : Z) (acc : bytes) : bytes :=
  match fuel with
  | O => acc
  | S fuel =>
    let acc := z2b (48 + n mod 10) :: acc in
    if n / 10 =? 0 then acc else dec_digits fuel (n / 10) acc
  end.

Definition dec_nonneg (n : Z) : bytes := dec_digits (S (Z.to_nat (Z.log2 n))) n [].

Definition to_string (z : Z) : bytes :=
  if z <? 0 then "-"%byte :: dec_nonneg (- z) else dec_nonneg z.

Definition dec_value (acc : Z) (l : bytes) : Z :=
  fold_left (fun a c => a * 10 + (b2z c - 48)) l acc.

(** [std::stol] on a token of the type parser: an optional minus sign and
    digits.  No digits is [std::invalid_argument], a value outside 64 bits is
    [std::out_of_range]. *)
Definition stol (s : bytes) : result Z :=
  let '(neg, ds) := match s with
                    | c :: ds => if bool_decide (c = "-"%byte) then (true, ds) else (false, s)
                    | [] => (false, s)
                    end in
  match ds with
  | [] => Throw InvalidArgument
  | _ =>
    let v := if neg : bool then - dec_value 0 ds else dec_value 0 ds in
    if (- 2 ^ 63 <=? v) && (v <? 2 ^ 63) then Ok v else Throw OutOfRange
  end.

(** ** Round trip *)

Lemma b2z_digit (n : Z) : b2z (z2b (48 + n mod 10)) = 48 + n mod 10.
Proof. rewrite b2z_z2b. pose proof (Z.mod_pos_bound n 10). apply Z.mod_small. lia. Qed.

Lemma is_digit_digit (n : Z) : is_digit (z2b (48 + n mod 10)) = true.
Proof.
  unfold is_digit. rewrite b2z_digit. pose proof (Z.mod_pos_bound n 10).
  rewrite (proj2 (Z.leb_le _ _)), (proj2 (Z.leb_le _ _)) by lia. done.
Qed.

Lemma dec_digits_value (fuel : nat) : forall n acc, (0 < fuel)%nat -> 0 <= n < 2 ^ Z.of_nat fuel ->
  dec_value 0 (dec_digits fuel n acc) = dec_value n acc.
Proof.
  induction fuel as [|fuel IH]; intros n acc Hf Hn; [lia|]. cbn [dec_digits].
  pose proof (Z.div_mod n 10 ltac:(lia)) as Hdm. pose proof (Z.mod_pos_bound n 10 ltac:(lia)).
  rewrite Nat2Z.inj_succ, Z.pow_succ_r in Hn by lia.
  destruct (Z.eqb_spec (n / 10) 0) as [E|E].
  - unfold dec_value. cbn [fold_left]. rewrite b2z_digit. f_equal. lia.
  - assert (0 < fuel)%nat by (destruct fuel; [cbn in Hn|]; lia).
    rewrite IH by lia. unfold dec_value. cbn [fold_left]. rewrite b2z_digit. f_equal. lia.
Qed.

Lemma log2_fuel (n : Z) : 0 <= n -> n < 2 ^ Z.of_nat (S (Z.to_nat (Z.log2 n))).
Proof.
  intros Hn. rewrite Nat2Z.inj_succ, Z2Nat.id by apply Z.log2_nonneg.
  destruct (Z.eq_dec n 0) as [->|]; [done|]. apply Z.log2_spec. lia.
Qed.

Lemma dec_nonneg_value (n : Z) : 0 <= n -> dec_value 0 (dec_nonneg n) = n.
Proof.
  intros Hn. unfold dec_nonneg. rewrite dec_digits_value; [done|lia|].
  pose proof (log2_fuel n Hn). lia.
Qed.

Lemma dec_digits_ok (fuel : nat) : forall n acc, Forall (fun c => is_digit c = true) acc ->
  Forall (fun c => is_digit c = true) (dec_digits fuel n acc) /\
  (length acc <= length (dec_digits fuel n acc))%nat.
Proof.
  induction fuel as [|fuel IH]; intros n acc Ha; [done|]. cbn [dec_digits].
  assert (Forall (fun c => is_digit c = true) (z2b (48 + n mod 10) :: acc)) as Ha'
    by (constructor; [apply is_digit_digit|done]).
  destruct (n / 10 =? 0); [cbn; split; [done|lia]|].
  destruct (IH (n / 10) _ Ha') as [? Hl]. split; [done|]. cbn in Hl. lia.
Qed.

(** Digits, and at least one. *)
Lemma dec_nonneg_digits (n : Z) :
  exists c l, dec_nonneg n = c :: l /\ is_digit c = true /\ Forall (fun c => is_digit c = true) l.
Proof.
  unfold dec_nonneg. cbn [dec_digits].
  assert (forall l, Forall (fun c => is_digit c = true) l -> (1 <= length l)%nat ->
    exists c k, l = c :: k /\ is_digit c = true /\ Forall (fun c => is_digit c = true) k) as Hl.
  { intros [|c l] Hf Hle; [cbn in Hle; lia|]. inversion Hf; subst. by exists c, l. }
  pose proof (is_digit_digit n). destruct (n / 10 =? 0).
  - apply Hl; [by repeat constructor|cbn; lia].
  - destruct (dec_digits_ok (Z.to_nat (Z.log2 n)) (n / 10) [z2b (48 + n mod 10)]) as [? Hle];
      [by repeat constructor|]. by apply Hl.
Qed.

Lemma digit_not_minus (c : byte) : is_digit c = true -> c <> "-"%byte.
Proof. by intros H ->. Qed.

(** The text of a 64-bit number parses back. *)
Lemma stol_to_string (z : Z) : is_s 64 z -> stol (to_string z) = Ok z.
Proof.
  unfold is_s. change (64 - 1) with 63. intros Hz. unfold to_string, stol.
  destruct (Z.ltb_spec z 0) as [Hneg|Hpos].
  - rewrite bool_decide_true by done. rewrite dec_nonneg_value by lia.
    destruct (dec_nonneg_digits (- z)) as (c & l & -> & _).
    rewrite Z.opp_involutive, (proj2 (Z.leb_le _ _)), (proj2 (Z.ltb_lt _ _)) by lia. done.
  - pose proof (dec_nonneg_value z Hpos) as Hv.
    destruct (dec_nonneg_digits z) as (c & l & E & Hc & _). rewrite E in *.
    rewrite bool_decide_false by (by apply digit_not_minus). rewrite Hv.
    rewrite (proj2 (Z.leb_le _ _)), (proj2 (Z.ltb_lt _ _)) by lia. done.
Qed.

(** ** C strings *)

(** What a function that reads up to the terminating zero sees, if there is one. *)
Fixpoint until_zero (memory : bytes) : option bytes :=
  match memory with
  | [] => None
  | b :: memory => if bool_decide (b = x00) then Some [] else
                   match until_zero memory with Some s => Some (b :: s) | None => None end
  end.

(** [s.c_str()]: a [std::string] is followed by a zero. *)
Definition c_str (s : bytes) : bytes := default [] (until_zero (s ++ [x00])).

Lemma until_zero_zero (s after : bytes) : x00 ∉ s -> until_zero (s ++ x00 :: after) = Some s.
Proof.
  induction s as [|b s IH]; intros Hs; [done|]. apply not_elem_of_cons in Hs as [Hb Hs].
  cbn [app until_zero]. rewrite bool_decide_false by congruence. by rewrite IH.
Qed.

Lemma c_str_plain (s : bytes) : x00 ∉ s -> c_str s = s.
Proof. intros Hs. unfold c_str. by rewrite until_zero_zero. Qed.
