(* ===== verification/Types.v ===== *)
(** * Types (clickhouse/types/types.h, types.cpp)

    The type tree of the client: codes, the classes derived from [Type], their
    names, the maps of an enumeration and type identity.  A [TypeRef] is an
    immutable shared object, modelled by its value. *)

From S2P Require Import Prelude Text CityHash.
From Stdlib Require Import Sorting.Sorted.

#[local] Set Warnings "-register-all".

#[global, refine] Instance byte_countable : Countable byte :=
  inj_countable Byte.to_N Byte.of_N _.
Proof. apply Byte.of_to_N. Defined.

(** ** Codes *)
Module Code.
Inductive t :=
| Void | Int8 | Int16 | Int32 | Int64 | UInt8 | UInt16 | UInt32 | UInt64
| Float32 | Float64 | String | FixedString | DateTime | Date | Array | Nullable
| Tuple | Enum8 | Enum16 | UUID | IPv4 | IPv6 | Int128 | UInt128
| Decimal | Decimal32 | Decimal64 | Decimal128 | LowCardinality | DateTime64
| Date32 | Map | Point | Ring | Polygon | MultiPolygon | Time | Time64 | JSON | Bool.

Definition to_Z (c : t) : Z :=
  match c with
  | Void => 0 | Int8 => 1 | Int16 => 2 | Int32 => 3 | Int64 => 4 | UInt8 => 5 | UInt16 => 6
  | UInt32 => 7 | UInt64 => 8 | Float32 => 9 | Float64 => 10 | String => 11 | FixedString => 12
  | DateTime => 13 | Date => 14 | Array => 15 | Nullable => 16 | Tuple => 17 | Enum8 => 18
  | Enum16 => 19 | UUID => 20 | IPv4 => 21 | IPv6 => 22 | Int128 => 23 | UInt128 => 24
  | Decimal => 25 | Decimal32 => 26 | Decimal64 => 27 | Decimal128 => 28 | LowCardinality => 29
  | DateTime64 => 30 | Date32 => 31 | Map => 32 | Point => 33 | Ring => 34 | Polygon => 35
  | MultiPolygon => 36 | Time => 37 | Time64 => 38 | JSON => 39 | Bool => 40
  end.

#[global] Instance eq_dec : EqDecision t.
Proof. solve_decision. Defined.
End Code.

Definition TypeName (code : Code.t) : bytes :=
  match code with
  | Code.Void => str "Void" | Code.Int8 => str "Int8" | Code.Int16 => str "Int16"
  | Code.Int32 => str "Int32" | Code.Int64 => str "Int64" | Code.UInt8 => str "UInt8"
  | Code.UInt16 => str "UInt16" | Code.UInt32 => str "UInt32" | Code.UInt64 => str "UInt64"
  | Code.Float32 => str "Float32" | Code.Float64 => str "Float64" | Code.String => str "String"
  | Code.FixedString => str "FixedString" | Code.DateTime => str "DateTime" | Code.Date => str "Date"
  | Code.Array => str "Array" | Code.Nullable => str "Nullable" | Code.Tuple => str "Tuple"
  | Code.Enum8 => str "Enum8" | Code.Enum16 => str "Enum16" | Code.UUID => str "UUID"
  | Code.IPv4 => str "IPv4" | Code.IPv6 => str "IPv6" | Code.Int128 => str "Int128"
  | Code.UInt128 => str "UInt128" | Code.Decimal => str "Decimal" | Code.Decimal32 => str "Decimal32"
  | Code.Decimal64 => str "Decimal64" | Code.Decimal128 => str "Decimal128"
  | Code.LowCardinality => str "LowCardinality" | Code.DateTime64 => str "DateTime64"
  | Code.Date32 => str "Date32" | Code.Map => str "Map" | Code.Point => str "Point"
  | Code.Ring => str "Ring" | Code.Polygon => str "Polygon" | Code.MultiPolygon => str "MultiPolygon"
  | Code.Time => str "Time" | Code.Time64 => str "Time64" | Code.JSON => str "JSON" | Code.Bool => str "Bool"
  end.

(** ** The class hierarchy

    [TSimple] is [Type] itself, used for the codes without parameters. *)

(** [EnumType]: [value_to_name_] is an ordered map, iterated by [GetName]. *)
Record EnumType := mkEnumType {
  value_to_name : list (Z * bytes);
  name_to_value : gmap bytes Z;
}.

Inductive type : Type :=
| TSimple (code : Code.t)
| TFixedString (size : Z)
| TDateTime (timezone : bytes)
| TDateTime64 (precision : Z) (timezone : bytes)
| TTime64 (precision : Z)
| TDecimal (precision scale : Z)
| TEnum (code : Code.t) (e : EnumType)
| TArray (item_type : type)
| TNullable (nested_type : type)
| TTuple (item_types : list type) (item_names : list bytes)
| TLowCardinality (nested_type : type)
| TMap (key_type value_type : type).

Definition GetCode (t : type) : Code.t :=
  match t with
  | TSimple c => c
  | TFixedString _ => Code.FixedString
  | TDateTime _ => Code.DateTime
  | TDateTime64 _ _ => Code.DateTime64
  | TTime64 _ => Code.Time64
  | TDecimal _ _ => Code.Decimal
  | TEnum c _ => c
  | TArray _ => Code.Array
  | TNullable _ => Code.Nullable
  | TTuple _ _ => Code.Tuple
  | TLowCardinality _ => Code.LowCardinality
  | TMap _ _ => Code.Map
  end.

(** ** Constructors that validate *)

Definition CreateTime64 (precision : Z) : result type :=
  if 9 <? precision then Throw ValidationError else Ok (TTime64 precision).

Definition CreateDateTime64 (precision : Z) (timezone : bytes) : result type :=
  if 18 <? precision then Throw ValidationError else Ok (TDateTime64 precision timezone).

Definition CreateTuple (item_types : list type) (item_names : list bytes) : result type :=
  if negb (bool_decide (item_names = [])) && negb (length item_names =? length item_types)%nat
  then Throw ValidationError
  else if existsb (fun n => bool_decide (n = [])) item_names then Throw ValidationError
  else Ok (TTuple item_types item_names).

(** ** Enumerations *)

(** [m[k] = v] on an ordered map. *)
Fixpoint zmap_set (k : Z) (v : bytes) (m : list (Z * bytes)) : list (Z * bytes) :=
  match m with
  | [] => [(k, v)]
  | (k', v') :: m' =>
    if k <? k' then (k, v) :: m
    else if k =? k' then (k, v) :: m'
    else (k', v') :: zmap_set k v m'
  end.

Fixpoint zmap_get (k : Z) (m : list (Z * bytes)) : option bytes :=
  match m with
  | [] => None
  | (k', v') :: m => if k =? k' then Some v' else zmap_get k m
  end.

(** One item: [insert] keeps an existing name; the view stored in
    [value_to_name_] is the key of the other map. *)
Definition EnumType_add (e : EnumType) (item : bytes * Z) : EnumType :=
  let '(name, value) := item in
  let n2v := match name_to_value e !! name with
             | Some _ => name_to_value e
             | None => <[name := value]> (name_to_value e)
             end in
  mkEnumType (zmap_set value name (value_to_name e)) n2v.

Definition EnumType_new (items : list (bytes * Z)) : EnumType :=
  fold_left EnumType_add items (mkEnumType [] ∅).

Definition CreateEnum8 (items : list (bytes * Z)) : type := TEnum Code.Enum8 (EnumType_new items).

Definition CreateEnum16 (items : list (bytes * Z)) : type := TEnum Code.Enum16 (EnumType_new items).

(** [std::map::at] throws [std::out_of_range]. *)
Definition GetEnumName (e : EnumType) (value : Z) : result bytes :=
  match zmap_get value (value_to_name e) with Some n => Ok n | None => Throw OutOfRange end.

Definition GetEnumValue (e : EnumType) (name : bytes) : result Z :=
  match name_to_value e !! name with Some v => Ok v | None => Throw OutOfRange end.

Definition HasEnumName (e : EnumType) (name : bytes) : bool :=
  bool_decide (is_Some (name_to_value e !! name)).

Definition HasEnumValue (e : EnumType) (value : Z) : bool :=
  match zmap_get value (value_to_name e) with Some _ => true | None => false end.

(** ** Names *)

Definition kEscapeMap (c : byte) : option byte :=
  match c with
  | x27 => Some "'"%byte
  | x00 => Some "0"%byte
  | x5c => Some "\"%byte
  | x08 => Some "b"%byte
  | x0c => Some "f"%byte
  | x0a => Some "n"%byte
  | x0d => Some "r"%byte
  | x09 => Some "t"%byte
  | _ => None
  end.

Definition escape_char (c : byte) : bytes :=
  match kEscapeMap c with
  | Some e => ["\"%byte; e]
  | None => [c]
  end.

Definition EscapeStringLiteral (s : bytes) : bytes := concat (map escape_char s).

Definition is_alpha_or_under (c : byte) : bool := is_alpha c || bool_decide (c = "_"%byte).

Definition is_alnum_or_under (c : byte) : bool := is_alpha_or_under c || is_digit c.

Definition IsPlainIdentifier (name : bytes) : bool :=
  match name with
  | [] => false
  | c :: cs => is_alpha_or_under c && forallb is_alnum_or_under cs
  end.

Definition quote_backtick (c : byte) : bytes :=
  if bool_decide (c = "`"%byte) then str "``" else [c].

(** What [AppendFieldname] appends. *)
Definition Fieldname (name : bytes) : bytes :=
  if IsPlainIdentifier name then name
  else str "`" ++ concat (map quote_backtick name) ++ str "`".

(** [sep] between the elements. *)
Fixpoint join (sep : bytes) (l : list bytes) : bytes :=
  match l with
  | [] => []
  | [x] => x
  | x :: l => x ++ sep ++ join sep l
  end.

Definition enum_item_name (item : Z * bytes) : bytes :=
  str "'" ++ EscapeStringLiteral (snd item) ++ str "' = " ++ to_string (fst item).

Definition EnumType_GetName (code : Code.t) (e : EnumType) : bytes :=
  (if bool_decide (code = Code.Enum8) then str "Enum8(" else str "Enum16(")
  ++ join (str ", ") (map enum_item_name (value_to_name e)) ++ str ")".

(** The text of the [i]-th tuple element, with its name when names are given. *)
Definition tuple_item (names : list bytes) (i : nat) (type_name : bytes) : bytes :=
  match names with
  | [] => type_name
  | _ => Fieldname (nth i names []) ++ str " " ++ type_name
  end.

Fixpoint GetName (t : type) : bytes :=
  match t with
  | TSimple c => TypeName c
  | TFixedString n => str "FixedString(" ++ to_string n ++ str ")"
  | TDateTime tz =>
    str "DateTime" ++
    (if bool_decide (tz = []) then [] else str "('" ++ EscapeStringLiteral tz ++ str "')")
  | TDateTime64 p tz =>
    str "DateTime64(" ++ to_string p ++
    (if bool_decide (tz = []) then [] else str ", '" ++ EscapeStringLiteral tz ++ str "'") ++ str ")"
  | TTime64 p => str "Time64(" ++ to_string p ++ str ")"
  | TDecimal p s => str "Decimal(" ++ to_string p ++ str "," ++ to_string s ++ str ")"
  | TEnum c e => EnumType_GetName c e
  | TArray t => str "Array(" ++ GetName t ++ str ")"
  | TNullable t => str "Nullable(" ++ GetName t ++ str ")"
  | TTuple ts names =>
    str "Tuple(" ++ join (str ", ") (imap (tuple_item names) (map GetName ts)) ++ str ")"
  | TLowCardinality t => str "LowCardinality(" ++ GetName t ++ str ")"
  | TMap k v => str "Map(" ++ GetName k ++ str ", " ++ GetName v ++ str ")"
  end.

(** ** Identity *)

(** Codes whose unique id is the code itself. *)
Definition simple_id (c : Code.t) : bool :=
  match c with
  | Code.Void | Code.Int8 | Code.Int16 | Code.Int32 | Code.Int64 | Code.Int128 | Code.UInt8
  | Code.UInt16 | Code.UInt32 | Code.UInt64 | Code.UInt128 | Code.UUID | Code.Float32 | Code.Float64
  | Code.String | Code.JSON | Code.IPv4 | Code.IPv6 | Code.Date | Code.Date32 | Code.Point | Code.Ring
  | Code.Polygon | Code.MultiPolygon | Code.Bool => true
  | _ => false
  end.

(** The value [type_unique_id_] caches. *)
Definition GetTypeUniqueId (t : type) : result Z :=
  if simple_id (GetCode t) then Ok (Code.to_Z (GetCode t))
  else CityHash64WithSeed (GetName t) (Code.to_Z (GetCode t)).

Definition IsEqual (a b : type) : result bool :=
  if bool_decide (GetCode a = GetCode b) then
    let! ia := GetTypeUniqueId a in
    let! ib := GetTypeUniqueId b in
    Ok (ia =? ib)
  else Ok false.

(** ** Induction over types *)
Section TypeInd.
Context (P : type -> Prop).
Hypothesis HSimple : forall c, P (TSimple c).
Hypothesis HFixedString : forall n, P (TFixedString n).
Hypothesis HDateTime : forall tz, P (TDateTime tz).
Hypothesis HDateTime64 : forall p tz, P (TDateTime64 p tz).
Hypothesis HTime64 : forall p, P (TTime64 p).
Hypothesis HDecimal : forall p s, P (TDecimal p s).
Hypothesis HEnum : forall c e, P (TEnum c e).
Hypothesis HArray : forall t, P t -> P (TArray t).
Hypothesis HNullable : forall t, P t -> P (TNullable t).
Hypothesis HTuple : forall ts names, Forall P ts -> P (TTuple ts names).
Hypothesis HLowCardinality : forall t, P t -> P (TLowCardinality t).
Hypothesis HMap : forall k v, P k -> P v -> P (TMap k v).

Fixpoint type_ind' (t : type) : P t :=
  match t with
  | TSimple c => HSimple c
  | TFixedString n => HFixedString n
  | TDateTime tz => HDateTime tz
  | TDateTime64 p tz => HDateTime64 p tz
  | TTime64 p => HTime64 p
  | TDecimal p s => HDecimal p s
  | TEnum c e => HEnum c e
  | TArray t => HArray t (type_ind' t)
  | TNullable t => HNullable t (type_ind' t)
  | TTuple ts names =>
    HTuple ts names
      ((fix go ts : Forall P ts :=
          match ts with
          | [] => Forall_nil_2 P
          | t :: ts => Forall_cons_2 P t ts (type_ind' t) (go ts)
          end) ts)
  | TLowCardinality t => HLowCardinality t (type_ind' t)
  | TMap k v => HMap k v (type_ind' k) (type_ind' v)
  end.
End TypeInd.

(** ** Well-formed types: what the constructors of the library can build *)

(** Codes without parameters. *)
Definition simple_code (c : Code.t) : bool := simple_id c || bool_decide (c = Code.Time).

(** Maps of an enumeration that agree: distinct names and values, in order. *)
Definition enum_wf (e : EnumType) : Prop :=
  StronglySorted Z.lt (map fst (value_to_name e)) /\
  NoDup (map snd (value_to_name e)) /\
  name_to_value e = list_to_map (map (fun '(v, n) => (n, v)) (value_to_name e)).

(** ** Unique ids exist *)

Lemma CityHash64WithSeed_ok (s : bytes) (seed : Z) : zlen s < 2 ^ 64 ->
  exists h, CityHash64WithSeed s seed = Ok h.
Proof.
  intros Hs. destruct (CityHash64_ok s Hs) as (h & E & _).
  unfold CityHash64WithSeed, CityHash64WithSeeds. rewrite E. by eexists.
Qed.

Lemma GetTypeUniqueId_ok (t : type) : zlen (GetName t) < 2 ^ 64 -> exists h, GetTypeUniqueId t = Ok h.
Proof.
  intros Ht. unfold GetTypeUniqueId. destruct (simple_id (GetCode t)); [by eexists|].
  by apply CityHash64WithSeed_ok.
Qed.

(** The name of a type, as a C++ string, has a length. *)
Definition name_fits (t : type) : Prop := zlen (GetName t) < 2 ^ 64.

Lemma IsEqual_refl (t : type) : name_fits t -> IsEqual t t = Ok true.
Proof.
  intros Ht. unfold IsEqual. rewrite bool_decide_true by done.
  destruct (GetTypeUniqueId_ok t Ht) as (h & ->). cbn [rbind]. by rewrite Z.eqb_refl.
Qed.
