(* ===== verification/TypeParser.v ===== *)
(** * Type parser (clickhouse/types/type_parser.h, type_parser.cpp)

    The tokenizer, the stack machine that builds the syntax tree of a type name,
    and the cache of parsed names.  Nodes are addressed by their path from the
    root: [type_] and the entries of [open_elements_] are pointers into the tree
    under construction. *)

From S2P Require Import Prelude Text Types.

#[local] Set Warnings "-register-all".

(** ** Syntax trees *)
Module Meta.
Inductive t :=
| Array | Assign | Null | Nullable | Number | String | Terminal | Tuple | Enum
| LowCardinality | SimpleAggregateFunction | Map.

#[global] Instance eq_dec : EqDecision t.
Proof. solve_decision. Defined.
End Meta.

Inductive TypeAst : Type := mkTypeAst {
  ast_meta : Meta.t;
  ast_code : Code.t;
  ast_name : bytes;
  ast_element_name : bytes;
  ast_value : Z;
  ast_value_string : bytes;
  ast_elements : list TypeAst;
}.

(** A value-initialised node. *)
Definition TypeAst_default : TypeAst := mkTypeAst Meta.Array Code.Void [] [] 0 [] [].

(** [TypeAst::operator==]. *)
Fixpoint TypeAst_eqb (a b : TypeAst) : bool :=
  let '(mkTypeAst m c n en v vs els) := a in
  let '(mkTypeAst m' c' n' en' v' vs' els') := b in
  bool_decide (m = m') && bool_decide (c = c') && bytes_eqb n n' && bytes_eqb en en'
  && (v =? v') && bytes_eqb vs vs'
  && (fix go l l' := match l, l' with
                     | [], [] => true
                     | x :: l, y :: l' => TypeAst_eqb x y && go l l'
                     | _, _ => false
                     end) els els'.

(** The position of a node: the index of a child at each level. *)
Abbreviation path := (list nat).

(** The static map of [ParseTypeName]. *)
Abbreviation ast_cache := (gmap bytes TypeAst).

Section Parser.
(** The build option that maps Bool to UInt8. *)
Context (CH_MAP_BOOL_TO_UINT8 : bool).

Definition kTypeCode : list (bytes * Code.t) := [
  (str "Void", Code.Void); (str "Int8", Code.Int8); (str "Int16", Code.Int16);
  (str "Int32", Code.Int32); (str "Int64", Code.Int64);
  (str "Bool", if CH_MAP_BOOL_TO_UINT8 then Code.UInt8 else Code.Bool);
  (str "UInt8", Code.UInt8); (str "UInt16", Code.UInt16); (str "UInt32", Code.UInt32);
  (str "UInt64", Code.UInt64); (str "Float32", Code.Float32); (str "Float64", Code.Float64);
  (str "String", Code.String); (str "FixedString", Code.FixedString);
  (str "DateTime", Code.DateTime); (str "DateTime64", Code.DateTime64);
  (str "Date", Code.Date); (str "Date32", Code.Date32); (str "Array", Code.Array);
  (str "Nullable", Code.Nullable); (str "Tuple", Code.Tuple); (str "Enum8", Code.Enum8);
  (str "Enum16", Code.Enum16); (str "UUID", Code.UUID); (str "IPv4", Code.IPv4);
  (str "IPv6", Code.IPv6); (str "Int128", Code.Int128); (str "UInt128", Code.UInt128);
  (str "Decimal", Code.Decimal); (str "Decimal32", Code.Decimal32);
  (str "Decimal64", Code.Decimal64); (str "Decimal128", Code.Decimal128);
  (str "LowCardinality", Code.LowCardinality); (str "Map", Code.Map); (str "Point", Code.Point);
  (str "Ring", Code.Ring); (str "Polygon", Code.Polygon); (str "MultiPolygon", Code.MultiPolygon);
  (str "Time", Code.Time); (str "Time64", Code.Time64); (str "JSON", Code.JSON)
].

Fixpoint assoc {V} (k : bytes) (l : list (bytes * V)) : option V :=
  match l with
  | [] => None
  | (k', v) :: l => if bytes_eqb k k' then Some v else assoc k l
  end.

Definition GetTypeCode (name : bytes) : Code.t :=
  match assoc name kTypeCode with Some c => c | None => Code.Void end.

Definition GetTypeMeta (name : bytes) : Meta.t :=
  if bytes_eqb name (str "Array") then Meta.Array
  else if bytes_eqb name (str "Null") then Meta.Null
  else if bytes_eqb name (str "Nullable") then Meta.Nullable
  else if bytes_eqb name (str "Tuple") then Meta.Tuple
  else if bytes_eqb name (str "Enum8") || bytes_eqb name (str "Enum16") then Meta.Enum
  else if bytes_eqb name (str "LowCardinality") then Meta.LowCardinality
  else if bytes_eqb name (str "SimpleAggregateFunction") then Meta.SimpleAggregateFunction
  else if bytes_eqb name (str "Map") then Meta.Map
  else Meta.Terminal.

(** [CompateStringsCaseInsensitive(left, right) == 0]. *)
Definition equal_case_insensitive (left right : bytes) : bool :=
  (zlen left =? zlen right) && bytes_eqb (map to_lower left) (map to_lower right).

Definition ValidateAST (ast : TypeAst) : bool :=
  negb (bool_decide (ast_meta ast = Meta.Terminal) && bool_decide (ast_code ast = Code.Void)
        && negb (equal_case_insensitive (ast_name ast) (str "void"))).

(** ** Tokens *)

Inductive token :=
| Invalid | Assign | Name (value : bytes) | Number (value : bytes) | LPar | RPar | Comma
| QuotedString (value : bytes) | QuotedIdentifier (value : bytes) | EOS.

Definition kUnescapeMap (c : byte) : option byte :=
  match c with
  | x30 => Some x00  (* 0 *)
  | x5c => Some x5c  (* backslash *)
  | x62 => Some x08  (* b *)
  | x66 => Some x0c  (* f *)
  | x6e => Some x0a  (* n *)
  | x72 => Some x0d  (* r *)
  | x74 => Some x09  (* t *)
  | _ => None
  end.

(** The loop of a single-quoted string, which runs while more than one character
    is left; [scratch] is the text so far. *)
Fixpoint quoted_string (s : bytes) (scratch : bytes) {struct s} : token * bytes :=
  match s with
  | c :: ((d :: s') as rest) =>
    if bool_decide (c = "\"%byte) then
      match kUnescapeMap d with
      | Some u => quoted_string s' (scratch ++ [u])
      | None =>
        if bool_decide (d = "'"%byte) then quoted_string s' (scratch ++ ["'"%byte])
        else quoted_string rest (scratch ++ [c])
      end
    else if bool_decide (c = "'"%byte) then (QuotedString (scratch ++ [c]), rest)
    else quoted_string rest (scratch ++ [c])
  | _ => (QuotedString scratch, s)
  end.

(** The loop of an identifier quoted by [quote]. *)
Fixpoint quoted_identifier (quote : byte) (s : bytes) (scratch : bytes) {struct s} : token * bytes :=
  match s with
  | [] => (Invalid, [])
  | c :: rest =>
    match rest with
    | d :: s' =>
      if bool_decide (c = "\"%byte) && bool_decide (d = quote) then
        quoted_identifier quote s' (scratch ++ [quote])
      else if bool_decide (c = quote) then
        if bool_decide (d = quote) then quoted_identifier quote s' (scratch ++ [quote])
        else (QuotedIdentifier scratch, rest)
      else quoted_identifier quote rest (scratch ++ [c])
    | [] =>
      if bool_decide (c = quote) then (QuotedIdentifier scratch, rest)
      else quoted_identifier quote rest (scratch ++ [c])
    end
  end.

(** The longest prefix whose characters satisfy [p], and the rest. *)
Fixpoint span (p : byte -> bool) (s : bytes) : bytes * bytes :=
  match s with
  | [] => ([], [])
  | c :: s' => if p c then let '(a, b) := span p s' in (c :: a, b) else ([], s)
  end.

Definition is_blank (c : byte) : bool :=
  bool_decide (c = " "%byte) || bool_decide (c = x0a) || bool_decide (c = x09) || bool_decide (c = x00).

Definition is_name_char (c : byte) : bool := is_alpha c || is_digit c || bool_decide (c = "_"%byte).

(** [NextToken] on the text left; the token and the text after it. *)
Fixpoint NextToken (s : bytes) : token * bytes :=
  match s with
  | [] => (EOS, [])
  | c :: rest =>
    if is_blank c then NextToken rest
    else if bool_decide (c = "="%byte) then (Assign, rest)
    else if bool_decide (c = "("%byte) then (LPar, rest)
    else if bool_decide (c = ")"%byte) then (RPar, rest)
    else if bool_decide (c = ","%byte) then (Comma, rest)
    else if bool_decide (c = "'"%byte) then quoted_string rest [c]
    else if bool_decide (c = x22) || bool_decide (c = "`"%byte) then quoted_identifier c rest []
    else if is_alpha c || bool_decide (c = "_"%byte) then
      let '(a, b) := span is_name_char s in (Name a, b)
    else if is_digit c || bool_decide (c = "-"%byte) then
      let '(a, b) := span is_digit rest in (Number (c :: a), b)
    else (Invalid, s)
  end.

(** [StringView::substr(pos, count)]. *)
Definition substr (s : bytes) (pos count : Z) : result bytes :=
  if zlen s <=? pos then Throw OutOfRange
  else if (zlen s <=? wrap 64 (pos + count)) || (count =? 2 ^ 64 - 1) then Ok (zdrop pos s)
  else Ok (ztake count (zdrop pos s)).

(** ** The stack machine *)

Fixpoint update_at (p : path) (f : TypeAst -> TypeAst) (t : TypeAst) : TypeAst :=
  match p with
  | [] => f t
  | i :: p =>
    let '(mkTypeAst m c n en v vs els) := t in
    mkTypeAst m c n en v vs (alter (update_at p f) i els)
  end.

Fixpoint node_at (p : path) (t : TypeAst) : option TypeAst :=
  match p with
  | [] => Some t
  | i :: p => match ast_elements t !! i with Some t => node_at p t | None => None end
  end.

Record parser := mkParser {
  tp_rest : bytes;        (** [cur_, end_) *)
  tp_root : TypeAst;      (** the tree under construction *)
  tp_type : path;         (** [type_] *)
  tp_open : list path;    (** [open_elements_], top first *)
}.

(** Assignments to the fields of a node. *)
Definition set_quoted (vs : bytes) (t : TypeAst) : TypeAst :=
  mkTypeAst Meta.Terminal Code.String (ast_name t) (ast_element_name t) (ast_value t) vs (ast_elements t).

Definition set_name (v : bytes) (t : TypeAst) : TypeAst :=
  let en := if bool_decide (ast_name t = []) then ast_element_name t else ast_name t in
  mkTypeAst (GetTypeMeta v) (GetTypeCode v) v en (ast_value t) (ast_value_string t) (ast_elements t).

Definition set_number (v : Z) (t : TypeAst) : TypeAst :=
  mkTypeAst Meta.Number (ast_code t) (ast_name t) (ast_element_name t) v (ast_value_string t) (ast_elements t).

Definition emplace_back (t : TypeAst) : TypeAst :=
  mkTypeAst (ast_meta t) (ast_code t) (ast_name t) (ast_element_name t) (ast_value t)
    (ast_value_string t) (ast_elements t ++ [TypeAst_default]).

Definition upd_type (f : TypeAst -> TypeAst) (s : parser) : parser :=
  mkParser (tp_rest s) (update_at (tp_type s) f (tp_root s)) (tp_type s) (tp_open s).

(** [type_->elements.emplace_back(); open_elements_.push(type_); type_ = &type_->elements.back()]. *)
Definition open_child (s : parser) : result parser :=
  match node_at (tp_type s) (tp_root s) with
  | Some t =>
    Ok (mkParser (tp_rest s) (update_at (tp_type s) emplace_back (tp_root s))
          (tp_type s ++ [length (ast_elements t)]) (tp_type s :: tp_open s))
  | None => Throw Undefined
  end.

(** [type_ = open_elements_.top(); open_elements_.pop()]; an empty stack is undefined. *)
Definition pop_open (s : parser) : result parser :=
  match tp_open s with
  | p :: st => Ok (mkParser (tp_rest s) (tp_root s) p st)
  | [] => Throw Undefined
  end.

(** One iteration of the loop of [Parse]: continue, or the value returned. *)
Definition Parse_token (tok : token) (processed_tokens : Z) (s : parser) : result (parser + bool) :=
  match tok with
  | QuotedString v =>
    if zlen v <? 1 then Ok (inl (upd_type (set_quoted []) s))
    else
      let! vs := substr v 1 (wrap 64 (zlen v - 2)) in
      Ok (inl (upd_type (set_quoted vs) s))
  | QuotedIdentifier v | Name v => Ok (inl (upd_type (set_name v) s))
  | Number v =>
    let! n := stol v in
    Ok (inl (upd_type (set_number n) s))
  | LPar => let! s := open_child s in Ok (inl s)
  | RPar => let! s := pop_open s in Ok (inl s)
  | Assign | Comma =>
    let! s := pop_open s in
    let! s := open_child s in
    Ok (inl s)
  | EOS =>
    if negb (length (tp_open s) =? 1)%nat then Ok (inr false)
    else if processed_tokens =? 0 then Ok (inr false)
    else Ok (inr (ValidateAST (tp_root s)))
  | Invalid => Ok (inr false)
  end.

(** The loop; every iteration consumes input or ends it, so the length of the
    text bounds it.  The outcome pairs the result with the tree reached. *)
Fixpoint Parse_loop (fuel : nat) (processed_tokens : Z) (s : parser) : result bool * TypeAst :=
  match fuel with
  | O => (Throw Diverges, tp_root s)
  | S fuel =>
    let '(tok, rest) := NextToken (tp_rest s) in
    let s := mkParser rest (tp_root s) (tp_type s) (tp_open s) in
    match Parse_token tok processed_tokens s with
    | Ok (inl s) => Parse_loop fuel (processed_tokens + 1) s
    | Ok (inr b) => (Ok b, tp_root s)
    | Throw e => (Throw e, tp_root s)
    end
  end.

Definition Parse (name : bytes) : result bool * TypeAst :=
  Parse_loop (S (length name)) 0 (mkParser name TypeAst_default [] [[]]).

(** ** The cache of [ParseTypeName] *)

Definition ParseTypeName (type_name : bytes) : M ast_cache (option TypeAst) :=
  fun cache =>
    match cache !! type_name with
    | Some ast => (Ok (Some ast), cache)
    | None =>
      let '(r, ast) := Parse type_name in
      let cache := <[type_name := ast]> cache in
      match r with
      | Ok true => (Ok (Some ast), cache)
      | Ok false => (Ok None, delete type_name cache)
      | Throw e => (Throw e, cache)
      end
    end.
End Parser.

(** ** Termination: every token consumes input *)

Lemma span_app (p : byte -> bool) (s : bytes) : fst (span p s) ++ snd (span p s) = s.
Proof.
  induction s as [|c s IH]; [done|]. cbn. destruct (p c); [|done].
  destruct (span p s) as [a b]. cbn in *. by f_equal.
Qed.

Lemma span_length (p : byte -> bool) (s : bytes) : (length (snd (span p s)) <= length s)%nat.
Proof. rewrite <- (span_app p s) at 2. rewrite length_app. lia. Qed.

Lemma quoted_string_cons (c d : byte) (s scratch : bytes) :
  quoted_string (c :: d :: s) scratch =
  if bool_decide (c = "\"%byte) then
    match kUnescapeMap d with
    | Some u => quoted_string s (scratch ++ [u])
    | None =>
      if bool_decide (d = "'"%byte) then quoted_string s (scratch ++ ["'"%byte])
      else quoted_string (d :: s) (scratch ++ [c])
    end
  else if bool_decide (c = "'"%byte) then (QuotedString (scratch ++ [c]), d :: s)
  else quoted_string (d :: s) (scratch ++ [c]).
Proof. done. Qed.

Lemma quoted_string_length (n : nat) : forall s scratch, (length s <= n)%nat ->
  (length (snd (quoted_string s scratch)) <= length s)%nat.
Proof.
  induction n as [|n IH]; intros [|c [|d s]] scratch Hn; cbn [length] in Hn; try (cbn; lia).
  assert (forall k, (length (snd (quoted_string s k)) <= length s)%nat) as H1 by (intros; apply IH; lia).
  assert (forall k, (length (snd (quoted_string (d :: s) k)) <= length (d :: s))%nat) as H2
    by (intros; apply IH; cbn; lia).
  rewrite quoted_string_cons. cbn [length] in *. repeat case_match; try (cbn; lia);
    first [specialize (H1 (scratch ++ [b])) | specialize (H1 (scratch ++ ["'"%byte])) | specialize (H2 (scratch ++ [c]))];
    try lia; specialize (H2 (scratch ++ [c])); lia.
Qed.

Lemma quoted_identifier_cons (q c d : byte) (s scratch : bytes) :
  quoted_identifier q (c :: d :: s) scratch =
  if bool_decide (c = "\"%byte) && bool_decide (d = q) then quoted_identifier q s (scratch ++ [q])
  else if bool_decide (c = q) then
    if bool_decide (d = q) then quoted_identifier q s (scratch ++ [q])
    else (QuotedIdentifier scratch, d :: s)
  else quoted_identifier q (d :: s) (scratch ++ [c]).
Proof. done. Qed.

Lemma quoted_identifier_length (q : byte) (n : nat) : forall s scratch, (length s <= n)%nat ->
  (length (snd (quoted_identifier q s scratch)) <= length s)%nat.
Proof.
  induction n as [|n IH]; intros [|c [|d s]] scratch Hn; cbn [length] in Hn; try (cbn; lia).
  - cbn. case_match; cbn; lia.
  - assert (forall k, (length (snd (quoted_identifier q s k)) <= length s)%nat) as H1 by (intros; apply IH; lia).
    assert (forall k, (length (snd (quoted_identifier q (d :: s) k)) <= length (d :: s))%nat) as H2
      by (intros; apply IH; cbn; lia).
    rewrite quoted_identifier_cons. specialize (H1 (scratch ++ [q])). specialize (H2 (scratch ++ [c])).
    cbn [length] in *. repeat case_match; cbn [snd length]; lia.
Qed.

Definition final (t : token) : bool := match t with EOS | Invalid => true | _ => false end.

Lemma NextToken_length (s : bytes) : final (fst (NextToken s)) = false ->
  (length (snd (NextToken s)) < length s)%nat.
Proof.
  induction s as [|c s IH]; [done|]. cbn [length NextToken].
  destruct (is_blank c); [intros E; specialize (IH E); lia|].
  do 4 (case_bool_decide; [cbn; lia|]).
  case_bool_decide; [intros _; pose proof (quoted_string_length (length s) s [c]); lia|].
  destruct (_ || _); [intros _; pose proof (quoted_identifier_length c (length s) s []); lia|].
  destruct (is_alpha c || bool_decide (c = "_"%byte)) eqn:E.
  - intros _. cbn [span]. assert (is_name_char c = true) as ->.
    { unfold is_name_char. destruct (is_alpha c), (is_digit c); cbn in *; done. }
    pose proof (span_length is_name_char s). destruct (span is_name_char s). cbn in *. lia.
  - destruct (is_digit c || bool_decide (c = "-"%byte)); [|intros Hf; discriminate Hf]. intros _. pose proof (span_length is_digit s).
    destruct (span is_digit s). cbn in *. lia.
Qed.

(** With the length of the text as fuel the loop ends, and more fuel changes nothing. *)
Lemma Parse_loop_total (b : bool) (n : nat) : forall pt s, (length (tp_rest s) < n)%nat ->
  fst (Parse_loop b n pt s) <> Throw Diverges /\
  forall m, (n <= m)%nat -> Parse_loop b m pt s = Parse_loop b n pt s.
Proof.
  induction n as [|n IH]; intros pt s Hn; [lia|].
  assert (forall tok s', Parse_token b tok pt s' <> Throw Diverges) as Hd.
  { intros tok s'. unfold Parse_token, substr, stol, open_child, pop_open, rbind. repeat case_match; congruence. }
  assert (forall s1 s2 tok, final tok = true -> Parse_token b tok pt s1 <> Ok (inl s2)) as Hf.
  { intros s1 s2 [] ?; try done. cbn. repeat case_match; congruence. }
  assert (forall s1 s2 tok, Parse_token b tok pt s1 = Ok (inl s2) -> tp_rest s2 = tp_rest s1) as Hr.
  { intros s1 s2 tok. unfold Parse_token, open_child, pop_open, rbind, upd_type.
    repeat case_match; intros; simplify_eq; done. }
  destruct (NextToken (tp_rest s)) as [tok rest] eqn:E.
  set (s1 := mkParser rest (tp_root s) (tp_type s) (tp_open s)).
  assert (forall k, Parse_loop b (S k) pt s =
    match Parse_token b tok pt s1 with
    | Ok (inl s) => Parse_loop b k (pt + 1) s
    | Ok (inr r) => (Ok r, tp_root s1)
    | Throw e => (Throw e, tp_root s1)
    end) as Heq by (intros k; cbn [Parse_loop]; by rewrite E).
  rewrite Heq. destruct (Parse_token b tok pt s1) as [[s2|r]|e] eqn:Et.
  - destruct (IH (pt + 1) s2) as [H1 H2].
    { pose proof (NextToken_length (tp_rest s)) as Hl. rewrite E in Hl. cbn in Hl.
      rewrite (Hr _ _ _ Et). unfold s1. cbn. destruct (final tok) eqn:Ef; [by apply Hf in Et|].
      specialize (Hl eq_refl). lia. }
    split; [done|]. intros [|m] Hm; [lia|]. rewrite Heq. apply H2. lia.
  - split; [done|]. intros [|m] Hm; [lia|]. by rewrite Heq.
  - split; [cbn; congruence|]. intros [|m] Hm; [lia|]. by rewrite Heq.
Qed.
