(* ===== verification/TypeNames.v ===== *)
(** * Type names round trip (types.cpp against type_parser.cpp)

    [GetName] prints a type, [Parse] reads it back: the tree built from the name
    of a well-formed type is [ast_of] that type, for nested types, enumerations
    with escaped names and tuples with quoted field names. *)

From S2P Require Import Prelude Text CityHash Types TypeParser.

Section RoundTrip.
Context (b : bool).   (** [CH_MAP_BOOL_TO_UINT8] *)

(** ** Editing the tree by paths *)

Lemma node_update (p : path) (f : TypeAst -> TypeAst) : forall t n, node_at p t = Some n ->
  node_at p (update_at p f t) = Some (f n).
Proof.
  induction p as [|i p IH]; intros t n Hn; cbn in *; [congruence|].
  destruct t as [m c nm en v vs els]. cbn in *. destruct (els !! i) as [t'|] eqn:E; [|done].
  rewrite list_lookup_alter_eq, E. cbn. by apply IH.
Qed.

Lemma update_update (p : path) (f g : TypeAst -> TypeAst) : forall t,
  update_at p f (update_at p g t) = update_at p (fun n => f (g n)) t.
Proof.
  induction p as [|i p IH]; intros t; cbn; [done|]. destruct t as [m c nm en v vs els].
  cbn. f_equal. rewrite list_alter_alter_eq. apply list_alter_ext; [|done]. intros x _. apply IH.
Qed.

Lemma update_ext (p : path) (f g : TypeAst -> TypeAst) : forall t n, node_at p t = Some n -> f n = g n ->
  update_at p f t = update_at p g t.
Proof.
  induction p as [|i p IH]; intros t n Hn Hfg; cbn in *; [congruence|].
  destruct t as [m c nm en v vs els]. cbn in *. f_equal. destruct (els !! i) as [t'|] eqn:E; [|done].
  apply list_alter_ext; [|done]. intros x Hx. rewrite E in Hx. injection Hx as <-. by eapply IH.
Qed.

(** A node's [i]-th child. *)
Definition alter_child (i : nat) (f : TypeAst -> TypeAst) (t : TypeAst) : TypeAst := update_at [i] f t.

Lemma update_child (p : path) (i : nat) (f : TypeAst -> TypeAst) : forall t,
  update_at (p ++ [i]) f t = update_at p (alter_child i f) t.
Proof.
  induction p as [|j p IH]; intros t; [done|]. cbn. destruct t as [m c nm en v vs els]. cbn.
  f_equal. apply list_alter_ext; [|done]. intros x _. apply IH.
Qed.

Lemma node_child (p : path) (i : nat) : forall t n, node_at p t = Some n ->
  node_at (p ++ [i]) t = ast_elements n !! i.
Proof.
  induction p as [|j p IH]; intros t n Hn; cbn in *.
  - injection Hn as ->. by destruct (ast_elements n !! i).
  - destruct (ast_elements t !! j) as [t'|]; [|done]. by apply IH.
Qed.

(** [with_elements n l] is [n] with its elements replaced. *)
Definition with_elements (n : TypeAst) (l : list TypeAst) : TypeAst :=
  mkTypeAst (ast_meta n) (ast_code n) (ast_name n) (ast_element_name n) (ast_value n) (ast_value_string n) l.

Lemma alter_last_child (n a : TypeAst) (l : list TypeAst) :
  alter_child (length l) (fun _ => a) (with_elements n (l ++ [TypeAst_default])) = with_elements n (l ++ [a]).
Proof.
  unfold alter_child, with_elements. cbn. f_equal.
  rewrite alter_app_r_alt, Nat.sub_diag by lia. done.
Qed.

(** ** Runs of the parser *)

(** [steps s s']: the loop goes from [s] to [s'], whatever the fuel left. *)
Definition steps (s s' : parser) : Prop :=
  exists k, (0 < k)%nat /\
    forall fuel pt, Parse_loop b (k + fuel) pt s = Parse_loop b fuel (pt + Z.of_nat k) s'.

Lemma steps_trans s1 s2 s3 : steps s1 s2 -> steps s2 s3 -> steps s1 s3.
Proof.
  intros (k1 & Hk1 & H1) (k2 & Hk2 & H2). exists (k1 + k2)%nat. split; [lia|]. intros fuel pt.
  rewrite <- Nat.add_assoc, H1, H2. f_equal. lia.
Qed.

(** One token that does not end the loop. *)
Lemma steps_token (tok : token) (txt rest : bytes) (t : TypeAst) p st s' :
  NextToken txt = (tok, rest) ->
  (forall pt, Parse_token b tok pt (mkParser rest t p st) = Ok (inl s')) ->
  steps (mkParser txt t p st) s'.
Proof.
  intros Hn Ht. exists 1%nat. split; [lia|]. intros fuel pt. cbn [Nat.add Parse_loop tp_rest tp_root tp_type tp_open].
  rewrite Hn. cbn [tp_root tp_type tp_open]. by rewrite Ht.
Qed.

(** A blank is skipped with the next token. *)
Lemma steps_blank (c : byte) (txt : bytes) (t : TypeAst) p st s' :
  is_blank c = true -> steps (mkParser txt t p st) s' -> steps (mkParser (c :: txt) t p st) s'.
Proof.
  intros Hc (k & Hk & H). exists k. split; [done|]. intros fuel pt. rewrite <- H.
  destruct (k + fuel)%nat as [|n]; [done|]. cbn [Parse_loop tp_rest tp_root tp_type tp_open NextToken].
  by rewrite Hc.
Qed.

(** ** Tokens of printed names *)

(** What may follow a name or a number: the end, or a character of neither. *)
Definition stop (R : bytes) : Prop :=
  match R with [] => True | c :: _ => is_name_char c = false end.

Lemma span_all (p : byte -> bool) (s R : bytes) : Forall (fun c => p c = true) s ->
  match R with [] => True | c :: _ => p c = false end -> span p (s ++ R) = (s, R).
Proof.
  intros Hs HR. induction Hs as [|c s Hc Hs IH]; cbn.
  - destruct R as [|c R]; [done|]. cbn. by rewrite HR.
  - by rewrite Hc, IH.
Qed.

Lemma is_name_char_eq (c : byte) : is_name_char c = is_alnum_or_under c.
Proof.
  unfold is_name_char, is_alnum_or_under, is_alpha_or_under.
  destruct (is_alpha c), (is_digit c), (bool_decide (c = "_"%byte)); done.
Qed.

Lemma alpha_first (c : byte) : is_alpha_or_under c = true ->
  is_blank c = false /\ c <> "="%byte /\ c <> "("%byte /\ c <> ")"%byte /\ c <> ","%byte /\ c <> "'"%byte /\
  c <> x22 /\ c <> "`"%byte.
Proof. by destruct c. Qed.

Lemma NextToken_name (name R : bytes) : IsPlainIdentifier name = true -> stop R ->
  NextToken (name ++ R) = (Name name, R).
Proof.
  intros Hn HR. destruct name as [|c cs]; [done|]. cbn [IsPlainIdentifier] in Hn.
  apply andb_prop in Hn as [Hc Hcs]. destruct (alpha_first c Hc) as (Hb & H1 & H2 & H3 & H4 & H5 & H6 & H7).
  cbn [app NextToken]. rewrite Hb, !bool_decide_false by done. cbn [orb].
  unfold is_alpha_or_under in Hc. rewrite Hc. change (c :: cs ++ R) with ((c :: cs) ++ R).
  rewrite span_all; [done| |done]. constructor.
  - rewrite is_name_char_eq. unfold is_alnum_or_under, is_alpha_or_under. by rewrite Hc.
  - apply Forall_forall. intros d Hd. apply list_elem_of_In in Hd. rewrite forallb_forall in Hcs.
    rewrite is_name_char_eq. by apply Hcs.
Qed.

Lemma digit_first (c : byte) : is_digit c = true \/ c = "-"%byte ->
  is_blank c = false /\ c <> "="%byte /\ c <> "("%byte /\ c <> ")"%byte /\ c <> ","%byte /\ c <> "'"%byte /\
  c <> x22 /\ c <> "`"%byte /\ is_alpha c || bool_decide (c = "_"%byte) = false /\
  is_digit c || bool_decide (c = "-"%byte) = true.
Proof. destruct c; intros [H|H]; try done. Qed.

Lemma NextToken_number (z : Z) (R : bytes) : stop R ->
  NextToken (to_string z ++ R) = (Number (to_string z), R).
Proof.
  intros HR.
  assert (forall c ds, is_digit c = true \/ c = "-"%byte -> Forall (fun c => is_digit c = true) ds ->
    NextToken ((c :: ds) ++ R) = (Number (c :: ds), R)) as H.
  { intros c ds Hc Hds. destruct (digit_first c Hc) as (Hb & H1 & H2 & H3 & H4 & H5 & H6 & H7 & H8 & H9).
    cbn [app NextToken]. rewrite Hb, !bool_decide_false by done. cbn [orb].
    rewrite H8, H9, span_all; [done|done|]. destruct R as [|r R]; [done|]. cbn in HR.
    unfold is_name_char in HR. by destruct (is_digit r), (is_alpha r). }
  unfold to_string. destruct (z <? 0).
  - destruct (dec_nonneg_digits (- z)) as (c & l & E & Hc & Hl). rewrite E. apply H; [by right|by constructor].
  - destruct (dec_nonneg_digits z) as (c & l & E & Hc & Hl). rewrite E. apply H; [by left|done].
Qed.

(** A quoted literal, escaped by the printer. *)
Lemma quoted_string_escape (s : bytes) : forall scratch R, R <> [] ->
  quoted_string (EscapeStringLiteral s ++ str "'" ++ R) scratch = (QuotedString (scratch ++ s ++ str "'"), R).
Proof.
  induction s as [|c s IH]; intros scratch R HR.
  - destruct R as [|r R]; [done|]. reflexivity.
  - change (EscapeStringLiteral (c :: s)) with (escape_char c ++ EscapeStringLiteral s).
    rewrite <- app_assoc.
    replace (scratch ++ (c :: s) ++ str "'") with ((scratch ++ [c]) ++ s ++ str "'") by (by rewrite <- app_assoc).
    rewrite <- IH by done.
    assert (exists d l, EscapeStringLiteral s ++ str "'" ++ R = d :: l) as (d & l & ->).
    { destruct (EscapeStringLiteral s) as [|d l]; cbn; eauto. }
    unfold escape_char.
    destruct c; cbn [kEscapeMap app]; rewrite quoted_string_cons;
      rewrite ?bool_decide_true, ?bool_decide_false by done; reflexivity.
Qed.

Lemma NextToken_quoted (s R : bytes) : R <> [] ->
  NextToken (str "'" ++ EscapeStringLiteral s ++ str "'" ++ R) = (QuotedString (str "'" ++ s ++ str "'"), R).
Proof. intros HR. exact (quoted_string_escape s (str "'") R HR). Qed.

(** A field name that needs quoting; a backslash would be read as an escape. *)
Lemma quoted_identifier_escape (s : bytes) : forall scratch R, x5c ∉ s -> stop R -> hd x00 R <> "`"%byte ->
  quoted_identifier "`"%byte (concat (map quote_backtick s) ++ str "`" ++ R) scratch =
  (QuotedIdentifier (scratch ++ s), R).
Proof.
  induction s as [|c s IH]; intros scratch R Hs HR Hh.
  - rewrite app_nil_r. destruct R as [|r R]; [reflexivity|].
    cbn [concat map app str String.list_byte_of_string]. cbn in Hh.
    change (str "`" ++ r :: R) with ("`"%byte :: r :: R).
    rewrite quoted_identifier_cons, (bool_decide_false ("`"%byte = "\"%byte)) by done. cbn [andb].
    rewrite bool_decide_true, bool_decide_false by done. done.
  - apply not_elem_of_cons in Hs as [Hc Hs]. cbn [map concat]. rewrite <- app_assoc.
    replace (scratch ++ c :: s) with ((scratch ++ [c]) ++ s) by (by rewrite <- app_assoc).
    rewrite <- (IH (scratch ++ [c]) R) by done.
    assert (exists d l, concat (map quote_backtick s) ++ str "`" ++ R = d :: l) as (d & l & ->).
    { destruct (concat (map quote_backtick s)) as [|d l]; cbn; eauto. }
    unfold quote_backtick. destruct (decide (c = "`"%byte)) as [->|Hn].
    + rewrite bool_decide_true by done. reflexivity.
    + rewrite bool_decide_false by done. change ([c] ++ d :: l) with (c :: d :: l).
      rewrite quoted_identifier_cons, (bool_decide_false (c = "\"%byte)) by congruence. cbn [andb].
      by rewrite bool_decide_false by done.
Qed.

(** ** The tree of a type *)

Definition num (n : Z) : TypeAst := mkTypeAst Meta.Number Code.Void [] [] n [] [].

Definition lit (s : bytes) : TypeAst := mkTypeAst Meta.Terminal Code.String [] [] 0 s [].

(** A node named [nm], with element name [en]. *)
Definition node (nm en : bytes) (els : list TypeAst) : TypeAst :=
  mkTypeAst (GetTypeMeta nm) (GetTypeCode b nm) nm en 0 [] els.

Definition enum_nodes (l : list (Z * bytes)) : list TypeAst := flat_map (fun '(v, n) => [lit n; num v]) l.

Fixpoint ast_of (en : bytes) (t : type) : TypeAst :=
  match t with
  | TSimple c => node (TypeName c) en []
  | TFixedString n => node (str "FixedString") en [num n]
  | TDateTime tz => node (str "DateTime") en (if bool_decide (tz = []) then [] else [lit tz])
  | TDateTime64 p tz =>
    node (str "DateTime64") en (num p :: if bool_decide (tz = []) then [] else [lit tz])
  | TTime64 p => node (str "Time64") en [num p]
  | TDecimal p s => node (str "Decimal") en [num p; num s]
  | TEnum c e => node (TypeName c) en (enum_nodes (value_to_name e))
  | TArray t => node (str "Array") en [ast_of [] t]
  | TNullable t => node (str "Nullable") en [ast_of [] t]
  | TTuple ts names => node (str "Tuple") en (imap (fun i f => f (nth i names [])) (map (fun t en => ast_of en t) ts))
  | TLowCardinality t => node (str "LowCardinality") en [ast_of [] t]
  | TMap k v => node (str "Map") en [ast_of [] k; ast_of [] v]
  end.

(** Field names the parser reads back. *)
Definition name_ok (n : bytes) : Prop := n <> [] /\ (IsPlainIdentifier n = true \/ x5c ∉ n).

(** Types the library's constructors build and names can carry: parameters in
    range, at least one element in a tuple or an enumeration. *)
Fixpoint wf_type (t : type) : Prop :=
  match t with
  | TSimple c => simple_code c = true /\ (b = true -> c <> Code.Bool)
  | TFixedString n => 0 <= n < 2 ^ 63
  | TDateTime tz => zlen tz < 2 ^ 62
  | TDateTime64 p tz => 0 <= p <= 18 /\ zlen tz < 2 ^ 62
  | TTime64 p => 0 <= p <= 9
  | TDecimal p s => 0 <= p < 2 ^ 63 /\ 0 <= s < 2 ^ 63
  | TEnum c e => (c = Code.Enum8 \/ c = Code.Enum16) /\ value_to_name e <> [] /\
                 Forall (fun '(v, n) => is_s 16 v /\ zlen n < 2 ^ 62) (value_to_name e) /\ enum_wf e
  | TArray t | TNullable t | TLowCardinality t => wf_type t
  | TTuple ts names => ts <> [] /\ foldr (fun t P => wf_type t /\ P) True ts /\
                       (names = [] \/ length names = length ts) /\ Forall name_ok names
  | TMap k v => wf_type k /\ wf_type v
  end.

(** ** Parsing argument lists *)

Definition fresh_node (en : bytes) (n : TypeAst) : Prop :=
  n = if bool_decide (en = []) then TypeAst_default else set_name b en TypeAst_default.

Lemma head_steps (nm en R : bytes) (root : TypeAst) p st n :
  IsPlainIdentifier nm = true -> stop R -> node_at p root = Some n -> fresh_node en n ->
  steps (mkParser (nm ++ R) root p st) (mkParser R (update_at p (fun _ => node nm en []) root) p st).
Proof.
  intros Hnm HR Hn Hf. eapply steps_token; [by apply NextToken_name|]. intros pt. cbn [Parse_token].
  unfold upd_type. cbn [tp_rest tp_root tp_type tp_open]. do 3 f_equal.
  eapply update_ext; [done|]. rewrite Hf. unfold set_name, node. destruct (decide (en = [])) as [->|E].
  - by rewrite !bool_decide_true.
  - rewrite (bool_decide_false (en = [])) by done. cbn. by rewrite bool_decide_false.
Qed.

(** [item txt a]: the text of one argument and its node. *)
Definition item (txt : bytes) (a : TypeAst) : Prop :=
  forall R root p st, stop R -> R <> [] -> node_at p root = Some TypeAst_default ->
  steps (mkParser (txt ++ R) root p st) (mkParser R (update_at p (fun _ => a) root) p st).

Definition is_sep (sep : bytes) : Prop := sep = str "," \/ sep = str ", " \/ sep = str " = ".

Inductive args : bytes -> list TypeAst -> Prop :=
| args_one txt a : item txt a -> args txt [a]
| args_more txt els sep txt' a : args txt els -> is_sep sep -> item txt' a ->
    args (txt ++ sep ++ txt') (els ++ [a]).

(** A separator closes the current argument and opens the next. *)
Lemma sep_steps (sep R : bytes) (root n : TypeAst) q p st s' :
  is_sep sep -> node_at p root = Some n ->
  steps (mkParser R (update_at p emplace_back root) (p ++ [length (ast_elements n)]) (p :: st)) s' ->
  steps (mkParser (sep ++ R) root q (p :: st)) s'.
Proof.
  intros Hs Hn H.
  assert (forall tok rest, tok = Comma \/ tok = Assign ->
    forall pt, Parse_token b tok pt (mkParser rest root q (p :: st)) =
      Ok (inl (mkParser rest (update_at p emplace_back root) (p ++ [length (ast_elements n)]) (p :: st)))) as Ht.
  { intros tok rest Htok pt. destruct Htok as [-> | ->]; cbn; unfold open_child; cbn; by rewrite Hn. }
  destruct Hs as [-> |[-> | ->]].
  - eapply steps_trans; [|exact H]. eapply steps_token; [reflexivity|]. apply Ht. by left.
  - eapply steps_trans; [|apply (steps_blank " "%byte); [done|exact H]].
    eapply steps_token; [reflexivity|]. apply Ht. by left.
  - apply (steps_blank " "%byte); [done|]. eapply steps_trans; [|apply (steps_blank " "%byte); [done|exact H]].
    eapply steps_token; [reflexivity|]. apply Ht. by right.
Qed.

Lemma sep_stop (sep R : bytes) : is_sep sep -> stop (sep ++ R) /\ sep ++ R <> [].
Proof. by intros [-> |[-> | ->]]. Qed.

Lemma args_steps (txt : bytes) (els : list TypeAst) : args txt els ->
  forall R root p st n, stop R -> R <> [] -> node_at p root = Some n -> ast_elements n = [] ->
  exists q, steps (mkParser (txt ++ R) (update_at p emplace_back root) (p ++ [0%nat]) (p :: st))
                  (mkParser R (update_at p (fun n => with_elements n els) root) q (p :: st)).
Proof.
  induction 1 as [txt a Hi|txt els sep txt' a Ha IH Hsep Hi]; intros R root p st n HR HRn Hn Hel.
  - exists (p ++ [0%nat]).
    assert (node_at (p ++ [0%nat]) (update_at p emplace_back root) = Some TypeAst_default) as Hd.
    { erewrite node_child by (by apply node_update). cbn. by rewrite Hel. }
    assert (update_at (p ++ [0%nat]) (fun _ => a) (update_at p emplace_back root) =
            update_at p (fun n => with_elements n [a]) root) as <-; [|by apply Hi].
    rewrite update_child, update_update. eapply update_ext; [done|]. unfold emplace_back. rewrite Hel.
    exact (alter_last_child n a []).
  - destruct (sep_stop sep (txt' ++ R) Hsep) as [Hst Hne]. rewrite <- !app_assoc.
    destruct (IH (sep ++ txt' ++ R) root p st n Hst Hne Hn Hel) as [q Hq].
    set (root1 := update_at p (fun n => with_elements n els) root) in *.
    assert (node_at p root1 = Some (with_elements n els)) as Hn1
      by (by apply (node_update p (fun n => with_elements n els) root n)).
    exists (p ++ [length els]). eapply steps_trans; [exact Hq|].
    eapply sep_steps; [done|exact Hn1|]. cbn [with_elements ast_elements].
    assert (node_at (p ++ [length els]) (update_at p emplace_back root1) = Some TypeAst_default) as Hd.
    { erewrite node_child by (by apply node_update). cbn. rewrite lookup_app_r, Nat.sub_diag by lia. done. }
    assert (update_at (p ++ [length els]) (fun _ => a) (update_at p emplace_back root1) =
            update_at p (fun n => with_elements n (els ++ [a])) root) as <-; [|by apply Hi].
    unfold root1. rewrite update_child, !update_update. eapply update_ext; [done|].
    exact (alter_last_child n a els).
Qed.

(** A name applied to arguments. *)
Lemma call_steps (nm en txt R : bytes) (els : list TypeAst) (root : TypeAst) p st n :
  IsPlainIdentifier nm = true -> args txt els -> node_at p root = Some n -> fresh_node en n ->
  steps (mkParser (nm ++ str "(" ++ txt ++ str ")" ++ R) root p st)
        (mkParser R (update_at p (fun _ => node nm en els) root) p st).
Proof.
  intros Hnm Ha Hn Hf. eapply steps_trans; [by eapply head_steps|].
  set (root1 := update_at p (fun _ => node nm en []) root).
  assert (node_at p root1 = Some (node nm en [])) as Hn1
    by (by apply (node_update p (fun _ => node nm en []) root n)).
  destruct (args_steps txt els Ha (str ")" ++ R) root1 p st (node nm en [])) as [q Hq]; [done..|].
  eapply steps_trans; [|eapply steps_trans; [exact Hq|]].
  - eapply steps_token; [reflexivity|]. intros pt. cbn. unfold open_child. cbn. by rewrite Hn1.
  - eapply steps_token; [reflexivity|]. intros pt. cbn. unfold pop_open. cbn.
    unfold root1. rewrite update_update. do 3 f_equal; by eapply update_ext.
Qed.

Lemma item_num (n : Z) : is_s 64 n -> item (to_string n) (num n).
Proof.
  intros Hn R root p st HR HRn Hd. eapply steps_token; [by apply NextToken_number|].
  intros pt. cbn [Parse_token]. rewrite stol_to_string by done. cbn. unfold upd_type. cbn.
  do 3 f_equal. by eapply update_ext.
Qed.

Lemma substr_quotes (s : bytes) : zlen s < 2 ^ 62 ->
  substr (str "'" ++ s ++ str "'") 1 (wrap 64 (zlen (str "'" ++ s ++ str "'") - 2)) = Ok s.
Proof.
  intros Hs. pose proof (zlen_nonneg s).
  assert (zlen (str "'" ++ s ++ str "'") = zlen s + 2) as Hl.
  { rewrite !zlen_app. change (zlen (str "'")) with 1. lia. }
  unfold substr. rewrite Hl. rewrite (wrap_id 64 (zlen s + 2 - 2)), (wrap_id 64) by (unfold is_u; lia).
  rewrite (proj2 (Z.leb_gt _ _)), (proj2 (Z.leb_gt _ _)), (proj2 (Z.eqb_neq _ _)) by lia. cbn [orb].
  f_equal. change (str "'" ++ s ++ str "'") with (["'"%byte] ++ s ++ str "'").
  change 1 with (zlen ["'"%byte]) at 1. rewrite zdrop_app_exact.
  replace (zlen s + 2 - 2) with (zlen s) by lia. apply ztake_app_exact.
Qed.

Lemma item_lit (s : bytes) : zlen s < 2 ^ 62 -> item (str "'" ++ EscapeStringLiteral s ++ str "'") (lit s).
Proof.
  intros Hs R root p st HR HRn Hd. rewrite <- !app_assoc.
  eapply steps_token; [by apply NextToken_quoted|]. intros pt. cbn [Parse_token].
  assert (zlen (str "'" ++ s ++ str "'") = zlen s + 2) as Hl.
  { rewrite !zlen_app. change (zlen (str "'")) with 1. lia. }
  pose proof (zlen_nonneg s). rewrite (proj2 (Z.ltb_ge _ _)) by lia.
  rewrite substr_quotes by done. cbn [rbind]. unfold upd_type. cbn [tp_rest tp_root tp_type tp_open].
  do 3 f_equal. by eapply update_ext.
Qed.

(** The field name of a tuple element, then its type. *)
Lemma item_named (nm txt : bytes) (a : TypeAst) : name_ok nm ->
  (forall R root p st n, stop R -> node_at p root = Some n -> fresh_node nm n ->
     steps (mkParser (txt ++ R) root p st) (mkParser R (update_at p (fun _ => a) root) p st)) ->
  item (Fieldname nm ++ str " " ++ txt) a.
Proof.
  intros [Hne Hok] H R root p st HR HRn Hd. rewrite <- !app_assoc.
  assert (NextToken (Fieldname nm ++ str " " ++ txt ++ R) = (Name nm, str " " ++ txt ++ R) \/
          NextToken (Fieldname nm ++ str " " ++ txt ++ R) = (QuotedIdentifier nm, str " " ++ txt ++ R)) as Ht.
  { unfold Fieldname. destruct (IsPlainIdentifier nm) eqn:E; [left; by apply NextToken_name|right].
    destruct Hok as [?|Hok]; [done|]. rewrite <- !app_assoc.
    exact (quoted_identifier_escape nm [] (str " " ++ txt ++ R) Hok eq_refl ltac:(done)). }
  set (root1 := update_at p (set_name b nm) root).
  assert (node_at p root1 = Some (set_name b nm TypeAst_default)) as Hn1
    by (by apply (node_update p (set_name b nm) root)).
  eapply steps_trans.
  - destruct Ht as [Ht|Ht]; (eapply steps_token; [exact Ht|]); intros pt; cbn [Parse_token]; reflexivity.
  - apply (steps_blank " "%byte); [done|].
    assert (update_at p (fun _ => a) root = update_at p (fun _ => a) root1) as ->
      by (unfold root1; by rewrite update_update).
    eapply H; [done|exact Hn1|]. unfold fresh_node. by rewrite bool_decide_false.
Qed.

(** A non-empty list of items joined by [", "]. *)
Lemma args_join (l : list (bytes * TypeAst)) (txt : bytes) (els : list TypeAst) :
  args txt els -> Forall (fun '(t, a) => item t a) l ->
  args (txt ++ concat (map (fun '(t, _) => str ", " ++ t) l)) (els ++ map snd l).
Proof.
  intros Ha Hl. revert txt els Ha. induction Hl as [|[t a] l Hi Hl IH]; intros txt els Ha; cbn [map concat].
  - by rewrite !app_nil_r.
  - cbn [snd]. change (els ++ a :: map snd l) with (els ++ [a] ++ map snd l).
    rewrite (app_assoc els), (app_assoc txt). apply IH. apply args_more; [done|by right; left|done].
Qed.

Lemma join_cons (x : bytes) (l : list bytes) :
  join (str ", ") (x :: l) = x ++ concat (map (fun t => str ", " ++ t) l).
Proof.
  revert x. induction l as [|y l IH]; intros x; [cbn; by rewrite app_nil_r|].
  change (join (str ", ") (x :: y :: l)) with (x ++ str ", " ++ join (str ", ") (y :: l)).
  rewrite IH. cbn [map concat]. by rewrite <- !app_assoc.
Qed.

Lemma args_joined (l : list (bytes * TypeAst)) : l <> [] -> Forall (fun '(t, a) => item t a) l ->
  args (join (str ", ") (map fst l)) (map snd l).
Proof.
  intros Hne Hl. destruct Hl as [|[t a] l Hi Hl]; [done|]. cbn [map fst snd]. rewrite join_cons.
  rewrite map_map. pose proof (args_join l t [a] (args_one _ _ Hi) Hl) as H.
  erewrite map_ext in H; [exact H|]. by intros [].
Qed.

Definition enum_item_ok (i : Z * bytes) : Prop := is_s 16 (fst i) /\ zlen (snd i) < 2 ^ 62.

Lemma is_s_16_64 (v : Z) : is_s 16 v -> is_s 64 v.
Proof. unfold is_s. change (16 - 1) with 15. change (64 - 1) with 63. lia. Qed.

Lemma args_enum_more (l : list (Z * bytes)) : Forall enum_item_ok l -> forall txt els, args txt els ->
  args (txt ++ concat (map (fun t => str ", " ++ t) (map enum_item_name l))) (els ++ enum_nodes l).
Proof.
  induction 1 as [|[v n] l [Hv Hn] Hl IH]; intros txt els Ha; cbn [map concat enum_nodes flat_map].
  - by rewrite !app_nil_r.
  - fold (enum_nodes l). change (els ++ [lit n; num v] ++ enum_nodes l) with (els ++ ([lit n] ++ [num v]) ++ enum_nodes l).
    rewrite (app_assoc els), (app_assoc els), (app_assoc txt). apply IH.
    unfold enum_item_name. cbn [fst snd] in *.
    replace (txt ++ str ", " ++ str "'" ++ EscapeStringLiteral n ++ str "' = " ++ to_string v)
      with ((txt ++ str ", " ++ (str "'" ++ EscapeStringLiteral n ++ str "'")) ++ str " = " ++ to_string v)
      by (rewrite <- !app_assoc; reflexivity).
    apply args_more; [apply args_more|by right; right|by apply item_num, is_s_16_64];
      [done|by right; left|by apply item_lit].
Qed.

Lemma args_enum (l : list (Z * bytes)) : l <> [] -> Forall enum_item_ok l ->
  args (join (str ", ") (map enum_item_name l)) (enum_nodes l).
Proof.
  intros Hne Hl. destruct Hl as [|[v n] l [Hv Hn] Hl]; [done|]. cbn [map]. rewrite join_cons.
  apply (args_enum_more l Hl (enum_item_name (v, n)) [lit n; num v]).
  unfold enum_item_name. cbn [fst snd] in *.
  replace (str "'" ++ EscapeStringLiteral n ++ str "' = " ++ to_string v)
    with ((str "'" ++ EscapeStringLiteral n ++ str "'") ++ str " = " ++ to_string v)
    by (rewrite <- !app_assoc; reflexivity).
  change [lit n; num v] with ([lit n] ++ [num v]).
  apply args_more; [by apply args_one, item_lit|by right; right|by apply item_num, is_s_16_64].
Qed.

(** ** The name of a type parses to its tree *)

Definition parses (t : type) : Prop := wf_type t ->
  forall en R root p st n, stop R -> node_at p root = Some n -> fresh_node en n ->
  steps (mkParser (GetName t ++ R) root p st) (mkParser R (update_at p (fun _ => ast_of en t) root) p st).

Lemma parses_item (t : type) : parses t -> wf_type t -> item (GetName t) (ast_of [] t).
Proof.
  intros Hp Hw R root p st HR _ Hd. eapply Hp; [done|done|exact Hd|]. reflexivity.
Qed.

(** [Name(txt)], with the parentheses as the printers write them. *)
Lemma call_parses (nm txt : bytes) (els : list TypeAst) : IsPlainIdentifier nm = true -> args txt els ->
  forall en R root p st n, stop R -> node_at p root = Some n -> fresh_node en n ->
  steps (mkParser ((nm ++ str "(" ++ txt ++ str ")") ++ R) root p st)
        (mkParser R (update_at p (fun _ => node nm en els) root) p st).
Proof. intros Hnm Ha en R root p st n HR Hn Hf. rewrite <- !app_assoc. by eapply call_steps. Qed.

Lemma tuple_items (ts : list type) : forall names, Forall parses ts -> foldr (fun t P => wf_type t /\ P) True ts ->
  (names = [] \/ length names = length ts) -> Forall name_ok names ->
  Forall (fun '(t, a) => item t a)
    (zip (imap (tuple_item names) (map GetName ts))
         (imap (fun i f => f (nth i names [])) (map (fun t en => ast_of en t) ts))).
Proof.
  intros names Hp Hw Hlen Hok. apply Forall_lookup. intros i [txt a] Hi.
  apply lookup_zip_Some in Hi as [H1 H2].
  apply list_lookup_imap_Some in H1 as (x & Hx & ->). apply list_lookup_imap_Some in H2 as (f & Hf & ->).
  apply list_lookup_fmap_Some in Hx as (t & -> & E). apply list_lookup_fmap_Some in Hf as (t' & -> & E').
  rewrite E in E'. injection E' as <-.
  assert (parses t) as Hpt by (rewrite Forall_lookup in Hp; eauto).
  assert (wf_type t) as Hwt.
  { clear -Hw E. revert i E. induction ts as [|x ts IH]; intros i E; [done|]. destruct Hw as [Hx Hw].
    destruct i as [|i]; [by injection E as <-|]. by eapply IH. }
  unfold tuple_item. destruct names as [|x names]; [replace (nth i [] []) with (@nil byte) by (by destruct i); by apply parses_item|].
  set (nm := nth i (x :: names) []).
  assert (name_ok nm) as Hnm.
  { rewrite Forall_forall in Hok. apply Hok. apply list_elem_of_In, nth_In.
    destruct Hlen as [?|Hlen]; [done|rewrite Hlen]. by eapply lookup_lt_Some. }
  apply item_named; [done|]. intros R root p st n HR Hn Hf. eapply Hpt; done.
Qed.

Lemma tuple_join (ts : list type) (names : list bytes) : ts <> [] ->
  Forall parses ts -> foldr (fun t P => wf_type t /\ P) True ts ->
  (names = [] \/ length names = length ts) -> Forall name_ok names ->
  args (join (str ", ") (imap (tuple_item names) (map GetName ts)))
       (imap (fun i f => f (nth i names [])) (map (fun t en => ast_of en t) ts)).
Proof.
  intros Hne Hp Hw Hlen Hok. pose proof (tuple_items ts names Hp Hw Hlen Hok) as Hi.
  apply args_joined in Hi.
  - rewrite fst_zip, snd_zip in Hi by (rewrite !length_imap, !length_map; lia). done.
  - by destruct ts.
Qed.

Lemma lit_suffix (s R : bytes) :
  EscapeStringLiteral s ++ str "'" ++ R = (EscapeStringLiteral s ++ str "'") ++ R.
Proof. apply app_assoc. Qed.

Lemma type_parses (t : type) : parses t.
Proof.
  induction t using type_ind'; intros Hw en R root q st n0 HR Hn Hf; cbn [GetName ast_of wf_type] in *.
  - apply head_steps with (n := n0); [by destruct c|done..].
  - apply (call_parses (str "FixedString") (to_string n) [num n]) with (n := n0); [done| |done..].
    apply args_one, item_num. unfold is_s. change (64 - 1) with 63. lia.
  - case_bool_decide as E; [rewrite app_nil_r; by apply head_steps with (n := n0)|].
    change (str "')") with (str "'" ++ str ")"). rewrite lit_suffix.
    apply (call_parses (str "DateTime") (str "'" ++ EscapeStringLiteral tz ++ str "'") [lit tz]) with (n := n0);
      [done| |done..]. by apply args_one, item_lit.
  - destruct Hw as [Hp Htz]. assert (is_s 64 p) by (unfold is_s; change (64 - 1) with 63; lia).
    case_bool_decide as E.
    + apply (call_parses (str "DateTime64") (to_string p) [num p]) with (n := n0); [done| |done..].
      by apply args_one, item_num.
    + rewrite (app_assoc (to_string p)).
      apply (call_parses (str "DateTime64") (to_string p ++ str ", " ++ (str "'" ++ EscapeStringLiteral tz ++ str "'"))
               ([num p] ++ [lit tz])) with (n := n0); [done| |done..].
      apply args_more; [by apply args_one, item_num|by right; left|by apply item_lit].
  - apply (call_parses (str "Time64") (to_string p) [num p]) with (n := n0); [done| |done..].
    apply args_one, item_num. unfold is_s. change (64 - 1) with 63. lia.
  - replace (str "Decimal(" ++ to_string p ++ str "," ++ to_string s ++ str ")")
      with (str "Decimal" ++ str "(" ++ (to_string p ++ str "," ++ to_string s) ++ str ")")
      by (rewrite <- !app_assoc; reflexivity).
    apply (call_parses (str "Decimal") _ ([num p] ++ [num s])) with (n := n0); [done| |done..].
    apply args_more; [apply args_one|by left|]; apply item_num; unfold is_s; change (64 - 1) with 63; lia.
  - destruct Hw as (Hc & Hne & Hl & _). unfold EnumType_GetName.
    assert (args (join (str ", ") (map enum_item_name (value_to_name e))) (enum_nodes (value_to_name e))) as Ha.
    { apply args_enum; [done|]. eapply Forall_impl; [exact Hl|]. by intros [v n] [??]. }
    destruct Hc as [-> | ->].
    + rewrite bool_decide_true by done.
      by apply (call_parses (str "Enum8") _ _) with (n := n0).
    + rewrite bool_decide_false by done.
      by apply (call_parses (str "Enum16") _ _) with (n := n0).
  - apply (call_parses (str "Array") (GetName t) [ast_of [] t]) with (n := n0); [done| |done..].
    by apply args_one, parses_item.
  - apply (call_parses (str "Nullable") (GetName t) [ast_of [] t]) with (n := n0); [done| |done..].
    by apply args_one, parses_item.
  - destruct Hw as (Hne & Hts & Hlen & Hnames).
    apply (call_parses (str "Tuple") _ _) with (n := n0); [done| |done..]. by apply tuple_join.
  - apply (call_parses (str "LowCardinality") (GetName t) [ast_of [] t]) with (n := n0); [done| |done..].
    by apply args_one, parses_item.
  - destruct Hw as [Hk Hv].
    replace (str "Map(" ++ GetName t1 ++ str ", " ++ GetName t2 ++ str ")")
      with (str "Map" ++ str "(" ++ (GetName t1 ++ str ", " ++ GetName t2) ++ str ")")
      by (rewrite <- !app_assoc; reflexivity).
    apply (call_parses (str "Map") _ ([ast_of [] t1] ++ [ast_of [] t2])) with (n := n0); [done| |done..].
    apply args_more; [by apply args_one, parses_item|by right; left|by apply parses_item].
Qed.

Lemma ValidateAST_ast_of (t : type) : wf_type t -> ValidateAST (ast_of [] t) = true.
Proof.
  intros Hw. destruct t; try reflexivity.
  - destruct Hw as [Hc _]. destruct code; try discriminate Hc; try reflexivity.
    cbn [ast_of]. unfold node, GetTypeCode, kTypeCode. by destruct b.
  - cbn in Hw. destruct Hw as ([-> | ->] & _); reflexivity.
Qed.

(** A run from the start to a state at which the loop ends. *)
Lemma Parse_steps (name : bytes) s' r :
  steps (mkParser name TypeAst_default [] [[]]) s' ->
  (forall fuel pt, 0 < pt -> Parse_loop b (S fuel) pt s' = r) -> Parse b name = r.
Proof.
  intros (k & Hk & H) Hr. unfold Parse.
  destruct (Parse_loop_total b (S (length name)) 0 (mkParser name TypeAst_default [] [[]])) as [_ Hm]; [cbn; lia|].
  rewrite <- (Hm (k + S (S (length name)))%nat) by lia. rewrite H. apply Hr. lia.
Qed.

Lemma Parse_GetName (t : type) : wf_type t -> Parse b (GetName t) = (Ok true, ast_of [] t).
Proof.
  intros Hw. pose proof (type_parses t Hw [] [] TypeAst_default [] [[]] TypeAst_default I eq_refl eq_refl) as H.
  rewrite app_nil_r in H. eapply Parse_steps; [exact H|]. intros fuel pt Hpt.
  cbn [Parse_loop tp_rest NextToken tp_root tp_type tp_open Parse_token length Nat.eqb negb update_at].
  rewrite (proj2 (Z.eqb_neq _ _)) by lia. by rewrite ValidateAST_ast_of.
Qed.
End RoundTrip.

(** ** Identity of types *)

(** ** Main results *)

(** C16. Type names round trip: the name [GetName] prints for a well-formed type
    (arbitrarily nested arrays, tuples with plain or quoted field names, maps,
    enumerations with escaped labels, parameters) is accepted by the parser, and
    the tree it builds is the tree of that type, parameter by parameter. *)
Theorem type_name_roundtrip (map_bool : bool) (t : type) (Hw : wf_type map_bool t) :
  Parse map_bool (GetName t) = (Ok true, ast_of map_bool [] t).
Proof. by apply Parse_GetName. Qed.

Lemma type_name_roundtrip_witness :
  Parse false (GetName (TTuple [TArray (TNullable (TSimple Code.String)); TDecimal 18 4] [str "a b"; str "c"])) =
  (Ok true, ast_of false [] (TTuple [TArray (TNullable (TSimple Code.String)); TDecimal 18 4] [str "a b"; str "c"])).
Proof.
  apply (type_name_roundtrip false). cbn. split; [done|].
  split; [split_and!; first [done | lia]|]. split; [right; reflexivity|].
  constructor; [split; [done|right]|constructor; [split; [done|by left]|constructor]].
  vm_compute. intros H. repeat (apply elem_of_cons in H as [H|H]; [discriminate H|]). by apply elem_of_nil in H.
Defined.

(** C38. The parser terminates on every text, well formed or not: one pass over
    the input, at most one iteration per character. *)
Theorem Parse_terminates (map_bool : bool) (name : bytes) :
  fst (Parse map_bool name) <> Throw Diverges /\
  forall fuel, (length name < fuel)%nat ->
    Parse_loop map_bool fuel 0 (mkParser name TypeAst_default [] [[]]) = Parse map_bool name.
Proof.
  destruct (Parse_loop_total map_bool (S (length name)) 0 (mkParser name TypeAst_default [] [[]])) as [H1 H2];
    [cbn; lia|].
  split; [exact H1|]. intros fuel Hf. by apply H2.
Qed.

(** Every cached tree is one the parser accepted. *)
Definition cache_ok (map_bool : bool) (cache : ast_cache) : Prop :=
  forall name ast, cache !! name = Some ast -> Parse map_bool name = (Ok true, ast).

Lemma ParseTypeName_cached (map_bool : bool) (cache : ast_cache) (name : bytes) (ok : bool) (ast : TypeAst) :
  cache_ok map_bool cache -> Parse map_bool name = (Ok ok, ast) ->
  exists cache', ParseTypeName map_bool name cache = (Ok (if ok then Some ast else None), cache') /\
    cache_ok map_bool cache' /\ (ok = true -> cache' !! name = Some ast).
Proof.
  intros Hc Hp.
  unfold ParseTypeName. destruct (cache !! name) as [a|] eqn:E.
  - rewrite (Hc _ _ E) in Hp. injection Hp as <- <-. by exists cache.
  - rewrite Hp. destruct ok.
    + eexists. split; [done|]. split; [|intros _; by rewrite lookup_insert_eq].
      intros n a Hn. apply lookup_insert_Some in Hn as [[<- <-]|[_ Hn]]; [done|by apply Hc].
    + eexists. split; [done|]. split; [|done]. intros n a Hn.
      apply lookup_delete_Some in Hn as [Hne Hn]. rewrite lookup_insert_ne in Hn by done. by apply Hc.
Qed.

(** The cache of [ParseTypeName] does not change results: as long as every
    cached tree is one the parser accepted, a call answers what a fresh parse
    answers, whether or not the name was cached, and leaves such a cache behind;
    only a call that throws may break this. *)
Lemma cache_transparent (map_bool : bool) (cache : ast_cache) (name : bytes) (ok : bool) (ast : TypeAst)
    (Hc : cache_ok map_bool cache) (Hp : Parse map_bool name = (Ok ok, ast)) :
  exists cache', ParseTypeName map_bool name cache = (Ok (if ok then Some ast else None), cache') /\
    cache_ok map_bool cache' /\ (ok = true -> cache' !! name = Some ast).
Proof.
  by apply ParseTypeName_cached.
Qed.


(** A name on which the parser throws poisons the cache: the first lookup of
    [Time64(99999999999999999999)] throws, and every later lookup returns the
    half-built tree (an empty argument) as if the name had been accepted. *)
Lemma cache_poisoned :
  let name := str "Time64(99999999999999999999)" in
  let '(r1, cache) := ParseTypeName false name ∅ in
  let '(r2, _) := ParseTypeName false name cache in
  r1 = Throw OutOfRange /\
  r2 = Ok (Some (node false (str "Time64") [] [TypeAst_default])).
Proof. vm_compute. split; reflexivity. Qed.

(** A closing parenthesis too many is not an error of the parser but
    undefined behaviour: [open_elements_.top()] on an empty stack. *)
Lemma unbalanced_undefined : forall rest,
  fst (Parse false (str "Int8))" ++ rest)) = Throw Undefined /\
  fst (Parse false (str "Int8)," ++ rest)) = Throw Undefined.
Proof. intros rest. split; reflexivity. Qed.

(** The printer does not escape backslashes in field names while the parser
    reads a backslash before a backtick as an escape: a tuple with a field
    name that ends in a backslash prints a name the parser rejects. *)
Lemma backslash_field_rejected (nm : bytes) (Hq : x60 ∉ nm) (Hb : x5c ∉ nm) :
  fst (Parse false (GetName (TTuple [TSimple Code.Int8] [nm ++ [x5c]]))) = Ok false.
Proof.
  assert (IsPlainIdentifier (nm ++ [x5c]) = false) as Hpl.
  { destruct nm as [|c nm]; [done|]. cbn. rewrite forallb_app. cbn. by rewrite andb_false_r, andb_false_r. }
  cbn [GetName map imap tuple_item nth]. unfold Fieldname. rewrite Hpl.
  assert (concat (map quote_backtick (nm ++ [x5c])) = nm ++ [x5c]) as ->.
  { rewrite map_app, concat_app. change (concat (map quote_backtick [x5c])) with [x5c].
    f_equal. clear Hpl Hb. induction nm as [|c nm IH]; [done|].
    apply not_elem_of_cons in Hq as [Hc Hq]. cbn. unfold quote_backtick at 1.
    rewrite bool_decide_false by congruence. cbn. by rewrite IH. }
  assert (forall s scratch, x60 ∉ s -> x5c ∉ s ->
    quoted_identifier "`"%byte (s ++ str "\` Int8)") scratch = (Invalid, [])) as Hqi.
  { induction s as [|c s IH]; intros scratch H1 H2; [reflexivity|].
    apply not_elem_of_cons in H1 as [H1 H1']. apply not_elem_of_cons in H2 as [H2 H2'].
    assert (exists d l, s ++ str "\` Int8)" = d :: l) as (d & l & E) by (destruct s; cbn; eauto).
    cbn [app]. specialize (IH (scratch ++ [c]) H1' H2'). rewrite E in *.
    rewrite quoted_identifier_cons, (bool_decide_false (c = "\"%byte)), (bool_decide_false (c = "`"%byte)) by congruence.
    done. }
  cbn [join]. rewrite <- !app_assoc.
  rewrite (Parse_steps false _ (mkParser (str "`" ++ nm ++ str "\` Int8)")
             (with_elements (node false (str "Tuple") [] []) [TypeAst_default]) [0%nat] [[]; []])
             (Ok false, with_elements (node false (str "Tuple") [] []) [TypeAst_default])); [done| |].
  - eapply steps_trans.
    + apply (head_steps false (str "Tuple") [] (str "(`" ++ nm ++ str "\` Int8)")) with (n := TypeAst_default); done.
    + eapply steps_token; [reflexivity|]. intros pt. reflexivity.
  - intros fuel pt _. cbn [Parse_loop tp_rest].
    assert (NextToken (str "`" ++ nm ++ str "\` Int8)") = (Invalid, [])) as -> by (exact (Hqi nm [] Hq Hb)).
    reflexivity.
Qed.

(** Type identity is total and sound: comparing two types never fails; types
    with the same code and the same name compare equal; equal types have the
    same code; and types without parameters are equal only when their codes are. *)
Lemma type_identity (a b : type) (Ha : zlen (GetName a) < 2 ^ 64) (Hb : zlen (GetName b) < 2 ^ 64) :
  exists r, IsEqual a b = Ok r /\
    (GetCode a = GetCode b -> GetName a = GetName b -> r = true) /\
    (r = true -> GetCode a = GetCode b) /\
    (simple_id (GetCode a) = true -> r = bool_decide (GetCode a = GetCode b)).
Proof.
  unfold IsEqual. destruct (GetTypeUniqueId_ok a Ha) as (ia & Ea). destruct (GetTypeUniqueId_ok b Hb) as (ib & Eb).
  rewrite Ea, Eb. cbn [rbind]. case_bool_decide as Hc.
  - eexists. split; [done|]. unfold GetTypeUniqueId in Ea, Eb. rewrite <- Hc in Eb. split_and!; [|done|].
    + intros _ Hn. rewrite Hn in Ea. rewrite Ea in Eb. injection Eb as ->. apply Z.eqb_refl.
    + intros Hs. rewrite Hs in Ea, Eb. injection Ea as <-. injection Eb as <-. apply Z.eqb_refl.
  - eexists. split; [done|]. done.
Qed.

