(* ===== verification/Columns.v ===== *)
(** * Columns (clickhouse/columns/)

    The column classes as one inductive type, with the virtual operations of
    [Column] as functions that dispatch on it.  A column is a value here and owns
    its nested columns; columns as objects that share their parts are in Sharing.v
    and SharedDictionaries.v.  Allocation failures are not modelled.  A value of a
    fixed-width type is the unsigned number its bytes encode. *)

From S2P Require Import Prelude Streams WireFormat CityHash Text Types.

#[local] Set Warnings "-register-all".

(** The classes that hold another column and delegate to it. *)
Inductive wrapper :=
| WBool | WDate | WDate32 | WDateTime | WDateTime64 | WTime | WTime64 | WDecimal
| WIPv4 | WIPv6 | WUUID | WJSON | WPoint | WRing | WPolygon | WMultiPolygon.

#[global] Instance wrapper_eq_dec : EqDecision wrapper.
Proof. solve_decision. Defined.

Inductive column : Type :=
| ColumnVector (code : Code.t) (data : list Z)
| ColumnEnum (code : Code.t) (e : EnumType) (data : list Z)
| ColumnString (items : list bytes)
| ColumnFixedString (string_size : Z) (data : bytes)
| ColumnNothing (size : Z)
| ColumnWrap (w : wrapper) (ty : type) (data : column)
| ColumnArray (data : column) (offsets : list Z)
| ColumnNullable (nested : column) (nulls : list Z)
| ColumnTuple (columns : list column) (names : list bytes)
| ColumnMap (data : column)
| ColumnLowCardinality (dictionary : column) (index_code : Code.t) (index : list Z)
    (unique_items : gmap (Z * Z) Z).

(** Induction over columns, through the columns of a tuple. *)
Section ColumnInd.
Context (P : column -> Prop).
Hypothesis HVector : forall code data, P (ColumnVector code data).
Hypothesis HEnum : forall code e data, P (ColumnEnum code e data).
Hypothesis HString : forall items, P (ColumnString items).
Hypothesis HFixedString : forall n data, P (ColumnFixedString n data).
Hypothesis HNothing : forall size, P (ColumnNothing size).
Hypothesis HWrap : forall w ty data, P data -> P (ColumnWrap w ty data).
Hypothesis HArray : forall data offsets, P data -> P (ColumnArray data offsets).
Hypothesis HNullable : forall nested nulls, P nested -> P (ColumnNullable nested nulls).
Hypothesis HTuple : forall cs names, Forall P cs -> P (ColumnTuple cs names).
Hypothesis HMap : forall data, P data -> P (ColumnMap data).
Hypothesis HLowCardinality : forall d code index u, P d -> P (ColumnLowCardinality d code index u).

Fixpoint column_ind' (c : column) : P c :=
  match c with
  | ColumnVector code data => HVector code data
  | ColumnEnum code e data => HEnum code e data
  | ColumnString items => HString items
  | ColumnFixedString n data => HFixedString n data
  | ColumnNothing size => HNothing size
  | ColumnWrap w ty data => HWrap w ty data (column_ind' data)
  | ColumnArray data offsets => HArray data offsets (column_ind' data)
  | ColumnNullable nested nulls => HNullable nested nulls (column_ind' nested)
  | ColumnTuple cs names =>
    HTuple cs names
      ((fix go cs : Forall P cs :=
          match cs with
          | [] => Forall_nil_2 P
          | c :: cs => Forall_cons_2 P c cs (column_ind' c) (go cs)
          end) cs)
  | ColumnMap data => HMap data (column_ind' data)
  | ColumnLowCardinality d code index u => HLowCardinality d code index u (column_ind' d)
  end.
End ColumnInd.

(** [sizeof(T)] of the element type. *)
Definition sizeof (c : Code.t) : nat :=
  match c with
  | Code.Int8 | Code.UInt8 | Code.Enum8 | Code.Bool => 1
  | Code.Int16 | Code.UInt16 | Code.Enum16 => 2
  | Code.Int32 | Code.UInt32 | Code.Float32 => 4
  | Code.Int64 | Code.UInt64 | Code.Float64 => 8
  | _ => 16
  end.

(** [Column::Type()]. *)
Fixpoint ColumnType (c : column) : type :=
  match c with
  | ColumnVector code _ => TSimple code
  | ColumnEnum code e _ => TEnum code e
  | ColumnString _ => TSimple Code.String
  | ColumnFixedString n _ => TFixedString n
  | ColumnNothing _ => TSimple Code.Void
  | ColumnWrap _ ty _ => ty
  | ColumnArray data _ => TArray (ColumnType data)
  | ColumnNullable nested _ => TNullable (ColumnType nested)
  | ColumnTuple cs names => TTuple (map ColumnType cs) names
  | ColumnMap (ColumnArray (ColumnTuple [k; v] _) _) => TMap (ColumnType k) (ColumnType v)
  | ColumnMap _ => TSimple Code.Void
  | ColumnLowCardinality d _ _ _ => TLowCardinality (ColumnType d)
  end.

(** ** Vectors *)

(** [std::vector::at]. *)
Definition at_ {A} (l : list A) (n : Z) : result A :=
  if n <? 0 then Throw OutOfRange
  else match l !! Z.to_nat n with Some x => Ok x | None => Throw OutOfRange end.

(** [operator\[\]] of a vector: no check. *)
Definition index_ {A} (l : list A) (n : Z) : result A :=
  if n <? 0 then Throw Undefined
  else match l !! Z.to_nat n with Some x => Ok x | None => Throw Undefined end.

Definition SliceVector {A} (vec : list A) (begin len : Z) : list A :=
  if begin <? zlen vec then ztake (Z.min len (zlen vec - begin)) (zdrop begin vec) else [].

(** [resize(n)] with zero elements. *)
Definition resize_vec (n : Z) (l : list Z) : list Z := ztake n l ++ replicate (Z.to_nat (n - zlen l)) 0.

(** The elements in memory, and back. *)
Definition to_raw (w : nat) (data : list Z) : bytes := concat (map (le_bytes w) data).

Fixpoint of_raw (w : nat) (n : nat) (b : bytes) : list Z :=
  match n with
  | O => []
  | S n => le_value (take w b) :: of_raw w n (drop w b)
  end.

(** ** Size, Clear *)

(** Rows.  A fixed string of size 0 would divide by zero. *)
Fixpoint Size (c : column) : Z :=
  match c with
  | ColumnVector _ data | ColumnEnum _ _ data => zlen data
  | ColumnString items => zlen items
  | ColumnFixedString n data => zlen data / n
  | ColumnNothing size => size
  | ColumnWrap WUUID _ data => Size data / 2
  | ColumnWrap _ _ data => Size data
  | ColumnArray _ offsets => zlen offsets
  | ColumnNullable _ nulls => zlen nulls
  | ColumnTuple cs _ => match cs with [] => 0 | c :: _ => Size c end
  | ColumnMap data => Size data
  | ColumnLowCardinality _ _ index _ => zlen index
  end.

(** ** Items *)

(** [ItemView]: a type code and the bytes viewed. *)
Definition ItemView : Type := Code.t * bytes.

(** Sizes [ItemView::ValidateData] allows; [None] is any size. *)
Definition allowed_sizes (c : Code.t) : result (option (list Z)) :=
  match c with
  | Code.Void => Ok (Some [0])
  | Code.Int8 | Code.UInt8 | Code.Enum8 | Code.Bool => Ok (Some [1])
  | Code.Int16 | Code.UInt16 | Code.Date | Code.Enum16 => Ok (Some [2])
  | Code.Int32 | Code.UInt32 | Code.Float32 | Code.DateTime | Code.Date32 | Code.IPv4
  | Code.Decimal32 | Code.Time => Ok (Some [4])
  | Code.Int64 | Code.UInt64 | Code.Float64 | Code.DateTime64 | Code.Decimal64 | Code.Time64 => Ok (Some [8])
  | Code.String | Code.FixedString | Code.JSON => Ok None
  | Code.Array | Code.Nullable | Code.Tuple | Code.LowCardinality | Code.Map => Throw AssertionError
  | Code.IPv6 | Code.UUID | Code.UInt128 | Code.Int128 | Code.Decimal128 => Ok (Some [16])
  | Code.Decimal => Ok (Some [4; 8; 16])
  | Code.Point | Code.Ring | Code.Polygon | Code.MultiPolygon => Throw UnimplementedError
  end.

Definition ValidateData (c : Code.t) (data : bytes) : result unit :=
  let! sizes := allowed_sizes c in
  match sizes with
  | None => Ok tt
  | Some l => if existsb (Z.eqb (zlen data)) l then Ok tt else Throw AssertionError
  end.

Definition ItemView_new (c : Code.t) (data : bytes) : result ItemView :=
  let! _ := ValidateData c data in Ok (c, data).

(** [ItemView{}], the NULL item. *)
Definition ItemView_null : ItemView := (Code.Void, []).

(** [ItemView::get<T>()] for a number of [w] bytes. *)
Definition item_get (w : nat) (i : ItemView) : result Z :=
  if zlen (snd i) =? Z.of_nat w then Ok (le_value (snd i)) else Throw AssertionError.

(** [ColumnFixedString::At]. *)
Definition FixedString_At (n : Z) (data : bytes) (i : Z) : result bytes :=
  let pos := wrap 64 (i * n) in
  let! _ := at_ data pos in
  Ok (ztake n (zdrop pos data)).

(** [size] bytes of the memory of a vector, from the start of its item [i]: what a view that starts there reads. *)
Definition memory_at (c : column) (i size : Z) : result bytes :=
  match c with
  | ColumnVector code data =>
    let view := ztake size (zdrop (Z.of_nat (sizeof code) * i) (to_raw (sizeof code) data)) in
    if zlen view =? size then Ok view else Throw Undefined
  | _ => Throw Undefined
  end.

(** One item of the nested column is looked up, and its view is taken twice as long. *)
Definition ColumnUUID_GetItem (item : Z -> result ItemView) (data : column) (i : Z) : result ItemView :=
  let! data_item_view := item (wrap 64 (i * 2)) in
  let! view := memory_at data (wrap 64 (i * 2)) (zlen (snd data_item_view) * 2) in
  ItemView_new Code.UUID view.

Definition ColumnNullable_GetItem (item : Z -> result ItemView) (nulls : list Z) (i : Z) : result ItemView :=
  let! n := at_ nulls i in
  if n =? 0 then item i else Ok ItemView_null.

(** A dictionary index 0 of a nullable dictionary is NULL. *)
Definition ColumnLowCardinality_GetItem (item : Z -> result ItemView) (dictionary : column) (index : list Z)
    (i : Z) : result ItemView :=
  let! di := at_ index i in
  match dictionary with
  | ColumnNullable _ _ => if di =? 0 then Ok ItemView_null else item di
  | _ => item di
  end.

Fixpoint GetItem (c : column) (i : Z) : result ItemView :=
  match c with
  | ColumnVector code data | ColumnEnum code _ data =>
    let! v := index_ data i in
    ItemView_new code (le_bytes (sizeof code) v)
  | ColumnString items => let! s := at_ items i in ItemView_new Code.String s
  | ColumnFixedString n data =>
    let! s := FixedString_At n data i in ItemView_new Code.FixedString s
  | ColumnNothing _ => Ok ItemView_null
  | ColumnWrap WUUID _ data => ColumnUUID_GetItem (GetItem data) data i
  | ColumnWrap WBool _ (ColumnVector code data) =>
    let! v := at_ data i in ItemView_new Code.Bool (le_bytes 1 v)
  | ColumnWrap (WPoint | WRing | WPolygon | WMultiPolygon) _ _ => Throw UnimplementedError
  | ColumnWrap _ ty data =>
    let! v := GetItem data i in ItemView_new (GetCode ty) (snd v)
  | ColumnNullable nested nulls => ColumnNullable_GetItem (GetItem nested) nulls i
  | ColumnArray _ _ | ColumnTuple _ _ | ColumnMap _ => Throw UnimplementedError
  | ColumnLowCardinality d _ index _ => ColumnLowCardinality_GetItem (GetItem d) d index i
  end.

(** ** LowCardinality dictionaries *)

(** [htonl] and [ntohl] on a little-endian host. *)
Definition htonl (v : Z) : Z := le_value (rev (le_bytes 4 v)).

(** [ColumnFixedString::Append]: pad with zeros, refuse what is too long. *)
Definition FixedString_Append (n : Z) (data s : bytes) : result bytes :=
  if n <? zlen s then Throw ValidationError
  else Ok (data ++ s ++ replicate (Z.to_nat (n - zlen s)) x00).

Definition FixedSizeForDictionaryType (c : Code.t) : Z :=
  match c with
  | Code.Int8 | Code.UInt8 => 1
  | Code.Int16 | Code.UInt16 | Code.Date => 2
  | Code.Int32 | Code.UInt32 | Code.Float32 | Code.DateTime | Code.Date32 | Code.IPv4 => 4
  | Code.Int64 | Code.UInt64 | Code.Float64 => 8
  | Code.Int128 | Code.UInt128 | Code.IPv6 | Code.UUID => 16
  | _ => 0
  end.

Definition ZeroItemForDictionary (c : Code.t) : result ItemView :=
  ItemView_new c (replicate (Z.to_nat (FixedSizeForDictionaryType c)) x00).

Definition GetNullItemForDictionary (d : column) : result ItemView :=
  match d with
  | ColumnNullable _ _ => Ok ItemView_null
  | _ => ZeroItemForDictionary (GetCode (ColumnType d))
  end.

Fixpoint GetDefaultItemForDictionary (d : column) : result ItemView :=
  match d with
  | ColumnNullable nested _ => GetDefaultItemForDictionary nested
  | _ => ZeroItemForDictionary (GetCode (ColumnType d))
  end.

Fixpoint AppendToDictionary (d : column) (item : ItemView) : result column :=
  match d with
  | ColumnFixedString n data =>
    let! data := FixedString_Append n data (snd item) in Ok (ColumnFixedString n data)
  | ColumnString items => Ok (ColumnString (items ++ [snd item]))
  | ColumnNullable nested nulls =>
    if bool_decide (fst item = Code.Void) then
      let! z := GetNullItemForDictionary nested in
      let! nested := AppendToDictionary nested z in
      Ok (ColumnNullable nested (nulls ++ [1]))
    else if bool_decide (GetCode (ColumnType nested) = fst item) then
      let! nested := AppendToDictionary nested item in
      Ok (ColumnNullable nested (nulls ++ [0]))
    else Throw ValidationError
  | ColumnVector code data =>
    let! v := item_get (sizeof code) item in Ok (ColumnVector code (data ++ [v]))
  | ColumnWrap WDate ty (ColumnVector code data) =>
    let! v := item_get 2 item in Ok (ColumnWrap WDate ty (ColumnVector code (data ++ [v])))
  | ColumnWrap WDate32 ty (ColumnVector code data) =>
    let! v := item_get 4 item in Ok (ColumnWrap WDate32 ty (ColumnVector code (data ++ [v])))
  | ColumnWrap WDateTime ty (ColumnVector code data) =>
    let! v := item_get 4 item in Ok (ColumnWrap WDateTime ty (ColumnVector code (data ++ [v])))
  | ColumnWrap WIPv4 ty (ColumnVector code data) =>
    let! v := item_get 4 item in Ok (ColumnWrap WIPv4 ty (ColumnVector code (data ++ [htonl (htonl v)])))
  | ColumnWrap WIPv6 ty (ColumnFixedString n data) =>
    if zlen (snd item) <? 16 then Throw Undefined
    else
      let! data := FixedString_Append n data (ztake 16 (snd item)) in
      Ok (ColumnWrap WIPv6 ty (ColumnFixedString n data))
  | ColumnWrap WUUID ty (ColumnVector code data) =>
    if zlen (snd item) <? 16 then Throw Undefined
    else Ok (ColumnWrap WUUID ty (ColumnVector code
               (data ++ [le_value (ztake 8 (snd item)); le_value (ztake 8 (zdrop 8 (snd item)))])))
  | _ => Throw ValidationError
  end.

(** The state of a [ColumnLowCardinality]. *)
Record lc := mkLC {
  lc_dict : column;             (** [dictionary_column_] *)
  lc_code : Code.t;             (** [index_->type_code] *)
  lc_index : list Z;            (** [index_->column] *)
  lc_unique : gmap (Z * Z) Z;   (** [unique_items_map_] *)
}.

Definition lc_column (l : lc) : column :=
  ColumnLowCardinality (lc_dict l) (lc_code l) (lc_index l) (lc_unique l).

(** [map.emplace(k, v)]: keeps an existing entry. *)
Definition emplace {K V} `{Countable K} (k : K) (v : V) (m : gmap K V) : gmap K V :=
  match m !! k with Some _ => m | None => <[k := v]> m end.

Definition is_index_code (c : Code.t) : bool :=
  match c with Code.UInt8 | Code.UInt16 | Code.UInt32 | Code.UInt64 => true | _ => false end.

(** The value is cast to the width of the index column. *)
Definition appendIndex (code : Code.t) (index : list Z) (item_index : Z) : result (list Z) :=
  if is_index_code code then Ok (index ++ [wrap (8 * Z.of_nat (sizeof code)) item_index])
  else Throw ValidationError.

(** [ColumnVector::Erase(pos)] of one element. *)
Definition Erase (data : list Z) (pos count : Z) : list Z :=
  let begin := Z.min pos (zlen data) in
  let last := begin + Z.min (zlen data - begin) count in
  ztake begin data ++ zdrop last data.

Definition removeLastIndex (index : list Z) : list Z := Erase index (zlen index - 1) 1.

Section LowCardinality.
(** [std::hash<std::string_view>]: unspecified by the standard. *)
Context (std_hash : bytes -> Z).

Definition computeHashKey (item : ItemView) : result (Z * Z) :=
  if bool_decide (fst item = Code.Void) then Ok (0, 0)
  else
    let! hash2 := CityHash64 (snd item) in
    Ok (std_hash (snd item), hash2).

(** Append an item, with the rollback of the [catch] block. *)
Definition AppendUnsafe (value : ItemView) : M lc unit :=
  fun l =>
    match computeHashKey value with
    | Throw e => (Throw e, l)
    | Ok key =>
      let is_new := bool_decide (lc_unique l !! key = None) in
      let unique := emplace key (Size (lc_dict l)) (lc_unique l) in
      let rolled_back := mkLC (lc_dict l) (lc_code l) (lc_index l)
                           (if is_new then delete key unique else unique) in
      match unique !! key with
      | None => (Throw Undefined, l)
      | Some di =>
        match appendIndex (lc_code l) (lc_index l) di with
        | Throw e => (Throw e, rolled_back)
        | Ok index =>
          if is_new then
            match AppendToDictionary (lc_dict l) value with
            | Ok d => (Ok tt, mkLC d (lc_code l) index unique)
            | Throw e => (Throw e, mkLC (lc_dict l) (lc_code l) (removeLastIndex index) (delete key unique))
            end
          else (Ok tt, mkLC (lc_dict l) (lc_code l) index unique)
        end
      end
    end.

Definition AppendNullItem (l : lc) : result lc :=
  let! null_item := GetNullItemForDictionary (lc_dict l) in
  let! d := AppendToDictionary (lc_dict l) null_item in
  let! key := computeHashKey null_item in
  Ok (mkLC d (lc_code l) (lc_index l) (emplace key 0 (lc_unique l))).

Definition AppendDefaultItem (l : lc) : result lc :=
  let! default_item := GetDefaultItemForDictionary (lc_dict l) in
  let! key := computeHashKey default_item in
  let! d := AppendToDictionary (lc_dict l) default_item in
  Ok (mkLC d (lc_code l) (lc_index l) (emplace key (Size (lc_dict l)) (lc_unique l))).

(** Append the items [begin, begin + n) of a source column. *)
Fixpoint AppendItems (src : column) (begin : Z) (n : nat) : M lc unit :=
  match n with
  | O => ret tt
  | S n =>
    let* item := lift_result (GetItem src begin) in
    AppendUnsafe item ;;;
    AppendItems src (begin + 1) n
  end.

Definition lc_empty (empty_dictionary : column) : lc := mkLC empty_dictionary Code.UInt32 [] ∅.

Definition run_lc (m : M lc unit) (l : lc) : result lc :=
  match m l with (Ok _, l) => Ok l | (Throw e, _) => Throw e end.

(** The constructor taking a [ColumnRef]; [clone] is an empty clone of [dictionary]. *)
Definition LowCardinality_new (clone dictionary : column) : result lc :=
  let! l := AppendDefaultItem (lc_empty clone) in
  run_lc (AppendItems dictionary 0 (Z.to_nat (Size dictionary))) l.

(** The constructor taking a [shared_ptr<ColumnNullable>]. *)
Definition LowCardinality_new_nullable (clone dictionary : column) : result lc :=
  let! l := AppendNullItem (lc_empty clone) in
  let! l := AppendDefaultItem l in
  run_lc (AppendItems dictionary 0 (Z.to_nat (Size dictionary))) l.

Definition LowCardinality_Clear (clear : column -> column) (l : lc) : result lc :=
  let l := mkLC (clear (lc_dict l)) (lc_code l) [] ∅ in
  let! l := match lc_dict l with ColumnNullable _ _ => AppendNullItem l | _ => Ok l end in
  AppendDefaultItem l.
End LowCardinality.

(** ** The virtual operations *)
Section Operations.
Context (std_hash : bytes -> Z).

(** Monadic map over a list. *)
Fixpoint mapR {A B} (f : A -> result B) (l : list A) : result (list B) :=
  match l with
  | [] => Ok []
  | x :: l => let! y := f x in let! l := mapR f l in Ok (y :: l)
  end.

(** [CloneEmpty] of a low-cardinality column, from the clone of its dictionary. *)
Definition ColumnLowCardinality_CloneEmpty (clone : result column) : result column :=
  let! d := clone in
  let! l := LowCardinality_new std_hash d d in
  Ok (lc_column l).

Fixpoint CloneEmpty (c : column) : result column :=
  match c with
  | ColumnVector code _ => Ok (ColumnVector code [])
  | ColumnEnum code e _ => Ok (ColumnEnum code e [])
  | ColumnString _ => Ok (ColumnString [])
  | ColumnFixedString n _ => Ok (ColumnFixedString n [])
  | ColumnNothing _ => Ok (ColumnNothing 0)
  | ColumnWrap w ty data => let! data := CloneEmpty data in Ok (ColumnWrap w ty data)
  | ColumnArray data _ => let! data := CloneEmpty data in Ok (ColumnArray data [])
  | ColumnNullable nested _ => let! nested := CloneEmpty nested in Ok (ColumnNullable nested [])
  | ColumnTuple cs names => let! cs := mapR CloneEmpty cs in Ok (ColumnTuple cs names)
  | ColumnMap data => let! data := CloneEmpty data in Ok (ColumnMap data)
  | ColumnLowCardinality d _ _ _ => ColumnLowCardinality_CloneEmpty (CloneEmpty d)
  end.

(** [Clear] of a dictionary column. *)
Fixpoint ClearDictionary (c : column) : column :=
  match c with
  | ColumnVector code _ => ColumnVector code []
  | ColumnEnum code e _ => ColumnEnum code e []
  | ColumnString _ => ColumnString []
  | ColumnFixedString n _ => ColumnFixedString n []
  | ColumnWrap w ty data => ColumnWrap w ty (ClearDictionary data)
  | ColumnNullable nested _ => ColumnNullable (ClearDictionary nested) []
  | c => c
  end.

Fixpoint Clear (c : column) : result column :=
  match c with
  | ColumnVector code _ => Ok (ColumnVector code [])
  | ColumnEnum code e _ => Ok (ColumnEnum code e [])
  | ColumnString _ => Ok (ColumnString [])
  | ColumnFixedString n _ => Ok (ColumnFixedString n [])
  | ColumnNothing _ => Ok (ColumnNothing 0)
  | ColumnWrap w ty data => let! data := Clear data in Ok (ColumnWrap w ty data)
  | ColumnArray data _ => let! data := Clear data in Ok (ColumnArray data [])
  | ColumnNullable nested _ => let! nested := Clear nested in Ok (ColumnNullable nested [])
  | ColumnTuple cs names => let! cs := mapR Clear cs in Ok (ColumnTuple cs names)
  | ColumnMap data => let! data := Clear data in Ok (ColumnMap data)
  | ColumnLowCardinality d code index u =>
    let! l := LowCardinality_Clear std_hash ClearDictionary (mkLC d code index u) in
    Ok (lc_column l)
  end.

(** *** Constructors that validate *)

(** The last offset, 0 if there is none. *)
Definition last_offset (offsets : list Z) : Z := default 0 (last offsets).

Fixpoint monotone (prev : Z) (offsets : list Z) : bool :=
  match offsets with
  | [] => true
  | o :: os => if o <? prev then false else monotone o os
  end.

Definition ColumnArray_new (data : column) (offsets : list Z) : result column :=
  if negb (monotone 0 offsets) then Throw ValidationError
  else if negb (Size data =? last_offset offsets) then Throw ValidationError
  else Ok (ColumnArray data offsets).

Definition ColumnNullable_new (nested : column) (nulls : list Z) : result column :=
  if negb (Size nested =? zlen nulls) then Throw ValidationError
  else Ok (ColumnNullable nested nulls).

Definition ColumnTuple_new (cs : list column) (names : list bytes) : result column :=
  let! _ := CreateTuple (map ColumnType cs) names in Ok (ColumnTuple cs names).

(** *** Arrays *)

Definition GetOffset (offsets : list Z) (n : Z) : result Z :=
  if n =? 0 then Ok 0 else at_ offsets (n - 1).

Definition GetSize (offsets : list Z) (n : Z) : result Z :=
  if n =? 0 then at_ offsets n
  else
    let! a := at_ offsets n in
    let! b := at_ offsets (n - 1) in
    Ok (wrap 64 (a - b)).

Definition AddOffset (offsets : list Z) (n : Z) : list Z :=
  match last offsets with
  | None => offsets ++ [n]
  | Some o => offsets ++ [wrap 64 (o + n)]
  end.

(** The loop of [ColumnArray::Slice] that rebuilds the offsets. *)
Fixpoint slice_offsets (offsets : list Z) (begin : Z) (n : nat) (offset : Z) : result (list Z) :=
  match n with
  | O => Ok []
  | S n =>
    let! s := GetSize offsets begin in
    let offset := wrap 64 (offset + s) in
    let! rest := slice_offsets offsets (begin + 1) n offset in
    Ok (offset :: rest)
  end.

Definition ColumnFixedString_Slice (n : Z) (data : bytes) (begin len : Z) : column :=
  if begin <? zlen data / n then
    let b := wrap 64 (begin * n) in
    let l := wrap 64 (len * n) in
    ColumnFixedString n (ztake (Z.min (zlen data - b) l) (zdrop b data))
  else ColumnFixedString n [].

(** In the definitions below [slice] is [Slice] of the nested column. *)
Definition ColumnUUID_Slice (slice : Z -> Z -> result column) (ty : type) (begin len : Z) : result column :=
  let! data := slice (wrap 64 (begin * 2)) (wrap 64 (len * 2)) in
  if Size data mod 2 =? 0 then Ok (ColumnWrap WUUID ty data) else Throw ValidationError.

Definition ColumnArray_Slice (slice : Z -> Z -> result column) (offsets : list Z) (begin len : Z) : result column :=
  if negb (len =? 0) && (zlen offsets <? wrap 64 (begin + len)) then Throw ValidationError
  else
    let! o1 := GetOffset offsets begin in
    let! o2 := GetOffset offsets (wrap 64 (begin + len)) in
    let! sliced := slice o1 (wrap 64 (o2 - o1)) in
    let! offs := slice_offsets offsets begin (Z.to_nat len) 0 in
    ColumnArray_new sliced offs.

Definition ColumnNullable_Slice (slice : Z -> Z -> result column) (nulls : list Z) (begin len : Z) : result column :=
  let! nested := slice begin len in
  ColumnNullable_new nested (SliceVector nulls begin len).

(** [self] is the sliced column itself, whose items are appended one by one. *)
Definition ColumnLowCardinality_Slice (self dictionary : column) (index : list Z) (begin len : Z) : result column :=
  let begin := Z.min begin (zlen index) in
  let len := Z.min len (zlen index - begin) in
  let! e := CloneEmpty dictionary in
  let! l := LowCardinality_new std_hash e e in
  let! l := run_lc (AppendItems std_hash self begin (Z.to_nat len)) l in
  Ok (lc_column l).

Fixpoint Slice (c : column) (begin len : Z) : result column :=
  match c with
  | ColumnVector code data => Ok (ColumnVector code (SliceVector data begin len))
  | ColumnEnum code e data => Ok (ColumnEnum code e (SliceVector data begin len))
  | ColumnString items => Ok (ColumnString (SliceVector items begin len))
  | ColumnFixedString n data => Ok (ColumnFixedString_Slice n data begin len)
  | ColumnNothing _ => Ok (ColumnNothing len)
  | ColumnWrap WUUID ty data => ColumnUUID_Slice (Slice data) ty begin len
  | ColumnWrap w ty data => let! data := Slice data begin len in Ok (ColumnWrap w ty data)
  | ColumnArray data offsets => ColumnArray_Slice (Slice data) offsets begin len
  | ColumnNullable nested nulls => ColumnNullable_Slice (Slice nested) nulls begin len
  | ColumnTuple cs names =>
    let! cs := mapR (fun c => Slice c begin len) cs in ColumnTuple_new cs names
  | ColumnMap data => let! data := Slice data begin len in Ok (ColumnMap data)
  | ColumnLowCardinality d _ index _ => ColumnLowCardinality_Slice c d index begin len
  end.

Definition GetAsColumn (data : column) (offsets : list Z) (n : Z) : result column :=
  if zlen offsets <=? n then Throw ValidationError
  else
    let! o := GetOffset offsets n in
    let! s := GetSize offsets n in
    Slice data o s.

(** *** Append *)

Fixpoint CanAppendTupleType (dst src : type) : result bool :=
  match dst, src with
  | TTuple ds _, TTuple ss _ =>
    if negb (length ds =? length ss)%nat then Ok false
    else
      (fix go ds ss :=
         match ds, ss with
         | d :: ds, s :: ss =>
           let! ok := CanAppendTupleType d s in
           if ok : bool then go ds ss else Ok false
         | _, _ => Ok true
         end) ds ss
  | _, _ => IsEqual dst src
  end.

Fixpoint CanAppendType (dst src : type) : result bool :=
  let! eq := IsEqual dst src in
  if eq : bool then Ok true
  else
    match dst with
    | TArray d => match src with TArray s => CanAppendType d s | _ => Ok false end
    | TTuple _ _ => CanAppendTupleType dst src
    | TLowCardinality d =>
      if bool_decide (GetCode src = Code.LowCardinality) then Ok false else IsEqual d src
    | TSimple Code.Bool => Ok (bool_decide (GetCode src = Code.UInt8))
    | _ => Ok false
    end.

(** Depth of nesting, the recursion measure of [Append]. *)
Fixpoint depth (c : column) : nat :=
  match c with
  | ColumnWrap _ _ d | ColumnArray d _ | ColumnNullable d _ | ColumnMap d
  | ColumnLowCardinality d _ _ _ => S (depth d)
  | ColumnTuple cs _ => S (list_max (map depth cs))
  | _ => 1
  end.

(** The loop of [ColumnArray::Append]: [AppendAsColumn] of the rows from [i] on;
    [append] appends to the nested column. *)
Fixpoint append_rows (append : column -> M column unit) (sdata : column) (soffsets : list Z)
    (n : nat) (i : Z) (data : column) (offsets : list Z) : result unit * column :=
  match n with
  | O => (Ok tt, ColumnArray data offsets)
  | S n =>
    match GetAsColumn sdata soffsets i with
    | Throw e => (Throw e, ColumnArray data offsets)
    | Ok array =>
      match CanAppendType (ColumnType data) (ColumnType array) with
      | Throw e => (Throw e, ColumnArray data offsets)
      | Ok false => (Throw ValidationError, ColumnArray data offsets)
      | Ok true =>
        match append array data with
        | (Throw e, data) => (Throw e, ColumnArray data offsets)
        | (Ok _, data) =>
          append_rows append sdata soffsets n (i + 1) data (AddOffset offsets (Size array))
        end
      end
    end
  end.

(** The loop of [ColumnTuple::Append]. *)
Fixpoint append_columns (append : column -> M column unit) (cs scs : list column) : result unit * list column :=
  match cs, scs with
  | [], _ => (Ok tt, [])
  | c :: cs, s :: scs =>
    match append s c with
    | (Throw e, c) => (Throw e, c :: cs)
    | (Ok _, c) => let '(r, cs) := append_columns append cs scs in (r, c :: cs)
    end
  | cs, [] => (Throw Undefined, cs)
  end.

(** The [Append] of each class.  A source of another class leaves the destination
    alone; [append] appends to a nested column; a throw leaves the destination as
    far as it got. *)
Definition ColumnVector_Append (code : Code.t) (data : list Z) (src : column) : column :=
  match src with
  | ColumnVector code' data' =>
    if bool_decide (code = code') then ColumnVector code (data ++ data') else ColumnVector code data
  | _ => ColumnVector code data
  end.

Definition ColumnEnum_Append (code : Code.t) (e : EnumType) (data : list Z) (src : column) : column :=
  match src with
  | ColumnEnum code' _ data' =>
    if bool_decide (code = code') then ColumnEnum code e (data ++ data') else ColumnEnum code e data
  | _ => ColumnEnum code e data
  end.

Definition ColumnString_Append (items : list bytes) (src : column) : column :=
  match src with
  | ColumnString items' => ColumnString (items ++ items')
  | _ => ColumnString items
  end.

Definition ColumnFixedString_Append (n : Z) (data : bytes) (src : column) : column :=
  match src with
  | ColumnFixedString n' data' =>
    if n =? n' then ColumnFixedString n (data ++ data') else ColumnFixedString n data
  | _ => ColumnFixedString n data
  end.

Definition ColumnNothing_Append (size : Z) (src : column) : column :=
  match src with
  | ColumnNothing size' => ColumnNothing (wrap 64 (size + size'))
  | _ => ColumnNothing size
  end.

(** [ColumnBool] takes the values of a [ColumnUInt8] too. *)
Definition ColumnBool_AppendUInt8 (ty : type) (data : column) (data' : list Z) : column :=
  match data with
  | ColumnVector code d => ColumnWrap WBool ty (ColumnVector code (d ++ data'))
  | _ => ColumnWrap WBool ty data
  end.

(** The delegating classes. *)
Definition ColumnWrap_Append (append : column -> M column unit) (w : wrapper) (ty : type) (data src : column) :
    result unit * column :=
  match src with
  | ColumnWrap w' _ data' =>
    if bool_decide (w = w') then
      let '(r, data) := append data' data in (r, ColumnWrap w ty data)
    else (Ok tt, ColumnWrap w ty data)
  | ColumnVector Code.UInt8 data' =>
    match w with
    | WBool => (Ok tt, ColumnBool_AppendUInt8 ty data data')
    | _ => (Ok tt, ColumnWrap w ty data)
    end
  | _ => (Ok tt, ColumnWrap w ty data)
  end.

Definition ColumnArray_Append (append : column -> M column unit) (data : column) (offsets : list Z) (src : column) :
    result unit * column :=
  match src with
  | ColumnArray sdata soffsets => append_rows append sdata soffsets (length soffsets) 0 data offsets
  | _ => (Ok tt, ColumnArray data offsets)
  end.

Definition ColumnNullable_Append (append : column -> M column unit) (nested : column) (nulls : list Z) (src : column) :
    result unit * column :=
  match src with
  | ColumnNullable nested' nulls' =>
    match IsEqual (ColumnType nested') (ColumnType nested) with
    | Throw e => (Throw e, ColumnNullable nested nulls)
    | Ok false => (Ok tt, ColumnNullable nested nulls)
    | Ok true =>
      match append nested' nested with
      | (Throw e, nested) => (Throw e, ColumnNullable nested nulls)
      | (Ok _, nested) => (Ok tt, ColumnNullable nested (nulls ++ nulls'))
      end
    end
  | _ => (Ok tt, ColumnNullable nested nulls)
  end.

Definition ColumnTuple_Append (append : column -> M column unit) (cs : list column) (names : list bytes) (src : column) :
    result unit * column :=
  match CanAppendTupleType (ColumnType (ColumnTuple cs names)) (ColumnType src) with
  | Throw e => (Throw e, ColumnTuple cs names)
  | Ok false => (Throw ValidationError, ColumnTuple cs names)
  | Ok true =>
    match src with
    | ColumnTuple scs _ =>
      let '(r, cs) := append_columns append cs scs in (r, ColumnTuple cs names)
    | _ => (Throw Undefined, ColumnTuple cs names)
    end
  end.

Definition ColumnMap_Append (append : column -> M column unit) (data src : column) : result unit * column :=
  match src with
  | ColumnMap data' => let '(r, data) := append data' data in (r, ColumnMap data)
  | _ => (Ok tt, ColumnMap data)
  end.

Definition ColumnLowCardinality_Append (l : lc) (src : column) : result unit * column :=
  let same :=
    match src with
    | ColumnLowCardinality d' _ _ _ => IsEqual (ColumnType (lc_dict l)) (ColumnType d')
    | _ => Ok false
    end in
  match (let! s := same in if s : bool then Ok true else IsEqual (ColumnType (lc_dict l)) (ColumnType src)) with
  | Throw e => (Throw e, lc_column l)
  | Ok false => (Ok tt, lc_column l)
  | Ok true =>
    let '(r, l) := AppendItems std_hash src 0 (Z.to_nat (Size src)) l in
    (r, lc_column l)
  end.

(** The dispatch, with fuel for the nesting. *)
Fixpoint Append_ (fuel : nat) (src : column) : M column unit :=
  fun dst =>
    match fuel with
    | O => (Throw Diverges, dst)
    | S fuel =>
      match dst with
      | ColumnVector code data => (Ok tt, ColumnVector_Append code data src)
      | ColumnEnum code e data => (Ok tt, ColumnEnum_Append code e data src)
      | ColumnString items => (Ok tt, ColumnString_Append items src)
      | ColumnFixedString n data => (Ok tt, ColumnFixedString_Append n data src)
      | ColumnNothing size => (Ok tt, ColumnNothing_Append size src)
      | ColumnWrap w ty data => ColumnWrap_Append (Append_ fuel) w ty data src
      | ColumnArray data offsets => ColumnArray_Append (Append_ fuel) data offsets src
      | ColumnNullable nested nulls => ColumnNullable_Append (Append_ fuel) nested nulls src
      | ColumnTuple cs names => ColumnTuple_Append (Append_ fuel) cs names src
      | ColumnMap data => ColumnMap_Append (Append_ fuel) data src
      | ColumnLowCardinality d code index u => ColumnLowCardinality_Append (mkLC d code index u) src
      end
    end.

Definition Append (src : column) : M column unit := fun dst => Append_ (depth dst) src dst.
End Operations.

(** ** Serialization *)

Definition JSONSerializationVersion_String : Z := 1.

Definition SharedDictionariesWithAdditionalKeys : Z := 1.

Definition NeedGlobalDictionaryBit : Z := Z.shiftl 1 8.

Definition HasAdditionalKeysBit : Z := Z.shiftl 1 9.

Definition IndexTypeMask : Z := 255.

Definition createIndexColumn (t : Z) : result Code.t :=
  if t =? 0 then Ok Code.UInt8
  else if t =? 1 then Ok Code.UInt16
  else if t =? 2 then Ok Code.UInt32
  else if t =? 3 then Ok Code.UInt64
  else Throw ValidationError.

Definition indexTypeFromIndexColumn (c : Code.t) : result Z :=
  match c with
  | Code.UInt8 => Ok 0
  | Code.UInt16 => Ok 1
  | Code.UInt32 => Ok 2
  | Code.UInt64 => Ok 3
  | _ => Throw ValidationError
  end.

Section Saving.
Context {Out : Type} `{OutputStream Out}.

Fixpoint mapM_ {A} (f : A -> M Out unit) (l : list A) : M Out unit :=
  match l with
  | [] => ret tt
  | x :: l => f x ;;; mapM_ f l
  end.

Fixpoint SavePrefix (c : column) : M Out unit :=
  match c with
  | ColumnWrap WJSON _ _ => WriteFixed 8 JSONSerializationVersion_String
  | ColumnArray data _ => SavePrefix data
  | ColumnNullable nested _ => SavePrefix nested
  | ColumnTuple cs _ => mapM_ SavePrefix cs
  | ColumnMap data => SavePrefix data
  | ColumnLowCardinality _ _ _ _ => WriteFixed 8 SharedDictionariesWithAdditionalKeys
  | _ => ret tt
  end.

Definition SaveVector (w : nat) (data : list Z) : M Out unit := WriteBytes (to_raw w data).

(** In the definitions below [save] is [SaveBody] of the nested column. *)
Definition ColumnArray_SaveBody (save : M Out unit) (size : Z) (offsets : list Z) : M Out unit :=
  SaveVector 8 offsets ;;;
  if 0 <? size then save else ret tt.

Definition ColumnNullable_SaveBody (save : M Out unit) (nulls : list Z) : M Out unit :=
  SaveVector 1 nulls ;;; save.

Definition ColumnLowCardinality_SaveBody (save : M Out unit) (dictionary_size : Z) (code : Code.t) (index : list Z) :
    M Out unit :=
  let* t := lift_result (indexTypeFromIndexColumn code) in
  WriteFixed 8 (Z.lor t HasAdditionalKeysBit) ;;;
  WriteFixed 8 dictionary_size ;;;
  save ;;;
  WriteFixed 8 (zlen index) ;;;
  SaveVector (sizeof code) index.

Fixpoint SaveBody (c : column) : M Out unit :=
  match c with
  | ColumnVector code data | ColumnEnum code _ data => SaveVector (sizeof code) data
  | ColumnString items => mapM_ WriteString items
  | ColumnFixedString _ data => WriteBytes data
  | ColumnNothing _ => throw UnimplementedError
  | ColumnWrap _ _ data => SaveBody data
  | ColumnArray data offsets => ColumnArray_SaveBody (SaveBody data) (Size data) offsets
  | ColumnNullable nested nulls => ColumnNullable_SaveBody (SaveBody nested) nulls
  | ColumnTuple cs _ => mapM_ SaveBody cs
  | ColumnMap data => SaveBody data
  | ColumnLowCardinality d code index _ =>
    ColumnLowCardinality_SaveBody
      match d with ColumnNullable nested _ => SaveBody nested | _ => SaveBody d end (Size d) code index
  end.

Definition Save (c : column) : M Out unit := SavePrefix c ;;; SaveBody c.
End Saving.

Section Loading.
Context (std_hash : bytes -> Z).
Context {I : Type} `{InputStream I}.

(** A loader yields the flag the code returns and the column afterwards. *)

(** [for (c : columns) if (!load(c)) return false; return true]. *)
Fixpoint load_all (f : column -> M I (bool * column)) (cs : list column) : M I (bool * list column) :=
  match cs with
  | [] => ret (true, [])
  | c :: cs =>
    let* '(ok, c) := f c in
    if ok : bool then
      let* '(ok, cs) := load_all f cs in ret (ok, c :: cs)
    else ret (false, c :: cs)
  end.

Definition ColumnJSON_LoadPrefix (c : column) : M I (bool * column) :=
  let* '(ok, v) := ReadFixed 8 0 in
  if negb ok then ret (false, c)
  else if negb (v =? JSONSerializationVersion_String) then throw ProtocolError
  else ret (true, c).

(** [load] is [LoadPrefix] of the nested column. *)
Definition ColumnArray_LoadPrefix (load : Z -> M I (bool * column)) (data : column) (offsets : list Z) (rows : Z) :
    M I (bool * column) :=
  if rows =? 0 then ret (true, ColumnArray data offsets)
  else let* '(ok, data) := load rows in ret (ok, ColumnArray data offsets).

Definition ColumnLowCardinality_LoadPrefix (c : column) : M I (bool * column) :=
  let* '(ok, key_version) := ReadFixed 8 0 in
  if negb ok then throw ProtocolError
  else if negb (key_version =? SharedDictionariesWithAdditionalKeys) then throw ProtocolError
  else ret (true, c).

Fixpoint LoadPrefix (c : column) (rows : Z) : M I (bool * column) :=
  match c with
  | ColumnWrap WJSON _ _ => ColumnJSON_LoadPrefix c
  | ColumnArray data offsets => ColumnArray_LoadPrefix (LoadPrefix data) data offsets rows
  | ColumnNullable nested nulls =>
    let* '(ok, nested) := LoadPrefix nested rows in ret (ok, ColumnNullable nested nulls)
  | ColumnTuple cs names =>
    let* '(ok, cs) := load_all (fun c => LoadPrefix c rows) cs in ret (ok, ColumnTuple cs names)
  | ColumnMap data => let* '(ok, data) := LoadPrefix data rows in ret (ok, ColumnMap data)
  | ColumnLowCardinality _ _ _ _ => ColumnLowCardinality_LoadPrefix c
  | _ => ret (true, c)
  end.

(** [data_.resize(rows); ReadBytes(data_.data(), rows * sizeof(T))]. *)
Definition LoadVector (w : nat) (data : list Z) (rows : Z) : M I (bool * list Z) :=
  let data := resize_vec rows data in
  let raw := to_raw w data in
  let* '(got, ok) := ReadBytes (zlen raw) in
  ret (ok, of_raw w (length data) (overwrite got raw)).

(** The loop of [ColumnString::LoadBody]; [None] is the early [return false]. *)
Fixpoint LoadStrings (n : nat) : M I (option (list bytes)) :=
  match n with
  | O => ret (Some [])
  | S n =>
    let* '(ok, len) := ReadUInt64 in
    if negb ok then ret None
    else
      let* '(s, ok) := ReadBytes len in
      if negb ok then ret None
      else
        let* rest := LoadStrings n in
        match rest with
        | None => ret None
        | Some l => ret (Some (s :: l))
        end
  end.

(** The dedup map of a loaded dictionary. *)
Fixpoint load_unique (d : column) (i : Z) (n : nat) (m : gmap (Z * Z) Z) : result (gmap (Z * Z) Z) :=
  match n with
  | O => Ok m
  | S n =>
    let! item := GetItem d i in
    let! key := computeHashKey std_hash item in
    load_unique d (i + 1) n (emplace key i m)
  end.

(** [Load] of lowcardinality.cpp: the dictionary (loaded by [load]), then the
    index; what it throws is caught by the caller. *)
Definition LoadDictionary (load : column -> Z -> M I (bool * column)) (dict : column) (rows : Z) : M I lc :=
  let* '(ok, t) := ReadFixed 8 0 in
  if negb ok then throw ProtocolError else
  let* code := lift_result (createIndexColumn (Z.land t IndexTypeMask)) in
  if negb (Z.land t NeedGlobalDictionaryBit =? 0) then throw UnimplementedError else
  if Z.land t HasAdditionalKeysBit =? 0 then throw ValidationError else
  let* '(ok, number_of_keys) := ReadFixed 8 0 in
  if negb ok then throw ProtocolError else
  let* '(ok, data) := load match dict with ColumnNullable nested _ => nested | _ => dict end number_of_keys in
  if negb ok then throw ProtocolError else
  let* '(ok, number_of_rows) := ReadFixed 8 0 in
  if negb ok then throw ProtocolError else
  if negb (number_of_rows =? rows) then throw AssertionError else
  let* '(_, index) := LoadVector (sizeof code) [] number_of_rows in
  let dict :=
    match dict with
    | ColumnNullable _ nulls =>
      ColumnNullable data (nulls ++ 1 :: replicate (Z.to_nat (Size data - 1)) 0)
    | _ => data
    end in
  let* unique := lift_result (load_unique dict 0 (Z.to_nat (Size data)) ∅) in
  ret (mkLC dict code index unique).

(** The [LoadBody] of each class; [load] is [LoadBody] of nested columns. *)
Definition ColumnString_LoadBody (items : list bytes) (rows : Z) : M I (bool * column) :=
  if rows =? 0 then ret (true, ColumnString [])
  else
    let* l := LoadStrings (Z.to_nat rows) in
    match l with
    | None => ret (false, ColumnString items)
    | Some items => ret (true, ColumnString items)
    end.

Definition ColumnFixedString_LoadBody (n : Z) (data : bytes) (rows : Z) : M I (bool * column) :=
  let data := resize (wrap 64 (n * rows)) data in
  let* '(got, ok) := ReadBytes (zlen data) in
  ret (ok, ColumnFixedString n (overwrite got data)).

Definition ColumnNothing_LoadBody (size rows : Z) : M I (bool * column) :=
  Skip rows ;;; ret (true, ColumnNothing (wrap 64 (size + rows))).

Definition ColumnArray_LoadBody (load : column -> Z -> M I (bool * column)) (data : column) (offsets : list Z) (rows : Z) :
    M I (bool * column) :=
  if rows =? 0 then ret (true, ColumnArray data offsets)
  else
    let* '(ok, offsets) := LoadVector 8 offsets rows in
    if negb ok then ret (false, ColumnArray data offsets)
    else
      let* nested_rows := lift_result (at_ offsets (rows - 1)) in
      if nested_rows =? 0 then ret (true, ColumnArray data offsets)
      else let* '(ok, data) := load data nested_rows in ret (ok, ColumnArray data offsets).

Definition ColumnNullable_LoadBody (load : column -> Z -> M I (bool * column)) (nested : column) (nulls : list Z)
    (rows : Z) : M I (bool * column) :=
  let* '(ok, nulls) := LoadVector 1 nulls rows in
  if negb ok then ret (false, ColumnNullable nested nulls)
  else let* '(ok, nested) := load nested rows in ret (ok, ColumnNullable nested nulls).

Definition ColumnTuple_LoadBody (load : column -> Z -> M I (bool * column)) (cs : list column) (names : list bytes)
    (rows : Z) : M I (bool * column) :=
  let* '(ok, cs) := load_all (fun c => load c rows) cs in ret (ok, ColumnTuple cs names).

(** Any exception makes it return false, the column untouched. *)
Definition ColumnLowCardinality_LoadBody (load : column -> Z -> M I (bool * column)) (l : lc) (rows : Z) :
    M I (bool * column) :=
  try_catch
    (let* e := lift_result (CloneEmpty std_hash (lc_dict l)) in
     let* l := LoadDictionary load e rows in
     ret (true, lc_column l))
    (fun _ => ret (false, lc_column l)).

(** The dispatch, with fuel for the nesting: a dictionary is loaded into a clone. *)
Fixpoint LoadBody_ (fuel : nat) (c : column) (rows : Z) : M I (bool * column) :=
  match fuel with
  | O => throw Diverges
  | S fuel =>
    match c with
    | ColumnVector code data =>
      let* '(ok, data) := LoadVector (sizeof code) data rows in ret (ok, ColumnVector code data)
    | ColumnEnum code e data =>
      let* '(ok, data) := LoadVector (sizeof code) data rows in ret (ok, ColumnEnum code e data)
    | ColumnString items => ColumnString_LoadBody items rows
    | ColumnFixedString n data => ColumnFixedString_LoadBody n data rows
    | ColumnNothing size => ColumnNothing_LoadBody size rows
    | ColumnWrap WUUID ty data =>
      let* '(ok, data) := LoadBody_ fuel data (wrap 64 (rows * 2)) in ret (ok, ColumnWrap WUUID ty data)
    | ColumnWrap w ty data =>
      let* '(ok, data) := LoadBody_ fuel data rows in ret (ok, ColumnWrap w ty data)
    | ColumnArray data offsets => ColumnArray_LoadBody (LoadBody_ fuel) data offsets rows
    | ColumnNullable nested nulls => ColumnNullable_LoadBody (LoadBody_ fuel) nested nulls rows
    | ColumnTuple cs names => ColumnTuple_LoadBody (LoadBody_ fuel) cs names rows
    | ColumnMap data => let* '(ok, data) := LoadBody_ fuel data rows in ret (ok, ColumnMap data)
    | ColumnLowCardinality d code index u => ColumnLowCardinality_LoadBody (LoadBody_ fuel) (mkLC d code index u) rows
    end
  end.

Definition LoadBody (c : column) (rows : Z) : M I (bool * column) := LoadBody_ (depth c) c rows.

Definition Load (c : column) (rows : Z) : M I (bool * column) :=
  let* '(ok, c) := LoadPrefix c rows in
  if ok then LoadBody c rows else ret (false, c).
End Loading.

(** Open the methods of the classes after unfolding a dispatch. *)
Ltac open_item := unfold ColumnUUID_GetItem, ColumnNullable_GetItem, ColumnLowCardinality_GetItem in *.
Ltac open_clone := unfold ColumnLowCardinality_CloneEmpty in *.
Ltac open_slice :=
  unfold ColumnFixedString_Slice, ColumnUUID_Slice, ColumnArray_Slice, ColumnNullable_Slice,
    ColumnLowCardinality_Slice in *.
Ltac open_append :=
  unfold ColumnVector_Append, ColumnEnum_Append, ColumnString_Append, ColumnFixedString_Append, ColumnNothing_Append,
    ColumnWrap_Append, ColumnArray_Append, ColumnNullable_Append, ColumnTuple_Append, ColumnMap_Append in *.
Ltac open_save := unfold ColumnArray_SaveBody, ColumnNullable_SaveBody, ColumnLowCardinality_SaveBody in *.
Ltac open_prefix := unfold ColumnJSON_LoadPrefix, ColumnArray_LoadPrefix, ColumnLowCardinality_LoadPrefix in *.
Ltac open_load :=
  unfold ColumnString_LoadBody, ColumnFixedString_LoadBody, ColumnNothing_LoadBody, ColumnArray_LoadBody,
    ColumnNullable_LoadBody, ColumnTuple_LoadBody, ColumnLowCardinality_LoadBody in *.
