(* ===== verification/ColumnRows.v ===== *)
(** * Columns as sequences of rows

    The abstract contract of a column: it is a list of values.  [rows] reads the
    list off the stored representation (flat vectors, offsets, null maps,
    dictionaries), [wf_col] is the representation invariant, and the operations
    are shown to refine the list operations. *)

From S2P Require Import Prelude Streams WireFormat CityHash Text Types Columns.

#[local] Set Warnings "-register-all".

(** ** Values *)

Inductive val : Type :=
| VNum (z : Z)
| VStr (s : bytes)
| VUnit
| VNullable (null : Z) (v : val)   (** the flag, and the value stored under it *)
| VList (l : list val)
| VTuple (l : list val).

Fixpoint chunks (n k : nat) (b : bytes) : list bytes :=
  match k with
  | O => []
  | S k => take n b :: chunks n k (drop n b)
  end.

Fixpoint pairs (l : list val) : list val :=
  match l with
  | a :: b :: l => VTuple [a; b] :: pairs l
  | _ => []
  end.

(** Consecutive segments of [l] that end at the given offsets. *)
Fixpoint segments (prev : Z) (offsets : list Z) (l : list val) : list val :=
  match offsets with
  | [] => []
  | o :: os => VList (ztake (o - prev) l) :: segments o os (zdrop (o - prev) l)
  end.

Fixpoint transpose (ls : list (list val)) : list (list val) :=
  match ls with
  | [] => []
  | [l] => map (fun x => [x]) l
  | l :: ls => zip_with cons l (transpose ls)
  end.

Fixpoint rows (c : column) : list val :=
  match c with
  | ColumnVector _ data | ColumnEnum _ _ data => map VNum data
  | ColumnString items => map VStr items
  | ColumnFixedString n data => map VStr (chunks (Z.to_nat n) (Z.to_nat (zlen data / n)) data)
  | ColumnNothing size => replicate (Z.to_nat size) VUnit
  | ColumnWrap WUUID _ data => pairs (rows data)
  | ColumnWrap _ _ data => rows data
  | ColumnArray data offsets => segments 0 offsets (rows data)
  | ColumnNullable nested nulls => zip_with VNullable nulls (rows nested)
  | ColumnTuple cs _ => map VTuple (transpose (map rows cs))
  | ColumnMap data => rows data
  | ColumnLowCardinality d _ index _ => map (fun i => default VUnit (rows d !! Z.to_nat i)) index
  end.

(** ** The representation invariant *)

Definition vector_code (c : Code.t) : bool :=
  match c with
  | Code.Int8 | Code.Int16 | Code.Int32 | Code.Int64 | Code.Int128 | Code.UInt8 | Code.UInt16
  | Code.UInt32 | Code.UInt64 | Code.UInt128 | Code.Float32 | Code.Float64 => true
  | _ => false
  end.

Definition enum_code (c : Code.t) : bool :=
  match c with Code.Enum8 | Code.Enum16 => true | _ => false end.

Definition fits_width (w : nat) (v : Z) : Prop := 0 <= v < 256 ^ Z.of_nat w.

(** The type of the column a delegating class holds. *)
Definition wrapped_type (w : wrapper) (ty : type) : option type :=
  match w, ty with
  | WBool, TSimple Code.Bool => Some (TSimple Code.UInt8)
  | WDate, TSimple Code.Date => Some (TSimple Code.UInt16)
  | WDate32, TSimple Code.Date32 => Some (TSimple Code.Int32)
  | WDateTime, TDateTime _ => Some (TSimple Code.UInt32)
  | WDateTime64, TDateTime64 p _ => Some (TDecimal 18 p)
  | WTime, TSimple Code.Time => Some (TSimple Code.Int32)
  | WTime64, TTime64 _ => Some (TSimple Code.Int64)
  | WDecimal, TDecimal p _ =>
    Some (TSimple (if p <=? 9 then Code.Int32 else if p <=? 18 then Code.Int64 else Code.Int128))
  | WIPv4, TSimple Code.IPv4 => Some (TSimple Code.UInt32)
  | WIPv6, TSimple Code.IPv6 => Some (TFixedString 16)
  | WUUID, TSimple Code.UUID => Some (TSimple Code.UInt64)
  | WJSON, TSimple Code.JSON => Some (TSimple Code.String)
  | WPoint, TSimple Code.Point => Some (TTuple [TSimple Code.Float64; TSimple Code.Float64] [])
  | WRing, TSimple Code.Ring => Some (TArray (TSimple Code.Point))
  | WPolygon, TSimple Code.Polygon => Some (TArray (TSimple Code.Ring))
  | WMultiPolygon, TSimple Code.MultiPolygon => Some (TArray (TSimple Code.Polygon))
  | _, _ => None
  end.

(** What a dictionary can hold. *)
Definition dict_item (d : column) : bool :=
  match d with
  | ColumnVector _ _ | ColumnString _ | ColumnFixedString _ _ => true
  | ColumnWrap (WDate | WDate32 | WDateTime | WIPv4 | WIPv6 | WUUID) _ _ => true
  | _ => false
  end.

(** A nullable dictionary has NULL as its first item, and only there. *)
Definition dict_ok (d : column) : Prop :=
  match d with
  | ColumnNullable nested nulls =>
    dict_item nested = true /\ nulls = 1 :: replicate (Z.to_nat (Size nested - 1)) 0
  | d => dict_item d = true
  end.

(** Every type the type check of a tuple compares has a name. *)
Fixpoint leaves_fit (t : type) : Prop :=
  match t with
  | TTuple ts _ => foldr (fun t P => leaves_fit t /\ P) True ts
  | t => name_fits t
  end.

Fixpoint wf_col (c : column) : Prop :=
  match c with
  | ColumnVector code data => vector_code code = true /\ Forall (fits_width (sizeof code)) data
  | ColumnEnum code _ data => enum_code code = true /\ Forall (fits_width (sizeof code)) data
  | ColumnString items => Forall (fun s => zlen s < 2 ^ 64) items
  | ColumnFixedString n data => 0 < n /\ zlen data mod n = 0 /\ zlen data < 2 ^ 64
  | ColumnNothing size => is_u 64 size
  | ColumnWrap w ty data =>
    wrapped_type w ty = Some (ColumnType data) /\ wf_col data /\
    (w = WUUID -> Size data mod 2 = 0 /\ Size data < 2 ^ 64)
  | ColumnArray data offsets =>
    wf_col data /\ monotone 0 offsets = true /\ last_offset offsets = Size data /\
    Size data < 2 ^ 64 /\ zlen offsets < 2 ^ 64 /\ name_fits (ColumnType data)
  | ColumnNullable nested nulls =>
    wf_col nested /\ zlen nulls = Size nested /\ Forall (fits_width 1) nulls /\
    name_fits (ColumnType nested)
  | ColumnTuple cs names =>
    foldr (fun c P => wf_col c /\ P) True cs /\
    Forall (fun d => Size d = Size c) cs /\
    CreateTuple (map ColumnType cs) names = Ok (TTuple (map ColumnType cs) names) /\
    leaves_fit (ColumnType c)
  | ColumnMap data =>
    wf_col data /\ exists k v offsets, data = ColumnArray (ColumnTuple [k; v] []) offsets
  | ColumnLowCardinality d code index _ =>
    wf_col d /\ dict_ok d /\ is_index_code code = true /\
    Forall (fun i => 0 <= i < Size d /\ fits_width (sizeof code) i) index /\
    1 <= Size d < 2 ^ 64 /\ zlen index < 2 ^ 64
  end.

(** The invariant of a concrete column. *)
Ltac wf_auto :=
  cbn [wf_col foldr leaves_fit ColumnType map];
  repeat match goal with
  | |- _ /\ _ => split
  | |- True => exact Logic.I
  | |- Forall _ [] => apply Forall_nil_2
  | |- Forall _ (_ :: _) => apply Forall_cons_2
  | |- fits_width _ _ => unfold fits_width
  | |- is_u _ _ => unfold is_u
  | |- name_fits _ => unfold name_fits
  | |- exists _, _ => eexists
  | |- _ -> _ => intros
  | |- _ < _ => vm_compute; reflexivity
  | |- _ <= _ => vm_compute; discriminate
  | |- _ => reflexivity
  end.

(** A type mentions a code. *)
Fixpoint mentions (code : Code.t) (t : type) : bool :=
  bool_decide (GetCode t = code) ||
  match t with
  | TArray t | TNullable t | TLowCardinality t => mentions code t
  | TTuple ts _ => existsb (mentions code) ts
  | TMap k v => mentions code k || mentions code v
  | _ => false
  end.

(** Values stored, nested ones and bytes of strings included. *)
Fixpoint vweight (v : val) : Z :=
  match v with
  | VNum _ | VUnit => 1
  | VStr s => 1 + zlen s
  | VNullable _ v => 1 + vweight v
  | VList l | VTuple l => 1 + foldr (fun v n => vweight v + n) 0 l
  end.

Definition weight (l : list val) : Z := foldr (fun v n => vweight v + n) 0 l.

(** ** Lists *)

Lemma ztake_take {A} (n : Z) (l : list A) : ztake n l = take (Z.to_nat n) l.
Proof.
  unfold ztake, zlen. destruct (Z.le_ge_cases n (Z.of_nat (length l))).
  - by rewrite Z.min_l.
  - rewrite Z.min_r, Nat2Z.id, !take_ge by lia. done.
Qed.

Lemma zdrop_drop {A} (n : Z) (l : list A) : zdrop n l = drop (Z.to_nat n) l.
Proof.
  unfold zdrop, zlen. destruct (Z.le_ge_cases n (Z.of_nat (length l))).
  - by rewrite Z.min_l.
  - rewrite Z.min_r, Nat2Z.id, !drop_ge by lia. done.
Qed.

Lemma ztake_map {A B} (f : A -> B) (n : Z) (l : list A) : ztake n (map f l) = map f (ztake n l).
Proof. by rewrite !ztake_take, firstn_map. Qed.

Lemma zdrop_map {A B} (f : A -> B) (n : Z) (l : list A) : zdrop n (map f l) = map f (zdrop n l).
Proof. by rewrite !zdrop_drop, skipn_map. Qed.

Lemma zlen_map {A B} (f : A -> B) (l : list A) : zlen (map f l) = zlen l.
Proof. unfold zlen. by rewrite length_map. Qed.

#[export] Hint Rewrite @zlen_map @zlen_replicate : zlen.

Lemma Forall_ztake {A} (P : A -> Prop) (n : Z) (l : list A) : Forall P l -> Forall P (ztake n l).
Proof. rewrite ztake_take. apply Forall_take. Qed.

Lemma Forall_zdrop {A} (P : A -> Prop) (n : Z) (l : list A) : Forall P l -> Forall P (zdrop n l).
Proof. rewrite zdrop_drop. apply Forall_drop. Qed.

(** The rows [b, b + n) of a list. *)
Definition zslice {A} (b n : Z) (l : list A) : list A := ztake n (zdrop b l).

Lemma zlen_zslice {A} (b n : Z) (l : list A) : 0 <= b -> 0 <= n -> b + n <= zlen l -> zlen (zslice b n l) = n.
Proof. intros. unfold zslice. rewrite zlen_ztake, zlen_zdrop by lia. lia. Qed.

Lemma zslice_map {A B} (f : A -> B) (b n : Z) (l : list A) : zslice b n (map f l) = map f (zslice b n l).
Proof. unfold zslice. by rewrite zdrop_map, ztake_map. Qed.

Lemma zslice_zip {A B C} (f : A -> B -> C) (b n : Z) (l : list A) (k : list B) :
  zslice b n (zip_with f l k) = zip_with f (zslice b n l) (zslice b n k).
Proof. unfold zslice. by rewrite !ztake_take, !zdrop_drop, zip_with_drop, zip_with_take. Qed.

Lemma Forall_zslice {A} (P : A -> Prop) (b n : Z) (l : list A) : Forall P l -> Forall P (zslice b n l).
Proof. intros. by apply Forall_ztake, Forall_zdrop. Qed.

Lemma SliceVector_zslice {A} (l : list A) (b n : Z) : 0 <= b -> 0 <= n -> b + n <= zlen l ->
  SliceVector l b n = zslice b n l.
Proof.
  intros. unfold SliceVector, zslice. destruct (Z.ltb_spec b (zlen l)).
  - by rewrite Z.min_l by lia.
  - replace n with 0 by lia. by rewrite ztake_0.
Qed.

(** *** Fixed-size chunks *)

Lemma length_chunks (n k : nat) (b : bytes) : length (chunks n k b) = k.
Proof. revert b. induction k; intros; cbn; auto. Qed.

Lemma chunks_take (n j k : nat) : forall b, (j <= k)%nat -> take j (chunks n k b) = chunks n j (take (n * j) b).
Proof.
  revert k. induction j as [|j IH]; intros [|k] b Hj; cbn [chunks take]; try done; [lia|].
  rewrite take_take, skipn_firstn_comm, IH by lia. do 2 f_equal; [lia|f_equal; lia].
Qed.

Lemma chunks_drop (n j k : nat) : forall b, drop j (chunks n k b) = chunks n (k - j) (drop (n * j) b).
Proof.
  revert k. induction j as [|j IH]; intros [|k] b; cbn [chunks drop Nat.sub]; try done.
  - by rewrite Nat.mul_0_r, drop_0.
  - rewrite IH, drop_drop. do 2 f_equal. lia.
Qed.

Lemma chunks_app (n j k : nat) : forall a b, length a = (n * j)%nat ->
  chunks n (j + k) (a ++ b) = chunks n j a ++ chunks n k b.
Proof.
  induction j as [|j IH]; intros a b Ha; cbn [chunks Nat.add app].
  - rewrite Nat.mul_0_r in Ha. by apply nil_length_inv in Ha as ->.
  - rewrite take_app_le, drop_app_le, IH; [done|rewrite length_drop; lia|lia|lia].
Qed.

(** *** Pairs *)

(** ** The view of a UUID *)

Lemma to_raw_pair (w : nat) (l : list Z) (j : nat) (x y : Z) : l !! j = Some x -> l !! S j = Some y ->
  exists a b, to_raw w l = a ++ (le_bytes w x ++ le_bytes w y) ++ b /\ length a = (w * j)%nat.
Proof.
  unfold to_raw. intros Hx Hy. exists (concat (map (le_bytes w) (take j l))), (concat (map (le_bytes w) (drop (S (S j)) l))). split.
  - rewrite <- (take_drop j l) at 1. rewrite (drop_S l x j Hx), (drop_S l y (S j) Hy), map_app, concat_app. cbn [map concat].
    by rewrite <- !app_assoc.
  - apply lookup_lt_Some in Hx. rewrite <- (length_take_le l j) at 2 by lia. generalize (take j l) as k.
    induction k as [|v k IH]; [cbn; lia|]. cbn [map concat length]. rewrite length_app, length_le_bytes, IH. lia.
Qed.

Lemma uuid_item (ty : type) (l : list Z) (i x y : Z) : 0 <= i -> i * 2 < 2 ^ 64 ->
  l !! Z.to_nat (i * 2) = Some x -> l !! Z.to_nat (i * 2 + 1) = Some y ->
  GetItem (ColumnWrap WUUID ty (ColumnVector Code.UInt64 l)) i = Ok (Code.UUID, le_bytes 8 x ++ le_bytes 8 y).
Proof.
  intros Hi Hb Hx Hy. cbn [GetItem]. unfold ColumnUUID_GetItem. rewrite wrap_id by (unfold is_u; lia). unfold index_.
  rewrite (proj2 (Z.ltb_ge _ _)), Hx by lia. cbn [rbind]. unfold ItemView_new at 1, ValidateData. cbn [allowed_sizes rbind existsb sizeof].
  rewrite zlen_le_bytes. change (Z.of_nat 8 =? 8) with true. cbn [orb rbind snd]. rewrite zlen_le_bytes.
  change (Z.of_nat 8 * 2) with 16. cbn [memory_at sizeof].
  replace (Z.to_nat (i * 2 + 1)) with (S (Z.to_nat (i * 2))) in Hy by lia.
  destruct (to_raw_pair 8 l _ x y Hx Hy) as (a & b & -> & Ha).
  replace (Z.of_nat 8 * (i * 2)) with (zlen a) by (unfold zlen; lia). rewrite zdrop_app_exact.
  assert (zlen (le_bytes 8 x ++ le_bytes 8 y) = 16) as Hu by (rewrite zlen_app, !zlen_le_bytes; done).
  rewrite <- Hu, ztake_app_exact, Z.eqb_refl. cbn [rbind]. unfold ItemView_new, ValidateData.
  cbn [allowed_sizes rbind existsb]. by rewrite Hu.
Qed.

Lemma pairs_length (k : nat) : forall l, length l = (2 * k)%nat -> length (pairs l) = k.
Proof.
  induction k as [|k IH]; intros [|a [|b l]] Hl; cbn [length pairs] in *; try lia.
  rewrite IH; lia.
Qed.

Lemma pairs_take (k : nat) : forall l, take k (pairs l) = pairs (take (2 * k) l).
Proof.
  induction k as [|k IH]; intros [|a [|b l]]; try done.
  - by replace (2 * S k)%nat with (S (S (2 * k))) by lia.
  - replace (2 * S k)%nat with (S (S (2 * k))) by lia. cbn [pairs take]. by rewrite IH.
Qed.

Lemma pairs_drop (k : nat) : forall l, drop k (pairs l) = pairs (drop (2 * k) l).
Proof.
  induction k as [|k IH]; intros [|a [|b l]]; try done.
  - replace (2 * S k)%nat with (S (S (2 * k))) by lia. done.
  - replace (2 * S k)%nat with (S (S (2 * k))) by lia. cbn [pairs drop]. by rewrite IH.
Qed.

Lemma pairs_app (k : nat) : forall l m, length l = (2 * k)%nat -> pairs (l ++ m) = pairs l ++ pairs m.
Proof.
  induction k as [|k IH]; intros [|a [|b l]] m Hl; cbn [length pairs app] in *; try lia; [done|].
  rewrite IH by lia. done.
Qed.

(** *** Transposition *)

Lemma transpose_cons (l m : list val) (ls : list (list val)) :
  transpose (l :: m :: ls) = zip_with cons l (transpose (m :: ls)).
Proof. done. Qed.

Lemma transpose_slice (b n : Z) (ls : list (list val)) :
  zslice b n (transpose ls) = transpose (map (zslice b n) ls).
Proof.
  induction ls as [|l [|m ls] IH].
  - unfold zslice. cbn. by rewrite !ztake_take, !zdrop_drop, drop_nil, take_nil.
  - apply zslice_map.
  - rewrite transpose_cons, zslice_zip, IH. done.
Qed.

Lemma transpose_length (n : nat) (ls : list (list val)) : ls <> [] -> Forall (fun l => length l = n) ls ->
  length (transpose ls) = n.
Proof.
  intros Hne Hl. induction Hl as [|l ls Hl Hls IH]; [done|]. destruct ls as [|m ls].
  - by cbn; rewrite length_map.
  - rewrite transpose_cons, length_zip_with, IH by done. lia.
Qed.

Lemma transpose_app (n : nat) (ls ms : list (list val)) : Forall (fun l => length l = n) ls ->
  length ls = length ms ->
  transpose (zip_with app ls ms) = transpose ls ++ transpose ms.
Proof.
  intros Hl. revert ms. induction Hl as [|l ls Hl Hls IH]; intros [|m ms] Hlen; try done.
  destruct ls as [|l2 ls], ms as [|m2 ms]; try done.
  - cbn. by rewrite map_app.
  - cbn [zip_with]. rewrite !transpose_cons.
    change ((l2 ++ m2) :: zip_with app ls ms) with (zip_with app (l2 :: ls) (m2 :: ms)).
    rewrite IH, zip_with_app; [done| |naive_solver].
    by rewrite (transpose_length n).
Qed.

(** *** Offsets and segments *)

(** The last of [os], or [p]. *)
Definition lastd (p : Z) (os : list Z) : Z := default p (last os).

Lemma lastd_cons (p o : Z) (os : list Z) : lastd p (o :: os) = lastd o os.
Proof. unfold lastd. rewrite last_cons. by destruct (last os). Qed.

Lemma lastd_app (p : Z) (os ps : list Z) : lastd p (os ++ ps) = lastd (lastd p os) ps.
Proof. revert p. induction os as [|o os IH]; intros p; [done|]. cbn [app]. by rewrite !lastd_cons, IH. Qed.

Lemma monotone_cons (p o : Z) (os : list Z) : monotone p (o :: os) = true <-> p <= o /\ monotone o os = true.
Proof. cbn. destruct (Z.ltb_spec o p); (split; [done || (intros; split; [lia|done])|intros []; (done || lia)]). Qed.

Lemma monotone_app (p : Z) (os ps : list Z) :
  monotone p (os ++ ps) = true <-> monotone p os = true /\ monotone (lastd p os) ps = true.
Proof.
  revert p. induction os as [|o os IH]; intros p; [by split; [|intros []]|].
  cbn [app]. rewrite !monotone_cons, IH, lastd_cons. tauto.
Qed.

Lemma monotone_last (p : Z) (os : list Z) : monotone p os = true -> p <= lastd p os.
Proof.
  revert p. induction os as [|o os IH]; intros p; [unfold lastd; cbn; lia|].
  rewrite monotone_cons, lastd_cons. intros [? ?%IH]. lia.
Qed.

Lemma monotone_range (p : Z) (os : list Z) : monotone p os = true -> Forall (fun o => p <= o <= lastd p os) os.
Proof.
  revert p. induction os as [|o os IH]; intros p; [done|].
  rewrite monotone_cons, lastd_cons. intros [? H]. pose proof (monotone_last _ _ H).
  constructor; [lia|]. eapply Forall_impl; [by apply IH|]. cbn. lia.
Qed.

Lemma monotone_shift (k p : Z) (os : list Z) : monotone (k + p) (map (Z.add k) os) = monotone p os.
Proof.
  revert p. induction os as [|o os IH]; intros p; [done|]. cbn [map monotone]. rewrite IH.
  destruct (Z.ltb_spec o p), (Z.ltb_spec (k + o) (k + p)); (done || lia).
Qed.

Lemma lastd_shift (k p : Z) (os : list Z) : lastd (k + p) (map (Z.add k) os) = k + lastd p os.
Proof. revert p. induction os as [|o os IH]; intros p; [done|]. cbn [map]. by rewrite !lastd_cons, IH. Qed.

Lemma segments_length (p : Z) (os : list Z) (l : list val) : length (segments p os l) = length os.
Proof. revert p l. induction os; intros; cbn; auto. Qed.

Lemma segments_shift (k p : Z) (os : list Z) (l : list val) :
  segments (k + p) (map (Z.add k) os) l = segments p os l.
Proof.
  revert p l. induction os as [|o os IH]; intros p l; [done|]. cbn [map segments].
  rewrite IH. by replace (k + o - (k + p)) with (o - p) by lia.
Qed.

Lemma segments_app (p : Z) (os ps : list Z) (l : list val) : monotone p os = true ->
  segments p (os ++ ps) l = segments p os l ++ segments (lastd p os) ps (zdrop (lastd p os - p) l).
Proof.
  revert p l. induction os as [|o os IH]; intros p l.
  - intros _. unfold lastd. cbn. by rewrite Z.sub_diag, zdrop_0.
  - rewrite monotone_cons. intros [Hp Ho]. cbn [app segments]. rewrite IH, lastd_cons by done.
    pose proof (monotone_last _ _ Ho). rewrite zdrop_zdrop by lia.
    by replace (o - p + (lastd o os - o)) with (lastd o os - p) by lia.
Qed.

Lemma ztake_ztake_le {A} (n m : Z) (l : list A) : n <= m -> ztake n (ztake m l) = ztake n l.
Proof. intros. rewrite !ztake_take, take_take. f_equal. lia. Qed.

Lemma zdrop_ztake {A} (n m : Z) (l : list A) : 0 <= n -> zdrop n (ztake m l) = ztake (m - n) (zdrop n l).
Proof.
  intros. rewrite !ztake_take, !zdrop_drop, skipn_firstn_comm. f_equal. lia.
Qed.

(** Only the values up to the last offset matter. *)
Lemma segments_prefix (p n : Z) (os : list Z) (l : list val) : monotone p os = true -> lastd p os - p <= n ->
  segments p os (ztake n l) = segments p os l.
Proof.
  revert p n l. induction os as [|o os IH]; intros p n l; [done|].
  rewrite monotone_cons, lastd_cons. intros [Hp Ho] Hn. pose proof (monotone_last _ _ Ho).
  cbn [segments]. rewrite ztake_ztake_le, zdrop_ztake, IH by (done || lia). done.
Qed.

Lemma segments_snoc (os : list Z) (l m : list val) : monotone 0 os = true -> lastd 0 os = zlen l ->
  segments 0 (os ++ [zlen l + zlen m]) (l ++ m) = segments 0 os l ++ [VList m].
Proof.
  intros Hm Hl. rewrite segments_app by done. cbn [segments]. rewrite Hl, Z.sub_0_r, zdrop_app_exact.
  replace (zlen l + zlen m - zlen l) with (zlen m) by lia. rewrite ztake_all by lia. f_equal.
  rewrite <- (segments_prefix 0 (zlen l) os (l ++ m)) by (done || lia). by rewrite ztake_app_exact.
Qed.

(** The offset before row [k]. *)
Definition off (os : list Z) (k : Z) : Z := lastd 0 (ztake k os).

Lemma ztake_succ {A} (l : list A) (k : Z) (x : A) : 0 <= k -> l !! Z.to_nat k = Some x ->
  ztake (k + 1) l = ztake k l ++ [x].
Proof.
  intros Hk Hx. rewrite !ztake_take. replace (Z.to_nat (k + 1)) with (S (Z.to_nat k)) by lia. by apply take_S_r.
Qed.

Lemma off_succ (os : list Z) (k o : Z) : 0 <= k -> os !! Z.to_nat k = Some o -> off os (k + 1) = o.
Proof. intros. unfold off. rewrite (ztake_succ _ _ o) by done. by rewrite lastd_app. Qed.

Lemma off_all (os : list Z) : off os (zlen os) = lastd 0 os.
Proof. unfold off. by rewrite ztake_all by lia. Qed.

Lemma lookup_in_range {A} (l : list A) (k : Z) : 0 <= k < zlen l -> exists x, l !! Z.to_nat k = Some x.
Proof. intros. destruct (lookup_lt_is_Some_2 l (Z.to_nat k)) as [x Hx]; [unfold zlen in *; lia|eauto]. Qed.

Section Offsets.
Context (os : list Z).
Hypothesis Hm : monotone 0 os = true.
Hypothesis Hlast : lastd 0 os < 2 ^ 64.

Lemma off_range (k : Z) : 0 <= off os k <= lastd 0 os.
Proof.
  pose proof Hm as H. rewrite <- (ztake_zdrop k os), monotone_app in H. destruct H as [H1 H2].
  pose proof (monotone_last _ _ H1). pose proof (monotone_last _ _ H2) as H3.
  unfold off. rewrite <- lastd_app, ztake_zdrop in H3. lia.
Qed.

Lemma off_split (k : Z) : monotone (off os k) (zdrop k os) = true.
Proof. pose proof Hm as H. rewrite <- (ztake_zdrop k os), monotone_app in H. apply H. Qed.

Lemma off_le (b n : Z) : 0 <= n -> 0 <= b -> off os b <= off os (b + n).
Proof.
  intros. pose proof (off_split b) as Hs. rewrite <- (ztake_zdrop n (zdrop b os)), monotone_app in Hs.
  destruct Hs as [Hs _]. apply monotone_last in Hs. unfold off in *. rewrite <- lastd_app in Hs.
  rewrite !ztake_take, !zdrop_drop in *. rewrite take_take_drop in Hs.
  replace (Z.to_nat (b + n)) with (Z.to_nat b + Z.to_nat n)%nat by lia. done.
Qed.

Lemma GetOffset_ok (n : Z) : 0 <= n <= zlen os -> GetOffset os n = Ok (off os n).
Proof.
  intros Hn. unfold GetOffset. destruct (Z.eqb_spec n 0) as [->|Hz].
  - unfold off. by rewrite ztake_0.
  - unfold at_. rewrite (proj2 (Z.ltb_ge _ _)) by lia.
    destruct (lookup_in_range os (n - 1)) as [o Ho]; [lia|]. rewrite Ho.
    rewrite <- (off_succ os (n - 1) o), Z.sub_add by (done || lia). done.
Qed.

Lemma GetSize_ok (n : Z) : 0 <= n < zlen os -> GetSize os n = Ok (off os (n + 1) - off os n).
Proof.
  intros Hn. unfold GetSize, at_. rewrite (proj2 (Z.ltb_ge n 0)) by lia.
  destruct (lookup_in_range os n) as [o Ho]; [lia|]. rewrite Ho, (off_succ os n o) by (done || lia).
  destruct (Z.eqb_spec n 0) as [->|Hz].
  - unfold off. by rewrite ztake_0, Z.sub_0_r.
  - rewrite (proj2 (Z.ltb_ge _ _)) by lia.
    destruct (lookup_in_range os (n - 1)) as [o' Ho']; [lia|]. rewrite Ho'. cbn [rbind].
    rewrite wrap_id.
    + rewrite <- (off_succ os (n - 1) o'), Z.sub_add by (done || lia). done.
    + pose proof (off_le n 1 ltac:(lia) ltac:(lia)) as Hle. pose proof (off_range n). pose proof (off_range (n + 1)) as Hr.
      rewrite (off_succ os n o) in Hle, Hr by (done || lia).
      rewrite <- (off_succ os (n - 1) o') , Z.sub_add by (done || lia). unfold is_u. lia.
Qed.

Lemma slice_offsets_ok (n : nat) : forall b acc, 0 <= b -> b + Z.of_nat n <= zlen os ->
  0 <= acc -> acc + off os (b + Z.of_nat n) - off os b < 2 ^ 64 ->
  slice_offsets os b n acc = Ok (map (Z.add (acc - off os b)) (zslice b (Z.of_nat n) os)).
Proof.
  induction n as [|n IH]; intros b acc Hb Hn Hacc Hfit.
  - unfold zslice. by rewrite ztake_0.
  - cbn [slice_offsets]. rewrite GetSize_ok by lia. cbn [rbind].
    pose proof (off_le b 1 ltac:(lia) ltac:(lia)). pose proof (off_le (b + 1) (Z.of_nat n) ltac:(lia) ltac:(lia)) as Hle.
    replace (b + 1 + Z.of_nat n) with (b + Z.of_nat (S n)) in * by lia.
    rewrite wrap_id by (unfold is_u; lia). rewrite IH by (rewrite ?Nat2Z.inj_succ in *; try replace (b + 1 + Z.of_nat n) with (b + Z.succ (Z.of_nat n)) by lia; lia).
    cbn [rbind]. do 2 f_equal.
    destruct (lookup_in_range os b) as [o Ho]; [lia|]. rewrite (off_succ os b o) in * by (done || lia).
    unfold zslice. rewrite !ztake_take, !zdrop_drop, !Nat2Z.id, (drop_S _ o _ Ho). cbn [take map].
    replace (Z.to_nat (b + 1)) with (S (Z.to_nat b)) by lia. f_equal; [lia|].
    apply map_ext. lia.
Qed.
End Offsets.

Lemma segments_zslice (os : list Z) (l : list val) (b n : Z) : monotone 0 os = true ->
  0 <= b -> 0 <= n -> b + n <= zlen os ->
  zslice b n (segments 0 os l) = segments (off os b) (zslice b n os) (zdrop (off os b) l).
Proof.
  intros Hm Hb Hn Hbn. pose proof (off_split os Hm b) as Hmb.
  assert (os = ztake b os ++ zslice b n os ++ zdrop n (zdrop b os)) as Hos
    by (unfold zslice; by rewrite !ztake_zdrop).
  pose proof Hm as Hm1. rewrite Hos, !monotone_app in Hm1. destruct Hm1 as (Hm1 & Hm2 & _).
  rewrite Hos at 1. rewrite segments_app by done. fold (off os b) in *. rewrite segments_app, Z.sub_0_r by done.
  set (A := segments 0 _ _). set (B := segments (off os b) _ _).
  assert (zlen A = b) as HA.
  { unfold A, zlen. rewrite segments_length. fold (zlen (ztake b os)). rewrite zlen_ztake; lia. }
  assert (zlen B = n) as HB.
  { unfold B, zlen. rewrite segments_length. fold (zlen (zslice b n os)). apply zlen_zslice; lia. }
  unfold zslice. rewrite <- HA at 1. rewrite zdrop_app_exact. rewrite <- HB at 1. by rewrite ztake_app_exact.
Qed.

(** ** Size *)

(** The rows of a fixed string and of a UUID column. *)
Lemma fixed_length (n : Z) (data : bytes) : 0 < n -> zlen data mod n = 0 ->
  length data = (Z.to_nat n * Z.to_nat (zlen data / n))%nat.
Proof.
  intros Hn Hm. pose proof (Z.div_mod (zlen data) n ltac:(lia)) as H. rewrite Hm in H.
  pose proof (Z.div_pos (zlen data) n (zlen_nonneg data) Hn). unfold zlen in *. nia.
Qed.

Lemma even_half (n : Z) : n mod 2 = 0 -> n = 2 * (n / 2).
Proof. intros. pose proof (Z.div_mod n 2). lia. Qed.

Lemma foldr_Forall {A} (P : A -> Prop) (l : list A) : foldr (fun x Q => P x /\ Q) True l <-> Forall P l.
Proof.
  induction l as [|x l IH]; cbn; [done|]. rewrite IH. split.
  - intros []. by constructor.
  - intros H. by inversion H.
Qed.

Lemma Size_nonneg (c : column) : wf_col c -> 0 <= Size c.
Proof.
  induction c as [| | |n data|size|w ty data IH|data os IH|nested nulls IH|cs names IH|data IH|] using column_ind';
    cbn [Size wf_col]; intros Hw; try apply zlen_nonneg.
  - apply Z.div_pos; [apply zlen_nonneg|lia].
  - unfold is_u in Hw. lia.
  - destruct Hw as (_ & Hd & _). specialize (IH Hd). destruct w; try done. apply Z.div_pos; lia.
  - destruct Hw as (Hcs & _). apply foldr_Forall in Hcs. destruct cs; [done|].
    by apply (Forall_inv IH), (Forall_inv Hcs).
  - apply IH, Hw.
Qed.

Lemma Size_rows (c : column) : wf_col c -> Size c = zlen (rows c).
Proof.
  induction c as [| | |n data|size|w ty data IH|data os IH|nested nulls IH|cs names IH|data IH|] using column_ind';
    intros Hw; pose proof (Size_nonneg _ Hw) as Hnn; cbn [Size rows wf_col] in *; try by zlen.
  - unfold zlen at 2. rewrite length_map, length_chunks. lia.
  - destruct Hw as (_ & Hd & Hu). specialize (IH Hd). destruct w; try done.
    destruct (Hu eq_refl) as [He _]. unfold zlen. rewrite (pairs_length (Z.to_nat (Size data / 2))); [lia|].
    apply even_half in He. unfold zlen in IH. lia.
  - unfold zlen. by rewrite segments_length.
  - destruct Hw as (Hn & Hl & _). specialize (IH Hn). unfold zlen in *. rewrite length_zip_with. lia.
  - destruct Hw as (Hcs & Hs & _). apply foldr_Forall in Hcs.
    destruct cs as [|c cs]; [done|]. set (l := c :: cs) in *.
    unfold zlen. rewrite length_map, (transpose_length (length (rows c))); [by apply (Forall_inv IH), (Forall_inv Hcs)|done|].
    apply Forall_map. apply Forall_forall. intros d Hd.
    pose proof (proj1 (Forall_forall _ _) IH d Hd (proj1 (Forall_forall _ _) Hcs d Hd)) as H1.
    pose proof (proj1 (Forall_forall _ _) Hs d Hd) as H2. cbn in H2.
    pose proof (Forall_inv IH (Forall_inv Hcs)) as H3. unfold zlen in *. lia.
  - by apply IH, Hw.
Qed.

Lemma rows_nil (c : column) : wf_col c -> rows c = [] <-> Size c = 0.
Proof. intros Hw. rewrite (Size_rows c Hw). split; [by intros ->|apply zlen_0]. Qed.

Lemma depth_elem (c : column) (cs : list column) (n : nat) : (list_max (map depth cs) <= n)%nat -> c ∈ cs -> (depth c <= n)%nat.
Proof.
  rewrite list_max_le. intros H Hc. rewrite List.Forall_forall in H. apply H, in_map. by apply list_elem_of_In.
Qed.

(** ** The type determines the representation *)

(** The delegating class of a type. *)
Definition wrapper_of (c : Code.t) : option wrapper :=
  match c with
  | Code.Bool => Some WBool | Code.Date => Some WDate | Code.Date32 => Some WDate32
  | Code.DateTime => Some WDateTime | Code.DateTime64 => Some WDateTime64 | Code.Time => Some WTime
  | Code.Time64 => Some WTime64 | Code.Decimal => Some WDecimal | Code.IPv4 => Some WIPv4
  | Code.IPv6 => Some WIPv6 | Code.UUID => Some WUUID | Code.JSON => Some WJSON
  | Code.Point => Some WPoint | Code.Ring => Some WRing | Code.Polygon => Some WPolygon
  | Code.MultiPolygon => Some WMultiPolygon
  | _ => None
  end.

Lemma wrapped_code (w : wrapper) (ty t : type) : wrapped_type w ty = Some t -> wrapper_of (GetCode ty) = Some w.
Proof. destruct w, ty as [[]| | | | | | | | | | |]; done. Qed.

Lemma wrapped_plain (w : wrapper) (ty t : type) : wrapped_type w ty = Some t ->
  mentions Code.LowCardinality t = false /\ mentions Code.Void t = false.
Proof.
  destruct w, ty as [[]| | | | | | | | | | |]; try done; intros [= <-]; try done.
  by destruct (_ <=? _); [|destruct (_ <=? _)].
Qed.

(** The representation a type has. *)
Definition shape (t : type) (c : column) : Prop :=
  match wrapper_of (GetCode t) with
  | Some w => exists d, c = ColumnWrap w t d
  | None =>
    match t with
    | TSimple Code.String => exists items, c = ColumnString items
    | TSimple Code.Void => exists size, c = ColumnNothing size
    | TSimple code => exists data, c = ColumnVector code data
    | TFixedString n => exists data, c = ColumnFixedString n data
    | TEnum code e => exists data, c = ColumnEnum code e data
    | TArray t => exists d os, c = ColumnArray d os /\ ColumnType d = t
    | TNullable t => exists d nulls, c = ColumnNullable d nulls /\ ColumnType d = t
    | TTuple ts names => exists cs, c = ColumnTuple cs names /\ map ColumnType cs = ts
    | TMap k v => exists d, c = ColumnMap d /\ ColumnType d = TArray (TTuple [k; v] [])
    | TLowCardinality t => exists d code index u, c = ColumnLowCardinality d code index u /\ ColumnType d = t
    | _ => False
    end
  end.

Lemma shape_of_type (c : column) : wf_col c -> shape (ColumnType c) c.
Proof.
  destruct c; unfold shape; cbn [wf_col ColumnType]; intros Hw.
  - destruct Hw as [Hc _]. destruct code; try done; cbn; eauto.
  - destruct Hw as [Hc _]. destruct code; try done; cbn; eauto.
  - cbn. eauto.
  - cbn. eauto.
  - cbn. eauto.
  - destruct Hw as [Ht _]. rewrite (wrapped_code _ _ _ Ht). eauto.
  - cbn. eauto.
  - cbn. eauto.
  - cbn. eauto.
  - destruct Hw as [_ (k & v & os & ->)]. cbn. eauto.
  - cbn. eauto 10.
Qed.

(** ** Slice *)
Section Slice.
Context (std_hash : bytes -> Z).

(** What the slice of a column must be. *)
Definition slice_of (c : column) (b n : Z) (c' : column) : Prop :=
  Slice std_hash c b n = Ok c' /\ rows c' = zslice b n (rows c) /\ wf_col c' /\
  ColumnType c' = ColumnType c /\ depth c' = depth c /\ Size c' = n.

Definition sliceable (c : column) : Prop := forall b n,
  wf_col c -> mentions Code.LowCardinality (ColumnType c) = false -> 0 <= b -> 0 <= n -> b + n <= Size c ->
  exists c', slice_of c b n c'.

Lemma slice_fixed (m : Z) (data : bytes) : sliceable (ColumnFixedString m data).
Proof.
  intros b n (Hm & Hd & Hf) _ Hb Hn Hbn. unfold slice_of. cbn [Size Slice] in *; open_slice.
  pose proof (Z.div_mod (zlen data) m ltac:(lia)) as Hdm. rewrite Hd in Hdm.
  set (k := zlen data / m) in *.
  assert (rows (ColumnFixedString m (zslice (m * b) (m * n) data)) = zslice b n (rows (ColumnFixedString m data)) /\
          zlen (zslice (m * b) (m * n) data) = n * m) as [Hrows Hlen].
  { assert (zlen (zslice (m * b) (m * n) data) = n * m) as E by (rewrite zlen_zslice; nia).
    split; [|done]. cbn [rows]. rewrite zslice_map, E, Z.div_mul by lia. f_equal. fold k.
    unfold zslice. rewrite !ztake_take, !zdrop_drop, chunks_drop, chunks_take by lia.
    f_equal. rewrite <- !Z2Nat.inj_mul by lia. done. }
  assert (wf_col (ColumnFixedString m (zslice (m * b) (m * n) data))) as Hwf.
  { cbn [wf_col]. rewrite Hlen, Z.mod_mul by lia. split_and!; [done|done|nia]. }
  exists (ColumnFixedString m (zslice (m * b) (m * n) data)). split_and!; try done.
  - destruct (Z.ltb_spec b k).
    + rewrite !wrap_id by (unfold is_u; nia). rewrite Z.min_r by nia.
      unfold zslice. by rewrite !(Z.mul_comm _ m).
    + replace n with 0 in * by lia. unfold zslice. by rewrite Z.mul_0_r, ztake_0.
  - cbn [Size]. by rewrite Hlen, Z.div_mul by lia.
Qed.

(** The slice of an array column, once its values are sliced. *)
Lemma slice_array (data : column) (os : list Z) : sliceable data -> sliceable (ColumnArray data os).
Proof.
  intros IH b n (Hw & Hm & Hl & Hs & Hz & Hf) Hlc Hb Hn Hbn. unfold slice_of. cbn [Size Slice] in *; open_slice.
  change (last_offset os) with (lastd 0 os) in Hl. rewrite <- Hl in Hs.
  rewrite wrap_id by (unfold is_u; lia).
  rewrite (proj2 (Z.ltb_ge _ _)) , andb_false_r by lia.
  rewrite !GetOffset_ok by (done || lia). cbn [rbind].
  pose proof (off_range os Hm b). pose proof (off_range os Hm (b + n)). pose proof (off_le os Hm b n Hn Hb).
  rewrite wrap_id by (unfold is_u; lia).
  destruct (IH (off os b) (off os (b + n) - off os b) Hw) as (c' & E & Hr & Hw' & Ht & Hd & Hsz);
    [by apply orb_false_elim in Hlc as [_ ?]|lia|lia|lia|].
  rewrite E. cbn [rbind]. rewrite slice_offsets_ok by (done || rewrite ?Z2Nat.id by lia; lia).
  rewrite Z2Nat.id by lia. cbn [rbind]. set (os' := map _ _).
  pose proof (off_split os Hm b) as Hmb. rewrite <- (ztake_zdrop n (zdrop b os)), monotone_app in Hmb.
  destruct Hmb as [Hmb _]. fold (zslice b n os) in Hmb.
  assert (lastd (off os b) (zslice b n os) = off os (b + n)) as Hlast.
  { unfold off at 1, zslice. rewrite <- lastd_app. unfold off. rewrite !ztake_take, zdrop_drop, take_take_drop. do 2 f_equal. lia. }
  assert (monotone 0 os' = true) as Hm'.
  { rewrite <- Hmb, <- (monotone_shift (0 - off os b) (off os b)). f_equal. lia. }
  assert (lastd 0 os' = off os (b + n) - off os b) as Hl'.
  { unfold os'. replace 0 with (0 - off os b + off os b) at 1 by lia. rewrite lastd_shift, Hlast. lia. }
  unfold ColumnArray_new. rewrite Hm'. cbn [negb]. change (last_offset os') with (lastd 0 os').
  rewrite Hl', Hsz, Z.eqb_refl. cbn [negb].
  assert (zlen os' = n) as Hz' by (unfold os'; rewrite zlen_map, zlen_zslice; lia).
  exists (ColumnArray c' os'). split_and!; try done; cbn [rows wf_col ColumnType depth Size].
  - rewrite Hr. unfold os'. replace 0 with (0 - off os b + off os b) at 1 by lia.
    rewrite segments_shift. unfold zslice at 2. rewrite segments_prefix by (done || lia).
    by rewrite segments_zslice by (done || lia).
  - rewrite Ht. change (last_offset os') with (lastd 0 os'). split_and!; try done; lia.
  - by rewrite Ht.
  - by rewrite Hd.
Qed.

Lemma slice_wrap (w : wrapper) (ty : type) (data : column) : sliceable data -> sliceable (ColumnWrap w ty data).
Proof.
  intros IH b n (Ht & Hw & Hu) _ Hb Hn Hbn. destruct (wrapped_plain _ _ _ Ht) as [Hlc _]. unfold slice_of.
  destruct (decide (w = WUUID)) as [->|Hne].
  - destruct (Hu eq_refl) as [He Hs]. apply even_half in He. cbn [Size Slice] in *; open_slice.
    rewrite !wrap_id by (unfold is_u; lia).
    destruct (IH (b * 2) (n * 2) Hw Hlc ltac:(lia) ltac:(lia) ltac:(lia)) as (c' & E & Hr & Hw' & Ht' & Hd & Hsz).
    rewrite E. cbn [rbind]. rewrite Hsz, Z.mod_mul by lia. exists (ColumnWrap WUUID ty c').
    split_and!; cbn [rows wf_col ColumnType depth Size]; try done.
    + rewrite Hr. unfold zslice. rewrite !ztake_take, !zdrop_drop, pairs_drop, pairs_take. do 2 f_equal; [lia|].
      f_equal. lia.
    + rewrite Ht', Hsz, Z.mod_mul by lia. split_and!; [done|done|]. intros _. lia.
    + by rewrite Hd.
    + rewrite Hsz. by apply Z.div_mul.
  - assert (Size (ColumnWrap w ty data) = Size data) as E1 by (by destruct w).
    assert (Slice std_hash (ColumnWrap w ty data) b n = let! d := Slice std_hash data b n in Ok (ColumnWrap w ty d)) as E2
      by (by destruct w).
    rewrite E1 in Hbn. destruct (IH b n Hw Hlc Hb Hn Hbn) as (c' & E & Hr & Hw' & Ht' & Hd & Hsz).
    rewrite E2, E. exists (ColumnWrap w ty c'). split_and!; cbn [wf_col ColumnType depth]; try done.
    + destruct w; (done || exact Hr).
    + by rewrite Ht'.
    + by rewrite Hd.
    + by destruct w.
Qed.

Lemma slice_nullable (nested : column) (nulls : list Z) : sliceable nested -> sliceable (ColumnNullable nested nulls).
Proof.
  intros IH b n (Hw & Hl & Hn1 & Hf) Hlc Hb Hn Hbn. unfold slice_of. cbn [Size Slice] in *; open_slice.
  destruct (IH b n Hw) as (c' & E & Hr & Hw' & Ht & Hd & Hsz); [done|done|done|lia|].
  rewrite E. cbn [rbind]. rewrite SliceVector_zslice by lia.
  assert (zlen (zslice b n nulls) = n) as Hz by (apply zlen_zslice; lia).
  unfold ColumnNullable_new. rewrite Hsz, Hz, Z.eqb_refl. cbn [negb].
  exists (ColumnNullable c' (zslice b n nulls)). split_and!; cbn [rows wf_col ColumnType depth Size]; try done.
  - by rewrite Hr, zslice_zip.
  - rewrite Ht. split_and!; [done|lia|by apply Forall_zslice|done].
  - by rewrite Ht.
  - by rewrite Hd.
Qed.

Lemma mapR_Forall2 {A B} (f : A -> result B) (P : A -> B -> Prop) (l : list A) :
  Forall (fun x => exists y, f x = Ok y /\ P x y) l -> exists k, mapR f l = Ok k /\ Forall2 P l k.
Proof.
  induction 1 as [|x l (y & E & Hp) _ (k & Ek & Hk)]; [by exists []|].
  exists (y :: k). cbn. by rewrite E, Ek; auto.
Qed.

Lemma existsb_Forall {A} (f : A -> bool) (l : list A) : existsb f l = false -> Forall (fun x => f x = false) l.
Proof. induction l as [|x l IH]; cbn; [done|]. intros [? ?]%orb_false_elim. auto. Qed.

Lemma Forall2_map_eq {A B C} (f : A -> C) (g : B -> C) (l : list A) (k : list B) :
  Forall2 (fun x y => g y = f x) l k -> map g k = map f l.
Proof. induction 1; cbn; congruence. Qed.

Lemma slice_tuple (cs : list column) (names : list bytes) : Forall sliceable cs -> sliceable (ColumnTuple cs names).
Proof.
  intros IH b n (Hw & Hs & Hc & Hf) Hlc Hb Hn Hbn. unfold slice_of. cbn [Slice]; open_slice.
  apply foldr_Forall in Hw. cbn [ColumnType mentions] in Hlc. apply orb_false_elim in Hlc as [_ Hlc].
  destruct (mapR_Forall2 (fun c => Slice std_hash c b n) (fun c c' => slice_of c b n c') cs) as (cs' & E & H2).
  { apply Forall_forall. intros c Hin. rewrite Forall_forall in IH, Hw, Hs.
    destruct (IH c Hin b n) as (c' & Hc'); [by apply Hw| |done|done|by rewrite (Hs c Hin)|].
    - apply existsb_Forall, Forall_map in Hlc. rewrite Forall_forall in Hlc. by apply Hlc.
    - exists c'. split; [apply Hc'|done]. }
  rewrite E. cbn [rbind].
  assert (map ColumnType cs' = map ColumnType cs) as Ht
    by (apply Forall2_map_eq; eapply Forall2_impl; [exact H2|]; intros ? ? (_ & _ & _ & ? & _); done).
  assert (map depth cs' = map depth cs) as Hd
    by (apply Forall2_map_eq; eapply Forall2_impl; [exact H2|]; intros ? ? (_ & _ & _ & _ & ? & _); done).
  assert (map rows cs' = map (zslice b n) (map rows cs)) as Hr.
  { rewrite map_map. apply Forall2_map_eq. eapply Forall2_impl; [exact H2|]. intros ? ? (_ & ? & _); done. }
  unfold ColumnTuple_new. rewrite Ht, Hc. cbn [rbind]. exists (ColumnTuple cs' names).
  assert (Forall (fun d => Size d = n) cs') as Hs'.
  { eapply Forall2_Forall_r; [exact H2|]. apply Forall_forall. intros c _ c' (_ & _ & _ & _ & _ & ?). done. }
  assert (Size (ColumnTuple cs' names) = n) as Hsz.
  { destruct cs' as [|c' cs']; cbn [Size]; [|by apply (Forall_inv Hs')].
    inversion H2; subst. cbn [Size] in Hbn. lia. }
  split_and!; try done.
  - cbn [rows]. by rewrite Hr, <- transpose_slice, zslice_map.
  - cbn [wf_col]. rewrite Hsz, Ht. split_and!; [|done|done|by cbn [ColumnType]; rewrite Ht].
    apply foldr_Forall. eapply Forall2_Forall_r; [exact H2|]. apply Forall_forall.
    intros c _ c' (_ & _ & ? & _). done.
  - cbn [ColumnType]. by rewrite Ht.
  - cbn [depth]. by rewrite Hd.
Qed.

Lemma slice_map (data : column) : sliceable data -> sliceable (ColumnMap data).
Proof.
  intros IH b n (Hw & k & v & os & ->) Hlc Hb Hn Hbn. unfold slice_of. cbn [Size ColumnType map mentions] in *.
  destruct (IH b n Hw) as (c' & E & Hr & Hw' & Ht & Hd & Hsz); try done.
  { cbn [ColumnType map mentions existsb]. by rewrite orb_false_r. }
  cbn [Slice] in *; open_slice. rewrite E. cbn [rbind].
  pose proof (shape_of_type c' Hw') as Hs. rewrite Ht in Hs. destruct Hs as (d & os' & -> & Hdt).
  cbn [wf_col] in Hw'. pose proof (shape_of_type d (proj1 Hw')) as Hs. rewrite Hdt in Hs. cbn in Hs.
  destruct Hs as (cs & -> & Hcs). destruct cs as [|k' [|v' [|? ?]]]; try done. injection Hcs as Hk Hv.
  exists (ColumnMap (ColumnArray (ColumnTuple [k'; v'] []) os')). split_and!; try done.
  - split; [done|eauto].
  - cbn. by rewrite Hk, Hv.
  - cbn [depth] in *. by rewrite Hd.
Qed.

Lemma Slice_ok (c : column) : sliceable c.
Proof.
  induction c as [code data|code e data|items|n data|size|w ty data IH|data os IH|nested nulls IH|cs names IH|data IH|]
    using column_ind'.
  - intros b n [Hc Hf] _ Hb Hn Hbn. cbn [Size] in Hbn. unfold slice_of. cbn [Slice]; open_slice.
    rewrite SliceVector_zslice by done. eexists. split; [done|]. cbn [rows wf_col Size].
    rewrite zslice_map, zlen_zslice by done. split_and!; try done. by apply Forall_zslice.
  - intros b n [Hc Hf] _ Hb Hn Hbn. cbn [Size] in Hbn. unfold slice_of. cbn [Slice]; open_slice.
    rewrite SliceVector_zslice by done. eexists. split; [done|]. cbn [rows wf_col Size].
    rewrite zslice_map, zlen_zslice by done. split_and!; try done. by apply Forall_zslice.
  - intros b n Hf _ Hb Hn Hbn. cbn [Size] in Hbn. unfold slice_of. cbn [Slice]; open_slice.
    rewrite SliceVector_zslice by done. eexists. split; [done|]. cbn [rows wf_col Size].
    rewrite zslice_map, zlen_zslice by done. split_and!; try done. by apply Forall_zslice.
  - apply slice_fixed.
  - intros b n Hf _ Hb Hn Hbn. unfold is_u in Hf. cbn [Size wf_col] in *. unfold slice_of, is_u in *. cbn [Slice]; open_slice.
    eexists. split; [done|]. cbn [rows wf_col Size]. split_and!; try (done || (unfold is_u; lia)).
    unfold zslice. rewrite ztake_take, zdrop_drop, drop_replicate, take_replicate. f_equal. lia.
  - by apply slice_wrap.
  - by apply slice_array.
  - by apply slice_nullable.
  - by apply slice_tuple.
  - by apply slice_map.
  - intros b n _ Hlc. done.
Qed.
End Slice.
