(* ===== verification/ColumnOps.v ===== *)
(** * Append, Clear and CloneEmpty refine the list operations

    Appending a column of the same type concatenates the rows; clearing and
    cloning give no rows; all keep the representation invariant. *)

From S2P Require Import Prelude Streams WireFormat CityHash Text Types Columns ColumnRows.

(** ** Weights *)

Lemma weight_app (l k : list val) : weight (l ++ k) = weight l + weight k.
Proof. induction l as [|v l IH]; [done|]. cbn [app weight foldr] in *. unfold weight in *. lia. Qed.

Lemma vweight_list (l : list val) : vweight (VList l) = 1 + weight l.
Proof. done. Qed.

Lemma vweight_tuple (l : list val) : vweight (VTuple l) = 1 + weight l.
Proof. done. Qed.

Fixpoint vweight_pos (v : val) : 1 <= vweight v.
Proof.
  destruct v as [z|s| |null v|l|l]; cbn [vweight]; try lia.
  - pose proof (zlen_nonneg s). lia.
  - specialize (vweight_pos v). lia.
  - assert (0 <= foldr (fun v n => vweight v + n) 0 l); [|lia].
    induction l as [|v l IH]; cbn; [lia|]. specialize (vweight_pos v). lia.
  - assert (0 <= foldr (fun v n => vweight v + n) 0 l); [|lia].
    induction l as [|v l IH]; cbn; [lia|]. specialize (vweight_pos v). lia.
Qed.

Lemma weight_len (l : list val) : zlen l <= weight l.
Proof.
  induction l as [|v l IH]; [done|]. rewrite zlen_cons. pose proof (vweight_pos v).
  change (weight (v :: l)) with (vweight v + weight l). lia.
Qed.

Lemma weight_cons (v : val) (l : list val) : weight (v :: l) = vweight v + weight l.
Proof. done. Qed.

Lemma weight_chunks (n k : nat) : forall b, length b = (n * k)%nat ->
  weight (map VStr (chunks n k b)) = Z.of_nat k + zlen b.
Proof.
  induction k as [|k IH]; intros b Hb.
  - cbn. rewrite Nat.mul_0_r in Hb. by rewrite (nil_length_inv _ Hb).
  - cbn [chunks map]. rewrite weight_cons, IH by (rewrite length_drop; lia). cbn [vweight].
    unfold zlen. rewrite length_take, length_drop. lia.
Qed.

Lemma weight_pairs (k : nat) : forall l, length l = (2 * k)%nat -> weight (pairs l) = Z.of_nat k + weight l.
Proof.
  induction k as [|k IH]; intros [|a [|b l]] Hl; cbn [length pairs] in *; try lia.
  rewrite !weight_cons, vweight_tuple, !weight_cons, IH by lia. change (weight []) with 0. lia.
Qed.

Lemma weight_nullable (nulls : list Z) : forall l, length nulls = length l ->
  weight (zip_with VNullable nulls l) = zlen nulls + weight l.
Proof.
  induction nulls as [|n nulls IH]; intros [|v l] Hl; try done.
  cbn [zip_with]. rewrite !weight_cons, zlen_cons, IH by (cbn in Hl; lia). cbn [vweight]. lia.
Qed.

Lemma weight_segments (os : list Z) : forall p l, monotone p os = true -> lastd p os - p = zlen l ->
  weight (segments p os l) = zlen os + weight l.
Proof.
  induction os as [|o os IH]; intros p l Hm Hl.
  - unfold lastd in Hl. cbn in Hl. by rewrite (zlen_0 l) by lia.
  - apply monotone_cons in Hm as [Hp Hm]. rewrite lastd_cons in Hl. pose proof (monotone_last _ _ Hm).
    cbn [segments]. rewrite weight_cons, vweight_list, IH, zlen_cons by (done || rewrite zlen_zdrop; lia).
    rewrite <- (ztake_zdrop (o - p) l) at 3. rewrite weight_app. lia.
Qed.

Lemma weight_zip_cons (l : list val) : forall ls, length l = length ls ->
  weight (map VTuple (zip_with cons l ls)) = weight l + weight (map VTuple ls).
Proof.
  induction l as [|v l IH]; intros [|k ls] Hl; try done. cbn [zip_with map].
  rewrite !weight_cons, !vweight_tuple, weight_cons, IH by (cbn in Hl; lia). lia.
Qed.

Lemma weight_single (l : list val) : weight (map VTuple (map (fun x => [x]) l)) = zlen l + weight l.
Proof.
  induction l as [|v l IH]; [done|]. cbn [map]. rewrite !weight_cons, IH, vweight_tuple, zlen_cons.
  rewrite weight_cons. change (weight []) with 0. lia.
Qed.

Lemma weight_nonneg (l : list val) : 0 <= weight l.
Proof. pose proof (weight_len l). pose proof (zlen_nonneg l). lia. Qed.

Lemma weight_transpose (n : nat) (ls : list (list val)) (l : list val) :
  Forall (fun l => length l = n) ls -> l ∈ ls -> weight l <= weight (map VTuple (transpose ls)).
Proof.
  intros Hls Hin. induction ls as [|k ls IH]; [by apply elem_of_nil in Hin|].
  pose proof (Forall_inv Hls) as Hk. pose proof (Forall_inv_tail Hls) as Hls'. cbn in Hk.
  destruct ls as [|m ls].
  - apply list_elem_of_singleton in Hin as ->. cbn [transpose]. rewrite weight_single. pose proof (zlen_nonneg k). lia.
  - rewrite transpose_cons, weight_zip_cons by (rewrite (transpose_length n); done).
    apply elem_of_cons in Hin as [->|Hin].
    + pose proof (weight_nonneg (map VTuple (transpose (m :: ls)))). lia.
    + specialize (IH Hls' Hin). pose proof (weight_nonneg k). lia.
Qed.

(** ** Type checks *)

Lemma CanAppendTupleType_refl (t : type) : leaves_fit t -> CanAppendTupleType t t = Ok true.
Proof.
  induction t as [| | | | | | | | |ts names IH| |] using type_ind'; try apply IsEqual_refl.
  cbn [leaves_fit CanAppendTupleType]. intros Hl. apply foldr_Forall in Hl.
  rewrite Nat.eqb_refl. cbn [negb]. induction Hl as [|t ts Ht Hts IHts]; [done|].
  rewrite (Forall_inv IH Ht). cbn [rbind]. by apply IHts, (Forall_inv_tail IH).
Qed.

Lemma CanAppendType_refl (t : type) : name_fits t -> CanAppendType t t = Ok true.
Proof. intros Ht. destruct t; cbn [CanAppendType]; by rewrite IsEqual_refl. Qed.

(** ** Append *)
Section Append.
Context (std_hash : bytes -> Z).

(** What appending [src] must do, [n] levels of nesting deep. *)
Definition appendable (n : nat) (dst : column) : Prop := forall src,
  (depth dst <= n)%nat -> wf_col dst -> wf_col src ->
  mentions Code.LowCardinality (ColumnType dst) = false -> ColumnType src = ColumnType dst ->
  weight (rows dst) + weight (rows src) < 2 ^ 64 ->
  exists c', Append_ std_hash n src dst = (Ok tt, c') /\ rows c' = rows dst ++ rows src /\ wf_col c' /\
    ColumnType c' = ColumnType dst /\ depth c' = depth dst.

(** The source has the representation of the destination. *)
Lemma same_shape (dst src : column) : wf_col src -> ColumnType src = ColumnType dst -> shape (ColumnType dst) src.
Proof. intros Hw <-. by apply shape_of_type. Qed.

Lemma append_fixed (n : nat) (m : Z) (data : bytes) : appendable (S n) (ColumnFixedString m data).
Proof.
  intros src _ (Hm & Hd & Hf) Hsrc _ Ht Hfit. destruct (same_shape _ _ Hsrc Ht) as [data' ->].
  destruct Hsrc as (_ & Hd' & Hf'). cbn [Append_]; open_append. rewrite Z.eqb_refl.
  cbn [rows] in *. pose proof (fixed_length m data Hm Hd) as L. pose proof (fixed_length m data' Hm Hd') as L'.
  rewrite !weight_chunks in Hfit by done.
  assert (zlen (data ++ data') / m = zlen data / m + zlen data' / m) as Hq.
  { rewrite zlen_app. apply Z.mod_divide in Hd as [k ->], Hd' as [k' ->]; [|lia|lia].
    rewrite <- Z.mul_add_distr_r, !Z.div_mul by lia. done. }
  pose proof (Z.div_pos (zlen data) m (zlen_nonneg _) Hm). pose proof (Z.div_pos (zlen data') m (zlen_nonneg _) Hm).
  eexists. split; [done|]. cbn [rows wf_col depth ColumnType]. rewrite Hq, Z2Nat.inj_add, chunks_app, map_app by lia.
  split_and!; try done; [|zlen].
  rewrite zlen_app, Z.add_mod, Hd, Hd' by lia. done.
Qed.

Lemma append_wrap (n : nat) (w : wrapper) (ty : type) (data : column) :
  appendable n data -> appendable (S n) (ColumnWrap w ty data).
Proof.
  intros IH src Hdep (Ht & Hw & Hu) Hsrc _ Hty Hfit. cbn [depth] in Hdep.
  pose proof (same_shape _ _ Hsrc Hty) as Hs. unfold shape in Hs. cbn [ColumnType] in Hs.
  rewrite (wrapped_code _ _ _ Ht) in Hs. destruct Hs as [data' ->]. destruct Hsrc as (Ht' & Hw' & Hu').
  cbn [Append_]; open_append. rewrite bool_decide_true by done. destruct (wrapped_plain _ _ _ Ht) as [Hlc _].
  assert (weight (rows data) + weight (rows data') < 2 ^ 64 /\
          (w = WUUID -> Size data + Size data' < 2 ^ 64)) as [Hfit1 Hfit2].
  { destruct (decide (w = WUUID)) as [->|Hne].
    - destruct (Hu eq_refl) as [He _], (Hu' eq_refl) as [He' _]. apply even_half in He, He'.
      pose proof (Size_nonneg _ Hw). pose proof (Size_nonneg _ Hw').
      pose proof (weight_len (rows data)). pose proof (weight_len (rows data')).
      rewrite (Size_rows _ Hw) in *. rewrite (Size_rows _ Hw') in *. cbn [rows] in Hfit.
      rewrite (weight_pairs (Z.to_nat (zlen (rows data) / 2))), (weight_pairs (Z.to_nat (zlen (rows data') / 2))) in Hfit
        by (unfold zlen in *; lia).
      split; [|intros _]; lia.
    - split; [|done]. destruct w; (exact Hfit || done). }
  destruct (IH data' ltac:(lia) Hw Hw' Hlc) as (c' & E & Hr & Hwc & Htc & Hd); [congruence|done|].
  rewrite E. eexists. split; [done|]. split_and!; cbn [wf_col ColumnType depth]; try done.
  - destruct (decide (w = WUUID)) as [->|Hne]; [|by destruct w].
    cbn [rows]. rewrite Hr. destruct (Hu eq_refl) as [He _]. apply even_half in He. rewrite (Size_rows _ Hw) in He.
    apply (pairs_app (Z.to_nat (zlen (rows data) / 2))). unfold zlen in *. lia.
  - rewrite Htc. split_and!; [done|done|]. intros ->. rewrite (Size_rows _ Hwc), Hr, zlen_app.
    rewrite <- (Size_rows _ Hw), <- (Size_rows _ Hw'). destruct (Hu eq_refl) as [He _], (Hu' eq_refl) as [He' _].
    rewrite Z.add_mod, He, He' by lia. split; [done|by apply Hfit2].
  - by rewrite Hd.
Qed.

Lemma append_nullable (n : nat) (nested : column) (nulls : list Z) :
  appendable n nested -> appendable (S n) (ColumnNullable nested nulls).
Proof.
  intros IH src Hdep (Hw & Hl & Hf & Hname) Hsrc Hlc Hty Hfit. cbn [depth] in Hdep.
  destruct (same_shape _ _ Hsrc Hty) as (nested' & nulls' & -> & Hty').
  destruct Hsrc as (Hw' & Hl' & Hf' & _). cbn [Append_]; open_append. rewrite Hty', IsEqual_refl by done.
  rewrite (Size_rows _ Hw) in Hl. rewrite (Size_rows _ Hw') in Hl'. cbn [rows] in Hfit.
  rewrite !weight_nullable in Hfit by (unfold zlen in *; lia).
  pose proof (zlen_nonneg nulls). pose proof (zlen_nonneg nulls').
  destruct (IH nested' ltac:(lia) Hw Hw') as (c' & E & Hr & Hwc & Htc & Hd); [done|done|lia|].
  rewrite E. eexists. split; [done|]. split_and!; cbn [rows wf_col ColumnType depth].
  - rewrite Hr. apply zip_with_app. unfold zlen in *. lia.
  - rewrite Htc, (Size_rows _ Hwc), Hr, !zlen_app. split_and!; [done|lia|by apply Forall_app|done].
  - by rewrite Htc.
  - by rewrite Hd.
Qed.
Lemma AddOffset_ok (os : list Z) (n : Z) : 0 <= lastd 0 os -> 0 <= n -> lastd 0 os + n < 2 ^ 64 ->
  AddOffset os n = os ++ [lastd 0 os + n].
Proof.
  intros H0 Hn Hf. unfold AddOffset, lastd in *. destruct (last os) as [o|]; cbn in *; [|by rewrite Z.add_0_l].
  by rewrite wrap_id by (unfold is_u; lia).
Qed.

Lemma zdrop_succ {A} (i : Z) (l : list A) : 0 <= i -> zdrop i l = zslice i 1 l ++ zdrop (i + 1) l.
Proof. intros. unfold zslice. rewrite <- zdrop_zdrop by lia. by rewrite ztake_zdrop. Qed.

(** The slice of one array. *)
Lemma GetAsColumn_ok (sdata : column) (sos : list Z) (i : Z) :
  wf_col (ColumnArray sdata sos) -> mentions Code.LowCardinality (ColumnType sdata) = false -> 0 <= i < zlen sos ->
  exists a, GetAsColumn std_hash sdata sos i = Ok a /\ wf_col a /\ ColumnType a = ColumnType sdata /\
    rows a = zslice (off sos i) (off sos (i + 1) - off sos i) (rows sdata) /\
    Size a = off sos (i + 1) - off sos i /\
    zslice i 1 (segments 0 sos (rows sdata)) = [VList (rows a)].
Proof.
  intros (Hw & Hm & Hl & Hs & Hz & _) Hlc Hi. change (last_offset sos) with (lastd 0 sos) in Hl.
  rewrite <- Hl in Hs. unfold GetAsColumn. rewrite (proj2 (Z.leb_gt _ _)) by lia.
  rewrite GetOffset_ok, GetSize_ok by (done || lia). cbn [rbind].
  pose proof (off_range sos Hm i). pose proof (off_range sos Hm (i + 1)). pose proof (off_le sos Hm i 1 ltac:(lia) ltac:(lia)).
  destruct (Slice_ok std_hash sdata (off sos i) (off sos (i + 1) - off sos i)) as (a & E & Hr & Hwa & Hta & _ & Hsz);
    [done|done|lia|lia|lia|].
  exists a. split_and!; try done. rewrite segments_zslice by (done || lia).
  destruct (lookup_in_range sos i) as [o Ho]; [lia|].
  assert (zslice i 1 sos = [o]) as ->.
  { unfold zslice. by rewrite ztake_take, zdrop_drop, (drop_S _ o _ Ho). }
  cbn [segments]. rewrite Hr, (off_succ sos i o) by (done || lia). done.
Qed.

Lemma append_rows_ok (n : nat) (sdata : column) (sos : list Z) : (forall d, appendable n d) ->
  wf_col (ColumnArray sdata sos) -> mentions Code.LowCardinality (ColumnType sdata) = false ->
  forall k i data os, 0 <= i -> i + Z.of_nat k = zlen sos ->
  wf_col (ColumnArray data os) -> ColumnType data = ColumnType sdata -> (depth data <= n)%nat ->
  zlen os + Z.of_nat k < 2 ^ 64 -> weight (rows data) + weight (zdrop (off sos i) (rows sdata)) < 2 ^ 64 ->
  exists c', append_rows std_hash (Append_ std_hash n) sdata sos k i data os = (Ok tt, c') /\
    rows c' = segments 0 os (rows data) ++ zdrop i (segments 0 sos (rows sdata)) /\ wf_col c' /\
    ColumnType c' = TArray (ColumnType data) /\ depth c' = S (depth data).
Proof.
  intros IHn Hsrc Hlc. induction k as [|k IH]; intros i data os Hi Hik Hw Hty Hdep Hz Hfit.
  - cbn [append_rows]. eexists. split; [done|]. split_and!; try done.
    rewrite zdrop_all, app_nil_r; [done|]. unfold zlen in *. rewrite segments_length. lia.
  - cbn [append_rows]. destruct (GetAsColumn_ok sdata sos i Hsrc Hlc) as (a & E & Hwa & Hta & Hra & Hsa & Hseg); [lia|].
    rewrite E. pose proof Hw as (Hwd & Hm & Hl & Hs & Hzo & Hname). rewrite Hta, Hty in *.
    rewrite CanAppendType_refl by done. change (last_offset os) with (lastd 0 os) in Hl.
    pose proof Hsrc as (Hws & Hms & Hls & Hss & _). pose proof (off_le sos Hms i 1 ltac:(lia) ltac:(lia)) as Hle.
    pose proof (off_range sos Hms i) as Hoi.
    assert (zdrop (off sos i) (rows sdata) = rows a ++ zdrop (off sos (i + 1)) (rows sdata)) as Hsplit.
    { rewrite Hra. unfold zslice. rewrite <- (ztake_zdrop (off sos (i + 1) - off sos i) (zdrop _ _)) at 1.
      rewrite zdrop_zdrop by lia. do 2 f_equal. lia. }
    rewrite Hsplit, weight_app in Hfit. pose proof (weight_nonneg (zdrop (off sos (i + 1)) (rows sdata))).
    destruct (IHn data a Hdep Hwd Hwa) as (data' & Ea & Hra' & Hwd' & Htd' & Hdd'); [congruence|congruence|lia|].
    rewrite Ea. pose proof (Size_nonneg _ Hwd). pose proof (Size_nonneg _ Hwa).
    pose proof (weight_len (rows data)). pose proof (weight_len (rows a)).
    rewrite <- (Size_rows _ Hwd) in *. rewrite <- (Size_rows _ Hwa) in *.
    rewrite AddOffset_ok by lia. rewrite Hl.
    assert (monotone 0 (os ++ [Size data + Size a]) = true) as Hm'.
    { apply monotone_app. split; [done|]. apply monotone_cons. split; [lia|done]. }
    assert (lastd 0 (os ++ [Size data + Size a]) = Size data') as Hl'.
    { rewrite lastd_app. change (lastd ?p [?x]) with x. rewrite (Size_rows _ Hwd'), Hra', zlen_app.
      by rewrite <- (Size_rows _ Hwd), <- (Size_rows _ Hwa). }
    destruct (IH (i + 1) data' (os ++ [Size data + Size a])) as (c' & Ec & Hrc & Hwc & Htc & Hdc); try lia.
    + split_and!; [done|done|done| |zlen|congruence].
      rewrite <- Hl', lastd_app. change (lastd ?p [?x]) with x. lia.
    + congruence.
    + zlen.
    + rewrite Hra', weight_app. lia.
    + rewrite Ec. exists c'. split; [done|]. split_and!; [|done|congruence|congruence].
      rewrite Hrc, Hra'. rewrite (Size_rows _ Hwd), (Size_rows _ Hwa) in *.
      rewrite segments_snoc, <- app_assoc, <- Hseg by done. by rewrite <- zdrop_succ.
Qed.

Lemma append_array (n : nat) (data : column) (os : list Z) : (forall d, appendable n d) ->
  appendable (S n) (ColumnArray data os).
Proof.
  intros IHn src Hdep Hw Hsrc Hlc Hty Hfit. cbn [depth] in Hdep.
  destruct (same_shape _ _ Hsrc Hty) as (sdata & sos & -> & Hty').
  pose proof Hw as (Hwd & Hm & Hl & Hs & Hz & Hname). pose proof Hsrc as (Hws & Hms & Hls & Hss & Hzs & _).
  cbn [rows] in Hfit. change (last_offset ?o) with (lastd 0 o) in *.
  rewrite !weight_segments in Hfit by (done || (rewrite <- Size_rows by done; lia)).
  pose proof (zlen_nonneg os). pose proof (zlen_nonneg sos).
  pose proof (weight_nonneg (rows data)). pose proof (weight_nonneg (rows sdata)).
  destruct (append_rows_ok n sdata sos IHn Hsrc) with (k := length sos) (i := 0) (data := data) (os := os)
    as (c' & E & Hr & Hwc & Htc & Hdc); try (done || lia).
  - by rewrite Hty'.
  - fold (zlen sos). lia.
  - unfold off. rewrite ztake_0. change (lastd 0 []) with 0. rewrite zdrop_0. lia.
  - exists c'. cbn [Append_]; open_append. rewrite E. split_and!; try done. by rewrite Hr, zdrop_0.
Qed.

Lemma append_columns_ok (n : nat) (cs scs : list column) :
  Forall2 (fun c s => exists c', Append_ std_hash n s c = (Ok tt, c') /\ rows c' = rows c ++ rows s /\ wf_col c' /\
    ColumnType c' = ColumnType c /\ depth c' = depth c) cs scs ->
  exists cs', append_columns (Append_ std_hash n) cs scs = (Ok tt, cs') /\
    map rows cs' = zip_with app (map rows cs) (map rows scs) /\ Forall wf_col cs' /\
    map ColumnType cs' = map ColumnType cs /\ map depth cs' = map depth cs.
Proof.
  induction 1 as [|c s cs scs (c' & E & Hr & Hw & Ht & Hd) _ (cs' & E' & Hr' & Hw' & Ht' & Hd')].
  - exists []. by split_and!.
  - exists (c' :: cs'). cbn [append_columns]. rewrite E, E'. split_and!; cbn; (done || congruence || by constructor).
Qed.
Lemma zip_args (P Q : column -> Prop) (cs : list column) : forall scs, map ColumnType scs = map ColumnType cs ->
  Forall P cs -> Forall Q scs -> Forall2 (fun c s => P c /\ Q s /\ ColumnType s = ColumnType c) cs scs.
Proof.
  induction cs as [|c cs IH]; intros [|s scs] Ht Hc Hs; try done. injection Ht as Ht1 Ht2.
  constructor; [|by apply IH; [|eapply Forall_inv_tail|eapply Forall_inv_tail]].
  split_and!; [by apply (Forall_inv Hc)|by apply (Forall_inv Hs)|done].
Qed.

Lemma zip_app_length (a b : nat) (ls : list (list val)) : forall ms, Forall (fun l => length l = a) ls ->
  Forall (fun l => length l = b) ms -> Forall (fun l => length l = (a + b)%nat) (zip_with app ls ms).
Proof.
  induction ls as [|l ls IH]; intros [|m ms] Hl Hm; try by constructor. cbn [zip_with]. constructor.
  - rewrite length_app. by rewrite (Forall_inv Hl), (Forall_inv Hm).
  - by apply IH; eapply Forall_inv_tail.
Qed.

(** The columns of a tuple: equally many rows, each no heavier than the tuple. *)
Lemma tuple_rows (cs : list column) (names : list bytes) : wf_col (ColumnTuple cs names) ->
  Forall (fun l => length l = Z.to_nat (Size (ColumnTuple cs names))) (map rows cs) /\
  Forall (fun c => wf_col c /\ weight (rows c) <= weight (rows (ColumnTuple cs names))) cs.
Proof.
  intros (Hw & Hs & _). apply foldr_Forall in Hw.
  assert (Forall (fun l => length l = Z.to_nat (Size (ColumnTuple cs names))) (map rows cs)) as Hl.
  { apply Forall_map, Forall_forall. intros c Hc. rewrite Forall_forall in Hw, Hs.
    rewrite <- (Hs c Hc), (Size_rows c (Hw c Hc)). unfold zlen. lia. }
  split; [done|]. apply Forall_forall. intros c Hc. split; [by rewrite Forall_forall in Hw; apply Hw|].
  apply (weight_transpose _ _ _ Hl). by apply list_elem_of_fmap_2.
Qed.

Lemma append_tuple (n : nat) (cs : list column) (names : list bytes) : (forall d, appendable n d) ->
  appendable (S n) (ColumnTuple cs names).
Proof.
  intros IHn src Hdep Hw Hsrc Hlc Hty Hfit.
  destruct (same_shape _ _ Hsrc Hty) as (scs & -> & Hts).
  destruct (tuple_rows _ _ Hw) as [Hl Hwt]. destruct (tuple_rows _ _ Hsrc) as [Hl' Hwt'].
  pose proof Hw as (_ & Hsz & Hc & Hleaf).
  destruct (append_columns_ok n cs scs) as (cs' & E & Hr & Hwc & Htc & Hdc).
  { assert (Forall (fun c => (wf_col c /\ weight (rows c) <= weight (rows (ColumnTuple cs names))) /\
      (depth c <= n)%nat /\ mentions Code.LowCardinality (ColumnType c) = false) cs) as Hcs.
    { apply Forall_and. split; [done|]. apply Forall_forall. intros c Hin. split.
      - eapply depth_elem; [|exact Hin]. cbn [depth] in Hdep. lia.
      - cbn [ColumnType mentions] in Hlc. apply orb_false_elim in Hlc as [_ Hlc].
        apply existsb_Forall, Forall_map in Hlc. rewrite Forall_forall in Hlc. by apply Hlc. }
    eapply Forall2_impl; [exact (zip_args _ _ _ _ Hts Hcs Hwt')|].
    intros c s (((Hwc & Hh) & Hd & Hm) & (Hws & Hhs) & Ht). apply IHn; (done || lia). }
  cbn [Append_]; open_append. rewrite Hty, CanAppendTupleType_refl by done. rewrite E. eexists. split; [done|].
  assert (Forall (fun d => Size d = Size (ColumnTuple cs names) + Size (ColumnTuple scs names)) cs') as Hsz'.
  { pose proof (zip_app_length _ _ _ _ Hl Hl') as H. rewrite <- Hr in H. apply Forall_map in H.
    rewrite Forall_forall in *. intros d Hd. rewrite (Size_rows d (Hwc d Hd)).
    specialize (H d Hd). cbn beta in H. unfold zlen. rewrite H.
    pose proof (Size_nonneg _ Hw). pose proof (Size_nonneg _ Hsrc). lia. }
  split_and!; try done.
  - cbn [rows]. rewrite Hr, (transpose_app _ _ _ Hl), map_app; [done|].
    apply (f_equal length) in Hts. rewrite !length_map in *. congruence.
  - cbn [wf_col]. rewrite Htc. split_and!; [by apply foldr_Forall| |done|by cbn [ColumnType]; rewrite Htc].
    eapply Forall_impl; [exact Hsz'|]. cbn beta. intros d ->. destruct cs' as [|d' cs'].
    + by destruct cs, scs.
    + by rewrite <- (Forall_inv Hsz').
  - cbn [ColumnType]. by rewrite Htc.
  - cbn [depth]. by rewrite Hdc.
Qed.

(** A column typed as an array of unnamed pairs is one. *)
Lemma map_shape (c : column) (k v : type) : wf_col c -> ColumnType c = TArray (TTuple [k; v] []) ->
  exists ck cv os, c = ColumnArray (ColumnTuple [ck; cv] []) os /\ ColumnType ck = k /\ ColumnType cv = v.
Proof.
  intros Hw Ht. pose proof (shape_of_type c Hw) as Hs. rewrite Ht in Hs. destruct Hs as (d & os & -> & Hd).
  pose proof (shape_of_type d (proj1 Hw)) as Hs. rewrite Hd in Hs. destruct Hs as (cs & -> & Hcs).
  destruct cs as [|ck [|cv [|? ?]]]; try done. injection Hcs as ? ?. eauto 10.
Qed.

Lemma append_map (n : nat) (data : column) : appendable n data -> appendable (S n) (ColumnMap data).
Proof.
  intros IH src Hdep (Hw & k & v & os & ->) Hsrc Hlc Hty Hfit. cbn [depth] in Hdep.
  destruct (same_shape _ _ Hsrc Hty) as (sdata & -> & Hts). destruct Hsrc as (Hws & _).
  destruct (IH sdata) as (c' & E & Hr & Hwc & Htc & Hdc); try (done || (cbn [depth]; lia)).
  { cbn in *. by rewrite orb_false_r. }
  destruct (map_shape c' _ _ Hwc Htc) as (k' & v' & os' & -> & Hk & Hv).
  cbn [Append_]; open_append. rewrite E. eexists. split; [done|]. split_and!; try done.
  - split; [done|eauto].
  - cbn. by rewrite Hk, Hv.
  - cbn [depth] in *. congruence.
Qed.

Lemma Append_ok (n : nat) : forall dst, appendable n dst.
Proof.
  induction n as [|n IH]; intros dst; [intros src Hd; by destruct dst; cbn in Hd; lia|].
  destruct dst as [code data|code e data|items|m data|size|w ty data|data os|nested nulls|cs names|data|].
  - intros src _ [Hc Hf] Hsrc _ Ht Hfit. pose proof (same_shape _ _ Hsrc Ht) as Hs.
    assert (exists data', src = ColumnVector code data') as [data' ->] by (unfold shape in Hs; by destruct code).
    cbn [Append_]; open_append. rewrite bool_decide_true by done. eexists. split; [done|]. cbn [rows]. rewrite map_app.
    split_and!; try done. split; [done|]. apply Forall_app. split; [done|]. apply Hsrc.
  - intros src _ [Hc Hf] Hsrc _ Ht Hfit. pose proof (same_shape _ _ Hsrc Ht) as Hs.
    assert (exists data', src = ColumnEnum code e data') as [data' ->] by (unfold shape in Hs; by destruct code).
    cbn [Append_]; open_append. rewrite bool_decide_true by done. eexists. split; [done|]. cbn [rows]. rewrite map_app.
    split_and!; try done. split; [done|]. apply Forall_app. split; [done|]. apply Hsrc.
  - intros src _ Hf Hsrc _ Ht Hfit. destruct (same_shape _ _ Hsrc Ht) as [items' ->].
    cbn [Append_]; open_append. eexists. split; [done|]. cbn [rows]. rewrite map_app. split_and!; try done. by apply Forall_app.
  - apply append_fixed.
  - intros src _ Hf Hsrc _ Ht Hfit. destruct (same_shape _ _ Hsrc Ht) as [size' ->].
    cbn [wf_col] in *. unfold is_u in *. pose proof (weight_len (rows (ColumnNothing size))) as H1.
    pose proof (weight_len (rows (ColumnNothing size'))) as H2. cbn [rows] in H1, H2. rewrite !zlen_replicate in *.
    cbn [rows Append_] in *; open_append. rewrite wrap_id by (unfold is_u; lia). eexists. split; [done|].
    cbn [rows wf_col]. split_and!; try (done || lia).
    + by rewrite Z2Nat.inj_add, replicate_add by lia.
    + unfold is_u. lia.
  - by apply append_wrap.
  - by apply append_array.
  - by apply append_nullable.
  - by apply append_tuple.
  - by apply append_map.
  - intros src _ _ _ Hlc. done.
Qed.
End Append.

(** ** Clear *)
Section Clear.
Context (std_hash : bytes -> Z).

Lemma rows_of_nils (es : list column) : Forall (fun e => rows e = []) es -> transpose (map rows es) = [].
Proof.
  intros H. destruct es as [|e es]; [done|]. cbn [map]. rewrite (Forall_inv H). by destruct (map rows es).
Qed.

(** Clearing empties a column in place; it keeps its type and its invariant. *)
Lemma Clear_ok (c : column) : wf_col c -> mentions Code.LowCardinality (ColumnType c) = false ->
  exists e, Clear std_hash c = Ok e /\ rows e = [] /\ Size e = 0 /\ wf_col e /\ ColumnType e = ColumnType c.
Proof.
  induction c as [| | |n data|size|w ty data IH|data os IH|nested nulls IH|cs names IH|data IH|] using column_ind';
    intros Hw Hlc; cbn [Clear].
  - eexists. split_and!; try done. by destruct Hw.
  - eexists. split_and!; try done. by destruct Hw.
  - eexists. split_and!; try done. by constructor.
  - eexists. split; [done|]. destruct Hw as (Hn & _). cbn. rewrite Z.div_0_l, Z.mod_0_l by lia. done.
  - eexists. split_and!; try done.
  - destruct (wrapped_plain _ _ _ (proj1 Hw)) as [Hl _]. destruct Hw as (Ht & Hw & _).
    destruct (IH Hw Hl) as (e & -> & Hr & Hs & He & Hty). cbn [rbind]. eexists. split; [done|].
    split_and!; try done.
    + cbn. rewrite Hr. by destruct w.
    + cbn. rewrite Hs. by destruct w.
    + split_and!; [by rewrite Hty|done|]. intros _. by rewrite Hs.
  - destruct Hw as (Hw & _ & _ & _ & _ & Hf). destruct (IH Hw) as (e & -> & Hr & Hs & He & Hty); [done|]. cbn [rbind].
    eexists. split; [done|]. split_and!; try done; [|by cbn; rewrite Hty].
    split_and!; (done || (rewrite ?Hs, ?Hty; done)).
  - destruct Hw as (Hw & _ & _ & Hf). destruct (IH Hw) as (e & -> & Hr & Hs & He & Hty); [done|]. cbn [rbind].
    eexists. split; [done|]. split_and!; try done; [|by cbn; rewrite Hty].
    split_and!; (done || (rewrite ?Hs, ?Hty; done)).
  - destruct (mapR_Forall2 (Clear std_hash) (fun c e => rows e = [] /\ Size e = 0 /\ wf_col e /\ ColumnType e = ColumnType c) cs)
      as (es & -> & H2).
    { destruct Hw as (Hw & _). apply foldr_Forall in Hw. cbn [ColumnType mentions] in Hlc.
      apply orb_false_elim in Hlc as [_ Hlc]. apply existsb_Forall, Forall_map in Hlc. rewrite Forall_forall in *. auto. }
    cbn [rbind]. eexists. split; [done|].
    assert (map ColumnType es = map ColumnType cs) as Ht
      by (apply Forall2_map_eq; eapply Forall2_impl; [exact H2|]; by intros ? ? (_ & _ & _ & ?)).
    assert (Forall (fun e => rows e = [] /\ Size e = 0 /\ wf_col e) es) as Hes.
    { eapply Forall2_Forall_r; [exact H2|]. apply Forall_forall. intros ? _ ? (? & ? & ? & _). done. }
    assert (Size (ColumnTuple es names) = 0) as Hs.
    { cbn. destruct es; [done|]. by destruct (Forall_inv Hes) as (_ & ? & _). }
    destruct Hw as (_ & _ & Hc & Hleaf). split_and!; try done.
    + cbn [rows]. rewrite rows_of_nils; [done|]. eapply Forall_impl; [exact Hes|]. by intros ? [].
    + cbn [wf_col]. rewrite Hs, Ht. split_and!; [|  |done|by cbn [ColumnType]; rewrite Ht].
      * apply foldr_Forall. eapply Forall_impl; [exact Hes|]. by intros ? (_ & _ & ?).
      * eapply Forall_impl; [exact Hes|]. by intros ? (_ & ? & _).
    + cbn. by rewrite Ht.
  - destruct Hw as (Hw & k & v & os & ->). set (data := ColumnArray (ColumnTuple [k; v] []) os) in *.
    destruct (IH Hw) as (e & E & Hr & Hs & He & Hty); [cbn in *; by rewrite orb_false_r|].
    rewrite E. destruct (map_shape e _ _ He Hty) as (k' & v' & os' & -> & Hk & Hv). cbn [rbind].
    eexists. split; [done|]. split_and!; try done; [split; [done|eauto]|]. cbn. by rewrite Hk, Hv.
  - done.
Qed.
End Clear.

(** ** Main results *)

(** C18. A slice is a sublist: for a well-formed column without dictionaries, at
    any nesting (nested arrays with rebased offsets, nullables, tuples, maps,
    UUIDs stored as pairs), [Slice] of an in-range window succeeds, its rows are
    exactly rows [begin, begin + len), and it is a well-formed column of the same
    type and of [len] rows. *)
Theorem Slice_refines (std_hash : bytes -> Z) (c : column) (begin len : Z)
    (Hw : wf_col c) (Hlc : mentions Code.LowCardinality (ColumnType c) = false)
    (Hb : 0 <= begin) (Hl : 0 <= len) (Hbl : begin + len <= Size c) :
  exists c', Slice std_hash c begin len = Ok c' /\ rows c' = zslice begin len (rows c) /\
    wf_col c' /\ ColumnType c' = ColumnType c /\ Size c' = len.
Proof.
  destruct (Slice_ok std_hash c begin len Hw Hlc Hb Hl Hbl) as (c' & ? & ? & ? & ? & _ & ?). eauto 10.
Qed.

(** Three rows of [Array(Nullable(FixedString(2)))]. *)
Definition example_array : column :=
  ColumnArray (ColumnNullable (ColumnFixedString 2 (str "abcdef")) [0; 1; 0]) [2; 2; 3].

Lemma example_array_wf : wf_col example_array.
Proof. unfold example_array. wf_auto. Qed.

Lemma Slice_refines_witness :
  exists c', Slice (fun _ => 0) example_array 1 2 = Ok c' /\ rows c' = zslice 1 2 (rows example_array) /\
    wf_col c' /\ ColumnType c' = ColumnType example_array /\ Size c' = 2.
Proof. apply (Slice_refines (fun _ => 0) example_array 1 2); [exact example_array_wf|reflexivity|lia|lia|vm_compute; congruence]. Defined.

(** C17. Append is concatenation: appending a column of the same type to a
    well-formed column without dictionaries succeeds and its rows are the old
    rows followed by the appended ones, at any nesting (arrays are re-sliced and
    re-offset row by row, nulls follow their values, tuples go column by column);
    the type and the invariant are kept.  The sizes must fit a [size_t]. *)
Theorem Append_refines (std_hash : bytes -> Z) (dst src : column)
    (Hd : wf_col dst) (Hs : wf_col src) (Hlc : mentions Code.LowCardinality (ColumnType dst) = false)
    (Ht : ColumnType src = ColumnType dst) (Hfit : weight (rows dst) + weight (rows src) < 2 ^ 64) :
  exists c', Append std_hash src dst = (Ok tt, c') /\ rows c' = rows dst ++ rows src /\
    wf_col c' /\ ColumnType c' = ColumnType dst.
Proof.
  destruct (Append_ok std_hash (depth dst) dst src (Nat.le_refl _) Hd Hs Hlc Ht Hfit) as (c' & ? & ? & ? & ? & _). eauto 10.
Qed.

Lemma Append_refines_witness :
  exists c', Append (fun _ => 0) example_array example_array = (Ok tt, c') /\
    rows c' = rows example_array ++ rows example_array /\ wf_col c' /\ ColumnType c' = ColumnType example_array.
Proof.
  apply (Append_refines (fun _ => 0) example_array example_array);
    [exact example_array_wf|exact example_array_wf|reflexivity|reflexivity|vm_compute; reflexivity].
Defined.

(** Size and Clear: the size of a well-formed column is its number of rows;
    [Clear] of a column without dictionaries succeeds, leaves no rows and keeps
    the type and the invariant; what is then appended is all the column holds. *)
Lemma Clear_refines (std_hash : bytes -> Z) (c src : column) (Hw : wf_col c) (Hs : wf_col src)
    (Hlc : mentions Code.LowCardinality (ColumnType c) = false) (Ht : ColumnType src = ColumnType c)
    (Hfit : weight (rows src) < 2 ^ 64) :
  Size c = zlen (rows c) /\
  exists e c', Clear std_hash c = Ok e /\ rows e = [] /\ Size e = 0 /\ wf_col e /\ ColumnType e = ColumnType c /\
    Append std_hash src e = (Ok tt, c') /\ rows c' = rows src /\ Size c' = Size src.
Proof.
  split; [by apply Size_rows|]. destruct (Clear_ok std_hash c Hw Hlc) as (e & Ec & Hr & Hz & He & Hty).
  destruct (Append_ok std_hash (depth e) e src (Nat.le_refl _) He Hs) as (c' & Ea & Hra & Hwa & _).
  - by rewrite Hty.
  - by rewrite Hty.
  - by rewrite Hr.
  - exists e, c'. rewrite Hr in Hra. split_and!; try done. rewrite !Size_rows by done. by rewrite Hra.
Qed.

