(* ===== verification/Swap.v ===== *)
(** * Swapping columns (the [Swap] members of clickhouse/columns/)

    [Swap] exchanges the contents of two columns in place; each object keeps its own type.  The outcome is what
    [Swap] returns or throws together with the two columns afterwards, so that a [Swap] that throws half-way shows.
    The typed classes (ColumnArrayT and its like) override [Swap] with a cast to their own template instance: a column
    comes with the dynamic classes of the objects it is made of, and the casts are made where the code makes them. *)

From S2P Require Import Prelude Streams WireFormat CityHash Text Types Columns ColumnRows ColumnOps.

#[local] Set Warnings "-register-all".

(** ** Dynamic classes *)

(** The name of a template instance ([ColumnArrayT<ColumnUInt8>]); no name for a class that is not one of the templates
    whose [Swap] casts to the instance: those cast to the class of the constructor below. *)
Abbreviation template := (option bytes).

(** The dynamic classes of the objects of a column: that of the column, and those of the columns it holds. *)
Inductive classes := Classes (own : template) (parts : list classes).

Definition own (k : classes) : template := match k with Classes own _ => own end.

Definition parts (k : classes) : list classes := match k with Classes _ parts => parts end.

(** Columns no template has made, as the factory builds them. *)
Definition untyped : classes := Classes None [].

(** The class of the only part, or of the first one. *)
Definition part (k : classes) : classes := hd untyped (parts k).

(** [dynamic_cast<ColumnArrayT<NestedColumnType> &>(other)] and its like, which the typed classes make before they call
    [Swap] of the class they derive from. *)
Definition same_template (k k' : classes) : bool :=
  match own k with None => true | Some t => bool_decide (own k' = Some t) end.

(** ** The operation *)

Definition swap_outcome : Type := result unit * (column * column).

Definition swapped (a b : column) : swap_outcome := (Ok tt, (a, b)).

(** A failed [dynamic_cast] to a reference. *)
Definition bad_cast (a b : column) : swap_outcome := (Throw BadCast, (a, b)).

(** The checks of the delegating classes after the cast. *)
Definition swap_check (w : wrapper) (ta tb : type) : result unit :=
  match w, ta, tb with
  | WDecimal, TDecimal p s, TDecimal p' s' =>
    if negb (p' =? p) then Throw ValidationError else if negb (s' =? s) then Throw ValidationError else Ok tt
  | WDateTime64, TDateTime64 p _, TDateTime64 p' _ => if negb (p' =? p) then Throw ValidationError else Ok tt
  | WTime64, TTime64 p, TTime64 p' => if negb (p' =? p) then Throw ValidationError else Ok tt
  | _, _, _ => Ok tt
  end.

(** The classes that hold a column in [data_] exchange the pointers. *)
Definition ColumnWrap_Swap (w : wrapper) (ta tb : type) (d d' : column) : swap_outcome :=
  match swap_check w ta tb with
  | Ok _ => swapped (ColumnWrap w ta d') (ColumnWrap w tb d)
  | Throw e => (Throw e, (ColumnWrap w ta d, ColumnWrap w tb d'))
  end.

Definition ColumnFixedString_Swap (n n' : Z) (data data' : bytes) : swap_outcome :=
  if negb (n =? n') then (Throw ValidationError, (ColumnFixedString n data, ColumnFixedString n' data'))
  else swapped (ColumnFixedString n data') (ColumnFixedString n' data).

Definition ColumnArray_Swap (swap : swap_outcome) (os os' : list Z) : swap_outcome :=
  match swap with
  | (Ok _, (d, d')) => swapped (ColumnArray d os') (ColumnArray d' os)
  | (Throw e, (d, d')) => (Throw e, (ColumnArray d os, ColumnArray d' os'))
  end.

Definition ColumnNullable_Swap (swap : swap_outcome) (n n' : column) (nulls nulls' : list Z) : swap_outcome :=
  match IsEqual (ColumnType n) (ColumnType n') with
  | Throw e => (Throw e, (ColumnNullable n nulls, ColumnNullable n' nulls'))
  | Ok false => (Throw ValidationError, (ColumnNullable n nulls, ColumnNullable n' nulls'))
  | Ok true =>
    match swap with
    | (Ok _, (d, d')) => swapped (ColumnNullable d nulls') (ColumnNullable d' nulls)
    | (Throw e, (d, d')) => (Throw e, (ColumnNullable d nulls, ColumnNullable d' nulls'))
    end
  end.

(** The loop that compares the element types. *)
Fixpoint check_elements (cs cs' : list column) : result unit :=
  match cs, cs' with
  | c :: cs, c' :: cs' =>
    let! equal := IsEqual (ColumnType c) (ColumnType c') in
    if equal : bool then check_elements cs cs' else Throw ValidationError
  | _, _ => Ok tt
  end.

(** The loop that swaps the elements; an exception leaves those before it swapped. *)
Definition swap_elements (swap : classes -> classes -> column -> column -> swap_outcome) :
    list classes -> list classes -> list column -> list column -> result unit * (list column * list column) :=
  fix go ks ks' cs cs' :=
    match cs, cs' with
    | c :: cs, c' :: cs' =>
      match swap (hd untyped ks) (hd untyped ks') c c' with
      | (Ok _, (d, d')) => let '(r, (ds, ds')) := go (tl ks) (tl ks') cs cs' in (r, (d :: ds, d' :: ds'))
      | (Throw e, (d, d')) => (Throw e, (d :: cs, d' :: cs'))
      end
    | _, _ => (Ok tt, (cs, cs'))
    end.

Definition ColumnTuple_Swap (swap : classes -> classes -> column -> column -> swap_outcome) (ks ks' : list classes) (cs cs' : list column)
    (names names' : list bytes) : swap_outcome :=
  if negb (length cs =? length cs')%nat then (Throw ValidationError, (ColumnTuple cs names, ColumnTuple cs' names'))
  else match check_elements cs cs' with
       | Throw e => (Throw e, (ColumnTuple cs names, ColumnTuple cs' names'))
       | Ok _ =>
         let '(r, (ds, ds')) := swap_elements swap ks ks' cs cs' in
         (r, (ColumnTuple ds names, ColumnTuple ds' names'))
       end.

Definition ColumnMap_Swap (swap : swap_outcome) : swap_outcome :=
  let '(r, (d, d')) := swap in (r, (ColumnMap d, ColumnMap d')).

(** Dictionaries in place, then the index bundle and the map of unique items. *)
Definition ColumnLowCardinality_Swap (swap : swap_outcome) (d d' : column) (code code' : Code.t) (index index' : list Z)
    (u u' : gmap (Z * Z) Z) : swap_outcome :=
  let unchanged := (ColumnLowCardinality d code index u, ColumnLowCardinality d' code' index' u') in
  match IsEqual (ColumnType d) (ColumnType d') with
  | Throw e => (Throw e, unchanged)
  | Ok false => (Throw ValidationError, unchanged)
  | Ok true =>
    match swap with
    | (Ok _, (e, e')) => swapped (ColumnLowCardinality e code' index' u') (ColumnLowCardinality e' code index u)
    | (Throw x, (e, e')) => (Throw x, (ColumnLowCardinality e code index u, ColumnLowCardinality e' code' index' u'))
    end
  end.

(** [a.Swap(b)], for columns of the dynamic classes [k] and [k']. *)
Fixpoint Swap (k k' : classes) (a b : column) : swap_outcome :=
  if negb (same_template k k') then bad_cast a b else
  match a, b with
  | ColumnVector code data, ColumnVector code' data' =>
    if bool_decide (code = code') then swapped (ColumnVector code data') (ColumnVector code' data) else bad_cast a b
  | ColumnEnum code e data, ColumnEnum code' e' data' =>
    if bool_decide (code = code') then swapped (ColumnEnum code e data') (ColumnEnum code' e' data) else bad_cast a b
  | ColumnString items, ColumnString items' => swapped (ColumnString items') (ColumnString items)
  | ColumnFixedString n data, ColumnFixedString n' data' => ColumnFixedString_Swap n n' data data'
  | ColumnNothing size, ColumnNothing size' => swapped (ColumnNothing size') (ColumnNothing size)
  | ColumnWrap w ta d, ColumnWrap w' tb d' =>
    if bool_decide (w = w') then ColumnWrap_Swap w ta tb d d' else bad_cast a b
  | ColumnArray d os, ColumnArray d' os' => ColumnArray_Swap (Swap (part k) (part k') d d') os os'
  | ColumnNullable n nulls, ColumnNullable n' nulls' => ColumnNullable_Swap (Swap (part k) (part k') n n') n n' nulls nulls'
  | ColumnTuple cs names, ColumnTuple cs' names' => ColumnTuple_Swap Swap (parts k) (parts k') cs cs' names names'
  | ColumnMap d, ColumnMap d' => ColumnMap_Swap (Swap (part k) (part k') d d')
  | ColumnLowCardinality d code index u, ColumnLowCardinality d' code' index' u' =>
    ColumnLowCardinality_Swap (Swap (part k) (part k') d d') d d' code code' index index' u u'
  | _, _ => bad_cast a b
  end.

(** Whether all the casts to template instances succeed. *)
Fixpoint castable (k k' : classes) (a b : column) : bool :=
  same_template k k' &&
  match a, b with
  | ColumnArray d _, ColumnArray d' _ | ColumnNullable d _, ColumnNullable d' _ | ColumnMap d, ColumnMap d'
  | ColumnLowCardinality d _ _ _, ColumnLowCardinality d' _ _ _ => castable (part k) (part k') d d'
  | ColumnTuple cs _, ColumnTuple cs' _ =>
    (fix go ks ks' cs cs' :=
       match cs, cs' with
       | c :: cs, c' :: cs' => castable (hd untyped ks) (hd untyped ks') c c' && go (tl ks) (tl ks') cs cs'
       | _, _ => true
       end) (parts k) (parts k') cs cs'
  | _, _ => true
  end.

Fixpoint castable_elements (ks ks' : list classes) (cs cs' : list column) : bool :=
  match cs, cs' with
  | c :: cs, c' :: cs' => castable (hd untyped ks) (hd untyped ks') c c' && castable_elements (tl ks) (tl ks') cs cs'
  | _, _ => true
  end.

(** The pairs of types [Swap] compares by their ids. *)
Fixpoint compared (a b : column) : list (type * type) :=
  match a, b with
  | ColumnArray d _, ColumnArray d' _ | ColumnMap d, ColumnMap d' => compared d d'
  | ColumnNullable n _, ColumnNullable n' _ => [(ColumnType n, ColumnType n')]
  | ColumnTuple cs _, ColumnTuple cs' _ => zip (map ColumnType cs) (map ColumnType cs')
  | ColumnLowCardinality d _ _ _, ColumnLowCardinality d' _ _ _ => [(ColumnType d, ColumnType d')]
  | _, _ => []
  end.

(** Types the comparison by ids finds equal are equal. *)
Definition told_apart (l : list (type * type)) : Prop := Forall (fun p => IsEqual (fst p) (snd p) = Ok true -> fst p = snd p) l.

(** Both columns have exchanged their rows and kept their types. *)
Definition exchanged (a b a' b' : column) : Prop :=
  wf_col a' /\ wf_col b' /\ ColumnType a' = ColumnType a /\ ColumnType b' = ColumnType b /\ rows a' = rows b /\ rows b' = rows a.

(** What a [Swap] leaves of [a] and [b] when a cast to a template instance fails on the way: elements of a tuple before the
    failing one have changed sides; everything else is where it was. *)
Inductive torn : column -> column -> column -> column -> Prop :=
| torn_none a b : torn a b a b
| torn_array d d' e e' os os' : torn d d' e e' -> torn (ColumnArray d os) (ColumnArray d' os') (ColumnArray e os) (ColumnArray e' os')
| torn_nullable d d' e e' us us' : torn d d' e e' ->
    torn (ColumnNullable d us) (ColumnNullable d' us') (ColumnNullable e us) (ColumnNullable e' us')
| torn_tuple cs cs' c c' e e' more more' names names' : length cs = length cs' -> torn c c' e e' ->
    torn (ColumnTuple (cs ++ c :: more) names) (ColumnTuple (cs' ++ c' :: more') names')
         (ColumnTuple (cs' ++ e :: more) names) (ColumnTuple (cs ++ e' :: more') names')
| torn_map d d' e e' : torn d d' e e' -> torn (ColumnMap d) (ColumnMap d') (ColumnMap e) (ColumnMap e')
| torn_dictionary d d' e e' code code' index index' u u' : torn d d' e e' ->
    torn (ColumnLowCardinality d code index u) (ColumnLowCardinality d' code' index' u')
         (ColumnLowCardinality e code index u) (ColumnLowCardinality e' code' index' u').

(** A column without tuples. *)
Fixpoint tuple_free (c : column) : bool :=
  match c with
  | ColumnTuple _ _ => false
  | ColumnArray d _ | ColumnNullable d _ | ColumnMap d | ColumnLowCardinality d _ _ _ => tuple_free d
  | _ => true
  end.

(** ** Proofs *)

Lemma castable_tuple (k k' : classes) (cs cs' : list column) (names names' : list bytes) :
  castable k k' (ColumnTuple cs names) (ColumnTuple cs' names') = same_template k k' && castable_elements (parts k) (parts k') cs cs'.
Proof. reflexivity. Qed.

Lemma castable_same (k k' : classes) (a b : column) : castable k k' a b = true -> same_template k k' = true.
Proof. destruct a; cbn [castable]; intros H; by apply andb_prop in H as [-> _]. Qed.

(** An untyped column casts to no template instance. *)
Lemma castable_untyped (k' : classes) (a b : column) : castable untyped k' a b = true.
Proof.
  assert (forall cs, Forall (fun a => forall k' b, castable untyped k' a b = true) cs ->
    forall ks' cs', castable_elements [] ks' cs cs' = true) as Hcs.
  { induction 1 as [|c cs Hc _ IH]; intros ks' [|c' cs']; try done. cbn [castable_elements hd tl]. by rewrite Hc, IH. }
  revert k' b. induction a using column_ind'; intros k' b; destruct b; try done; try (by cbn; rewrite IHa).
  rewrite castable_tuple. cbn. by apply Hcs.
Qed.

Lemma torn_tuple_free (a b a' b' : column) : torn a b a' b' -> tuple_free a = true -> a' = a /\ b' = b.
Proof. induction 1; cbn; intros Hf; try done; destruct (IHtorn Hf) as [-> ->]; done. Qed.

Lemma zlen_join (sep x : bytes) (l : list bytes) : x ∈ l -> zlen x <= zlen (join sep l).
Proof.
  induction l as [|y [|z l] IH]; intros Hx; [by apply elem_of_nil in Hx|by apply list_elem_of_singleton in Hx as ->|].
  change (join sep (y :: z :: l)) with (y ++ sep ++ join sep (z :: l)). rewrite !zlen_app. pose proof (zlen_nonneg y). pose proof (zlen_nonneg sep).
  pose proof (zlen_nonneg (join sep (z :: l))). apply elem_of_cons in Hx as [->|Hx]; [lia|]. specialize (IH Hx). lia.
Qed.

(** The name of an element is a part of the name of the tuple. *)
Lemma tuple_name_fits (ts : list type) (names : list bytes) : name_fits (TTuple ts names) -> Forall name_fits ts.
Proof.
  unfold name_fits. cbn [GetName]. rewrite !zlen_app. intros Hn. apply Forall_forall. intros t Ht.
  apply list_elem_of_lookup in Ht as [i Hi].
  assert (tuple_item names i (GetName t) ∈ imap (tuple_item names) (map GetName ts)) as Hin.
  { apply list_elem_of_lookup. exists i. by rewrite list_lookup_imap, list_lookup_fmap, Hi. }
  apply (zlen_join (str ", ")) in Hin.
  assert (zlen (GetName t) <= zlen (tuple_item names i (GetName t))).
  { unfold tuple_item. destruct names as [|n names]; [done|]. rewrite !zlen_app. pose proof (zlen_nonneg (Fieldname (nth i (n :: names) []))).
    pose proof (zlen_nonneg (str " ")). lia. }
  pose proof (zlen_nonneg (str "Tuple(")). pose proof (zlen_nonneg (str ")")). lia.
Qed.

(** Names that [Swap] hashes fit; an array is not compared itself. *)
Definition fits_swap (c : column) : Prop := match c with ColumnArray _ _ => True | _ => name_fits (ColumnType c) end.

Lemma check_elements_refl (cs : list column) : forall cs', map ColumnType cs = map ColumnType cs' ->
  Forall name_fits (map ColumnType cs) -> check_elements cs cs' = Ok tt.
Proof.
  induction cs as [|c cs IH]; intros [|c' cs'] Ht Hf; try done. injection Ht as Hc Ht. apply Forall_cons in Hf as [Hn Hf].
  cbn [check_elements]. rewrite <- Hc, IsEqual_refl by done. cbn [rbind]. by apply IH.
Qed.

(** What [Swap] does to columns of the same type: it exchanges them if every cast succeeds, and throws if not. *)
Definition swap_spec (k k' : classes) (a b : column) : Prop :=
  if castable k k' a b then Swap k k' a b = swapped b a
  else exists e a' b', Swap k k' a b = (Throw e, (a', b')) /\ torn a b a' b'.

Lemma swap_elements_spec (cs : list column) :
  Forall (fun a => forall k k' b, wf_col a -> wf_col b -> fits_swap a -> ColumnType a = ColumnType b -> swap_spec k k' a b) cs ->
  forall ks ks' cs', map ColumnType cs = map ColumnType cs' -> Forall wf_col cs -> Forall wf_col cs' -> Forall name_fits (map ColumnType cs) ->
  if castable_elements ks ks' cs cs' then swap_elements Swap ks ks' cs cs' = (Ok tt, (cs', cs))
  else exists x pre pre' c c' e e' more more', swap_elements Swap ks ks' cs cs' = (Throw x, (pre' ++ e :: more, pre ++ e' :: more')) /\
    cs = pre ++ c :: more /\ cs' = pre' ++ c' :: more' /\ length pre = length pre' /\ torn c c' e e'.
Proof.
  induction 1 as [|c cs Hc Hcs IH]; intros ks ks' [|c' cs'] Ht Hw Hw' Hf; try done. injection Ht as Htc Ht.
  apply Forall_cons in Hf as [Hn Hf]. apply Forall_cons in Hw as [Hwc Hw]. apply Forall_cons in Hw' as [Hwc' Hw'].
  cbn [castable_elements swap_elements]. specialize (Hc (hd untyped ks) (hd untyped ks') c' Hwc Hwc' ltac:(by destruct c) Htc).
  unfold swap_spec in Hc. destruct (castable _ _ c c'); cbn [andb].
  - rewrite Hc. unfold swapped. fold (swap_elements Swap). specialize (IH (tl ks) (tl ks') cs' Ht Hw Hw' Hf).
    destruct (castable_elements _ _ cs cs'); [by rewrite IH|].
    destruct IH as (x & pre & pre' & d & d' & e & e' & more & more' & -> & -> & -> & Hl & Htorn).
    exists x, (c :: pre), (c' :: pre'), d, d', e, e', more, more'. split_and!; try done. cbn. by rewrite Hl.
  - destruct Hc as (x & e & e' & -> & Htorn). by exists x, [], [], c, c', e, e', cs, cs'.
Qed.

(** A column of the type of a delegating class is of that class. *)
Lemma wrap_same (w : wrapper) (ty : type) (d b : column) : wf_col (ColumnWrap w ty d) -> wf_col b -> ColumnType b = ty ->
  exists d', b = ColumnWrap w ty d'.
Proof.
  intros (Hw & _) Hb Ht. pose proof (shape_of_type b Hb) as Hs. rewrite Ht in Hs. unfold shape in Hs.
  by rewrite (wrapped_code _ _ _ Hw) in Hs.
Qed.

Lemma swap_check_refl (w : wrapper) (t : type) : swap_check w t t = Ok tt.
Proof. destruct w, t; try done; cbn; by rewrite ?Z.eqb_refl. Qed.

(** A part decides for the whole. *)
Lemma spec_part (k k' : classes) (a b d d' : column) (wrap : column -> column -> column * column) :
  castable k k' a b = same_template k k' && castable (part k) (part k') d d' ->
  (same_template k k' = true -> Swap k k' a b = match Swap (part k) (part k') d d' with
     | (Ok _, (e, e')) => swapped b a
     | (Throw x, (e, e')) => (Throw x, wrap e e')
     end) ->
  (same_template k k' = false -> Swap k k' a b = bad_cast a b) ->
  (forall e e', torn d d' e e' -> torn a b (fst (wrap e e')) (snd (wrap e e'))) ->
  swap_spec (part k) (part k') d d' -> swap_spec k k' a b.
Proof.
  intros Hk Hs Hn Ht Hd. unfold swap_spec in *. rewrite Hk. destruct (same_template k k'); cbn [andb].
  - rewrite Hs by done. destruct (castable (part k) (part k') d d').
    + rewrite Hd. done.
    + destruct Hd as (x & e & e' & -> & Hd). eexists x, _, _. split; [by rewrite <- surjective_pairing|]. by apply Ht.
  - rewrite Hn by done. exists BadCast, a, b. split; [done|]. constructor.
Qed.

Lemma spec_leaf (k k' : classes) (a b : column) : castable k k' a b = same_template k k' ->
  (same_template k k' = true -> Swap k k' a b = swapped b a) -> (same_template k k' = false -> Swap k k' a b = bad_cast a b) -> swap_spec k k' a b.
Proof.
  intros Hk Hs Hn. unfold swap_spec. rewrite Hk. destruct (same_template k k'); [by apply Hs|]. rewrite Hn by done.
  exists BadCast, a, b. split; [done|constructor].
Qed.

(** Close the goals of [spec_part] and [spec_leaf] by computing one step. *)
Ltac one_cast := let H := fresh "Hsame" in intros H; cbn [Swap]; rewrite H; cbn [negb].

Lemma swap_same (a : column) : forall k k' b, wf_col a -> wf_col b -> fits_swap a -> ColumnType a = ColumnType b -> swap_spec k k' a b.
Proof.
  induction a as [code data|code e data|items|n data|size|w ty d IH|d os IH|d nulls IH|cs names IH|d IH|d code index u IH] using column_ind';
    intros k k' b Hw Hw' Hf Ht; pose proof (shape_of_type b Hw') as Hs; rewrite <- Ht in Hs; cbn [ColumnType] in Hs.
  - destruct Hw as [Hc _]. destruct code; try done; destruct Hs as [data' ->]; (apply spec_leaf; [cbn; by rewrite andb_true_r|by one_cast..]).
  - destruct Hw as [Hc _]. destruct code; try done; destruct Hs as [data' ->]; (apply spec_leaf; [cbn; by rewrite andb_true_r|by one_cast..]).
  - destruct Hs as [items' ->]. apply spec_leaf; [cbn; by rewrite andb_true_r|by one_cast..].
  - destruct Hs as [data' ->]. apply spec_leaf; [cbn; by rewrite andb_true_r| |by one_cast]. one_cast. unfold ColumnFixedString_Swap. by rewrite Z.eqb_refl.
  - destruct Hs as [size' ->]. apply spec_leaf; [cbn; by rewrite andb_true_r|by one_cast..].
  - destruct (wrap_same w ty d b Hw Hw' (eq_sym Ht)) as [d' ->]. apply spec_leaf; [cbn; by rewrite andb_true_r| |by one_cast].
    one_cast. rewrite bool_decide_true by done. unfold ColumnWrap_Swap. by rewrite swap_check_refl.
  - destruct Hs as (d' & os' & -> & Htd). pose proof Hw as (Hd & _ & _ & _ & _ & Hn). pose proof Hw' as (Hd' & _).
    specialize (IH (part k) (part k') d' Hd Hd' ltac:(by destruct d) (eq_sym Htd)).
    apply (spec_part k k' _ _ d d' (fun e e' => (ColumnArray e os, ColumnArray e' os'))); [done| |by one_cast|intros; by constructor|exact IH].
    one_cast. unfold ColumnArray_Swap. unfold swap_spec in IH. destruct (castable _ _ d d'); [by rewrite IH|].
    by destruct IH as (x & e & e' & -> & _).
  - destruct Hs as (d' & nulls' & -> & Htd). pose proof Hw as (Hd & _ & _ & Hn). pose proof Hw' as (Hd' & _).
    specialize (IH (part k) (part k') d' Hd Hd' ltac:(by destruct d) (eq_sym Htd)).
    apply (spec_part k k' _ _ d d' (fun e e' => (ColumnNullable e nulls, ColumnNullable e' nulls'))); [done| |by one_cast|intros; by constructor|exact IH].
    one_cast. unfold ColumnNullable_Swap. rewrite Htd, IsEqual_refl by done. unfold swap_spec in IH. destruct (castable _ _ d d'); [by rewrite IH|].
    by destruct IH as (x & e & e' & -> & _).
  - destruct Hs as (cs' & -> & Hts). pose proof Hw as (Hcs & _). pose proof Hw' as (Hcs' & _). apply foldr_Forall in Hcs, Hcs'.
    apply tuple_name_fits in Hf. unfold swap_spec. rewrite castable_tuple. cbn [Swap].
    destruct (same_template k k'); cbn [andb negb]; [|exists BadCast; eexists _, _; split; [done|constructor]].
    unfold ColumnTuple_Swap.
    assert (length cs = length cs') as Hlen by (rewrite <- (length_map ColumnType cs), <- Hts; by rewrite length_map).
    rewrite Hlen, Nat.eqb_refl. cbn [negb]. rewrite check_elements_refl by done.
    pose proof (swap_elements_spec cs IH (parts k) (parts k') cs' (eq_sym Hts) Hcs Hcs' Hf) as Hspec.
    destruct (castable_elements _ _ cs cs'); [by rewrite Hspec|].
    destruct Hspec as (x & pre & pre' & c & c' & e & e' & more & more' & -> & -> & -> & Hl & Htorn).
    exists x. eexists _, _. split; [done|]. by constructor.
  - destruct Hw as (Hd & k1 & v & os & ->). destruct Hs as (d' & -> & Htd). destruct Hw' as (Hd' & _).
    set (d := ColumnArray (ColumnTuple [k1; v] []) os) in *.
    specialize (IH (part k) (part k') d' Hd Hd' Logic.I (eq_sym Htd)).
    apply (spec_part k k' _ _ d d' (fun e e' => (ColumnMap e, ColumnMap e'))); [done| |by one_cast|intros; by constructor|exact IH].
    intros Hsame. change (Swap k k' (ColumnMap d) (ColumnMap d')) with
      (if negb (same_template k k') then bad_cast (ColumnMap d) (ColumnMap d') else ColumnMap_Swap (Swap (part k) (part k') d d')). rewrite Hsame. cbn [negb].
    unfold ColumnMap_Swap. unfold swap_spec in IH. destruct (castable _ _ d d'); [by rewrite IH|]. by destruct IH as (x & e & e' & -> & _).
  - destruct Hs as (d' & code' & index' & u' & -> & Htd). pose proof Hw as (Hd & _). pose proof Hw' as (Hd' & _).
    assert (name_fits (ColumnType d)) as Hn.
    { unfold fits_swap, name_fits in *. cbn [ColumnType GetName] in Hf. rewrite !zlen_app in Hf. pose proof (zlen_nonneg (str "LowCardinality(")).
      pose proof (zlen_nonneg (str ")")). lia. }
    specialize (IH (part k) (part k') d' Hd Hd' ltac:(by destruct d) (eq_sym Htd)).
    apply (spec_part k k' _ _ d d' (fun e e' => (ColumnLowCardinality e code index u, ColumnLowCardinality e' code' index' u')));
      [done| |by one_cast|intros; by constructor|exact IH].
    one_cast. unfold ColumnLowCardinality_Swap. rewrite Htd, IsEqual_refl by done. unfold swap_spec in IH. destruct (castable _ _ d d'); [by rewrite IH|].
    by destruct IH as (x & e & e' & -> & _).
Qed.

Lemma exchanged_same (a b : column) : wf_col a -> wf_col b -> ColumnType a = ColumnType b -> exchanged a b b a.
Proof. intros Hw Hw' Ht. by split_and!. Qed.

(** Either exchanged, or an exception: with nothing changed, or, where a cast to a template instance fails, torn. *)
Definition all_or_nothing (k k' : classes) (a b : column) : Prop :=
  if castable k k' a b
  then (exists a' b', Swap k k' a b = swapped a' b' /\ exchanged a b a' b') \/ exists e, Swap k k' a b = (Throw e, (a, b))
  else exists e a' b', Swap k k' a b = (Throw e, (a', b')) /\ torn a b a' b'.

Lemma swap_of_same (k k' : classes) (a b : column) : wf_col a -> wf_col b -> fits_swap a -> ColumnType a = ColumnType b -> all_or_nothing k k' a b.
Proof.
  intros Hw Hw' Hf Ht. pose proof (swap_same a k k' b Hw Hw' Hf Ht) as Hs. unfold swap_spec, all_or_nothing in *.
  destruct (castable k k' a b); [|done]. left. exists b, a. split; [done|by apply exchanged_same].
Qed.

(** Nothing has changed when [Swap] throws before it swaps anything. *)
Lemma swap_refused (k k' : classes) (a b : column) (e : exn) : Swap k k' a b = (Throw e, (a, b)) -> all_or_nothing k k' a b.
Proof. intros E. unfold all_or_nothing. destruct (castable k k' a b); [right; by exists e|]. exists e, a, b. split; [done|constructor]. Qed.

(** Leaves the case in which the column's own cast succeeds. *)
Ltac refuse :=
  let H := fresh "Hsame" in
  match goal with |- all_or_nothing ?k ?k' _ _ => destruct (same_template k k') eqn:H end;
  eapply swap_refused; cbn [Swap]; rewrite H; cbn [negb]; [|reflexivity].

(** A pair no cast to a template instance stands in the way of. *)
Lemma leaf_outcome (k k' : classes) (a b a' b' : column) : castable k k' a b = same_template k k' ->
  (same_template k k' = true -> Swap k k' a b = swapped a' b') -> (same_template k k' = false -> Swap k k' a b = bad_cast a b) ->
  exchanged a b a' b' -> all_or_nothing k k' a b.
Proof.
  intros Hk Hs Hn Hx. unfold all_or_nothing. rewrite Hk. destruct (same_template k k'); [left; exists a', b'; split; [by apply Hs|done]|].
  rewrite Hn by done. exists BadCast, a, b. split; [done|constructor].
Qed.

Lemma swap_wrap (k k' : classes) (w : wrapper) (ta tb : type) (d d' : column) : wf_col (ColumnWrap w ta d) -> wf_col (ColumnWrap w tb d') ->
  all_or_nothing k k' (ColumnWrap w ta d) (ColumnWrap w tb d').
Proof.
  intros (Ha & Hd & Hu) (Hb & Hd' & Hu').
  destruct (swap_check w ta tb) as [[]|x] eqn:E.
  - apply (leaf_outcome _ _ _ _ (ColumnWrap w ta d') (ColumnWrap w tb d)); [cbn; by rewrite andb_true_r| |by one_cast|].
    { one_cast. rewrite bool_decide_true by done. unfold ColumnWrap_Swap. by rewrite E. }
    assert (wrapped_type w ta = wrapped_type w tb) as Heq.
    { destruct w, ta as [[]| | | | | | | | | | |], tb as [[]| | | | | | | | | | |]; try done; cbn in E |- *;
        repeat match type of E with context [?x =? ?y] => destruct (Z.eqb_spec x y); subst; [|done] end; done. }
    split_and!; try done; try (by destruct w); cbn [wf_col]; split_and!; try done; congruence.
  - refuse. rewrite bool_decide_true by done. unfold ColumnWrap_Swap. by rewrite E.
Qed.

(** The outcome for a part is the outcome for the whole. *)
Lemma outcome_part (k k' : classes) (a b d d' : column) (whole : column -> column -> column * column) (wrap : column -> column -> column * column) :
  castable k k' a b = same_template k k' && castable (part k) (part k') d d' ->
  (same_template k k' = true -> Swap k k' a b = match Swap (part k) (part k') d d' with
     | (Ok _, (e, e')) => (Ok tt, whole e e')
     | (Throw x, (e, e')) => (Throw x, wrap e e')
     end) ->
  (same_template k k' = false -> Swap k k' a b = bad_cast a b) ->
  (forall e e', torn d d' e e' -> torn a b (fst (wrap e e')) (snd (wrap e e'))) -> wrap d d' = (a, b) ->
  (forall e e', exchanged d d' e e' -> exchanged a b (fst (whole e e')) (snd (whole e e'))) ->
  all_or_nothing (part k) (part k') d d' -> all_or_nothing k k' a b.
Proof.
  intros Hk Hs Hn Ht Hw He Hd. unfold all_or_nothing in *. rewrite Hk. destruct (same_template k k'); cbn [andb].
  - rewrite Hs by done. destruct (castable (part k) (part k') d d').
    + destruct Hd as [(e & e' & -> & Hx)|[x ->]]; [left|right].
      * eexists _, _. split; [unfold swapped; by rewrite <- surjective_pairing|]. by apply He.
      * exists x. by rewrite Hw.
    + destruct Hd as (x & e & e' & -> & Hd). eexists x, _, _. split; [by rewrite <- surjective_pairing|]. by apply Ht.
  - rewrite Hn by done. exists BadCast, a, b. split; [done|constructor].
Qed.

Lemma swap_array (k k' : classes) (d d' : column) (os os' : list Z) : wf_col (ColumnArray d os) -> wf_col (ColumnArray d' os') ->
  all_or_nothing (part k) (part k') d d' -> all_or_nothing k k' (ColumnArray d os) (ColumnArray d' os').
Proof.
  intros (Hd & Hm & Hl & Hs & Hz & Hn) (Hd' & Hm' & Hl' & Hs' & Hz' & Hn').
  apply (outcome_part k k' _ _ d d' (fun e e' => (ColumnArray e os', ColumnArray e' os)) (fun e e' => (ColumnArray e os, ColumnArray e' os')));
    [done| |by one_cast|intros; by constructor|done|].
  { one_cast. unfold ColumnArray_Swap. by destruct (Swap _ _ d d') as [[] [? ?]]. }
  intros e e' (Hw & Hw' & Ht & Ht' & Hr & Hr').
  assert (Size e = Size d' /\ Size e' = Size d) as [He He'] by (by rewrite !Size_rows, Hr, Hr' by done). cbn [fst snd].
  split_and!; cbn [ColumnType rows wf_col]; rewrite ?Ht, ?Ht', ?He, ?He', ?Hr, ?Hr'; by try split_and!.
Qed.

Lemma check_elements_types (cs : list column) : forall cs', length cs = length cs' ->
  told_apart (zip (map ColumnType cs) (map ColumnType cs')) -> check_elements cs cs' = Ok tt -> map ColumnType cs = map ColumnType cs'.
Proof.
  induction cs as [|c cs IH]; intros [|c' cs'] Hl Hd Hc; try done. cbn [check_elements] in Hc.
  destruct (IsEqual (ColumnType c) (ColumnType c')) as [[]|] eqn:E; try done. cbn [rbind] in Hc. cbn [map zip] in Hd.
  apply Forall_cons in Hd as [Hd1 Hd2]. cbn [map]. f_equal; [by apply Hd1|]. apply IH; [by injection Hl|done|done].
Qed.

Lemma swap_tuple (k k' : classes) (cs cs' : list column) (names names' : list bytes) : wf_col (ColumnTuple cs names) -> wf_col (ColumnTuple cs' names') ->
  name_fits (ColumnType (ColumnTuple cs names)) -> told_apart (zip (map ColumnType cs) (map ColumnType cs')) ->
  all_or_nothing k k' (ColumnTuple cs names) (ColumnTuple cs' names').
Proof.
  intros Hw Hw' Hf Hd. destruct (Nat.eqb_spec (length cs) (length cs')) as [Hl|Hl].
  2: { refuse. unfold ColumnTuple_Swap. by rewrite (proj2 (Nat.eqb_neq _ _)). }
  destruct (check_elements cs cs') as [[]|x] eqn:E.
  2: { refuse. unfold ColumnTuple_Swap. by rewrite (proj2 (Nat.eqb_eq _ _)), E. }
  pose proof (check_elements_types cs cs' Hl Hd E) as Hts. pose proof Hw as (Hcs & Hsz & Hnew & Hlf). pose proof Hw' as (Hcs' & Hsz' & Hnew' & Hlf').
  apply foldr_Forall in Hcs, Hcs'. apply tuple_name_fits in Hf.
  pose proof (swap_elements_spec cs ltac:(apply Forall_forall; intros c _ ? ? b'; apply swap_same) (parts k) (parts k') cs' Hts Hcs Hcs' Hf) as Hspec.
  unfold all_or_nothing. rewrite castable_tuple. cbn [Swap].
  destruct (same_template k k'); cbn [andb negb]; [|exists BadCast; eexists _, _; split; [done|constructor]].
  unfold ColumnTuple_Swap. rewrite (proj2 (Nat.eqb_eq _ _) Hl), E. cbn [negb]. destruct (castable_elements _ _ cs cs').
  - rewrite Hspec. left. eexists _, _. split; [done|]. cbn [wf_col ColumnType] in *.
    split_and!; cbn [wf_col ColumnType rows]; rewrite ?Hts in *; try done; split_and!; try done; (by apply foldr_Forall).
  - destruct Hspec as (x & pre & pre' & c & c' & e & e' & more & more' & -> & -> & -> & Hlen & Htorn).
    exists x. eexists _, _. split; [done|]. by constructor.
Qed.

Lemma swap_all_or_nothing (a : column) : forall k k' b, wf_col a -> wf_col b -> fits_swap a -> told_apart (compared a b) -> all_or_nothing k k' a b.
Proof.
  induction a as [code data|code e data|items|n data|size|w ty d IH|d os IH|d nulls IH|cs names IH|d IH|d code index u IH] using column_ind';
    intros k k' b Hw Hw' Hf Hd; destruct b as [code' data'|code' e' data'|items'|n' data'|size'|w' ty' d'|d' os'|d' nulls'|cs' names'|d'|d' code' index' u'];
    try (refuse; reflexivity).
  - destruct (decide (code = code')) as [->|Hne]; [by apply swap_of_same|]. refuse; by rewrite bool_decide_false.
  - destruct (decide (code = code')) as [->|Hne]; [|refuse; by rewrite bool_decide_false].
    apply (leaf_outcome _ _ _ _ (ColumnEnum code' e data') (ColumnEnum code' e' data)); [cbn; by rewrite andb_true_r| |by one_cast|by split_and!].
    one_cast. by rewrite bool_decide_true.
  - by apply swap_of_same.
  - destruct (decide (n = n')) as [->|Hne]; [by apply swap_of_same|]. refuse. unfold ColumnFixedString_Swap. by rewrite (proj2 (Z.eqb_neq _ _)).
  - by apply swap_of_same.
  - destruct (decide (w = w')) as [->|Hne]; [by apply swap_wrap|]. refuse; by rewrite bool_decide_false.
  - apply swap_array; [done|done|]. pose proof Hw as (Hwd & _ & _ & _ & _ & Hn). pose proof Hw' as (Hwd' & _). apply IH; try done. by destruct d.
  - apply Forall_cons in Hd as [Hd _]. cbn [fst snd] in Hd.
    destruct (IsEqual (ColumnType d) (ColumnType d')) as [[]|x] eqn:E.
    + specialize (Hd eq_refl). apply swap_of_same; try done. cbn [ColumnType]. congruence.
    + refuse. unfold ColumnNullable_Swap. by rewrite E.
    + refuse. unfold ColumnNullable_Swap. by rewrite E.
  - by apply swap_tuple.
  - destruct Hw as (Hwd & k1 & v & os & ->). destruct Hw' as (Hwd' & k2 & v' & os' & ->).
    set (d := ColumnArray (ColumnTuple [k1; v] []) os) in *. set (d' := ColumnArray (ColumnTuple [k2; v'] []) os') in *.
    specialize (IH (part k) (part k') d' Hwd Hwd' Logic.I Hd).
    apply (outcome_part k k' _ _ d d' (fun e e' => (ColumnMap e, ColumnMap e')) (fun e e' => (ColumnMap e, ColumnMap e')));
      [done| |by one_cast|intros; by constructor|done| |done].
    + intros Hsame. change (Swap k k' (ColumnMap d) (ColumnMap d')) with
        (if negb (same_template k k') then bad_cast (ColumnMap d) (ColumnMap d') else ColumnMap_Swap (Swap (part k) (part k') d d')).
      rewrite Hsame. cbn [negb]. unfold ColumnMap_Swap. by destruct (Swap _ _ d d') as [[[]|] [? ?]].
    + intros e e' (Hwe & Hwe' & Ht & Ht' & Hr & Hr').
      destruct (map_shape e (ColumnType k1) (ColumnType v) Hwe Ht) as (ke & ve & oe & -> & Hk & Hv).
      destruct (map_shape e' (ColumnType k2) (ColumnType v') Hwe' Ht') as (ke' & ve' & oe' & -> & Hk' & Hv').
      cbn [fst snd]. split_and!; try done; [by split; [done|eauto]|by split; [done|eauto]| |]; unfold d, d'; cbn [ColumnType]; by rewrite ?Hk, ?Hv, ?Hk', ?Hv'.
  - apply Forall_cons in Hd as [Hd _]. cbn [fst snd] in Hd.
    destruct (IsEqual (ColumnType d) (ColumnType d')) as [[]|x] eqn:E.
    + specialize (Hd eq_refl). apply swap_of_same; try done. cbn [ColumnType]. congruence.
    + refuse. unfold ColumnLowCardinality_Swap. by rewrite E.
    + refuse. unfold ColumnLowCardinality_Swap. by rewrite E.
Qed.

(** ** Theorem *)

(** C29. Swap.  Where the casts of the typed classes succeed (always, for untyped columns): on columns of the same type it
    exchanges the two columns completely, whatever they contain; on any other pair it either exchanges the rows, each
    column keeping its own type and its invariant (columns of date-times with different time zones, enumerations over
    the same integer), or throws and leaves both columns exactly as they were, the type checks of tuples, nullables and
    dictionaries coming before the first change.  Those checks compare hashes of type names; this part is about types
    their hashes tell apart.  Where a cast of a typed class fails, it throws; only elements of a tuple that come before
    the failing one have changed sides then, so without tuples both columns are as before.  In a tuple they do change
    sides: a tuple of a number and a typed nullable is left torn by a swap with a tuple of the factory. *)
Theorem swap_exchanges (k k' : classes) (a b : column) (Hw : wf_col a) (Hw' : wf_col b) (Hf : name_fits (ColumnType a)) :
  (castable k k' a b = true ->
    (ColumnType a = ColumnType b -> Swap k k' a b = (Ok tt, (b, a))) /\
    (told_apart (compared a b) ->
      (exists a' b', Swap k k' a b = (Ok tt, (a', b')) /\ exchanged a b a' b') \/ exists e, Swap k k' a b = (Throw e, (a, b)))) /\
  (castable k k' a b = false -> told_apart (compared a b) ->
    exists e a' b', Swap k k' a b = (Throw e, (a', b')) /\ torn a b a' b' /\ (tuple_free a = true -> a' = a /\ b' = b)) /\
  castable untyped k' a b = true.
Proof.
  assert (fits_swap a) as Hf' by (by destruct a).
  pose proof (swap_all_or_nothing a k k' b Hw Hw' Hf') as Hall. unfold all_or_nothing in Hall. split; [|split; [|apply castable_untyped]].
  - intros Hk. rewrite Hk in Hall. split; [|exact Hall]. intros Ht. pose proof (swap_same a k k' b Hw Hw' Hf' Ht) as Hs.
    unfold swap_spec in Hs. by rewrite Hk in Hs.
  - intros Hk Hd. rewrite Hk in Hall. destruct (Hall Hd) as (e & a' & b' & E & Ht). exists e, a', b'. split_and!; try done.
    by apply torn_tuple_free.
Qed.

Definition utc_times : column := ColumnArray (ColumnWrap WDateTime (TDateTime (str "UTC")) (ColumnVector Code.UInt32 [1; 2; 3])) [1; 3].
Definition local_times : column := ColumnArray (ColumnWrap WDateTime (TDateTime []) (ColumnVector Code.UInt32 [9])) [0; 1; 1].
Definition named_pair (c : column) : column := ColumnTuple [c; ColumnString [str "x"; str "y"]] [str "a"; str "b"].

(** [ColumnTuple] of a number and a [ColumnNullableT<ColumnString>], and the tuple of the same type the factory makes. *)
Definition nullable_pair (n : Z) (s : bytes) : column := ColumnTuple [ColumnVector Code.UInt8 [n]; ColumnNullable (ColumnString [s]) [0]] [].
Definition typed_nullable : classes := Classes None [untyped; Classes (Some (str "ColumnNullableT<ColumnString>")) [untyped]].

(** The first elements are swapped, then the cast of the second one throws. *)
Lemma tuple_swap_tears :
  Swap typed_nullable untyped (nullable_pair 1 (str "a")) (nullable_pair 2 (str "b")) =
    (Throw BadCast, (nullable_pair 2 (str "a"), nullable_pair 1 (str "b"))).
Proof. vm_compute. reflexivity. Qed.

Lemma swap_exchanges_witness :
  ((exists a' b', Swap untyped untyped utc_times local_times = (Ok tt, (a', b')) /\ exchanged utc_times local_times a' b') \/
   exists e, Swap untyped untyped utc_times local_times = (Throw e, (utc_times, local_times))) /\
  let c := named_pair (ColumnVector Code.UInt8 [1; 2]) in
  Swap untyped untyped c (named_pair (ColumnVector Code.UInt8 [7; 8])) = (Ok tt, (named_pair (ColumnVector Code.UInt8 [7; 8]), c)) /\
  let p := nullable_pair 1 (str "a") in let q := nullable_pair 2 (str "b") in
  exists e p' q', Swap typed_nullable untyped p q = (Throw e, (p', q')) /\ torn p q p' q' /\ (tuple_free p = true -> p' = p /\ q' = q).
Proof.
  assert (wf_col utc_times) as H1 by (unfold utc_times; wf_auto; discriminate).
  assert (wf_col local_times) as H2 by (unfold local_times; wf_auto; discriminate).
  set (c := named_pair (ColumnVector Code.UInt8 [1; 2])).
  assert (wf_col c) as H3 by (unfold c, named_pair; wf_auto).
  assert (wf_col (named_pair (ColumnVector Code.UInt8 [7; 8]))) as H5 by (unfold named_pair; wf_auto).
  assert (wf_col (nullable_pair 1 (str "a"))) as H6 by (unfold nullable_pair; wf_auto).
  assert (wf_col (nullable_pair 2 (str "b"))) as H7 by (unfold nullable_pair; wf_auto).
  assert (name_fits (ColumnType utc_times)) as Hf1 by (vm_compute; reflexivity).
  assert (name_fits (ColumnType c)) as Hf2 by (vm_compute; reflexivity).
  assert (name_fits (ColumnType (nullable_pair 1 (str "a")))) as Hf3 by (vm_compute; reflexivity).
  split; [|split].
  - apply (proj1 (swap_exchanges untyped untyped utc_times local_times H1 H2 Hf1)); [reflexivity|]. apply Forall_nil_2.
  - apply (proj1 (swap_exchanges untyped untyped c (named_pair (ColumnVector Code.UInt8 [7; 8])) H3 H5 Hf2)); reflexivity.
  - apply (proj1 (proj2 (swap_exchanges typed_nullable untyped _ _ H6 H7 Hf3))); [vm_compute; reflexivity|].
    apply Forall_cons_2; [reflexivity|]. apply Forall_cons_2; [reflexivity|]. apply Forall_nil_2.
Defined.
