(* ===== verification/ColumnWire.v ===== *)
(** * Columns on the wire

    What [Save] writes is what [Load] needs: a column saved and loaded into an
    empty clone has the same type and the same rows. *)

From S2P Require Import Prelude Streams WireFormat CityHash Text Types Columns ColumnRows.

#[local] Set Warnings "-register-all".

(** ** The bytes of a column *)

Fixpoint prefix_bytes (c : column) : bytes :=
  match c with
  | ColumnWrap WJSON _ _ => le_bytes 8 JSONSerializationVersion_String
  | ColumnArray data _ => prefix_bytes data
  | ColumnNullable nested _ => prefix_bytes nested
  | ColumnTuple cs _ => concat (map prefix_bytes cs)
  | ColumnMap data => prefix_bytes data
  | ColumnLowCardinality _ _ _ _ => le_bytes 8 SharedDictionariesWithAdditionalKeys
  | _ => []
  end.

Definition index_type (code : Code.t) : Z :=
  match indexTypeFromIndexColumn code with Ok t => t | Throw _ => 0 end.

Fixpoint body_bytes (c : column) : bytes :=
  match c with
  | ColumnVector code data | ColumnEnum code _ data => to_raw (sizeof code) data
  | ColumnString items => concat (map string_bytes items)
  | ColumnFixedString _ data => data
  | ColumnNothing _ => []
  | ColumnWrap _ _ data => body_bytes data
  | ColumnArray data offsets => to_raw 8 offsets ++ (if 0 <? Size data then body_bytes data else [])
  | ColumnNullable nested nulls => to_raw 1 nulls ++ body_bytes nested
  | ColumnTuple cs _ => concat (map body_bytes cs)
  | ColumnMap data => body_bytes data
  | ColumnLowCardinality d code index _ =>
    le_bytes 8 (Z.lor (index_type code) HasAdditionalKeysBit) ++ le_bytes 8 (Size d) ++
    match d with ColumnNullable nested _ => body_bytes nested | _ => body_bytes d end ++
    le_bytes 8 (zlen index) ++ to_raw (sizeof code) index
  end.

(** ** Saving *)
Section Saving.
Context {Out : Type} `{OutputStreamLaws Out}.

Lemma writes_mapM {A} (f : A -> M Out unit) (g : A -> bytes) (l : list A) :
  Forall (fun x => writes (f x) (g x) tt) l -> writes (mapM_ f l) (concat (map g l)) tt.
Proof. induction 1; cbn; [apply writes_ret|]. by eapply writes_bind. Qed.

Lemma writes_SavePrefix (c : column) : writes (SavePrefix c) (prefix_bytes c) tt.
Proof.
  induction c as [| | | | |w ty data IH|data os IH|nested nulls IH|cs names IH|data IH|] using column_ind';
    cbn [SavePrefix prefix_bytes]; try apply writes_ret; try apply writes_WriteFixed; try done.
  - destruct w; try apply writes_ret. apply writes_WriteFixed.
  - by apply writes_mapM.
Qed.

Lemma mentions_wrapped (code : Code.t) (w : wrapper) (ty : type) (d : column) :
  code = Code.LowCardinality \/ code = Code.Void -> wf_col (ColumnWrap w ty d) -> mentions code (ColumnType d) = false.
Proof. intros Hc (Ht & _). destruct (wrapped_plain _ _ _ Ht). by destruct Hc as [->| ->]. Qed.

Lemma writes_SaveBody_depth (n : nat) : forall c, (depth c <= n)%nat -> wf_col c ->
  mentions Code.Void (ColumnType c) = false -> writes (SaveBody c) (body_bytes c) tt.
Proof.
  induction n as [|n IH]; intros c Hn Hw Hv; [by destruct c; cbn in Hn; lia|].
  destruct c as [| | | | |w ty data|data os|nested nulls|cs names|data|d code index u];
    cbn [SaveBody body_bytes depth] in *; open_save; try apply writes_WriteAll.
  - apply writes_mapM, Forall_true. intros. apply writes_WriteString.
  - done.
  - apply IH; [lia|apply Hw|]. by eapply mentions_wrapped; [right|].
  - eapply writes_bind; [apply writes_WriteAll|]. destruct (0 <? Size data); [|apply writes_ret].
    apply IH; [lia|apply Hw|done].
  - eapply writes_bind; [apply writes_WriteAll|]. apply IH; [lia|apply Hw|done].
  - apply writes_mapM. destruct Hw as (Hw & _). apply foldr_Forall in Hw.
    cbn [ColumnType mentions] in Hv. apply orb_false_elim in Hv as [_ Hv]. apply existsb_Forall, Forall_map in Hv.
    rewrite Forall_forall in *. intros c Hc. apply IH; auto. eapply depth_elem; [|exact Hc]. lia.
  - destruct Hw as (Hw & k & v & os & ->). apply IH; [lia|done|]. cbn in *. by rewrite orb_false_r.
  - destruct Hw as (Hw & Hd & Hc & _). cbn [ColumnType mentions] in Hv. apply orb_false_elim in Hv as [_ Hv].
    assert (indexTypeFromIndexColumn code = Ok (index_type code)) as -> by (by destruct code).
    apply writes_pure.
    eapply writes_bind; [apply writes_WriteFixed|]. eapply writes_bind; [apply writes_WriteFixed|].
    eapply writes_bind; [|eapply writes_bind; [apply writes_WriteFixed|apply writes_WriteAll]].
    destruct d as [| | | | | | |nested nulls| | |]; try (apply IH; [lia|done|done]).
    apply IH; [cbn [depth] in Hn; lia|apply Hw|done].
Qed.

Lemma writes_Save (c : column) : wf_col c -> mentions Code.Void (ColumnType c) = false ->
  writes (Save c) (prefix_bytes c ++ body_bytes c) tt.
Proof.
  intros. eapply writes_bind; [apply writes_SavePrefix|]. by apply (writes_SaveBody_depth (depth c)).
Qed.
End Saving.

Lemma mapR_inv {A B} (f : A -> result B) (l : list A) : forall k, mapR f l = Ok k -> Forall2 (fun x y => f x = Ok y) l k.
Proof.
  induction l as [|x l IH]; intros k; cbn; [by intros [= <-]|].
  destruct (f x) as [y|] eqn:E; [|done]. destruct (mapR f l) as [k'|]; [|done]. intros [= <-]. auto.
Qed.

(** ** Clones *)

(** A column without its data: what its class and its type depend on. *)
Fixpoint skeleton (c : column) : column :=
  match c with
  | ColumnVector code _ => ColumnVector code []
  | ColumnEnum code e _ => ColumnEnum code e []
  | ColumnString _ => ColumnString []
  | ColumnFixedString n _ => ColumnFixedString n []
  | ColumnNothing _ => ColumnNothing 0
  | ColumnWrap w ty data => ColumnWrap w ty (skeleton data)
  | ColumnArray data _ => ColumnArray (skeleton data) []
  | ColumnNullable nested _ => ColumnNullable (skeleton nested) []
  | ColumnTuple cs names => ColumnTuple (map skeleton cs) names
  | ColumnMap data => ColumnMap (skeleton data)
  | ColumnLowCardinality d _ _ _ => ColumnLowCardinality (skeleton d) Code.UInt8 [] ∅
  end.

Lemma skeleton_type (c : column) : ColumnType (skeleton c) = ColumnType c.
Proof.
  induction c as [| | | | | |data os IH|nested nulls IH|cs names IH|data IH|d code index u IH] using column_ind';
    cbn [skeleton ColumnType]; try congruence.
  - f_equal. rewrite map_map. induction IH as [|c cs Hc _ IHl]; cbn; congruence.
  - destruct data as [| | | | | |data os| | | |]; try done. destruct data as [| | | | | | | |cs names| |]; try done.
    destruct cs as [|k [|v [|? ?]]]; try done. cbn in IH |- *. congruence.
Qed.

Lemma skeleton_eq_type (c c' : column) : skeleton c' = skeleton c -> ColumnType c' = ColumnType c.
Proof. intros H. by rewrite <- (skeleton_type c), <- H, skeleton_type. Qed.

Section Clones.
Context (std_hash : bytes -> Z).

Ltac clone_parts :=
  split_and!; [reflexivity|done|reflexivity|reflexivity|reflexivity|by vm_compute|reflexivity|done|reflexivity|
    reflexivity|reflexivity|reflexivity].

(** The clone of a dictionary column, and the clone with a default item. *)
Lemma clone_item (d : column) : wf_col d -> dict_item d = true ->
  exists d0 it d1, CloneEmpty std_hash d = Ok d0 /\ dict_item d0 = true /\ Size d0 = 0 /\ depth d0 = depth d /\
    ZeroItemForDictionary (GetCode (ColumnType d0)) = Ok it /\ zlen (snd it) < 2 ^ 64 /\
    GetCode (ColumnType d0) = fst it /\ fst it <> Code.Void /\
    AppendToDictionary d0 it = Ok d1 /\ CloneEmpty std_hash d1 = Ok d0 /\ depth d1 = depth d /\
    skeleton d1 = skeleton d.
Proof.
  intros Hw Hd. destruct d as [code data| |items|n data| |w ty data| | | | |]; try done.
  - destruct Hw as [Hc _]. destruct code; try done; do 3 eexists; clone_parts.
  - do 3 eexists. clone_parts.
  - destruct Hw as (Hn & _). do 2 eexists. exists (ColumnFixedString n (replicate (Z.to_nat (n - 0)) x00)).
    split_and!; [reflexivity|done|reflexivity|reflexivity|reflexivity|by vm_compute|reflexivity|done| |reflexivity|reflexivity|reflexivity].
    cbn [AppendToDictionary]. unfold FixedString_Append. change (zlen _) with 0.
    rewrite (proj2 (Z.ltb_ge _ _)) by lia. reflexivity.
  - destruct Hw as (Ht & Hw & _). pose proof (shape_of_type data Hw) as Hs.
    destruct w; try done; destruct ty as [[]| | | | | | | | | | |]; try done; injection Ht as Ht; rewrite <- Ht in Hs;
      destruct Hs as [l ->]; do 3 eexists; clone_parts.
Qed.

Lemma default_item (d : column) : dict_item d = true ->
  GetDefaultItemForDictionary d = ZeroItemForDictionary (GetCode (ColumnType d)).
Proof. by destruct d. Qed.

Lemma computeHashKey_ok (it : ItemView) : zlen (snd it) < 2 ^ 64 -> exists k, computeHashKey std_hash it = Ok k.
Proof.
  intros Hl. unfold computeHashKey. case_bool_decide; [eauto|].
  destruct (CityHash64_ok _ Hl) as (h & -> & _). cbn. eauto.
Qed.

Lemma clone_lc (d : column) (code : Code.t) (index : list Z) (u : gmap (Z * Z) Z) :
  wf_col (ColumnLowCardinality d code index u) ->
  exists d0 l, CloneEmpty std_hash (ColumnLowCardinality d code index u) = Ok (lc_column l) /\
    CloneEmpty std_hash d = Ok d0 /\ CloneEmpty std_hash (lc_dict l) = Ok d0 /\ depth (lc_dict l) = depth d /\
    skeleton (lc_dict l) = skeleton d /\ lc_index l = [].
Proof.
  intros (Hw & Hd & _). cbn [CloneEmpty]; open_clone.
  assert (forall d0 it d1, CloneEmpty std_hash d = Ok d0 -> Size d0 = 0 -> GetDefaultItemForDictionary d0 = Ok it ->
    zlen (snd it) < 2 ^ 64 -> AppendToDictionary d0 it = Ok d1 -> CloneEmpty std_hash d1 = Ok d0 -> depth d1 = depth d ->
    skeleton d1 = skeleton d -> exists d0 l, (let! d := CloneEmpty std_hash d in let! l := LowCardinality_new std_hash d d in Ok (lc_column l)) =
        Ok (lc_column l) /\
      CloneEmpty std_hash d = Ok d0 /\ CloneEmpty std_hash (lc_dict l) = Ok d0 /\ depth (lc_dict l) = depth d /\
      skeleton (lc_dict l) = skeleton d /\ lc_index l = []) as Hgen.
  { intros d0 it d1 E0 Hs Ed Hl Ea Ec Hdep Hty. destruct (computeHashKey_ok it Hl) as [k Ek].
    exists d0. eexists (mkLC d1 Code.UInt32 [] _). rewrite E0. cbn [rbind]. unfold LowCardinality_new, AppendDefaultItem.
    cbn [lc_empty lc_dict]. rewrite Ed. cbn [rbind]. rewrite Ek. cbn [rbind]. rewrite Ea. cbn [rbind]. rewrite Hs.
    split_and!; [reflexivity|done|done|done|done|done]. }
  destruct d as [| | | | | | |nested nulls| | |]; try (
    destruct (clone_item _ Hw Hd) as (d0 & it & d1 & E0 & Hi & Hs & Hdep & Ez & Hl & Hc & Hv & Ea & Ec & Hdep1 & Hty);
    apply (Hgen d0 it d1); [done|done|by rewrite default_item|done|done|done|done|done]).
  destruct Hd as [Hd _]. destruct Hw as (Hw & _).
  destruct (clone_item nested Hw Hd) as (d0 & it & d1 & E0 & Hi & Hs & Hdep & Ez & Hl & Hc & Hv & Ea & Ec & Hdep1 & Hty).
  apply (Hgen (ColumnNullable d0 []) it (ColumnNullable d1 [0])); cbn [CloneEmpty depth GetDefaultItemForDictionary AppendToDictionary]; open_clone.
  - by rewrite E0.
  - done.
  - by rewrite default_item.
  - done.
  - rewrite bool_decide_false by done. rewrite bool_decide_true by done. rewrite Ea. done.
  - by rewrite Ec.
  - congruence.
  - cbn [skeleton]. congruence.
Qed.

Lemma CloneEmpty_ok (c : column) : wf_col c -> exists e, CloneEmpty std_hash c = Ok e /\ depth e = depth c.
Proof.
  induction c as [| | | | |w ty data IH|data os IH|nested nulls IH|cs names IH|data IH|d code index u IH] using column_ind';
    intros Hw; try (by eexists).
  - destruct (IH ltac:(apply Hw)) as (e & E & Hd). cbn [CloneEmpty]; open_clone. rewrite E. eexists. split; [done|]. cbn. by rewrite Hd.
  - destruct (IH ltac:(apply Hw)) as (e & E & Hd). cbn [CloneEmpty]; open_clone. rewrite E. eexists. split; [done|]. cbn. by rewrite Hd.
  - destruct (IH ltac:(apply Hw)) as (e & E & Hd). cbn [CloneEmpty]; open_clone. rewrite E. eexists. split; [done|]. cbn. by rewrite Hd.
  - destruct (mapR_Forall2 (CloneEmpty std_hash) (fun c e => depth e = depth c) cs) as (es & E & Hes).
    { destruct Hw as (Hw & _). apply foldr_Forall in Hw. rewrite Forall_forall in *. auto. }
    cbn [CloneEmpty]; open_clone. rewrite E. eexists. split; [done|]. cbn [depth]. by rewrite (Forall2_map_eq depth depth cs es).
  - destruct (IH ltac:(apply Hw)) as (e & E & Hd). cbn [CloneEmpty]; open_clone. rewrite E. eexists. split; [done|]. cbn. by rewrite Hd.
  - destruct (clone_lc _ _ _ _ Hw) as (d0 & l & E & _ & _ & Hd & _). rewrite E. eexists. split; [done|]. cbn. by rewrite Hd.
Qed.

(** A column without rows is its own clone, dictionaries apart. *)
Lemma clone_self (c : column) : wf_col c -> mentions Code.LowCardinality (ColumnType c) = false -> Size c = 0 ->
  CloneEmpty std_hash c = Ok c.
Proof.
  induction c as [| | |n data|size|w ty data IH|data os IH|nested nulls IH|cs names IH|data IH|d code index u IH]
    using column_ind'; intros Hw Hlc Hs; cbn [Size CloneEmpty] in *; open_clone; try done.
  - by rewrite (zlen_0 data).
  - by rewrite (zlen_0 data).
  - by rewrite (zlen_0 items).
  - destruct Hw as (Hn & Hm & _). pose proof (Z.div_mod (zlen data) n ltac:(lia)). by rewrite (zlen_0 data) by lia.
  - by rewrite Hs.
  - destruct (wrapped_plain _ _ _ (proj1 Hw)) as [Hl _]. destruct Hw as (_ & Hw & Hu). rewrite IH; try done.
    destruct w; try done. destruct (Hu eq_refl) as [He _]. apply even_half in He. lia.
  - apply zlen_0 in Hs as ->. destruct Hw as (Hw & _ & Hl & _). cbn in Hl. by rewrite IH.
  - pose proof (zlen_0 _ Hs) as ->. destruct Hw as (Hw & Hl & _). by rewrite IH.
  - destruct Hw as (Hw & Hz & _). apply foldr_Forall in Hw. cbn [ColumnType mentions] in Hlc.
    apply orb_false_elim in Hlc as [_ Hlc]. apply existsb_Forall, Forall_map in Hlc.
    assert (mapR (CloneEmpty std_hash) cs = Ok cs) as ->; [|done].
    cbn [Size] in Hz. rewrite Hs in Hz. clear Hs. induction cs as [|c cs IHcs]; [done|]. cbn [mapR].
    rewrite (Forall_inv IH (Forall_inv Hw) (Forall_inv Hlc) (Forall_inv Hz)). cbn [rbind].
    by rewrite IHcs by (eapply Forall_inv_tail; done).
  - destruct Hw as (Hw & k & v & os & ->). rewrite IH; try done. cbn in *. by rewrite orb_false_r.
Qed.

(** [blank c e]: [e] has the form of [c] and no rows, so that [c] can be loaded into
    it; the dictionary of [e] may hold its special items. *)
Inductive blank : column -> column -> Prop :=
| blank_vector code data : blank (ColumnVector code data) (ColumnVector code [])
| blank_enum code en data : blank (ColumnEnum code en data) (ColumnEnum code en [])
| blank_string items : blank (ColumnString items) (ColumnString [])
| blank_fixed n data : blank (ColumnFixedString n data) (ColumnFixedString n [])
| blank_nothing size : blank (ColumnNothing size) (ColumnNothing 0)
| blank_wrap w ty c e : blank c e -> blank (ColumnWrap w ty c) (ColumnWrap w ty e)
| blank_array c os e : blank c e -> blank (ColumnArray c os) (ColumnArray e [])
| blank_nullable c nulls e : blank c e -> blank (ColumnNullable c nulls) (ColumnNullable e [])
| blank_tuple cs es names : Forall2 blank cs es -> blank (ColumnTuple cs names) (ColumnTuple es names)
| blank_map c e : blank c e -> blank (ColumnMap c) (ColumnMap e)
| blank_lc d code index u d0 l : CloneEmpty std_hash d = Ok d0 -> CloneEmpty std_hash (lc_dict l) = Ok d0 ->
    depth (lc_dict l) = depth d -> skeleton (lc_dict l) = skeleton d -> lc_index l = [] ->
    blank (ColumnLowCardinality d code index u) (lc_column l).

(** Lift a fact about the columns of a tuple to lists. *)
Lemma Forall2_Forall_impl {A B} (P : A -> Prop) (R Q : A -> B -> Prop) (l : list A) (k : list B) :
  Forall P l -> (forall x y, P x -> R x y -> Q x y) -> Forall2 R l k -> Forall2 Q l k.
Proof. intros Hp Himp H2. revert Hp. induction H2; intros Hp; inversion Hp; subst; constructor; auto. Qed.

Lemma clone_blank (c : column) : forall e, wf_col c -> CloneEmpty std_hash c = Ok e -> blank c e.
Proof.
  induction c as [| | | | |w ty data IH|data os IH|nested nulls IH|cs names IH|data IH|d code index u IH] using column_ind';
    intros x Hw; cbn [CloneEmpty]; open_clone; try (intros [= <-]; constructor).
  - destruct (CloneEmpty std_hash data) as [d|]; [|done]. intros [= <-]. constructor. by apply IH; [apply Hw|].
  - destruct (CloneEmpty std_hash data) as [d|]; [|done]. intros [= <-]. constructor. by apply IH; [apply Hw|].
  - destruct (CloneEmpty std_hash nested) as [d|]; [|done]. intros [= <-]. constructor. by apply IH; [apply Hw|].
  - destruct (mapR _ cs) as [es|] eqn:E; [|done]. intros [= <-]. constructor. apply mapR_inv in E.
    destruct Hw as (Hw & _). apply foldr_Forall in Hw.
    eapply (Forall2_Forall_impl (fun c => wf_col c /\ forall e, wf_col c -> CloneEmpty std_hash c = Ok e -> blank c e));
      [by apply Forall_and| |exact E]. intros ? ? []; auto.
  - destruct (CloneEmpty std_hash data) as [d|]; [|done]. intros [= <-]. constructor. by apply IH; [apply Hw|].
  - destruct (clone_lc _ _ _ _ Hw) as (d0 & l & E & E0 & El & Hdep & Hsk & Hi).
    cbn [CloneEmpty] in E; open_clone. rewrite E. intros [= <-]. by eapply blank_lc.
Qed.

Lemma blank_depth (c : column) : forall e, blank c e -> depth e = depth c.
Proof.
  induction c as [| | | | |w ty data IH|data os IH|nested nulls IH|cs names IH|data IH|d code index u IH] using column_ind';
    intros x Hb; inversion Hb; subst; cbn [depth lc_column]; auto.
  do 2 f_equal. apply Forall2_map_eq. eapply Forall2_Forall_impl; [exact IH| |eassumption]. auto.
Qed.

Lemma blank_spec (c : column) : forall e, wf_col c -> blank c e -> rows e = [] /\ skeleton e = skeleton c.
Proof.
  induction c as [| | | | |w ty data IH|data os IH|nested nulls IH|cs names IH|data IH|d code index u IH] using column_ind';
    intros x Hw Hb; inversion Hb as [| | | | |? ? ? b He|? ? b He|? ? b He|? es ? H2|? b He|? ? ? ? ? ? ? ? ? Hsk Hi]; subst; try done.
  - destruct (IH b ltac:(apply Hw) He) as [Hr Ht]. cbn. rewrite Hr, Ht. by destruct w.
  - destruct (IH b ltac:(apply Hw) He) as [Hr Ht]. cbn. by rewrite Ht.
  - destruct (IH b ltac:(apply Hw) He) as [Hr Ht]. cbn. by rewrite Ht.
  - destruct Hw as (Hw & _). apply foldr_Forall in Hw.
    assert (Forall2 (fun c e => rows e = [] /\ skeleton e = skeleton c) cs es) as H3.
    { eapply (Forall2_Forall_impl (fun c => wf_col c /\ forall e, wf_col c -> blank c e -> rows e = [] /\ skeleton e = skeleton c));
        [by apply Forall_and| |exact H2]. intros ? ? []; auto. }
    split; [|cbn; f_equal; apply Forall2_map_eq; eapply Forall2_impl; [exact H3|]; by intros ? ? []].
    cbn [rows]. destruct es as [|e es]; [done|]. inversion H3 as [|c ? cs' ? [Hr _] _]; subst. cbn [map].
    rewrite Hr. by destruct (map rows es).
  - destruct (IH b ltac:(apply Hw) He) as [Hr Ht]. cbn. by rewrite Ht.
  - cbn [lc_column rows skeleton]. split; [by rewrite Hi|by rewrite Hsk].
Qed.

(** Without dictionaries a blank column is the clone. *)
Lemma blank_clone (c : column) : forall e, wf_col c -> mentions Code.LowCardinality (ColumnType c) = false ->
  blank c e -> CloneEmpty std_hash c = Ok e.
Proof.
  induction c as [| | | | |w ty data IH|data os IH|nested nulls IH|cs names IH|data IH|d code index u IH] using column_ind';
    intros x Hw Hlc Hb; inversion Hb as [| | | | |? ? ? b He|? ? b He|? ? b He|? es ? H2|? b He|]; subst; try done; cbn [CloneEmpty].
  - rewrite (IH b); [done|apply Hw| |done]. by destruct (wrapped_plain _ _ _ (proj1 Hw)).
  - by rewrite (IH b ltac:(apply Hw) Hlc He).
  - by rewrite (IH b ltac:(apply Hw) Hlc He).
  - destruct Hw as (Hw & _). apply foldr_Forall in Hw. cbn [ColumnType mentions] in Hlc.
    apply orb_false_elim in Hlc as [_ Hlc]. apply existsb_Forall, Forall_map in Hlc.
    assert (mapR (CloneEmpty std_hash) cs = Ok es) as ->; [|done]. clear Hb.
    induction H2 as [|c e cs es Hce _ IHl]; [done|]. cbn [mapR].
    rewrite (Forall_inv IH e (Forall_inv Hw) (Forall_inv Hlc) Hce). cbn [rbind].
    by rewrite IHl by (eapply Forall_inv_tail; done).
  - destruct Hw as (Hw & k & v & os & ->). rewrite (IH b Hw); [done| |done]. cbn in *. by rewrite orb_false_r.
Qed.

(** The items of a dictionary can be read. *)
Lemma ItemView_new_ok (code : Code.t) (w : nat) (v : Z) : vector_code code = true -> w = sizeof code ->
  ItemView_new code (le_bytes w v) = Ok (code, le_bytes w v).
Proof.
  intros Hc ->. unfold ItemView_new, ValidateData. destruct code; try done; cbn [allowed_sizes rbind existsb];
    by rewrite zlen_le_bytes.
Qed.

Lemma zlen_FixedString_At (n : Z) (data : bytes) (i : Z) : wf_col (ColumnFixedString n data) ->
  0 <= i < Size (ColumnFixedString n data) -> exists s, FixedString_At n data i = Ok s /\ zlen s = n.
Proof.
  intros (Hn & Hm & Hf) Hi. cbn [Size] in Hi. pose proof (Z.div_mod (zlen data) n ltac:(lia)) as Hq. rewrite Hm in Hq.
  unfold FixedString_At. rewrite wrap_id by (unfold is_u; nia). unfold at_. rewrite (proj2 (Z.ltb_ge _ _)) by nia.
  destruct (lookup_in_range data (i * n)) as [x ->]; [nia|]. cbn [rbind]. eexists. split; [done|].
  rewrite zlen_ztake, zlen_zdrop by nia. nia.
Qed.

Lemma vector_item (code : Code.t) (data : list Z) (i : Z) : vector_code code = true -> 0 <= i < zlen data ->
  exists v, GetItem (ColumnVector code data) i = Ok (code, le_bytes (sizeof code) v) /\ at_ data i = Ok v.
Proof.
  intros Hc Hi. destruct (lookup_in_range data i Hi) as [v Hv]. exists v. cbn [GetItem]; open_item. unfold index_, at_.
  rewrite (proj2 (Z.ltb_ge _ _)) by lia. rewrite Hv. cbn [rbind]. by rewrite ItemView_new_ok.
Qed.

Lemma GetItem_ok (d : column) (i : Z) : wf_col d -> dict_item d = true -> 0 <= i < Size d ->
  exists it, GetItem d i = Ok it /\ zlen (snd it) < 2 ^ 64.
Proof.
  intros Hw Hd Hi. destruct d as [code data| |items|n data| |w ty data| | | | |]; try done.
  - destruct (vector_item code data i) as (v & E & _); [apply Hw|done|]. rewrite E. eexists. split; [done|]. cbn [snd].
    rewrite zlen_le_bytes. destruct code; done.
  - destruct (lookup_in_range items i Hi) as [s Hs]. cbn [GetItem]; open_item. unfold at_. rewrite (proj2 (Z.ltb_ge _ _)) by lia.
    rewrite Hs. eexists. split; [done|]. cbn [snd]. cbn [wf_col] in Hw. rewrite Forall_lookup in Hw. by eapply Hw.
  - destruct (zlen_FixedString_At n data i Hw Hi) as (s & E & Hl). cbn [GetItem]; open_item. rewrite E. eexists. split; [done|].
    cbn [snd]. destruct Hw as (Hn & _ & Hf). cbn [Size] in Hi.
    pose proof (Z.div_small (zlen data) n). pose proof (zlen_nonneg data). lia.
  - destruct Hw as (Ht & Hw & Hu). pose proof (shape_of_type data Hw) as Hs.
    destruct w; try done; destruct ty as [[]| | | | | | | | | | |]; try done; injection Ht as Ht; rewrite <- Ht in Hs;
      destruct Hs as [l ->]; cbn [Size] in Hi.
    + destruct (vector_item Code.UInt16 l i) as (v & E & _); [done|done|]. cbn [GetItem] in *; open_item. rewrite E. by eexists.
    + destruct (vector_item Code.Int32 l i) as (v & E & _); [done|done|]. cbn [GetItem] in *; open_item. rewrite E. by eexists.
    + destruct (vector_item Code.UInt32 l i) as (v & E & _); [done|done|]. cbn [GetItem] in *; open_item. rewrite E. by eexists.
    + destruct (vector_item Code.UInt32 l i) as (v & E & _); [done|done|]. cbn [GetItem] in *; open_item. rewrite E. by eexists.
    + destruct (zlen_FixedString_At 16 l i Hw Hi) as (s & E & Hl). cbn [GetItem]; open_item. rewrite E. cbn [rbind].
      unfold ItemView_new, ValidateData. cbn [allowed_sizes rbind existsb snd GetCode]. rewrite Hl. eexists. split; [done|].
      cbn [snd]. lia.
    + destruct (Hu eq_refl) as [He Hb]. apply even_half in He. cbn [Size] in He, Hb.
      destruct (lookup_in_range l (i * 2)) as [x Hx]; [lia|]. destruct (lookup_in_range l (i * 2 + 1)) as [y Hy]; [lia|].
      rewrite (uuid_item _ l i x y) by (done || lia). by eexists.
Qed.
End Clones.

(** ** Vectors and strings *)

Lemma zlen_to_raw (w : nat) (l : list Z) : zlen (to_raw w l) = Z.of_nat w * zlen l.
Proof.
  unfold to_raw. induction l as [|v l IH]; [cbn [map concat]; by rewrite !zlen_nil, Z.mul_0_r|]. cbn [map concat].
  rewrite zlen_app, zlen_le_bytes, zlen_cons, IH. lia.
Qed.

Lemma of_to_raw (w : nat) (l : list Z) : Forall (fits_width w) l -> of_raw w (length l) (to_raw w l) = l.
Proof.
  unfold to_raw. induction 1 as [|v l Hv _ IH]; [done|]. cbn [map concat length of_raw].
  rewrite take_app_length', drop_app_length' by (by rewrite length_le_bytes).
  rewrite IH, le_value_bytes, Z.mod_small by done. done.
Qed.

Lemma length_resize_vec (n : Z) (l : list Z) : 0 <= n -> length (resize_vec n l) = Z.to_nat n.
Proof.
  intros Hn. unfold resize_vec. rewrite length_app, length_replicate. pose proof (zlen_ztake n l Hn).
  unfold zlen in *. lia.
Qed.

Section Loading.
Context (std_hash : bytes -> Z).
Context {I : Type} `{InputStreamLaws I}.

Lemma reads_LoadVector (w : nat) (old l : list Z) : Forall (fits_width w) l ->
  reads (LoadVector w old (zlen l)) (to_raw w l) (true, l).
Proof.
  intros Hf. unfold LoadVector. pose proof (length_resize_vec (zlen l) old (zlen_nonneg l)) as Hl.
  assert (zlen (to_raw w (resize_vec (zlen l) old)) = zlen (to_raw w l)) as Hz.
  { rewrite !zlen_to_raw. unfold zlen at 1. rewrite Hl. unfold zlen. lia. }
  eapply reads_bind_nil; [rewrite Hz; apply reads_ReadAll|]. cbv beta iota.
  unfold overwrite. rewrite zdrop_all, app_nil_r by lia.
  rewrite Hl. unfold zlen at 1. rewrite Nat2Z.id, of_to_raw by done. apply reads_ret.
Qed.

Lemma reads_LoadStrings (l : list bytes) : Forall (fun s => zlen s < 2 ^ 64) l ->
  reads (LoadStrings (length l)) (concat (map string_bytes l)) (Some l).
Proof.
  induction 1 as [|s l Hs _ IH]; [apply reads_ret|]. cbn [length LoadStrings map concat].
  unfold string_bytes at 1. rewrite <- app_assoc. pose proof (zlen_nonneg s).
  eapply reads_bind; [apply reads_ReadVarint64; unfold is_u; lia|]. cbv beta iota. cbn [negb].
  eapply reads_bind; [apply reads_ReadAll|]. cbv beta iota. cbn [negb].
  eapply reads_bind_nil; [exact IH|]. apply reads_ret.
Qed.

(** ** The prefix *)

Lemma reads_load_all (f : column -> M I (bool * column)) (cs es rs : list column) (g : column -> bytes) :
  Forall2 (fun c '(e, r) => reads (f e) (g c) (true, r)) cs (zip es rs) -> length es = length rs ->
  reads (load_all f es) (concat (map g cs)) (true, rs).
Proof.
  intros H2. remember (zip es rs) as z eqn:Hz. revert es rs Hz.
  induction H2 as [|c [e r] cs z Hr _ IH]; intros [|e' es] [|r' rs] Hz Hl; try done.
  - apply reads_ret.
  - injection Hz as <- <- ->. cbn [load_all map concat]. eapply reads_bind; [exact Hr|]. cbv beta iota.
    eapply reads_bind_nil; [apply (IH es rs); [done|by injection Hl]|]. apply reads_ret.
Qed.

Lemma Forall2_zip_self {A B} (P : A -> B * B -> Prop) (l : list A) (k : list B) :
  Forall2 (fun a b => P a (b, b)) l k -> Forall2 P l (zip k k).
Proof. induction 1; cbn; by constructor. Qed.

Lemma reads_LoadPrefix (c : column) : forall e rows, wf_col c -> 0 < rows -> blank std_hash c e ->
  reads (LoadPrefix e rows) (prefix_bytes c) (true, e).
Proof.
  induction c as [| | | | |w ty data IH|data os IH|nested nulls IH|cs names IH|data IH|d code index u IH] using column_ind';
    intros x rows Hw Hr Hb; inversion Hb as [| | | | |? ? ? b He|? ? b He|? ? b He|? es ? H2|? b He|]; subst;
    cbn [LoadPrefix prefix_bytes lc_column]; open_prefix; try apply reads_ret.
  - destruct w; try apply reads_ret. eapply reads_bind_nil; [by apply reads_ReadFixed|]. apply reads_ret.
  - rewrite (proj2 (Z.eqb_neq _ _)) by lia. eapply reads_bind_nil; [by apply IH; [apply Hw|..]|]. apply reads_ret.
  - eapply reads_bind_nil; [by apply IH; [apply Hw|..]|]. apply reads_ret.
  - destruct Hw as (Hw & _). apply foldr_Forall in Hw.
    eapply (reads_bind_nil _ _ _ (true, es)); [|apply reads_ret]. apply reads_load_all; [|done]. apply Forall2_zip_self.
    eapply (Forall2_Forall_impl (fun c => wf_col c /\ forall e rows, wf_col c -> 0 < rows -> blank std_hash c e ->
      reads (LoadPrefix e rows) (prefix_bytes c) (true, e))); [by apply Forall_and| |exact H2]. intros ? ? []; auto.
  - eapply reads_bind_nil; [by apply IH; [apply Hw|..]|]. apply reads_ret.
  - eapply reads_bind_nil; [by apply reads_ReadFixed|]. apply reads_ret.
Qed.

(** ** Dictionaries *)

Lemma reads_try {A} (m : M I A) (h : exn -> M I A) bs a : reads m bs a -> reads (try_catch m h) bs a.
Proof.
  intros Hm i rest Hg Hp. destruct (Hm i rest Hg Hp) as (i' & E & Hp' & Hg'). exists i'.
  unfold try_catch. by rewrite E.
Qed.

Lemma load_unique_ok (d : column) (n : nat) : forall i m,
  (forall j, i <= j < i + Z.of_nat n -> exists it, GetItem d j = Ok it /\ zlen (snd it) < 2 ^ 64) ->
  exists u, load_unique std_hash d i n m = Ok u.
Proof.
  induction n as [|n IH]; intros i m Hi; cbn [load_unique]; [eauto|].
  destruct (Hi i) as (it & -> & Hl); [lia|]. cbn [rbind].
  destruct (computeHashKey_ok std_hash it Hl) as [k ->]. cbn [rbind]. apply IH. intros j Hj. apply Hi. lia.
Qed.

(** Every item of a well-formed dictionary can be read. *)
Lemma dict_GetItem (d : column) (j : Z) : wf_col d -> dict_ok d -> 0 <= j < Size d ->
  exists it, GetItem d j = Ok it /\ zlen (snd it) < 2 ^ 64.
Proof.
  intros Hw Hd Hj. destruct d as [| | | | | | |nested nulls| | |]; try by apply GetItem_ok.
  destruct Hd as [Hd _]. destruct Hw as (Hw & Hl & _). cbn [Size] in Hj. cbn [GetItem]; open_item. unfold at_.
  rewrite (proj2 (Z.ltb_ge _ _)) by lia. destruct (lookup_in_range nulls j Hj) as [v ->]. cbn [rbind].
  destruct (v =? 0); [apply GetItem_ok; (done || lia)|]. by eexists.
Qed.

Definition dict_data (d : column) : column :=
  match d with ColumnNullable nested _ => nested | d => d end.

Lemma reads_LoadDictionary (load : column -> Z -> M I (bool * column)) (d d0 : column) (code : Code.t)
    (index : list Z) (u : gmap (Z * Z) Z) :
  wf_col (ColumnLowCardinality d code index u) -> CloneEmpty std_hash d = Ok d0 ->
  reads (load (dict_data d0) (Size d)) (body_bytes (dict_data d)) (true, dict_data d) ->
  exists u', reads (LoadDictionary std_hash load d0 (zlen index))
    (body_bytes (ColumnLowCardinality d code index u)) (mkLC d code index u').
Proof.
  intros (Hw & Hd & Hc & Hidx & Hsz & Hz) Hcl Hload.
  destruct (load_unique_ok d (Z.to_nat (Size d)) 0 ∅) as [u' Hu].
  { intros j Hj. apply dict_GetItem; (done || lia). }
  exists u'. cbn [body_bytes]. unfold LoadDictionary.
  assert (fits_width 8 (Z.lor (index_type code) HasAdditionalKeysBit) /\
    createIndexColumn (Z.land (Z.lor (index_type code) HasAdditionalKeysBit) IndexTypeMask) = Ok code /\
    Z.land (Z.lor (index_type code) HasAdditionalKeysBit) NeedGlobalDictionaryBit = 0 /\
    Z.land (Z.lor (index_type code) HasAdditionalKeysBit) HasAdditionalKeysBit <> 0) as (Hf & E1 & E2 & E3)
    by (by destruct code).
  eapply reads_bind; [by apply reads_ReadFixed|]. cbv beta iota. cbn [negb]. rewrite E1. apply reads_pure.
  rewrite E2, (proj2 (Z.eqb_neq _ _) E3). cbn [Z.eqb negb].
  eapply reads_bind; [apply reads_ReadFixed; change (256 ^ Z.of_nat 8) with (2 ^ 64); lia|]. cbv beta iota. cbn [negb].
  assert (match d with ColumnNullable nested _ => body_bytes nested | _ => body_bytes d end = body_bytes (dict_data d))
    as -> by (by destruct d).
  assert (match d0 with ColumnNullable nested _ => nested | _ => d0 end = dict_data d0) as -> by done.
  eapply reads_bind; [exact Hload|]. cbv beta iota. cbn [negb]. pose proof (zlen_nonneg index).
  eapply reads_bind; [apply reads_ReadFixed; change (256 ^ Z.of_nat 8) with (2 ^ 64); lia|]. cbv beta iota. cbn [negb].
  rewrite Z.eqb_refl. cbn [negb].
  eapply reads_bind_nil; [apply reads_LoadVector; eapply Forall_impl; [exact Hidx|]; by intros ? []|]. cbv beta iota zeta.
  assert (Size (dict_data d) = Size d) as Hsd.
  { destruct d; try done. destruct Hw as (_ & Hl & _). cbn. lia. }
  assert (match d0 with
          | ColumnNullable _ nulls =>
            ColumnNullable (dict_data d) (nulls ++ 1 :: replicate (Z.to_nat (Size (dict_data d) - 1)) 0)
          | _ => dict_data d
          end = d) as ->.
  { destruct d as [| | | | |w ty data| |nested nulls| | |]; try done; try by injection Hcl as <-.
    - cbn in Hcl. destruct (CloneEmpty std_hash data); [|done]. by injection Hcl as <-.
    - cbn in Hcl. destruct (CloneEmpty std_hash nested); [|done]. injection Hcl as <-.
      cbn [dict_data app]. by rewrite (proj2 Hd). }
  rewrite Hsd, Hu. apply reads_pure, reads_ret.
Qed.
(** ** The body *)

(** [c'] is [c] loaded: the same rows and form, and the same representation when
    no dictionary was rebuilt. *)
Definition loaded_as (c c' : column) : Prop :=
  rows c' = rows c /\ skeleton c' = skeleton c /\ Size c' = Size c /\
  (mentions Code.LowCardinality (ColumnType c) = false -> c' = c).

Definition body_loads (n : nat) (c : column) : Prop := forall e,
  (depth c <= n)%nat -> wf_col c -> mentions Code.Void (ColumnType c) = false -> blank std_hash c e ->
  exists c', reads (LoadBody_ std_hash n e (Size c)) (body_bytes c) (true, c') /\ loaded_as c c'.

Lemma loads_wrap (n : nat) (w : wrapper) (ty : type) (data : column) : body_loads n data ->
  body_loads (S n) (ColumnWrap w ty data).
Proof.
  intros IH x Hn Hw _ Hb. cbn [depth] in *. pose proof Hw as (Ht & Hd & Hu).
  destruct (wrapped_plain _ _ _ Ht) as [Hlc Hv]. inversion Hb as [| | | | |? ? ? d E| | | | |]; subst.
  destruct (IH d ltac:(lia) Hd Hv E) as (d' & Hr & _ & _ & _ & Heq). rewrite (Heq Hlc) in Hr. exists (ColumnWrap w ty data).
  split; [|done]. cbn [body_bytes]. destruct (decide (w = WUUID)) as [->|Hne].
  - cbn [LoadBody_ Size]; open_load. destruct (Hu eq_refl) as [He Hf]. apply even_half in He.
    rewrite wrap_id by (pose proof (Size_nonneg _ Hd); unfold is_u; lia).
    replace (Size data / 2 * 2) with (Size data) by lia.
    eapply reads_bind_nil; [exact Hr|]. apply reads_ret.
  - destruct w; try done; (cbn [LoadBody_ Size]; open_load; eapply reads_bind_nil; [exact Hr|]; apply reads_ret).
Qed.

Lemma loads_array (n : nat) (data : column) (os : list Z) : body_loads n data -> body_loads (S n) (ColumnArray data os).
Proof.
  intros IH x Hn (Hw & Hm & Hl & Hs & Hz & _) Hv Hb. cbn [depth] in *.
  inversion Hb as [| | | | | |? ? d E| | | |]; subst.
  pose proof (Size_nonneg _ Hw) as Hnn. cbn [body_bytes LoadBody_ Size]; open_load.
  assert (Forall (fits_width 8) os) as Hos.
  { eapply Forall_impl; [by apply monotone_range|]. cbn beta. change (lastd 0 os) with (last_offset os).
    unfold fits_width. change (256 ^ Z.of_nat 8) with (2 ^ 64). lia. }
  destruct (blank_spec _ _ _ Hw E) as [Hre Hte].
  assert (Size data = 0 -> loaded_as (ColumnArray data os) (ColumnArray d os)) as Hempty.
  { intros Hs0. split_and!.
    - cbn [rows]. by rewrite Hre, (proj2 (rows_nil _ Hw) Hs0).
    - cbn. by rewrite Hte.
    - done.
    - intros Hlc. f_equal. pose proof (clone_self std_hash data Hw Hlc Hs0). apply blank_clone in E; [congruence|done|done]. }
  destruct (Z.eqb_spec (zlen os) 0) as [Hz0|Hz0].
  - apply zlen_0 in Hz0 as ->. cbn in Hl. rewrite <- Hl. eexists. split; [apply reads_ret|]. by apply Hempty.
  - assert (at_ os (zlen os - 1) = Ok (Size data)) as Hat.
    { unfold at_. pose proof (zlen_nonneg os). rewrite (proj2 (Z.ltb_ge _ _)) by lia. rewrite <- Hl.
      unfold last_offset. rewrite last_lookup. destruct (lookup_in_range os (zlen os - 1)) as [o Ho]; [lia|].
      rewrite Ho. replace (pred (length os)) with (Z.to_nat (zlen os - 1)) by (unfold zlen; lia). by rewrite Ho. }
    destruct (Z.ltb_spec 0 (Size data)) as [Hpos|Hzero].
    + destruct (IH d ltac:(lia) Hw Hv E) as (d' & Hr & Hrows & Hty & Hsz & Heq).
      exists (ColumnArray d' os). split.
      * eapply reads_bind; [by apply reads_LoadVector|]. cbv beta iota. cbn [negb]. rewrite Hat. apply reads_pure.
        rewrite (proj2 (Z.eqb_neq _ _)) by lia. eapply reads_bind_nil; [exact Hr|]. apply reads_ret.
      * split_and!; cbn; [by rewrite Hrows|by rewrite Hty|done|]. intros Hlc. by rewrite Heq.
    + exists (ColumnArray d os). split; [|apply Hempty; lia]. rewrite app_nil_r.
      eapply reads_bind_nil; [by apply reads_LoadVector|]. cbv beta iota. cbn [negb]. rewrite Hat. apply reads_pure.
      rewrite (proj2 (Z.eqb_eq _ _)) by lia. apply reads_ret.
Qed.

Lemma loads_tuple (n : nat) (cs : list column) (names : list bytes) : (forall c, body_loads n c) ->
  body_loads (S n) (ColumnTuple cs names).
Proof.
  intros IH x Hn Hwf Hv Hb. cbn [depth] in *. inversion Hb as [| | | | | | | |? es ? E| |]; subst.
  pose proof Hwf as (Hw & Hs & _). apply foldr_Forall in Hw.
  cbn [ColumnType mentions] in Hv. apply orb_false_elim in Hv as [_ Hv]. apply existsb_Forall, Forall_map in Hv.
  set (sz := Size (ColumnTuple cs names)) in *.
  assert (exists rs, Forall2 (fun c '(e, r) => reads (LoadBody_ std_hash n e sz) (body_bytes c) (true, r)) cs (zip es rs) /\
    length es = length rs /\ Forall2 loaded_as cs rs) as (rs & H1 & H2 & H3).
  { clearbody sz. clear Hwf Hb. assert (Forall (fun c => (depth c <= n)%nat) cs) as Hdep.
    { apply Forall_forall. intros c Hc. eapply depth_elem; [|exact Hc]. lia. }
    clear Hn. induction E as [|c e cs es Hce _ IHl]; [by exists []|].
    destruct IHl as (rs & H1 & H2 & H3); try (by eapply Forall_inv_tail).
    destruct (IH c e (Forall_inv Hdep) (Forall_inv Hw) (Forall_inv Hv) Hce) as (r & Hr & Hl).
    rewrite (Forall_inv Hs) in Hr. exists (r :: rs). cbn. split_and!; [by constructor|congruence|by constructor]. }
  exists (ColumnTuple rs names). split.
  - cbn [LoadBody_ body_bytes]; open_load. eapply (reads_bind_nil _ _ _ (true, rs)); [by apply reads_load_all|apply reads_ret].
  - split_and!.
    + cbn [rows]. do 2 f_equal. apply Forall2_map_eq. eapply Forall2_impl; [exact H3|]. by intros ? ? [].
    + cbn [skeleton]. f_equal. apply Forall2_map_eq. eapply Forall2_impl; [exact H3|]. by intros ? ? (_ & ? & _).
    + destruct H3 as [|c r cs rs (_ & _ & Hz & _) _]; [done|exact Hz].
    + cbn [ColumnType mentions]. intros [_ Hlc]%orb_false_elim. apply existsb_Forall, Forall_map in Hlc. f_equal.
      clear -H3 Hlc. induction H3 as [|c r cs rs (_ & _ & _ & Hr) _ IHl]; [done|].
      rewrite (Hr (Forall_inv Hlc)), IHl; [done|by eapply Forall_inv_tail].
Qed.

Lemma dict_plain (d : column) : wf_col d -> dict_item d = true -> mentions Code.LowCardinality (ColumnType d) = false.
Proof.
  destruct d as [code| | | | |w ty data| | | | |]; try done; intros Hw Hd.
  - destruct Hw as [Hc _]. by destruct code.
  - destruct Hw as (Ht & _). by destruct w; try done; destruct ty as [[]| | | | | | | | | | |].
Qed.

(** A dictionary is an item column or a nullable one, and so is its clone. *)
Lemma dict_cases (d d0 : column) : dict_ok d -> CloneEmpty std_hash d = Ok d0 ->
  (dict_data d = d /\ dict_data d0 = d0 /\ dict_item d = true) \/
  (exists nested nulls n0, d = ColumnNullable nested nulls /\ d0 = ColumnNullable n0 [] /\ dict_item nested = true /\
     CloneEmpty std_hash nested = Ok n0).
Proof.
  intros Hd. destruct d as [| | | | |w ty data| |nested nulls| | |]; try done; cbn [CloneEmpty]; open_clone.
  - intros [= <-]. by left.
  - intros [= <-]. by left.
  - intros [= <-]. by left.
  - destruct (CloneEmpty std_hash data); [|done]. intros [= <-]. by left.
  - destruct (CloneEmpty std_hash nested) as [n0|] eqn:E; [|done]. intros [= <-]. right. destruct Hd. eauto 10.
Qed.

(** A dictionary is loaded as it was saved, but for the map of unique items. *)
Lemma loads_lc_exact (n : nat) (d d0 : column) (code : Code.t) (index : list Z) (u : gmap (Z * Z) Z) (l : lc) :
  (forall c, body_loads n c) -> (depth d <= n)%nat -> wf_col (ColumnLowCardinality d code index u) ->
  mentions Code.Void (ColumnType d) = false -> CloneEmpty std_hash d = Ok d0 -> CloneEmpty std_hash (lc_dict l) = Ok d0 ->
  exists u', reads (LoadBody_ std_hash (S n) (lc_column l) (zlen index)) (body_bytes (ColumnLowCardinality d code index u))
    (true, ColumnLowCardinality d code index u').
Proof.
  intros IH Hn Hw Hv E El. pose proof Hw as (Hwd & Hd & _).
  assert (reads (LoadBody_ std_hash n (dict_data d0) (Size d)) (body_bytes (dict_data d)) (true, dict_data d)) as Hload.
  { assert (forall x x0, (depth x <= n)%nat -> wf_col x -> dict_item x = true -> mentions Code.Void (ColumnType x) = false ->
      CloneEmpty std_hash x = Ok x0 -> reads (LoadBody_ std_hash n x0 (Size x)) (body_bytes x) (true, x)) as Hitem.
    { intros y y0 Hy Hwy Hiy Hvy Ey. destruct (IH y y0 Hy Hwy Hvy (clone_blank _ _ _ Hwy Ey)) as (c' & Hr & _ & _ & _ & Heq).
      by rewrite (Heq (dict_plain _ Hwy Hiy)) in Hr. }
    destruct (dict_cases d d0 Hd E) as [(-> & -> & Hi)|(nested & nulls & n0 & -> & -> & Hi & En)].
    - apply Hitem; (done || lia).
    - destruct Hwd as (Hwn & Hl & _). cbn [depth dict_data Size] in *. rewrite Hl. apply Hitem; (done || lia). }
  destruct (reads_LoadDictionary (LoadBody_ std_hash n) d d0 code index u Hw E Hload) as [u' Hr].
  exists u'. cbn [LoadBody_ lc_column]; open_load. apply reads_try. cbn [lc_dict]. rewrite El. apply reads_pure.
  eapply reads_bind_nil; [exact Hr|]. apply reads_ret.
Qed.

Lemma loads_lc (n : nat) (d : column) (code : Code.t) (index : list Z) (u : gmap (Z * Z) Z) :
  (forall c, body_loads n c) -> body_loads (S n) (ColumnLowCardinality d code index u).
Proof.
  intros IH x Hn Hw Hv Hb. inversion Hb as [| | | | | | | | | |? ? ? ? d0 l E El]; subst.
  cbn [depth ColumnType mentions] in *. apply orb_false_elim in Hv as [_ Hv].
  destruct (loads_lc_exact n d d0 code index u l IH ltac:(lia) Hw Hv E El) as [u' Hr].
  exists (ColumnLowCardinality d code index u'). split; [exact Hr|by split_and!].
Qed.

Lemma LoadBody_ok (n : nat) : forall c, body_loads n c.
Proof.
  induction n as [|n IH]; intros c; [intros e Hn; by destruct c; cbn in Hn; lia|].
  destruct c as [code data|code en data|items|m data|size|w ty data|data os|nested nulls|cs names|data|d code index u].
  - intros x _ [_ Hf] _ Hb. inversion Hb; subst. exists (ColumnVector code data). split; [|done].
    eapply reads_bind_nil; [by apply reads_LoadVector|]. apply reads_ret.
  - intros x _ [_ Hf] _ Hb. inversion Hb; subst. exists (ColumnEnum code en data). split; [|done].
    eapply reads_bind_nil; [by apply reads_LoadVector|]. apply reads_ret.
  - intros x _ Hf _ Hb. inversion Hb; subst. exists (ColumnString items). split; [|done]. cbn [LoadBody_ Size body_bytes]; open_load.
    destruct (Z.eqb_spec (zlen items) 0) as [->%zlen_0|_]; [apply reads_ret|].
    eapply reads_bind_nil; [unfold zlen; rewrite Nat2Z.id; by apply reads_LoadStrings|]. apply reads_ret.
  - intros x _ (Hm & Hd & Hf) _ Hb. inversion Hb; subst. exists (ColumnFixedString m data). split; [|done].
    cbn [LoadBody_ Size body_bytes]; open_load. pose proof (Z.div_mod (zlen data) m ltac:(lia)) as Hq. rewrite Hd, Z.add_0_r in Hq.
    rewrite <- Hq, wrap_id by (unfold is_u; pose proof (zlen_nonneg data); lia).
    eapply reads_bind_nil; [rewrite zlen_resize by apply zlen_nonneg; apply reads_ReadAll|]. cbv beta iota. rewrite resize_overwrite. apply reads_ret.
  - done.
  - by apply loads_wrap.
  - by apply loads_array.
  - intros x Hn (Hw & Hl & Hf & _) Hv Hb. cbn [depth] in *. inversion Hb as [| | | | | | |? ? d E| | |]; subst.
    destruct (IH nested d ltac:(lia) Hw Hv E) as (d' & Hr & Hrows & Hty & Hsz & Heq).
    exists (ColumnNullable d' nulls). split.
    + cbn [LoadBody_ Size body_bytes]; open_load. eapply reads_bind; [by apply reads_LoadVector|]. cbv beta iota. cbn [negb].
      rewrite Hl. eapply reads_bind_nil; [exact Hr|]. apply reads_ret.
    + split_and!; cbn; [by rewrite Hrows|by rewrite Hty|done|]. intros Hlc. by rewrite Heq.
  - by apply loads_tuple.
  - intros x Hn (Hw & Hshape) Hv Hb.
    assert (forall code, code <> Code.Array -> code <> Code.Tuple -> mentions code (ColumnType (ColumnMap data)) = false ->
      mentions code (ColumnType data) = false) as Hmen.
    { destruct Hshape as (k & v & os & ->). intros code Ha Ht. cbn [ColumnType map mentions existsb GetCode].
      rewrite (bool_decide_false (Code.Array = code)), (bool_decide_false (Code.Tuple = code)) by congruence.
      rewrite orb_false_r. by intros [_ ?]%orb_false_elim. }
    cbn [depth] in *. inversion Hb as [| | | | | | | | |? d E|]; subst.
    destruct (IH data d ltac:(lia) Hw (Hmen Code.Void ltac:(done) ltac:(done) Hv) E) as (d' & Hr & Hrows & Hty & Hsz & Heq).
    exists (ColumnMap d'). split; [eapply reads_bind_nil; [exact Hr|]; apply reads_ret|]. split_and!; [done| |done|].
    + cbn [skeleton]. by rewrite Hty.
    + intros Hlc. by rewrite Heq by (apply Hmen; done).
  - by apply loads_lc.
Qed.

(** Loading into a blank column. *)
Lemma Load_ok (c e : column) : wf_col c -> mentions Code.Void (ColumnType c) = false -> 0 < Size c ->
  blank std_hash c e ->
  exists c', reads (Load std_hash e (Size c)) (prefix_bytes c ++ body_bytes c) (true, c') /\ loaded_as c c'.
Proof.
  intros Hw Hv Hs Hb. destruct (LoadBody_ok (depth c) c e (Nat.le_refl _) Hw Hv Hb) as (c' & Hr & Hl).
  exists c'. split; [|done]. unfold Load, LoadBody. eapply reads_bind; [by eapply reads_LoadPrefix|].
  cbv beta iota. by rewrite (blank_depth _ _ _ Hb).
Qed.
End Loading.

(** ** Main results *)

(** C1. Columns round trip.  A well-formed column of any supported class, nested
    to any depth (numbers, enumerations, strings, delegating classes, arrays,
    nullables, tuples, maps, dictionaries), with at least one row: the bytes
    [Save] writes, loaded into an empty clone of the column, are accepted, consumed
    exactly, and give a column with the same rows and the same type; without
    dictionaries it is the identical column.  [Nothing] columns, which cannot be
    saved, are left out.  (Without rows an array of dictionaries does not come back:
    [LoadPrefix] skips the prefix that [SavePrefix] has written.) *)
Theorem column_roundtrip {Out I} `{OutputStreamLaws Out} `{InputStreamLaws I} (std_hash : bytes -> Z) (c : column)
    (Hw : wf_col c) (Hv : mentions Code.Void (ColumnType c) = false) (Hs : 0 < Size c) :
  exists bs e c', writes (Save (Out := Out) c) bs tt /\ CloneEmpty std_hash c = Ok e /\
    reads (Load std_hash (I := I) e (Size c)) bs (true, c') /\
    rows c' = rows c /\ ColumnType c' = ColumnType c /\
    (mentions Code.LowCardinality (ColumnType c) = false -> c' = c).
Proof.
  destruct (CloneEmpty_ok std_hash c Hw) as (e & E & _).
  destruct (Load_ok std_hash (I := I) c e Hw Hv Hs (clone_blank _ _ _ Hw E)) as (c' & Hr & Hrows & Hsk & _ & Heq).
  exists (prefix_bytes c ++ body_bytes c), e, c'. split_and!; try done.
  - by apply writes_Save.
  - by apply skeleton_eq_type.
Qed.

(** Three rows of [Array(Nullable(String))] and of [LowCardinality(String)], in a tuple. *)
Definition example_column : column :=
  ColumnTuple
    [ColumnArray (ColumnNullable (ColumnString [str "a"; str ""; str "bc"]) [0; 1; 0]) [2; 2; 3];
     ColumnLowCardinality (ColumnString [str ""; str "x"]) Code.UInt32 [1; 0; 1] ∅] [].

Lemma example_wf : wf_col example_column.
Proof. unfold example_column. wf_auto. Qed.

Lemma column_roundtrip_witness : exists bs e c',
  writes (Save (Out := ChunkSink) example_column) bs tt /\ CloneEmpty (fun _ => 0) example_column = Ok e /\
    reads (Load (fun _ => 0) (I := ChunkSource) e (Size example_column)) bs (true, c') /\
    rows c' = rows example_column /\ ColumnType c' = ColumnType example_column /\
    (mentions Code.LowCardinality (ColumnType example_column) = false -> c' = example_column).
Proof. apply (column_roundtrip (fun _ => 0) example_column); [exact example_wf|reflexivity|reflexivity]. Defined.
