(* ===== verification/StringStorage.v ===== *)
(** * The storage of string columns (ColumnString of columns/string.h, string.cpp)

    A string column keeps views of its strings: a pointer and a length.  The bytes lie
    in blocks that the column allocates and fills one after the other, in strings
    it has taken over ([append_data_]), or with the application.  Here the pointers
    are explicit.  A view that points to bytes that are gone, and a copy beyond the
    end of a block, are undefined; the theorem is that neither happens and that the
    column behaves like the list of its strings, which is how [Columns] models it.

    A block never moves: [blocks_] holds pointers to the characters, and a deque does
    not move its elements.  So a pointer is the number of a block and a position in it,
    or the number of a string.  The columns of an append are different objects;
    appending a column to itself is [String_AppendSelf]. *)

From S2P Require Import Prelude Streams WireFormat Columns.

Definition DEFAULT_BLOCK_SIZE : Z := 4096.

(** ** Data *)

Inductive place :=
| InBlock (block : nat) (pos : Z)
| InOwned (index : nat)
| External (text : bytes).

Record view := mkView { v_place : place; v_len : Z }.

(** The characters written so far: [size] is their number. *)
Record SBlock := mkSBlock { b_capacity : Z; b_data : bytes }.

Record SColumn := mkSColumn {
  items_ : list view;
  blocks_ : list SBlock;
  append_data_ : list bytes;
}.

Definition SColumn_new : SColumn := mkSColumn [] [] [].

(** [size] is never larger than [capacity]. *)
Definition GetAvailable (b : SBlock) : Z := b_capacity b - zlen (b_data b).

(** The characters a view points to, if they are there. *)
Definition view_text (blocks : list SBlock) (owned : list bytes) (v : view) : option bytes :=
  match v_place v with
  | InBlock k pos =>
    match blocks !! k with
    | Some b => if (0 <=? pos) && (pos + v_len v <=? zlen (b_data b)) then Some (ztake (v_len v) (zdrop pos (b_data b))) else None
    | None => None
    end
  | InOwned k => match owned !! k with Some s => if v_len v =? zlen s then Some s else None | None => None end
  | External text => Some text
  end.

(** ** Operations *)

(** [Block::AppendUnsafe]: the position, and the block with the string. *)
Definition Block_AppendUnsafe (str : bytes) (b : SBlock) : result (Z * SBlock) :=
  if b_capacity b <? zlen (b_data b) + zlen str then Throw Undefined
  else Ok (zlen (b_data b), mkSBlock (b_capacity b) (b_data b ++ str)).

(** [blocks_.emplace_back(capacity)]. *)
Definition emplace_block (capacity : Z) : M SColumn unit :=
  modify (fun c => mkSColumn (items_ c) (blocks_ c ++ [mkSBlock capacity []]) (append_data_ c)).

(** [items_.emplace_back(blocks_.back().AppendUnsafe(str))]. *)
Definition String_AppendUnsafe (str : bytes) : M SColumn unit :=
  fun c =>
    let k := (length (blocks_ c) - 1)%nat in
    match blocks_ c !! k with
    | None => (Throw Undefined, c)
    | Some b =>
      match Block_AppendUnsafe str b with
      | Throw e => (Throw e, c)
      | Ok (pos, b) => (Ok tt, mkSColumn (items_ c ++ [mkView (InBlock k pos) (zlen str)]) (<[k := b]> (blocks_ c)) (append_data_ c))
      end
    end.

(** [blocks_.size() == 0 || blocks_.back().GetAvailable() < n]. *)
Definition need_block (n : Z) (c : SColumn) : bool :=
  match last (blocks_ c) with
  | None => true
  | Some b => GetAvailable b <? n
  end.

Definition String_Append (str : bytes) : M SColumn unit :=
  let* c := get in
  when (need_block (zlen str) c) (emplace_block (Z.max DEFAULT_BLOCK_SIZE (zlen str))) ;;;
  String_AppendUnsafe str.

(** [Append(std::string&&)]. *)
Definition String_AppendOwned (steal_value : bytes) : M SColumn unit :=
  modify (fun c => mkSColumn (items_ c ++ [mkView (InOwned (length (append_data_ c))) (zlen steal_value)]) (blocks_ c)
    (append_data_ c ++ [steal_value])).

Definition String_AppendNoManagedLifetime (str : bytes) : M SColumn unit :=
  modify (fun c => mkSColumn (items_ c ++ [mkView (External str) (zlen str)]) (blocks_ c) (append_data_ c)).

Definition String_Clear : M SColumn unit := put SColumn_new.

Definition String_Size (c : SColumn) : Z := zlen (items_ c).

Definition String_At (c : SColumn) (n : Z) : result bytes :=
  let! v := at_ (items_ c) n in
  match view_text (blocks_ c) (append_data_ c) v with
  | Some s => Ok s
  | None => Throw Undefined
  end.

(** The sum of the lengths of the [len] views from [begin] on. *)
Definition ComputeTotalSize (strings : list view) (begin len : Z) : Z :=
  if begin <? zlen strings then
    fold_left (fun result v => wrap 64 (result + v_len v)) (ztake (Z.min len (zlen strings - begin)) (zdrop begin strings)) 0
  else 0.

(** [for (; i < end; ++i) append(col[i])], for [n] more rows. *)
Fixpoint append_from (append : bytes -> M SColumn unit) (src : SColumn) (i : Z) (n : nat) : M SColumn unit :=
  match n with
  | O => ret tt
  | S n =>
    let* s := lift_result (String_At src i) in
    append s ;;;
    append_from append src (i + 1) n
  end.

(** [Append(ColumnRef)], for another string column. *)
Definition String_AppendColumn (col : SColumn) : M SColumn unit :=
  let total_size := ComputeTotalSize (items_ col) 0 (2 ^ 64 - 1) in
  let* c := get in
  when (need_block total_size c) (emplace_block (Z.max DEFAULT_BLOCK_SIZE total_size)) ;;;
  append_from String_AppendUnsafe col 0 (Z.to_nat (String_Size col)).

(** [Append(ColumnRef)] of the column itself: [column->Size()] is that of the growing column. *)
Definition AppendSelf_step (i : Z) : M SColumn (Z + unit) :=
  let* c := get in
  if i <? String_Size c then
    let* s := lift_result (String_At c i) in
    String_AppendUnsafe s ;;;
    ret (inl (i + 1))
  else ret (inr tt).

Definition String_AppendSelf (fuel : positive) : M SColumn unit :=
  let* c := get in
  let total_size := ComputeTotalSize (items_ c) 0 (2 ^ 64 - 1) in
  when (need_block total_size c) (emplace_block (Z.max DEFAULT_BLOCK_SIZE total_size)) ;;;
  while fuel AppendSelf_step 0.

(** The result of a constructor or of [Slice]: a computation on a new column. *)
Definition construct (m : M SColumn unit) : result SColumn :=
  let '(r, c) := m SColumn_new in let! _ := r in Ok c.

Definition String_Slice (c : SColumn) (begin len : Z) : result SColumn :=
  if begin <? String_Size c then
    let len := Z.min len (String_Size c - begin) in
    construct (
      emplace_block (ComputeTotalSize (items_ c) begin len) ;;;
      append_from String_Append c begin (Z.to_nat len))
  else Ok SColumn_new.

(** [ColumnString(const std::vector<std::string>&)]. *)
Fixpoint append_list (append : bytes -> M SColumn unit) (data : list bytes) : M SColumn unit :=
  match data with
  | [] => ret tt
  | s :: data => append s ;;; append_list append data
  end.

Definition String_new (data : list bytes) : result SColumn :=
  construct (
    emplace_block (fold_left (fun result s => wrap 64 (result + zlen s)) data 0) ;;;
    append_list String_AppendUnsafe data).

(** [ColumnString(std::vector<std::string>&&)]. *)
Definition String_new_move (data : list bytes) : result SColumn := construct (append_list String_AppendOwned data).

Definition String_Swap (c other : SColumn) : SColumn * SColumn := (other, c).

(** *** Loading *)
Section Load.
Context {I : Type} `{InputStream I}.

(** [block] is always the last of [new_blocks]. *)
Fixpoint load_rows (n : nat) (new : SColumn) : M I (option SColumn) :=
  match n with
  | O => ret (Some new)
  | S n =>
    let* '(ok, len) := ReadUInt64 in
    if negb ok then ret None else
    let new := if need_block len new then snd (emplace_block (Z.max DEFAULT_BLOCK_SIZE len) new) else new in
    let k := (length (blocks_ new) - 1)%nat in
    match blocks_ new !! k with
    | None => throw Undefined
    | Some b =>
      if GetAvailable b <? len then throw Undefined else
      let* '(s, ok) := ReadBytes len in
      if negb ok then ret None else
      load_rows n (mkSColumn (items_ new ++ [mkView (InBlock k (zlen (b_data b))) len])
        (<[k := mkSBlock (b_capacity b) (b_data b ++ s)]> (blocks_ new)) [])
    end
  end.

Definition String_LoadBody (c : SColumn) (rows : Z) : M I (bool * SColumn) :=
  if rows =? 0 then ret (true, mkSColumn [] [] (append_data_ c))
  else
    let* r := load_rows (Z.to_nat rows) (mkSColumn [] [mkSBlock DEFAULT_BLOCK_SIZE []] []) in
    match r with
    | None => ret (false, c)
    | Some new => ret (true, mkSColumn (items_ new) (blocks_ new) (append_data_ c))
    end.
End Load.

(** ** What a column stands for *)

Definition block_ok (b : SBlock) : Prop := zlen (b_data b) <= b_capacity b.

(** Each view points to the characters of its string; no block is overfull. *)
Definition rep (c : SColumn) (l : list bytes) : Prop :=
  Forall2 (fun v s => view_text (blocks_ c) (append_data_ c) v = Some s /\ v_len v = zlen s) (items_ c) l /\
  Forall block_ok (blocks_ c).

(** Blocks are only added and filled up. *)
Definition grows (blocks blocks' : list SBlock) : Prop :=
  forall k b, blocks !! k = Some b -> exists b' t, blocks' !! k = Some b' /\ b_data b' = b_data b ++ t.

Lemma view_text_grows (blocks blocks' : list SBlock) (owned t : list bytes) (v : view) (s : bytes) : grows blocks blocks' -> v_len v = zlen s ->
  view_text blocks owned v = Some s -> view_text blocks' (owned ++ t) v = Some s.
Proof.
  intros Hg Hlen. unfold view_text. destruct (v_place v) as [k pos|k|text]; [| |done].
  - destruct (blocks !! k) as [b|] eqn:E; [|done]. destruct (Hg k b E) as (b' & u & -> & ->). rewrite zlen_app.
    destruct ((0 <=? pos) && (pos + v_len v <=? zlen (b_data b))) eqn:Hr; [|done]. apply andb_true_iff in Hr as [H1%Z.leb_le H2%Z.leb_le].
    pose proof (zlen_nonneg u). pose proof (zlen_nonneg s). rewrite (proj2 (Z.leb_le 0 pos)), (proj2 (Z.leb_le _ (_ + _))) by lia. cbn [andb]. intros <-.
    rewrite zdrop_app_le by lia. by rewrite ztake_app_le by (rewrite zlen_zdrop; lia).
  - destruct (owned !! k) as [o|] eqn:E; [|done]. by rewrite (lookup_app_l_Some _ _ _ _ E).
Qed.

Lemma grows_refl (blocks : list SBlock) : grows blocks blocks.
Proof. intros k b E. exists b, []. by rewrite app_nil_r. Qed.

Lemma grows_app (blocks more : list SBlock) : grows blocks (blocks ++ more).
Proof. intros k b E. exists b, []. rewrite app_nil_r. split; [by apply lookup_app_l_Some|done]. Qed.

Lemma grows_insert (blocks : list SBlock) (k : nat) (b : SBlock) (cap : Z) (s : bytes) : blocks !! k = Some b ->
  grows blocks (<[k := mkSBlock cap (b_data b ++ s)]> blocks).
Proof.
  intros E j b' E'. destruct (decide (k = j)) as [-> |Hne].
  - rewrite E in E'. injection E' as <-. rewrite list_lookup_insert_eq by (by eapply lookup_lt_Some). by eexists _, s.
  - rewrite list_lookup_insert_ne by done. exists b', []. by rewrite app_nil_r.
Qed.

Lemma rep_grows (c : SColumn) (l : list bytes) (blocks : list SBlock) (t : list bytes) : rep c l -> grows (blocks_ c) blocks -> Forall block_ok blocks ->
  rep (mkSColumn (items_ c) blocks (append_data_ c ++ t)) l.
Proof.
  intros [Hi _] Hg Hb. split; [|done]. eapply Forall2_impl; [exact Hi|]. intros v s [Hv Hl]. split; [|done]. by eapply view_text_grows.
Qed.

Lemma rep_snoc (c : SColumn) (l : list bytes) (v : view) (s : bytes) : rep c l -> view_text (blocks_ c) (append_data_ c) v = Some s -> v_len v = zlen s ->
  rep (mkSColumn (items_ c ++ [v]) (blocks_ c) (append_data_ c)) (l ++ [s]).
Proof. intros [Hi Hb] Hv Hl. split; [|done]. cbn [items_ blocks_ append_data_]. apply Forall2_app; [done|]. by constructor. Qed.

Lemma rep_new : rep SColumn_new [].
Proof. by split. Qed.

(** *** Room in the last block *)

Definition room (c : SColumn) (n : Z) : Prop := exists b, last (blocks_ c) = Some b /\ n <= GetAvailable b.

Lemma last_block (c : SColumn) (b : SBlock) : last (blocks_ c) = Some b -> blocks_ c !! (length (blocks_ c) - 1)%nat = Some b.
Proof. by rewrite last_lookup, Nat.sub_1_r. Qed.

(** A string put at the end of the last block. *)
Lemma rep_last (c : SColumn) (l : list bytes) (b : SBlock) (s : bytes) (n : Z) : rep c l -> last (blocks_ c) = Some b -> 0 <= n -> zlen s + n <= GetAvailable b ->
  let k := (length (blocks_ c) - 1)%nat in
  let c' := mkSColumn (items_ c ++ [mkView (InBlock k (zlen (b_data b))) (zlen s)])
              (<[k := mkSBlock (b_capacity b) (b_data b ++ s)]> (blocks_ c)) (append_data_ c) in
  rep c' (l ++ [s]) /\ room c' n.
Proof.
  intros Hr Hlast Hn Hroom k c'. pose proof (last_block c b Hlast) as E. fold k in E. pose proof (lookup_lt_Some _ _ _ E) as Hk.
  unfold GetAvailable in Hroom. pose proof (zlen_nonneg s). pose proof (zlen_nonneg (b_data b)).
  assert (Forall block_ok (<[k := mkSBlock (b_capacity b) (b_data b ++ s)]> (blocks_ c))) as Hb.
  { apply Forall_insert; [apply Hr|]. unfold block_ok. cbn [b_data b_capacity]. rewrite zlen_app. lia. }
  split.
  - pose proof (rep_grows c l _ [] Hr (grows_insert _ _ _ (b_capacity b) s E) Hb) as Hg. rewrite app_nil_r in Hg.
    refine (rep_snoc _ _ (mkView (InBlock k (zlen (b_data b))) (zlen s)) _ Hg _ eq_refl). unfold view_text. cbn [v_place v_len blocks_].
    rewrite list_lookup_insert_eq by done. cbn [b_data]. rewrite zlen_app, (proj2 (Z.leb_le _ _)), Z.leb_refl by lia. cbn [andb].
    by rewrite zdrop_app_exact, ztake_all by lia.
  - exists (mkSBlock (b_capacity b) (b_data b ++ s)). split; [|unfold GetAvailable; cbn [b_data b_capacity]; rewrite zlen_app; lia].
    rewrite last_lookup. unfold c'. cbn [blocks_]. rewrite length_insert, <- Nat.sub_1_r. by apply list_lookup_insert_eq.
Qed.

Lemma AppendUnsafe_room (c : SColumn) (l : list bytes) (s : bytes) (n : Z) : rep c l -> 0 <= n -> room c (zlen s + n) ->
  exists c', String_AppendUnsafe s c = (Ok tt, c') /\ rep c' (l ++ [s]) /\ room c' n.
Proof.
  intros Hr Hn (b & Hlast & Hroom). destruct (rep_last c l b s n Hr Hlast Hn Hroom) as [H1 H2]. eexists. split; [|by split].
  unfold String_AppendUnsafe. rewrite (last_block c b Hlast). unfold Block_AppendUnsafe. unfold GetAvailable in Hroom.
  by rewrite (proj2 (Z.ltb_ge _ _)) by lia.
Qed.

Lemma make_room (c : SColumn) (l : list bytes) (n cap : Z) : rep c l -> 0 <= n <= cap ->
  exists c', when (need_block n c) (emplace_block cap) c = (Ok tt, c') /\ rep c' l /\ room c' n.
Proof.
  intros Hr Hn. unfold when. destruct (need_block n c) eqn:E.
  - eexists. split; [reflexivity|]. split.
    + pose proof (rep_grows c l (blocks_ c ++ [mkSBlock cap []]) [] Hr (grows_app _ _)) as Hg. rewrite app_nil_r in Hg. apply Hg.
      apply Forall_app; split; [apply Hr|]. apply Forall_singleton. unfold block_ok. cbn. unfold zlen. cbn. lia.
    + exists (mkSBlock cap []). split; [apply last_snoc|]. unfold GetAvailable. cbn. unfold zlen. cbn. lia.
  - exists c. split; [done|]. split; [done|]. unfold need_block in E. destruct (last (blocks_ c)) as [b|] eqn:Hl; [|done].
    exists b. apply Z.ltb_ge in E. by split.
Qed.

Lemma String_Append_ok (c : SColumn) (l : list bytes) (s : bytes) : rep c l ->
  exists c', String_Append s c = (Ok tt, c') /\ rep c' (l ++ [s]).
Proof.
  intros Hr. pose proof (zlen_nonneg s). destruct (make_room c l (zlen s) (Z.max DEFAULT_BLOCK_SIZE (zlen s)) Hr ltac:(lia)) as (c1 & E1 & Hr1 & Hroom).
  destruct (AppendUnsafe_room c1 l s 0 Hr1 ltac:(lia)) as (c2 & E2 & Hr2 & _); [by rewrite Z.add_0_r|]. exists c2. split; [|done].
  unfold String_Append, bind, get. by rewrite E1.
Qed.

(** *** Reading *)

Lemma String_At_ok (c : SColumn) (l : list bytes) (i : Z) : rep c l -> String_At c i = at_ l i.
Proof.
  intros [Hi _]. unfold String_At, at_. destruct (i <? 0); [done|].
  pose proof (Forall2_length _ _ _ Hi) as Hlen. destruct (items_ c !! Z.to_nat i) as [v|] eqn:Ev.
  - destruct (Forall2_lookup_l _ _ _ _ _ Hi Ev) as (s & Es & Hv & _). rewrite Es. cbn [rbind]. by rewrite Hv.
  - apply lookup_ge_None in Ev. rewrite (proj2 (lookup_ge_None l _)) by lia. done.
Qed.

(** The characters of all strings. *)
Definition total (l : list bytes) : Z := fold_right (fun s n => zlen s + n) 0 l.

Lemma total_nonneg (l : list bytes) : 0 <= total l.
Proof. induction l as [|s l IH]; [done|]. cbn. pose proof (zlen_nonneg s). fold (total l). lia. Qed.

Lemma total_app (l k : list bytes) : total (l ++ k) = total l + total k.
Proof. induction l as [|s l IH]; [done|]. cbn. fold (total (l ++ k)) (total l). lia. Qed.

Lemma total_views (vs : list view) (l : list bytes) : Forall2 (fun v s => v_len v = zlen s) vs l -> forall a, 0 <= a -> a + total l < 2 ^ 64 ->
  fold_left (fun result v => wrap 64 (result + v_len v)) vs a = a + total l.
Proof.
  induction 1 as [|v s vs l Hv _ IH]; intros a Ha Hb; [cbn; lia|]. cbn [fold_left total fold_right] in *. fold (total l) in *.
  pose proof (total_nonneg l). pose proof (zlen_nonneg s). rewrite Hv, wrap_id by (unfold is_u; lia). rewrite IH by lia. lia.
Qed.

Lemma rep_lengths (c : SColumn) (l : list bytes) : rep c l -> Forall2 (fun v s => v_len v = zlen s) (items_ c) l.
Proof. intros [Hi _]. eapply Forall2_impl; [exact Hi|]. by intros v s [_ ?]. Qed.

Lemma rep_size (c : SColumn) (l : list bytes) : rep c l -> String_Size c = zlen l.
Proof. intros [Hi _]. unfold String_Size, zlen. by rewrite (Forall2_length _ _ _ Hi). Qed.

Lemma total_part (l : list bytes) (b n : Z) : total (ztake n (zdrop b l)) <= total l.
Proof.
  rewrite <- (ztake_zdrop b l) at 2. rewrite <- (ztake_zdrop n (zdrop b l)) at 2. rewrite !total_app.
  pose proof (total_nonneg (ztake b l)). pose proof (total_nonneg (zdrop n (zdrop b l))). lia.
Qed.

Lemma Forall2_ztake {A B} (P : A -> B -> Prop) (l : list A) (k : list B) (n : Z) : Forall2 P l k -> Forall2 P (ztake n l) (ztake n k).
Proof. intros H. unfold ztake, zlen. rewrite (Forall2_length _ _ _ H). by apply Forall2_take. Qed.

Lemma Forall2_zdrop {A B} (P : A -> B -> Prop) (l : list A) (k : list B) (n : Z) : Forall2 P l k -> Forall2 P (zdrop n l) (zdrop n k).
Proof. intros H. unfold zdrop, zlen. rewrite (Forall2_length _ _ _ H). by apply Forall2_drop. Qed.

Lemma ComputeTotalSize_ok (c : SColumn) (l : list bytes) (begin len : Z) : rep c l -> total l < 2 ^ 64 ->
  ComputeTotalSize (items_ c) begin len = if begin <? zlen l then total (ztake (Z.min len (zlen l - begin)) (zdrop begin l)) else 0.
Proof.
  intros Hr Ht. unfold ComputeTotalSize. change (zlen (items_ c)) with (String_Size c). rewrite (rep_size c l Hr).
  destruct (begin <? zlen l); [|done]. pose proof (total_part l begin (Z.min len (zlen l - begin))).
  rewrite (total_views _ (ztake (Z.min len (zlen l - begin)) (zdrop begin l))); [lia| |lia|lia].
  by apply Forall2_ztake, Forall2_zdrop, rep_lengths.
Qed.

(** *** Loops *)

(** Appending one after the other what the source holds from row [i] on; [P n] is what the appends need for
    strings of [n] characters in all. *)
Lemma append_from_ok (append : bytes -> M SColumn unit) (P : SColumn -> Z -> Prop) (src : SColumn) (k : list bytes) : rep src k ->
  (forall c l s n, rep c l -> 0 <= n -> P c (zlen s + n) -> exists c', append s c = (Ok tt, c') /\ rep c' (l ++ [s]) /\ P c' n) ->
  forall n i c l, 0 <= i -> i + Z.of_nat n <= zlen k -> rep c l -> P c (total (take n (drop (Z.to_nat i) k))) ->
  exists c', append_from append src i n c = (Ok tt, c') /\ rep c' (l ++ take n (drop (Z.to_nat i) k)).
Proof.
  intros Hsrc Happend. induction n as [|n IH]; intros i c l Hi Hn Hr HP; [exists c; rewrite take_0, app_nil_r; by split|].
  destruct (lookup_lt_is_Some_2 k (Z.to_nat i)) as [s Es]; [unfold zlen in Hn; lia|].
  rewrite (drop_S _ _ _ Es) in HP |- *. rewrite firstn_cons in HP |- *. cbn [total fold_right] in HP. fold (total (take n (drop (S (Z.to_nat i)) k))) in HP.
  cbn [append_from]. unfold bind, lift_result. rewrite (String_At_ok src k i Hsrc). unfold at_. rewrite (proj2 (Z.ltb_ge _ _)), Es by lia.
  destruct (Happend c l s _ Hr (total_nonneg _) HP) as (c1 & E1 & Hr1 & HP1). rewrite E1. replace (S (Z.to_nat i)) with (Z.to_nat (i + 1)) in * by lia.
  destruct (IH (i + 1) c1 (l ++ [s]) ltac:(lia) ltac:(lia) Hr1 HP1) as (c2 & E2 & Hr2). exists c2. split; [done|]. by rewrite <- app_assoc in Hr2.
Qed.

Lemma append_list_ok (append : bytes -> M SColumn unit) (P : SColumn -> Z -> Prop) :
  (forall c l s n, rep c l -> 0 <= n -> P c (zlen s + n) -> exists c', append s c = (Ok tt, c') /\ rep c' (l ++ [s]) /\ P c' n) ->
  forall data c l, rep c l -> P c (total data) -> exists c', append_list append data c = (Ok tt, c') /\ rep c' (l ++ data).
Proof.
  intros Happend. induction data as [|s data IH]; intros c l Hr HP; [exists c; rewrite app_nil_r; by split|].
  cbn [append_list]. unfold bind. destruct (Happend c l s _ Hr (total_nonneg data) HP) as (c1 & E1 & Hr1 & HP1). rewrite E1.
  destruct (IH c1 (l ++ [s]) Hr1 HP1) as (c2 & E2 & Hr2). exists c2. split; [done|]. by rewrite <- app_assoc in Hr2.
Qed.

Lemma take_all_rows (k : list bytes) : take (Z.to_nat (zlen k)) (drop (Z.to_nat 0) k) = k.
Proof. rewrite drop_0. apply take_ge. unfold zlen. lia. Qed.

Lemma AppendColumn_ok (c col : SColumn) (l k : list bytes) : rep c l -> rep col k -> total k < 2 ^ 64 -> zlen k < 2 ^ 64 ->
  exists c', String_AppendColumn col c = (Ok tt, c') /\ rep c' (l ++ k).
Proof.
  intros Hr Hk Ht Hz. pose proof (total_nonneg k). pose proof (zlen_nonneg k). unfold String_AppendColumn.
  assert (ComputeTotalSize (items_ col) 0 (2 ^ 64 - 1) = total k) as ->.
  { rewrite (ComputeTotalSize_ok col k) by done. destruct (Z.ltb_spec 0 (zlen k)) as [H1|H1]; [|by rewrite (zlen_0 k) by lia].
    rewrite zdrop_0, ztake_all by lia. done. }
  destruct (make_room c l (total k) (Z.max DEFAULT_BLOCK_SIZE (total k)) Hr ltac:(lia)) as (c1 & E1 & Hr1 & Hroom).
  unfold bind at 1, get. unfold bind. rewrite E1. rewrite (rep_size col k Hk).
  destruct (append_from_ok String_AppendUnsafe room col k Hk AppendUnsafe_room (Z.to_nat (zlen k)) 0 c1 l) as (c2 & E2 & Hr2);
    [lia|lia|done|by rewrite take_all_rows|]. exists c2. split; [done|]. by rewrite take_all_rows in Hr2.
Qed.

Lemma construct_ok (m : M SColumn unit) (l : list bytes) : (exists c, m SColumn_new = (Ok tt, c) /\ rep c l) -> exists c, construct m = Ok c /\ rep c l.
Proof. intros (c & E & Hr). exists c. unfold construct. by rewrite E. Qed.

Lemma emplace_first (cap : Z) : 0 <= cap -> exists c, emplace_block cap SColumn_new = (Ok tt, c) /\ rep c [] /\ room c cap.
Proof.
  intros Hc. eexists. split; [reflexivity|]. split.
  - split; [constructor|]. apply Forall_singleton. exact Hc.
  - exists (mkSBlock cap []). split; [done|]. unfold GetAvailable. cbn [b_data b_capacity]. rewrite zlen_nil. lia.
Qed.

Lemma String_Slice_ok (col : SColumn) (k : list bytes) (begin len : Z) : rep col k -> total k < 2 ^ 64 -> 0 <= begin -> 0 <= len ->
  exists c, String_Slice col begin len = Ok c /\ rep c (SliceVector k begin len).
Proof.
  intros Hk Ht Hb Hlen. unfold String_Slice, SliceVector. rewrite (rep_size col k Hk). destruct (Z.ltb_spec begin (zlen k)) as [H|H]; [|exists SColumn_new; split; [done|apply rep_new]].
  set (n := Z.min len (zlen k - begin)). apply construct_ok. unfold bind. rewrite (ComputeTotalSize_ok col k) by done. rewrite (proj2 (Z.ltb_lt _ _) H).
  destruct (emplace_first (total (ztake (Z.min n (zlen k - begin)) (zdrop begin k))) (total_nonneg _)) as (c1 & E1 & Hr1 & _). rewrite E1.
  destruct (append_from_ok String_Append (fun _ _ => True) col k Hk) with (n := Z.to_nat n) (i := begin) (c := c1) (l := @nil bytes) as (c2 & E2 & Hr2); [|lia|lia|done|done|].
  { intros c l s m Hr _ _. destruct (String_Append_ok c l s Hr) as (c' & E & Hr'). by exists c'. }
  exists c2. split; [done|]. cbn [app] in Hr2. unfold ztake, zdrop in *.
  replace (Z.to_nat (Z.min begin (zlen k))) with (Z.to_nat begin) by lia.
  replace (Z.to_nat (Z.min n (zlen (drop (Z.to_nat begin) k)))) with (Z.to_nat n); [done|]. unfold zlen at 1. rewrite length_drop. unfold zlen in *. lia.
Qed.

Lemma total_texts (l : list bytes) : forall a, 0 <= a -> a + total l < 2 ^ 64 -> fold_left (fun result s => wrap 64 (result + zlen s)) l a = a + total l.
Proof.
  induction l as [|s l IH]; intros a Ha Hb; [cbn; lia|]. cbn [fold_left total fold_right] in *. fold (total l) in *.
  pose proof (total_nonneg l). pose proof (zlen_nonneg s). rewrite wrap_id by (unfold is_u; lia). rewrite IH by lia. lia.
Qed.

Lemma AppendOwned_ok (c : SColumn) (l : list bytes) (s : bytes) : rep c l ->
  exists c', String_AppendOwned s c = (Ok tt, c') /\ rep c' (l ++ [s]).
Proof.
  intros Hr. eexists. split; [reflexivity|]. pose proof (rep_grows c l (blocks_ c) [s] Hr (grows_refl _) (proj2 Hr)) as Hg.
  refine (rep_snoc _ _ (mkView (InOwned (length (append_data_ c))) (zlen s)) s Hg _ eq_refl). unfold view_text. cbn [v_place v_len append_data_].
  rewrite list_lookup_middle by done. by rewrite Z.eqb_refl.
Qed.

Lemma String_new_ok (data : list bytes) : total data < 2 ^ 64 ->
  (exists c, String_new data = Ok c /\ rep c data) /\ (exists c, String_new_move data = Ok c /\ rep c data).
Proof.
  intros Ht. pose proof (total_nonneg data). split; apply construct_ok.
  - unfold bind. rewrite total_texts, Z.add_0_l by lia. destruct (emplace_first (total data) ltac:(done)) as (c1 & -> & Hr1 & Hroom).
    exact (append_list_ok String_AppendUnsafe room AppendUnsafe_room data c1 [] Hr1 Hroom).
  - refine (append_list_ok String_AppendOwned (fun _ _ => True) _ data SColumn_new [] rep_new I).
    intros c l s n Hr _ _. destruct (AppendOwned_ok c l s Hr) as (c' & E & Hr'). by exists c'.
Qed.

(** *** Loading *)
Section Loading.
Context {I : Type} `{InputStream I}.

(** A read that succeeds has read what was asked for, whatever the stream. *)
Lemma ReadAll_length (n : Z) (i i' : I) (got : bytes) : ReadAll n i = (Ok (got, true), i') -> zlen got = n.
Proof.
  unfold ReadAll, bind. destruct (while _ _ _ i) as [[[acc rest]|] i1] eqn:E; [|done]. intros [= <- Hrest <-].
  apply (while_post ReadAll_step (fun st _ => let '(acc, len, _) := st in zlen acc + len = n) (fun st _ => let '(acc, rest) := st in zlen acc + rest = n)) in E.
  - destruct (Z.eqb_spec rest 0); [lia|done].
  - intros [[a len] prev] j r j' Hinv. unfold ReadAll_step. destruct ((0 <? len) && _).
    + unfold bind. destruct (Read len j) as [[g|] j1]; [|done]. intros [= <- <-]. rewrite zlen_app. lia.
    + by intros [= <- <-].
  - done.
Qed.

(** The rows are read by the same reads as in the model of the column, into the views. *)
Lemma load_rows_ok (n : nat) : forall (new : SColumn) (l : list bytes) (i : I), rep new l -> append_data_ new = [] -> blocks_ new <> [] ->
  match LoadStrings n i with
  | (Ok (Some k), i') => exists new', load_rows n new i = (Ok (Some new'), i') /\ rep new' (l ++ k) /\ append_data_ new' = []
  | (Ok None, i') => load_rows n new i = (Ok None, i')
  | (Throw e, i') => load_rows n new i = (Throw e, i')
  end.
Proof.
  induction n as [|n IH]; intros new l i Hr Ha Hne; [exists new; rewrite app_nil_r; by split|]. cbn [LoadStrings load_rows]. unfold bind.
  destruct (ReadUInt64 i) as [[[ok len]|e] i1]; [|done]. destruct ok; cbn [negb]; [|done].
  set (new1 := if need_block len new then _ else new).
  assert (exists b, rep new1 l /\ append_data_ new1 = [] /\ last (blocks_ new1) = Some b /\ len <= GetAvailable b) as (b & Hr1 & Ha1 & Hb & Hroom).
  { unfold new1, need_block. destruct (last (blocks_ new)) as [b|] eqn:Hl.
    - destruct (Z.ltb_spec (GetAvailable b) len) as [Hlt|Hge]; [|by exists b].
      exists (mkSBlock (Z.max DEFAULT_BLOCK_SIZE len) []). split_and!; [|done|apply last_snoc|unfold GetAvailable; cbn [b_data b_capacity]; rewrite zlen_nil; lia].
      pose proof (rep_grows new l (blocks_ new ++ [mkSBlock (Z.max DEFAULT_BLOCK_SIZE len) []]) [] Hr (grows_app _ _)) as Hg. rewrite app_nil_r in Hg. apply Hg.
      apply Forall_app; split; [apply Hr|]. apply Forall_singleton. unfold block_ok. cbn [b_data b_capacity]. rewrite zlen_nil. unfold DEFAULT_BLOCK_SIZE. lia.
    - by apply last_None in Hl. }
  rewrite (last_block new1 b Hb), (proj2 (Z.ltb_ge _ _) Hroom). destruct (ReadBytes len i1) as [[[s ok]|e] i2] eqn:Es; [|done]. destruct ok; cbn [negb]; [|done].
  apply ReadAll_length in Es. subst len. destruct (rep_last new1 l b s 0 Hr1 Hb ltac:(lia) ltac:(lia)) as [Hr2 (b2 & Hb2 & _)]. rewrite Ha1 in *.
  specialize (IH _ (l ++ [s]) i2 Hr2 eq_refl ltac:(by intros E; cbn [blocks_] in *; rewrite E in Hb2)).
  destruct (LoadStrings n i2) as [[[k|]|e] i3]; [|exact IH|exact IH]. destruct IH as (new' & E & Hr' & Ha'). rewrite <- app_assoc in Hr'. by exists new'.
Qed.

Lemma String_LoadBody_ok (c : SColumn) (l : list bytes) (rows : Z) (i : I) : rep c l ->
  match ColumnString_LoadBody l rows i with
  | (Ok (ok, col), i') => exists c' l', String_LoadBody c rows i = (Ok (ok, c'), i') /\ col = ColumnString l' /\ rep c' l'
  | (Throw e, i') => String_LoadBody c rows i = (Throw e, i')
  end.
Proof.
  intros Hr. unfold ColumnString_LoadBody, String_LoadBody. destruct (rows =? 0); [exists (mkSColumn [] [] (append_data_ c)), []; split_and!; [done|done|by split]|].
  unfold bind. pose proof (load_rows_ok (Z.to_nat rows) (mkSColumn [] [mkSBlock DEFAULT_BLOCK_SIZE []] []) [] i) as Hl.
  specialize (Hl ltac:(split; [constructor|by apply Forall_singleton]) eq_refl ltac:(done)).
  destruct (LoadStrings (Z.to_nat rows) i) as [[[k|]|e] i']; [|rewrite Hl; by exists c, l|by rewrite Hl].
  destruct Hl as (new & E & Hrn & Ha). rewrite E. exists (mkSColumn (items_ new) (blocks_ new) (append_data_ c)), k. split_and!; [done|done|].
  cbn [app] in Hrn. pose proof (rep_grows new k (blocks_ new) (append_data_ c) Hrn (grows_refl _) (proj2 Hrn)) as Hg. by rewrite Ha in Hg.
Qed.
End Loading.

(** Appending a column to itself never returns: the loop runs to the end of a column that it makes longer, and
    writes beyond the block it has reserved. *)
Lemma append_self_never_returns (fuel : positive) (c c' : SColumn) : 0 < String_Size c -> String_AppendSelf fuel c <> (Ok tt, c').
Proof.
  intros Hs. unfold String_AppendSelf, bind, get. set (m := when _ _ c).
  assert (exists c1, m = (Ok tt, c1) /\ String_Size c1 = String_Size c) as (c1 & -> & Hs1) by (unfold m, when; destruct (need_block _ c); by eexists).
  intros E. apply (while_post AppendSelf_step (fun i c => 0 <= i < String_Size c) (fun _ _ => False)) in E; [done| |lia].
  intros i s r s' Hi. unfold AppendSelf_step, bind, get, lift_result. rewrite (proj2 (Z.ltb_lt _ _)) by lia.
  destruct (String_At s i) as [t|]; [|done]. unfold String_AppendUnsafe. destruct (blocks_ s !! _) as [b|]; [|done].
  destruct (Block_AppendUnsafe t b) as [[pos b']|]; [|done]. intros [= <- <-]. unfold String_Size in *. cbn [items_]. rewrite zlen_app. change (zlen [_]) with 1. lia.
Qed.

(** ** Main results *)

(** C19. The storage of a string column implements the list of its strings: in every
    state in which the views point to the strings of a list, every operation gives
    what the model of the column gives for that list, and views that point to the
    strings of the new list.  (The column appended by [Append] of a column is another
    one: to itself it never ends, [append_self_never_returns].)  No operation copies beyond the end of a block or
    leaves a view of characters that are gone; loading reads the same bytes and
    gives the same outcome on every stream, failures included. *)
Theorem string_storage_refines {I} `{InputStream I} (c col : SColumn) (l k : list bytes) (Hc : rep c l) (Hcol : rep col k)
    (Ht : total k < 2 ^ 64) (Hz : zlen k < 2 ^ 64) :
  String_Size c = Size (ColumnString l) /\ (forall i, String_At c i = at_ l i) /\
  (forall s append, append = String_Append s \/ append = String_AppendOwned s \/ append = String_AppendNoManagedLifetime s ->
     exists c', append c = (Ok tt, c') /\ rep c' (l ++ [s])) /\
  (exists c' l', String_AppendColumn col c = (Ok tt, c') /\ ColumnString_Append l (ColumnString k) = ColumnString l' /\ rep c' l') /\
  (forall begin len, 0 <= begin -> 0 <= len -> exists c' k', String_Slice col begin len = Ok c' /\
     Slice (fun _ => 0) (ColumnString k) begin len = Ok (ColumnString k') /\ rep c' k') /\
  (exists c', String_Clear c = (Ok tt, c') /\ rep c' []) /\
  (exists c1 c2, String_new k = Ok c1 /\ rep c1 k /\ String_new_move k = Ok c2 /\ rep c2 k) /\
  (forall rows (i : I), match ColumnString_LoadBody l rows i with
     | (Ok (ok, r), i') => exists c' l', String_LoadBody c rows i = (Ok (ok, c'), i') /\ r = ColumnString l' /\ rep c' l'
     | (Throw e, i') => String_LoadBody c rows i = (Throw e, i')
     end).
Proof.
  split_and!.
  - by apply rep_size.
  - intros i. by apply String_At_ok.
  - intros s append [-> |[-> | ->]]; [by apply String_Append_ok|by apply AppendOwned_ok|].
    eexists. split; [reflexivity|]. by apply rep_snoc.
  - destruct (AppendColumn_ok c col l k Hc Hcol Ht Hz) as (c' & E & Hr). by exists c', (l ++ k).
  - intros begin len Hb Hl. destruct (String_Slice_ok col k begin len Hcol Ht Hb Hl) as (c' & E & Hr). by exists c', (SliceVector k begin len).
  - exists SColumn_new. split; [done|apply rep_new].
  - destruct (String_new_ok k Ht) as [(c1 & E1 & Hr1) (c2 & E2 & Hr2)]. by exists c1, c2.
  - intros rows i. by apply String_LoadBody_ok.
Qed.

(** A string in a block, one taken over, one of the application. *)
Definition example_storage : SColumn :=
  mkSColumn [mkView (InBlock 0 0) 2; mkView (InOwned 0) 3; mkView (External (str "x")) 1] [mkSBlock 4096 (str "ab")] [str "own"].

Lemma example_storage_rep : rep example_storage [str "ab"; str "own"; str "x"].
Proof. split; [repeat (apply Forall2_cons_2; [by vm_compute|]); constructor|]. apply Forall_singleton. by vm_compute. Qed.

Lemma string_storage_refines_witness :
  String_Size example_storage = 3 /\ (forall i, String_At example_storage i = at_ [str "ab"; str "own"; str "x"] i) /\
  exists c' l', String_AppendColumn example_storage SColumn_new = (Ok tt, c') /\
    ColumnString_Append [] (ColumnString [str "ab"; str "own"; str "x"]) = ColumnString l' /\ rep c' l'.
Proof.
  destruct (string_storage_refines (I := ChunkSource) example_storage example_storage _ _ example_storage_rep example_storage_rep ltac:(done) ltac:(done)) as (H1 & H2 & _).
  destruct (string_storage_refines (I := ChunkSource) SColumn_new example_storage _ _ rep_new example_storage_rep ltac:(done) ltac:(done)) as (_ & _ & _ & H3 & _).
  exact (conj H1 (conj H2 H3)).
Defined.
