(* ===== verification/LowCardinality.v ===== *)
(** * Dictionaries of low-cardinality columns (columns/lowcardinality.cpp)

    Invariant of the dictionary, the index and the map of unique items, and
    what appending an item does to them, failures included. *)

From S2P Require Import Prelude Streams WireFormat CityHash Text Types Columns ColumnRows ColumnWire.

(** ** The items a dictionary stores unchanged *)

Definition fits_item (d : column) (it : ItemView) : Prop :=
  match d with
  | ColumnVector code _ => fst it = code /\ zlen (snd it) = Z.of_nat (sizeof code)
  | ColumnString _ => fst it = Code.String /\ zlen (snd it) < 2 ^ 64
  | ColumnFixedString n _ => fst it = Code.FixedString /\ zlen (snd it) = n
  | ColumnWrap _ ty _ => fst it = GetCode ty /\ zlen (snd it) = FixedSizeForDictionaryType (GetCode ty)
  | _ => False
  end.

(** Appending [it] to [d] gives [d'], one item longer. *)
Definition dict_snoc (d d' : column) (it : ItemView) : Prop :=
  AppendToDictionary d it = Ok d' /\ wf_col d' /\ dict_item d' = true /\ ColumnType d' = ColumnType d /\
  Size d' = Size d + 1 /\ GetItem d' (Size d) = Ok it /\
  forall j, 0 <= j < Size d -> GetItem d' j = GetItem d j.

Lemma lookup_snoc {A} (l : list A) (x : A) : (l ++ [x]) !! Z.to_nat (zlen l) = Some x.
Proof. unfold zlen. rewrite Nat2Z.id. by apply list_lookup_middle. Qed.

Lemma lookup_app_old {A} (l k : list A) (j : Z) : 0 <= j < zlen l -> (l ++ k) !! Z.to_nat j = l !! Z.to_nat j.
Proof. intros Hj. apply lookup_app_l. unfold zlen in Hj. lia. Qed.

Lemma at_old {A} (l k : list A) (j : Z) : 0 <= j < zlen l -> at_ (l ++ k) j = at_ l j.
Proof. intros Hj. unfold at_. by rewrite lookup_app_old. Qed.

Lemma at_snoc {A} (l : list A) (x : A) : at_ (l ++ [x]) (zlen l) = Ok x.
Proof. unfold at_. rewrite (proj2 (Z.ltb_ge _ _)) by apply zlen_nonneg. by rewrite lookup_snoc. Qed.

Lemma le_bytes_le_value (w : nat) (b : bytes) : zlen b = Z.of_nat w -> le_bytes w (le_value b) = b.
Proof. intros H. apply Nat2Z.inj in H. rewrite <- H. apply le_bytes_value. Qed.

Lemma fits_le_value (w : nat) (b : bytes) : zlen b = Z.of_nat w -> fits_width w (le_value b).
Proof. intros H. apply Nat2Z.inj in H. rewrite <- H. apply le_value_range. Qed.

(** Numbers: the column [ColumnVector code data] with one more element. *)
Lemma vector_snoc (code : Code.t) (data : list Z) (it : ItemView) :
  wf_col (ColumnVector code data) -> fst it = code -> zlen (snd it) = Z.of_nat (sizeof code) ->
  let d' := ColumnVector code (data ++ [le_value (snd it)]) in
  wf_col d' /\ GetItem d' (zlen data) = Ok it /\
  forall j, 0 <= j < zlen data -> GetItem d' j = GetItem (ColumnVector code data) j.
Proof.
  intros [Hc Hf] Hcode Hl. cbn zeta. split_and!.
  - split; [done|]. apply Forall_app. split; [done|]. constructor; [by apply fits_le_value|done].
  - cbn [GetItem]; open_item. unfold index_. rewrite (proj2 (Z.ltb_ge _ _)) by apply zlen_nonneg. rewrite lookup_snoc. cbn [rbind].
    rewrite le_bytes_le_value by done. rewrite <- (le_bytes_le_value (sizeof code) (snd it)) by done.
    rewrite ItemView_new_ok by done. rewrite le_bytes_le_value by done. by destruct it; cbn in *; subst.
  - intros j Hj. cbn [GetItem]; open_item. unfold index_. by rewrite lookup_app_old.
Qed.

Lemma fixed_snoc (n : Z) (data s : bytes) : wf_col (ColumnFixedString n data) -> zlen s = n ->
  zlen data + n < 2 ^ 64 ->
  let d' := data ++ s in
  FixedString_Append n data s = Ok d' /\ wf_col (ColumnFixedString n d') /\
  zlen d' / n = zlen data / n + 1 /\ FixedString_At n d' (zlen data / n) = Ok s /\
  forall j, 0 <= j < zlen data / n -> FixedString_At n d' j = FixedString_At n data j.
Proof.
  intros (Hn & Hm & Hf) Hs Hfit. cbn zeta. pose proof (Z.div_mod (zlen data) n ltac:(lia)) as Hq. rewrite Hm in Hq.
  set (q := zlen data / n) in *.
  assert (zlen (data ++ s) = (q + 1) * n) as Hl by (rewrite zlen_app; lia).
  split_and!.
  - unfold FixedString_Append. rewrite (proj2 (Z.ltb_ge _ _)) by lia. rewrite Hs, Z.sub_diag. cbn. by rewrite app_nil_r.
  - split_and!; [done|rewrite Hl; apply Z.mod_mul; lia|lia].
  - rewrite Hl. apply Z.div_mul. lia.
  - unfold FixedString_At. rewrite wrap_id by (unfold is_u; pose proof (zlen_nonneg data); nia).
    replace (q * n) with (zlen data) by lia.
    destruct (lookup_in_range (data ++ s) (zlen data)) as [x Hx]; [pose proof (zlen_nonneg data); lia|].
    unfold at_. rewrite (proj2 (Z.ltb_ge _ _)) by apply zlen_nonneg. rewrite Hx. cbn [rbind].
    by rewrite zdrop_app_exact, ztake_all by lia.
  - intros j Hj. unfold FixedString_At. assert (0 <= j * n /\ j * n + n <= zlen data) by nia.
    rewrite wrap_id by (unfold is_u; lia). rewrite at_old by lia.
    destruct (at_ data (j * n)) as [x|e]; [|done]. cbn [rbind]. rewrite zdrop_app_le by lia. f_equal.
    apply ztake_app_le. rewrite zlen_zdrop by lia. lia.
Qed.

Lemma htonl_htonl (v : Z) : fits_width 4 v -> htonl (htonl v) = v.
Proof.
  intros Hv. unfold htonl. set (b := rev (le_bytes 4 v)).
  assert (length b = 4%nat) as Hb by (unfold b; by rewrite length_rev, length_le_bytes).
  replace (le_bytes 4 (le_value b)) with b by (rewrite <- Hb; symmetry; apply le_bytes_value).
  unfold b. rewrite rev_involutive, le_value_bytes. by apply Z.mod_small.
Qed.

(** The column [ColumnWrap w ty] of numbers with one more element. *)
Lemma wrap_vector_snoc (w : wrapper) (ty : type) (code : Code.t) (data : list Z) (it : ItemView) :
  wrapped_type w ty = Some (TSimple code) -> w <> WUUID -> w <> WBool -> dict_item (ColumnWrap w ty (ColumnVector code data)) = true ->
  AppendToDictionary (ColumnWrap w ty (ColumnVector code data)) it =
    Ok (ColumnWrap w ty (ColumnVector code (data ++ [le_value (snd it)]))) ->
  wf_col (ColumnVector code data) -> fst it = GetCode ty -> zlen (snd it) = Z.of_nat (sizeof code) ->
  (forall b, zlen b = Z.of_nat (sizeof code) -> ItemView_new (GetCode ty) b = Ok (GetCode ty, b)) ->
  exists d', dict_snoc (ColumnWrap w ty (ColumnVector code data)) d' it.
Proof.
  intros Ht Hu Hb Hd Ha Hw Hc Hl Hnew.
  destruct (vector_snoc code data (code, snd it) Hw eq_refl Hl) as (Hw' & Hi & Hold). cbn [snd] in *.
  set (v := ColumnVector code (data ++ [le_value (snd it)])) in *.
  assert (forall x j, GetItem (ColumnWrap w ty (ColumnVector code x)) j =
    let! y := GetItem (ColumnVector code x) j in ItemView_new (GetCode ty) (snd y)) as Hget
    by (intros; by destruct w).
  assert (forall x, Size (ColumnWrap w ty (ColumnVector code x)) = zlen x) as Hsz by (intros; by destruct w).
  exists (ColumnWrap w ty v). unfold dict_snoc. split_and!.
  - done.
  - split_and!; [done|done|done].
  - by destruct w.
  - done.
  - unfold v. rewrite !Hsz, zlen_app. done.
  - unfold v. rewrite Hget, Hsz. fold v. rewrite Hi. cbn [rbind snd]. rewrite Hnew by done. by destruct it; cbn in *; subst.
  - intros j Hj. unfold v. rewrite !Hget. rewrite Hsz in Hj. fold v. by rewrite Hold.
Qed.

Lemma uuid_bytes (b : bytes) : zlen b = 16 ->
  le_bytes 8 (le_value (ztake 8 b)) ++ le_bytes 8 (le_value (ztake 8 (zdrop 8 b))) = b.
Proof.
  intros Hb. rewrite (ztake_all 8 (zdrop 8 b)) by (rewrite zlen_zdrop; lia).
  rewrite !le_bytes_le_value; [apply ztake_zdrop|rewrite zlen_zdrop; lia|rewrite zlen_ztake; lia].
Qed.

Lemma uuid_snoc (ty : type) (data : list Z) (it : ItemView) : wf_col (ColumnWrap WUUID ty (ColumnVector Code.UInt64 data)) ->
  fst it = Code.UUID -> zlen (snd it) = 16 -> zlen data + 2 < 2 ^ 64 ->
  exists d', dict_snoc (ColumnWrap WUUID ty (ColumnVector Code.UInt64 data)) d' it.
Proof.
  intros (Ht & [_ Hf] & Hu) Hc Hl Hfit. destruct (Hu eq_refl) as [He _]. apply even_half in He. cbn [Size] in *.
  set (a := le_value (ztake 8 (snd it))). set (b := le_value (ztake 8 (zdrop 8 (snd it)))).
  exists (ColumnWrap WUUID ty (ColumnVector Code.UInt64 (data ++ [a; b]))).
  assert (forall l j x y, 0 <= j -> j * 2 < 2 ^ 64 -> l !! Z.to_nat (j * 2) = Some x -> l !! Z.to_nat (j * 2 + 1) = Some y ->
    GetItem (ColumnWrap WUUID ty (ColumnVector Code.UInt64 l)) j = Ok (Code.UUID, le_bytes 8 x ++ le_bytes 8 y)) as Hget.
  { intros l j x y Hj Hb Hx Hy. by apply uuid_item. }
  unfold dict_snoc. cbn [Size ColumnType]. split_and!.
  - cbn [AppendToDictionary]. rewrite (proj2 (Z.ltb_ge _ _)) by lia. done.
  - split_and!; [done| |].
    + split; [done|]. apply Forall_app. split; [done|]. apply Forall_cons_2; [|apply Forall_cons_2; [|done]]; apply fits_le_value.
      * rewrite zlen_ztake by lia. rewrite Hl. done.
      * rewrite zlen_ztake, zlen_zdrop by lia. rewrite Hl. done.
    + intros _. cbn [Size]. rewrite zlen_app. change (zlen [a; b]) with 2. split; [|lia].
      replace (zlen data + 2) with ((zlen data / 2 + 1) * 2) by lia. apply Z.mod_mul. lia.
  - done.
  - done.
  - rewrite zlen_app. change (zlen [a; b]) with (1 * 2). by rewrite Z.div_add.
  - pose proof (zlen_nonneg data). rewrite (Hget _ _ a b).
    + unfold a, b. rewrite uuid_bytes by done. by destruct it; cbn in *; subst.
    + apply Z.div_pos; lia.
    + lia.
    + replace (zlen data / 2 * 2) with (zlen data) by lia. unfold zlen. rewrite Nat2Z.id. by apply list_lookup_middle.
    + replace (zlen data / 2 * 2 + 1) with (zlen (data ++ [a])) by (rewrite zlen_app; change (zlen [a]) with 1; lia).
      change [a; b] with ([a] ++ [b]). rewrite app_assoc. apply lookup_snoc.
  - intros j Hj. destruct (lookup_in_range data (j * 2)) as [x Hx]; [lia|].
    destruct (lookup_in_range data (j * 2 + 1)) as [y Hy]; [lia|].
    rewrite !(Hget _ _ x y); try done; try lia; rewrite lookup_app_old; (done || lia).
Qed.

(** Room for one more item. *)
Definition dict_room (d : column) (it : ItemView) : Prop := (Size d + 1) * (1 + zlen (snd it)) < 2 ^ 64.

(** The classes that delegate to another column. *)
Lemma dict_append_wrap (w : wrapper) (ty : type) (data : column) (it : ItemView) : wf_col (ColumnWrap w ty data) ->
  dict_item (ColumnWrap w ty data) = true -> fits_item (ColumnWrap w ty data) it -> dict_room (ColumnWrap w ty data) it ->
  exists d', dict_snoc (ColumnWrap w ty data) d' it.
Proof.
  intros Hw Hd Hfit Hroom. unfold dict_room in Hroom. destruct Hfit as [Hc Hl]. pose proof Hw as (Ht & Hw' & Hu). pose proof (shape_of_type data Hw') as Hs.
  assert (forall code l, ty = TSimple Code.Date /\ code = Code.UInt16 \/ ty = TSimple Code.Date32 /\ code = Code.Int32 \/
     (exists tz, ty = TDateTime tz) /\ code = Code.UInt32 \/ ty = TSimple Code.IPv4 /\ code = Code.UInt32 ->
     zlen l = Z.of_nat (sizeof code) -> ItemView_new (GetCode ty) l = Ok (GetCode ty, l)) as Hnew.
  { intros code l Hcase Hlen. unfold ItemView_new, ValidateData.
    destruct Hcase as [[-> ->]|[[-> ->]|[[[tz ->] ->]|[-> ->]]]]; cbn [allowed_sizes rbind existsb GetCode]; by rewrite Hlen. }
  destruct w; try done; destruct ty as [[]| | | | | | | | | | |]; try done; injection Ht as Ht; rewrite <- Ht in Hs;
    destruct Hs as [l ->].
  - apply wrap_vector_snoc; try done.
    + cbn [AppendToDictionary]. unfold item_get. by rewrite Hl.
    + intros. eapply Hnew; [by left|done].
  - apply wrap_vector_snoc; try done.
    + cbn [AppendToDictionary]. unfold item_get. by rewrite Hl.
    + intros. eapply Hnew; [right; by left|done].
  - apply wrap_vector_snoc; try done.
    + cbn [AppendToDictionary]. unfold item_get. by rewrite Hl.
    + intros. eapply (Hnew Code.UInt32); [right; right; left; split; [by eexists|done]|done].
  - apply wrap_vector_snoc; try done.
    + cbn [AppendToDictionary]. unfold item_get. rewrite Hl.
      change (FixedSizeForDictionaryType _ =? Z.of_nat 4) with true. cbn [rbind].
      rewrite htonl_htonl; [done|by apply fits_le_value].
    + intros. eapply (Hnew Code.UInt32); [right; right; by right|done].
  - cbn [Size] in *. change (FixedSizeForDictionaryType _) with 16 in Hl. pose proof Hw' as (_ & Hm & _).
    pose proof (Z.div_mod (zlen l) 16 ltac:(lia)) as Hq.
    destruct (fixed_snoc 16 l (snd it) Hw' Hl) as (E & Hwf & Hs & Hi & Hold); [nia|].
    exists (ColumnWrap WIPv6 (TSimple Code.IPv6) (ColumnFixedString 16 (l ++ snd it))). unfold dict_snoc. cbn [Size].
    split_and!; try done.
    + cbn [AppendToDictionary]. rewrite (proj2 (Z.ltb_ge _ _)) by lia. rewrite ztake_all by lia. by rewrite E.
    + cbn [GetItem]; open_item. rewrite Hi. cbn [rbind]. unfold ItemView_new at 2. cbn [ValidateData allowed_sizes rbind snd].
      unfold ItemView_new, ValidateData. cbn [allowed_sizes rbind existsb GetCode snd fst].
      rewrite Hl. by destruct it; cbn in *; subst.
    + intros j Hj. cbn [GetItem]; open_item. by rewrite Hold.
  - cbn [Size] in *. change (FixedSizeForDictionaryType _) with 16 in Hl.
    destruct (Hu eq_refl) as [He _]. apply even_half in He. cbn [Size] in He. apply uuid_snoc; (done || nia).
Qed.

Lemma dict_append (d : column) (it : ItemView) : wf_col d -> dict_item d = true -> fits_item d it -> dict_room d it ->
  exists d', dict_snoc d d' it.
Proof.
  intros Hw Hd Hfit Hroom. destruct d as [code data| |items|n data| |w ty data| | | | |]; try done; [unfold dict_room in Hroom..|].
  - destruct Hfit as [Hc Hl]. destruct (vector_snoc code data it Hw Hc Hl) as (Hw' & Hi & Hold).
    exists (ColumnVector code (data ++ [le_value (snd it)])). unfold dict_snoc. cbn [Size]. split_and!; try done.
    + cbn [AppendToDictionary]. unfold item_get. rewrite Hl, Z.eqb_refl. done.
    + by rewrite zlen_app.
  - destruct Hfit as [Hc Hl]. exists (ColumnString (items ++ [snd it])). unfold dict_snoc. cbn [Size]. split_and!; try done.
    + apply Forall_app. split; [done|]. by constructor.
    + by rewrite zlen_app.
    + cbn [GetItem]; open_item. rewrite at_snoc. cbn [rbind]. by destruct it; cbn in *; subst.
    + intros j Hj. cbn [GetItem]; open_item. by rewrite at_old.
  - destruct Hfit as [Hc Hl]. cbn [Size] in *. pose proof Hw as (Hn & Hm & _).
    pose proof (Z.div_mod (zlen data) n ltac:(lia)) as Hq.
    destruct (fixed_snoc n data (snd it) Hw Hl) as (E & Hw' & Hs & Hi & Hold); [nia|].
    exists (ColumnFixedString n (data ++ snd it)). unfold dict_snoc. cbn [Size]. split_and!; try done.
    + cbn [AppendToDictionary]. by rewrite E.
    + cbn [GetItem]; open_item. rewrite Hi. by destruct it; cbn in *; subst.
    + intros j Hj. cbn [GetItem]; open_item. by rewrite Hold.
  - by apply dict_append_wrap.
Qed.

(** ** The invariant *)
Section Invariant.
Context (std_hash : bytes -> Z).

Abbreviation key_of := (computeHashKey std_hash).

(** A well-formed column whose map sends a key to an item that has it; a nullable
    dictionary finds its NULL at 0. *)
Definition lc_inv (l : lc) : Prop :=
  wf_col (lc_column l) /\
  (forall k di, lc_unique l !! k = Some di ->
     0 <= di < Size (lc_dict l) /\ exists it, GetItem (lc_dict l) di = Ok it /\ key_of it = Ok k) /\
  match lc_dict l with ColumnNullable _ _ => lc_unique l !! (0, 0) = Some 0 | _ => True end.

(** The items that may be appended: NULL to a nullable dictionary, or an item of
    the dictionary's type. *)
Definition accepts (d : column) (it : ItemView) : Prop :=
  match d with
  | ColumnNullable nested _ => it = ItemView_null \/ fits_item nested it
  | d => fits_item d it
  end.

(** No item of the dictionary shares the key of [it] without being [it]. *)
Definition no_collision (d : column) (it : ItemView) : Prop :=
  forall j it', 0 <= j < Size d -> GetItem d j = Ok it' -> key_of it' = key_of it -> it' = it.

Lemma GetItem_lc (l : lc) (i : Z) : wf_col (lc_column l) ->
  GetItem (lc_column l) i = let! di := at_ (lc_index l) i in GetItem (lc_dict l) di.
Proof.
  intros Hw. cbn [lc_column GetItem]; open_item. destruct (at_ (lc_index l) i) as [di|]; [|done]. cbn [rbind].
  pose proof Hw as (Hd & Hok & _). destruct (lc_dict l) as [| | | | | | |nested nulls| | |]; try done.
  destruct (Z.eqb_spec di 0) as [->|]; [|done]. destruct Hok as [_ ->]. done.
Qed.

Lemma fits_item_code (d : column) (it : ItemView) : wf_col d -> dict_item d = true -> fits_item d it ->
  fst it <> Code.Void /\ GetCode (ColumnType d) = fst it.
Proof.
  intros Hw Hd Hf. destruct d as [code data| |items|n data| |w ty data| | | | |]; try done.
  - destruct Hw as [Hc _], Hf as [-> _]. by destruct code.
  - by destruct Hf as [-> _].
  - by destruct Hf as [-> _].
  - destruct Hw as (Ht & _), Hf as [-> _]. by destruct w; try done; destruct ty as [[]| | | | | | | | | | |].
Qed.

(** A new item appended to a dictionary, nullable or not. *)
Lemma dict_append_any (d : column) (it : ItemView) : wf_col d -> dict_ok d -> 1 <= Size d -> accepts d it ->
  fst it <> Code.Void -> dict_room d it ->
  exists d', AppendToDictionary d it = Ok d' /\ wf_col d' /\ dict_ok d' /\ Size d' = Size d + 1 /\
    GetItem d' (Size d) = Ok it /\ (forall j, 0 <= j < Size d -> GetItem d' j = GetItem d j) /\
    match d' with ColumnNullable _ _ => exists a b, d = ColumnNullable a b | _ => True end.
Proof.
  intros Hw Hok Hs Hacc Hv Hroom. destruct d as [| | | | | | |nested nulls| | |]; try done;
    try (destruct (dict_append _ it Hw Hok Hacc Hroom) as (d' & Ha & Hw' & Hi & _ & Hsz & Hg & Hold);
         exists d'; split_and!; try done; by destruct d').
  destruct Hacc as [->|Hacc]; [done|]. destruct Hok as [Hi Hn]. pose proof Hw as (Hwn & Hl & Hf & Hname).
  cbn [Size] in *. unfold dict_room in Hroom. cbn [Size] in Hroom. rewrite Hl in Hroom.
  destruct (dict_append nested it Hwn Hi Hacc Hroom) as (n' & Ha & Hw' & Hi' & Ht & Hsz & Hg & Hold).
  destruct (fits_item_code nested it Hwn Hi Hacc) as [_ Hcode].
  exists (ColumnNullable n' (nulls ++ [0])). cbn [AppendToDictionary].
  rewrite bool_decide_false by done. rewrite bool_decide_true by done. rewrite Ha. cbn [rbind Size]. split_and!; try done.
  - cbn [wf_col]. rewrite Ht, zlen_app. change (zlen [0]) with 1. split_and!; [done|lia| |done].
    apply Forall_app. split; [done|]. by apply Forall_cons_2.
  - split; [done|]. rewrite Hsz, Hn. cbn [app]. do 2 f_equal. rewrite <- replicate_cons_app.
    replace (Z.to_nat (Size nested + 1 - 1)) with (S (Z.to_nat (Size nested - 1))) by lia. done.
  - by rewrite zlen_app.
  - cbn [GetItem]; open_item. rewrite at_snoc. cbn [rbind Z.eqb]. by rewrite Hl.
  - intros j Hj. cbn [GetItem]; open_item. rewrite at_old by done. destruct (at_ nulls j); [|done]. cbn [rbind].
    destruct (_ =? 0); [|done]. apply Hold. lia.
  - eauto.
Qed.

Lemma appendIndex_ok (code : Code.t) (index : list Z) (di : Z) : is_index_code code = true -> fits_width (sizeof code) di ->
  appendIndex code index di = Ok (index ++ [di]).
Proof.
  intros Hc Hf. unfold appendIndex. rewrite Hc, wrap_id; [done|]. unfold is_u, fits_width in *.
  replace (2 ^ (8 * Z.of_nat (sizeof code))) with (256 ^ Z.of_nat (sizeof code)) by (by destruct code). done.
Qed.

(** Appending to a low-cardinality column: when the invariant holds, the item
    is one the dictionary accepts, no other item of the dictionary has its pair of
    hashes, and there is room, [AppendUnsafe] succeeds; the new last row reads back
    as the item (whether it was new to the dictionary or found in it, NULL
    included), every earlier row reads as before, and the invariant holds again. *)
Lemma AppendUnsafe_ok (l : lc) (it : ItemView) (k : Z * Z) : lc_inv l -> accepts (lc_dict l) it -> key_of it = Ok k ->
  no_collision (lc_dict l) it -> dict_room (lc_dict l) it ->
  Size (lc_dict l) < 256 ^ Z.of_nat (sizeof (lc_code l)) -> zlen (lc_index l) + 1 < 2 ^ 64 ->
  exists l', AppendUnsafe std_hash it l = (Ok tt, l') /\ lc_inv l' /\ zlen (lc_index l') = zlen (lc_index l) + 1 /\
    GetItem (lc_column l') (zlen (lc_index l)) = Ok it /\
    forall i, 0 <= i < zlen (lc_index l) -> GetItem (lc_column l') i = GetItem (lc_column l) i.
Proof.
  intros (Hw & Hu & Hnull) Hacc Hk Hnc Hroom Hfit Hlen. pose proof Hw as (Hwd & Hok & Hcode & Hidx & Hsz & Hz).
  unfold AppendUnsafe. rewrite Hk.
  destruct (lc_unique l !! k) as [di|] eqn:Eu.
  - rewrite bool_decide_false by done. unfold emplace. rewrite Eu, Eu.
    destruct (Hu k di Eu) as (Hdi & it' & Eit & Ekey).
    rewrite appendIndex_ok by (done || (unfold fits_width; lia)).
    assert (it' = it) as -> by (eapply Hnc; [exact Hdi|done|congruence]).
    eexists. split; [done|]. set (l' := mkLC _ _ _ _).
    assert (wf_col (lc_column l')) as Hw'.
    { cbn. rewrite zlen_app. split_and!; try done; try (change (zlen [di]) with 1; lia). apply Forall_app. split; [done|].
      apply Forall_cons_2; [|done]. unfold fits_width. lia. }
    split_and!; [ |by unfold l'; cbn [lc_index]; rewrite zlen_app| |].
    + by split_and!.
    + rewrite GetItem_lc by done. cbn [l' lc_index lc_dict]. by rewrite at_snoc.
    + intros i Hi. rewrite !GetItem_lc by done. cbn [l' lc_index lc_dict]. by rewrite at_old.
  - rewrite bool_decide_true by done. unfold emplace. rewrite Eu, lookup_insert_eq.
    rewrite appendIndex_ok by (done || (unfold fits_width; lia)).
    assert (fst it <> Code.Void) as Hv.
    { intros Hv. unfold computeHashKey in Hk. rewrite Hv, bool_decide_true in Hk by done. injection Hk as <-.
      destruct (lc_dict l) as [| | | | | | |nested nulls| | |] eqn:Ed; try done;
        try (by destruct (fits_item_code _ _ Hwd Hok Hacc)). congruence. }
    destruct (dict_append_any _ it Hwd Hok ltac:(lia) Hacc Hv Hroom) as (d' & Ea & Hwd' & Hok' & Hsz' & Hg & Hold & Hn').
    rewrite Ea. eexists. split; [done|]. set (l' := mkLC _ _ _ _).
    assert (wf_col (lc_column l')) as Hw'.
    { assert (1 + zlen (snd it) >= 1) by (pose proof (zlen_nonneg (snd it)); lia). unfold dict_room in Hroom.
      cbn. rewrite zlen_app. split_and!; try done; try lia; try nia; try (change (zlen [_]) with 1; lia). apply Forall_app. split.
      - eapply Forall_impl; [exact Hidx|]. intros a [? ?]. split; [lia|done].
      - apply Forall_cons_2; [|done]. unfold fits_width. lia. }
    split_and!; [ |by unfold l'; cbn [lc_index]; rewrite zlen_app| |].
    + split_and!; [done| |].
      * intros k' di. cbn [l' lc_unique lc_dict]. destruct (decide (k' = k)) as [->|Hne].
        -- rewrite lookup_insert_eq. intros [= <-]. split; [lia|]. eauto.
        -- rewrite lookup_insert_ne by done. intros Hl. destruct (Hu k' di Hl) as (Hdi & it' & E & Ek).
           split; [lia|]. exists it'. by rewrite Hold.
      * cbn [l' lc_unique lc_dict]. destruct d'; try done. destruct Hn' as (a & b & Ed). rewrite Ed in Hnull.
        rewrite lookup_insert_ne; [done|]. intros ->. congruence.
    + rewrite GetItem_lc by done. cbn [l' lc_index lc_dict]. by rewrite at_snoc.
    + intros i Hi. rewrite !GetItem_lc by done. cbn [l' lc_index lc_dict]. rewrite at_old by done.
      unfold at_. rewrite (proj2 (Z.ltb_ge _ _)) by lia. destruct (lookup_in_range (lc_index l) i Hi) as [x Hx]. rewrite Hx. cbn [rbind].
      apply Hold. rewrite Forall_lookup in Hidx. by destruct (Hidx _ _ Hx) as [? _].
Qed.

(** Appending an item whose key is known. *)
Lemma AppendUnsafe_found (l : lc) (it : ItemView) (k : Z * Z) (di : Z) (index : list Z) : key_of it = Ok k ->
  lc_unique l !! k = Some di -> appendIndex (lc_code l) (lc_index l) di = Ok index ->
  AppendUnsafe std_hash it l = (Ok tt, mkLC (lc_dict l) (lc_code l) index (lc_unique l)).
Proof.
  intros Hk Hu Hi. unfold AppendUnsafe, emplace. rewrite Hk, Hu, bool_decide_false, Hu, Hi by done. done.
Qed.

(** Removing what was just appended. *)
Lemma removeLastIndex_snoc (index : list Z) (x : Z) : removeLastIndex (index ++ [x]) = index.
Proof.
  unfold removeLastIndex, Erase. rewrite zlen_app. change (zlen [x]) with 1. pose proof (zlen_nonneg index).
  rewrite (Z.min_l (zlen index + 1 - 1)) by lia.
  replace (zlen index + 1 - 1) with (zlen index) by lia. rewrite ztake_app_exact, zdrop_all, app_nil_r; [done|].
  rewrite zlen_app. change (zlen [x]) with 1. lia.
Qed.
(** ** New dictionaries *)

(** The zero item of a dictionary column, and the empty column it goes to.  A fixed
    string pads it, so the stored item is another one: it is left out. *)
Lemma zero_item (d : column) : wf_col d -> dict_item d = true -> GetCode (ColumnType d) <> Code.FixedString ->
  name_fits (ColumnType d) ->
  exists d0 it, CloneEmpty std_hash d = Ok d0 /\ wf_col d0 /\ dict_item d0 = true /\ Size d0 = 0 /\
    ColumnType d0 = ColumnType d /\
    ZeroItemForDictionary (GetCode (ColumnType d0)) = Ok it /\ zlen (snd it) <= 16 /\
    forall d1, wf_col d1 -> dict_item d1 = true -> ColumnType d1 = ColumnType d -> fits_item d1 it.
Proof.
  intros Hw Hd Hf Hn. destruct d as [code data| |items|n data| |w ty data| | | | |]; try done.
  - destruct Hw as [Hc _]. exists (ColumnVector code []).
    assert (exists it, ZeroItemForDictionary code = Ok it /\ fst it = code /\ zlen (snd it) = Z.of_nat (sizeof code) /\
      zlen (snd it) <= 16) as (it & E & Hi & Hl & Hs) by (destruct code; try done; eexists; split_and!; done).
    exists it. split_and!; try done. intros d1 Hw1 _ Ht1. pose proof (shape_of_type d1 Hw1) as Hs1. rewrite Ht1 in Hs1.
    assert (exists data', d1 = ColumnVector code data') as [data' ->] by (unfold shape in Hs1; by destruct code). done.
  - eexists _, (Code.String, []). split_and!; try done; [by constructor|].
    intros d1 Hw1 _ Ht1. pose proof (shape_of_type d1 Hw1) as Hs1. rewrite Ht1 in Hs1. destruct Hs1 as [x ->]. done.
  - destruct Hw as (Ht & Hw & _). pose proof (shape_of_type data Hw) as Hs. pose proof (wrapped_code _ _ _ Ht) as Hwc.
    assert (exists e it, CloneEmpty std_hash data = Ok e /\ wf_col (ColumnWrap w ty e) /\ Size (ColumnWrap w ty e) = 0 /\
      ZeroItemForDictionary (GetCode ty) = Ok it /\ fst it = GetCode ty /\
      zlen (snd it) = FixedSizeForDictionaryType (GetCode ty) /\ zlen (snd it) <= 16) as (e & it & Ee & He & Hs0 & E & Hi & Hl & H16).
    { destruct w; try done; destruct ty as [[]| | | | | | | | | | |]; try done; injection Ht as Ht; rewrite <- Ht in Hs;
        destruct Hs as [l ->]; do 2 eexists; (split_and!; try reflexivity; try done; by vm_compute). }
    exists (ColumnWrap w ty e), it. cbn [CloneEmpty]; open_clone. rewrite Ee. split_and!; try done.
    intros d1 Hw1 _ Ht1. pose proof (shape_of_type d1 Hw1) as Hs1. unfold shape in Hs1. rewrite Ht1 in Hs1. cbn [ColumnType] in Hs1.
    rewrite Hwc in Hs1. destruct Hs1 as [x ->]. done.
Qed.

Lemma lc_new (d : column) : wf_col d -> dict_item d = true -> GetCode (ColumnType d) <> Code.FixedString ->
  name_fits (ColumnType d) ->
  exists d0 l, CloneEmpty std_hash d = Ok d0 /\ LowCardinality_new std_hash d0 d0 = Ok l /\ lc_inv l /\
    lc_index l = [] /\ lc_code l = Code.UInt32 /\ Size (lc_dict l) = 1.
Proof.
  intros Hw Hd Hf Hn. destruct (zero_item d Hw Hd Hf Hn) as (d0 & it & Ec & Hw0 & Hd0 & Hs0 & Ht0 & Ez & Hl & Hfit).
  destruct (dict_append d0 it Hw0 Hd0 (Hfit d0 Hw0 Hd0 Ht0)) as (d1 & Ea & Hw1 & Hd1 & Ht1 & Hs1 & Hg1 & _);
    [unfold dict_room; rewrite Hs0; lia|].
  destruct (computeHashKey_ok std_hash it) as [k Hk]; [lia|]. rewrite Hs0 in *.
  exists d0. eexists. split; [done|]. unfold LowCardinality_new, AppendDefaultItem. cbn [lc_empty lc_dict lc_unique lc_code lc_index].
  rewrite default_item, Ez by done. cbn [rbind]. rewrite Hk. cbn [rbind]. rewrite Ea. cbn [rbind]. rewrite Hs0.
  split; [reflexivity|]. unfold emplace. rewrite lookup_empty. split_and!; try done.
  assert (dict_ok d1) as Hok by (by destruct d1).
  split_and!; cbn [lc_dict lc_unique].
  - cbn [lc_column wf_col lc_dict lc_code lc_index]. split_and!; try done; lia.
  - intros k' di. destruct (decide (k' = k)) as [->|Hne].
    + rewrite lookup_insert_eq. intros [= <-]. split; [lia|eauto].
    + by rewrite lookup_insert_ne, lookup_empty.
  - by destruct d1.
Qed.
End Invariant.

(** ** Main results *)

(** An empty [LowCardinality(String)], as the constructor leaves it. *)
Definition example_lc : lc := mkLC (ColumnString [[]]) Code.UInt32 [] {[ (0, 11160318154034397263) := 0 ]}.

Lemma example_lc_new : LowCardinality_new le_value (ColumnString []) (ColumnString []) = Ok example_lc.
Proof. vm_compute. reflexivity. Qed.

Lemma example_lc_inv : lc_inv le_value example_lc.
Proof.
  destruct (lc_new le_value (ColumnString [])) as (d0 & l & Ec & El & Hi & _); try done; [by constructor|].
  injection Ec as <-. rewrite example_lc_new in El. by injection El as <-.
Qed.


(** C30. A failed append changes nothing: whenever [AppendUnsafe] throws (an item of
    the wrong size or type, an unusable index column), the catch block has put the
    dictionary, the index and the map of unique items back exactly as they were. *)
Theorem append_rolls_back (std_hash : bytes -> Z) (l l' : lc) (it : ItemView) (e : exn)
    (H : AppendUnsafe std_hash it l = (Throw e, l')) : l' = l.
Proof.
  destruct l as [d code index u]. unfold AppendUnsafe in H. cbn [lc_dict lc_code lc_index lc_unique] in H.
  destruct (computeHashKey std_hash it) as [k|]; [|by injection H as _ <-].
  unfold emplace in H. destruct (u !! k) as [di|] eqn:Eu.
  - rewrite bool_decide_false, Eu in H by done. destruct (appendIndex code index di); [done|]. by injection H as _ <-.
  - rewrite bool_decide_true, lookup_insert_eq in H by done.
    assert (delete k (<[k:=Size d]> u) = u) as Hdel by (by apply delete_insert_id).
    unfold appendIndex in H. destruct (is_index_code code).
    + destruct (AppendToDictionary d it); [done|]. injection H as _ <-. by rewrite removeLastIndex_snoc, Hdel.
    + injection H as _ <-. by rewrite Hdel.
Qed.

Lemma append_rolls_back_witness :
  snd (AppendUnsafe le_value (Code.UInt16, str "x") (mkLC (ColumnVector Code.UInt16 [0]) Code.UInt32 [0] ∅)) =
  mkLC (ColumnVector Code.UInt16 [0]) Code.UInt32 [0] ∅.
Proof.
  eapply (append_rolls_back le_value (mkLC (ColumnVector Code.UInt16 [0]) Code.UInt32 [0] ∅)
    (snd (AppendUnsafe le_value (Code.UInt16, str "x") (mkLC (ColumnVector Code.UInt16 [0]) Code.UInt32 [0] ∅)))
    (Code.UInt16, str "x") AssertionError).
  vm_compute. reflexivity.
Defined.

(** The index width is not widened: after loading a column whose index is
    [UInt8] and whose dictionary has 256 items, appending a new string succeeds,
    but its index 256 is cut to 0, and the new row reads as item 0. *)
Lemma index_truncated (std_hash : bytes -> Z) (items : list bytes) (index : list Z) (u : gmap (Z * Z) Z) (s : bytes)
    (k : Z * Z) (Hl : zlen items = 256) (Hk : computeHashKey std_hash (Code.String, s) = Ok k) (Hu : u !! k = None) :
  exists l', AppendUnsafe std_hash (Code.String, s) (mkLC (ColumnString items) Code.UInt8 index u) = (Ok tt, l') /\
    zlen (lc_index l') = zlen index + 1 /\
    GetItem (lc_column l') (zlen index) = GetItem (ColumnString items) 0.
Proof.
  unfold AppendUnsafe. rewrite Hk. cbn [lc_dict lc_unique lc_code lc_index Size]. unfold emplace.
  rewrite Hu, bool_decide_true, lookup_insert_eq by done. rewrite Hl.
  change (appendIndex Code.UInt8 index 256) with (Ok (index ++ [0])). cbn [AppendToDictionary snd].
  eexists. split; [done|]. split; [cbn; by rewrite zlen_app|]. cbn [lc_column GetItem lc_index lc_dict]; open_item.
  rewrite at_snoc. cbn [rbind]. by rewrite at_old by lia.
Qed.


(** A slice of a nullable dictionary turns the empty string into NULL: [Slice]
    builds its result with the constructor that does not reserve item 0 for NULL,
    so the default item lands there and reads back as NULL.  For every
    [std::hash], a column holding one non-null empty string slices to one NULL. *)
Lemma nullable_slice_loses_default (std_hash : bytes -> Z) :
  let e := ColumnNullable (ColumnString []) [] in
  exists l l' c', LowCardinality_new_nullable std_hash e e = Ok l /\
    AppendUnsafe std_hash (Code.String, []) l = (Ok tt, l') /\
    GetItem (lc_column l') 0 = Ok (Code.String, []) /\
    Slice std_hash (lc_column l') 0 1 = Ok c' /\
    GetItem c' 0 = Ok ItemView_null.
Proof.
  cbn zeta. set (e := ColumnNullable (ColumnString []) []). set (K := (std_hash [], 11160318154034397263)).
  assert (computeHashKey std_hash (Code.String, []) = Ok K) as HK by reflexivity.
  assert (emplace K 1 (emplace (0, 0) 0 ∅) !! K = Some 1) as H1.
  { unfold emplace. rewrite lookup_empty, lookup_insert_ne, lookup_empty by (unfold K; congruence). apply lookup_insert_eq. }
  assert (emplace K 0 ∅ !! K = Some 0) as H0 by (unfold emplace; rewrite lookup_empty; apply lookup_insert_eq).
  set (d := ColumnNullable (ColumnString [[]; []]) [1; 0]).
  exists (mkLC d Code.UInt32 [] (emplace K 1 (emplace (0, 0) 0 ∅))), (mkLC d Code.UInt32 [1] (emplace K 1 (emplace (0, 0) 0 ∅))),
    (ColumnLowCardinality (ColumnNullable (ColumnString [[]]) [0]) Code.UInt32 [0] (emplace K 0 ∅)).
  split_and!; [reflexivity|by apply (AppendUnsafe_found std_hash (mkLC d Code.UInt32 [] _) _ K 1 [1])|reflexivity| |reflexivity].
  change (Slice std_hash _ 0 1) with
    (let! l := run_lc (AppendUnsafe std_hash (Code.String, []) ;;; ret tt)
       (mkLC (ColumnNullable (ColumnString [[]]) [0]) Code.UInt32 [] (emplace K 0 ∅)) in Ok (lc_column l)).
  unfold run_lc, bind. by rewrite (AppendUnsafe_found _ _ _ K 0 [0]).
Qed.
