(* ===== verification/Factory.v ===== *)
(** * Creation of columns by type name (clickhouse/columns/factory.cpp)

    [CreateColumnByType] parses a type name and builds an empty column of that
    type; the block reader relies on it for every column the server sends.  A null
    [ColumnRef] is [None]; a constructor that dereferences one is undefined.  The
    settings are the default ones: the deprecated option that replaces dictionary
    columns by serialization adaptors is not modelled. *)

From S2P Require Import Prelude Streams WireFormat CityHash Text Types TypeParser TypeNames Columns ColumnRows ColumnWire.
From Stdlib Require Import Sorting.Sorted.
From stdpp Require sorting.

#[local] Set Warnings "-register-all".

(** ** Default constructors of the delegating classes *)

Definition empty_vector (code : Code.t) : column := ColumnVector code [].

Definition ColumnDecimal_new (precision scale : Z) : column :=
  ColumnWrap WDecimal (TDecimal precision scale)
    (empty_vector (if precision <=? 9 then Code.Int32 else if precision <=? 18 then Code.Int64 else Code.Int128)).

Definition ColumnDateTime_new (timezone : bytes) : column :=
  ColumnWrap WDateTime (TDateTime timezone) (empty_vector Code.UInt32).

Definition ColumnDateTime64_new (precision : Z) (timezone : bytes) : result column :=
  let! ty := CreateDateTime64 precision timezone in
  Ok (ColumnWrap WDateTime64 ty (ColumnDecimal_new 18 precision)).

Definition ColumnTime64_new (precision : Z) : result column :=
  let! ty := CreateTime64 precision in
  Ok (ColumnWrap WTime64 ty (empty_vector Code.Int64)).

Definition ColumnPoint_new : column :=
  ColumnWrap WPoint (TSimple Code.Point) (ColumnTuple [empty_vector Code.Float64; empty_vector Code.Float64] []).

Definition ColumnRing_new : column := ColumnWrap WRing (TSimple Code.Ring) (ColumnArray ColumnPoint_new []).

Definition ColumnPolygon_new : column := ColumnWrap WPolygon (TSimple Code.Polygon) (ColumnArray ColumnRing_new []).

Definition ColumnMultiPolygon_new : column :=
  ColumnWrap WMultiPolygon (TSimple Code.MultiPolygon) (ColumnArray ColumnPolygon_new []).

(** ** The tree of a type name *)

(** Python-like indexing, with the check as the code has it. *)
Definition GetASTChildElement (ast : TypeAst) (position : Z) : result TypeAst :=
  if zlen (ast_elements ast) <=? Z.abs position then Throw ValidationError
  else index_ (ast_elements ast) (if position <? 0 then zlen (ast_elements ast) + position else position).

(** The conversion of an [int64_t] to [size_t]. *)
Definition child_size_t (ast : TypeAst) (position : Z) : result Z :=
  let! e := GetASTChildElement ast position in Ok (wrap 64 (ast_value e)).

Definition CreateTerminalColumn (ast : TypeAst) : result (option column) :=
  match ast_code ast with
  | Code.Void => Ok (Some (ColumnNothing 0))
  | Code.Bool => Ok (Some (ColumnWrap WBool (TSimple Code.Bool) (empty_vector Code.UInt8)))
  | (Code.UInt8 | Code.UInt16 | Code.UInt32 | Code.UInt64 | Code.Int8 | Code.Int16 | Code.Int32
     | Code.Int64 | Code.Int128 | Code.UInt128 | Code.Float32 | Code.Float64) as code => Ok (Some (empty_vector code))
  | Code.Decimal =>
    let! p := child_size_t ast 0 in
    let! s := child_size_t ast (-1) in
    Ok (Some (ColumnDecimal_new p s))
  | Code.Decimal32 => let! s := child_size_t ast 0 in Ok (Some (ColumnDecimal_new 9 s))
  | Code.Decimal64 => let! s := child_size_t ast 0 in Ok (Some (ColumnDecimal_new 18 s))
  | Code.Decimal128 => let! s := child_size_t ast 0 in Ok (Some (ColumnDecimal_new 38 s))
  | Code.String => Ok (Some (ColumnString []))
  | Code.FixedString => let! n := child_size_t ast 0 in Ok (Some (ColumnFixedString n []))
  | Code.DateTime =>
    match ast_elements ast with
    | [] => Ok (Some (ColumnDateTime_new []))
    | _ => let! e := GetASTChildElement ast 0 in Ok (Some (ColumnDateTime_new (ast_value_string e)))
    end
  | Code.DateTime64 =>
    match ast_elements ast with
    | [] => Ok None
    | [e] => let! c := ColumnDateTime64_new (wrap 64 (ast_value e)) [] in Ok (Some c)
    | e :: tz :: _ => let! c := ColumnDateTime64_new (wrap 64 (ast_value e)) (ast_value_string tz) in Ok (Some c)
    end
  | Code.Date => Ok (Some (ColumnWrap WDate (TSimple Code.Date) (empty_vector Code.UInt16)))
  | Code.Date32 => Ok (Some (ColumnWrap WDate32 (TSimple Code.Date32) (empty_vector Code.Int32)))
  | Code.IPv4 => Ok (Some (ColumnWrap WIPv4 (TSimple Code.IPv4) (empty_vector Code.UInt32)))
  | Code.IPv6 => Ok (Some (ColumnWrap WIPv6 (TSimple Code.IPv6) (ColumnFixedString 16 [])))
  | Code.UUID => Ok (Some (ColumnWrap WUUID (TSimple Code.UUID) (empty_vector Code.UInt64)))
  | Code.Point => Ok (Some ColumnPoint_new)
  | Code.Ring => Ok (Some ColumnRing_new)
  | Code.Polygon => Ok (Some ColumnPolygon_new)
  | Code.MultiPolygon => Ok (Some ColumnMultiPolygon_new)
  | Code.Time => Ok (Some (ColumnWrap WTime (TSimple Code.Time) (empty_vector Code.Int32)))
  | Code.Time64 =>
    match ast_elements ast with
    | [] => Ok None
    | _ =>
      let! p := child_size_t ast 0 in
      let! c := ColumnTime64_new p in
      Ok (Some c)
    end
  | Code.JSON => Ok (Some (ColumnWrap WJSON (TSimple Code.JSON) (ColumnString [])))
  | _ => Ok None
  end.

Section Factory.
Context (std_hash : bytes -> Z).

(** A constructor that uses the column it is given: a null one is dereferenced. *)
Definition deref (c : option column) : result column :=
  match c with Some c => Ok c | None => Throw Undefined end.

(** The loop over the elements of a tuple or a map: stops at the first null column. *)
Fixpoint create_columns (create : TypeAst -> result (option column)) (elements : list TypeAst) :
    result (option (list column)) :=
  match elements with
  | [] => Ok (Some [])
  | e :: es =>
    let! c := create e in
    match c with
    | None => Ok None
    | Some c =>
      let! cs := create_columns create es in
      match cs with
      | None => Ok None
      | Some cs => Ok (Some (c :: cs))
      end
    end
  end.

Definition CreateArrayColumn (create : TypeAst -> result (option column)) (ast : TypeAst) : result (option column) :=
  let! e := GetASTChildElement ast 0 in
  let! data := create e in
  let! data := deref data in
  let! c := ColumnArray_new data [] in
  Ok (Some c).

Definition CreateNullableColumn (create : TypeAst -> result (option column)) (ast : TypeAst) : result column :=
  let! e := GetASTChildElement ast 0 in
  let! nested := create e in
  let! nested := deref nested in
  ColumnNullable_new nested [].

Definition CreateTupleColumn (create : TypeAst -> result (option column)) (ast : TypeAst) : result (option column) :=
  let! columns := create_columns create (ast_elements ast) in
  match columns with
  | None => Ok None
  | Some columns =>
    let names := map ast_element_name (ast_elements ast) in
    let any_named := existsb (fun n => negb (bool_decide (n = []))) names in
    let! c := ColumnTuple_new columns (if any_named then names else []) in
    Ok (Some c)
  end.

(** Items from pairs of elements: a literal and a value cast to [int16_t]. *)
Fixpoint enum_items (elements : list TypeAst) : list (bytes * Z) :=
  match elements with
  | n :: v :: es => (ast_value_string n, swrap 16 (ast_value v)) :: enum_items es
  | _ => []
  end.

Definition CreateEnumColumn (ast : TypeAst) : result (option column) :=
  if negb (zlen (ast_elements ast) mod 2 =? 0) then Throw ValidationError
  else
    let items := enum_items (ast_elements ast) in
    if bool_decide (ast_code ast = Code.Enum8) then Ok (Some (ColumnEnum Code.Enum8 (EnumType_new items) []))
    else if bool_decide (ast_code ast = Code.Enum16) then Ok (Some (ColumnEnum Code.Enum16 (EnumType_new items) []))
    else Ok None.

(** A dictionary column over a fresh dictionary; the overload for nullable columns
    seeds the NULL item. *)
Definition CreateLowCardinalityColumn (create : TypeAst -> result (option column)) (ast : TypeAst) :
    result (option column) :=
  let! nested := GetASTChildElement ast 0 in
  match ast_code nested with
  | Code.String | Code.FixedString =>
    let! d := create nested in
    let! d := deref d in
    let! e := CloneEmpty std_hash d in
    let! l := LowCardinality_new std_hash e d in
    Ok (Some (lc_column l))
  | Code.Nullable =>
    let! d := CreateNullableColumn create nested in
    let! e := CloneEmpty std_hash d in
    let! l := LowCardinality_new_nullable std_hash e d in
    Ok (Some (lc_column l))
  | _ =>
    let! inner := create nested in
    match inner with
    | None => Throw UnimplementedError
    | Some d =>
      let! e := CloneEmpty std_hash d in
      let! l := LowCardinality_new std_hash e d in
      Ok (Some (lc_column l))
    end
  end.

Definition CreateMapColumn (create : TypeAst -> result (option column)) (ast : TypeAst) : result (option column) :=
  if negb (zlen (ast_elements ast) =? 2) then Throw ValidationError
  else
    let! columns := create_columns create (ast_elements ast) in
    match columns with
    | None => Ok None
    | Some columns =>
      let! t := ColumnTuple_new columns [] in
      let! a := ColumnArray_new t [] in
      Ok (Some (ColumnMap a))
    end.

(** The dispatch; [fuel] bounds the nesting of the tree. *)
Fixpoint CreateColumnFromAst_ (fuel : nat) (ast : TypeAst) : result (option column) :=
  match fuel with
  | O => Throw Diverges
  | S fuel =>
    let create := CreateColumnFromAst_ fuel in
    match ast_meta ast with
    | Meta.Array => CreateArrayColumn create ast
    | Meta.Nullable => let! c := CreateNullableColumn create ast in Ok (Some c)
    | Meta.Terminal => CreateTerminalColumn ast
    | Meta.Tuple => CreateTupleColumn create ast
    | Meta.Enum => CreateEnumColumn ast
    | Meta.LowCardinality => CreateLowCardinalityColumn create ast
    | Meta.SimpleAggregateFunction => let! e := GetASTChildElement ast (-1) in create e
    | Meta.Map => CreateMapColumn create ast
    | Meta.Assign | Meta.Null | Meta.Number | Meta.String => Ok None
    end
  end.

Fixpoint ast_depth (ast : TypeAst) : nat :=
  match ast with
  | mkTypeAst _ _ _ _ _ _ els => S (list_max (map ast_depth els))
  end.

Definition CreateColumnFromAst (ast : TypeAst) : result (option column) :=
  CreateColumnFromAst_ (ast_depth ast) ast.

Definition CreateColumnByType (map_bool : bool) (type_name : bytes) : M ast_cache (option column) :=
  let* ast := ParseTypeName map_bool type_name in
  match ast with
  | Some ast => lift_result (CreateColumnFromAst ast)
  | None => ret None
  end.
End Factory.

(** ** Enumerations are rebuilt from their items *)

Lemma zmap_set_snoc (k : Z) (v : bytes) (m : list (Z * bytes)) : Forall (fun x => fst x < k) m ->
  zmap_set k v m = m ++ [(k, v)].
Proof.
  induction 1 as [|[k' v'] m Hk _ IH]; [done|]. cbn in *.
  rewrite (proj2 (Z.ltb_ge _ _)), (proj2 (Z.eqb_neq _ _)), IH by lia. done.
Qed.

Definition swap_item (i : Z * bytes) : bytes * Z := (snd i, fst i).

Lemma EnumType_fold (done_ todo : list (Z * bytes)) :
  StronglySorted Z.lt (map fst (done_ ++ todo)) -> NoDup (map snd (done_ ++ todo)) ->
  fold_left EnumType_add (map swap_item todo) (mkEnumType done_ (list_to_map (map swap_item done_))) =
  mkEnumType (done_ ++ todo) (list_to_map (map swap_item (done_ ++ todo))).
Proof.
  revert done_. induction todo as [|[v n] todo IH]; intros l Hs Hn; [by rewrite app_nil_r|].
  cbn [map fold_left]. assert (EnumType_add (mkEnumType l (list_to_map (map swap_item l))) (swap_item (v, n)) =
    mkEnumType (l ++ [(v, n)]) (list_to_map (map swap_item (l ++ [(v, n)])))) as ->.
  { unfold EnumType_add. cbn [swap_item fst snd value_to_name name_to_value].
    assert (n ∉ (map swap_item l).*1) as Hnew.
    { rewrite map_app in Hn. apply NoDup_app in Hn as (_ & Hd & _). intros Hin.
      apply list_elem_of_fmap in Hin as (y & -> & Hin). apply list_elem_of_In, in_map_iff in Hin as (z & <- & Hz).
      apply (Hd (snd z)); [|by left]. by apply list_elem_of_In, in_map. }
    rewrite not_elem_of_list_to_map_1 by done. rewrite map_app. change (map swap_item [(v, n)]) with [(n, v)].
    rewrite list_to_map_snoc by done. f_equal. apply zmap_set_snoc.
    rewrite map_app in Hs. apply Forall_forall. intros x Hx.
    apply (sorting.StronglySorted_app_1_elem_of Z.lt _ _ (fst x) v Hs);
      [by apply list_elem_of_In, in_map, list_elem_of_In|by left]. }
  rewrite IH; by rewrite <- app_assoc.
Qed.

Lemma EnumType_new_items (e : EnumType) : enum_wf e -> EnumType_new (map swap_item (value_to_name e)) = e.
Proof.
  intros (Hs & Hn & Hm). unfold EnumType_new.
  pose proof (EnumType_fold [] (value_to_name e) Hs Hn) as E. cbn [map list_to_map foldr app] in E. rewrite E.
  destruct e as [v2n n2v]. cbn in *. f_equal. rewrite Hm.
  f_equal. apply map_ext. by intros [].
Qed.

Lemma enum_items_nodes (l : list (Z * bytes)) : Forall (fun '(v, n) => is_s 16 v /\ zlen n < 2 ^ 62) l ->
  enum_items (enum_nodes l) = map swap_item l /\ zlen (enum_nodes l) mod 2 = 0.
Proof.
  induction 1 as [|[v n] l [Hv _] _ [IH1 IH2]]; [done|]. cbn [enum_nodes flat_map app enum_items map swap_item fst snd].
  split.
  - unfold enum_nodes in IH1. rewrite IH1. cbn. rewrite swrap_id by (done || lia). done.
  - change (zlen _) with (zlen (lit n :: num v :: enum_nodes l)). rewrite !zlen_cons.
    replace (1 + (1 + zlen (enum_nodes l))) with (zlen (enum_nodes l) + 1 * 2) by lia. by rewrite Z_mod_plus_full.
Qed.

(** ** The column built from the name of a type *)
Section Creates.
Context (std_hash : bytes -> Z) (map_bool : bool).

(** Two zero items in a fresh dictionary: the NULL item and the default item. *)
Lemma dictionary_twice (d : column) : wf_col d -> dict_item d = true ->
  exists d0 it d1 d2, CloneEmpty std_hash d = Ok d0 /\ ZeroItemForDictionary (GetCode (ColumnType d0)) = Ok it /\
    AppendToDictionary d0 it = Ok d1 /\ AppendToDictionary d1 it = Ok d2 /\
    Size d0 = 0 /\ dict_item d0 = true /\ dict_item d1 = true /\ zlen (snd it) < 2 ^ 64 /\ fst it <> Code.Void /\
    GetCode (ColumnType d0) = fst it /\ ColumnType d1 = ColumnType d0 /\ Size d1 = 1 /\
    CloneEmpty std_hash d2 = Ok d0 /\ depth d2 = depth d /\ skeleton d2 = skeleton d.
Proof.
  intros Hw Hd. destruct d as [code data| |items|n data| |w ty data| | | | |]; try done.
  - destruct Hw as [Hc _]. destruct code; try done; do 4 eexists; split_and!; first [reflexivity|done|by vm_compute].
  - do 4 eexists. split_and!; first [reflexivity|done|by vm_compute].
  - destruct Hw as (Hn & _). do 2 eexists. set (z := replicate (Z.to_nat n) x00).
    assert (zlen z = n) as Hz by (unfold z; rewrite zlen_replicate; lia).
    exists (ColumnFixedString n z), (ColumnFixedString n (z ++ z)).
    assert (forall l, FixedString_Append n l [] = Ok (l ++ z)) as Happ.
    { intros l. unfold FixedString_Append. change (zlen []) with 0. rewrite (proj2 (Z.ltb_ge _ _)) by lia.
      by rewrite Z.sub_0_r. }
    split_and!; try reflexivity; try done; cbn [Size AppendToDictionary snd]; rewrite ?Hz, ?Happ; try reflexivity.
    apply Z.div_same. lia.
  - destruct Hw as (Ht & Hw & _). pose proof (shape_of_type data Hw) as Hs.
    destruct w; try done; destruct ty as [[]| | | | | | | | | | |]; try done; injection Ht as Ht; rewrite <- Ht in Hs;
      destruct Hs as [l ->]; do 4 eexists; split_and!; first [reflexivity|done|by vm_compute].
Qed.

(** [LowCardinality(Nullable(T))]: the factory's column is a blank one. *)
Lemma create_lc_nullable (nested : column) (nulls : list Z) (code : Code.t) (index : list Z) (u : gmap (Z * Z) Z) (n0 : column) :
  wf_col (ColumnLowCardinality (ColumnNullable nested nulls) code index u) -> CloneEmpty std_hash nested = Ok n0 ->
  exists l, LowCardinality_new_nullable std_hash (ColumnNullable n0 []) (ColumnNullable n0 []) = Ok l /\
    blank std_hash (ColumnLowCardinality (ColumnNullable nested nulls) code index u) (lc_column l).
Proof.
  intros (Hw & Hd & _) E. destruct Hd as [Hd _], Hw as (Hw & _).
  destruct (dictionary_twice nested Hw Hd) as
    (d0 & it & d1 & d2 & E0 & Ez & Ea & Eb & Hs & Hi0 & Hi1 & Hl & Hv & Hc & Ht & Hs1 & Ec & Hdep & Hsk).
  assert (n0 = d0) as -> by congruence.
  assert (GetNullItemForDictionary d0 = Ok it) as En by (rewrite <- Ez; by destruct d0).
  destruct (computeHashKey_ok std_hash it Hl) as [k Ek].
  unfold LowCardinality_new_nullable, AppendNullItem, AppendDefaultItem.
  cbn [lc_empty lc_dict lc_code lc_index lc_unique GetNullItemForDictionary rbind AppendToDictionary ItemView_null fst].
  rewrite bool_decide_true, En by done. cbn [rbind]. rewrite Ea. cbn [rbind].
  unfold computeHashKey at 1. cbn [fst]. rewrite bool_decide_true by done. cbn [rbind lc_dict GetDefaultItemForDictionary].
  rewrite (default_item d1), Ht, Ez by done. cbn [rbind]. rewrite Ek. cbn [rbind AppendToDictionary].
  rewrite bool_decide_false, Ht, bool_decide_true, Eb by done. cbn [rbind app Size lc_code lc_index lc_unique].
  change (Z.to_nat (zlen [])) with 0%nat. cbn [AppendItems]. eexists. split; [reflexivity|].
  eapply blank_lc; cbn [lc_dict lc_index CloneEmpty depth skeleton]; [by rewrite E0|by rewrite Ec|by rewrite Hdep|by rewrite Hsk|done].
Qed.

(** A clone without dictionaries is its own clone. *)
Lemma clone_idem (c : column) : forall e, wf_col c -> dict_item c = true -> CloneEmpty std_hash c = Ok e ->
  CloneEmpty std_hash e = Ok e /\ Size e = 0 /\ dict_item e = true.
Proof.
  intros e Hw Hd. destruct c as [| | | | |w ty data| | | | |]; try done; cbn [CloneEmpty]; try (intros [= <-]; done).
  destruct Hw as (Ht & Hw & _). pose proof (shape_of_type data Hw) as Hs.
  destruct w; try done; destruct ty as [[]| | | | | | | | | | |]; try done; injection Ht as Ht; rewrite <- Ht in Hs;
    destruct Hs as [l ->]; cbn [CloneEmpty rbind]; intros [= <-]; done.
Qed.

Lemma blank_size (c : column) : forall e, blank std_hash c e -> Size e = 0.
Proof.
  induction c as [| | | | |w ty data IH|data os IH|nested nulls IH|cs names IH|data IH|d code index u IH] using column_ind';
    intros x Hb; inversion Hb as [| | | | |? ? ? b He|? ? b He|? ? b He|? es ? H2|? b He|? ? ? ? ? l ? ? ? ? Hi]; subst; try done; cbn [Size].
  - rewrite (IH b He). by destruct w.
  - destruct H2 as [|c e cs es Hce _]; [done|]. by apply (Forall_inv IH).
  - by apply IH.
  - unfold lc_column. cbn. by rewrite Hi.
Qed.

Lemma element_name (en : bytes) (t : type) : ast_element_name (ast_of map_bool en t) = en.
Proof. by destruct t. Qed.

Definition creates (c : column) : Prop := forall en n, wf_col c -> wf_type map_bool (ColumnType c) ->
  (ast_depth (ast_of map_bool en (ColumnType c)) <= n)%nat ->
  exists e, CreateColumnFromAst_ std_hash n (ast_of map_bool en (ColumnType c)) = Ok (Some e) /\ blank std_hash c e.

Lemma creates_array (data : column) (os : list Z) : creates data -> creates (ColumnArray data os).
Proof.
  intros IH en [|n] Hw Ht Hn; cbn [ColumnType ast_of node ast_depth map list_max foldr] in Hn; [lia|].
  destruct (IH [] n ltac:(apply Hw) Ht ltac:(lia)) as (e & E & Hb). exists (ColumnArray e []). split; [|by constructor].
  cbn [ColumnType CreateColumnFromAst_ ast_of node ast_meta]. unfold CreateArrayColumn.
  change (GetASTChildElement _ 0) with (Ok (ast_of map_bool [] (ColumnType data))). cbn [rbind]. rewrite E.
  cbn [rbind deref]. unfold ColumnArray_new. cbn [monotone negb]. rewrite (blank_size _ _ Hb). reflexivity.
Qed.

Lemma create_nullable (data e : column) (n : nat) (en : bytes) :
  CreateColumnFromAst_ std_hash n (ast_of map_bool [] (ColumnType data)) = Ok (Some e) -> blank std_hash data e ->
  CreateNullableColumn (CreateColumnFromAst_ std_hash n) (ast_of map_bool en (TNullable (ColumnType data))) =
  Ok (ColumnNullable e []).
Proof.
  intros E Hb. unfold CreateNullableColumn.
  change (GetASTChildElement _ 0) with (Ok (ast_of map_bool [] (ColumnType data))). cbn [rbind]. rewrite E.
  cbn [rbind deref]. unfold ColumnNullable_new. rewrite (blank_size _ _ Hb). reflexivity.
Qed.

Lemma creates_nullable (data : column) (nulls : list Z) : creates data -> creates (ColumnNullable data nulls).
Proof.
  intros IH en [|n] Hw Ht Hn; cbn [ColumnType ast_of node ast_depth map list_max foldr] in Hn; [lia|].
  destruct (IH [] n ltac:(apply Hw) Ht ltac:(lia)) as (e & E & Hb). exists (ColumnNullable e []). split; [|by constructor].
  pose proof (create_nullable data e n en E Hb) as Ec. cbn [ColumnType CreateColumnFromAst_ ast_of node ast_meta] in *.
  by rewrite Ec.
Qed.

(** The elements of a tuple's tree. *)
Definition tuple_nodes (ts : list type) (names : list bytes) : list TypeAst :=
  imap (fun i f => f (nth i names [])) (map (fun t en => ast_of map_bool en t) ts).

Lemma create_columns_ok (n : nat) (cs : list column) (names : nat -> bytes) :
  Forall (fun c => wf_col c /\ wf_type map_bool (ColumnType c) /\ creates c) cs ->
  Forall (fun a => (ast_depth a <= n)%nat) (imap (fun i f => f (names i)) (map (fun t en => ast_of map_bool en t) (map ColumnType cs))) ->
  exists es, create_columns (CreateColumnFromAst_ std_hash n)
      (imap (fun i f => f (names i)) (map (fun t en => ast_of map_bool en t) (map ColumnType cs))) = Ok (Some es) /\
    Forall2 (blank std_hash) cs es.
Proof.
  intros Hc. revert names. induction Hc as [|c cs (Hw & Ht & Hcr) _ IH]; intros names Hd; [by exists []|].
  cbn [map imap] in *. inversion Hd as [|? ? Hd1 Hd2]; subst. destruct (Hcr (names 0%nat) n Hw Ht Hd1) as (e & E & Hb).
  destruct (IH (fun i => names (S i)) Hd2) as (es & Es & Hbs). exists (e :: es). cbn [create_columns].
  rewrite E. cbn [rbind]. unfold compose in *. rewrite Es. cbn [rbind]. split; [done|by constructor].
Qed.

Lemma node_names (f : nat -> bytes) (ts : list type) :
  map ast_element_name (imap (fun i g => g (f i)) (map (fun t en => ast_of map_bool en t) ts)) = imap (fun i _ => f i) ts.
Proof.
  revert f. induction ts as [|t ts IH]; intros f; [done|]. cbn. rewrite element_name. f_equal.
  apply (IH (fun i => f (S i))).
Qed.

Lemma tuple_names (ts : list type) (names : list bytes) : ts <> [] -> names = [] \/ length names = length ts ->
  Forall name_ok names ->
  (if existsb (fun n => negb (bool_decide (n = []))) (map ast_element_name (tuple_nodes ts names))
   then map ast_element_name (tuple_nodes ts names) else []) = names.
Proof.
  intros Hne Hn Hok. assert (map ast_element_name (tuple_nodes ts names) = imap (fun i _ => nth i names []) ts) as ->
    by apply (node_names (fun i => nth i names [])).
  destruct Hn as [->|Hl].
  - assert (imap (fun i _ => nth i (@nil bytes) []) ts = map (fun _ => []) ts) as ->.
    { rewrite <- (imap_const (fun _ => []) ts). apply imap_ext. intros i x _. by destruct i. }
    clear. assert (existsb (fun n : bytes => negb (bool_decide (n = []))) (map (fun _ : type => []) ts) = false) as ->; [|done].
    induction ts; [done|]. by cbn.
  - assert (imap (fun i _ => nth i names []) ts = names) as ->.
    { clear Hne Hok. revert ts Hl. induction names as [|m names IH]; intros [|t ts] Hl; try done. cbn. f_equal.
      apply (IH ts). by injection Hl. }
    destruct names as [|m names]; [done|]. destruct (Forall_inv Hok) as [Hm _]. cbn. by rewrite bool_decide_false.
Qed.

Lemma CreateTuple_length (ts ts' : list type) (names : list bytes) : length ts = length ts' ->
  CreateTuple ts names = Ok (TTuple ts names) -> CreateTuple ts' names = Ok (TTuple ts' names).
Proof. intros Hl. unfold CreateTuple. rewrite Hl. by repeat case_match. Qed.

Lemma creates_tuple (cs : list column) (names : list bytes) : Forall creates cs -> creates (ColumnTuple cs names).
Proof.
  intros IH en [|n] Hw Ht Hn; cbn [ColumnType ast_of node ast_depth] in Hn; [lia|].
  destruct Hw as (Hwc & _ & Htup & _). destruct Ht as (Hne & Htc & Hnl & Hnok).
  apply foldr_Forall in Hwc. apply foldr_Forall in Htc. apply (Forall_map ColumnType) in Htc.
  destruct (create_columns_ok n cs (fun i => nth i names [])) as (es & E & Hb).
  { rewrite Forall_forall in *. intros c Hc. split_and!; auto. }
  { apply list_max_Forall. lia. }
  exists (ColumnTuple es names). split; [|by constructor].
  cbn [ColumnType]. set (ast := ast_of _ _ _).
  change (CreateColumnFromAst_ std_hash (S n) ast) with (CreateTupleColumn (CreateColumnFromAst_ std_hash n) ast).
  unfold CreateTupleColumn. change (ast_elements ast) with (tuple_nodes (map ColumnType cs) names).
  unfold tuple_nodes at 1. rewrite E. cbn [rbind].
  rewrite tuple_names by done. unfold ColumnTuple_new.
  rewrite (CreateTuple_length (map ColumnType cs)); [done| |done].
  rewrite !length_map. by eapply Forall2_length.
Qed.

Lemma creates_map (k v : column) (os : list Z) : creates k -> creates v ->
  creates (ColumnMap (ColumnArray (ColumnTuple [k; v] []) os)).
Proof.
  intros Hk Hv en [|n] Hw Ht Hn; cbn [ColumnType ast_of node ast_depth map list_max foldr] in Hn; [lia|].
  destruct Hw as ((Hw & _) & _). destruct Hw as ((Hwk & Hwv & _) & _). destruct Ht as [Htk Htv].
  destruct (Hk [] n Hwk Htk ltac:(lia)) as (ek & Ek & Hbk). destruct (Hv [] n Hwv Htv ltac:(lia)) as (ev & Ev & Hbv).
  exists (ColumnMap (ColumnArray (ColumnTuple [ek; ev] []) [])). split; [|by repeat constructor].
  cbn [ColumnType]. set (ast := ast_of _ _ _).
  change (CreateColumnFromAst_ std_hash (S n) ast) with (CreateMapColumn (CreateColumnFromAst_ std_hash n) ast).
  unfold CreateMapColumn. change (ast_elements ast) with [ast_of map_bool [] (ColumnType k); ast_of map_bool [] (ColumnType v)].
  change (zlen _ =? 2) with true. cbn [negb create_columns]. rewrite Ek. cbn [rbind]. rewrite Ev. cbn [rbind].
  unfold ColumnTuple_new, ColumnArray_new. cbn. by rewrite (blank_size _ _ Hbk).
Qed.

Lemma creates_lc (d : column) (code : Code.t) (index : list Z) (u : gmap (Z * Z) Z) : 
  (forall c, (depth c <= depth d)%nat -> creates c) -> creates (ColumnLowCardinality d code index u).
Proof.
  intros IH en [|n] Hw Ht Hn; cbn [ColumnType ast_of node ast_depth map list_max foldr] in Hn; [lia|].
  pose proof Hw as (Hwd & Hd & _). cbn [ColumnType]. set (ast := ast_of _ _ _).
  change (CreateColumnFromAst_ std_hash (S n) ast) with (CreateLowCardinalityColumn std_hash (CreateColumnFromAst_ std_hash n) ast).
  unfold CreateLowCardinalityColumn.
  change (GetASTChildElement ast 0) with (Ok (ast_of map_bool [] (ColumnType d))). cbn [rbind].
  assert (dict_item d = true -> ast_code (ast_of map_bool [] (ColumnType d)) <> Code.Nullable ->
    exists e, CreateLowCardinalityColumn std_hash (CreateColumnFromAst_ std_hash n) ast = Ok (Some e) /\
      blank std_hash (ColumnLowCardinality d code index u) e) as Hplain.
  { intros Hi Hnn. destruct (IH d (Nat.le_refl _) [] n Hwd Ht ltac:(lia)) as (e & E & Hb).
    apply blank_clone in Hb; [|done|by apply dict_plain]. destruct (clone_idem d e Hwd Hi Hb) as (Ee & _).
    destruct (CloneEmpty_ok std_hash _ Hw) as (x & Ex & _). exists x. split; [|by apply clone_blank].
    cbn [CloneEmpty] in Ex; open_clone. rewrite Hb in Ex. cbn [rbind] in Ex.
    destruct (LowCardinality_new std_hash e e) as [l|] eqn:El; [|done]. injection Ex as <-.
    unfold CreateLowCardinalityColumn. change (GetASTChildElement ast 0) with (Ok (ast_of map_bool [] (ColumnType d))).
    cbn [rbind]. rewrite E. cbn [rbind deref]. rewrite Ee. cbn [rbind]. rewrite El. cbn [rbind].
    by destruct (ast_code _). }
  unfold CreateLowCardinalityColumn in Hplain.
  change (GetASTChildElement ast 0) with (Ok (ast_of map_bool [] (ColumnType d))) in Hplain. cbn [rbind] in Hplain.
  destruct d as [vc data| |items|m data| |w ty data| |nested nulls| | |]; try done.
  - apply Hplain; [done|]. destruct Hwd as [Hc _]. by destruct vc.
  - by apply Hplain.
  - by apply Hplain.
  - apply Hplain; [done|]. destruct Hwd as (Hwt & _).
    destruct w; try done; by destruct ty as [[]| | | | | | | | | | |].
  - clear Hplain. cbn [ColumnType ast_of node ast_depth map list_max foldr] in Hn.
    destruct Hwd as (Hwn & _). destruct Hd as [Hd Hnl].
    destruct (IH nested ltac:(cbn; lia) [] n Hwn Ht ltac:(lia)) as (e & E & Hb).
    cbn [ColumnType]. change (ast_code _) with Code.Nullable. cbv iota.
    rewrite (create_nullable nested e n [] E Hb). cbn [rbind CloneEmpty].
    apply blank_clone in Hb; [|done|by apply dict_plain]. destruct (clone_idem nested e Hwn Hd Hb) as (Ee & _).
    rewrite Ee. cbn [rbind]. destruct (create_lc_nullable nested nulls code index u e Hw Hb) as (l & El & Hbl).
    rewrite El. cbn [rbind]. eauto.
Qed.

Lemma wrap_size_t (v : Z) : 0 <= v < 2 ^ 63 -> wrap 64 v = v.
Proof. intros. apply wrap_id. unfold is_u. lia. Qed.

Lemma create_decimal (n : nat) (en : bytes) (p s : Z) : 0 <= p < 2 ^ 63 -> 0 <= s < 2 ^ 63 ->
  CreateColumnFromAst_ std_hash (S n) (ast_of map_bool en (TDecimal p s)) = Ok (Some (ColumnDecimal_new p s)).
Proof.
  intros Hp Hs. change (CreateColumnFromAst_ std_hash (S n) _) with (Ok (Some (ColumnDecimal_new (wrap 64 p) (wrap 64 s)))).
  by rewrite !wrap_size_t.
Qed.

(** The classes that delegate: their default constructors. *)
Lemma creates_wrap (w : wrapper) (ty : type) (data : column) : creates data -> creates (ColumnWrap w ty data).
Proof.
  intros IH en [|n] Hw Ht Hn; [by destruct ty; cbn in Hn; lia|]. pose proof Hw as (Hwt & Hwd & _).
  assert (forall e, wf_type map_bool (ColumnType data) ->
    CreateColumnFromAst_ std_hash (ast_depth (ast_of map_bool [] (ColumnType data))) (ast_of map_bool [] (ColumnType data)) = Ok (Some e) ->
    blank std_hash data e) as Hdata.
  { intros e Htd E. destruct (IH [] _ Hwd Htd (Nat.le_refl _)) as (e' & E' & Hb). congruence. }
  clear IH Hn. cbn [ColumnType] in *.
  destruct w, ty as [[]| | | | | | | | | | |]; try done; injection Hwt as Hwt; rewrite <- Hwt in Hdata;
    try (eexists; split; [reflexivity|]; constructor; apply Hdata; [by cbn|reflexivity]).
  - destruct Ht as [_ Ht]. destruct map_bool; [by destruct Ht|].
    eexists; split; [reflexivity|]; constructor; apply Hdata; [done|reflexivity].
  - eexists. split.
    + cbn [CreateColumnFromAst_ ast_of]. case_bool_decide as Hz; [subst timezone|]; reflexivity.
    + constructor. apply Hdata; [done|reflexivity].
  - destruct Ht as [Hp _]. assert (wrap 64 precision = precision) as Hwp by (apply wrap_size_t; lia).
    exists (ColumnWrap WDateTime64 (TDateTime64 precision timezone) (ColumnDecimal_new 18 precision)). split.
    + cbn [ast_of]. case_bool_decide as Hz; [subst timezone|];
        cbn [CreateColumnFromAst_ node ast_meta]; change (GetTypeMeta _) with Meta.Terminal; cbv iota;
        unfold CreateTerminalColumn; cbn [node ast_code]; change (GetTypeCode _ _) with Code.DateTime64; cbv iota;
        cbn [ast_elements node num ast_value]; unfold ColumnDateTime64_new, CreateDateTime64;
        rewrite Hwp, (proj2 (Z.ltb_ge _ _)) by lia; reflexivity.
    + constructor. apply Hdata; [cbn; lia|]. apply create_decimal; lia.
  - assert (wrap 64 precision = precision) as Hwp by (apply wrap_size_t; cbn in Ht; lia).
    exists (ColumnWrap WTime64 (TTime64 precision) (empty_vector Code.Int64)). split.
    + change (CreateColumnFromAst_ std_hash (S n) _) with
        (let! c := ColumnTime64_new (wrap 64 precision) in Ok (Some c)).
      rewrite Hwp. unfold ColumnTime64_new, CreateTime64. cbn in Ht. by rewrite (proj2 (Z.ltb_ge _ _)) by lia.
    + constructor. by apply Hdata.
  - destruct Ht as [Hp Hs]. exists (ColumnDecimal_new precision scale). split; [by apply create_decimal|].
    constructor. apply Hdata; repeat case_match; done.
  - exists ColumnPoint_new. split; [reflexivity|]. constructor. apply Hdata; [|reflexivity].
    cbn. split_and!; try done. by left.
Qed.

Lemma creates_enum (code : Code.t) (e : EnumType) (data : list Z) : creates (ColumnEnum code e data).
Proof.
  intros en [|n] [Hc _] Ht Hn; [by cbn in Hn; lia|]. destruct Ht as (_ & Hne & Hi & Hwf).
  exists (ColumnEnum code e []). split; [|constructor]. cbn [ColumnType].
  destruct (enum_items_nodes _ Hi) as [E1 E2]. pose proof (EnumType_new_items e Hwf) as E3. rewrite <- E1 in E3.
  set (ast := ast_of map_bool en (TEnum code e)).
  assert (CreateColumnFromAst_ std_hash (S n) ast = CreateEnumColumn ast) as -> by (by destruct code).
  unfold CreateEnumColumn. change (ast_elements ast) with (enum_nodes (value_to_name e)). rewrite E2. cbn [Z.eqb negb].
  rewrite E3. by destruct code.
Qed.

Lemma creates_all (m : nat) : forall c, (depth c <= m)%nat -> creates c.
Proof.
  induction m as [|m IH]; intros c Hm; [by destruct c; cbn in Hm; lia|].
  destruct c as [code data|code e data|items|k data|size|w ty data|data os|nested nulls|cs names|data|d code index u];
    cbn [depth] in Hm.
  - intros en [|n] [Hc _] Ht Hn; [by cbn in Hn; lia|]. exists (ColumnVector code []). split; [|constructor].
    cbn [ColumnType]. destruct code; done.
  - apply creates_enum.
  - intros en [|n] Hw Ht Hn; [by cbn in Hn; lia|]. eexists. split; [reflexivity|constructor].
  - intros en [|n] Hw Ht Hn; [by cbn in Hn; lia|]. exists (ColumnFixedString k []). split; [|constructor].
    change (CreateColumnFromAst_ std_hash (S n) _) with (Ok (Some (ColumnFixedString (wrap 64 k) []))).
    by rewrite wrap_size_t.
  - intros en [|n] Hw Ht Hn; [by cbn in Hn; lia|]. eexists. split; [reflexivity|constructor].
  - apply creates_wrap, IH. lia.
  - apply creates_array, IH. lia.
  - apply creates_nullable, IH. lia.
  - apply creates_tuple, Forall_forall. intros c Hc. apply IH. eapply depth_elem; [|exact Hc]. lia.
  - intros en n Hw. destruct (proj2 Hw) as (k & v & os & ->). cbn [depth map list_max foldr] in Hm.
    revert Hw. apply creates_map; apply IH; lia.
  - apply creates_lc. intros c Hc. apply IH. lia.
Qed.

(** The type name of a column gives a blank column of its form. *)
Lemma CreateColumnFromAst_ok (c : column) : wf_col c -> wf_type map_bool (ColumnType c) ->
  exists e, CreateColumnFromAst std_hash (ast_of map_bool [] (ColumnType c)) = Ok (Some e) /\ blank std_hash c e.
Proof. intros Hw Ht. by apply (creates_all (depth c) c). Qed.
End Creates.

(** ** Fuel: the nesting of the tree is enough *)

Lemma child_in (ast e : TypeAst) (pos : Z) : GetASTChildElement ast pos = Ok e -> e ∈ ast_elements ast.
Proof.
  unfold GetASTChildElement, index_. case_match; [done|]. case_match; [done|].
  destruct (ast_elements ast !! _) eqn:E; [|done]. intros [= <-]. by eapply list_elem_of_lookup_2.
Qed.

Lemma child_depth (ast e : TypeAst) : e ∈ ast_elements ast -> (ast_depth e < ast_depth ast)%nat.
Proof.
  destruct ast as [m c nm en v vs els]. cbn [ast_elements ast_depth]. intros He.
  assert (Forall (fun a => (ast_depth a <= list_max (map ast_depth els))%nat) els) as Hall by by apply list_max_Forall.
  rewrite Forall_forall in Hall. specialize (Hall e He). lia.
Qed.

Lemma create_fuel (std_hash : bytes -> Z) (n : nat) : forall m ast, (ast_depth ast <= n)%nat -> (ast_depth ast <= m)%nat ->
  CreateColumnFromAst_ std_hash n ast = CreateColumnFromAst_ std_hash m ast.
Proof.
  induction n as [|n IH]; intros [|m] ast Hn Hm; try (destruct ast; cbn in *; lia).
  assert (forall e, e ∈ ast_elements ast -> CreateColumnFromAst_ std_hash n e = CreateColumnFromAst_ std_hash m e) as Heq.
  { intros e He%child_depth. apply IH; lia. }
  assert (forall e, e ∈ ast_elements ast -> forall e', e' ∈ ast_elements e ->
    CreateColumnFromAst_ std_hash n e' = CreateColumnFromAst_ std_hash m e') as Heq2.
  { intros e He%child_depth e' He'%child_depth. apply IH; lia. }
  assert (create_columns (CreateColumnFromAst_ std_hash n) (ast_elements ast) =
    create_columns (CreateColumnFromAst_ std_hash m) (ast_elements ast)) as Hcs.
  { clear -Heq. induction (ast_elements ast) as [|e es IHl]; [done|]. cbn [create_columns].
    rewrite Heq by by left. rewrite IHl; [done|]. intros x Hx. apply Heq. by right. }
  assert (forall a, (a = ast \/ a ∈ ast_elements ast) -> CreateNullableColumn (CreateColumnFromAst_ std_hash n) a =
    CreateNullableColumn (CreateColumnFromAst_ std_hash m) a) as Hnul.
  { intros a Ha. unfold CreateNullableColumn. destruct (GetASTChildElement a 0) as [e|] eqn:E; [|done]. cbn [rbind].
    apply child_in in E. destruct Ha as [->|Ha]; [by rewrite Heq|by rewrite (Heq2 a)]. }
  cbn [CreateColumnFromAst_]. destruct (ast_meta ast); try done.
  - unfold CreateArrayColumn. destruct (GetASTChildElement ast 0) as [e|] eqn:E; [|done]. cbn [rbind].
    by rewrite (Heq e (child_in _ _ _ E)).
  - by rewrite Hnul by by left.
  - unfold CreateTupleColumn. by rewrite Hcs.
  - unfold CreateLowCardinalityColumn. destruct (GetASTChildElement ast 0) as [e|] eqn:E; [|done]. cbn [rbind].
    pose proof (child_in _ _ _ E) as He. rewrite (Heq e He), (Hnul e) by by right. done.
  - destruct (GetASTChildElement ast (-1)) as [e|] eqn:E; [|done]. cbn [rbind]. by rewrite (Heq e (child_in _ _ _ E)).
  - unfold CreateMapColumn. by rewrite Hcs.
Qed.

(** ** Main results *)

Lemma CreateColumnByType_ok (std_hash : bytes -> Z) (map_bool : bool) (c : column) :
  wf_col c -> wf_type map_bool (ColumnType c) ->
  exists e, blank std_hash c e /\ forall cache, cache_ok map_bool cache ->
    exists cache', CreateColumnByType std_hash map_bool (GetName (ColumnType c)) cache = (Ok (Some e), cache') /\
      cache_ok map_bool cache'.
Proof.
  intros Hw Ht. destruct (CreateColumnFromAst_ok std_hash map_bool c Hw Ht) as (e & E & Hb). exists e. split; [done|].
  intros cache Hc. destruct (ParseTypeName_cached _ _ _ _ _ Hc (Parse_GetName map_bool _ Ht)) as (cache' & Ep & Hc' & _).
  exists cache'. unfold CreateColumnByType. mstep Ep. unfold lift_result. by rewrite E.
Qed.

(** C39. The factory inverts the printer of type names: for any well-formed column
    (arbitrarily nested) whose type the parser reads back ([wf_type]: a field name with
    a backslash, for instance, is not read back, [backslash_field_rejected]), creating a column from the name of its type, whatever
    the cache of parsed names holds, gives an empty column of exactly that type,
    and the nesting of the name is enough fuel. *)
Theorem factory_roundtrip (std_hash : bytes -> Z) (map_bool : bool) (c : column) (cache : ast_cache)
    (Hw : wf_col c) (Ht : wf_type map_bool (ColumnType c)) (Hc : cache_ok map_bool cache) :
  exists e cache', CreateColumnByType std_hash map_bool (GetName (ColumnType c)) cache = (Ok (Some e), cache') /\
    ColumnType e = ColumnType c /\ Size e = 0 /\ rows e = [] /\ cache_ok map_bool cache' /\
    forall n, (ast_depth (ast_of map_bool [] (ColumnType c)) <= n)%nat ->
      CreateColumnFromAst_ std_hash n (ast_of map_bool [] (ColumnType c)) = Ok (Some e).
Proof.
  destruct (CreateColumnByType_ok std_hash map_bool c Hw Ht) as (e & Hb & Hcr). destruct (Hcr cache Hc) as (cache' & E & Hc').
  destruct (blank_spec _ _ _ Hw Hb) as [Hr Hs]. exists e, cache'. split_and!; try done.
  - by apply skeleton_eq_type.
  - by eapply blank_size.
  - intros n Hn. destruct (ParseTypeName_cached _ _ _ _ _ Hc (Parse_GetName map_bool _ Ht)) as (cache2 & Ep & _).
    unfold CreateColumnByType in E. rewrite (bind_ok _ _ _ _ _ Ep) in E. injection E as E _. rewrite <- E.
    by apply create_fuel.
Qed.

Lemma factory_roundtrip_witness :
  exists e cache', CreateColumnByType (fun _ => 0) false (GetName (ColumnType example_column)) ∅ = (Ok (Some e), cache') /\
    ColumnType e = ColumnType example_column /\ Size e = 0 /\ rows e = [] /\ cache_ok false cache' /\
    forall n, (ast_depth (ast_of false [] (ColumnType example_column)) <= n)%nat ->
      CreateColumnFromAst_ (fun _ => 0) n (ast_of false [] (ColumnType example_column)) = Ok (Some e).
Proof.
  apply (factory_roundtrip (fun _ => 0) false example_column ∅); [exact example_wf| |].
  - cbn. split_and!; try done. by left.
  - intros n a Hn. rewrite lookup_empty in Hn. discriminate Hn.
Defined.

(** A name the parser does not know, alone and as the only argument of another. *)
Lemma Parse_unknown (map_bool : bool) (nm : bytes) : IsPlainIdentifier nm = true ->
  Parse map_bool nm = (Ok (ValidateAST (node map_bool nm [] [])), node map_bool nm [] []).
Proof.
  intros Hnm. pose proof (head_steps map_bool nm [] [] TypeAst_default [] [[]] TypeAst_default Hnm Logic.I eq_refl eq_refl) as H.
  rewrite app_nil_r in H. eapply Parse_steps; [exact H|]. intros fuel pt Hpt.
  cbn [Parse_loop tp_rest NextToken tp_root tp_type tp_open Parse_token length Nat.eqb negb update_at].
  by rewrite (proj2 (Z.eqb_neq _ _)) by lia.
Qed.

Lemma Parse_call (map_bool : bool) (outer nm : bytes) : IsPlainIdentifier outer = true -> IsPlainIdentifier nm = true ->
  Parse map_bool (outer ++ str "(" ++ nm ++ str ")") =
  (Ok (ValidateAST (node map_bool outer [] [node map_bool nm [] []])), node map_bool outer [] [node map_bool nm [] []]).
Proof.
  intros Ho Hnm. assert (args map_bool nm [node map_bool nm [] []]) as Ha.
  { apply args_one. intros R root p st HR _ Hd. by eapply head_steps. }
  pose proof (call_parses map_bool outer nm _ Ho Ha [] [] TypeAst_default [] [[]] TypeAst_default Logic.I eq_refl eq_refl) as H.
  rewrite app_nil_r in H. eapply Parse_steps; [exact H|]. intros fuel pt Hpt.
  cbn [Parse_loop tp_rest NextToken tp_root tp_type tp_open Parse_token length Nat.eqb negb update_at].
  by rewrite (proj2 (Z.eqb_neq _ _)) by lia.
Qed.

(** A type the library does not know is refused at the top level only: the
    factory answers null for the name itself, but [Array] of it becomes an array
    of [Nothing], as if the server had sent that type. *)
Lemma factory_unknown_nested (std_hash : bytes -> Z) (map_bool : bool) (nm : bytes)
    (Hnm : IsPlainIdentifier nm = true) (Hm : GetTypeMeta nm = Meta.Terminal) (Hc : GetTypeCode map_bool nm = Code.Void)
    (Hv : equal_case_insensitive nm (str "void") = false) :
  fst (CreateColumnByType std_hash map_bool nm ∅) = Ok None /\
  fst (CreateColumnByType std_hash map_bool (str "Array(" ++ nm ++ str ")") ∅) =
    Ok (Some (ColumnArray (ColumnNothing 0) [])).
Proof.
  assert (ValidateAST (node map_bool nm [] []) = false) as Hval.
  { unfold ValidateAST, node. cbn [ast_meta ast_code ast_name]. rewrite Hm, Hc, Hv. by rewrite !bool_decide_true. }
  unfold CreateColumnByType, bind, ParseTypeName. rewrite !lookup_empty. split.
  - rewrite Parse_unknown, Hval by done. reflexivity.
  - change (str "Array(" ++ nm ++ str ")") with (str "Array" ++ str "(" ++ nm ++ str ")").
    rewrite Parse_call by done. change (ValidateAST _) with true. cbv iota. unfold lift_result, CreateColumnFromAst. cbn [fst].
    change (ast_depth _) with 2%nat. set (ast := node map_bool (str "Array") [] _).
    change (CreateColumnFromAst_ std_hash 2 ast) with
      (CreateArrayColumn (CreateColumnFromAst_ std_hash 1) ast).
    unfold CreateArrayColumn. change (GetASTChildElement ast 0) with (Ok (node map_bool nm [] [])). cbn [rbind].
    cbn [CreateColumnFromAst_ node ast_meta]. rewrite Hm. unfold CreateTerminalColumn. cbn [ast_code node]. rewrite Hc. reflexivity.
Qed.

(** A parameterised type without its parameter makes the terminal factory
    return a null column, which the constructors of the enclosing types
    dereference: undefined behaviour on a name like [Array(DateTime64)]; only a
    tuple or a map checks it.  And the last element of a one-element list is out
    of reach of the index -1. *)
Lemma factory_null_nested (std_hash : bytes -> Z) :
  let create name := fst (CreateColumnByType std_hash false name ∅) in
  create (str "DateTime64") = Ok None /\
  create (str "Array(DateTime64)") = Throw Undefined /\
  create (str "Nullable(Time64)") = Throw Undefined /\
  create (str "Tuple(DateTime64)") = Ok None /\
  create (str "Decimal(9)") = Throw ValidationError.
Proof. vm_compute. split_and!; reflexivity. Qed.
