(* ===== verification/Bignum.v ===== *)
(** * Wide integers (clickhouse/base/bignum_string.h, types/bignum.h, types/bignum.cpp)

    Numbers of 128, 256 and 512 bits as little-endian arrays of 32-bit limbs, their
    conversion from and to decimal text, and the 128-bit types built on them.  The
    conversions are proved against the text of a number, [to_string] and
    [dec_value], for all three widths: every text is accepted, refused or found too
    large as the documentation of the functions says, and the text of a number
    fits its buffer.

    An array is the list of its limbs, so [size] is its length; a pointer that may be
    null is an option.  A buffer that is filled from its end is the text written
    so far, up to the end of the buffer; writing in front of the buffer and reading
    behind a string are undefined.  The types are those of the build without Abseil. *)

From S2P Require Import Prelude Text.

(** ** Limb arrays *)

Definition bignum_max_limbs : Z := 16.

(** The largest power of ten in 32 bits. *)
Definition uint32_max_pow10 : Z := 1000000000.

Definition pow_10 : list Z :=
  [1; 10; 100; 1000; 10000; 100000; 1000000; 10000000; 100000000; 1000000000].

Inductive StatusCode := OK | TOO_LARGE | BAD_ARGUMENT | BAD_STRING.

Inductive SignMode := UNSIGNED | SIGNED.

#[global] Instance SignMode_eq_dec : EqDecision SignMode.
Proof. solve_decision. Defined.

Definition limb_arr_str_len (size : Z) : Z :=
  if size =? 4 then 41 else if size =? 8 then 79 else if size =? 16 then 156 else 0.

Definition limb_arr_is_zero (limbs : list Z) : bool := fold_left Z.lor limbs 0 =? 0.

Fixpoint negate_loop (carry : Z) (limbs : list Z) : list Z :=
  match limbs with
  | [] => []
  | limb :: limbs =>
    let inverted := wrap 32 (Z.lnot limb) in
    let limb := wrap 32 (inverted + carry) in
    limb :: negate_loop (if limb <? carry then 1 else 0) limbs
  end.

Definition limb_arr_negate_inplace (limbs : list Z) : list Z := negate_loop 1 limbs.

(** Quotient and remainder; the loop goes from the last limb to the first. *)
Fixpoint limb_arr_divmod_inplace (limbs : list Z) (divisor : Z) : list Z * Z :=
  match limbs with
  | [] => ([], 0)
  | limb :: limbs =>
    let '(limbs, remainder) := limb_arr_divmod_inplace limbs divisor in
    let acc := Z.lor (Z.shiftl remainder 32) limb in
    (wrap 32 (acc / divisor) :: limbs, wrap 32 (acc mod divisor))
  end.

Fixpoint muladd_loop (limbs : list Z) (mul carry : Z) : list Z * Z :=
  match limbs with
  | [] => ([], wrap 32 carry)
  | limb :: limbs =>
    let acc := wrap 64 (limb * mul + carry) in
    let '(rest, carry) := muladd_loop limbs mul (Z.shiftr acc 32) in
    (wrap 32 acc :: rest, carry)
  end.

(** The array and the carry out of its top limb. *)
Definition limb_arr_muladd_inplace (limbs : list Z) (mul add : Z) : list Z * Z := muladd_loop limbs mul add.

Definition limb_arr_is_signed_min (limbs : list Z) : bool :=
  match last limbs with
  | None => false
  | Some top => (top =? 2 ^ 31) && (fold_left Z.lor (removelast limbs) 0 =? 0)
  end.

Definition top_bit (limbs : list Z) : bool :=
  match last limbs with
  | None => false
  | Some top => negb (Z.land top (2 ^ 31) =? 0)
  end.

(** ** Text to limbs *)

(** [n] digits of the string, as a number: the inner loops. *)
Fixpoint read_chunk (n : nat) (chunk : Z) (str : bytes) : result (Z * bytes) :=
  match n, str with
  | O, _ => Ok (chunk, str)
  | S n, c :: str => read_chunk n (wrap 32 (chunk * 10 + wrap 32 (b2z c - 48))) str
  | S _, [] => Throw Undefined
  end.

(** One chunk of [n] digits is added to the array; [false] when it overflows. *)
Definition add_chunk (n : nat) (mul : Z) (str : bytes) (limbs : list Z) : result (bool * bytes * list Z) :=
  let! '(chunk, str) := read_chunk n 0 str in
  let '(limbs, carry) := limb_arr_muladd_inplace limbs mul chunk in
  Ok (carry =? 0, str, limbs).

(** [while (i < str_len)], for the rest of the string from [i] on. *)
Fixpoint add_chunks (fuel : nat) (str : bytes) (limbs : list Z) : result (bool * list Z) :=
  match str with
  | [] => Ok (true, limbs)
  | _ =>
    match fuel with
    | O => Throw Diverges
    | S fuel =>
      let! '(fits, str, limbs) := add_chunk 9 uint32_max_pow10 str limbs in
      if fits : bool then add_chunks fuel str limbs else Ok (false, limbs)
    end
  end.

Definition str_to_limb_arr (str : option bytes) (mode : SignMode) (limbs : option (list Z)) :
    result (StatusCode * option (list Z)) :=
  match str, limbs with
  | Some str, Some limbs =>
    if limb_arr_str_len (zlen limbs) =? 0 then Ok (BAD_ARGUMENT, Some limbs) else
    let '(negative, str) :=
      match mode, str with
      | SIGNED, c :: rest => if bool_decide (c = "-"%byte) then (true, rest) else (false, str)
      | _, _ => (false, str)
      end in
    if zlen str =? 0 then Ok (BAD_STRING, Some limbs) else
    if negb (forallb is_digit str) then Ok (BAD_STRING, Some limbs) else
    let limbs := map (fun _ => 0) limbs in
    let first := (length str mod 9)%nat in
    let! '(fits, str, limbs) :=
      if (first =? 0)%nat then Ok (true, str, limbs)
      else add_chunk first (nth first pow_10 0) str limbs in
    if negb fits then Ok (TOO_LARGE, Some limbs) else
    let! '(fits, limbs) := add_chunks (length str) str limbs in
    if negb fits then Ok (TOO_LARGE, Some limbs) else
    if bool_decide (mode = SIGNED) && negb negative && top_bit limbs then Ok (TOO_LARGE, Some limbs) else
    if negative && top_bit limbs && negb (limb_arr_is_signed_min limbs) then Ok (TOO_LARGE, Some limbs) else
    if negative : bool then Ok (OK, Some (limb_arr_negate_inplace limbs)) else Ok (OK, Some limbs)
  | _, _ => Ok (BAD_ARGUMENT, limbs)
  end.

(** ** Limbs to text *)

(** [*--it = c] in a buffer of [buf_len] bytes. *)
Definition push_front (buf_len : Z) (c : byte) (it : bytes) : result bytes :=
  if zlen it <? buf_len then Ok (c :: it) else Throw Undefined.

(** [n] digits of [chunk]. *)
Fixpoint push_digits (buf_len : Z) (n : nat) (chunk : Z) (it : bytes) : result bytes :=
  match n with
  | O => Ok it
  | S n =>
    let! it := push_front buf_len (z2b (48 + chunk mod 10)) it in
    push_digits buf_len n (chunk / 10) it
  end.

(** [while (chunk != 0)]; a chunk has at most ten digits. *)
Fixpoint push_chunk (buf_len : Z) (fuel : nat) (chunk : Z) (it : bytes) : result bytes :=
  if chunk =? 0 then Ok it else
  match fuel with
  | O => Throw Diverges
  | S fuel =>
    let! it := push_front buf_len (z2b (48 + chunk mod 10)) it in
    push_chunk buf_len fuel (chunk / 10) it
  end.

(** [while (!limb_arr_is_zero(copy))]. *)
Fixpoint push_limbs (buf_len : Z) (fuel : nat) (copy : list Z) (chunk : Z) (it : bytes) : result (Z * bytes) :=
  if limb_arr_is_zero copy then Ok (chunk, it) else
  match fuel with
  | O => Throw Diverges
  | S fuel =>
    let! it := push_digits buf_len 9 chunk it in
    let '(copy, chunk) := limb_arr_divmod_inplace copy uint32_max_pow10 in
    push_limbs buf_len fuel copy chunk it
  end.

(** The text from the returned pointer to the end of the buffer, with the final NUL. *)
Definition limb_arr_to_str (limbs : option (list Z)) (mode : SignMode) (buf_len : option Z) : result (option bytes) :=
  match limbs, buf_len with
  | Some limbs, Some buf_len =>
    let limbs_len := zlen limbs in
    if (limb_arr_str_len limbs_len =? 0) || (buf_len <? limb_arr_str_len limbs_len) then Ok None else
    let! it := push_front buf_len x00 [] in
    if limb_arr_is_zero limbs then let! it := push_front buf_len "0"%byte it in Ok (Some it) else
    let '(negative, copy) :=
      if bool_decide (mode = SIGNED) && top_bit limbs then (true, limb_arr_negate_inplace limbs) else (false, limbs) in
    let '(copy, chunk) := limb_arr_divmod_inplace copy uint32_max_pow10 in
    let! '(chunk, it) := push_limbs buf_len (32 * length limbs) copy chunk it in
    let! it := push_chunk buf_len 10 chunk it in
    if negative : bool then let! it := push_front buf_len "-"%byte it in Ok (Some it) else Ok (Some it)
  | _, _ => Ok None
  end.

(** ** 128-bit integers

    The two structs have the same members, [limbs[0]] and [limbs[1]]. *)

Record UInt128 := mkUInt128 { u_lo : Z; u_hi : Z }.

Record Int128 := mkInt128 { i_lo : Z; i_hi : Z }.

#[global] Instance Int128_eq_dec : EqDecision Int128.
Proof. solve_decision. Defined.

Module UInt.
Definition of_uint64 (x : Z) : UInt128 := mkUInt128 x 0.

Definition eqb (x y : UInt128) : bool := (u_lo x =? u_lo y) && (u_hi x =? u_hi y).

Definition ltb (x y : UInt128) : bool :=
  if negb (u_hi x =? u_hi y) then u_hi x <? u_hi y else u_lo x <? u_lo y.
End UInt.

Module SInt.
Definition of_int64 (x : Z) : Int128 := mkInt128 (wrap 64 x) (if x <? 0 then 2 ^ 64 - 1 else 0).

Definition eqb (x y : Int128) : bool := (i_lo x =? i_lo y) && (i_hi x =? i_hi y).

Definition ltb (x y : Int128) : bool :=
  let hi := swrap 64 (i_hi x) in
  let other_hi := swrap 64 (i_hi y) in
  if negb (hi =? other_hi) then hi <? other_hi else i_lo x <? i_lo y.
End SInt.

Definition MakeInt128 (hi lo : Z) : Int128 := mkInt128 lo (wrap 64 hi).

Definition MakeUInt128 (hi lo : Z) : UInt128 := mkUInt128 lo hi.

Definition Int128Low64 (v : Int128) : Z := i_lo v.

Definition Int128High64 (v : Int128) : Z := swrap 64 (i_hi v).

Definition UInt128Low64 (v : UInt128) : Z := u_lo v.

Definition UInt128High64 (v : UInt128) : Z := u_hi v.

(** An array of two 64-bit limbs is a pair. *)
Definition Int64LimbsToInt32 (limbs : Z * Z) : list Z :=
  [ wrap 32 (Z.land (fst limbs) (Z.ones 32)); wrap 32 (Z.shiftr (fst limbs) 32);
    wrap 32 (Z.land (snd limbs) (Z.ones 32)); wrap 32 (Z.shiftr (snd limbs) 32) ].

Definition Int32LimbsToInt64 (limbs : list Z) : Z * Z :=
  ( Z.lor (nth 0 limbs 0) (Z.shiftl (nth 1 limbs 0) 32),
    Z.lor (nth 2 limbs 0) (Z.shiftl (nth 3 limbs 0) 32) ).

(** The C string at a pointer. *)
Fixpoint c_string (b : bytes) : bytes :=
  match b with
  | [] => []
  | c :: b => if bool_decide (c = x00) then [] else c :: c_string b
  end.

Definition Int64LimbsToStr (limbs : Z * Z) (mode : SignMode) : result bytes :=
  let limbs_32 := Int64LimbsToInt32 limbs in
  let! str := limb_arr_to_str (Some limbs_32) mode (Some (limb_arr_str_len (zlen limbs_32))) in
  match str with
  | None => Throw Undefined
  | Some str => Ok (c_string str)
  end.

Definition StringToInt64Limbs (str : bytes) (mode : SignMode) : result (Z * Z) :=
  let! '(res, limbs) := str_to_limb_arr (Some str) mode (Some [0; 0; 0; 0]) in
  match res with
  | OK => Ok (Int32LimbsToInt64 (default [] limbs))
  | TOO_LARGE | BAD_ARGUMENT | BAD_STRING => Throw ValidationError
  end.

Definition Int128ToString (x : Int128) : result bytes :=
  Int64LimbsToStr (Int128Low64 x, wrap 64 (Int128High64 x)) SIGNED.

Definition UInt128ToString (x : UInt128) : result bytes :=
  Int64LimbsToStr (UInt128Low64 x, UInt128High64 x) UNSIGNED.

Definition StringToInt128 (str : bytes) : result Int128 :=
  let! ret := StringToInt64Limbs str SIGNED in
  Ok (MakeInt128 (swrap 64 (snd ret)) (fst ret)).

Definition StringToUInt128 (str : bytes) : result UInt128 :=
  let! ret := StringToInt64Limbs str UNSIGNED in
  Ok (MakeUInt128 (snd ret) (fst ret)).

(** ** Values *)

Definition limbs_ok (limbs : list Z) : Prop := Forall (is_u 32) limbs.

(** The unsigned number an array stands for. *)
Fixpoint limbs_value (limbs : list Z) : Z :=
  match limbs with
  | [] => 0
  | limb :: limbs => limb + 2 ^ 32 * limbs_value limbs
  end.

(** [2 ^ w] for an array of the given length. *)
Definition modulus (size : nat) : Z := 2 ^ (32 * Z.of_nat size).

Lemma modulus_S (size : nat) : modulus (S size) = 2 ^ 32 * modulus size.
Proof. unfold modulus. rewrite <- Z.pow_add_r by lia. f_equal. lia. Qed.

Lemma modulus_pos (size : nat) : 0 < modulus size.
Proof. unfold modulus. lia. Qed.

Lemma limbs_range (limbs : list Z) : limbs_ok limbs -> 0 <= limbs_value limbs < modulus (length limbs).
Proof.
  induction 1 as [|x l Hx _ IH]; [cbv; split; congruence|]. cbn [limbs_value length]. rewrite modulus_S.
  unfold is_u in Hx. nia.
Qed.

Lemma limbs_value_app (l : list Z) (t : Z) : limbs_value (l ++ [t]) = limbs_value l + modulus (length l) * t.
Proof.
  induction l as [|x l IH]; [cbn; unfold modulus; cbn; lia|]. cbn [limbs_value length app]. rewrite modulus_S, IH. lia.
Qed.

Lemma limbs_value_inj (l k : list Z) : limbs_ok l -> limbs_ok k -> length l = length k -> limbs_value l = limbs_value k -> l = k.
Proof.
  intros Hl. revert k. induction Hl as [|x l Hx _ IH]; intros k Hk Hlen Hv; [by destruct k|].
  destruct Hk as [|y k Hy Hk]; [done|]. cbn [limbs_value] in Hv. unfold is_u in Hx, Hy. injection Hlen as Hlen.
  assert (x = y /\ limbs_value l = limbs_value k) as [-> Hv'] by lia. f_equal. by apply IH.
Qed.

Lemma fold_lor_zero (l : list Z) (a : Z) : fold_left Z.lor l a = 0 <-> a = 0 /\ Forall (eq 0) l.
Proof.
  revert a. induction l as [|x l IH]; intros a; cbn [fold_left].
  - split; [by split|by intros [? _]].
  - rewrite IH, Z.lor_eq_0_iff, Forall_cons. split; [intros [[? ?] ?]|intros [? [? ?]]]; split_and!; done.
Qed.

Lemma zero_limbs (l : list Z) : limbs_ok l -> Forall (eq 0) l <-> limbs_value l = 0.
Proof.
  induction 1 as [|x l Hx Hl IH]; [by split|]. rewrite Forall_cons, IH. cbn [limbs_value].
  pose proof (limbs_range l Hl). unfold is_u in Hx. lia.
Qed.

Lemma is_zero_value (l : list Z) : limbs_ok l -> limb_arr_is_zero l = (limbs_value l =? 0).
Proof.
  intros Hl. unfold limb_arr_is_zero. apply eq_iff_eq_true. rewrite !Z.eqb_eq, fold_lor_zero, (zero_limbs l Hl). tauto.
Qed.

(** *** Arithmetic *)

Lemma mod_mul_split (a b m t : Z) : 0 <= a < b -> 0 < m -> (a + b * t) mod (b * m) = a + b * (t mod m).
Proof.
  intros Ha Hm. rewrite Z.rem_mul_r by lia.
  rewrite (Z.mul_comm b t), Z.mod_add, Z.mod_small, Z.div_add, Z.div_small by lia. f_equal.
Qed.

Lemma lnot_wrap (x : Z) : is_u 32 x -> wrap 32 (Z.lnot x) = 2 ^ 32 - 1 - x.
Proof.
  unfold is_u, wrap, Z.lnot. intros Hx. replace (Z.pred (- x)) with (2 ^ 32 - 1 - x + (-1) * 2 ^ 32) by lia.
  rewrite Z.mod_add by lia. apply Z.mod_small. lia.
Qed.

Lemma negate_loop_ok (carry : Z) (l : list Z) : carry = 0 \/ carry = 1 -> limbs_ok l ->
  limbs_ok (negate_loop carry l) /\ length (negate_loop carry l) = length l /\
  limbs_value (negate_loop carry l) = (carry - 1 - limbs_value l) mod modulus (length l).
Proof.
  intros Hc Hl. revert carry Hc. induction Hl as [|x l Hx Hl IH]; intros carry Hc.
  - split_and!; [constructor|done|]. cbn. by rewrite Z.mod_1_r.
  - cbn [negate_loop length limbs_value]. rewrite lnot_wrap by done. set (y := wrap 32 (2 ^ 32 - 1 - x + carry)).
    pose proof (wrap_range 32 (2 ^ 32 - 1 - x + carry) ltac:(lia)) as Hy. fold y in Hy.
    assert (y + 2 ^ 32 * (if y <? carry then 1 else 0) = 2 ^ 32 - 1 - x + carry) as Hadd.
    { unfold is_u in Hx. destruct (Z.eq_dec (2 ^ 32 - 1 - x + carry) (2 ^ 32)) as [E|E].
      - assert (y = 0) as -> by (unfold y; by rewrite E). rewrite (proj2 (Z.ltb_lt 0 carry)) by lia. lia.
      - assert (y = 2 ^ 32 - 1 - x + carry) as -> by (unfold y; apply wrap_id; unfold is_u; lia).
        rewrite (proj2 (Z.ltb_ge _ carry)) by lia. lia. }
    destruct (IH (if y <? carry then 1 else 0)) as (Hok & Hlen & Hv); [destruct (y <? carry); lia|].
    split_and!; [by constructor|by rewrite Hlen|]. cbn [limbs_value]. rewrite Hv, modulus_S.
    rewrite <- mod_mul_split by (unfold is_u in Hy; pose proof (modulus_pos (length l)); lia). f_equal. lia.
Qed.

Lemma lor_shiftl (r x : Z) : 0 <= r -> is_u 32 x -> Z.lor (Z.shiftl r 32) x = r * 2 ^ 32 + x.
Proof.
  unfold is_u. intros Hr Hx. pose proof (Z.add_lor_land (Z.shiftl r 32) x) as Hadd.
  assert (Z.land (Z.shiftl r 32) x = 0) as E.
  { apply Z.bits_inj'. intros n Hn. rewrite Z.land_spec, Z.bits_0. destruct (Z.lt_ge_cases n 32).
    - by rewrite Z.shiftl_spec_low.
    - rewrite (Z.bits_above_log2 x n), andb_false_r; [done|lia|].
      destruct (Z.eq_dec x 0) as [->|]; [cbn; lia|]. assert (Z.log2 x < 32) by (apply Z.log2_lt_pow2; lia). lia. }
  rewrite E, Z.shiftl_mul_pow2 in * by lia. lia.
Qed.

Lemma divmod_ok (d : Z) (l : list Z) : 0 < d <= 2 ^ 32 -> limbs_ok l ->
  let '(q, r) := limb_arr_divmod_inplace l d in
  limbs_ok q /\ length q = length l /\ 0 <= r < d /\ limbs_value l = limbs_value q * d + r.
Proof.
  intros Hd. induction 1 as [|x l Hx Hl IH]; [cbn; split_and!; [constructor|done|lia|lia|lia]|].
  cbn [limb_arr_divmod_inplace]. destruct (limb_arr_divmod_inplace l d) as [q r]. destruct IH as (Hq & Hlen & Hr & Hv).
  rewrite lor_shiftl by (done || lia). unfold is_u in Hx. set (acc := r * 2 ^ 32 + x).
  pose proof (Z.div_mod acc d ltac:(lia)) as Hdm. pose proof (Z.mod_pos_bound acc d ltac:(lia)) as Hm.
  assert (is_u 32 (acc / d)) as Hdiv.
  { unfold is_u. split; [apply Z.div_pos; lia|apply Z.div_lt_upper_bound; nia]. }
  rewrite !wrap_id by (done || unfold is_u; lia). split_and!; [by constructor|cbn; by rewrite Hlen|lia|lia|].
  cbn [limbs_value]. rewrite Hv. unfold acc in *. nia.
Qed.

Lemma muladd_ok (mul : Z) (l : list Z) : is_u 32 mul -> limbs_ok l -> forall carry, is_u 32 carry ->
  let '(l', c) := muladd_loop l mul carry in
  limbs_ok l' /\ length l' = length l /\ is_u 32 c /\ limbs_value l' + modulus (length l) * c = limbs_value l * mul + carry.
Proof.
  intros Hm. induction 1 as [|x l Hx Hl IH]; intros carry Hc.
  - cbn. rewrite wrap_id by done. split_and!; [constructor|done|done|]. change (modulus 0) with 1. lia.
  - cbn [muladd_loop]. unfold is_u in *. assert (0 <= x * mul + carry < 2 ^ 32 * 2 ^ 32) as Hacc by nia.
    rewrite (wrap_id 64) by (unfold is_u; lia). set (acc := x * mul + carry) in *.
    rewrite Z.shiftr_div_pow2 by lia. pose proof (Z.div_mod acc (2 ^ 32) ltac:(lia)) as Hdm.
    assert (0 <= acc / 2 ^ 32 < 2 ^ 32) as Hd by (split; [apply Z.div_pos; lia|apply Z.div_lt_upper_bound; lia]).
    specialize (IH _ Hd). destruct (muladd_loop l mul (acc / 2 ^ 32)) as [rest c]. destruct IH as (Hr & Hlen & Hc' & Hv).
    split_and!; [constructor; [apply (wrap_range 32); lia|done]|cbn; by rewrite Hlen|lia|lia|].
    cbn [limbs_value length]. rewrite modulus_S. unfold wrap, acc in *. lia.
Qed.

(** *** The sign *)

Lemma limbs_snoc (l : list Z) (n : nat) : length l = S n -> exists k t, l = k ++ [t] /\ length k = n.
Proof.
  destruct l as [|x l _] using rev_ind; [done|]. intros Hl. rewrite length_app in Hl. cbn in Hl. exists l, x. split; [done|lia].
Qed.

Lemma testbit_31 (t : Z) : is_u 32 t -> negb (Z.land t (2 ^ 31) =? 0) = (2 ^ 31 <=? t).
Proof.
  unfold is_u. intros Ht. assert (Z.land t (2 ^ 31) = if Z.testbit t 31 then 2 ^ 31 else 0) as ->.
  { apply Z.bits_inj'. intros n Hn. rewrite Z.land_spec, Z.pow2_bits_eqb by lia. destruct (Z.eqb_spec 31 n) as [<-|E].
    - rewrite andb_true_r. destruct (Z.testbit t 31); [by rewrite Z.pow2_bits_true by lia|by rewrite Z.bits_0].
    - rewrite andb_false_r. destruct (Z.testbit t 31); [by rewrite Z.pow2_bits_false by lia|by rewrite Z.bits_0]. }
  assert (Z.testbit t 31 = (2 ^ 31 <=? t)) as ->; [|by destruct (2 ^ 31 <=? t)].
  destruct (Z.leb_spec (2 ^ 31) t) as [Hle|Hlt]; [apply Z.testbit_true; [lia|]|apply Z.testbit_false; [lia|]].
  - assert (t / 2 ^ 31 = 1) as ->; [|done]. symmetry. apply Z.div_unique with (t - 2 ^ 31); lia.
  - by rewrite Z.div_small by lia.
Qed.

Definition half (size : nat) : Z := 2 ^ (32 * Z.of_nat size - 1).

Lemma half_S (n : nat) : half (S n) = modulus n * 2 ^ 31 /\ modulus (S n) = 2 * half (S n).
Proof.
  unfold half, modulus. rewrite <- Z.pow_add_r by lia. split; [f_equal; lia|].
  rewrite <- (Z.pow_succ_r 2) by lia. f_equal. lia.
Qed.

Lemma top_bit_ok (l : list Z) : limbs_ok l -> l <> [] -> top_bit l = (half (length l) <=? limbs_value l).
Proof.
  intros Hl Hne. destruct l as [|x l _] using rev_ind; [done|]. unfold top_bit. rewrite last_snoc.
  apply Forall_app in Hl as [Hl [Hx _]%Forall_cons]. rewrite testbit_31 by done. rewrite limbs_value_app, length_app, Nat.add_1_r.
  destruct (half_S (length l)) as [-> _]. pose proof (limbs_range l Hl). unfold is_u in Hx.
  apply eq_iff_eq_true. rewrite !Z.leb_le. nia.
Qed.

Lemma signed_min_ok (l : list Z) : limbs_ok l -> l <> [] -> limb_arr_is_signed_min l = (limbs_value l =? half (length l)).
Proof.
  intros Hl Hne. destruct l as [|x l _] using rev_ind; [done|]. unfold limb_arr_is_signed_min. rewrite last_snoc, removelast_last.
  apply Forall_app in Hl as [Hl [Hx _]%Forall_cons]. fold (limb_arr_is_zero l). rewrite is_zero_value by done.
  rewrite limbs_value_app, length_app, Nat.add_1_r. destruct (half_S (length l)) as [-> _].
  pose proof (limbs_range l Hl). unfold is_u in Hx. apply eq_iff_eq_true. rewrite andb_true_iff, !Z.eqb_eq.
  split; [intros [-> ->]; lia|intros E]. assert (x = 2 ^ 31) as -> by nia. lia.
Qed.

(** ** Parsing *)

Definition digits (l : bytes) : Prop := Forall (fun c => is_digit c = true) l.

Lemma digits_forallb (l : bytes) : forallb is_digit l = true <-> digits l.
Proof. unfold digits. by rewrite forallb_forall, List.Forall_forall. Qed.

Lemma is_digit_range (c : byte) : is_digit c = true -> 0 <= b2z c - 48 <= 9.
Proof. unfold is_digit. rewrite andb_true_iff, !Z.leb_le. lia. Qed.

Lemma dec_value_app (a : Z) (l k : bytes) : dec_value a (l ++ k) = dec_value (dec_value a l) k.
Proof. unfold dec_value. apply fold_left_app. Qed.

Lemma dec_value_acc (l : bytes) : forall a, dec_value a l = a * 10 ^ zlen l + dec_value 0 l.
Proof.
  induction l as [|c l IH]; intros a; [unfold dec_value; rewrite zlen_nil; cbn; lia|]. unfold dec_value. cbn [fold_left]. fold (dec_value (a * 10 + (b2z c - 48)) l).
  fold (dec_value (0 * 10 + (b2z c - 48)) l). rewrite (IH (a * 10 + _)), (IH (0 * 10 + _)), zlen_cons.
  rewrite Z.pow_add_r by (pose proof (zlen_nonneg l); lia). lia.
Qed.

Lemma dec_value_range (l : bytes) : digits l -> 0 <= dec_value 0 l < 10 ^ zlen l.
Proof.
  induction 1 as [|c l Hc Hl IH]; [vm_compute; split; congruence|]. unfold dec_value. cbn [fold_left]. fold (dec_value (0 * 10 + (b2z c - 48)) l).
  rewrite dec_value_acc, zlen_cons. pose proof (is_digit_range c Hc). rewrite Z.pow_add_r by (pose proof (zlen_nonneg l); lia). nia.
Qed.

Lemma dec_value_grows (a : Z) (l : bytes) : digits l -> 0 <= a -> a <= dec_value a l.
Proof.
  intros Hd Ha. rewrite dec_value_acc. pose proof (dec_value_range _ Hd). pose proof (zlen_nonneg l).
  assert (1 <= 10 ^ zlen l) by lia. nia.
Qed.

Lemma read_chunk_ok (n : nat) : forall (chunk : Z) (l : bytes), digits l -> (n <= length l)%nat -> 0 <= chunk -> (chunk + 1) * 10 ^ Z.of_nat n <= 2 ^ 32 ->
  read_chunk n chunk l = Ok (dec_value chunk (take n l), drop n l).
Proof.
  induction n as [|n IH]; intros chunk l Hd Hn Hc Hb; [done|]. destruct Hd as [|c l Hcd Hl]; [cbn in Hn; lia|].
  cbn [read_chunk take drop length] in *. pose proof (is_digit_range c Hcd) as Hr.
  rewrite Nat2Z.inj_succ, Z.pow_succ_r in Hb by lia.
  assert (1 <= 10 ^ Z.of_nat n) by lia.
  rewrite (wrap_id 32 (b2z c - 48)) by (unfold is_u; lia). rewrite wrap_id by (unfold is_u; nia).
  rewrite IH; [done|done|lia|lia|]. nia.
Qed.

(** A chunk of [n] digits continues the number, unless it overflows. *)
Lemma add_chunk_ok (n : nat) (l : bytes) (limbs : list Z) : (n <= 9)%nat -> digits l -> (n <= length l)%nat -> limbs_ok limbs ->
  let v := dec_value (limbs_value limbs) (take n l) in
  exists fits limbs', add_chunk n (10 ^ Z.of_nat n) l limbs = Ok (fits, drop n l, limbs') /\
    limbs_ok limbs' /\ length limbs' = length limbs /\ fits = (v <? modulus (length limbs)) /\ (fits = true -> limbs_value limbs' = v).
Proof.
  intros Hn Hd Hl Hok v. assert (10 ^ Z.of_nat n <= 10 ^ 9) as Hpow by (apply Z.pow_le_mono_r; lia).
  unfold add_chunk. rewrite read_chunk_ok by (done || lia). cbn [rbind].
  assert (digits (take n l)) as Hdt by (by apply Forall_take). pose proof (dec_value_range _ Hdt) as Hr.
  assert (zlen (take n l) = Z.of_nat n) as Hz by (unfold zlen; rewrite length_take; lia). rewrite Hz in Hr.
  pose proof (muladd_ok (10 ^ Z.of_nat n) limbs ltac:(unfold is_u; lia) Hok (dec_value 0 (take n l)) ltac:(unfold is_u; lia)) as Hm.
  unfold limb_arr_muladd_inplace. destruct (muladd_loop limbs _ _) as [limbs' carry]. destruct Hm as (Hok' & Hlen & Hc & Hv).
  assert (v = limbs_value limbs' + modulus (length limbs) * carry) as Hv' by (unfold v; rewrite dec_value_acc, Hz; lia).
  pose proof (limbs_range limbs' Hok') as Hr'. rewrite Hlen in Hr'. unfold is_u in Hc.
  eexists _, limbs'. split; [reflexivity|]. split_and!; [done|done| |].
  - rewrite Hv'. apply eq_iff_eq_true. rewrite Z.eqb_eq, Z.ltb_lt. nia.
  - rewrite Z.eqb_eq. intros ->. lia.
Qed.

Lemma add_chunks_ok (k : nat) : forall (fuel : nat) (l : bytes) (limbs : list Z), digits l -> length l = (9 * k)%nat -> (k <= fuel)%nat -> limbs_ok limbs ->
  let v := dec_value (limbs_value limbs) l in
  exists fits limbs', add_chunks fuel l limbs = Ok (fits, limbs') /\
    limbs_ok limbs' /\ length limbs' = length limbs /\ fits = (v <? modulus (length limbs)) /\ (fits = true -> limbs_value limbs' = v).
Proof.
  induction k as [|k IH]; intros fuel l limbs Hd Hl Hf Hok v.
  - destruct l; [|done]. destruct fuel; exists true, limbs; (split; [done|]); split_and!; try done;
      unfold v; cbn; symmetry; apply Z.ltb_lt, limbs_range, Hok.
  - destruct fuel as [|fuel]; [lia|]. destruct (add_chunk_ok 9 l limbs ltac:(lia) Hd ltac:(lia) Hok) as (fits & limbs1 & E & Hok1 & Hlen1 & Hfits & Hv1).
    assert (v = dec_value (dec_value (limbs_value limbs) (take 9 l)) (drop 9 l)) as Hv by (unfold v; by rewrite <- dec_value_app, take_drop).
    destruct l as [|c l']; [done|]. set (l := c :: l') in *. unfold add_chunks; fold add_chunks. change uint32_max_pow10 with (10 ^ Z.of_nat 9).
    unfold l at 1. rewrite E. cbn [rbind]. assert (digits (drop 9 l)) as Hd' by (by apply Forall_drop). destruct fits.
    + specialize (Hv1 eq_refl). destruct (IH fuel (drop 9 l) limbs1 Hd') as (fits2 & limbs2 & E2 & Hok2 & Hlen2 & Hfits2 & Hv2);
        [rewrite length_drop; lia|lia|done|]. rewrite Hv1 in *. rewrite Hlen1 in *. exists fits2, limbs2. rewrite E2. by rewrite Hv.
    + exists false, limbs1. split_and!; [done|done|done| |done]. rewrite Hv. symmetry in Hfits |- *. rewrite Z.ltb_ge in *.
      pose proof (modulus_pos (length limbs)). etransitivity; [exact Hfits|]. apply dec_value_grows; [done|lia].
Qed.

(** The number a text denotes. *)
Definition split_sign (mode : SignMode) (str : bytes) : bool * bytes :=
  match mode, str with
  | SIGNED, c :: rest => if bool_decide (c = "-"%byte) then (true, rest) else (false, str)
  | _, _ => (false, str)
  end.

Definition text_value (mode : SignMode) (str : bytes) : option Z :=
  let '(negative, ds) := split_sign mode str in
  if negb (zlen ds =? 0) && forallb is_digit ds then Some (if negative : bool then - dec_value 0 ds else dec_value 0 ds) else None.

(** The number an array stands for, and the numbers of a width. *)
Definition limbs_int (mode : SignMode) (limbs : list Z) : Z :=
  match mode with
  | UNSIGNED => limbs_value limbs
  | SIGNED => swrap (32 * zlen limbs) (limbs_value limbs)
  end.

Definition in_range (mode : SignMode) (size : nat) (v : Z) : Prop :=
  match mode with
  | UNSIGNED => 0 <= v < modulus size
  | SIGNED => - half size <= v < half size
  end.

Definition supported (size : nat) : Prop := size = 4%nat \/ size = 8%nat \/ size = 16%nat.

(** Reading the digits, before the sign is looked at. *)
Lemma parse_digits (l : bytes) (limbs : list Z) : digits l ->
  exists fits limbs',
    (let! '(fits, str, limbs) :=
       if (length l mod 9 =? 0)%nat then Ok (true, l, map (fun _ => 0) limbs)
       else add_chunk (length l mod 9) (nth (length l mod 9) pow_10 0) l (map (fun _ => 0) limbs) in
     if negb fits then Ok (false, limbs) else add_chunks (length str) str limbs) = Ok (fits, limbs') /\
    limbs_ok limbs' /\ length limbs' = length limbs /\ fits = (dec_value 0 l <? modulus (length limbs)) /\
    (fits = true -> limbs_value limbs' = dec_value 0 l).
Proof.
  intros Hd. set (z := map (fun _ => 0) limbs). set (r := (length l mod 9)%nat).
  assert (limbs_ok z /\ length z = length limbs /\ limbs_value z = 0) as (Hok & Hlen & Hz).
  { unfold z. split_and!; [|by rewrite length_map|]; induction limbs as [|x limbs IH]; cbn; [constructor| |done|by rewrite IH].
    constructor; [unfold is_u; lia|apply IH]. }
  pose proof (Nat.div_mod_eq (length l) 9) as Hdm. pose proof (Nat.mod_upper_bound (length l) 9 ltac:(lia)) as Hr. fold r in Hdm, Hr.
  destruct (Nat.eqb_spec r 0) as [E0|E0].
  - cbn [rbind negb]. destruct (add_chunks_ok (length l / 9) (length l) l z Hd ltac:(lia) ltac:(lia) Hok) as (fits & limbs' & E & H1 & H2 & H3 & H4).
    rewrite Hlen, Hz in *. by exists fits, limbs'.
  - assert (nth r pow_10 0 = 10 ^ Z.of_nat r) as -> by (do 9 (destruct r as [|r]; [done|]); lia).
    destruct (add_chunk_ok r l z ltac:(lia) Hd ltac:(lia) Hok) as (fits & limbs1 & E & H1 & H2 & H3 & H4). rewrite E. cbn [rbind].
    rewrite Hz, Hlen in *. assert (digits (drop r l)) as Hd' by (by apply Forall_drop).
    assert (dec_value 0 l = dec_value (dec_value 0 (take r l)) (drop r l)) as Hv by (by rewrite <- dec_value_app, take_drop).
    destruct fits; cbn [negb].
    + specialize (H4 eq_refl). destruct (add_chunks_ok (length l / 9) (length (drop r l)) (drop r l) limbs1 Hd') as (fits2 & limbs2 & E2 & K1 & K2 & K3 & K4);
        [rewrite length_drop; lia|rewrite length_drop; lia|done|]. exists fits2, limbs2. rewrite H4, H2 in *. by rewrite E2, Hv.
    + exists false, limbs1. split_and!; [done|done|done| |done]. symmetry in H3 |- *. rewrite Z.ltb_ge in *. rewrite Hv.
      pose proof (modulus_pos (length limbs)). etransitivity; [exact H3|]. apply dec_value_grows; [done|lia].
Qed.

(** The limbs of a number in range, as a number. *)
Lemma swrap_limbs (limbs : list Z) (v : Z) : limbs <> [] -> limbs_value limbs = v mod modulus (length limbs) ->
  in_range SIGNED (length limbs) v -> limbs_int SIGNED limbs = v.
Proof.
  intros Hne Hv Hr. unfold limbs_int. rewrite Hv. pose proof (zlen_pos limbs Hne) as Hz. change (modulus (length limbs)) with (2 ^ (32 * zlen limbs)).
  fold (wrap (32 * zlen limbs) v). rewrite swrap_wrap by lia. apply swrap_id; [lia|]. exact Hr.
Qed.

Lemma supported_S (n : nat) : supported n -> exists m, n = S m.
Proof. intros [-> |[-> | ->]]; by eexists. Qed.

Lemma supported_len (limbs : list Z) : supported (length limbs) -> (limb_arr_str_len (zlen limbs) =? 0) = false.
Proof. unfold zlen. by intros [-> |[-> | ->]]. Qed.

Lemma too_large_out (mode : SignMode) (negative : bool) (n : nat) (v : Z) : supported n -> (v <? modulus n) = false ->
  (negative = true -> mode = SIGNED) -> ~ in_range mode n (if negative then - v else v).
Proof.
  intros [m ->]%supported_S Hv%Z.ltb_ge Hneg. destruct (half_S m) as [_ HM]. unfold in_range.
  pose proof (modulus_pos (S m)). destruct mode, negative; lia.
Qed.

(** The checks of the sign, once the digits fit. *)
Lemma parse_sign (mode : SignMode) (negative : bool) (limbs : list Z) (v : Z) : limbs_ok limbs -> limbs <> [] ->
  limbs_value limbs = v -> (negative = true -> mode = SIGNED) ->
  let n := if negative then - v else v in
  exists st limbs',
    (if bool_decide (mode = SIGNED) && negb negative && top_bit limbs then Ok (TOO_LARGE, Some limbs) else
     if negative && top_bit limbs && negb (limb_arr_is_signed_min limbs) then Ok (TOO_LARGE, Some limbs) else
     if negative then Ok (OK, Some (limb_arr_negate_inplace limbs)) else Ok (OK, Some limbs)) = Ok (st, Some limbs') /\
    (in_range mode (length limbs) n -> st = OK /\ limbs_ok limbs' /\ length limbs' = length limbs /\ limbs_int mode limbs' = n) /\
    (~ in_range mode (length limbs) n -> st = TOO_LARGE).
Proof.
  intros Hok Hne Hv Hneg n. rewrite top_bit_ok, signed_min_ok by done. rewrite Hv.
  pose proof (limbs_range limbs Hok) as Hr. rewrite Hv in Hr.
  destruct (length limbs) as [|m] eqn:Hl; [by destruct limbs|]. destruct (half_S m) as [_ HM]. rewrite HM in Hr.
  destruct negative; [rewrite (Hneg eq_refl) in *|]; cbn [negb andb]; rewrite ?andb_false_r, ?andb_true_r.
  - destruct (Z.leb_spec (half (S m)) v) as [H1|H1]; destruct (Z.eqb_spec v (half (S m))) as [H2|H2]; cbn [negb andb];
      try (eexists _, _; split; [reflexivity|]; unfold in_range, n; split; [lia|done]).
    all: destruct (negate_loop_ok 1 limbs ltac:(by right) Hok) as (K1 & K2 & K3); rewrite Hl, Hv in *;
      eexists _, _; split; [reflexivity|]; split; [|unfold in_range, n; lia]; intros Hin; split_and!; [done|done|done|];
      apply swrap_limbs; [by intros Hz; unfold limb_arr_negate_inplace in Hz; rewrite Hz in K2|
        unfold limb_arr_negate_inplace; rewrite K2, K3; f_equal; unfold n; lia|unfold limb_arr_negate_inplace; by rewrite K2].
  - destruct mode; cbn [bool_decide andb].
    + exists OK, limbs. split; [done|]. unfold in_range, n, limbs_int. split; [|lia]. by rewrite Hl.
    + rewrite bool_decide_true by done. cbn [andb]. destruct (Z.leb_spec (half (S m)) v) as [H1|H1]; eexists _, _; (split; [reflexivity|]).
      * unfold in_range, n. split; [lia|done].
      * split; [|unfold in_range, n; lia]. intros Hin. split_and!; [done|done|done|]. apply swrap_limbs; [done| |by rewrite Hl].
        rewrite Hl, Hv, Z.mod_small; [done|lia].
Qed.

Lemma str_to_limb_arr_ok (mode : SignMode) (str : bytes) (limbs : list Z) : supported (length limbs) ->
  exists st limbs', str_to_limb_arr (Some str) mode (Some limbs) = Ok (st, Some limbs') /\
    match text_value mode str with
    | None => st = BAD_STRING
    | Some v =>
      (in_range mode (length limbs) v -> st = OK /\ limbs_ok limbs' /\ length limbs' = length limbs /\ limbs_int mode limbs' = v) /\
      (~ in_range mode (length limbs) v -> st = TOO_LARGE)
    end.
Proof.
  intros Hs. unfold str_to_limb_arr, text_value. rewrite (supported_len _ Hs). fold (split_sign mode str).
  assert (fst (split_sign mode str) = true -> mode = SIGNED) as Hneg by (by destruct mode).
  destruct (split_sign mode str) as [negative ds]. cbn [fst] in Hneg.
  destruct (zlen ds =? 0); [by eexists _, _|]. cbn [negb andb].
  destruct (forallb is_digit ds) eqn:Hd; cbn [negb]; [|by eexists _, _]. apply digits_forallb in Hd.
  destruct (parse_digits ds limbs Hd) as (fits & l2 & E & Hok & Hlen & Hfits & Hv).
  match type of E with rbind ?x _ = _ => destruct x as [[[f1 s1] l1]|e] eqn:E1; [|done] end. cbn [rbind] in E |- *.
  destruct f1; cbn [negb] in E |- *; [rewrite E; cbn [rbind]|injection E as <- <-].
  - destruct fits; cbn [negb].
    + destruct (supported_S _ Hs) as [m Hm]. assert (l2 <> []) as Hne by (intros ->; by rewrite Hm in Hlen).
      destruct (parse_sign mode negative l2 (dec_value 0 ds) Hok Hne (Hv eq_refl) Hneg) as (st & l' & E' & K1 & K2).
      exists st, l'. rewrite Hlen in K1, K2. by split.
    + eexists _, _. split; [done|]. split; [|done]. intros Hin. by destruct (too_large_out mode negative _ _ Hs (eq_sym Hfits) Hneg).
  - eexists _, _. split; [done|]. split; [|done]. intros Hin. by destruct (too_large_out mode negative _ _ Hs (eq_sym Hfits) Hneg).
Qed.

(** ** Printing *)

Definition digit (n : Z) : byte := z2b (48 + n mod 10).

(** The last [k] digits of a number. *)
Fixpoint last_digits (k : nat) (n : Z) : bytes :=
  match k with
  | O => []
  | S k => last_digits k (n / 10) ++ [digit n]
  end.

Lemma zlen_last_digits (k : nat) : forall n, zlen (last_digits k n) = Z.of_nat k.
Proof. induction k as [|k IH]; intros n; [done|]. cbn [last_digits]. rewrite zlen_app, IH. change (zlen [digit n]) with 1. lia. Qed.

Lemma dec_digits_fuel (fuel : nat) : forall n acc, 0 <= n < 2 ^ Z.of_nat fuel -> (0 < fuel)%nat ->
  forall fuel', 0 <= n < 2 ^ Z.of_nat fuel' -> (0 < fuel')%nat -> dec_digits fuel n acc = dec_digits fuel' n [] ++ acc.
Proof.
  assert (forall fuel n acc acc', dec_digits fuel n (acc ++ acc') = dec_digits fuel n acc ++ acc') as Happ.
  { intros f. induction f as [|f IH]; intros n acc acc'; [done|]. cbn [dec_digits]. rewrite app_comm_cons, IH. by destruct (n / 10 =? 0). }
  induction fuel as [|fuel IH]; intros n acc Hn Hf [|fuel'] Hn' Hf'; try lia. cbn [dec_digits].
  destruct (Z.eqb_spec (n / 10) 0) as [E|E]; [done|].
  rewrite Nat2Z.inj_succ, Z.pow_succ_r in Hn, Hn' by lia.
  pose proof (Z.div_mod n 10 ltac:(lia)). pose proof (Z.mod_pos_bound n 10 ltac:(lia)).
  assert (0 < fuel)%nat by (destruct fuel; [cbn in Hn|]; lia). assert (0 < fuel')%nat by (destruct fuel'; [cbn in Hn'|]; lia).
  rewrite <- (Happ fuel' (n / 10) [z2b (48 + n mod 10)] acc).
  rewrite (IH (n / 10) _ ltac:(lia) ltac:(done) fuel' ltac:(lia) ltac:(done)). by rewrite <- Happ.
Qed.

Lemma dec_nonneg_small (n : Z) : 0 <= n < 10 -> dec_nonneg n = [digit n].
Proof. intros Hn. unfold dec_nonneg. cbn [dec_digits]. by rewrite Z.div_small by lia. Qed.

Lemma dec_nonneg_step (n : Z) : 10 <= n -> dec_nonneg n = dec_nonneg (n / 10) ++ [digit n].
Proof.
  intros Hn. unfold dec_nonneg at 1. cbn [dec_digits].
  assert (1 <= n / 10) as Hd by (apply Z.div_le_lower_bound; lia).
  rewrite (proj2 (Z.eqb_neq _ _)) by lia. pose proof (log2_fuel n ltac:(lia)) as Hf.
  rewrite Nat2Z.inj_succ, Z.pow_succ_r in Hf by lia. pose proof (Z.div_mod n 10 ltac:(lia)). pose proof (Z.mod_pos_bound n 10 ltac:(lia)).
  assert (1 <= Z.log2 n) by (apply Z.log2_le_pow2; lia).
  unfold dec_nonneg. apply dec_digits_fuel; [lia|lia|split; [lia|apply log2_fuel; lia]|lia].
Qed.

Lemma dec_nonneg_split (k : nat) : forall q r, 0 < q -> 0 <= r < 10 ^ Z.of_nat k ->
  dec_nonneg (q * 10 ^ Z.of_nat k + r) = dec_nonneg q ++ last_digits k r.
Proof.
  induction k as [|k IH]; intros q r Hq Hr; [change (10 ^ Z.of_nat 0) with 1 in *; cbn [last_digits]; rewrite app_nil_r; f_equal; lia|].
  rewrite Nat2Z.inj_succ, Z.pow_succ_r in * by lia. set (P := 10 ^ Z.of_nat k) in *.
  assert (1 <= P) by (unfold P; lia). pose proof (Z.div_mod r 10 ltac:(lia)) as Hdm. pose proof (Z.mod_pos_bound r 10 ltac:(lia)).
  rewrite dec_nonneg_step by nia. cbn [last_digits].
  assert ((q * (10 * P) + r) / 10 = q * P + r / 10) as ->
    by (replace (q * (10 * P) + r) with (r + (q * P) * 10) by lia; rewrite Z.div_add by lia; lia).
  assert (digit (q * (10 * P) + r) = digit r) as ->.
  { unfold digit. replace (q * (10 * P) + r) with (r + (q * P) * 10) by lia. by rewrite Z.mod_add by lia. }
  rewrite IH by lia. by rewrite <- app_assoc.
Qed.

Lemma dec_nonneg_zlen (k : nat) : forall n, (0 < k)%nat -> 0 <= n < 10 ^ Z.of_nat k -> zlen (dec_nonneg n) <= Z.of_nat k.
Proof.
  induction k as [|k IH]; intros n Hk Hn; [lia|]. destruct (Z.lt_ge_cases n 10) as [Hs|Hs].
  - rewrite dec_nonneg_small by lia. change (zlen [digit n]) with 1. lia.
  - rewrite dec_nonneg_step, zlen_app by done. change (zlen [digit n]) with 1.
    rewrite Nat2Z.inj_succ, Z.pow_succ_r in Hn by lia. assert (n / 10 < 10 ^ Z.of_nat k) by (apply Z.div_lt_upper_bound; lia).
    assert (1 <= n / 10) by (apply Z.div_le_lower_bound; lia).
    assert (0 < k)%nat by (destruct k; [cbn in *; lia|lia]). specialize (IH (n / 10) ltac:(done) ltac:(lia)). lia.
Qed.

(** *** The loops *)
Section Buffer.
Context (buf_len : Z).

Lemma push_front_ok (c : byte) (it : bytes) : zlen it < buf_len -> push_front buf_len c it = Ok (c :: it).
Proof. intros H. unfold push_front. by rewrite (proj2 (Z.ltb_lt _ _) H). Qed.

Lemma push_digits_ok (k : nat) : forall chunk it, Z.of_nat k + zlen it <= buf_len ->
  push_digits buf_len k chunk it = Ok (last_digits k chunk ++ it).
Proof.
  induction k as [|k IH]; intros chunk it Hr; [done|]. cbn [push_digits last_digits]. rewrite push_front_ok by lia. cbn [rbind].
  rewrite IH by (rewrite zlen_cons; lia). by rewrite <- app_assoc.
Qed.

Lemma push_chunk_ok (fuel : nat) : forall chunk it, 0 < chunk < 10 ^ Z.of_nat fuel -> zlen (dec_nonneg chunk) + zlen it <= buf_len ->
  push_chunk buf_len fuel chunk it = Ok (dec_nonneg chunk ++ it).
Proof.
  induction fuel as [|fuel IH]; intros chunk it Hc Hr; [cbn in Hc; lia|]. cbn [push_chunk].
  rewrite (proj2 (Z.eqb_neq _ _)) by lia. rewrite Nat2Z.inj_succ, Z.pow_succ_r in Hc by lia.
  destruct (Z.lt_ge_cases chunk 10) as [Hs|Hs].
  - rewrite dec_nonneg_small in * by lia. change (zlen [digit chunk]) with 1 in Hr. rewrite push_front_ok by lia. cbn [rbind].
    rewrite Z.div_small by lia. by destruct fuel.
  - rewrite dec_nonneg_step, zlen_app in * by done. change (zlen [digit chunk]) with 1 in Hr.
    pose proof (zlen_nonneg (dec_nonneg (chunk / 10))). rewrite push_front_ok by lia. cbn [rbind].
    assert (1 <= chunk / 10) by (apply Z.div_le_lower_bound; lia). assert (chunk / 10 < 10 ^ Z.of_nat fuel) by (apply Z.div_lt_upper_bound; lia).
    rewrite IH by (rewrite ?zlen_cons; lia). by rewrite <- app_assoc.
Qed.

(** What is still to be printed is the number in [copy] followed by the nine digits of [chunk]. *)
Lemma push_limbs_ok (fuel : nat) : forall copy chunk it, limbs_ok copy -> limbs_value copy < 2 ^ Z.of_nat fuel ->
  0 <= chunk < 10 ^ 9 -> 0 < limbs_value copy * 10 ^ 9 + chunk ->
  zlen (dec_nonneg (limbs_value copy * 10 ^ 9 + chunk)) + zlen it <= buf_len ->
  (let! '(chunk, it) := push_limbs buf_len fuel copy chunk it in push_chunk buf_len 10 chunk it) =
  Ok (dec_nonneg (limbs_value copy * 10 ^ 9 + chunk) ++ it).
Proof.
  induction fuel as [|fuel IH]; intros copy chunk it Hok Hf Hc Hpos Hr; pose proof (limbs_range copy Hok) as Hrange; cbn [push_limbs];
    rewrite is_zero_value by done; destruct (Z.eqb_spec (limbs_value copy) 0) as [E|E];
    try (rewrite E in *; cbn [rbind]; rewrite Z.add_0_l in *; apply push_chunk_ok; [lia|exact Hr]); [cbn in Hf; lia|].
  change (10 ^ 9) with (10 ^ Z.of_nat 9) in Hr, Hc |- *. rewrite dec_nonneg_split, zlen_app, zlen_last_digits in * by lia.
  pose proof (zlen_nonneg (dec_nonneg (limbs_value copy))). rewrite push_digits_ok by lia. cbn [rbind].
  pose proof (divmod_ok uint32_max_pow10 copy ltac:(unfold uint32_max_pow10; lia) Hok) as Hdm.
  destruct (limb_arr_divmod_inplace copy uint32_max_pow10) as [q r]. destruct Hdm as (Hq & Hlen & Hr' & Hv).
  change uint32_max_pow10 with (10 ^ 9) in *. pose proof (limbs_range q Hq). rewrite Hv in *.
  rewrite IH; [by rewrite <- app_assoc|done| |done|lia|rewrite zlen_app, zlen_last_digits; lia].
  rewrite Nat2Z.inj_succ, Z.pow_succ_r in Hf by lia. lia.
Qed.
End Buffer.

(** The buffer is large enough, for a number and for a sign in front of the largest negative one. *)
Lemma buffer_room (n : nat) : supported n ->
  (forall v, 0 <= v < modulus n -> zlen (dec_nonneg v) + 1 <= limb_arr_str_len (Z.of_nat n)) /\
  (forall v, 0 <= v <= half n -> zlen (dec_nonneg v) + 2 <= limb_arr_str_len (Z.of_nat n)).
Proof.
  assert (forall k b v, (0 < k)%nat -> 0 <= v <= b -> b < 10 ^ Z.of_nat k -> zlen (dec_nonneg v) <= Z.of_nat k) as Hb
    by (intros; apply dec_nonneg_zlen; lia).
  intros [-> |[-> | ->]]; split; intros v Hv.
  - specialize (Hb 39%nat (modulus 4 - 1) v ltac:(lia) ltac:(lia) eq_refl). change (limb_arr_str_len _) with 41. lia.
  - specialize (Hb 39%nat (half 4) v ltac:(lia) Hv eq_refl). change (limb_arr_str_len _) with 41. lia.
  - specialize (Hb 78%nat (modulus 8 - 1) v ltac:(lia) ltac:(lia) eq_refl). change (limb_arr_str_len _) with 79. lia.
  - specialize (Hb 77%nat (half 8) v ltac:(lia) Hv eq_refl). change (limb_arr_str_len _) with 79. lia.
  - specialize (Hb 155%nat (modulus 16 - 1) v ltac:(lia) ltac:(lia) eq_refl). change (limb_arr_str_len _) with 156. lia.
  - specialize (Hb 154%nat (half 16) v ltac:(lia) Hv eq_refl). change (limb_arr_str_len _) with 156. lia.
Qed.

(** A signed array, by its top bit. *)
Lemma limbs_int_signed (limbs : list Z) : limbs_ok limbs -> limbs <> [] ->
  limbs_int SIGNED limbs = if top_bit limbs then limbs_value limbs - modulus (length limbs) else limbs_value limbs.
Proof.
  intros Hok Hne. rewrite top_bit_ok by done. pose proof (limbs_range limbs Hok) as Hr.
  assert (exists m, length limbs = S m) as [m Hm] by (destruct limbs; [done|by eexists]). destruct (half_S m) as [_ HM].
  destruct (Z.leb_spec (half (length limbs)) (limbs_value limbs)) as [H|H]; apply swrap_limbs; try done; rewrite Hm in *.
  - replace (limbs_value limbs - modulus (S m)) with (limbs_value limbs + (-1) * modulus (S m)) by lia.
    rewrite Z.mod_add by (pose proof (modulus_pos (S m)); lia). by rewrite Z.mod_small by lia.
  - unfold in_range. lia.
  - by rewrite Z.mod_small by lia.
  - unfold in_range. lia.
Qed.

Lemma print_positive (buf_len : Z) (limbs : list Z) (it : bytes) : limbs_ok limbs -> 0 < limbs_value limbs ->
  zlen (dec_nonneg (limbs_value limbs)) + zlen it <= buf_len ->
  (let '(copy, chunk) := limb_arr_divmod_inplace limbs uint32_max_pow10 in
   let! '(chunk, it) := push_limbs buf_len (32 * length limbs) copy chunk it in push_chunk buf_len 10 chunk it) =
  Ok (dec_nonneg (limbs_value limbs) ++ it).
Proof.
  intros Hok Hpos Hroom. pose proof (divmod_ok uint32_max_pow10 limbs ltac:(unfold uint32_max_pow10; lia) Hok) as Hdm.
  destruct (limb_arr_divmod_inplace limbs uint32_max_pow10) as [q r]. destruct Hdm as (Hq & Hlen & Hr & Hv).
  change uint32_max_pow10 with (10 ^ 9) in *. pose proof (limbs_range q Hq) as Hrq. rewrite Hlen in Hrq. unfold modulus in Hrq.
  rewrite Hv in *. apply push_limbs_ok; [done| |done|done|done]. rewrite Nat2Z.inj_mul. exact (proj2 Hrq).
Qed.

Lemma to_string_neg (z : Z) : 0 < z -> to_string (- z) = "-"%byte :: dec_nonneg z.
Proof. intros Hz. unfold to_string. rewrite (proj2 (Z.ltb_lt _ _)) by lia. by rewrite Z.opp_involutive. Qed.

Lemma to_string_pos (z : Z) : 0 <= z -> to_string z = dec_nonneg z.
Proof. intros Hz. unfold to_string. by rewrite (proj2 (Z.ltb_ge _ _)) by lia. Qed.

Lemma limb_arr_to_str_ok (mode : SignMode) (limbs : list Z) (buf_len : Z) : supported (length limbs) -> limbs_ok limbs ->
  limb_arr_str_len (zlen limbs) <= buf_len ->
  limb_arr_to_str (Some limbs) mode (Some buf_len) = Ok (Some (to_string (limbs_int mode limbs) ++ [x00])).
Proof.
  intros Hs Hok Hb. unfold limb_arr_to_str. rewrite (supported_len _ Hs), (proj2 (Z.ltb_ge _ _) Hb). cbn [orb].
  destruct (buffer_room _ Hs) as [Hroom1 Hroom2]. fold (zlen limbs) in Hroom1, Hroom2.
  destruct (supported_S _ Hs) as [m Hm]. assert (limbs <> []) as Hne by (by intros ->). destruct (half_S m) as [_ HM].
  pose proof (limbs_range limbs Hok) as Hr. pose proof (zlen_nonneg (dec_nonneg 0)). pose proof (Hroom2 0 ltac:(unfold half; lia)) as H0.
  rewrite push_front_ok by (change (zlen []) with 0; lia). cbn [rbind].
  rewrite is_zero_value by done. destruct (Z.eqb_spec (limbs_value limbs) 0) as [E|E].
  { rewrite push_front_ok by (change (zlen [x00]) with 1; lia). cbn [rbind].
    assert (limbs_int mode limbs = 0) as ->; [|done]. destruct mode; [done|]. apply swrap_limbs; [done|by rewrite E|].
    unfold in_range. rewrite Hm. unfold half. lia. }
  destruct (bool_decide (mode = SIGNED) && top_bit limbs) eqn:Hneg.
  - apply andb_true_iff in Hneg as [->%bool_decide_eq_true Ht]. rewrite limbs_int_signed, Ht by done. rewrite top_bit_ok in Ht by done. apply Z.leb_le in Ht.
    destruct (negate_loop_ok 1 limbs ltac:(by right) Hok) as (K1 & K2 & K3).
    assert (limbs_value (limb_arr_negate_inplace limbs) = modulus (length limbs) - limbs_value limbs) as Hv.
    { unfold limb_arr_negate_inplace. rewrite K3. symmetry. apply (Z.mod_unique _ _ (-1)); lia. }
    pose proof (print_positive buf_len (limb_arr_negate_inplace limbs) [x00] K1) as Hp. rewrite Hv in Hp.
    specialize (Hroom2 (modulus (length limbs) - limbs_value limbs) ltac:(rewrite Hm in *; lia)).
    specialize (Hp ltac:(lia) ltac:(change (zlen [x00]) with 1; lia)).
    unfold limb_arr_negate_inplace in Hp at 2. rewrite K2 in Hp. destruct (limb_arr_divmod_inplace _ _) as [q r].
    destruct (push_limbs _ _ _ _ _) as [[chunk it]|]; [|done]. cbn [rbind] in Hp |- *. rewrite Hp. cbn [rbind].
    rewrite push_front_ok by (rewrite zlen_app; change (zlen [x00]) with 1; lia). cbn [rbind].
    replace (limbs_value limbs - modulus (length limbs)) with (- (modulus (length limbs) - limbs_value limbs)) by lia.
    by rewrite to_string_neg by lia.
  - assert (limbs_int mode limbs = limbs_value limbs) as ->.
    { destruct mode; [done|]. rewrite bool_decide_true in Hneg by done. cbn [andb] in Hneg. rewrite limbs_int_signed by done. by rewrite Hneg. }
    specialize (Hroom1 (limbs_value limbs) Hr). pose proof (print_positive buf_len limbs [x00] Hok ltac:(lia) ltac:(change (zlen [x00]) with 1; lia)) as Hp.
    destruct (limb_arr_divmod_inplace _ _) as [q r]. destruct (push_limbs _ _ _ _ _) as [[chunk it]|]; [|done]. cbn [rbind] in Hp |- *.
    rewrite Hp. cbn [rbind]. by rewrite to_string_pos by lia.
Qed.

(** ** 128-bit integers *)

Definition uint128_ok (x : UInt128) : Prop := is_u 64 (u_lo x) /\ is_u 64 (u_hi x).

Definition int128_ok (x : Int128) : Prop := is_u 64 (i_lo x) /\ is_u 64 (i_hi x).

Definition uint128_value (x : UInt128) : Z := u_lo x + 2 ^ 64 * u_hi x.

Definition int128_value (x : Int128) : Z := swrap 128 (i_lo x + 2 ^ 64 * i_hi x).

(** The representation of a number. *)
Definition uint128_of (v : Z) : UInt128 := mkUInt128 (wrap 64 v) (wrap 64 (v / 2 ^ 64)).

Definition int128_of (v : Z) : Int128 := mkInt128 (wrap 64 v) (wrap 64 (v / 2 ^ 64)).

Lemma split_limb (x : Z) : is_u 64 x ->
  is_u 32 (wrap 32 (Z.land x (Z.ones 32))) /\ is_u 32 (wrap 32 (Z.shiftr x 32)) /\
  wrap 32 (Z.land x (Z.ones 32)) + 2 ^ 32 * wrap 32 (Z.shiftr x 32) = x.
Proof.
  unfold is_u. intros Hx. rewrite Z.land_ones, Z.shiftr_div_pow2 by lia. unfold wrap.
  pose proof (Z.mod_pos_bound x (2 ^ 32) ltac:(lia)) as Hm. pose proof (Z.div_mod x (2 ^ 32) ltac:(lia)) as Hd.
  assert (0 <= x / 2 ^ 32 < 2 ^ 32) by (split; [apply Z.div_pos; lia|apply Z.div_lt_upper_bound; lia]).
  rewrite Z.mod_mod, (Z.mod_small (x / 2 ^ 32)) by lia. lia.
Qed.

Lemma limbs_64_32 (lo hi : Z) : is_u 64 lo -> is_u 64 hi ->
  limbs_ok (Int64LimbsToInt32 (lo, hi)) /\ limbs_value (Int64LimbsToInt32 (lo, hi)) = lo + 2 ^ 64 * hi.
Proof.
  intros Hl Hh. destruct (split_limb lo Hl) as (? & ? & El). destruct (split_limb hi Hh) as (? & ? & Eh).
  unfold Int64LimbsToInt32. cbn [fst snd]. split; [do 4 (apply Forall_cons; split; [done|]); constructor|]. cbn [limbs_value].
  change (2 ^ 64) with (2 ^ 32 * 2 ^ 32). lia.
Qed.

Lemma limbs_32_64 (l : list Z) : length l = 4%nat -> limbs_ok l ->
  let '(lo, hi) := Int32LimbsToInt64 l in is_u 64 lo /\ is_u 64 hi /\ lo + 2 ^ 64 * hi = limbs_value l.
Proof.
  intros Hlen Hok. destruct l as [|a [|b [|c [|d [|]]]]]; try done. unfold Int32LimbsToInt64. cbn [nth limbs_value].
  apply Forall_cons in Hok as [Ha Hok]. apply Forall_cons in Hok as [Hb Hok]. apply Forall_cons in Hok as [Hc Hok]. apply Forall_cons in Hok as [Hd _].
  rewrite !(Z.lor_comm _ (Z.shiftl _ _)), !lor_shiftl by (done || unfold is_u in *; lia).
  change (2 ^ 64) with (2 ^ 32 * 2 ^ 32). unfold is_u in *. change (2 ^ 64) with (2 ^ 32 * 2 ^ 32). lia.
Qed.

Lemma c_string_digits (l : bytes) : Forall (fun c => c <> x00) l -> c_string (l ++ [x00]) = l.
Proof. induction 1 as [|c l Hc _ IH]; [done|]. cbn [app c_string]. rewrite bool_decide_false by done. by rewrite IH. Qed.

Lemma to_string_nonzero (z : Z) : Forall (fun c => c <> x00) (to_string z).
Proof.
  assert (forall n, Forall (fun c => c <> x00) (dec_nonneg n)) as Hd.
  { intros n. destruct (dec_nonneg_digits n) as (c & l & -> & Hc & Hl). constructor; [by intros ->|].
    eapply Forall_impl; [exact Hl|]. cbn. by intros x Hx ->. }
  unfold to_string. destruct (z <? 0); [by constructor|done].
Qed.

Lemma Int64LimbsToStr_ok (lo hi : Z) (mode : SignMode) : is_u 64 lo -> is_u 64 hi ->
  Int64LimbsToStr (lo, hi) mode = Ok (to_string (limbs_int mode (Int64LimbsToInt32 (lo, hi)))).
Proof.
  intros Hl Hh. destruct (limbs_64_32 lo hi Hl Hh) as [Hok Hv]. unfold Int64LimbsToStr.
  rewrite limb_arr_to_str_ok; [|by left|done|done]. cbn [rbind]. by rewrite c_string_digits by apply to_string_nonzero.
Qed.

Lemma Int128ToString_ok (x : Int128) : int128_ok x -> Int128ToString x = Ok (to_string (int128_value x)).
Proof.
  intros [Hl Hh]. unfold Int128ToString, Int128Low64, Int128High64. rewrite wrap_swrap, wrap_id by (done || lia).
  rewrite Int64LimbsToStr_ok by done. do 2 f_equal. unfold limbs_int. by rewrite (proj2 (limbs_64_32 _ _ Hl Hh)).
Qed.

Lemma UInt128ToString_ok (x : UInt128) : uint128_ok x -> UInt128ToString x = Ok (to_string (uint128_value x)).
Proof.
  intros [Hl Hh]. unfold UInt128ToString, UInt128Low64, UInt128High64. rewrite Int64LimbsToStr_ok by done.
  do 2 f_equal. unfold limbs_int. by rewrite (proj2 (limbs_64_32 _ _ Hl Hh)).
Qed.

Lemma split_words (lo hi : Z) : is_u 64 lo -> is_u 64 hi -> lo = wrap 64 (lo + 2 ^ 64 * hi) /\ hi = wrap 64 ((lo + 2 ^ 64 * hi) / 2 ^ 64).
Proof.
  unfold is_u, wrap. intros Hl Hh. rewrite (Z.mul_comm (2 ^ 64)), Z.mod_add, Z.div_add, (Z.div_small lo), !Z.mod_small by lia. lia.
Qed.

(** The text of a number in range gives that number, every other text is refused. *)
Lemma StringToInt64Limbs_ok (mode : SignMode) (str : bytes) :
  match text_value mode str with
  | Some v =>
    (in_range mode 4 v -> exists lo hi, StringToInt64Limbs str mode = Ok (lo, hi) /\ is_u 64 lo /\ is_u 64 hi /\
       limbs_int mode (Int64LimbsToInt32 (lo, hi)) = v) /\
    (~ in_range mode 4 v -> StringToInt64Limbs str mode = Throw ValidationError)
  | None => StringToInt64Limbs str mode = Throw ValidationError
  end.
Proof.
  destruct (str_to_limb_arr_ok mode str [0; 0; 0; 0] ltac:(by left)) as (st & l & E & Hst). unfold StringToInt64Limbs.
  rewrite E. cbn [rbind]. destruct (text_value mode str) as [v|]; [|by subst st]. destruct Hst as [Hin Hout]. split.
  - intros Hr. destruct (Hin Hr) as (-> & Hok & Hlen & Hv). pose proof (limbs_32_64 l Hlen Hok) as Hw. change (default [] (Some l)) with l.
    destruct (Int32LimbsToInt64 l) as [lo hi]. destruct Hw as (Hl & Hh & Hs). exists lo, hi. split_and!; [done|done|done|].
    destruct (limbs_64_32 lo hi Hl Hh) as [Hok' Hv']. rewrite <- Hv. f_equal. apply limbs_value_inj; [done|done|by rewrite Hlen|lia].
  - intros Hr. by rewrite (Hout Hr).
Qed.

Lemma words_of_swrap (lo hi : Z) : is_u 64 lo -> is_u 64 hi ->
  wrap 64 (swrap 128 (lo + 2 ^ 64 * hi)) = lo /\ wrap 64 (swrap 128 (lo + 2 ^ 64 * hi) / 2 ^ 64) = hi.
Proof.
  intros Hl Hh. pose proof (Z.div_mod (lo + 2 ^ 64 * hi + 2 ^ (128 - 1)) (2 ^ 128) ltac:(lia)) as Hdm. unfold swrap.
  set (q := (lo + 2 ^ 64 * hi + 2 ^ (128 - 1)) / 2 ^ 128) in *.
  assert ((lo + 2 ^ 64 * hi + 2 ^ (128 - 1)) mod 2 ^ 128 - 2 ^ (128 - 1) = lo + (hi - q * 2 ^ 64) * 2 ^ 64) as -> by lia.
  unfold is_u, wrap in *. rewrite Z.mod_add, Z.div_add, (Z.div_small lo), (Z.mod_small lo) by lia. split; [done|].
  replace (0 + (hi - q * 2 ^ 64)) with (hi + (- q) * 2 ^ 64) by lia. rewrite Z.mod_add by lia. apply Z.mod_small. lia.
Qed.

Lemma int128_of_value (x : Int128) : int128_ok x -> int128_of (int128_value x) = x.
Proof. intros [Hl Hh]. destruct (words_of_swrap _ _ Hl Hh) as [E1 E2]. unfold int128_of, int128_value. rewrite E1, E2. by destruct x. Qed.

Lemma uint128_of_value (x : UInt128) : uint128_ok x -> uint128_of (uint128_value x) = x.
Proof. intros [Hl Hh]. destruct (split_words _ _ Hl Hh) as [E1 E2]. unfold uint128_of, uint128_value. rewrite <- E1, <- E2. by destruct x. Qed.

Lemma int128_value_of (v : Z) : in_range SIGNED 4 v -> int128_ok (int128_of v) /\ int128_value (int128_of v) = v.
Proof.
  intros Hr. split; [split; apply (wrap_range 64); lia|]. unfold int128_value, int128_of. cbn [i_lo i_hi].
  assert (wrap 64 v + 2 ^ 64 * wrap 64 (v / 2 ^ 64) = wrap 128 v) as ->.
  { unfold wrap. change (2 ^ 128) with (2 ^ 64 * 2 ^ 64). by rewrite Z.rem_mul_r by lia. }
  rewrite swrap_wrap by lia. by apply swrap_id.
Qed.

Lemma StringToInt128_ok (str : bytes) :
  match text_value SIGNED str with
  | Some v => (in_range SIGNED 4 v -> StringToInt128 str = Ok (int128_of v)) /\
              (~ in_range SIGNED 4 v -> StringToInt128 str = Throw ValidationError)
  | None => StringToInt128 str = Throw ValidationError
  end.
Proof.
  pose proof (StringToInt64Limbs_ok SIGNED str) as Hs. unfold StringToInt128. destruct (text_value SIGNED str) as [v|]; [|by rewrite Hs].
  destruct Hs as [Hin Hout]. split; intros Hr; [|by rewrite (Hout Hr)]. destruct (Hin Hr) as (lo & hi & -> & Hl & Hh & Hv). cbn [rbind fst snd].
  unfold limbs_int in Hv. rewrite (proj2 (limbs_64_32 _ _ Hl Hh)) in Hv. change (32 * zlen _) with 128 in Hv.
  destruct (words_of_swrap lo hi Hl Hh) as [E1 E2]. rewrite Hv in E1, E2. unfold MakeInt128, int128_of.
  by rewrite wrap_swrap, wrap_id, E1, E2 by (done || lia).
Qed.

Lemma StringToUInt128_ok (str : bytes) :
  match text_value UNSIGNED str with
  | Some v => (in_range UNSIGNED 4 v -> StringToUInt128 str = Ok (uint128_of v)) /\
              (~ in_range UNSIGNED 4 v -> StringToUInt128 str = Throw ValidationError)
  | None => StringToUInt128 str = Throw ValidationError
  end.
Proof.
  pose proof (StringToInt64Limbs_ok UNSIGNED str) as Hs. unfold StringToUInt128. destruct (text_value UNSIGNED str) as [v|]; [|by rewrite Hs].
  destruct Hs as [Hin Hout]. split; intros Hr; [|by rewrite (Hout Hr)]. destruct (Hin Hr) as (lo & hi & -> & Hl & Hh & Hv). cbn [rbind fst snd].
  unfold limbs_int in Hv. rewrite (proj2 (limbs_64_32 _ _ Hl Hh)) in Hv. subst v. unfold MakeUInt128, uint128_of.
  destruct (split_words lo hi Hl Hh) as [E1 E2]. by rewrite <- E1, <- E2.
Qed.

Lemma dec_nonneg_text (n : Z) : 0 <= n -> zlen (dec_nonneg n) <> 0 /\ digits (dec_nonneg n) /\ head (dec_nonneg n) <> Some "-"%byte.
Proof.
  intros Hn. destruct (dec_nonneg_digits n) as (c & l & -> & Hc & Hl). split_and!; [|by constructor|].
  - rewrite zlen_cons. pose proof (zlen_nonneg l). lia.
  - cbn. by intros [= ->].
Qed.

(** The text of a number denotes the number. *)
Lemma text_value_to_string (mode : SignMode) (z : Z) : (mode = UNSIGNED -> 0 <= z) -> text_value mode (to_string z) = Some z.
Proof.
  intros Hm. unfold text_value, to_string. destruct (Z.ltb_spec z 0) as [Hz|Hz].
  - destruct mode; [specialize (Hm eq_refl); lia|]. cbn [split_sign]. rewrite bool_decide_true by done.
    destruct (dec_nonneg_text (- z) ltac:(lia)) as (Hl & Hd & _). rewrite (proj2 (Z.eqb_neq _ _) Hl), (proj2 (digits_forallb _) Hd). cbn [negb andb].
    rewrite dec_nonneg_value by lia. f_equal. lia.
  - destruct (dec_nonneg_text z Hz) as (Hl & Hd & Hh).
    assert (split_sign mode (dec_nonneg z) = (false, dec_nonneg z)) as ->.
    { destruct mode; [done|]. destruct (dec_nonneg z) as [|c l]; [done|]. cbn [split_sign]. rewrite bool_decide_false; [done|]. by intros ->. }
    rewrite (proj2 (Z.eqb_neq _ _) Hl), (proj2 (digits_forallb _) Hd). cbn [negb andb]. by rewrite dec_nonneg_value.
Qed.

(** ** Main results *)

(** C34. Parsing a wide integer: for arrays of 128, 256 and 512 bits, signed or not,
    and every string, the parser returns [BAD_STRING] exactly for what is not a
    number, [TOO_LARGE] exactly for numbers outside the range of the width, and
    otherwise the array that stands for the number; it reads nothing outside the
    string. *)
Theorem bignum_parse (mode : SignMode) (str : bytes) (limbs : list Z) (Hs : supported (length limbs)) :
  exists st limbs', str_to_limb_arr (Some str) mode (Some limbs) = Ok (st, Some limbs') /\
    match text_value mode str with
    | None => st = BAD_STRING
    | Some v =>
      (in_range mode (length limbs) v -> st = OK /\ limbs_ok limbs' /\ length limbs' = length limbs /\ limbs_int mode limbs' = v) /\
      (~ in_range mode (length limbs) v -> st = TOO_LARGE)
    end.
Proof. by apply str_to_limb_arr_ok. Qed.

Lemma bignum_parse_witness :
  exists st limbs', str_to_limb_arr (Some (str "-170141183460469231731687303715884105728")) SIGNED (Some [7; 7; 7; 7]) = Ok (st, Some limbs') /\
    (in_range SIGNED 4 (- 2 ^ 127) -> st = OK /\ limbs_ok limbs' /\ length limbs' = 4%nat /\ limbs_int SIGNED limbs' = - 2 ^ 127) /\
    (~ in_range SIGNED 4 (- 2 ^ 127) -> st = TOO_LARGE).
Proof. apply (bignum_parse SIGNED (str "-170141183460469231731687303715884105728") [7; 7; 7; 7]). by left. Defined.

(** C35. Printing a wide integer: for arrays of 128, 256 and 512 bits, signed or not, the
    text is the decimal text of the number, without leading zeros and with a sign
    exactly for negative ones; the buffer of the documented size is large enough for
    every number, and parsing the text gives the array back. *)
Theorem bignum_print (mode : SignMode) (limbs : list Z) (buf_len : Z) (Hs : supported (length limbs)) (Hok : limbs_ok limbs)
    (Hb : limb_arr_str_len (zlen limbs) <= buf_len) :
  let text := to_string (limbs_int mode limbs) in
  limb_arr_to_str (Some limbs) mode (Some buf_len) = Ok (Some (text ++ [x00])) /\
  str_to_limb_arr (Some text) mode (Some (map (fun _ => 0) limbs)) = Ok (OK, Some limbs).
Proof.
  cbv zeta. split; [by apply limb_arr_to_str_ok|]. set (z := map (fun _ => 0) limbs).
  assert (length z = length limbs) as Hz by apply length_map.
  destruct (str_to_limb_arr_ok mode (to_string (limbs_int mode limbs)) z ltac:(by rewrite Hz)) as (st & l & E & Hst).
  destruct (supported_S _ Hs) as [m Hm]. destruct (half_S m) as [_ HM]. pose proof (limbs_range limbs Hok) as Hr.
  assert (limbs <> []) as Hne by (by intros ->).
  assert (in_range mode (length limbs) (limbs_int mode limbs)) as Hin.
  { destruct mode; [done|]. unfold limbs_int, in_range. pose proof (swrap_range (32 * zlen limbs) (limbs_value limbs)
      ltac:(pose proof (zlen_pos limbs Hne); lia)) as Hsw. exact Hsw. }
  rewrite text_value_to_string in Hst by (intros ->; apply Hr). rewrite Hz in Hst.
  destruct (proj1 Hst Hin) as (-> & Hok' & Hlen & Hv). rewrite E. do 3 f_equal. apply limbs_value_inj; [done|done|done|].
  destruct mode; [done|]. pose proof (limbs_range l Hok') as Hr'. rewrite Hlen in Hr'.
  assert (l <> []) as Hne' by (intros ->; by rewrite Hm in Hlen). rewrite !limbs_int_signed, !top_bit_ok, Hlen in Hv by done.
  rewrite Hm in *. destruct (Z.leb_spec (half (S m)) (limbs_value l)), (Z.leb_spec (half (S m)) (limbs_value limbs)); lia.
Qed.

Lemma bignum_print_witness :
  let text := to_string (limbs_int SIGNED [0; 0; 0; 2 ^ 31]) in
  limb_arr_to_str (Some [0; 0; 0; 2 ^ 31]) SIGNED (Some 41) = Ok (Some (text ++ [x00])) /\
  str_to_limb_arr (Some text) SIGNED (Some [0; 0; 0; 0]) = Ok (OK, Some [0; 0; 0; 2 ^ 31]).
Proof.
  apply (bignum_print SIGNED [0; 0; 0; 2 ^ 31] 41); [by left| |done]. do 4 (apply Forall_cons; split; [done|]). constructor.
Defined.

(** The 128-bit types: a value prints as the decimal text of its number and is
    parsed back, signed and unsigned; a text that is no number or out of range is
    refused with [ValidationError]; the comparison of the signed type is that of the
    numbers. *)
Lemma int128_text (x y : Int128) (u : UInt128) (text : bytes) (Hx : int128_ok x) (Hy : int128_ok y) (Hu : uint128_ok u) :
  Int128ToString x = Ok (to_string (int128_value x)) /\ StringToInt128 (to_string (int128_value x)) = Ok x /\
  UInt128ToString u = Ok (to_string (uint128_value u)) /\ StringToUInt128 (to_string (uint128_value u)) = Ok u /\
  ((forall v, text_value SIGNED text = Some v -> ~ in_range SIGNED 4 v) -> StringToInt128 text = Throw ValidationError) /\
  SInt.ltb x y = (int128_value x <? int128_value y).
Proof.
  assert (in_range SIGNED 4 (int128_value x)) as Hrx by (apply (swrap_range 128); lia).
  assert (in_range UNSIGNED 4 (uint128_value u)) as Hru.
  { destruct Hu as [Hl Hh]. unfold in_range, uint128_value, is_u in *. change (modulus 4) with (2 ^ 64 * 2 ^ 64).
    change (2 ^ 64) with 18446744073709551616 in *. lia. }
  split_and!.
  - by apply Int128ToString_ok.
  - pose proof (StringToInt128_ok (to_string (int128_value x))) as Hs. rewrite text_value_to_string in Hs by done.
    rewrite (proj1 Hs Hrx). by rewrite int128_of_value.
  - by apply UInt128ToString_ok.
  - pose proof (StringToUInt128_ok (to_string (uint128_value u))) as Hs. rewrite text_value_to_string in Hs by (intros _; apply Hru).
    rewrite (proj1 Hs Hru). by rewrite uint128_of_value.
  - intros Hno. pose proof (StringToInt128_ok text) as Hs. destruct (text_value SIGNED text) as [v|]; [|done]. apply Hs. by apply Hno.
  - destruct Hx as [Hl Hh], Hy as [Hl' Hh']. unfold SInt.ltb, int128_value.
    assert (forall lo hi, is_u 64 lo -> is_u 64 hi -> swrap 128 (lo + 2 ^ 64 * hi) = lo + 2 ^ 64 * swrap 64 hi) as Hsw.
    { intros lo hi Hlo Hhi. unfold is_u in *. unfold swrap. change (2 ^ 128) with (2 ^ 64 * 2 ^ 64). change (2 ^ (128 - 1)) with (2 ^ 64 * 2 ^ (64 - 1)).
      replace (lo + 2 ^ 64 * hi + 2 ^ 64 * 2 ^ (64 - 1)) with (lo + 2 ^ 64 * (hi + 2 ^ (64 - 1))) by lia.
      rewrite mod_mul_split by lia. lia. }
    rewrite !Hsw by done. unfold is_u in *. destruct (Z.eqb_spec (swrap 64 (i_hi x)) (swrap 64 (i_hi y))) as [E|E]; cbn [negb];
      apply eq_iff_eq_true; rewrite !Z.ltb_lt; lia.
Qed.

