(* ===== verification/Decimal.v ===== *)
(** * Decimal columns (clickhouse/columns/decimal.cpp)

    Decimals are stored as integers scaled by a power of ten, in 32, 64 or 128 bits
    depending on the precision.  Here are the conversions between the stored
    numbers and text: what texts [Append] accepts, which number it stores, and that
    it accepts and stores again what [StringAt] prints. *)

From S2P Require Import Prelude Text Types Columns Factory Bignum.

(** ** Appending a text *)

(** The loop over the characters: whether a point was found, and the digits that count. *)
Fixpoint validate_loop (dot_found padding : bool) (digits : Z) (value : bytes) : result (bool * Z) :=
  match value with
  | [] => Ok (dot_found, digits)
  | c :: value =>
    if bool_decide (c = "."%byte) && negb dot_found then validate_loop true padding digits value
    else if negb (is_digit c) then Throw ValidationError
    else
      let padding := padding && bool_decide (c = "0"%byte) in
      validate_loop dot_found padding (wrap 64 (digits + (if negb dot_found && negb padding then 1 else 0))) value
  end.

Definition skip_minus (value : bytes) : bytes :=
  match value with
  | c :: rest => if bool_decide (c = "-"%byte) then rest else value
  | [] => value
  end.

Definition ValidateDecimalString (value : bytes) (precision scale : Z) : result unit :=
  if bool_decide (value = []) || bool_decide (value = str ".") || bool_decide (value = str "-") || bool_decide (value = str "-.")
  then Throw ValidationError else
  let! '(dot_found, digits) := validate_loop false true 0 (skip_minus value) in
  let digits := if dot_found : bool then wrap 64 (digits + scale) else digits in
  if precision <? digits then Throw ValidationError else Ok tt.

(** The characters in front of the point, and the rest from the point on. *)
Fixpoint split_dot (value : bytes) : bytes * bytes :=
  match value with
  | [] => ([], [])
  | c :: rest =>
    if bool_decide (c = "."%byte) then ([], value)
    else let '(ip, r) := split_dot rest in (c :: ip, r)
  end.

(** The text without its point, scaled: the normalization in [Append]. *)
Definition cleaned (value : bytes) (scale : Z) : bytes :=
  let sign := if bool_decide (head value = Some "-"%byte) then str "-" else [] in
  let '(ip, rest) := split_dot (skip_minus value) in
  sign ++ ip ++
  match rest with
  | [] => []
  | _ :: fp =>
    let pad_len := swrap 64 scale - zlen fp in
    if pad_len <=? 0 then ztake (swrap 64 scale) fp else fp ++ replicate (Z.to_nat pad_len) "0"%byte
  end.

Definition GetScale (c : column) : result Z :=
  match c with
  | ColumnWrap _ (TDecimal _ scale) _ => Ok scale
  | _ => Throw Undefined
  end.

Definition GetPrecision (c : column) : result Z :=
  match c with
  | ColumnWrap _ (TDecimal precision _) _ => Ok precision
  | _ => Throw Undefined
  end.

(** [Append(const Int128&)]: the casts to the width of the stored numbers. *)
Definition ColumnDecimal_AppendInt128 (value : Int128) : M column unit :=
  fun c =>
    match c with
    | ColumnWrap WDecimal ty (ColumnVector code data) =>
      match code with
      | Code.Int32 => (Ok tt, ColumnWrap WDecimal ty (ColumnVector code (data ++ [wrap 32 (Int128Low64 value)])))
      | Code.Int64 => (Ok tt, ColumnWrap WDecimal ty (ColumnVector code (data ++ [wrap 64 (Int128Low64 value)])))
      | Code.Int128 => (Ok tt, ColumnWrap WDecimal ty (ColumnVector code (data ++ [i_lo value + 2 ^ 64 * i_hi value])))
      | _ => (Throw Undefined, c)
      end
    | _ => (Throw Undefined, c)
    end.

Definition ColumnDecimal_Append (value : bytes) : M column unit :=
  let* c := get in
  let* scale := lift_result (GetScale c) in
  let* precision := lift_result (GetPrecision c) in
  lift_result (ValidateDecimalString value precision scale) ;;;
  let* n := lift_result (StringToInt128 (cleaned value scale)) in
  ColumnDecimal_AppendInt128 n.

(** ** Reading *)

Definition ColumnDecimal_At (c : column) (i : Z) : result Int128 :=
  match c with
  | ColumnWrap WDecimal _ (ColumnVector code data) =>
    match code with
    | Code.Int32 => let! v := at_ data i in Ok (SInt.of_int64 (swrap 32 v))
    | Code.Int64 => let! v := at_ data i in Ok (SInt.of_int64 (swrap 64 v))
    | Code.Int128 => let! v := at_ data i in Ok (mkInt128 (v mod 2 ^ 64) (v / 2 ^ 64))
    | _ => Throw ValidationError
    end
  | _ => Throw Undefined
  end.

Definition ColumnDecimal_StringAt (c : column) (i : Z) : result bytes :=
  let! scale := GetScale c in
  let! val := ColumnDecimal_At c i in
  let! raw_str := Int128ToString val in
  if scale =? 0 then Ok raw_str else
  let sign := if bool_decide (head raw_str = Some "-"%byte) then str "-" else [] in
  let it := skip_minus raw_str in
  let integral_len := zlen it - swrap 64 scale in
  if 0 <? integral_len then Ok (sign ++ ztake integral_len it ++ str "." ++ zdrop integral_len it)
  else Ok (sign ++ str "0." ++ replicate (Z.to_nat (- integral_len)) "0"%byte ++ it).

(** ** What a text means *)

Fixpoint drop_zeros (l : bytes) : bytes :=
  match l with
  | c :: rest => if bool_decide (c = "0"%byte) then drop_zeros rest else l
  | [] => []
  end.

(** Sign, digits in front of the point, digits behind it if there is one. *)
Definition decimal_form (text : bytes) : bool * bytes * option bytes :=
  let '(ip, rest) := split_dot (skip_minus text) in
  (bool_decide (head text = Some "-"%byte), ip, match rest with [] => None | _ :: fp => Some fp end).

(** Only digits, at least one that is kept, and not too many. *)
Definition decimal_ok (p s : Z) (text : bytes) : bool :=
  let '(_, ip, fp) := decimal_form text in
  forallb is_digit ip && forallb is_digit (default [] fp) &&
  (negb (zlen ip =? 0) || (negb (zlen (default [] fp) =? 0) && negb (s =? 0))) &&
  (zlen (drop_zeros ip) + (match fp with None => 0 | Some _ => s end) <=? p).

(** With a point, the number times [10 ^ s], digits beyond the scale cut off; without one,
    the text is taken to be scaled already. *)
Definition decimal_number (s : Z) (text : bytes) : Z :=
  let '(negative, ip, fp) := decimal_form text in
  let n := match fp with
           | None => dec_value 0 ip
           | Some fp => dec_value 0 ip * 10 ^ s + dec_value 0 fp * 10 ^ s / 10 ^ zlen fp
           end in
  if negative then - n else n.

(** *** Digits *)

Lemma digit_not_dot (c : byte) : is_digit c = true -> c <> "."%byte.
Proof. by intros H ->. Qed.

Lemma dec_value_zeros (k : nat) (a : Z) : dec_value a (replicate k "0"%byte) = a * 10 ^ Z.of_nat k.
Proof.
  revert a. induction k as [|k IH]; intros a; [unfold dec_value; cbn; lia|]. cbn [replicate]. unfold dec_value. cbn [fold_left].
  fold (dec_value (a * 10 + (b2z "0"%byte - 48)) (replicate k "0"%byte)). rewrite IH, Nat2Z.inj_succ, Z.pow_succ_r by lia.
  change (b2z "0"%byte - 48) with 0. lia.
Qed.

Lemma dec_value_drop_zeros (l : bytes) : dec_value 0 (drop_zeros l) = dec_value 0 l.
Proof. induction l as [|c l IH]; [done|]. cbn [drop_zeros]. case_bool_decide as E; [|done]. by subst c. Qed.

Lemma digits_drop_zeros (l : bytes) : digits l -> digits (drop_zeros l).
Proof. induction 1 as [|c l Hc Hl IH]; [constructor|]. cbn [drop_zeros]. case_bool_decide; [done|by constructor]. Qed.

Lemma zlen_drop_zeros (l : bytes) : 0 <= zlen (drop_zeros l) <= zlen l.
Proof.
  split; [apply zlen_nonneg|]. induction l as [|c l IH]; [done|]. cbn [drop_zeros].
  case_bool_decide; [rewrite zlen_cons; lia|done].
Qed.

(** *** The loops *)

Lemma split_dot_spec (l : bytes) : let '(ip, rest) := split_dot l in
  l = ip ++ rest /\ (rest = [] \/ exists fp, rest = "."%byte :: fp).
Proof.
  induction l as [|c l IH]; [by split; [|left]|]. cbn [split_dot]. case_bool_decide as E.
  - subst c. split; [done|right; by exists l].
  - destruct (split_dot l) as [ip rest]. destruct IH as [-> Hr]. by split.
Qed.

Lemma split_dot_digits (ip fp : bytes) : digits ip -> split_dot (ip ++ "."%byte :: fp) = (ip, "."%byte :: fp) /\ split_dot ip = (ip, []).
Proof.
  induction 1 as [|c ip Hc Hip [IH1 IH2]]; [done|]. cbn [app split_dot]. rewrite bool_decide_false by (by apply digit_not_dot).
  by rewrite IH1, IH2.
Qed.

(** Digits count from the first that is not a zero, up to the point. *)
Definition counted (padding : bool) (ip : bytes) : Z := zlen (if padding then drop_zeros ip else ip).

Lemma validate_after (l : bytes) : forall padding n, is_u 64 n ->
  validate_loop true padding n l = if forallb is_digit l then Ok (true, n) else Throw ValidationError.
Proof.
  induction l as [|c l IH]; intros padding n Hn; [done|]. cbn [validate_loop forallb negb]. rewrite andb_false_r.
  destruct (is_digit c); [|done]. cbn [negb andb]. rewrite Z.add_0_r, wrap_id by done. by apply IH.
Qed.

Lemma validate_before (l : bytes) : forall padding n, 0 <= n -> n + zlen l < 2 ^ 64 ->
  validate_loop false padding n l =
  let '(ip, rest) := split_dot l in
  if forallb is_digit ip && forallb is_digit (tail rest)
  then Ok (match rest with [] => false | _ => true end, n + counted padding ip) else Throw ValidationError.
Proof.
  induction l as [|c l IH]; intros padding n Hn Hb; [cbn [validate_loop split_dot forallb tail andb]; do 2 f_equal; destruct padding; unfold counted; cbn [drop_zeros]; rewrite zlen_nil; lia|].
  rewrite zlen_cons in Hb. pose proof (zlen_nonneg l). cbn [validate_loop split_dot negb]. rewrite andb_true_r. case_bool_decide as E.
  - cbn [forallb tail andb]. rewrite validate_after by (unfold is_u; lia). destruct (forallb is_digit l); [|done].
    do 2 f_equal. destruct padding; unfold counted; cbn [drop_zeros]; rewrite zlen_nil; lia.
  - destruct (is_digit c) eqn:Hc; cbn [negb andb]; [|destruct (split_dot l) as [ip rest]; cbn [forallb]; by rewrite Hc].
    specialize (IH (padding && bool_decide (c = "0"%byte)) (n + (if negb (padding && bool_decide (c = "0"%byte)) then 1 else 0))).
    rewrite wrap_id by (unfold is_u; destruct (negb _); lia). rewrite IH by (destruct (negb _); lia).
    destruct (split_dot l) as [ip rest]. cbn [forallb]. rewrite Hc. cbn [andb]. destruct (forallb is_digit ip && _); [|done].
    do 2 f_equal. unfold counted. destruct padding; cbn [andb drop_zeros]; [case_bool_decide|]; cbn [negb]; rewrite ?zlen_cons; lia.
Qed.

(** What [ValidateDecimalString] lets pass. *)
Lemma validate_ok (p s : Z) (text : bytes) : zlen text < 2 ^ 62 -> 0 <= s < 2 ^ 63 ->
  let '(_, ip, fp) := decimal_form text in
  ValidateDecimalString text p s =
  if forallb is_digit ip && forallb is_digit (default [] fp) && negb ((zlen ip =? 0) && (zlen (default [] fp) =? 0)) &&
     (zlen (drop_zeros ip) + (match fp with None => 0 | Some _ => s end) <=? p)
  then Ok tt else Throw ValidationError.
Proof.
  intros Hl Hs. unfold decimal_form, ValidateDecimalString.
  assert (0 <= zlen (skip_minus text) <= zlen text) as Hsk.
  { split; [apply zlen_nonneg|]. destruct text as [|c t]; [done|]. cbn [skip_minus]. case_bool_decide; [rewrite zlen_cons; lia|done]. }
  pose proof (split_dot_spec (skip_minus text)) as Hspec. pose proof (validate_before (skip_minus text) true 0 ltac:(lia) ltac:(lia)) as Hv.
  destruct (split_dot (skip_minus text)) as [ip rest]. destruct Hspec as [Hsplit Hrest].
  assert ((bool_decide (text = []) || bool_decide (text = str ".") || bool_decide (text = str "-") || bool_decide (text = str "-.")) =
    ((zlen ip =? 0) && (zlen (default [] (match rest with [] => None | _ :: fp => Some fp end)) =? 0))) as ->.
  { apply eq_iff_eq_true. rewrite !orb_true_iff, !bool_decide_eq_true, andb_true_iff, !Z.eqb_eq. split.
    - intros [[[-> | ->]| ->]| ->]; cbn in Hsplit; destruct Hrest as [-> |[fp ->]]; destruct ip as [|? [|? ip]]; try discriminate Hsplit; try done;
        cbn in Hsplit; injection Hsplit as Hs1; subst; done.
    - intros [->%zlen_0 Hfp%zlen_0]. cbn in Hsplit. destruct Hrest as [-> |[fp ->]]; cbn in Hfp; subst.
      + destruct text as [|c t]; [by left; left; left|]. cbn in Hsplit. case_bool_decide; [subst|done]. by left; right.
      + destruct text as [|c t]; [done|]. cbn in Hsplit. case_bool_decide; [subst; by right|]. injection Hsplit as -> ->. by left; left; right. }
  rewrite Hv. pose proof (zlen_drop_zeros ip). assert (zlen ip <= zlen (skip_minus text)) by (rewrite Hsplit, zlen_app; pose proof (zlen_nonneg rest); lia).
  assert (forallb is_digit (tail rest) = forallb is_digit (default [] (match rest with [] => None | _ :: fp => Some fp end))) as -> by (by destruct rest).
  destruct ((zlen ip =? 0) && _); cbn [negb]; [by rewrite andb_false_r|]. rewrite andb_true_r.
  destruct (forallb is_digit ip); [|done]. cbn [andb]. destruct (forallb is_digit (default [] _)); [|done].
  cbn [rbind andb]. unfold counted. rewrite Z.add_0_l.
  destruct rest as [|c fp]; [|rewrite wrap_id by (unfold is_u; lia)]; rewrite ?Z.add_0_r, Z.ltb_antisym; by destruct (_ <=? p).
Qed.

(** *** The number that is stored *)

(** The digits behind the point, cut off or padded to the scale. *)
Definition scaled (s : Z) (fp : bytes) : bytes :=
  if s - zlen fp <=? 0 then ztake s fp else fp ++ replicate (Z.to_nat (s - zlen fp)) "0"%byte.

Lemma scaled_ok (s : Z) (fp : bytes) : 0 <= s -> digits fp ->
  digits (scaled s fp) /\ zlen (scaled s fp) = s /\ dec_value 0 (scaled s fp) = dec_value 0 fp * 10 ^ s / 10 ^ zlen fp.
Proof.
  intros Hs Hd. pose proof (zlen_nonneg fp) as Hz. unfold scaled. destruct (Z.leb_spec (s - zlen fp) 0) as [H|H].
  - split_and!; [by apply Forall_take|rewrite zlen_ztake; lia|]. pose proof (ztake_zdrop s fp) as Hsplit.
    assert (digits (zdrop s fp)) as Hdr by (by apply Forall_drop). pose proof (dec_value_range _ Hdr) as Hr. rewrite zlen_zdrop, Z.min_l in Hr by lia.
    assert (dec_value 0 fp = dec_value 0 (ztake s fp) * 10 ^ (zlen fp - s) + dec_value 0 (zdrop s fp)) as ->.
    { rewrite <- Hsplit at 1. rewrite dec_value_app, dec_value_acc, zlen_zdrop, Z.min_l by lia. done. }
    assert (10 ^ zlen fp = 10 ^ (zlen fp - s) * 10 ^ s) as -> by (rewrite <- Z.pow_add_r by lia; f_equal; lia).
    rewrite Z.div_mul_cancel_r by lia. rewrite Z.div_add_l by lia. rewrite Z.div_small by lia. lia.
  - assert (digits (replicate (Z.to_nat (s - zlen fp)) "0"%byte)) as Hrep by (by apply Forall_replicate). split_and!.
    + by apply Forall_app.
    + rewrite zlen_app, zlen_replicate. lia.
    + rewrite dec_value_app, dec_value_zeros, Z2Nat.id by lia. replace s with (zlen fp + (s - zlen fp)) at 2 by lia.
      rewrite Z.pow_add_r, (Z.mul_comm (10 ^ zlen fp)), Z.mul_assoc, Z.div_mul by lia. done.
Qed.

Lemma text_value_digits (negative : bool) (l : bytes) : digits l ->
  text_value SIGNED ((if negative then str "-" else []) ++ l) =
  if zlen l =? 0 then None else Some (if negative then - dec_value 0 l else dec_value 0 l).
Proof.
  intros Hd. unfold text_value.
  assert (split_sign SIGNED ((if negative then str "-" else []) ++ l) = (negative, l)) as ->.
  { destruct negative; [done|]. cbn [app]. destruct Hd as [|c l Hc Hl]; [done|]. cbn [split_sign]. by rewrite bool_decide_false by (by apply digit_not_minus). }
  rewrite (proj2 (digits_forallb _) Hd), andb_true_r. by destruct (zlen l =? 0).
Qed.

Lemma cleaned_value (s : Z) (text : bytes) : 0 <= s < 2 ^ 63 ->
  let '(negative, ip, fp) := decimal_form text in
  digits ip -> digits (default [] fp) ->
  text_value SIGNED (cleaned text s) =
  if (zlen ip =? 0) && (match fp with None => true | Some _ => s =? 0 end) then None else Some (decimal_number s text).
Proof.
  intros Hs. unfold decimal_number. unfold decimal_form, cleaned. destruct (split_dot (skip_minus text)) as [ip rest].
  rewrite swrap_id by (unfold is_s; lia). intros Hip Hfp. pose proof (zlen_nonneg ip). destruct rest as [|c fp].
  - rewrite app_nil_r, text_value_digits by done. by rewrite andb_true_r.
  - cbn [default] in Hfp. fold (scaled s fp). destruct (scaled_ok s fp ltac:(lia) Hfp) as (Hd & Hlen & Hv).
    rewrite text_value_digits by (by apply Forall_app). rewrite zlen_app, dec_value_app, dec_value_acc, Hlen, Hv.
    destruct (Z.eqb_spec (zlen ip) 0), (Z.eqb_spec s 0), (Z.eqb_spec (zlen ip + s) 0); cbn [andb]; try lia; done.
Qed.

Lemma decimal_number_range (p s : Z) (text : bytes) : 0 <= s -> decimal_ok p s text = true -> - 10 ^ p < decimal_number s text < 10 ^ p.
Proof.
  intros Hs. unfold decimal_ok, decimal_number. destruct (decimal_form text) as [[negative ip] fp].
  rewrite !andb_true_iff, Z.leb_le. intros [[[Hip%digits_forallb Hfp%digits_forallb] _] Hc].
  assert (exists n k, n = match fp with None => dec_value 0 ip | Some fp => dec_value 0 ip * 10 ^ s + dec_value 0 fp * 10 ^ s / 10 ^ zlen fp end /\
    0 <= n < 10 ^ k /\ 0 <= k <= p) as (n & k & <- & Hn & Hk).
  { pose proof (dec_value_range _ (digits_drop_zeros ip Hip)) as Hr. rewrite dec_value_drop_zeros in Hr. pose proof (zlen_drop_zeros ip).
    destruct fp as [fp|]; eexists _, _; (split; [done|]); [|split; [exact Hr|lia]].
    destruct (scaled_ok s fp Hs Hfp) as (Hd & Hlen & <-). pose proof (dec_value_range _ Hd) as Hr'. rewrite Hlen in Hr'.
    split; [|split; [|exact Hc]; lia]. rewrite Z.pow_add_r by lia. nia. }
  assert (10 ^ k <= 10 ^ p) by (apply Z.pow_le_mono_r; lia). destruct negative; lia.
Qed.

(** ** Columns of decimals *)

Definition decimal_code (p : Z) : Code.t := if p <=? 9 then Code.Int32 else if p <=? 18 then Code.Int64 else Code.Int128.

Definition decimal_width (p : Z) : Z := if p <=? 9 then 32 else if p <=? 18 then 64 else 128.

(** The column that holds the given numbers. *)
Definition decimal_column (p s : Z) (vs : list Z) : column :=
  ColumnWrap WDecimal (TDecimal p s) (ColumnVector (decimal_code p) (map (wrap (decimal_width p)) vs)).

Lemma decimal_column_new (p s : Z) : decimal_column p s [] = ColumnDecimal_new p s.
Proof. done. Qed.

Lemma decimal_width_ok (p v : Z) : 0 <= p <= 38 -> - 10 ^ p < v < 10 ^ p -> is_s (decimal_width p) v.
Proof.
  intros Hp Hv. unfold is_s, decimal_width. destruct (Z.leb_spec p 9); [|destruct (Z.leb_spec p 18)].
  - assert (10 ^ p <= 10 ^ 9) by (apply Z.pow_le_mono_r; lia). lia.
  - assert (10 ^ p <= 10 ^ 18) by (apply Z.pow_le_mono_r; lia). lia.
  - assert (10 ^ p <= 10 ^ 38) by (apply Z.pow_le_mono_r; lia). change (2 ^ (128 - 1)) with 170141183460469231731687303715884105728.
    change (10 ^ 38) with 100000000000000000000000000000000000000 in *. lia.
Qed.

Lemma int128_words (v : Z) : wrap 64 v + 2 ^ 64 * wrap 64 (v / 2 ^ 64) = wrap 128 v.
Proof. unfold wrap. change (2 ^ 128) with (2 ^ 64 * 2 ^ 64). by rewrite Z.rem_mul_r by lia. Qed.

Lemma AppendInt128_ok (p s : Z) (vs : list Z) (v : Z) :
  ColumnDecimal_AppendInt128 (int128_of v) (decimal_column p s vs) = (Ok tt, decimal_column p s (vs ++ [v])).
Proof.
  unfold decimal_column, decimal_code, decimal_width. rewrite map_app. cbn [map].
  destruct (p <=? 9); [|destruct (p <=? 18)]; cbn [ColumnDecimal_AppendInt128 Int128Low64 int128_of i_lo i_hi].
  - do 5 f_equal. unfold wrap. apply Z.mod_mod_divide. by exists (2 ^ 32).
  - by rewrite wrap_wrap.
  - by rewrite int128_words.
Qed.

Lemma of_int64_ok (v : Z) : is_s 64 v -> SInt.of_int64 v = int128_of v.
Proof.
  unfold is_s. intros Hv. unfold SInt.of_int64, int128_of. f_equal. destruct (Z.ltb_spec v 0).
  - assert (v / 2 ^ 64 = -1) as -> by (symmetry; apply Z.div_unique with (v + 2 ^ 64); lia). done.
  - by rewrite Z.div_small by lia.
Qed.

Lemma decimal_at_ok (p s : Z) (vs : list Z) (i v : Z) : 0 <= p <= 38 -> 0 <= i -> vs !! Z.to_nat i = Some v -> - 10 ^ p < v < 10 ^ p ->
  ColumnDecimal_At (decimal_column p s vs) i = Ok (int128_of v).
Proof.
  intros Hp Hi Hl Hv. pose proof (decimal_width_ok p v Hp Hv) as Hw.
  assert (at_ (map (wrap (decimal_width p)) vs) i = Ok (wrap (decimal_width p) v)) as Hat.
  { unfold at_. rewrite (proj2 (Z.ltb_ge _ _)) by lia. by rewrite list_lookup_fmap, Hl. }
  unfold decimal_column, decimal_code. unfold decimal_width in *. destruct (p <=? 9); [|destruct (p <=? 18)]; cbn [ColumnDecimal_At]; rewrite Hat; cbn [rbind].
  - rewrite swrap_wrap, swrap_id by (done || lia). rewrite of_int64_ok; [done|]. unfold is_s in *. lia.
  - rewrite swrap_wrap, swrap_id by (done || lia). by rewrite of_int64_ok.
  - unfold int128_of, wrap. do 2 f_equal.
    + apply Z.mod_mod_divide. by exists (2 ^ 64).
    + change (2 ^ 128) with (2 ^ 64 * 2 ^ 64). rewrite Z.rem_mul_r, Z.mul_comm, Z.div_add by lia. rewrite Z.div_small; [lia|]. apply Z.mod_pos_bound. lia.
Qed.

Lemma decimal_append_ok (p s : Z) (vs : list Z) (text : bytes) : 0 <= p <= 38 -> 0 <= s < 2 ^ 63 -> zlen text < 2 ^ 62 ->
  ColumnDecimal_Append text (decimal_column p s vs) =
  if decimal_ok p s text then (Ok tt, decimal_column p s (vs ++ [decimal_number s text])) else (Throw ValidationError, decimal_column p s vs).
Proof.
  intros Hp Hs Hl. unfold ColumnDecimal_Append, bind, get, lift_result. cbn [GetScale GetPrecision decimal_column].
  fold (decimal_column p s vs). pose proof (validate_ok p s text Hl Hs) as Hv. pose proof (cleaned_value s text Hs) as Hc.
  pose proof (decimal_number_range p s text ltac:(lia)) as Hr. revert Hr. unfold decimal_ok. destruct (decimal_form text) as [[negative ip] fp]. rewrite Hv.
  destruct (forallb is_digit ip) eqn:Hip; [|done]. destruct (forallb is_digit (default [] fp)) eqn:Hfp; [|done]. cbn [andb].
  specialize (Hc (proj1 (digits_forallb _) Hip) (proj1 (digits_forallb _) Hfp)). pose proof (StringToInt128_ok (cleaned text s)) as Hst. rewrite Hc in Hst.
  destruct (zlen (drop_zeros ip) + _ <=? p); [|by rewrite !andb_false_r]. rewrite !andb_true_r.
  destruct (Z.eqb_spec (zlen ip) 0) as [E|E]; cbn [andb negb orb] in *.
  - destruct fp as [fp|]; [|done]. change (default [] (Some fp)) with fp in *. destruct (zlen fp =? 0); cbn [andb negb] in *; [done|].
    destruct (s =? 0); cbn [negb] in *; [by rewrite Hst|]. intros Hr. rewrite (proj1 Hst); [by rewrite AppendInt128_ok|].
    by apply (decimal_width_ok 38); [lia|]; assert (10 ^ p <= 10 ^ 38) by (apply Z.pow_le_mono_r; lia); specialize (Hr eq_refl); lia.
  - intros Hr. rewrite (proj1 Hst); [by rewrite AppendInt128_ok|].
    by apply (decimal_width_ok 38); [lia|]; assert (10 ^ p <= 10 ^ 38) by (apply Z.pow_le_mono_r; lia); specialize (Hr eq_refl); lia.
Qed.

(** *** Reading a text that is put together from its parts *)

Lemma form_point (negative : bool) (ip fp : bytes) : digits ip ->
  decimal_form ((if negative then str "-" else []) ++ ip ++ str "." ++ fp) = (negative, ip, Some fp).
Proof.
  intros Hip. unfold decimal_form. change (str "." ++ fp) with ("."%byte :: fp).
  assert (skip_minus ((if negative then str "-" else []) ++ ip ++ "."%byte :: fp) = ip ++ "."%byte :: fp) as ->.
  { destruct negative; [done|]. cbn [app]. destruct Hip as [|c ip Hc Hip]; [done|]. cbn [app skip_minus].
    by rewrite bool_decide_false by (by apply digit_not_minus). }
  rewrite (proj1 (split_dot_digits ip fp Hip)). do 2 f_equal. destruct negative; [done|]. apply bool_decide_eq_false. cbn [app].
  destruct Hip as [|c ip Hc Hip]; [done|]. intros [= ->]. done.
Qed.

Lemma form_plain (negative : bool) (ip : bytes) : digits ip -> decimal_form ((if negative then str "-" else []) ++ ip) = (negative, ip, None).
Proof.
  intros Hip. unfold decimal_form.
  assert (skip_minus ((if negative then str "-" else []) ++ ip) = ip) as ->.
  { destruct negative; [done|]. cbn [app]. destruct Hip as [|c ip Hc Hip]; [done|]. cbn [skip_minus]. by rewrite bool_decide_false by (by apply digit_not_minus). }
  rewrite (proj2 (split_dot_digits ip [] Hip)). do 2 f_equal. destruct negative; [done|]. apply bool_decide_eq_false. cbn [app].
  destruct Hip as [|c ip Hc Hip]; [done|]. intros [= ->]. done.
Qed.

Lemma to_string_sign (v : Z) : to_string v = (if v <? 0 then str "-" else []) ++ dec_nonneg (Z.abs v).
Proof. unfold to_string. destruct (Z.ltb_spec v 0); [by rewrite Z.abs_neq by lia|by rewrite Z.abs_eq by lia]. Qed.

Lemma zlen_significant (n k : Z) : 0 <= k -> 0 <= n < 10 ^ k -> zlen (drop_zeros (dec_nonneg n)) <= k.
Proof.
  intros Hk Hn. destruct (Z.eq_dec k 0) as [-> |]; [assert (n = 0) as -> by (cbn in Hn; lia); done|].
  pose proof (zlen_drop_zeros (dec_nonneg n)). pose proof (dec_nonneg_zlen (Z.to_nat k) n ltac:(lia)) as Hd. rewrite Z2Nat.id in Hd by lia. specialize (Hd Hn). lia.
Qed.

(** The parts [StringAt] prints: at least one digit in front of the point, the scale behind it. *)
Definition integral_part (s n : Z) : bytes :=
  if 0 <? zlen (dec_nonneg n) - s then ztake (zlen (dec_nonneg n) - s) (dec_nonneg n) else str "0".

Definition fractional_part (s n : Z) : bytes :=
  if 0 <? zlen (dec_nonneg n) - s then zdrop (zlen (dec_nonneg n) - s) (dec_nonneg n)
  else replicate (Z.to_nat (- (zlen (dec_nonneg n) - s))) "0"%byte ++ dec_nonneg n.

Lemma parts_ok (p s n : Z) : 0 < s <= p -> 0 <= n < 10 ^ p ->
  digits (integral_part s n) /\ digits (fractional_part s n) /\ zlen (integral_part s n) <> 0 /\ zlen (fractional_part s n) = s /\
  zlen (drop_zeros (integral_part s n)) + s <= p /\ dec_value 0 (integral_part s n) * 10 ^ s + dec_value 0 (fractional_part s n) = n.
Proof.
  intros Hs Hn. destruct (dec_nonneg_text n ltac:(lia)) as (Hne & Hd & _). pose proof (dec_nonneg_value n ltac:(lia)) as Hv.
  pose proof (dec_nonneg_zlen (Z.to_nat p) n ltac:(lia)) as Hlen. rewrite Z2Nat.id in Hlen by lia. specialize (Hlen Hn).
  unfold integral_part, fractional_part. set (D := dec_nonneg n) in *. pose proof (zlen_nonneg D). destruct (Z.ltb_spec 0 (zlen D - s)) as [H1|H1].
  - set (k := zlen D - s) in *. pose proof (zlen_drop_zeros (ztake k D)) as Hz. rewrite zlen_ztake in Hz by lia.
    assert (zlen (zdrop k D) = s) as Hfl by (rewrite zlen_zdrop by lia; lia).
    split_and!; [by apply Forall_take|by apply Forall_drop|rewrite zlen_ztake; lia|done|lia|].
    transitivity (dec_value 0 (ztake k D ++ zdrop k D)); [|by rewrite ztake_zdrop].
    by rewrite dec_value_app, (dec_value_acc (zdrop k D) (dec_value 0 (ztake k D))), Hfl.
  - assert (digits (replicate (Z.to_nat (- (zlen D - s))) "0"%byte)) as Hrep by (by apply Forall_replicate).
    split_and!; [by repeat constructor|by apply Forall_app|done|rewrite zlen_app, zlen_replicate; lia|change (zlen _) with 0; lia|].
    change (dec_value 0 (str "0")) with 0. by rewrite dec_value_app, dec_value_zeros, !Z.mul_0_l.
Qed.

Lemma decimal_text_ok (p s : Z) (vs : list Z) (i v : Z) : 0 <= p <= 38 -> 0 <= s < 2 ^ 63 -> 0 <= i -> vs !! Z.to_nat i = Some v -> - 10 ^ p < v < 10 ^ p ->
  ColumnDecimal_StringAt (decimal_column p s vs) i = Ok (if s =? 0 then to_string v else
    (if v <? 0 then str "-" else []) ++ integral_part s (Z.abs v) ++ str "." ++ fractional_part s (Z.abs v)).
Proof.
  intros Hp Hs Hi Hl Hv. unfold ColumnDecimal_StringAt. cbn [GetScale decimal_column rbind]. fold (decimal_column p s vs). rewrite (decimal_at_ok p s vs i v) by done. cbn [rbind].
  destruct (int128_value_of v) as [Hok Hval].
  { apply (decimal_width_ok 38); [lia|]. assert (10 ^ p <= 10 ^ 38) by (apply Z.pow_le_mono_r; lia). lia. }
  rewrite Int128ToString_ok, Hval by done. cbn [rbind]. destruct (s =? 0); [done|]. rewrite to_string_sign, swrap_id by (unfold is_s; lia).
  pose proof (form_plain (v <? 0) (dec_nonneg (Z.abs v)) (proj1 (proj2 (dec_nonneg_text (Z.abs v) ltac:(lia))))) as Hf. unfold decimal_form in Hf.
  pose proof (split_dot_spec (skip_minus ((if v <? 0 then str "-" else []) ++ dec_nonneg (Z.abs v)))) as Hsp.
  destruct (split_dot _) as [ip rest]. destruct Hsp as [Hsp _]. destruct rest; [|done]. injection Hf as Hneg Hip. rewrite app_nil_r in Hsp.
  rewrite Hneg, Hsp, Hip. unfold integral_part, fractional_part. set (D := dec_nonneg (Z.abs v)). by destruct (0 <? zlen D - s).
Qed.

(** ** Main results *)

(** C32. Appending a decimal given as text: a text of an optional minus sign, digits and an
    optional point is stored as the number times ten to the scale, digits beyond the
    scale cut off (without a point, as the number itself); the stored number fits the
    precision.  Every other text, and every number that is too large, is refused
    with [ValidationError] and leaves the column as it was. *)
Theorem decimal_append (p s : Z) (vs : list Z) (text : bytes) (Hp : 0 <= p <= 38) (Hs : 0 <= s < 2 ^ 63) (Hl : zlen text < 2 ^ 62) :
  if decimal_ok p s text
  then ColumnDecimal_Append text (decimal_column p s vs) = (Ok tt, decimal_column p s (vs ++ [decimal_number s text])) /\
       - 10 ^ p < decimal_number s text < 10 ^ p
  else ColumnDecimal_Append text (decimal_column p s vs) = (Throw ValidationError, decimal_column p s vs).
Proof.
  rewrite decimal_append_ok by done. destruct (decimal_ok p s text) eqn:E; [|done]. split; [done|]. apply decimal_number_range; [lia|done].
Qed.

Lemma decimal_append_witness :
  ColumnDecimal_Append (str "-12.345") (decimal_column 5 2 []) = (Ok tt, decimal_column 5 2 [-1234]) /\
  - 10 ^ 5 < -1234 < 10 ^ 5.
Proof. apply (decimal_append 5 2 [] (str "-12.345")); [lia|lia|done]. Defined.

(** C33. Decimals survive text: the text [StringAt] gives for a number of a column is
    accepted by [Append] for the same precision and scale and stored as the same
    number, for every precision up to 38 and every scale up to the precision; with a
    scale, the text has exactly that many digits behind the point and at least one
    in front. *)
Theorem decimal_roundtrip (p s i v : Z) (vs vs' : list Z) (Hp : p <= 38) (Hs : 0 <= s <= p) (Hi : 0 <= i)
    (Hv : vs !! Z.to_nat i = Some v) (Hr : - 10 ^ p < v < 10 ^ p) :
  exists text, ColumnDecimal_StringAt (decimal_column p s vs) i = Ok text /\
    ColumnDecimal_Append text (decimal_column p s vs') = (Ok tt, decimal_column p s (vs' ++ [v])) /\
    (s <> 0 -> exists ip fp, decimal_form text = (v <? 0, ip, Some fp) /\ ip <> [] /\ zlen fp = s).
Proof.
  rewrite (decimal_text_ok p s vs i v) by (done || lia). eexists. split; [reflexivity|].
  assert (0 <= Z.abs v < 10 ^ p) as Ha by lia. destruct (dec_nonneg_text (Z.abs v) ltac:(lia)) as (Hne & Hd & _).
  assert (zlen (dec_nonneg (Z.abs v)) <= 39) as Hlen.
  { apply (dec_nonneg_zlen 39); [lia|]. assert (10 ^ p <= 10 ^ Z.of_nat 39) by (apply Z.pow_le_mono_r; lia). lia. }
  assert (zlen (if v <? 0 then str "-" else []) <= 1) as Hsg by (by destruct (v <? 0)).
  destruct (Z.eqb_spec s 0) as [-> |Hs0].
  - rewrite to_string_sign, decimal_append_ok by (rewrite ?zlen_app; lia). unfold decimal_ok, decimal_number. rewrite form_plain by done.
    change (default [] None) with (@nil byte). rewrite (proj2 (digits_forallb _) Hd), (proj2 (Z.eqb_neq _ _) Hne). cbn [forallb andb negb orb].
    pose proof (zlen_significant (Z.abs v) p ltac:(lia) Ha). rewrite (proj2 (Z.leb_le _ _)) by lia.
    rewrite dec_nonneg_value by lia. split; [|done]. repeat f_equal. destruct (Z.ltb_spec v 0); lia.
  - destruct (parts_ok p s (Z.abs v) ltac:(lia) Ha) as (Hd1 & Hd2 & Hl1 & Hl2 & Hsig & Hval). split.
    + assert (zlen (integral_part s (Z.abs v)) <= 39) as Hip.
      { unfold integral_part. destruct (Z.ltb_spec 0 (zlen (dec_nonneg (Z.abs v)) - s)); [|done]. rewrite zlen_ztake; lia. }
      rewrite decimal_append_ok by (rewrite ?zlen_app; change (zlen (str ".")) with 1; lia). unfold decimal_ok, decimal_number. rewrite form_point by done.
      change (default [] (Some ?x)) with x. rewrite (proj2 (digits_forallb _) Hd1), (proj2 (digits_forallb _) Hd2), (proj2 (Z.eqb_neq _ _) Hl1).
      cbn [andb negb orb]. rewrite (proj2 (Z.leb_le _ _)) by lia. rewrite Hl2, Z.div_mul, Hval by lia. repeat f_equal. destruct (Z.ltb_spec v 0); lia.
    + intros _. eexists _, _. split; [by apply form_point|]. split; [by intros E; rewrite E in Hl1|done].
Qed.

Lemma decimal_roundtrip_witness :
  exists text, ColumnDecimal_StringAt (decimal_column 38 10 [-7]) 0 = Ok text /\
    ColumnDecimal_Append text (decimal_column 38 10 [1]) = (Ok tt, decimal_column 38 10 ([1] ++ [-7])) /\
    (10 <> 0 -> exists ip fp, decimal_form text = (true, ip, Some fp) /\ ip <> [] /\ zlen fp = 10).
Proof. apply (decimal_roundtrip 38 10 0 (-7) [-7] [1]); done. Defined.
