(* ===== verification/Values.v ===== *)
(** * Column classes and their values (columns/numeric.cpp, date.cpp, time.cpp, uuid.cpp,
      ip4.cpp, ip6.cpp, bool.cpp, enum.cpp, string.cpp, json.cpp, decimal.cpp)

    The typed accessors of the column classes: what [Append] of one value
    stores and what [At] returns.  [ColumnClass] is the interface a template
    parameter of the typed columns must have; [Described] says which row a value
    becomes and which value a row is read as; [Lawful] are the laws. *)

From S2P Require Import Prelude Streams WireFormat CityHash Text Types Columns ColumnRows ColumnOps ColumnWire LowCardinality Factory Bignum Decimal.

#[local] Set Warnings "-register-all".

(** ** The interface *)

(** A column class [T] as a template parameter. *)
Record ColumnClass := mkClass {
  ValueType : Type;                             (** [T::ValueType] *)
  is_a : column -> bool;                        (** [WrapColumn<T>] does not return null *)
  AppendValue : ValueType -> M column unit;     (** [T::Append(const ValueType&)] *)
  At : column -> Z -> result ValueType;         (** [T::At] *)
  value_default : ValueType;                    (** [ValueType{}] *)
  null_value : ValueType;                       (** what [ColumnNullableT<T>::Append] stores under a NULL *)
}.

(** What a class promises, given the type of the column. *)
Record Described := mkDescribed {
  class :> ColumnClass;
  allowed : type -> ValueType class -> bool;    (** [Append] does not throw *)
  stored : type -> ValueType class -> val;      (** the row a value becomes *)
  loaded : type -> val -> ValueType class;      (** the value a row is read as *)
  exact : type -> ValueType class -> Prop;      (** the value is read back unchanged *)
  stride : type -> Z;                           (** elements or bytes per row in the index computation of [At] *)
}.

(** One more row. *)
Definition grown (c c' : column) (row : val) : Prop :=
  wf_col c' /\ ColumnType c' = ColumnType c /\ rows c' = rows c ++ [row].

Record Lawful (D : Described) : Prop := mkLawful {
  append_ok : forall c v, wf_col c -> is_a D c = true -> allowed D (ColumnType c) v = true ->
    weight (rows c) + vweight (stored D (ColumnType c) v) < 2 ^ 63 ->
    exists c', AppendValue D v c = (Ok tt, c') /\ is_a D c' = true /\ grown c c' (stored D (ColumnType c) v);
  append_refused : forall c v, wf_col c -> is_a D c = true -> allowed D (ColumnType c) v = false ->
    weight (rows c) + vweight (stored D (ColumnType c) v) < 2 ^ 63 ->
    exists e c', AppendValue D v c = (Throw e, c') /\ defined (A := unit) (Throw e);
  at_ok : forall c i r, wf_col c -> is_a D c = true -> 0 <= i < 2 ^ 63 -> weight (rows c) < 2 ^ 63 ->
    rows c !! Z.to_nat i = Some r -> At D c i = Ok (loaded D (ColumnType c) r);
  at_out : forall c i, wf_col c -> is_a D c = true -> zlen (rows c) <= i -> i * stride D (ColumnType c) < 2 ^ 64 ->
    exists e, At D c i = Throw e /\ defined (A := unit) (Throw e);
  stride_pos : forall c, wf_col c -> is_a D c = true -> 1 <= stride D (ColumnType c);
  exact_ok : forall c v, wf_col c -> is_a D c = true -> exact D (ColumnType c) v ->
    loaded D (ColumnType c) (stored D (ColumnType c) v) = v;
}.

(** ** Numbers *)

(** The types whose values are negative for the upper half of the bit patterns. *)
Definition signed_code (c : Code.t) : bool :=
  match c with
  | Code.Int8 | Code.Int16 | Code.Int32 | Code.Int64 | Code.Int128 | Code.Enum8 | Code.Enum16 => true
  | _ => false
  end.

Definition bits (c : Code.t) : Z := 8 * Z.of_nat (sizeof c).

Definition bits_value (c : Code.t) (z : Z) : Z := if signed_code c then swrap (bits c) z else z.

(** A value of a number type; a float is its bit pattern. *)
Definition in_range (c : Code.t) (v : Z) : Prop := if signed_code c then is_s (bits c) v else is_u (bits c) v.

Definition ColumnVector_Append (value : Z) : M column unit :=
  fun c => match c with
           | ColumnVector code data => (Ok tt, ColumnVector code (data ++ [wrap (bits code) value]))
           | _ => (Throw Undefined, c)
           end.

Definition ColumnVector_At (c : column) (n : Z) : result Z :=
  match c with
  | ColumnVector code data => let! v := at_ data n in Ok (bits_value code v)
  | _ => Throw Undefined
  end.

(** [Erase(pos, count)]. *)
Definition ColumnVector_Erase (pos count : Z) : M column unit :=
  fun c => match c with
           | ColumnVector code data => (Ok tt, ColumnVector code (Erase data pos count))
           | _ => (Throw Undefined, c)
           end.

Definition is_vector (code : Code.t) (c : column) : bool :=
  match c with ColumnVector code' _ => bool_decide (code' = code) && vector_code code | _ => false end.

(** A stored number. *)
Definition num (r : val) : Z := match r with VNum z => z | _ => 0 end.

Definition Vector (code : Code.t) : Described :=
  mkDescribed (mkClass Z (is_vector code) ColumnVector_Append ColumnVector_At 0 0)
    (fun _ _ => true) (fun _ v => VNum (wrap (bits code) v)) (fun _ r => bits_value code (num r))
    (fun _ v => in_range code v) (fun _ => 1).

(** ** Enumerations *)

(** [Append(value, checkValue)]. *)
Definition ColumnEnum_Append (value : Z) (checkValue : bool) : M column unit :=
  fun c => match c with
           | ColumnEnum code e data =>
             if checkValue && negb (HasEnumValue e value) then (Throw ValidationError, c)
             else (Ok tt, ColumnEnum code e (data ++ [wrap (bits code) value]))
           | _ => (Throw Undefined, c)
           end.

(** [Append(name)]. *)
Definition ColumnEnum_AppendName (name : bytes) : M column unit :=
  fun c => match c with
           | ColumnEnum code e data =>
             match GetEnumValue e name with
             | Ok v => (Ok tt, ColumnEnum code e (data ++ [wrap (bits code) v]))
             | Throw err => (Throw err, c)
             end
           | _ => (Throw Undefined, c)
           end.

Definition ColumnEnum_At (c : column) (n : Z) : result Z :=
  match c with
  | ColumnEnum code _ data => let! v := at_ data n in Ok (bits_value code v)
  | _ => Throw Undefined
  end.

Definition ColumnEnum_NameAt (c : column) (n : Z) : result bytes :=
  match c with
  | ColumnEnum code e data => let! v := at_ data n in GetEnumName e (bits_value code v)
  | _ => Throw Undefined
  end.

(** [data_.at(n) = v]. *)
Definition set_at (data : list Z) (n v : Z) : result (list Z) :=
  let! _ := at_ data n in Ok (<[Z.to_nat n := v]> data).

Definition ColumnEnum_SetAt (n value : Z) (checkValue : bool) : M column unit :=
  fun c => match c with
           | ColumnEnum code e data =>
             if checkValue && negb (HasEnumValue e value) then (Throw ValidationError, c)
             else match set_at data n (wrap (bits code) value) with
                  | Ok data => (Ok tt, ColumnEnum code e data)
                  | Throw err => (Throw err, c)
                  end
           | _ => (Throw Undefined, c)
           end.

(** The right-hand side of the assignment, which looks the name up, is evaluated first. *)
Definition ColumnEnum_SetNameAt (n : Z) (name : bytes) : M column unit :=
  fun c => match c with
           | ColumnEnum code e data =>
             match (let! v := GetEnumValue e name in set_at data n (wrap (bits code) v)) with
             | Ok data => (Ok tt, ColumnEnum code e data)
             | Throw err => (Throw err, c)
             end
           | _ => (Throw Undefined, c)
           end.

Definition is_enum (code : Code.t) (c : column) : bool :=
  match c with ColumnEnum code' _ _ => bool_decide (code' = code) && enum_code code | _ => false end.

(** [ColumnEnum<T>]; the default of [checkValue] is [false]. *)
Definition Enum (code : Code.t) : Described :=
  mkDescribed (mkClass Z (is_enum code) (fun v => ColumnEnum_Append v false) ColumnEnum_At 0 0)
    (fun _ _ => true) (fun _ v => VNum (wrap (bits code) v)) (fun _ r => bits_value code (num r))
    (fun _ v => in_range code v) (fun _ => 1).

(** ** Strings *)

Definition bytes_of (r : val) : bytes := match r with VStr s => s | _ => [] end.

(** [Append(string_view)] and the other overloads of [ColumnString]; where the bytes are kept is
    StringStorage's subject. *)
Definition ColumnString_Append (s : bytes) : M column unit :=
  fun c => match c with
           | ColumnString items => (Ok tt, ColumnString (items ++ [s]))
           | _ => (Throw Undefined, c)
           end.

Definition ColumnString_At (c : column) (n : Z) : result bytes :=
  match c with ColumnString items => at_ items n | _ => Throw Undefined end.

Definition is_string (c : column) : bool := match c with ColumnString _ => true | _ => false end.

Definition StringC : Described :=
  mkDescribed (mkClass bytes is_string ColumnString_Append ColumnString_At [] [])
    (fun _ _ => true) (fun _ s => VStr s) (fun _ r => bytes_of r) (fun _ _ => True) (fun _ => 1).

Definition ColumnFixedString_Append (s : bytes) : M column unit :=
  fun c => match c with
           | ColumnFixedString n data =>
             match FixedString_Append n data s with
             | Ok data => (Ok tt, ColumnFixedString n data)
             | Throw e => (Throw e, c)
             end
           | _ => (Throw Undefined, c)
           end.

Definition ColumnFixedString_At (c : column) (i : Z) : result bytes :=
  match c with ColumnFixedString n data => FixedString_At n data i | _ => Throw Undefined end.

Definition is_fixed (c : column) : bool := match c with ColumnFixedString _ _ => true | _ => false end.

Definition fixed_size (t : type) : Z := match t with TFixedString n => n | _ => 1 end.

(** A string is padded with zero bytes. *)
Definition padded (n : Z) (s : bytes) : bytes := s ++ replicate (Z.to_nat (n - zlen s)) x00.

Definition FixedStringC : Described :=
  mkDescribed (mkClass bytes is_fixed ColumnFixedString_Append ColumnFixedString_At [] [])
    (fun t s => zlen s <=? fixed_size t) (fun t s => VStr (padded (fixed_size t) s)) (fun _ r => bytes_of r)
    (fun t s => zlen s = fixed_size t) fixed_size.

(** ** Nothing *)

(** [Append(unique_ptr<void*>)]. *)
Definition ColumnNothing_Append (_ : unit) : M column unit :=
  fun c => match c with
           | ColumnNothing size => (Ok tt, ColumnNothing (wrap 64 (size + 1)))
           | _ => (Throw Undefined, c)
           end.

(** [At] returns [nullptr], whatever the row. *)
Definition ColumnNothing_At (c : column) (_ : Z) : result unit :=
  match c with ColumnNothing _ => Ok tt | _ => Throw Undefined end.

(** ** Classes that hold another column in [data_] *)

(** Run an operation on [data_]. *)
Definition on_data {A} (m : M column A) : M column A :=
  fun c => match c with
           | ColumnWrap w ty d => let '(r, d) := m d in (r, ColumnWrap w ty d)
           | _ => (Throw Undefined, c)
           end.

Definition from_data {A} (f : column -> result A) (c : column) : result A :=
  match c with ColumnWrap _ _ d => f d | _ => Throw Undefined end.

(** *** Bool *)

Definition ColumnBool_Append (value : bool) : M column unit := on_data (ColumnVector_Append (Z.b2z value)).

Definition ColumnBool_At (c : column) (n : Z) : result bool :=
  from_data (fun d => let! v := ColumnVector_At d n in Ok (negb (v =? 0))) c.

(** *** Dates and times

    [std::time_t] is a signed 64-bit number of seconds; division truncates towards zero. *)

Definition ColumnDate_AppendRaw (value : Z) : M column unit := on_data (ColumnVector_Append value).

Definition ColumnDate_RawAt (c : column) (n : Z) : result Z := from_data (fun d => ColumnVector_At d n) c.

Definition ColumnDate_Append (value : Z) : M column unit :=
  on_data (ColumnVector_Append (wrap 16 (Z.quot value 86400))).

Definition ColumnDate_At (c : column) (n : Z) : result Z :=
  from_data (fun d => let! v := ColumnVector_At d n in Ok (v * 86400)) c.

Definition ColumnDate32_AppendRaw (value : Z) : M column unit := on_data (ColumnVector_Append value).

Definition ColumnDate32_RawAt (c : column) (n : Z) : result Z := from_data (fun d => ColumnVector_At d n) c.

Definition ColumnDate32_Append (value : Z) : M column unit :=
  on_data (ColumnVector_Append (swrap 32 (Z.quot value 86400))).

Definition ColumnDate32_At (c : column) (n : Z) : result Z :=
  from_data (fun d => let! v := ColumnVector_At d n in Ok (v * 86400)) c.

Definition ColumnDateTime_AppendRaw (value : Z) : M column unit := on_data (ColumnVector_Append value).

Definition ColumnDateTime_RawAt (c : column) (n : Z) : result Z := from_data (fun d => ColumnVector_At d n) c.

Definition ColumnDateTime_Append (value : Z) : M column unit := on_data (ColumnVector_Append (wrap 32 value)).

Definition ColumnDateTime_At (c : column) (n : Z) : result Z := from_data (fun d => ColumnVector_At d n) c.

Definition Timezone (c : column) : result bytes :=
  match c with
  | ColumnWrap WDateTime (TDateTime tz) _ | ColumnWrap WDateTime64 (TDateTime64 _ tz) _ => Ok tz
  | _ => Throw Undefined
  end.

(** The number becomes an [Int128] on the way into the decimal column. *)
Definition ColumnDateTime64_Append (value : Z) : M column unit :=
  on_data (ColumnDecimal_AppendInt128 (int128_of value)).

Definition ColumnDateTime64_At (c : column) (n : Z) : result Z :=
  from_data (fun d => let! v := ColumnDecimal_At d n in Ok (swrap 64 (Int128Low64 v))) c.

Definition ColumnTime_Append (value : Z) : M column unit := on_data (ColumnVector_Append value).

Definition ColumnTime_At (c : column) (n : Z) : result Z := from_data (fun d => ColumnVector_At d n) c.

Definition ColumnTime64_Append (value : Z) : M column unit := on_data (ColumnVector_Append value).

Definition ColumnTime64_At (c : column) (n : Z) : result Z := from_data (fun d => ColumnVector_At d n) c.

(** *** Addresses and identifiers *)

(** [Append(uint32_t)] and [Append(in_addr)]: [ip] is the number [s_addr] would hold. *)
Definition ColumnIPv4_Append (ip : Z) : M column unit := on_data (ColumnVector_Append (htonl ip)).

Definition ColumnIPv4_At (c : column) (n : Z) : result Z :=
  from_data (fun d => let! v := ColumnVector_At d n in Ok (htonl v)) c.

(** [Append(const in6_addr&)]: an address is 16 bytes. *)
Definition ColumnIPv6_Append (addr : bytes) : M column unit := on_data (ColumnFixedString_Append addr).

Definition ColumnIPv6_At (c : column) (n : Z) : result bytes := from_data (fun d => ColumnFixedString_At d n) c.

Definition ColumnUUID_Append (value : Z * Z) : M column unit :=
  on_data (ColumnVector_Append (fst value) ;;; ColumnVector_Append (snd value)).

Definition ColumnUUID_At (c : column) (n : Z) : result (Z * Z) :=
  from_data (fun d =>
    let! a := ColumnVector_At d (wrap 64 (n * 2)) in
    let! b := ColumnVector_At d (wrap 64 (n * 2 + 1)) in
    Ok (a, b)) c.

(** *** JSON *)

Definition ColumnJSON_Append (s : bytes) : M column unit := on_data (ColumnString_Append s).

Definition ColumnJSON_At (c : column) (n : Z) : result bytes := from_data (fun d => ColumnString_At d n) c.

(** *** As classes *)

Definition inner_type (w : wrapper) (t : type) : type := default t (wrapped_type w t).

(** The class [w], whose [Append] converts the value with [into] and passes it to the class [N] of [data_],
    and whose [At] converts back with [out]. *)
Definition delegating (w : wrapper) (N : Described) {V : Type} (append : V -> M column unit)
    (at' : column -> Z -> result V) (into : V -> ValueType N) (out : ValueType N -> V) (d nv : V) (exact' : type -> V -> Prop) : Described :=
  mkDescribed
    (mkClass V (fun c => match c with ColumnWrap w' _ d => bool_decide (w' = w) && is_a N d | _ => false end)
       append at' d nv)
    (fun t v => allowed N (inner_type w t) (into v))
    (fun t v => stored N (inner_type w t) (into v))
    (fun t r => out (loaded N (inner_type w t) r))
    exact' (fun t => stride N (inner_type w t)).

Definition BoolC : Described :=
  delegating WBool (Vector Code.UInt8) ColumnBool_Append ColumnBool_At Z.b2z (fun v => negb (v =? 0)) false false (fun _ _ => True).

(** Midnights of the days the column can hold. *)
Definition DateC : Described :=
  delegating WDate (Vector Code.UInt16) ColumnDate_Append ColumnDate_At (fun v => wrap 16 (Z.quot v 86400))
    (fun v => v * 86400) 0 0 (fun _ v => exists d, v = d * 86400 /\ is_u 16 d).

Definition Date32C : Described :=
  delegating WDate32 (Vector Code.Int32) ColumnDate32_Append ColumnDate32_At (fun v => swrap 32 (Z.quot v 86400))
    (fun v => v * 86400) 0 0 (fun _ v => exists d, v = d * 86400 /\ is_s 32 d).

Definition DateTimeC : Described :=
  delegating WDateTime (Vector Code.UInt32) ColumnDateTime_Append ColumnDateTime_At (wrap 32) id 0 0 (fun _ v => is_u 32 v).

Definition TimeC : Described :=
  delegating WTime (Vector Code.Int32) ColumnTime_Append ColumnTime_At id id 0 0 (fun _ v => is_s 32 v).

Definition Time64C : Described :=
  delegating WTime64 (Vector Code.Int64) ColumnTime64_Append ColumnTime64_At id id 0 0 (fun _ v => is_s 64 v).

Definition IPv4C : Described :=
  delegating WIPv4 (Vector Code.UInt32) ColumnIPv4_Append ColumnIPv4_At htonl htonl 0 0 (fun _ v => is_u 32 v).

Definition IPv6C : Described :=
  delegating WIPv6 FixedStringC ColumnIPv6_Append ColumnIPv6_At id id (replicate 16 x00) (replicate 16 x00) (fun _ a => zlen a = 16).

(** A NULL is stored over an empty object. *)
Definition JSONC : Described :=
  delegating WJSON StringC ColumnJSON_Append ColumnJSON_At id id [] (str "{}") (fun _ _ => True).

(** *** Decimals *)

Definition is_decimal (c : column) : bool :=
  match c with ColumnWrap WDecimal _ _ => true | _ => false end.

Definition type_precision (t : type) : Z := match t with TDecimal p _ => p | _ => 0 end.

(** [Append(const Int128&)] and [At], an [Int128] being the number it holds. *)
Definition DecimalC : Described :=
  mkDescribed
    (mkClass Z is_decimal (fun v => ColumnDecimal_AppendInt128 (int128_of v))
       (fun c n => let! v := ColumnDecimal_At c n in Ok (int128_value v)) 0 0)
    (fun _ _ => true) (fun t v => VNum (wrap (decimal_width (type_precision t)) v))
    (fun t r => swrap (decimal_width (type_precision t)) (num r))
    (fun t v => is_s (decimal_width (type_precision t)) v) (fun _ => 1).

Definition DateTime64C : Described :=
  delegating WDateTime64 DecimalC ColumnDateTime64_Append ColumnDateTime64_At id (swrap 64) 0 0 (fun _ v => is_s 64 v).

(** *** UUIDs *)

Definition is_uuid (c : column) : bool :=
  match c with ColumnWrap WUUID _ d => is_vector Code.UInt64 d | _ => false end.

Definition UUIDC : Described :=
  mkDescribed (mkClass (Z * Z) is_uuid ColumnUUID_Append ColumnUUID_At (0, 0) (0, 0))
    (fun _ _ => true) (fun _ v => VTuple [VNum (wrap 64 (fst v)); VNum (wrap 64 (snd v))])
    (fun _ r => match r with VTuple [a; b] => (num a, num b) | _ => (0, 0) end)
    (fun _ v => is_u 64 (fst v) /\ is_u 64 (snd v)) (fun _ => 2).

(** ** Proofs *)

Lemma bits_pow (c : Code.t) : 2 ^ bits c = 256 ^ Z.of_nat (sizeof c).
Proof. unfold bits. change 256 with (2 ^ 8). by rewrite <- Z.pow_mul_r by lia. Qed.

Lemma bits_pos (c : Code.t) : 8 <= bits c.
Proof. unfold bits. destruct c; cbn; lia. Qed.

Lemma fits_wrap (c : Code.t) (v : Z) : fits_width (sizeof c) (wrap (bits c) v).
Proof. unfold fits_width. rewrite <- bits_pow. apply wrap_range. pose proof (bits_pos c). lia. Qed.

Lemma bits_value_wrap (c : Code.t) (v : Z) : in_range c v -> bits_value c (wrap (bits c) v) = v.
Proof.
  unfold in_range, bits_value. pose proof (bits_pos c). destruct (signed_code c).
  - intros. by rewrite swrap_wrap, swrap_id by (done || lia).
  - apply wrap_id.
Qed.

Lemma at_lookup {A} (l : list A) (i : Z) (x : A) : 0 <= i -> l !! Z.to_nat i = Some x -> at_ l i = Ok x.
Proof. intros Hi Hl. unfold at_. by rewrite (proj2 (Z.ltb_ge _ _)), Hl by lia. Qed.

Lemma at_beyond {A} (l : list A) (i : Z) : zlen l <= i -> at_ l i = Throw OutOfRange.
Proof.
  intros Hi. unfold at_. destruct (Z.ltb_spec i 0); [done|].
  unfold zlen in Hi. by rewrite lookup_ge_None_2 by lia.
Qed.

Lemma defined_exn (e : exn) : e <> Undefined -> e <> Diverges -> defined (A := unit) (Throw e).
Proof. intros H1 H2. split; congruence. Qed.

Lemma lookup_num (data : list Z) (i : Z) (r : val) : map VNum data !! Z.to_nat i = Some r ->
  exists z, data !! Z.to_nat i = Some z /\ r = VNum z.
Proof. rewrite list_lookup_fmap. destruct (data !! Z.to_nat i) as [z|]; [|done]. intros [= <-]. eauto. Qed.

(** *** Numbers *)

Lemma Vector_lawful (code : Code.t) : Lawful (Vector code).
Proof.
  split; cbn [is_a class AppendValue At allowed stored loaded exact stride Vector];
    [intros c v| |intros c i r|intros c i|lia|intros c v]; intros Hw Ha; try done;
    destruct c as [code' data| | | | | | | | | |]; try done; apply andb_prop in Ha as [->%bool_decide_eq_true Hc].
  - intros _ _. cbn [ColumnVector_Append]. eexists. split; [done|]. split; [by cbn; rewrite bool_decide_true|].
    unfold grown. split_and!; [|done|cbn [rows]; by rewrite map_app].
    destruct Hw as [Hv Hf]. split; [done|]. apply Forall_app. split; [done|]. constructor; [apply fits_wrap|done].
  - cbn [rows ColumnVector_At]. intros [Hi _] _ (z & Hz & ->)%lookup_num. by rewrite (at_lookup _ _ z).
  - cbn [rows ColumnVector_At]. intros Hi _. rewrite zlen_map in Hi. rewrite at_beyond by done. eexists. by split; [|apply defined_exn].
  - intros Hr. cbn [num]. by apply bits_value_wrap.
Qed.

Lemma Enum_lawful (code : Code.t) : Lawful (Enum code).
Proof.
  split; cbn [is_a class AppendValue At allowed stored loaded exact stride Enum];
    [intros c v| |intros c i r|intros c i|lia|intros c v]; intros Hw Ha; try done;
    destruct c as [|code' e data| | | | | | | | |]; try done; apply andb_prop in Ha as [->%bool_decide_eq_true Hc].
  - intros _ _. cbn [ColumnEnum_Append andb]. eexists. split; [done|]. split; [by cbn; rewrite bool_decide_true|].
    unfold grown. split_and!; [|done|cbn [rows]; by rewrite map_app].
    destruct Hw as [Hv Hf]. split; [done|]. apply Forall_app. split; [done|]. constructor; [apply fits_wrap|done].
  - cbn [rows ColumnEnum_At]. intros [Hi _] _ (z & Hz & ->)%lookup_num. by rewrite (at_lookup _ _ z).
  - cbn [rows ColumnEnum_At]. intros Hi _. rewrite zlen_map in Hi. rewrite at_beyond by done. eexists. by split; [|apply defined_exn].
  - intros Hr. cbn [num]. by apply bits_value_wrap.
Qed.

(** *** Strings *)

Lemma StringC_lawful : Lawful StringC.
Proof.
  split; cbn [is_a class AppendValue At allowed stored loaded exact stride StringC];
    [intros c v| |intros c i r|intros c i|lia|intros c v]; intros Hw Ha; try done;
    destruct c as [| |items| | | | | | | |]; try done.
  - intros _ Hfit. cbn [ColumnString_Append]. eexists. split; [done|]. split; [done|].
    unfold grown. split_and!; [|done|cbn [rows]; by rewrite map_app].
    apply Forall_app. split; [done|]. constructor; [|done]. cbn [vweight] in Hfit.
    pose proof (weight_nonneg (rows (ColumnString items))). lia.
  - cbn [rows ColumnString_At]. intros [Hi _] _. rewrite list_lookup_fmap.
    destruct (items !! Z.to_nat i) as [s|] eqn:E; [|done]. intros [= <-]. by rewrite (at_lookup _ _ s).
  - cbn [rows ColumnString_At]. intros Hi _. rewrite zlen_map in Hi. rewrite at_beyond by done. eexists. by split; [|apply defined_exn].
Qed.

Lemma chunks_lookup (n k i : nat) (b : bytes) : (i < k)%nat -> chunks n k b !! i = Some (take n (drop (n * i) b)).
Proof.
  intros Hi. rewrite <- (take_drop i (chunks n k b)), lookup_app_r by (rewrite length_take; lia).
  rewrite length_take, length_chunks, Nat.min_l, Nat.sub_diag, chunks_drop by lia.
  destruct (k - i)%nat eqn:E; [lia|]. done.
Qed.

(** Row [i] of a fixed-string column, inside and outside. *)
Lemma FixedString_At_ok (n i : Z) (data : bytes) (r : val) : wf_col (ColumnFixedString n data) -> 0 <= i ->
  rows (ColumnFixedString n data) !! Z.to_nat i = Some r -> FixedString_At n data i = Ok (bytes_of r).
Proof.
  intros (Hn & Hm & Hf) Hi Hr. pose proof (fixed_length n data Hn Hm) as Hl.
  pose proof (lookup_lt_Some _ _ _ Hr) as Hlt. cbn [rows] in *. rewrite length_map, length_chunks in Hlt.
  rewrite list_lookup_fmap, chunks_lookup in Hr by done. cbn in Hr. injection Hr as <-.
  assert (0 <= i * n /\ i * n + n <= zlen data) as [H1 H2] by (unfold zlen; nia).
  unfold FixedString_At. rewrite wrap_id by (unfold is_u; lia).
  destruct (lookup_in_range data (i * n)) as [x Hx]; [lia|]. rewrite (at_lookup _ _ x) by (done || lia). cbn [rbind bytes_of].
  rewrite ztake_take, zdrop_drop. do 2 f_equal. f_equal. lia.
Qed.

Lemma FixedString_At_out (n i : Z) (data : bytes) : wf_col (ColumnFixedString n data) ->
  zlen (rows (ColumnFixedString n data)) <= i -> i * n < 2 ^ 64 -> FixedString_At n data i = Throw OutOfRange.
Proof.
  intros Hw Hi Hb. rewrite <- (Size_rows _ Hw) in Hi. destruct Hw as (Hn & Hm & Hf). cbn [Size] in Hi.
  pose proof (Z.div_mod (zlen data) n ltac:(lia)) as Hq. pose proof (zlen_nonneg data).
  pose proof (Z.div_pos (zlen data) n ltac:(lia) Hn).
  assert (zlen data <= i * n) by nia.
  unfold FixedString_At. rewrite wrap_id by (unfold is_u; nia). by rewrite at_beyond.
Qed.

Lemma FixedString_push (n : Z) (data s : bytes) : wf_col (ColumnFixedString n data) -> zlen s <= n ->
  zlen data + n < 2 ^ 64 ->
  FixedString_Append n data s = Ok (data ++ padded n s) /\
  grown (ColumnFixedString n data) (ColumnFixedString n (data ++ padded n s)) (VStr (padded n s)).
Proof.
  intros Hw Hs Hf. pose proof Hw as (Hn & Hm & _). pose proof (zlen_nonneg s).
  assert (zlen (padded n s) = n) as Hp by (unfold padded; rewrite zlen_app, zlen_replicate; lia).
  destruct (fixed_snoc n data (padded n s) Hw Hp Hf) as (_ & Hw' & Hq & _).
  split; [unfold FixedString_Append; by rewrite (proj2 (Z.ltb_ge _ _)) by lia|].
  split; [done|]. split; [done|]. cbn [rows]. rewrite Hq. pose proof (Z.div_pos (zlen data) n (zlen_nonneg data) Hn).
  rewrite Z2Nat.inj_add by lia. rewrite chunks_app by (by apply fixed_length). rewrite map_app. f_equal.
  change (Z.to_nat 1) with 1%nat. cbn [chunks map]. rewrite take_ge by (unfold zlen in Hp; lia). done.
Qed.

Lemma weight_fixed (n : Z) (data : bytes) : wf_col (ColumnFixedString n data) ->
  zlen data <= weight (rows (ColumnFixedString n data)).
Proof. intros (Hn & Hm & _). cbn [rows]. rewrite weight_chunks by (by apply fixed_length). lia. Qed.

Lemma FixedStringC_lawful : Lawful FixedStringC.
Proof.
  split; cbn [is_a class AppendValue At allowed stored loaded exact stride FixedStringC];
    [intros c v|intros c v|intros c i r|intros c i|intros c|intros c v]; intros Hw Ha;
    destruct c as [| | |n data| | | | | | |]; try done; cbn [ColumnType fixed_size].
  - intros Hl%Z.leb_le Hfit. pose proof (weight_fixed _ _ Hw). cbn [vweight] in Hfit.
    assert (zlen (padded n v) = n) by (unfold padded; rewrite zlen_app, zlen_replicate; pose proof (zlen_nonneg v); lia).
    destruct (FixedString_push n data v Hw Hl ltac:(lia)) as [E Hg].
    cbn [ColumnFixedString_Append]. rewrite E. eauto.
  - intros Hl%Z.leb_gt _. cbn [ColumnFixedString_Append]. unfold FixedString_Append. rewrite (proj2 (Z.ltb_lt _ _)) by done.
    eexists _, _. by split; [|apply defined_exn].
  - intros [Hi _] _ Hr. by apply FixedString_At_ok.
  - intros Hi Hb. cbn [ColumnFixedString_At]. rewrite FixedString_At_out by done. eexists. by split; [|apply defined_exn].
  - destruct Hw as [Hn _]. lia.
  - intros Hl. cbn [bytes_of]. unfold padded. rewrite Hl, Z.sub_diag. cbn. by rewrite app_nil_r.
Qed.

(** *** Delegation *)

Lemma wrap_grown (w : wrapper) (ty : type) (d d' : column) (row : val) : w <> WUUID ->
  wf_col (ColumnWrap w ty d) -> grown d d' row -> grown (ColumnWrap w ty d) (ColumnWrap w ty d') row.
Proof.
  intros Hw (Ht & Hd & _) (Hw' & Ht' & Hr). split_and!; [|done|by destruct w].
  split_and!; [by rewrite Ht'|done|done].
Qed.

Section Delegating.
Context (w : wrapper) (N : Described) {V : Type} (append : V -> M column unit) (at' : column -> Z -> result V)
  (into : V -> ValueType N) (out : ValueType N -> V) (dflt nv : V) (exact' : type -> V -> Prop).
Hypothesis HN : Lawful N.
Hypothesis Hw : w <> WUUID.
Hypothesis Happend : forall v, append v = on_data (AppendValue N (into v)).
Hypothesis Hat : forall ty d i, at' (ColumnWrap w ty d) i = let! v := At N d i in Ok (out v).
Hypothesis Hexact : forall d v ty, wf_col d -> is_a N d = true -> wrapped_type w ty = Some (ColumnType d) -> exact' ty v ->
  out (loaded N (ColumnType d) (stored N (ColumnType d) (into v))) = v.

Let D := delegating w N append at' into out dflt nv exact'.

Lemma delegating_inner (c : column) : wf_col c -> is_a D c = true -> exists ty d, c = ColumnWrap w ty d /\ wf_col d /\
  is_a N d = true /\ wrapped_type w ty = Some (ColumnType d) /\ inner_type w ty = ColumnType d /\ rows c = rows d.
Proof.
  intros Hc Ha. destruct c as [| | | | |w' ty d| | | | |]; try done.
  cbn in Ha. apply andb_prop in Ha as [->%bool_decide_eq_true Ha].
  destruct Hc as (Ht & Hd & _). exists ty, d. split_and!; try done.
  - unfold inner_type. by rewrite Ht.
  - by destruct w.
Qed.

Lemma delegating_lawful : Lawful D.
Proof using Hat Hw Happend Hexact HN.
  split; [intros c v|intros c v|intros c i r|intros c i|intros c|intros c v]; intros Hc Ha;
    destruct (delegating_inner c Hc Ha) as (ty & d & -> & Hd & Had & Ht & Hin & Hr);
    unfold D, delegating; cbn [ColumnType allowed stored loaded exact stride AppendValue At is_a class]; rewrite ?Hr, ?Hin.
  - intros Hal Hf. destruct (append_ok N HN d (into v) Hd Had Hal Hf) as (d' & E & Ha' & Hg).
    rewrite Happend. cbn [on_data]. rewrite E. eexists. split; [done|]. split; [by rewrite bool_decide_true|].
    by apply wrap_grown.
  - intros Hal Hf. destruct (append_refused N HN d (into v) Hd Had Hal Hf) as (e & d' & E & He).
    rewrite Happend. cbn [on_data]. rewrite E. eauto.
  - intros Hi Hf Hl. rewrite Hat, (at_ok N HN d i r) by done. done.
  - intros Hi Hs. destruct (at_out N HN d i Hd Had Hi Hs) as (e & E & He). rewrite Hat, E. eauto.
  - by apply (stride_pos N HN).
  - intros Hv. exact (Hexact d v ty Hd Had Ht Hv).
Qed.
End Delegating.

(** *** The delegating classes *)

Lemma vector_exact (code : Code.t) (d : column) (v : Z) : in_range code v ->
  loaded (Vector code) (ColumnType d) (stored (Vector code) (ColumnType d) v) = v.
Proof. apply bits_value_wrap. Qed.

Lemma BoolC_lawful : Lawful BoolC.
Proof.
  apply delegating_lawful; try done; [apply Vector_lawful|].
  intros d v ty _ _ _ _. rewrite vector_exact; [by destruct v|]. by destruct v.
Qed.

Lemma DateC_lawful : Lawful DateC.
Proof.
  apply delegating_lawful; try done; [apply Vector_lawful|].
  intros d v ty _ _ _ (k & -> & Hk). rewrite Z.quot_mul by lia. rewrite wrap_id by done. by rewrite vector_exact.
Qed.

Lemma Date32C_lawful : Lawful Date32C.
Proof.
  apply delegating_lawful; try done; [apply Vector_lawful|].
  intros d v ty _ _ _ (k & -> & Hk). rewrite Z.quot_mul by lia. rewrite swrap_id by (done || lia). by rewrite vector_exact.
Qed.

Lemma bind_id {A} (r : result A) : (let! v := r in Ok (id v)) = r.
Proof. by destruct r. Qed.

Lemma DateTimeC_lawful : Lawful DateTimeC.
Proof.
  apply delegating_lawful; try done; [apply Vector_lawful|intros; symmetry; apply bind_id|].
  intros d v ty _ _ _ Hv. rewrite wrap_id by done. by apply vector_exact.
Qed.

Lemma TimeC_lawful : Lawful TimeC.
Proof.
  apply delegating_lawful; try done; [apply Vector_lawful|intros; symmetry; apply bind_id|].
  intros d v ty _ _ _ Hv. by apply vector_exact.
Qed.

Lemma Time64C_lawful : Lawful Time64C.
Proof.
  apply delegating_lawful; try done; [apply Vector_lawful|intros; symmetry; apply bind_id|].
  intros d v ty _ _ _ Hv. by apply vector_exact.
Qed.

Lemma htonl_range (v : Z) : fits_width 4 (htonl v).
Proof. apply (fits_le_value 4). unfold zlen. by rewrite length_rev, length_le_bytes. Qed.

Lemma IPv4C_lawful : Lawful IPv4C.
Proof.
  apply delegating_lawful; try done; [apply Vector_lawful|].
  intros d v ty _ _ _ Hv. rewrite vector_exact by apply htonl_range. by apply htonl_htonl.
Qed.

Lemma IPv6C_lawful : Lawful IPv6C.
Proof.
  apply delegating_lawful; try done; [apply FixedStringC_lawful|intros; symmetry; apply bind_id|].
  intros d v ty Hd Ha Ht Hv. unfold id. apply (exact_ok _ FixedStringC_lawful); try done.
  cbn [exact FixedStringC]. destruct ty as [[]| | | | | | | | | | |]; try done. injection Ht as <-. done.
Qed.

Lemma JSONC_lawful : Lawful JSONC.
Proof. apply delegating_lawful; try done; [apply StringC_lawful|]. intros; symmetry; apply bind_id. Qed.

(** *** Decimals *)

Lemma decimal_shape (c : column) : wf_col c -> is_decimal c = true -> exists p s data,
  c = ColumnWrap WDecimal (TDecimal p s) (ColumnVector (decimal_code p) data) /\ bits (decimal_code p) = decimal_width p /\
  wf_col (ColumnVector (decimal_code p) data).
Proof.
  intros Hw Ha. destruct c as [| | | | |[] ty d| | | | |]; try done. destruct Hw as (Ht & Hd & _).
  destruct ty as [[]| | | | |p s| | | | | |]; try done. cbn in Ht. injection Ht as Ht.
  assert (shape (TSimple (decimal_code p)) d) as Hs by (unfold decimal_code; rewrite Ht; by apply shape_of_type).
  exists p, s. unfold decimal_code, decimal_width in *.
  destruct (p <=? 9); [|destruct (p <=? 18)]; destruct Hs as [data ->]; eauto.
Qed.

Lemma low64_value (x : Int128) : swrap 64 (int128_value x) = swrap 64 (Int128Low64 x).
Proof.
  unfold int128_value, Int128Low64. rewrite <- (swrap_wrap 64 (swrap 128 _)), <- (swrap_wrap 64 (i_lo x)) by lia. f_equal.
  assert (forall z, wrap 64 (swrap 128 z) = wrap 64 z) as ->.
  { intros z. transitivity (wrap 64 (wrap 128 (swrap 128 z))); [symmetry|rewrite wrap_swrap by lia]; unfold wrap; apply Z.mod_mod_divide; by exists (2 ^ 64). }
  unfold wrap. rewrite Z.mul_comm. apply Z_mod_plus_full.
Qed.

Lemma value_of_words (z : Z) : int128_value (mkInt128 (z mod 2 ^ 64) (z / 2 ^ 64)) = swrap 128 z.
Proof. unfold int128_value. cbn [i_lo i_hi]. f_equal. pose proof (Z.div_mod z (2 ^ 64)). lia. Qed.

Lemma value_of_int64 (w z : Z) : 1 <= w <= 64 -> int128_value (SInt.of_int64 (swrap w z)) = swrap w z.
Proof.
  intros Hw. pose proof (swrap_range w z ltac:(lia)) as Hs.
  assert (2 ^ (w - 1) <= 2 ^ 63) by (apply Z.pow_le_mono_r; lia).
  assert (is_s 64 (swrap w z)) by (unfold is_s in *; lia).
  rewrite of_int64_ok by done. unfold int128_of, int128_value. cbn [i_lo i_hi].
  rewrite int128_words, swrap_wrap by lia. apply swrap_id; [lia|]. unfold is_s in *. lia.
Qed.

Lemma DecimalC_lawful : Lawful DecimalC.
Proof.
  split; cbn [is_a class AppendValue At allowed stored loaded exact stride DecimalC];
    [intros c v|done|intros c i r|intros c i|lia|intros c v]; intros Hw Ha;
    destruct (decimal_shape c Hw Ha) as (p & s & data & -> & Hb & Hd); cbn [ColumnType type_precision].
  - intros _ _.
    assert (ColumnDecimal_AppendInt128 (int128_of v) (ColumnWrap WDecimal (TDecimal p s) (ColumnVector (decimal_code p) data)) =
      (Ok tt, ColumnWrap WDecimal (TDecimal p s) (ColumnVector (decimal_code p) (data ++ [wrap (decimal_width p) v])))) as ->.
    { unfold decimal_code, decimal_width. destruct (p <=? 9); [|destruct (p <=? 18)]; cbn [ColumnDecimal_AppendInt128 Int128Low64 int128_of i_lo i_hi].
      - do 5 f_equal. unfold wrap. apply Z.mod_mod_divide. by exists (2 ^ 32).
      - by rewrite wrap_wrap.
      - by rewrite int128_words. }
    eexists. split; [done|]. split; [done|]. apply wrap_grown; [done|done|].
    split_and!; [|done|cbn [rows]; by rewrite map_app].
    destruct Hd as [Hv Hf]. split; [done|]. apply Forall_app. split; [done|]. rewrite <- Hb. constructor; [apply fits_wrap|done].
  - cbn [rows]. intros [Hi _] _ (z & Hz & ->)%lookup_num. cbn [num].
    unfold decimal_code, decimal_width in *. destruct (p <=? 9); [|destruct (p <=? 18)]; cbn [ColumnDecimal_At];
      rewrite (at_lookup _ _ z) by done; cbn [rbind]; rewrite ?value_of_words, ?value_of_int64 by lia; done.
  - cbn [rows]. intros Hi _. rewrite zlen_map in Hi.
    unfold decimal_code in *. destruct (p <=? 9); [|destruct (p <=? 18)]; cbn [ColumnDecimal_At];
      rewrite at_beyond by done; (eexists; by split; [|apply defined_exn]).
  - intros Hv. cbn [num]. rewrite swrap_wrap, swrap_id; [done| |done|]; unfold decimal_width; by destruct (p <=? 9); [|destruct (p <=? 18)].
Qed.

Lemma DateTime64C_lawful : Lawful DateTime64C.
Proof.
  apply delegating_lawful; try done; [apply DecimalC_lawful| |].
  - intros ty d i. cbn [ColumnDateTime64_At from_data At DecimalC class]. destruct (ColumnDecimal_At d i) as [x|e]; cbn [rbind]; [|done].
    by rewrite low64_value.
  - intros d v ty Hd Ha Ht Hv. destruct (decimal_shape d Hd Ha) as (p & s & data & -> & Hb & _).
    destruct ty as [[]| | | | | | | | | | |]; try done. injection Ht as <- <-.
    cbn [loaded stored DecimalC ColumnType type_precision num]. change (decimal_width 18) with 64. unfold id.
    rewrite swrap_wrap by lia. by rewrite (swrap_id 64 v), (swrap_id 64 v) by (done || lia).
Qed.

(** *** UUIDs *)

Lemma pairs_lookup (l : list Z) : forall (i : nat) (r : val), pairs (map VNum l) !! i = Some r ->
  exists a b, l !! (i * 2)%nat = Some a /\ l !! (i * 2 + 1)%nat = Some b /\ r = VTuple [VNum a; VNum b].
Proof.
  intros i. revert l. induction i as [|i IH]; intros [|a [|b l]] r Hr; try done.
  - cbn in Hr. injection Hr as <-. by exists a, b.
  - cbn [map pairs] in Hr. apply IH in Hr as (x & y & Hx & Hy & ->). by exists x, y.
Qed.

Lemma uuid_shape (c : column) : wf_col c -> is_uuid c = true -> exists ty data,
  c = ColumnWrap WUUID ty (ColumnVector Code.UInt64 data) /\ zlen data mod 2 = 0 /\ wf_col (ColumnVector Code.UInt64 data) /\
  zlen data = 2 * zlen (rows c).
Proof.
  intros Hw Ha. pose proof (Size_rows c Hw) as Hs. destruct c as [| | | | |[] ty [code data| | | | | | | | | |]| | | | |]; try done.
  cbn in Ha. apply andb_prop in Ha as [->%bool_decide_eq_true _]. destruct Hw as (_ & Hd & Hu).
  destruct (Hu eq_refl) as [He _]. cbn [Size] in *. exists ty, data. split_and!; try done. rewrite <- Hs. by apply even_half.
Qed.

Lemma UUIDC_lawful : Lawful UUIDC.
Proof.
  split; cbn [is_a class AppendValue At allowed stored loaded exact stride UUIDC];
    [intros c v|done|intros c i r|intros c i|lia|intros c v]; intros Hw Ha;
    destruct (uuid_shape c Hw Ha) as (ty & data & -> & He & Hd & Hl).
  - intros _ Hfit. pose proof (weight_len (rows (ColumnWrap WUUID ty (ColumnVector Code.UInt64 data)))).
    unfold ColumnUUID_Append, bind. cbn [on_data ColumnVector_Append]. change (bits Code.UInt64) with 64. rewrite <- app_assoc.
    cbn [app]. eexists. split; [done|]. split; [done|]. destruct Hw as (Ht & _). cbn [vweight foldr] in Hfit.
    assert (zlen (data ++ [wrap 64 (fst v); wrap 64 (snd v)]) = zlen data + 2) as Hz by (rewrite zlen_app; done).
    split_and!; [|done|].
    + split; [done|]. split.
      * destruct Hd as [Hv Hf]. split; [done|]. apply Forall_app. split; [done|]. repeat constructor; apply (fits_wrap Code.UInt64).
      * intros _. cbn [Size]. rewrite Hz. split; [|lia]. rewrite Z.add_mod, He by lia. done.
    + cbn [rows]. rewrite map_app. apply pairs_app with (Z.to_nat (zlen data / 2)). rewrite length_map.
      apply even_half in He. unfold zlen in *. lia.
  - intros [Hi Hi'] Hfit Hr. cbn [rows] in Hr. apply pairs_lookup in Hr as (a & b & Hx & Hy & ->).
    cbn [ColumnUUID_At from_data ColumnVector_At num].
    rewrite !wrap_id by (unfold is_u; lia).
    rewrite (at_lookup _ _ a), (at_lookup _ _ b); [done|lia| |lia|].
    + by replace (Z.to_nat (i * 2 + 1)) with (Z.to_nat i * 2 + 1)%nat by lia.
    + by replace (Z.to_nat (i * 2)) with (Z.to_nat i * 2)%nat by lia.
  - intros Hi Hb. cbn [ColumnUUID_At from_data ColumnVector_At].
    pose proof (zlen_nonneg data). rewrite wrap_id by (unfold is_u; lia). rewrite at_beyond by lia.
    eexists. by split; [|apply defined_exn].
  - intros [H1 H2]. cbn [num]. rewrite !wrap_id by done. by destruct v.
Qed.
