(* ===== verification/Addresses.v ===== *)
(** * Values as text: addresses and enumerations (columns/ip4.cpp, ip6.cpp, enum.cpp)

    The overloads of [Append] that take text and the accessors that return it.
    [inet_pton] and [inet_ntop] belong to the C library: they are parameters, with
    what POSIX says of them as hypotheses. *)

From S2P Require Import Prelude Streams WireFormat CityHash Text Types Columns ColumnRows ColumnOps ColumnWire LowCardinality Factory Bignum Decimal Values.
From Stdlib Require Import Sorting.Sorted.

(** ** The C library's conversions *)
Class Inet := {
  inet_pton4 : bytes -> option Z;        (** the number [s_addr]; [None] is a result other than 1 *)
  inet_ntop4 : Z -> option bytes;        (** [None] is a null result *)
  inet_pton6 : bytes -> option bytes;    (** the 16 bytes of the address *)
  inet_ntop6 : bytes -> option bytes;
}.

(** POSIX: the text of an address has no zero byte and is converted back to the address. *)
Class InetLaws `(Inet) : Prop := {
  ntop4_ok : forall a, is_u 32 a -> exists s, inet_ntop4 a = Some s /\ (x00 ∉ s) /\ inet_pton4 s = Some a;
  ntop6_ok : forall a, zlen a = 16 -> exists s, inet_ntop6 a = Some s /\ (x00 ∉ s) /\ inet_pton6 s = Some a;
  pton4_range : forall s a, inet_pton4 s = Some a -> is_u 32 a;
  pton6_size : forall s a, inet_pton6 s = Some a -> zlen a = 16;
}.

Section Addresses.
Context `{Inet}.

(** [ColumnIPv4::Append(const std::string&)]. *)
Definition ColumnIPv4_AppendText (s : bytes) : M column unit :=
  match inet_pton4 (c_str s) with
  | None => throw ValidationError
  | Some address => on_data (ColumnVector_Append (htonl address))
  end.

Definition ColumnIPv4_AsString (c : column) (n : Z) : result bytes :=
  let! addr := ColumnIPv4_At c n in
  match inet_ntop4 addr with None => Throw SystemError | Some s => Ok s end.

(** [ColumnIPv6::Append(const std::string_view&)]: [str.data()] is passed on, so what is read is the view
    and the memory behind it, [after], up to a zero. *)
Definition ColumnIPv6_AppendText (view after : bytes) : M column unit :=
  match until_zero (view ++ after) with
  | None => throw Undefined
  | Some s =>
    match inet_pton6 s with
    | None => throw ValidationError
    | Some buf => on_data (ColumnFixedString_Append buf)
    end
  end.

Definition ColumnIPv6_AsString (c : column) (n : Z) : result bytes :=
  let! addr := ColumnIPv6_At c n in
  match inet_ntop6 addr with None => Throw SystemError | Some s => Ok s end.
End Addresses.

(** ** Proofs *)

(** A row of a column of addresses. *)
Lemma address_row (w : wrapper) (ty : type) (d : column) (i : Z) (r : val) : w <> WUUID ->
  rows (ColumnWrap w ty d) !! Z.to_nat i = Some r -> rows d !! Z.to_nat i = Some r.
Proof. by destruct w. Qed.

Section Proofs.
Context `{HI : Inet} `{HL : !InetLaws HI}.

(** The text of row [i], appended to [c'], appends row [i]. *)
Lemma ipv4_text (c c' : column) (i : Z) (r : val) : wf_col c -> wf_col c' ->
  is_a IPv4C c = true -> is_a IPv4C c' = true -> 0 <= i < 2 ^ 63 ->
  weight (rows c) < 2 ^ 63 -> weight (rows c') + vweight r < 2 ^ 63 -> rows c !! Z.to_nat i = Some r ->
  exists s c'', ColumnIPv4_AsString c i = Ok s /\ ColumnIPv4_AppendText s c' = (Ok tt, c'') /\ grown c' c'' r.
Proof using HI HL.
  intros Hw Hw' Ha Ha' Hi Hf Hf' Hr.
  pose proof (at_ok _ IPv4C_lawful c i r Hw Ha Hi Hf Hr) as E. cbn [At IPv4C delegating class] in E.
  destruct c as [| | | | |w ty d| | | | |]; try done. cbn in Ha. apply andb_prop in Ha as [->%bool_decide_eq_true Ha].
  assert (exists z, r = VNum z /\ fits_width 4 z) as (z & -> & Hz).
  { apply address_row in Hr; [|done]. destruct d as [code data| | | | | | | | | |]; try done.
    apply andb_prop in Ha as [->%bool_decide_eq_true _]. apply lookup_num in Hr as (z & Hz & ->).
    exists z. split; [done|]. destruct Hw as (_ & [_ Hd] & _). by rewrite Forall_lookup in Hd; eapply Hd. }
  cbn [loaded IPv4C delegating Vector num] in E. unfold bits_value in E. cbn [signed_code] in E.
  destruct (ntop4_ok (htonl z) (htonl_range z)) as (s & Hs & Hnul & Hp).
  unfold ColumnIPv4_AsString. rewrite E. cbn [rbind]. rewrite Hs.
  destruct (append_ok _ IPv4C_lawful c' (htonl z) Hw' Ha' eq_refl) as (c'' & Ec & _ & Hg).
  { change (stored IPv4C (ColumnType c') (htonl z)) with (VNum (wrap 32 (htonl (htonl z)))).
    rewrite htonl_htonl, wrap_id by done. done. }
  exists s, c''. split; [done|]. split.
  - unfold ColumnIPv4_AppendText. by rewrite c_str_plain, Hp.
  - change (stored IPv4C (ColumnType c') (htonl z)) with (VNum (wrap 32 (htonl (htonl z)))) in Hg.
    by rewrite htonl_htonl, wrap_id in Hg by done.
Qed.

Lemma ipv6_inner (c : column) : wf_col c -> is_a IPv6C c = true -> exists ty data,
  c = ColumnWrap WIPv6 ty (ColumnFixedString 16 data) /\ wf_col (ColumnFixedString 16 data) /\ inner_type WIPv6 (ColumnType c) = TFixedString 16.
Proof.
  intros Hw Ha. destruct c as [| | | | |w ty d| | | | |]; try done. cbn in Ha. apply andb_prop in Ha as [->%bool_decide_eq_true Ha].
  destruct Hw as (Ht & Hd & _). destruct ty as [[]| | | | | | | | | | |]; try done.
  destruct d as [| | |n data| | | | | | |]; try done. cbn in Ht. injection Ht as <-. eexists _, _. by split_and!.
Qed.

Lemma chunk_size (n i : Z) (data s : bytes) : wf_col (ColumnFixedString n data) -> 0 <= i ->
  rows (ColumnFixedString n data) !! Z.to_nat i = Some (VStr s) -> zlen s = n.
Proof.
  intros (Hn & Hm & Hf) Hi Hr. pose proof (fixed_length n data Hn Hm) as Hl. cbn [rows] in Hr.
  pose proof (lookup_lt_Some _ _ _ Hr) as Hlt. rewrite length_map, length_chunks in Hlt.
  rewrite list_lookup_fmap, chunks_lookup in Hr by done. cbn in Hr. injection Hr as <-.
  unfold zlen. rewrite length_take, length_drop. nia.
Qed.

Lemma ipv6_text (c c' : column) (i : Z) (r : val) : wf_col c -> wf_col c' ->
  is_a IPv6C c = true -> is_a IPv6C c' = true -> 0 <= i < 2 ^ 63 ->
  weight (rows c) < 2 ^ 63 -> weight (rows c') + vweight r < 2 ^ 63 -> rows c !! Z.to_nat i = Some r ->
  exists s c'', ColumnIPv6_AsString c i = Ok s /\ ColumnIPv6_AppendText s [x00] c' = (Ok tt, c'') /\ grown c' c'' r.
Proof using HI HL.
  intros Hw Hw' Ha Ha' Hi Hf Hf' Hr.
  pose proof (at_ok _ IPv6C_lawful c i r Hw Ha Hi Hf Hr) as E. cbn [At IPv6C delegating class] in E.
  destruct (ipv6_inner c Hw Ha) as (ty & data & -> & Hd & _). apply address_row in Hr; [|done].
  assert (exists a, r = VStr a) as (a & ->).
  { pose proof Hr as Hr'. cbn [rows] in Hr'. rewrite list_lookup_fmap in Hr'. destruct (chunks _ _ _ !! _) as [a|]; [|done].
    injection Hr' as <-. by exists a. }
  assert (zlen a = 16) as Ha16 by (eapply chunk_size; [exact Hd|exact (proj1 Hi)|exact Hr]).
  change (loaded IPv6C _ (VStr a)) with a in E.
  destruct (ntop6_ok a Ha16) as (s & Hs & Hnul & Hp).
  destruct (ipv6_inner c' Hw' Ha') as (ty' & data' & Ec' & _ & Hin).
  assert (stored IPv6C (ColumnType c') a = VStr a) as Hst.
  { cbn [stored IPv6C delegating FixedStringC]. rewrite Hin. unfold padded, id. cbn [fixed_size]. rewrite Ha16. cbn. by rewrite app_nil_r. }
  destruct (append_ok _ IPv6C_lawful c' a Hw' Ha') as (c'' & Ec & _ & Hg).
  { cbn [allowed IPv6C delegating FixedStringC]. rewrite Hin. unfold id. cbn [fixed_size]. by rewrite Ha16. }
  { by rewrite Hst. }
  exists s, c''. split_and!.
  - unfold ColumnIPv6_AsString. rewrite E. cbn [rbind]. by rewrite Hs.
  - unfold ColumnIPv6_AppendText. by rewrite until_zero_zero, Hp.
  - by rewrite Hst in Hg.
Qed.
End Proofs.

(** ** Enumerations by name *)

(** The values of the enumeration are values of its type. *)
Definition enum_fits (code : Code.t) (e : EnumType) : Prop := Forall (in_range code) (map fst (value_to_name e)).

Lemma zmap_get_elem (m : list (Z * bytes)) (v : Z) (name : bytes) : StronglySorted Z.lt (map fst m) ->
  (v, name) ∈ m -> zmap_get v m = Some name.
Proof.
  induction m as [|[k n] m IH]; intros Hs Hin; [by apply elem_of_nil in Hin|].
  cbn [map fst] in Hs. inversion Hs as [|? ? Hs' Hk]; subst. cbn [zmap_get].
  apply elem_of_cons in Hin as [[= -> ->]|Hin]; [by rewrite Z.eqb_refl|].
  rewrite List.Forall_forall in Hk. assert (k < v) by (apply Hk, in_map_iff; exists (v, name); split; [done|by apply list_elem_of_In]).
  rewrite (proj2 (Z.eqb_neq v k)) by lia. by apply IH.
Qed.

Lemma enum_name_value (e : EnumType) (name : bytes) (v : Z) : enum_wf e -> GetEnumValue e name = Ok v ->
  GetEnumName e v = Ok name /\ v ∈ map fst (value_to_name e).
Proof.
  intros (Hs & Hn & Hm) Hv. unfold GetEnumValue in Hv. rewrite Hm in Hv.
  destruct (list_to_map _ !! name) as [v'|] eqn:E; [|done]. injection Hv as ->.
  apply elem_of_list_to_map_2 in E. apply list_elem_of_fmap in E as ([v' n'] & [= -> ->] & Hin).
  split; [unfold GetEnumName; by rewrite (zmap_get_elem _ _ _ Hs Hin)|]. apply list_elem_of_fmap. by exists (v', n').
Qed.

(** The column after [data_.at(n) = v]. *)
Lemma set_at_ok (data : list Z) (n v : Z) : 0 <= n -> set_at data n v =
  if n <? zlen data then Ok (<[Z.to_nat n := v]> data) else Throw OutOfRange.
Proof.
  intros Hn. unfold set_at. destruct (Z.ltb_spec n (zlen data)).
  - destruct (lookup_in_range data n) as [x Hx]; [lia|]. by rewrite (at_lookup _ _ x).
  - by rewrite at_beyond.
Qed.

(** Row [n] holds [v], the other rows are those of [data]. *)
Definition set_row (data : list Z) (n v : Z) (data' : list Z) : Prop :=
  zlen data' = zlen data /\ data' !! Z.to_nat n = Some v /\ forall j, j <> Z.to_nat n -> data' !! j = data !! j.

Lemma insert_row (data : list Z) (n v : Z) : 0 <= n < zlen data -> set_row data n v (<[Z.to_nat n := v]> data).
Proof.
  intros Hn. split_and!.
  - unfold zlen. by rewrite length_insert.
  - apply list_lookup_insert_eq. unfold zlen in Hn. lia.
  - intros j Hj. by apply list_lookup_insert_ne.
Qed.

(** ** Theorems *)

(** Addresses survive the way through text: for a column of IPv4 or IPv6 addresses, the text [AsString] returns
    for a row is accepted by [Append] of the same class and appends exactly that row, leaving the rows before it and
    the column's type unchanged.  The C library's conversions are assumed to be inverse to each other on addresses. *)
Lemma address_text_roundtrip (I : Inet) (HL : InetLaws I) (v6 : bool) (c c' : column) (i : Z) (r : val)
    (Hw : wf_col c) (Hw' : wf_col c') (Ha : is_a (if v6 then IPv6C else IPv4C) c = true)
    (Ha' : is_a (if v6 then IPv6C else IPv4C) c' = true) (Hi : 0 <= i < 2 ^ 63)
    (Hf : weight (rows c) < 2 ^ 63) (Hf' : weight (rows c') + vweight r < 2 ^ 63) (Hr : rows c !! Z.to_nat i = Some r) :
  exists s c'',
    (if v6 then ColumnIPv6_AsString c i else ColumnIPv4_AsString c i) = Ok s /\
    (if v6 then ColumnIPv6_AppendText s [x00] c' else ColumnIPv4_AppendText s c') = (Ok tt, c'') /\ grown c' c'' r.
Proof. destruct v6; [by apply ipv6_text|by apply ipv4_text]. Qed.

(** Conversions that satisfy the laws: an address as one decimal number. *)
Definition decimal_inet : Inet := {|
  inet_pton4 s := let v := dec_value 0 s in if (0 <=? v) && (v <? 2 ^ 32) then Some v else None;
  inet_ntop4 a := Some (dec_nonneg a);
  inet_pton6 s := Some (le_bytes 16 (dec_value 0 s));
  inet_ntop6 a := Some (dec_nonneg (le_value a));
|}.

Lemma dec_nonneg_plain (n : Z) : 0 <= n -> x00 ∉ dec_nonneg n.
Proof. intros Hn Hin. destruct (dec_nonneg_text n Hn) as (_ & H & _). unfold digits in H. rewrite Forall_forall in H. by specialize (H _ Hin). Qed.

Lemma decimal_inet_laws : InetLaws decimal_inet.
Proof.
  split; cbn [inet_pton4 inet_ntop4 inet_pton6 inet_ntop6 decimal_inet].
  - intros a Ha. unfold is_u in Ha. eexists. split; [done|]. split; [apply dec_nonneg_plain; lia|]. rewrite dec_nonneg_value by lia.
    by rewrite (proj2 (Z.leb_le _ _)), (proj2 (Z.ltb_lt _ _)) by lia.
  - intros a Ha. pose proof (le_value_range a). eexists. split; [done|]. split; [apply dec_nonneg_plain; lia|].
    rewrite dec_nonneg_value by lia. f_equal. by apply le_bytes_le_value.
  - intros s a. unfold is_u. destruct (Z.leb_spec 0 (dec_value 0 s)); [|done]. destruct (Z.ltb_spec (dec_value 0 s) (2 ^ 32)); [|done].
    by intros [= <-].
  - intros s a Hs. apply (f_equal (default [])) in Hs. cbn [default] in Hs. change (le_bytes 16 (dec_value 0 s) = a) in Hs. rewrite <- Hs. apply zlen_le_bytes.
Qed.


(** Enumerations by name: a name of the enumeration is appended as its value, and [NameAt] of the new row returns the
    name; [SetNameAt] replaces one row by the value of a name and no other row, and [NameAt] then returns the name; a
    name the enumeration does not have is refused by both with [std::out_of_range], and the column is unchanged; so is a
    row that does not exist. *)
Lemma enum_names (code : Code.t) (e : EnumType) (data : list Z) (name : bytes) (n : Z) (Hc : enum_code code = true)
    (He : enum_wf e) (Hfit : enum_fits code e) (Hn : 0 <= n) :
  let c := ColumnEnum code e data in
  match GetEnumValue e name with
  | Ok v =>
    (exists data', ColumnEnum_AppendName name c = (Ok tt, ColumnEnum code e data') /\ data' = data ++ [wrap (bits code) v] /\
      ColumnEnum_NameAt (ColumnEnum code e data') (zlen data) = Ok name) /\
    if n <? zlen data then
      exists data', ColumnEnum_SetNameAt n name c = (Ok tt, ColumnEnum code e data') /\ set_row data n (wrap (bits code) v) data' /\
        ColumnEnum_NameAt (ColumnEnum code e data') n = Ok name
    else ColumnEnum_SetNameAt n name c = (Throw OutOfRange, c)
  | Throw _ => ColumnEnum_AppendName name c = (Throw OutOfRange, c) /\ ColumnEnum_SetNameAt n name c = (Throw OutOfRange, c)
  end.
Proof.
  cbn zeta. destruct (GetEnumValue e name) as [v|err] eqn:Ev.
  - destruct (enum_name_value e name v He Ev) as [Hname Hin].
    assert (bits_value code (wrap (bits code) v) = v) as Hv.
    { apply bits_value_wrap. unfold enum_fits in Hfit. rewrite Forall_forall in Hfit. by apply Hfit. }
    cbn [ColumnEnum_AppendName ColumnEnum_SetNameAt]. rewrite Ev. cbn [rbind]. split.
    + eexists. split; [done|]. split; [done|]. cbn [ColumnEnum_NameAt]. rewrite at_snoc. cbn [rbind]. by rewrite Hv.
    + rewrite set_at_ok by done. destruct (Z.ltb_spec n (zlen data)); [|done]. eexists. split; [done|].
      pose proof (insert_row data n (wrap (bits code) v) ltac:(lia)) as Hs. split; [done|]. destruct Hs as (_ & Hs & _).
      cbn [ColumnEnum_NameAt]. rewrite (at_lookup _ _ _ Hn Hs). cbn [rbind]. by rewrite Hv.
  - cbn [ColumnEnum_AppendName ColumnEnum_SetNameAt]. rewrite Ev. cbn [rbind].
    assert (err = OutOfRange) as -> by (unfold GetEnumValue in Ev; destruct (_ !! name); congruence). done.
Qed.

Definition example_enum : EnumType := EnumType_new [(str "red", 1); (str "blue", -2)].

