(* ===== verification/Typed.v ===== *)
(** * Typed columns (columns/nullable.h, array.h, tuple.h, map.h, geo.h, lowcardinality.h)

    The templates [ColumnNullableT], [ColumnArrayT], [ColumnTupleT], [ColumnMapT] and [ColumnGeo]: each takes column
    classes and is a column class again, with the typed [Append] and [At] over the untyped column it derives from.
    A template is a function on [Described] classes; its laws follow from the laws of its parameters. *)

From S2P Require Import Prelude Streams WireFormat CityHash Text Types Columns ColumnRows ColumnOps ColumnWire LowCardinality Factory Bignum Decimal Values.

#[local] Set Warnings "-register-all".

(** ** ColumnNullableT *)

(** [ColumnNullable::Append(bool)]. *)
Definition ColumnNullable_AppendFlag (isnull : bool) : M column unit :=
  fun c => match c with
           | ColumnNullable nested nulls => (Ok tt, ColumnNullable nested (nulls ++ [Z.b2z isnull]))
           | _ => (Throw Undefined, c)
           end.

Definition IsNull (c : column) (n : Z) : result bool :=
  match c with
  | ColumnNullable _ nulls => let! v := at_ nulls n in Ok (negb (v =? 0))
  | _ => Throw Undefined
  end.

Definition on_nested {A} (m : M column A) : M column A :=
  fun c => match c with
           | ColumnNullable nested nulls => let '(r, nested) := m nested in (r, ColumnNullable nested nulls)
           | _ => (Throw Undefined, c)
           end.

(** [Nulls()->As<ColumnUInt8>()->Erase(Size() - 1)]. *)
Definition erase_last_null : M column unit :=
  fun c => match c with
           | ColumnNullable nested nulls => (Ok tt, ColumnNullable nested (Erase nulls (wrap 64 (zlen nulls - 1)) 1))
           | _ => (Throw Undefined, c)
           end.

Section NullableT.
Context (N : Described).

Definition has_value {A} (v : option A) : bool := match v with Some _ => true | None => false end.

Definition ColumnNullableT_Append (value : option (ValueType N)) : M column unit :=
  ColumnNullable_AppendFlag (negb (has_value value)) ;;;
  try_catch (on_nested (AppendValue N (match value with Some v => v | None => null_value N end)))
    (fun e => erase_last_null ;;; throw e).

Definition ColumnNullableT_At (c : column) (i : Z) : result (option (ValueType N)) :=
  let! null := IsNull c i in
  if null then Ok None else
  match c with
  | ColumnNullable nested _ => let! v := At N nested i in Ok (Some v)
  | _ => Throw Undefined
  end.

(** [ColumnNullableT::Wrap]. *)
Definition ColumnNullableT_Wrap (c : column) : bool :=
  match c with ColumnNullable nested _ => is_a N nested | _ => false end.

Definition nested_type (t : type) : type :=
  match t with TNullable t | TArray t => t | _ => t end.

(** The null flag and the value under it: a default value for NULL. *)
Definition NullableT : Described :=
  mkDescribed
    (mkClass (option (ValueType N)) ColumnNullableT_Wrap ColumnNullableT_Append ColumnNullableT_At None None)
    (fun t v => allowed N (nested_type t) (match v with Some v => v | None => null_value N end))
    (fun t v => match v with
                | Some v => VNullable 0 (stored N (nested_type t) v)
                | None => VNullable 1 (stored N (nested_type t) (null_value N))
                end)
    (fun t r => match r with
                | VNullable n r => if n =? 0 then Some (loaded N (nested_type t) r) else None
                | _ => None
                end)
    (fun t v => match v with Some v => exact N (nested_type t) v | None => True end)
    (fun _ => 1).
End NullableT.

(** [FillNulls(n)]. *)
Definition FillNulls (n : Z) : list Z := replicate (Z.to_nat n) 0.

(** [ColumnNullableT(std::shared_ptr<NestedColumnType>)]. *)
Definition ColumnNullableT_new (data : column) : result column := ColumnNullable_new data (FillNulls (Size data)).

(** ** ColumnArrayT *)

(** [ArrayValueView]: one row of an array column. *)
Record ArrayValueView := mkView {
  av_data : column;     (** [typed_nested_data_] *)
  av_offset : Z;        (** [offset_] *)
  av_size : Z;          (** [size_] *)
}.

Definition ArrayValueView_new (data : column) (offset size : Z) : ArrayValueView :=
  mkView data offset (Z.min (wrap 64 (Size data - offset)) size).

Section ArrayT.
Context (N : Described).

Definition ArrayValueView_At (v : ArrayValueView) (index : Z) : result (ValueType N) :=
  if av_size v <=? index then Throw ValidationError
  else At N (av_data v) (wrap 64 (av_offset v + index)).

(** [*it] of the iterator at [index]. *)
Definition iterator_deref (v : ArrayValueView) (index : Z) : result (ValueType N) :=
  At N (av_data v) (wrap 64 (av_offset v + index)).

(** The items from the iterator at [index] on, [n] of them. *)
Fixpoint iterate (v : ArrayValueView) (index : Z) (n : nat) : result (list (ValueType N)) :=
  match n with
  | O => Ok []
  | S n =>
    let! x := iterator_deref v index in
    let! l := iterate v (wrap 64 (index + 1)) n in
    Ok (x :: l)
  end.

(** [begin()] to [end()]. *)
Definition view_items (v : ArrayValueView) : result (list (ValueType N)) := iterate v 0 (Z.to_nat (av_size v)).

Definition ColumnArrayT_At (c : column) (index : Z) : result ArrayValueView :=
  match c with
  | ColumnArray data offsets =>
    if zlen offsets <=? index then Throw ValidationError
    else
      let! o := GetOffset offsets index in
      let! s := GetSize offsets index in
      Ok (ArrayValueView_new data o s)
  | _ => Throw Undefined
  end.

(** The loop over the items appended. *)
Fixpoint append_each (l : list (ValueType N)) : M column unit :=
  match l with
  | [] => ret tt
  | x :: l => AppendValue N x ;;; append_each l
  end.

(** [Append(begin, end)]. *)
Definition ColumnArrayT_Append (l : list (ValueType N)) : M column unit :=
  fun c => match c with
           | ColumnArray data offsets =>
             match append_each l data with
             | (Ok _, data) => (Ok tt, ColumnArray data (AddOffset offsets (zlen l)))
             | (Throw e, data) => (Throw e, ColumnArray data offsets)
             end
           | _ => (Throw Undefined, c)
           end.

(** [ColumnArrayT::Wrap]. *)
Definition ColumnArrayT_Wrap (c : column) : bool :=
  match c with ColumnArray data _ => is_a N data | _ => false end.

Definition ArrayT : Described :=
  mkDescribed
    (mkClass (list (ValueType N)) ColumnArrayT_Wrap ColumnArrayT_Append
       (fun c i => let! v := ColumnArrayT_At c i in view_items v) [] [])
    (fun t l => forallb (allowed N (nested_type t)) l)
    (fun t l => VList (map (stored N (nested_type t)) l))
    (fun t r => match r with VList l => map (loaded N (nested_type t)) l | _ => [] end)
    (fun t l => Forall (exact N (nested_type t)) l)
    (fun _ => 1).
End ArrayT.

(** ** ColumnTupleT *)

(** [std::tuple] of the value types. *)
Fixpoint TupleValue (Ns : list Described) : Type :=
  match Ns with
  | [] => unit
  | N :: Ns => (ValueType N * TupleValue Ns)%type
  end.

(** [AppendTuple]: the last element first. *)
Fixpoint AppendTuple (Ns : list Described) : TupleValue Ns -> M (list column) unit :=
  match Ns with
  | [] => fun _ => ret tt
  | N :: Ns => fun '(v, vs) cs =>
    match cs with
    | [] => (Throw Undefined, cs)
    | c :: cs =>
      match AppendTuple Ns vs cs with
      | (Ok _, cs) => let '(r, c) := AppendValue N v c in (r, c :: cs)
      | (Throw e, cs) => (Throw e, c :: cs)
      end
    end
  end.

(** [GetTupleOfValues]: the first element first. *)
Fixpoint GetTupleOfValues (Ns : list Described) (index : Z) : list column -> result (TupleValue Ns) :=
  match Ns with
  | [] => fun _ => Ok tt
  | N :: Ns => fun cs =>
    match cs with
    | [] => Throw Undefined
    | c :: cs =>
      let! v := At N c index in
      let! vs := GetTupleOfValues Ns index cs in
      Ok (v, vs)
    end
  end.

(** [TupleFromColumn]: every element can be wrapped, and there are as many. *)
Fixpoint wrap_all (Ns : list Described) (cs : list column) : bool :=
  match Ns, cs with
  | [], [] => true
  | N :: Ns, c :: cs => is_a N c && wrap_all Ns cs
  | _, _ => false
  end.

Fixpoint tuple_default (Ns : list Described) : TupleValue Ns :=
  match Ns with [] => tt | N :: Ns => (value_default N, tuple_default Ns) end.

Definition ColumnTupleT_Append (Ns : list Described) (v : TupleValue Ns) : M column unit :=
  fun c => match c with
           | ColumnTuple cs names => let '(r, cs) := AppendTuple Ns v cs in (r, ColumnTuple cs names)
           | _ => (Throw Undefined, c)
           end.

Definition ColumnTupleT_At (Ns : list Described) (c : column) (index : Z) : result (TupleValue Ns) :=
  match c with ColumnTuple cs _ => GetTupleOfValues Ns index cs | _ => Throw Undefined end.

(** [ColumnTupleT::Wrap]. *)
Definition ColumnTupleT_Wrap (Ns : list Described) (c : column) : bool :=
  match c with ColumnTuple cs _ => wrap_all Ns cs | _ => false end.

Definition item_types (t : type) : list type := match t with TTuple ts _ => ts | _ => [] end.

Fixpoint tuple_allowed (Ns : list Described) (ts : list type) : TupleValue Ns -> bool :=
  match Ns with
  | [] => fun _ => true
  | N :: Ns => fun '(v, vs) => allowed N (hd (TSimple Code.Void) ts) v && tuple_allowed Ns (tl ts) vs
  end.

Fixpoint tuple_stored (Ns : list Described) (ts : list type) : TupleValue Ns -> list val :=
  match Ns with
  | [] => fun _ => []
  | N :: Ns => fun '(v, vs) => stored N (hd (TSimple Code.Void) ts) v :: tuple_stored Ns (tl ts) vs
  end.

Fixpoint tuple_loaded (Ns : list Described) (ts : list type) (rs : list val) : TupleValue Ns :=
  match Ns with
  | [] => tt
  | N :: Ns => (loaded N (hd (TSimple Code.Void) ts) (hd VUnit rs), tuple_loaded Ns (tl ts) (tl rs))
  end.

Fixpoint tuple_exact (Ns : list Described) (ts : list type) : TupleValue Ns -> Prop :=
  match Ns with
  | [] => fun _ => True
  | N :: Ns => fun '(v, vs) => exact N (hd (TSimple Code.Void) ts) v /\ tuple_exact Ns (tl ts) vs
  end.

Definition TupleT (Ns : list Described) : Described :=
  mkDescribed
    (mkClass (TupleValue Ns) (ColumnTupleT_Wrap Ns) (ColumnTupleT_Append Ns) (ColumnTupleT_At Ns) (tuple_default Ns) (tuple_default Ns))
    (fun t v => tuple_allowed Ns (item_types t) v)
    (fun t v => VTuple (tuple_stored Ns (item_types t) v))
    (fun t r => match r with VTuple rs => tuple_loaded Ns (item_types t) rs | _ => tuple_default Ns end)
    (fun t v => tuple_exact Ns (item_types t) v)
    (fun t => match Ns with [] => 1 | N :: _ => stride N (hd (TSimple Code.Void) (item_types t)) end).

(** ** ColumnMapT *)

Definition on_map {A} (m : M column A) : M column A :=
  fun c => match c with
           | ColumnMap d => let '(r, d) := m d in (r, ColumnMap d)
           | _ => (Throw Undefined, c)
           end.

Section MapT.
Context (K V : Described).

(** [ArrayColumnType]: an array of key-value tuples. *)
Definition entries : Described := ArrayT (TupleT [K; V]).

(** [Append(const std::vector<std::tuple<Key, Value>>&)], and the overloads for containers of pairs. *)
Definition ColumnMapT_Append (l : list (TupleValue [K; V])) : M column unit := on_map (ColumnArrayT_Append (TupleT [K; V]) l).

(** [At(index)]: the view of one row. *)
Definition ColumnMapT_At (c : column) (index : Z) : result ArrayValueView :=
  match c with ColumnMap d => ColumnArrayT_At d index | _ => Throw Undefined end.

(** [ColumnMapT::Wrap]. *)
Definition ColumnMapT_Wrap (c : column) : bool :=
  match c with ColumnMap d => is_a entries d | _ => false end.

Definition entries_type (t : type) : type :=
  match t with TMap k v => TArray (TTuple [k; v] []) | t => t end.

Definition MapT : Described :=
  mkDescribed
    (mkClass (list (TupleValue [K; V])) ColumnMapT_Wrap ColumnMapT_Append
       (fun c i => let! v := ColumnMapT_At c i in view_items (TupleT [K; V]) v) [] [])
    (fun t v => allowed entries (entries_type t) v)
    (fun t v => stored entries (entries_type t) v)
    (fun t r => loaded entries (entries_type t) r)
    (fun t v => exact entries (entries_type t) v)
    (fun _ => 1).

(** *** MapValueView *)

Context (key_eqb : ValueType K -> ValueType K -> bool).

(** [Find(key)]: the index of the iterator returned; [size] for [end()]. *)
Fixpoint find_loop (v : ArrayValueView) (key : ValueType K) (index : Z) (n : nat) : result Z :=
  match n with
  | O => Ok index
  | S n =>
    let! '(k, _) := iterator_deref (TupleT [K; V]) v index in
    if key_eqb k key then Ok index else find_loop v key (wrap 64 (index + 1)) n
  end.

Definition MapValueView_Find (v : ArrayValueView) (key : ValueType K) : result Z := find_loop v key 0 (Z.to_nat (av_size v)).

(** [operator\[\]]: no check of the iterator. *)
Definition MapValueView_index (v : ArrayValueView) (key : ValueType K) : result (ValueType V) :=
  let! it := MapValueView_Find v key in
  let! '(_, (x, _)) := iterator_deref (TupleT [K; V]) v it in
  Ok x.

Definition MapValueView_At (v : ArrayValueView) (key : ValueType K) : result (ValueType V) :=
  let! it := MapValueView_Find v key in
  if it =? av_size v then Throw ValidationError
  else
    let! '(_, (x, _)) := iterator_deref (TupleT [K; V]) v it in
    Ok x.

Definition MapValueView_Count (v : ArrayValueView) (key : ValueType K) : result Z :=
  let! l := view_items (TupleT [K; V]) v in
  Ok (fold_left (fun n '(k, _) => if key_eqb k key then wrap 64 (n + 1) else n) l 0).
End MapT.

(** ** ColumnGeo *)

(** [Append] and [At] pass the value on to the column in [data_]. *)
Definition ColumnGeo_Append (N : Described) (v : ValueType N) : M column unit := on_data (AppendValue N v).

Definition ColumnGeo_At (N : Described) (c : column) (n : Z) : result (ValueType N) := from_data (fun d => At N d n) c.

Definition GeoC (w : wrapper) (N : Described) : Described :=
  delegating w N (ColumnGeo_Append N) (ColumnGeo_At N) id id (value_default N) (value_default N) (fun t v => exact N (inner_type w t) v).

Definition PointC : Described := GeoC WPoint (TupleT [Vector Code.Float64; Vector Code.Float64]).
Definition RingC : Described := GeoC WRing (ArrayT PointC).
Definition PolygonC : Described := GeoC WPolygon (ArrayT RingC).
Definition MultiPolygonC : Described := GeoC WMultiPolygon (ArrayT PolygonC).

(** ** The classes the templates generate *)

Inductive generated : Described -> Prop :=
| gen_vector code : generated (Vector code)
| gen_enum code : generated (Enum code)
| gen_string : generated StringC
| gen_fixed : generated FixedStringC
| gen_bool : generated BoolC
| gen_date : generated DateC
| gen_date32 : generated Date32C
| gen_datetime : generated DateTimeC
| gen_datetime64 : generated DateTime64C
| gen_time : generated TimeC
| gen_time64 : generated Time64C
| gen_decimal : generated DecimalC
| gen_ipv4 : generated IPv4C
| gen_ipv6 : generated IPv6C
| gen_uuid : generated UUIDC
| gen_json : generated JSONC
| gen_point : generated PointC
| gen_ring : generated RingC
| gen_polygon : generated PolygonC
| gen_multipolygon : generated MultiPolygonC
| gen_nullable N : generated N -> generated (NullableT N)
| gen_array N : generated N -> generated (ArrayT N)
| gen_tuple Ns : Ns <> [] -> Forall generated Ns -> generated (TupleT Ns)
| gen_map K V : generated K -> generated V -> generated (MapT K V).

(** The classes that hold their data themselves: all but the templates. *)
Definition plain_classes (code : Code.t) : list Described :=
  [Vector code; Enum code; StringC; FixedStringC; BoolC; DateC; Date32C; DateTimeC; DateTime64C; TimeC; Time64C; DecimalC; IPv4C; IPv6C;
   UUIDC; JSONC; PointC; RingC; PolygonC; MultiPolygonC].

Lemma plain_generated (code : Code.t) : Forall generated (plain_classes code).
Proof. repeat (apply Forall_cons_2; [by constructor|]). apply Forall_nil_2. Qed.

(** A class that takes back all of a value it refuses: one that holds its data itself, or nullables of such a class. *)
Inductive takes_back : Described -> Prop :=
| takes_back_plain (code : Code.t) (N : Described) : N ∈ plain_classes code -> takes_back N
| takes_back_nullable (N : Described) : takes_back N -> takes_back (NullableT N).

(** ** Proofs *)

Lemma at_null (nulls : list Z) (i n : Z) : 0 <= i -> nulls !! Z.to_nat i = Some n -> forall nested,
  IsNull (ColumnNullable nested nulls) i = Ok (negb (n =? 0)).
Proof. intros Hi Hn nested. cbn [IsNull]. by rewrite (at_lookup _ _ n). Qed.

Lemma zip_lookup {A B C} (f : A -> B -> C) (l : list A) (k : list B) (i : nat) (r : C) : zip_with f l k !! i = Some r ->
  exists a b, l !! i = Some a /\ k !! i = Some b /\ r = f a b.
Proof. rewrite lookup_zip_with. destruct (l !! i), (k !! i); try done. intros [= <-]. eauto. Qed.

Lemma nullable_weight (nested : column) (nulls : list Z) : wf_col (ColumnNullable nested nulls) ->
  weight (rows (ColumnNullable nested nulls)) = zlen nulls + weight (rows nested).
Proof.
  intros (Hn & Hs & _). cbn [rows]. apply weight_nullable. rewrite (Size_rows nested Hn) in Hs. unfold zlen in Hs. lia.
Qed.

(** *** ColumnNullableT *)
Section NullableProofs.
Context (N : Described).
Hypothesis HN : Lawful N.

Lemma nullable_grown (nested nested' : column) (nulls : list Z) (flag : bool) (r : val) :
  wf_col (ColumnNullable nested nulls) -> grown nested nested' r ->
  grown (ColumnNullable nested nulls) (ColumnNullable nested' (nulls ++ [Z.b2z flag])) (VNullable (Z.b2z flag) r).
Proof using Type.
  intros (Hn & Hs & Hf & Ht) (Hw' & Ht' & Hr). split_and!.
  - cbn [wf_col]. rewrite (Size_rows _ Hw'), Hr, !zlen_app, <- (Size_rows _ Hn), Hs, Ht'. split_and!; [done|done| |done].
    apply Forall_app. split; [done|]. apply Forall_cons_2; [|apply Forall_nil_2]. by destruct flag.
  - cbn [ColumnType]. by rewrite Ht'.
  - cbn [rows]. rewrite Hr. rewrite zip_with_app; [done|]. rewrite (Size_rows nested Hn) in Hs. unfold zlen in Hs. lia.
Qed.

Lemma nullable_throws (nested nested' : column) (nulls : list Z) (v : option (ValueType N)) (e : exn) :
  zlen nulls < 2 ^ 63 -> defined (A := unit) (Throw e) ->
  AppendValue N (match v with Some v => v | None => null_value N end) nested = (Throw e, nested') ->
  ColumnNullableT_Append N v (ColumnNullable nested nulls) = (Throw e, ColumnNullable nested' nulls).
Proof using Type.
  intros Hl [Hu Hd] E. unfold ColumnNullableT_Append, bind, try_catch. cbn [ColumnNullable_AppendFlag on_nested]. rewrite E.
  cbn [erase_last_null].
  assert (Erase (nulls ++ [Z.b2z (negb (has_value v))]) (wrap 64 (zlen (nulls ++ [Z.b2z (negb (has_value v))]) - 1)) 1 = nulls) as ->.
  { rewrite zlen_app. change (zlen [Z.b2z (negb (has_value v))]) with 1. rewrite wrap_id by (unfold is_u; pose proof (zlen_nonneg nulls); lia).
    pose proof (removeLastIndex_snoc nulls (Z.b2z (negb (has_value v)))) as H. unfold removeLastIndex in H. rewrite zlen_app in H. exact H. }
  destruct e; done.
Qed.

Lemma NullableT_lawful : Lawful (NullableT N).
Proof using HN.
  split; [intros c v|intros c v|intros c i r|intros c i|cbn; lia|intros c v]; intros Hc Ha;
    destruct c as [| | | | | | |nested nulls| | |]; try done;
    pose proof (nullable_weight _ _ Hc) as Hwt; pose proof Hc as (Hn & Hs & _); pose proof (zlen_nonneg nulls) as Hz;
    pose proof (weight_nonneg (rows nested)) as Hnn;
    cbn [allowed stored loaded exact stride AppendValue At is_a class NullableT ColumnType nested_type] in *.
  - intros Hal Hf. set (x := match v with Some v => v | None => null_value N end) in *.
    assert (stored (NullableT N) (TNullable (ColumnType nested)) v =
      VNullable (Z.b2z (negb (has_value v))) (stored N (ColumnType nested) x)) as Hst by (by destruct v).
    cbn [stored NullableT nested_type] in Hst. rewrite Hst in *. cbn [vweight] in Hf.
    destruct (append_ok N HN nested x Hn Ha Hal ltac:(lia)) as (n' & E & Ha' & Hg).
    unfold ColumnNullableT_Append, bind, try_catch. cbn [ColumnNullable_AppendFlag on_nested]. fold x. rewrite E.
    eexists. split; [done|]. split; [done|]. by apply nullable_grown.
  - intros Hal Hf. assert (weight (rows nested) + vweight (stored N (ColumnType nested) (match v with Some v => v | None => null_value N end)) < 2 ^ 63)
      by (destruct v; cbn [vweight] in Hf; lia).
    destruct (append_refused N HN nested _ Hn Ha Hal ltac:(done)) as (e & n' & E & He).
    assert (zlen nulls < 2 ^ 63) by (destruct v; cbn [vweight] in Hf; pose proof (vweight_pos (stored N (ColumnType nested) (null_value N)));
      try pose proof (vweight_pos (stored N (ColumnType nested) v)); lia).
    exists e, (ColumnNullable n' nulls). split; [|done]. by apply nullable_throws.
  - intros Hi Hf Hr. cbn [rows] in Hr. apply zip_lookup in Hr as (n & r' & Hnl & Hr & ->).
    unfold ColumnNullableT_At. rewrite (at_null _ _ n) by (done || lia). cbn [rbind]. destruct (n =? 0); cbn [negb]; [|done].
    rewrite (at_ok N HN nested i r') by (done || lia). done.
  - intros Hi _. rewrite <- (Size_rows _ Hc) in Hi. cbn [Size] in Hi.
    unfold ColumnNullableT_At. cbn [IsNull]. rewrite at_beyond by done. eexists. by split; [|apply defined_exn].
  - intros Hv. destruct v as [v|]; [|done]. cbn. f_equal. by apply (exact_ok N HN).
Qed.
End NullableProofs.

(** *** ColumnArrayT *)

Lemma zslice_one {A} (l : list A) (i : Z) (x : A) : 0 <= i -> l !! Z.to_nat i = Some x -> zslice i 1 l = [x].
Proof. intros Hi Hx. unfold zslice. rewrite ztake_take, zdrop_drop, (drop_S _ x _ Hx). done. Qed.

Lemma zslice_lookup {A} (l : list A) (b n j : Z) : 0 <= b -> 0 <= j < n -> zslice b n l !! Z.to_nat j = l !! Z.to_nat (b + j).
Proof.
  intros Hb Hj. unfold zslice. rewrite ztake_take, zdrop_drop, lookup_take, lookup_drop.
  case_decide; [|lia]. f_equal. lia.
Qed.

(** Row [i] of an array column. *)
Lemma segments_lookup (os : list Z) (l : list val) (i : Z) (r : val) : monotone 0 os = true -> 0 <= i ->
  segments 0 os l !! Z.to_nat i = Some r ->
  i < zlen os /\ r = VList (zslice (off os i) (off os (i + 1) - off os i) l).
Proof.
  intros Hm Hi Hr. assert (i < zlen os) as Hlt.
  { apply lookup_lt_Some in Hr. rewrite segments_length in Hr. unfold zlen. lia. }
  split; [done|]. destruct (lookup_in_range os i) as [o Ho]; [lia|].
  pose proof (segments_zslice os l i 1 Hm Hi ltac:(lia) ltac:(lia)) as H.
  rewrite (zslice_one _ _ r), (zslice_one os _ o) in H by done. cbn [segments] in H. injection H as ->.
  by rewrite (off_succ os i o).
Qed.

Section ArrayProofs.
Context (N : Described).
Hypothesis HN : Lawful N.

Lemma append_each_ok (l : list (ValueType N)) : forall d, wf_col d -> is_a N d = true ->
  forallb (allowed N (ColumnType d)) l = true -> weight (rows d) + weight (map (stored N (ColumnType d)) l) < 2 ^ 63 ->
  exists d', append_each N l d = (Ok tt, d') /\ is_a N d' = true /\ wf_col d' /\ ColumnType d' = ColumnType d /\
    rows d' = rows d ++ map (stored N (ColumnType d)) l.
Proof using HN.
  induction l as [|x l IH]; intros d Hd Ha Hal Hf.
  - exists d. cbn. by rewrite app_nil_r.
  - cbn [forallb] in Hal. apply andb_prop in Hal as [Hx Hal]. cbn [map] in Hf. rewrite weight_cons in Hf.
    pose proof (weight_nonneg (map (stored N (ColumnType d)) l)).
    destruct (append_ok N HN d x Hd Ha Hx ltac:(lia)) as (d1 & E & Ha1 & Hw1 & Ht1 & Hr1).
    destruct (IH d1 Hw1 Ha1) as (d' & E' & Ha' & Hw' & Ht' & Hr'); rewrite ?Ht1, ?Hr1; [done|rewrite weight_app, weight_cons; change (weight []) with 0; lia|].
    exists d'. cbn [append_each]. rewrite (bind_ok _ _ _ _ _ E). split_and!; try done; [congruence|].
    rewrite Hr', Hr1, Ht1. cbn [map]. by rewrite <- app_assoc.
Qed.

Lemma append_each_refused (l : list (ValueType N)) : forall d, wf_col d -> is_a N d = true ->
  forallb (allowed N (ColumnType d)) l = false -> weight (rows d) + weight (map (stored N (ColumnType d)) l) < 2 ^ 63 ->
  exists e d', append_each N l d = (Throw e, d') /\ defined (A := unit) (Throw e).
Proof using HN.
  induction l as [|x l IH]; intros d Hd Ha Hal Hf; [done|].
  cbn [map] in Hf. rewrite weight_cons in Hf. pose proof (weight_nonneg (map (stored N (ColumnType d)) l)).
  cbn [forallb] in Hal. destruct (allowed N (ColumnType d) x) eqn:Hx; cbn [append_each].
  - destruct (append_ok N HN d x Hd Ha Hx ltac:(lia)) as (d1 & E & Ha1 & Hw1 & Ht1 & Hr1). rewrite (bind_ok _ _ _ _ _ E).
    apply IH; rewrite ?Ht1, ?Hr1; try done. rewrite weight_app, weight_cons. change (weight []) with 0. lia.
  - destruct (append_refused N HN d x Hd Ha Hx ltac:(lia)) as (e & d1 & E & He). rewrite (bind_throw _ _ _ _ _ E). eauto.
Qed.

Lemma array_weight (d : column) (os : list Z) : wf_col (ColumnArray d os) ->
  weight (rows (ColumnArray d os)) = zlen os + weight (rows d).
Proof using Type.
  intros (Hd & Hm & Hl & _). cbn [rows]. change (last_offset os) with (lastd 0 os) in Hl.
  apply weight_segments; [done|]. rewrite Hl, (Size_rows d Hd). lia.
Qed.

Lemma array_grown (d d' : column) (os : list Z) (l : list val) : wf_col (ColumnArray d os) -> wf_col d' ->
  ColumnType d' = ColumnType d -> rows d' = rows d ++ l -> weight (rows (ColumnArray d os)) + vweight (VList l) < 2 ^ 63 ->
  grown (ColumnArray d os) (ColumnArray d' (AddOffset os (zlen l))) (VList l).
Proof using Type.
  intros Hc Hd' Ht Hr Hf. pose proof (array_weight _ _ Hc) as Hwt. destruct Hc as (Hd & Hm & Hl & Hs & Hz & Hn).
  change (last_offset os) with (lastd 0 os) in Hl. rewrite vweight_list in Hf. pose proof (weight_len l). pose proof (weight_len (rows d)).
  pose proof (zlen_nonneg os). pose proof (zlen_nonneg l). pose proof (monotone_last _ _ Hm).
  assert (Size d' = Size d + zlen l) as Hsz by (by rewrite (Size_rows d' Hd'), (Size_rows d Hd), Hr, zlen_app).
  rewrite (Size_rows d Hd) in *. rewrite AddOffset_ok by lia.
  split_and!.
  - cbn [wf_col]. change (last_offset ?o) with (lastd 0 o). rewrite Ht, lastd_app, Hsz, Hl. split_and!; try done.
    + apply monotone_app. split; [done|]. apply monotone_cons. rewrite Hl. split; [lia|done].
    + lia.
    + rewrite zlen_app. change (zlen [zlen (rows d) + zlen l]) with 1. lia.
  - cbn [ColumnType]. by rewrite Ht.
  - cbn [rows]. rewrite Hr, Hl. by apply segments_snoc.
Qed.

(** The items of a view inside the data. *)
Lemma iterate_ok (d : column) (o s : Z) (n : nat) : wf_col d -> is_a N d = true -> weight (rows d) < 2 ^ 63 -> 0 <= o ->
  forall j, 0 <= j -> o + j + Z.of_nat n <= zlen (rows d) ->
  iterate N (mkView d o s) j n = Ok (map (loaded N (ColumnType d)) (zslice (o + j) (Z.of_nat n) (rows d))).
Proof using HN.
  intros Hd Ha Hf Ho. pose proof (weight_len (rows d)). induction n as [|n IH]; intros j Hj Hn.
  - unfold zslice. by rewrite ztake_0.
  - destruct (lookup_in_range (rows d) (o + j)) as [r Hr]; [lia|].
    cbn [iterate]. unfold iterator_deref. cbn [av_data av_offset]. rewrite wrap_id by (unfold is_u; lia).
    rewrite (at_ok N HN d (o + j) r) by (done || lia). cbn [rbind]. rewrite wrap_id by (unfold is_u; lia).
    rewrite IH by lia. cbn [rbind]. do 2 f_equal.
    rewrite Z.add_assoc. unfold zslice. rewrite !ztake_take, !zdrop_drop, !Nat2Z.id, (drop_S _ r _ Hr). cbn [take map].
    by replace (Z.to_nat (o + j + 1)) with (S (Z.to_nat (o + j))) by lia.
Qed.

(** The view of row [i]. *)
Lemma ColumnArrayT_At_ok (d : column) (os : list Z) (i : Z) (r : val) : wf_col (ColumnArray d os) -> 0 <= i ->
  rows (ColumnArray d os) !! Z.to_nat i = Some r ->
  exists o s, ColumnArrayT_At (ColumnArray d os) i = Ok (mkView d o s) /\ 0 <= o /\ 0 <= s /\ o + s <= zlen (rows d) /\
    r = VList (zslice o s (rows d)).
Proof using Type.
  intros (Hd & Hm & Hl & Hs & _) Hi Hr. change (last_offset os) with (lastd 0 os) in Hl. cbn [rows] in Hr.
  apply segments_lookup in Hr as [Hlt ->]; [|done|done]. rewrite (Size_rows d Hd) in *.
  pose proof (off_range os Hm i). pose proof (off_range os Hm (i + 1)). pose proof (off_le os Hm i 1 ltac:(lia) Hi).
  exists (off os i), (off os (i + 1) - off os i). split_and!; try lia; [|done].
  cbn [ColumnArrayT_At]. rewrite (proj2 (Z.leb_gt _ _)) by lia. rewrite GetOffset_ok, GetSize_ok by (done || lia). cbn [rbind].
  unfold ArrayValueView_new. rewrite (Size_rows d Hd). by rewrite wrap_id, Z.min_r by (unfold is_u; lia).
Qed.

Lemma ArrayT_lawful : Lawful (ArrayT N).
Proof using HN.
  split; [intros c v|intros c v|intros c i r|intros c i|cbn; lia|intros c v]; intros Hc Ha;
    destruct c as [| | | | | |d os| | | |]; try done; pose proof Hc as (Hd & _);
    pose proof (array_weight _ _ Hc) as Hwt; pose proof (zlen_nonneg os) as Hz;
    cbn [allowed stored loaded exact stride AppendValue At is_a class ArrayT ColumnType nested_type] in *.
  - intros Hal Hf. rewrite vweight_list in Hf.
    destruct (append_each_ok v d Hd Ha Hal ltac:(lia)) as (d' & E & Ha' & Hw' & Ht' & Hr').
    cbn [ColumnArrayT_Append]. rewrite E. eexists. split; [done|]. split; [done|].
    rewrite <- (zlen_map (stored N (ColumnType d))). by apply array_grown.
  - intros Hal Hf. rewrite vweight_list in Hf.
    destruct (append_each_refused v d Hd Ha Hal ltac:(lia)) as (e & d' & E & He).
    cbn [ColumnArrayT_Append]. rewrite E. eauto.
  - intros Hi Hf Hr. destruct (ColumnArrayT_At_ok d os i r Hc ltac:(lia) Hr) as (o & s & E & Ho & Hs & Hos & ->).
    rewrite E. cbn [rbind]. unfold view_items. cbn [av_size].
    rewrite iterate_ok by (done || lia). rewrite Z.add_0_r, Z2Nat.id by lia. done.
  - intros Hi _. rewrite <- (Size_rows _ Hc) in Hi. cbn [Size] in Hi. cbn [ColumnArrayT_At].
    rewrite (proj2 (Z.leb_le _ _)) by done. eexists. by split; [|apply defined_exn].
  - intros Hv. rewrite map_map. rewrite <- map_id. apply map_ext_in. intros x Hx. apply (exact_ok N HN); [done|done|].
    rewrite Forall_forall in Hv. apply Hv. by apply list_elem_of_In.
Qed.
End ArrayProofs.

(** *** ColumnTupleT *)

(** One more row in every column of a tuple. *)
Definition all_grown (cs cs' : list column) (rs : list val) : Prop :=
  Forall wf_col cs' /\ map ColumnType cs' = map ColumnType cs /\ map rows cs' = zip_with app (map rows cs) (map (fun r => [r]) rs).

Lemma AppendTuple_ok (Ns : list Described) : Forall Lawful Ns -> forall cs (vs : TupleValue Ns),
  wrap_all Ns cs = true -> Forall wf_col cs -> tuple_allowed Ns (map ColumnType cs) vs = true ->
  Forall (fun c => weight (rows c) + weight (tuple_stored Ns (map ColumnType cs) vs) < 2 ^ 63) cs ->
  exists cs', AppendTuple Ns vs cs = (Ok tt, cs') /\ wrap_all Ns cs' = true /\
    all_grown cs cs' (tuple_stored Ns (map ColumnType cs) vs).
Proof.
  induction 1 as [|N Ns HN HNs IH]; intros [|c cs] vs Ha Hw Hal Hf; try done.
  - exists []. done.
  - destruct vs as [v vs]. cbn [wrap_all] in Ha. apply andb_prop in Ha as [Ha Has].
    cbn [tuple_allowed map hd tl] in Hal. apply andb_prop in Hal as [Hx Hal]. cbn [tuple_stored map hd tl] in Hf.
    apply Forall_cons in Hw as [Hc Hw]. apply Forall_cons in Hf as [Hfc Hf]. rewrite weight_cons in Hfc.
    pose proof (vweight_pos (stored N (ColumnType c) v)). pose proof (weight_nonneg (tuple_stored Ns (map ColumnType cs) vs)).
    destruct (IH cs vs Has Hw Hal) as (cs' & E & Has' & Hw' & Ht' & Hr').
    { eapply Forall_impl; [exact Hf|]. cbn beta. intros d Hd. rewrite weight_cons in Hd. lia. }
    destruct (append_ok N HN c v Hc Ha Hx ltac:(lia)) as (c' & E' & Ha' & Hwc & Htc & Hrc).
    exists (c' :: cs'). cbn [AppendTuple]. rewrite E, E'. split; [done|]. split; [cbn; by rewrite Ha', Has'|].
    split_and!; [by constructor|cbn; by rewrite Htc, Ht'|]. cbn [map tuple_stored hd tl zip_with]. by rewrite Hrc, Hr'.
Qed.

Lemma AppendTuple_refused (Ns : list Described) : Forall Lawful Ns -> forall cs (vs : TupleValue Ns),
  wrap_all Ns cs = true -> Forall wf_col cs -> tuple_allowed Ns (map ColumnType cs) vs = false ->
  Forall (fun c => weight (rows c) + weight (tuple_stored Ns (map ColumnType cs) vs) < 2 ^ 63) cs ->
  exists e cs', AppendTuple Ns vs cs = (Throw e, cs') /\ defined (A := unit) (Throw e).
Proof.
  induction 1 as [|N Ns HN HNs IH]; intros [|c cs] vs Ha Hw Hal Hf; try done.
  destruct vs as [v vs]. cbn [wrap_all] in Ha. apply andb_prop in Ha as [Ha Has].
  cbn [tuple_allowed map hd tl] in Hal. cbn [tuple_stored map hd tl] in Hf.
  apply Forall_cons in Hw as [Hc Hw]. apply Forall_cons in Hf as [Hfc Hf]. rewrite weight_cons in Hfc.
  pose proof (vweight_pos (stored N (ColumnType c) v)). pose proof (weight_nonneg (tuple_stored Ns (map ColumnType cs) vs)).
  assert (Forall (fun c => weight (rows c) + weight (tuple_stored Ns (map ColumnType cs) vs) < 2 ^ 63) cs) as Hf'.
  { eapply Forall_impl; [exact Hf|]. cbn beta. intros d Hd. rewrite weight_cons in Hd. lia. }
  cbn [AppendTuple]. destruct (tuple_allowed Ns (map ColumnType cs) vs) eqn:Hvs.
  - destruct (AppendTuple_ok Ns HNs cs vs Has Hw Hvs Hf') as (cs' & E & _). rewrite E.
    rewrite andb_true_r in Hal. destruct (append_refused N HN c v Hc Ha Hal ltac:(lia)) as (e & c' & E' & He). rewrite E'. eauto.
  - destruct (IH cs vs Has Hw Hvs Hf') as (e & cs' & E & He). rewrite E. eauto.
Qed.

Lemma transpose_lookup (i : nat) (ls : list (list val)) : forall rs, transpose ls !! i = Some rs ->
  Forall2 (fun l r => l !! i = Some r) ls rs.
Proof.
  induction ls as [|l [|m ls] IH]; intros rs Hr; [done| |].
  - cbn [transpose] in Hr. rewrite list_lookup_fmap in Hr. destruct (l !! i) as [r|] eqn:E; [|done]. injection Hr as <-.
    by repeat constructor.
  - rewrite transpose_cons in Hr. apply zip_lookup in Hr as (a & k & Ha & Hk & ->). constructor; [done|]. by apply IH.
Qed.

Lemma GetTupleOfValues_ok (Ns : list Described) (i : Z) : Forall Lawful Ns -> 0 <= i < 2 ^ 63 -> forall cs rs,
  wrap_all Ns cs = true -> Forall wf_col cs -> Forall (fun c => weight (rows c) < 2 ^ 63) cs ->
  Forall2 (fun l r => l !! Z.to_nat i = Some r) (map rows cs) rs ->
  GetTupleOfValues Ns i cs = Ok (tuple_loaded Ns (map ColumnType cs) rs).
Proof.
  intros HNs Hi. induction HNs as [|N Ns HN HNs IH]; intros [|c cs] rs Ha Hw Hf Hr; try done.
  inversion Hr as [|? r ? rs' Hr1 Hr2]; subst. cbn [wrap_all] in Ha. apply andb_prop in Ha as [Ha Has].
  apply Forall_cons in Hw as [Hc Hw]. apply Forall_cons in Hf as [Hfc Hf].
  cbn [GetTupleOfValues tuple_loaded map hd tl]. rewrite (at_ok N HN c i r) by done. cbn [rbind]. by rewrite (IH cs rs').
Qed.

Lemma transpose_ones (rs : list val) : rs <> [] -> transpose (map (fun r => [r]) rs) = [rs].
Proof.
  induction rs as [|r [|s rs] IH]; intros Hne; [done|done|]. change (transpose ([r] :: map (fun r => [r]) (s :: rs)) = [r :: s :: rs]).
  cbn [map]. rewrite transpose_cons. change ([s] :: map (fun r => [r]) rs) with (map (fun r => [r]) (s :: rs)).
  by rewrite IH.
Qed.

Lemma length_tuple_stored (Ns : list Described) : forall ts vs, length (tuple_stored Ns ts vs) = length Ns.
Proof. induction Ns as [|N Ns IH]; intros ts vs; [done|]. destruct vs. cbn. by rewrite IH. Qed.

Lemma wrap_all_length (Ns : list Described) : forall cs, wrap_all Ns cs = true -> length cs = length Ns.
Proof. induction Ns as [|N Ns IH]; intros [|c cs]; try done. cbn. intros [_ H]%andb_prop. by rewrite IH. Qed.

Lemma tuple_grown (cs cs' : list column) (names : list bytes) (rs : list val) : cs <> [] -> length rs = length cs ->
  wf_col (ColumnTuple cs names) -> all_grown cs cs' rs ->
  grown (ColumnTuple cs names) (ColumnTuple cs' names) (VTuple rs).
Proof.
  intros Hne Hlen Hc (Hw' & Ht' & Hr'). destruct (tuple_rows _ _ Hc) as [Hl _]. pose proof Hc as (_ & _ & Hnew & Hleaf).
  assert (Forall (fun l => length l = 1%nat) (map (fun r => [r]) rs)) as Hone by (by apply Forall_map, Forall_forall).
  assert (rs <> []) by (destruct rs, cs; done).
  split_and!.
  - cbn [wf_col ColumnType]. rewrite Ht'. split_and!; [by apply foldr_Forall| |done|done].
    pose proof (zip_app_length _ _ _ _ Hl Hone) as H1. rewrite <- Hr' in H1. apply Forall_map in H1.
    assert (Forall (fun d => Size d = Z.of_nat (Z.to_nat (Size (ColumnTuple cs names)) + 1)) cs') as Hs.
    { rewrite Forall_forall in *. intros d Hd. rewrite (Size_rows d (Hw' d Hd)). unfold zlen. by rewrite (H1 d Hd). }
    eapply Forall_impl; [exact Hs|]. cbn beta. intros d ->. destruct cs' as [|d' cs'']; [destruct cs, rs; done|].
    symmetry. exact (Forall_inv Hs).
  - cbn [ColumnType]. by rewrite Ht'.
  - cbn [rows]. rewrite Hr', (transpose_app _ _ _ Hl), map_app by (rewrite !length_map; done). f_equal.
    by rewrite transpose_ones.
Qed.

Lemma tuple_exact_ok (Ns : list Described) : Forall Lawful Ns -> forall cs (vs : TupleValue Ns),
  wrap_all Ns cs = true -> Forall wf_col cs -> tuple_exact Ns (map ColumnType cs) vs ->
  tuple_loaded Ns (map ColumnType cs) (tuple_stored Ns (map ColumnType cs) vs) = vs.
Proof.
  induction 1 as [|N Ns HN HNs IH]; intros [|c cs] vs Ha Hw Hv; try done; [by destruct vs|].
  destruct vs as [v vs]. cbn [wrap_all] in Ha. apply andb_prop in Ha as [Ha Has]. apply Forall_cons in Hw as [Hc Hw].
  destruct Hv as [Hv Hvs]. cbn [tuple_loaded tuple_stored map hd tl]. f_equal; [by apply (exact_ok N HN)|by apply IH].
Qed.

Lemma TupleT_lawful (Ns : list Described) : Ns <> [] -> Forall Lawful Ns -> Lawful (TupleT Ns).
Proof.
  intros Hne HNs.
  split; [intros c v|intros c v|intros c i r|intros c i|intros c|intros c v]; intros Hc Ha;
    destruct c as [| | | | | | | |cs names| |]; try done;
    destruct (tuple_rows _ _ Hc) as [Hl Hwt]; pose proof (wrap_all_length Ns cs Ha) as Hlen;
    assert (Forall wf_col cs) as Hw by (eapply Forall_impl; [exact Hwt|by intros ? []]);
    cbn [allowed stored loaded exact stride AppendValue At is_a class TupleT ColumnType item_types] in *.
  - intros Hal Hf. rewrite vweight_tuple in Hf.
    destruct (AppendTuple_ok Ns HNs cs v Ha Hw Hal) as (cs' & E & Ha' & Hg).
    { eapply Forall_impl; [exact Hwt|]. cbn beta. intros d [_ Hd]. lia. }
    cbn [ColumnTupleT_Append]. rewrite E. eexists. split; [done|]. split; [done|].
    apply tuple_grown; try done; [by destruct cs, Ns|by rewrite length_tuple_stored].
  - intros Hal Hf. rewrite vweight_tuple in Hf.
    destruct (AppendTuple_refused Ns HNs cs v Ha Hw Hal) as (e & cs' & E & He).
    { eapply Forall_impl; [exact Hwt|]. cbn beta. intros d [_ Hd]. lia. }
    cbn [ColumnTupleT_Append]. rewrite E. eauto.
  - intros Hi Hf Hr. cbn [rows] in Hr. rewrite list_lookup_fmap in Hr. destruct (transpose (map rows cs) !! Z.to_nat i) as [rs|] eqn:E; [|done].
    injection Hr as <-. apply transpose_lookup in E. cbn [ColumnTupleT_At]. apply GetTupleOfValues_ok; try done.
    eapply Forall_impl; [exact Hwt|]. cbn beta. intros d [_ Hd]. lia.
  - intros Hi Hs. rewrite <- (Size_rows _ Hc) in Hi. destruct Ns as [|N Ns], cs as [|c cs]; try done.
    cbn [wrap_all] in Ha. apply andb_prop in Ha as [Ha _]. apply Forall_cons in HNs as [HN _]. apply Forall_cons in Hw as [Hw _].
    cbn [Size] in Hi. rewrite (Size_rows c Hw) in Hi. cbn [map hd] in Hs.
    destruct (at_out N HN c i Hw Ha Hi Hs) as (e & E & He). cbn [ColumnTupleT_At GetTupleOfValues]. rewrite E. eauto.
  - destruct Ns as [|N Ns], cs as [|c cs]; try done. cbn [wrap_all] in Ha. apply andb_prop in Ha as [Ha _].
    apply Forall_cons in HNs as [HN _]. apply Forall_cons in Hw as [Hw _]. cbn [map hd]. by apply (stride_pos N HN).
  - intros Hv. by apply tuple_exact_ok.
Qed.

(** *** ColumnMapT *)

Lemma map_grown (d d' : column) (r : val) : wf_col (ColumnMap d) -> grown d d' r -> grown (ColumnMap d) (ColumnMap d') r.
Proof.
  intros (Hd & k & v & os & ->) (Hw' & Ht' & Hr').
  destruct (map_shape d' (ColumnType k) (ColumnType v) Hw' Ht') as (k' & v' & os' & -> & Hk & Hv).
  split_and!; [split; [done|eauto]| |done]. cbn [ColumnType]. by rewrite Hk, Hv.
Qed.

Lemma map_inner (c : column) : wf_col c -> (exists d, c = ColumnMap d) ->
  exists k v os, c = ColumnMap (ColumnArray (ColumnTuple [k; v] []) os) /\ wf_col (ColumnArray (ColumnTuple [k; v] []) os) /\
    entries_type (ColumnType c) = ColumnType (ColumnArray (ColumnTuple [k; v] []) os).
Proof. intros Hw [d ->]. destruct Hw as (Hd & k & v & os & ->). by exists k, v, os. Qed.

Section MapProofs.
Context (K V : Described).
Hypothesis HK : Lawful K.
Hypothesis HV : Lawful V.

Lemma entry_lawful : Lawful (TupleT [K; V]).
Proof using HK HV. apply TupleT_lawful; [done|]. by apply Forall_cons_2, Forall_cons_2, Forall_nil_2. Qed.

Lemma entries_lawful : Lawful (entries K V).
Proof using HK HV. apply ArrayT_lawful, entry_lawful. Qed.

Lemma MapT_lawful : Lawful (MapT K V).
Proof using HK HV.
  pose proof entries_lawful as HE.
  split; [intros c v|intros c v|intros c i r|intros c i|cbn; lia|intros c v]; intros Hc Ha;
    (assert (exists d, c = ColumnMap d) as Hd by (destruct c; try done; eauto));
    destruct (map_inner c Hc Hd) as (kc & vc & os & -> & Hw & Ht); clear Hd;
    cbn [allowed stored loaded exact stride AppendValue At is_a class MapT] in *; rewrite ?Ht;
    set (d := ColumnArray (ColumnTuple [kc; vc] []) os) in *; change (rows (ColumnMap d)) with (rows d); change (is_a (entries K V) d = true) in Ha.
  - intros Hal Hf. destruct (append_ok _ HE d v Hw Ha Hal Hf) as (d' & E & Ha' & Hg).
    unfold ColumnMapT_Append. cbn [on_map]. cbn [AppendValue entries ArrayT class] in E. rewrite E.
    eexists. split; [done|]. split; [done|]. by apply map_grown.
  - intros Hal Hf. destruct (append_refused _ HE d v Hw Ha Hal Hf) as (e & d' & E & He).
    unfold ColumnMapT_Append. cbn [on_map]. cbn [AppendValue entries ArrayT class] in E. rewrite E. eauto.
  - intros Hi Hf Hr. exact (at_ok _ HE d i r Hw Ha Hi Hf Hr).
  - intros Hi Hs. exact (at_out _ HE d i Hw Ha Hi Hs).
  - intros Hv. exact (exact_ok _ HE d v Hw Ha Hv).
Qed.
End MapProofs.

(** *** ColumnGeo *)

Lemma GeoC_lawful (w : wrapper) (N : Described) : w <> WUUID -> Lawful N -> Lawful (GeoC w N).
Proof.
  intros Hw HN. apply delegating_lawful; try done.
  - intros. symmetry. apply bind_id.
  - intros d v ty Hd Ha Ht Hv. unfold id. apply (exact_ok N HN); [done|done|]. unfold inner_type in Hv. by rewrite Ht in Hv.
Qed.

Lemma PointC_lawful : Lawful PointC.
Proof. apply GeoC_lawful; [done|]. apply TupleT_lawful; [done|]. apply Forall_cons_2, Forall_cons_2, Forall_nil_2; apply Vector_lawful. Qed.

Lemma RingC_lawful : Lawful RingC.
Proof. apply GeoC_lawful, ArrayT_lawful, PointC_lawful. done. Qed.

Lemma PolygonC_lawful : Lawful PolygonC.
Proof. apply GeoC_lawful, ArrayT_lawful, RingC_lawful. done. Qed.

Lemma MultiPolygonC_lawful : Lawful MultiPolygonC.
Proof. apply GeoC_lawful, ArrayT_lawful, PolygonC_lawful. done. Qed.

(** *** All classes *)

Create HintDb lawful.
#[export] Hint Resolve Vector_lawful Enum_lawful StringC_lawful FixedStringC_lawful BoolC_lawful DateC_lawful Date32C_lawful
  DateTimeC_lawful DateTime64C_lawful TimeC_lawful Time64C_lawful DecimalC_lawful IPv4C_lawful IPv6C_lawful UUIDC_lawful
  JSONC_lawful PointC_lawful RingC_lawful PolygonC_lawful MultiPolygonC_lawful NullableT_lawful ArrayT_lawful TupleT_lawful
  MapT_lawful : lawful.

Fixpoint generated_lawful (D : Described) (H : generated D) {struct H} : Lawful D.
Proof.
  destruct H as [| | | | | | | | | | | | | | | | | | | |N H|N H|Ns Hne HNs|K V HK HV]; auto with lawful.
  apply TupleT_lawful; [done|]. clear Hne. induction HNs as [|N Ns HN HNs IH]; constructor; [by apply generated_lawful|exact IH].
Qed.

(** *** Refused values *)

(** A column of the class is left as it is when it refuses the value. *)
Definition refuses (N : Described) (t : type) (x : ValueType N) (e : exn) : Prop :=
  forall d, wf_col d -> is_a N d = true -> ColumnType d = t -> Size d < 2 ^ 63 -> AppendValue N x d = (Throw e, d).

Lemma takes_back_generated (N : Described) : takes_back N -> generated N.
Proof. induction 1 as [code N HN|N _ IH]; [|by constructor]. pose proof (plain_generated code) as Hp. by eapply Forall_forall in Hp. Qed.

Lemma fixed_refuses (t : type) (x : bytes) : allowed FixedStringC t x = false -> refuses FixedStringC t x ValidationError.
Proof.
  cbn. intros Hal [| | |m data| | | | | | |] Hw Ha Ht Hs; try done. cbn in Ht. subst t. cbn in *. unfold FixedString_Append.
  by rewrite (proj2 (Z.ltb_lt _ _)) by lia.
Qed.

Lemma ipv6_refuses (t : type) (x : bytes) : allowed IPv6C t x = false -> refuses IPv6C t x ValidationError.
Proof.
  intros Hal d Hw Ha Ht Hs. destruct d as [| | | | |w ty d| | | | |]; try done. cbn [ColumnType] in Ht. subst ty. destruct Hw as (Ht & Hw & _).
  cbn [is_a IPv6C delegating class] in Ha. apply andb_prop in Ha as [->%bool_decide_eq_true Ha].
  cbn [allowed IPv6C delegating] in Hal. unfold inner_type in Hal. rewrite Ht in Hal. cbn [default] in Hal.
  cbn [AppendValue IPv6C delegating class]. unfold ColumnIPv6_Append, on_data.
  change (ColumnFixedString_Append x d) with (AppendValue FixedStringC x d).
  by rewrite (fixed_refuses _ x Hal d Hw Ha eq_refl Hs).
Qed.

(** Geometric columns take every value. *)
Lemma point_takes (t : type) (v : ValueType PointC) : allowed PointC t v = true.
Proof. by destruct v as (x & y & []). Qed.

Lemma geo_array_takes (w : wrapper) (N : Described) : (forall t v, allowed N t v = true) -> forall t v, allowed (GeoC w (ArrayT N)) t v = true.
Proof. intros HN t v. apply forallb_forall. intros x _. apply HN. Qed.

Lemma ring_takes : forall t v, allowed RingC t v = true.
Proof. apply geo_array_takes, point_takes. Qed.

Lemma polygon_takes : forall t v, allowed PolygonC t v = true.
Proof. apply geo_array_takes, ring_takes. Qed.

Lemma multipolygon_takes : forall t v, allowed MultiPolygonC t v = true.
Proof. apply geo_array_takes, polygon_takes. Qed.

Lemma takes_back_refuses (N : Described) : takes_back N -> forall t x, allowed N t x = false ->
  exists e, refuses N t x e /\ defined (A := unit) (Throw e).
Proof.
  induction 1 as [code N HN|N HN IH]; intros t x Hal.
  - exists ValidationError. split; [|by apply defined_exn]. unfold plain_classes in HN.
    repeat (apply elem_of_cons in HN as [-> | HN]; [first [discriminate Hal|by apply fixed_refuses|by apply ipv6_refuses|by rewrite ?point_takes, ?ring_takes, ?polygon_takes, ?multipolygon_takes in Hal]|]).
    by apply elem_of_nil in HN.
  - destruct (IH (nested_type t) (match x with Some v => v | None => null_value N end) Hal) as (e & He & Hdef). exists e. split; [|done].
    intros [| | | | | | |n us| | |] Hw Ha Ht Hs; try done. cbn [ColumnType] in Ht. subst t. destruct Hw as (Hwn & Hz & _).
    apply nullable_throws; [exact Hs|done|]. apply He; try done. cbn [Size] in Hs. lia.
Qed.

Section Refused.
Context (N : Described).
Hypothesis HN : Lawful N.

Lemma append_each_app (l k : list (ValueType N)) (d d1 : column) : append_each N l d = (Ok tt, d1) ->
  append_each N (l ++ k) d = append_each N k d1.
Proof using Type.
  revert d. induction l as [|y l IH]; intros d E; [by injection E as ->|]. cbn [append_each app] in *.
  apply bind_inv in E as ([] & d2 & E1 & E2). rewrite (bind_ok _ _ _ _ _ E1). by apply IH.
Qed.

(** The items before a refused one stay in the data of an array column, without an offset. *)
Lemma array_torn (d : column) (os : list Z) (l l2 : list (ValueType N)) (x : ValueType N) (e : exn) :
  wf_col (ColumnArray d os) -> is_a N d = true -> forallb (allowed N (ColumnType d)) l = true ->
  weight (rows (ColumnArray d os)) + weight (map (stored N (ColumnType d)) l) < 2 ^ 63 -> refuses N (ColumnType d) x e ->
  exists d1, ColumnArrayT_Append N (l ++ x :: l2) (ColumnArray d os) = (Throw e, ColumnArray d1 os) /\ is_a N d1 = true /\
    wf_col d1 /\ ColumnType d1 = ColumnType d /\ rows d1 = rows d ++ map (stored N (ColumnType d)) l.
Proof using HN.
  intros Hc Ha Hal Hf Hx. pose proof (array_weight _ _ Hc) as Hwt. pose proof (zlen_nonneg os). pose proof Hc as (Hd & _).
  destruct (append_each_ok N HN l d Hd Ha Hal ltac:(lia)) as (d1 & E & Ha1 & Hw1 & Ht1 & Hr1).
  exists d1. cbn [ColumnArrayT_Append]. rewrite (append_each_app _ _ _ _ E). cbn [append_each].
  assert (Size d1 < 2 ^ 63) as Hs.
  { rewrite (Size_rows d1 Hw1), Hr1. pose proof (weight_len (rows d ++ map (stored N (ColumnType d)) l)) as Hlen. rewrite weight_app in Hlen. lia. }
  by rewrite (bind_throw _ _ _ _ _ (Hx d1 Hw1 Ha1 Ht1 Hs)).
Qed.

(** The next row appended starts with them. *)
Lemma array_shifted (d d1 : column) (os : list Z) (lost m : list (ValueType N)) : wf_col (ColumnArray d os) ->
  is_a N d1 = true -> wf_col d1 -> ColumnType d1 = ColumnType d -> rows d1 = rows d ++ map (stored N (ColumnType d)) lost ->
  forallb (allowed N (ColumnType d)) m = true ->
  weight (rows (ColumnArray d os)) + weight (map (stored N (ColumnType d)) (lost ++ m)) < 2 ^ 63 ->
  exists c2, ColumnArrayT_Append N m (ColumnArray d1 os) = (Ok tt, c2) /\ Size c2 = zlen os + 1 /\
    At (ArrayT N) c2 (zlen os) = Ok (map (fun v => loaded N (ColumnType d) (stored N (ColumnType d) v)) (ztake (zlen m) (lost ++ m))).
Proof using HN.
  intros Hc Ha1 Hw1 Ht1 Hr1 Hm Hf. pose proof (array_weight _ _ Hc) as Hwt. destruct Hc as (Hd & Hmon & Hlast & Hs & Hz & _).
  change (last_offset os) with (lastd 0 os) in Hlast. rewrite map_app, weight_app in Hf. pose proof (zlen_nonneg os) as Hos.
  rewrite <- Ht1 in Hm. destruct (append_each_ok N HN m d1 Hw1 Ha1 Hm) as (d2 & E & Ha2 & Hw2 & Ht2 & Hr2).
  { rewrite Ht1, Hr1, weight_app. lia. }
  rewrite Ht1 in Hr2, Ht2. rewrite Hr1, <- app_assoc, <- map_app in Hr2.
  cbn [ColumnArrayT_Append]. rewrite E. pose proof (monotone_last _ _ Hmon). pose proof (weight_len (rows d)). pose proof (weight_len (map (stored N (ColumnType d)) lost)) as H1.
  pose proof (weight_len (map (stored N (ColumnType d)) m)) as H2. rewrite zlen_map in H1, H2.
  pose proof (zlen_nonneg m). pose proof (zlen_nonneg lost). rewrite (Size_rows d Hd) in *.
  assert (zlen (rows d2) = zlen (rows d) + zlen lost + zlen m) as Hz2 by (rewrite Hr2, zlen_app, zlen_map, zlen_app; lia).
  assert (weight (rows d2) < 2 ^ 63) as Hf2 by (rewrite Hr2, weight_app, map_app, weight_app; lia).
  rewrite AddOffset_ok by lia. eexists. split; [done|]. split; [cbn [Size]; by rewrite zlen_app|].
  set (os' := os ++ [lastd 0 os + zlen m]).
  assert (zlen os' = zlen os + 1) as Hz' by (unfold os'; by rewrite zlen_app).
  assert (monotone 0 os' = true) as Hmon' by (apply monotone_app; split; [done|]; apply monotone_cons; split; [lia|done]).
  assert (off os' (zlen os) = zlen (rows d)) as Ho by (unfold off, os'; by rewrite ztake_app_exact, Hlast).
  assert (lastd 0 os' = zlen (rows d) + zlen m) as Hl' by (unfold os'; by rewrite lastd_app, Hlast).
  cbn [At ArrayT class ColumnArrayT_At]. rewrite (proj2 (Z.leb_gt _ _)) by lia.
  rewrite GetOffset_ok, GetSize_ok by (done || lia). cbn [rbind]. rewrite <- Hz', off_all, Ho, Hl'.
  unfold ArrayValueView_new. rewrite (Size_rows d2 Hw2). rewrite wrap_id, Z.min_r by (unfold is_u; lia).
  unfold view_items. cbn [av_size]. rewrite (iterate_ok N HN) by (done || lia). f_equal.
  rewrite Z.add_0_r, Z2Nat.id by lia. replace (zlen (rows d) + zlen m - zlen (rows d)) with (zlen m) by lia.
  unfold zslice. rewrite Hr2, zdrop_app_exact, ztake_map, map_map, Ht2. done.
Qed.
End Refused.

(** *** Lookups in a map row *)
Section Lookups.
Context (K V : Described) (key_eqb : ValueType K -> ValueType K -> bool).
Hypothesis HK : Lawful K.
Hypothesis HV : Lawful V.

(** The first entry with the key. *)
Fixpoint find_entry (key : ValueType K) (l : list (TupleValue [K; V])) : option (nat * TupleValue [K; V]) :=
  match l with
  | [] => None
  | e :: l =>
    if key_eqb (fst e) key then Some (O, e)
    else match find_entry key l with Some (n, x) => Some (S n, x) | None => None end
  end.

Lemma find_loop_ok (v : ArrayValueView) (key : ValueType K) (n : nat) : forall j l, 0 <= j -> j + Z.of_nat n < 2 ^ 64 ->
  iterate (TupleT [K; V]) v j n = Ok l ->
  find_loop K V key_eqb v key j n = Ok (match find_entry key l with Some (m, _) => j + Z.of_nat m | None => j + Z.of_nat n end) /\
  (forall m e, find_entry key l = Some (m, e) -> (m < n)%nat /\ iterator_deref (TupleT [K; V]) v (j + Z.of_nat m) = Ok e).
Proof using Type.
  induction n as [|n IH]; intros j l Hj Hn E.
  - injection E as <-. cbn. by rewrite Z.add_0_r.
  - cbn [iterate find_loop] in *. destruct (iterator_deref (TupleT [K; V]) v j) as [[k [x []]]|] eqn:Ed; [|done]. cbn [rbind] in *.
    rewrite wrap_id in * by (unfold is_u; lia). destruct (iterate (TupleT [K; V]) v (j + 1) n) as [l'|] eqn:Ei; [|done].
    injection E as <-. cbn [find_entry fst]. destruct (key_eqb k key).
    + split; [by rewrite Z.add_0_r|]. intros m e [= <- <-]. rewrite Z.add_0_r. split; [lia|done].
    + destruct (IH (j + 1) l' ltac:(lia) ltac:(lia) Ei) as [H1 H2]. rewrite H1. split.
      * destruct (find_entry key l') as [[m e]|]; f_equal; lia.
      * intros m e Hm. destruct (find_entry key l') as [[m' e']|] eqn:Ef; [|done]. injection Hm as <- <-.
        destruct (H2 m' e' eq_refl) as [Hlt He]. split; [lia|]. rewrite <- He. f_equal. lia.
Qed.

(** The view of row [i] and its entries. *)
Lemma map_view (c : column) (i : Z) : wf_col c -> is_a (MapT K V) c = true -> weight (rows c) < 2 ^ 63 -> 0 <= i < Size c ->
  exists v l, ColumnMapT_At c i = Ok v /\ At (MapT K V) c i = Ok l /\ view_items (TupleT [K; V]) v = Ok l /\
    zlen l = av_size v /\ 0 <= av_size v < 2 ^ 63.
Proof using HK HV.
  intros Hc Ha Hf Hi. rewrite (Size_rows c Hc) in Hi. destruct (lookup_in_range (rows c) i) as [r Hr]; [lia|].
  pose proof (weight_len (rows c)).
  pose proof (at_ok _ (MapT_lawful K V HK HV) c i r Hc Ha ltac:(lia) Hf Hr) as E.
  destruct (map_inner c Hc) as (kc & vc & os & -> & Hw & Ht); [by destruct c; try done; eauto|].
  destruct (ColumnArrayT_At_ok _ _ i r Hw ltac:(lia) Hr) as (o & s & Ev & Ho & Hs & Hos & ->).
  eexists _, _. split; [exact Ev|]. split; [exact E|]. cbn [At MapT class ColumnMapT_At] in E. rewrite Ev in E. split; [exact E|].
  cbn [av_size]. cbn [loaded MapT ArrayT entries]. rewrite zlen_map, zlen_zslice by (done || lia). split; [done|].
  pose proof (array_weight _ _ Hw). pose proof (weight_len (rows (ColumnTuple [kc; vc] []))). pose proof (zlen_nonneg os).
  change (rows (ColumnMap ?d)) with (rows d) in Hf. lia.
Qed.

(** How many entries have the key. *)
Fixpoint entries_with (key : ValueType K) (l : list (TupleValue [K; V])) : Z :=
  match l with
  | [] => 0
  | e :: l => (if key_eqb (fst e) key then 1 else 0) + entries_with key l
  end.

Lemma count_ok (key : ValueType K) (l : list (TupleValue [K; V])) : forall n, 0 <= n -> n + zlen l < 2 ^ 64 ->
  fold_left (fun n '(k, _) => if key_eqb k key then wrap 64 (n + 1) else n) l n = n + entries_with key l.
Proof using Type.
  induction l as [|[k x] l IH]; intros n Hn Hl; cbn [fold_left entries_with fst]; [lia|]. rewrite zlen_cons in Hl. pose proof (zlen_nonneg l).
  destruct (key_eqb k key).
  - rewrite wrap_id by (unfold is_u; lia). rewrite IH by lia. lia.
  - rewrite IH by lia. lia.
Qed.
End Lookups.

(** ** Theorems *)

(** C20. Typed columns: for every column class the library defines and every class its templates generate from them (arrays,
    nullables, tuples and maps, nested in any way), [Append] of a value keeps the representation invariant, the class and
    the type of the column, and adds one row; [At] of the new row returns the value as it was stored, which is the value
    itself when the class represents it exactly (a [time_t] at midnight for a date, a string of the full length for a
    fixed string, ...); [At] of every older row returns what it returned before; and a value the class refuses is
    reported by an exception.  [At] of a row that does not exist throws. *)
Theorem typed_columns (D : Described) (HD : generated D) (c : column) (v : ValueType D) (Hw : wf_col c) (Ha : is_a D c = true)
    (Hf : weight (rows c) + vweight (stored D (ColumnType c) v) < 2 ^ 63) :
  (if allowed D (ColumnType c) v then
     exists c', AppendValue D v c = (Ok tt, c') /\ wf_col c' /\ is_a D c' = true /\ ColumnType c' = ColumnType c /\
       Size c' = Size c + 1 /\ At D c' (Size c) = Ok (loaded D (ColumnType c) (stored D (ColumnType c) v)) /\
       (exact D (ColumnType c) v -> At D c' (Size c) = Ok v) /\
       forall i, 0 <= i < Size c -> At D c' i = At D c i
   else exists e c', AppendValue D v c = (Throw e, c') /\ defined (A := unit) (Throw e)) /\
  forall i, Size c <= i -> i * stride D (ColumnType c) < 2 ^ 64 -> exists e, At D c i = Throw e /\ defined (A := unit) (Throw e).
Proof.
  pose proof (generated_lawful D HD) as L. rewrite (Size_rows c Hw). pose proof (weight_len (rows c)). pose proof (zlen_nonneg (rows c)).
  pose proof (vweight_pos (stored D (ColumnType c) v)). split; [|intros i; by apply (at_out D L)].
  destruct (allowed D (ColumnType c) v) eqn:Hal; [|by apply (append_refused D L)].
  destruct (append_ok D L c v Hw Ha Hal Hf) as (c' & E & Ha' & Hw' & Ht & Hr). exists c'.
  assert (weight (rows c') < 2 ^ 63) as Hf' by (rewrite Hr, weight_app, weight_cons; change (weight []) with 0; lia).
  assert (At D c' (zlen (rows c)) = Ok (loaded D (ColumnType c) (stored D (ColumnType c) v))) as Hat.
  { rewrite (at_ok D L c' _ (stored D (ColumnType c) v)), Ht by (done || lia || (rewrite Hr; apply lookup_snoc)). done. }
  split_and!; try done.
  - by rewrite (Size_rows c' Hw'), Hr, zlen_app.
  - intros Hx. rewrite Hat. f_equal. by apply (exact_ok D L).
  - intros i Hi. destruct (lookup_in_range (rows c) i Hi) as [r Hl].
    rewrite (at_ok D L c i r), (at_ok D L c' i r), Ht by (done || lia || (rewrite Hr, lookup_app_old by done; done)). done.
Qed.

Definition example_map : column :=
  ColumnMap (ColumnArray (ColumnTuple [ColumnString [str "a"; str "b"; str "c"];
    ColumnNullable (ColumnWrap WDate (TSimple Code.Date) (ColumnVector Code.UInt16 [3; 4; 5])) [0; 1; 0]] []) [2; 3]).

Lemma typed_columns_witness :
  let D := MapT StringC (NullableT DateC) in
  let v : ValueType D := [(str "x", (Some 172800, tt)); (str "y", (None, tt))] in
  exists c', AppendValue D v example_map = (Ok tt, c') /\ wf_col c' /\ is_a D c' = true /\ ColumnType c' = ColumnType example_map /\
    Size c' = 3 /\ At D c' 2 = Ok v.
Proof.
  intros D v.
  assert (generated D) as HD by (repeat constructor).
  assert (wf_col example_map) as Hw by (unfold example_map; wf_auto; discriminate).
  assert (weight (rows example_map) + vweight (stored D (ColumnType example_map) v) < 2 ^ 63) as Hf by (vm_compute; reflexivity).
  destruct (typed_columns D HD example_map v Hw eq_refl Hf) as [(c' & E & H1 & H2 & H3 & H4 & _ & H6 & _) _].
  exists c'. split_and!; try done. apply H6.
  change (Forall (exact (TupleT [StringC; NullableT DateC]) (TTuple [TSimple Code.String; TNullable (TSimple Code.Date)] [])) v).
  apply Forall_cons_2; [|apply Forall_cons_2; [|apply Forall_nil_2]]; cbn; split_and!; try done. exists 2. split; [done|]. unfold is_u. lia.
Defined.

(** C26. A value that the nested class refuses (a string too long for its fixed strings), for a class that holds its data
    itself and for nullables of such classes, nested in any way: [ColumnNullableT::Append] takes the null flag back, so
    the column is what it was before.  [ColumnArrayT::Append] takes nothing back: the items before the refused one stay in
    the data column without an offset, the column no longer satisfies its invariant when there are any, and the row that
    the next successful [Append] adds does not hold the values it was given but starts with the items left over. *)
Theorem refused_value (N : Described) (HN : takes_back N) (d : column) (x : ValueType N) (Hd : wf_col d) (Ha : is_a N d = true)
    (Hx : allowed N (ColumnType d) x = false) (Hs : Size d < 2 ^ 63) :
  exists e, defined (A := unit) (Throw e) /\
  (forall nulls, zlen nulls < 2 ^ 63 ->
    ColumnNullableT_Append N (Some x) (ColumnNullable d nulls) = (Throw e, ColumnNullable d nulls)) /\
  (forall os lost l2 m, wf_col (ColumnArray d os) -> forallb (allowed N (ColumnType d)) (lost ++ m) = true ->
    weight (rows (ColumnArray d os)) + weight (map (stored N (ColumnType d)) (lost ++ m)) < 2 ^ 63 ->
    exists c1 c2, ColumnArrayT_Append N (lost ++ x :: l2) (ColumnArray d os) = (Throw e, c1) /\
      (lost <> [] -> ~ wf_col c1) /\
      ColumnArrayT_Append N m c1 = (Ok tt, c2) /\ Size c2 = zlen os + 1 /\
      At (ArrayT N) c2 (zlen os) =
        Ok (map (fun v => loaded N (ColumnType d) (stored N (ColumnType d) v)) (ztake (zlen m) (lost ++ m)))).
Proof.
  pose proof (generated_lawful N (takes_back_generated N HN)) as L. destruct (takes_back_refuses N HN _ x Hx) as (e & He & Hdef).
  exists e. split; [done|]. split.
  - intros nulls Hl. apply nullable_throws; [done|done|]. by apply He.
  - intros os lost l2 m Hc Hal Hf. rewrite forallb_app in Hal. apply andb_prop in Hal as [Hal Hm].
    pose proof (weight_nonneg (map (stored N (ColumnType d)) m)).
    destruct (array_torn N L d os lost l2 x e Hc Ha Hal) as (d1 & E & Ha1 & Hw1 & Ht1 & Hr1); [rewrite map_app, weight_app in Hf; lia|done|].
    destruct (array_shifted N L d d1 os lost m Hc Ha1 Hw1 Ht1 Hr1 Hm Hf) as (c2 & E2 & Hs2 & Hat).
    exists (ColumnArray d1 os), c2. split_and!; try done. intros Hne (_ & _ & Hlast & _). destruct Hc as (_ & _ & Hlast' & _).
    rewrite Hlast', (Size_rows d Hd), (Size_rows d1 Hw1), Hr1, zlen_app, zlen_map in Hlast. apply zlen_pos in Hne. lia.
Qed.

(** A nullable of tuples takes only the flag back: [AppendTuple] appends the last element first, and it stays there when
    an element before it is refused. *)
Lemma refused_tuple_torn :
  let N := TupleT [FixedStringC; Vector Code.UInt8] in
  ColumnNullableT_Append N (Some (str "too long", (7, tt)))
    (ColumnNullable (ColumnTuple [ColumnFixedString 2 []; ColumnVector Code.UInt8 []] []) []) =
  (Throw ValidationError, ColumnNullable (ColumnTuple [ColumnFixedString 2 []; ColumnVector Code.UInt8 [7]] []) []).
Proof. vm_compute. reflexivity. Qed.

Lemma refused_value_witness :
  let c := ColumnArray (ColumnFixedString 2 []) [] in
  exists e, defined (A := unit) (Throw e) /\
  ColumnNullableT_Append FixedStringC (Some (str "too long")) (ColumnNullable (ColumnFixedString 2 []) []) =
    (Throw e, ColumnNullable (ColumnFixedString 2 []) []) /\
  exists c1 c2, ColumnArrayT_Append FixedStringC [str "ab"; str "too long"] c = (Throw e, c1) /\
    ([str "ab"] <> [] -> ~ wf_col c1) /\
    ColumnArrayT_Append FixedStringC [str "cd"] c1 = (Ok tt, c2) /\ Size c2 = 1 /\ At (ArrayT FixedStringC) c2 0 = Ok [str "ab"].
Proof.
  intros c.
  assert (wf_col (ColumnFixedString 2 [])) as Hd by wf_auto.
  assert (wf_col c) as Hc by (unfold c; wf_auto).
  assert (FixedStringC ∈ plain_classes Code.UInt8) as Hin by (apply list_elem_of_lookup; exists 3%nat; reflexivity).
  destruct (refused_value FixedStringC (takes_back_plain Code.UInt8 _ Hin) (ColumnFixedString 2 []) (str "too long") Hd eq_refl eq_refl)
    as (e & He & Hn & H); [vm_compute; reflexivity|]. exists e. split; [exact He|]. split; [apply (Hn []); reflexivity|].
  assert (weight (rows c) + weight (map (stored FixedStringC (TFixedString 2)) ([str "ab"] ++ [str "cd"])) < 2 ^ 63) as Hf by (vm_compute; reflexivity).
  exact (H [] [str "ab"] [] [str "cd"] Hc eq_refl Hf).
Defined.

(** C27. Lookups in a row of a map column: [At(key)] returns the value of the first entry with the key and throws a
    ValidationError when the row has none; [Count] is the number of entries with the key; [operator[]] agrees with [At]
    for a key that is there, and for one that is not it returns the value of whatever entry comes behind the row in the
    shared storage (the first entry of a later row), or throws what reading behind the storage throws. *)
Theorem map_lookup (K V : Described) (HK : generated K) (HV : generated V) (key_eqb : ValueType K -> ValueType K -> bool)
    (c : column) (i : Z) (key : ValueType K) (Hw : wf_col c) (Ha : is_a (MapT K V) c = true) (Hf : weight (rows c) < 2 ^ 63)
    (Hi : 0 <= i < Size c) :
  exists view l, ColumnMapT_At c i = Ok view /\ At (MapT K V) c i = Ok l /\
    MapValueView_Count K V key_eqb view key = Ok (entries_with K V key_eqb key l) /\
    match find_entry K V key_eqb key l with
    | Some (_, (_, (x, _))) => MapValueView_At K V key_eqb view key = Ok x /\ MapValueView_index K V key_eqb view key = Ok x
    | None =>
      MapValueView_At K V key_eqb view key = Throw ValidationError /\
      MapValueView_index K V key_eqb view key =
        (let! '(_, (x, _)) := At (TupleT [K; V]) (av_data view) (wrap 64 (av_offset view + zlen l)) in Ok x)
    end.
Proof.
  destruct (map_view K V (generated_lawful K HK) (generated_lawful V HV) c i Hw Ha Hf Hi) as (view & l & E1 & E2 & E3 & Hl & Hs).
  exists view, l. split; [done|]. split; [done|]. split.
  { unfold MapValueView_Count. rewrite E3. cbn [rbind]. rewrite count_ok by lia. done. }
  unfold view_items in E3.
  destruct (find_loop_ok K V key_eqb view key (Z.to_nat (av_size view)) 0 l ltac:(lia) ltac:(lia) E3) as [H1 H2].
  unfold MapValueView_At, MapValueView_index, MapValueView_Find. rewrite H1. cbn [rbind].
  destruct (find_entry K V key_eqb key l) as [[m [k [x []]]]|].
  - destruct (H2 m (k, (x, tt)) eq_refl) as [Hm Hd]. rewrite (proj2 (Z.eqb_neq _ _)) by lia. by rewrite Hd.
  - rewrite (proj2 (Z.eqb_eq _ _)) by lia. split; [done|]. unfold iterator_deref. by rewrite Hl, Z2Nat.id by lia.
Qed.

(** The row of [example_map] with the keys "a" and "b" does not have "c", and its [operator[]] finds the next row's. *)
Lemma map_lookup_witness :
  let K := StringC in let V := NullableT DateC in
  exists view l, ColumnMapT_At example_map 0 = Ok view /\ At (MapT K V) example_map 0 = Ok l /\
    MapValueView_Count K V bytes_eqb view (str "c") = Ok (entries_with K V bytes_eqb (str "c") l) /\
    MapValueView_At K V bytes_eqb view (str "c") = Throw ValidationError /\
    MapValueView_index K V bytes_eqb view (str "c") = Ok (Some (5 * 86400)).
Proof.
  intros K V.
  assert (wf_col example_map) as Hw by (unfold example_map; wf_auto; discriminate).
  assert (weight (rows example_map) < 2 ^ 63) as Hf by (vm_compute; reflexivity).
  assert (0 <= 0 < Size example_map) as Hi by (vm_compute; split; [discriminate|reflexivity]).
  destruct (map_lookup K V gen_string (gen_nullable _ gen_date) bytes_eqb example_map 0 (str "c") Hw eq_refl Hf Hi)
    as (view & l & E1 & E2 & E3 & H).
  exists view, l. split; [exact E1|]. split; [exact E2|]. split; [exact E3|].
  vm_compute in E1. injection E1 as <-. split; vm_compute; reflexivity.
Defined.
