(* ===== verification/Classes.v ===== *)
(** * The delegating column classes, one by one

    (date.cpp, time.cpp, bool.cpp, uuid.cpp, ip4.cpp, ip6.cpp, json.cpp, decimal.cpp, geo.cpp)

    The operations of Columns.v treat the classes that keep their rows in another column [data_] alike, as
    [ColumnWrap].  Each of these classes has code of its own, though: some slice by appending to a new column, some
    through a constructor that validates, some by swapping; some clone [data_], others start from the default
    constructor.  Here every class has its virtual methods as it writes them, and the theorem is that the operations of
    Columns.v and Swap.v are these methods on every well-formed column. *)

From S2P Require Import Prelude Streams WireFormat CityHash Text Types Columns ColumnRows ColumnOps Swap ColumnWire LowCardinality Factory Bignum Decimal Values Typed.

#[local] Set Warnings "-register-all".

(** ** Casts *)

(** [As<T>] to a delegating class, and [dynamic_cast<T&>]: the type and the [data_] of the object. *)
Definition cast (w : wrapper) (c : column) : option (type * column) :=
  match c with ColumnWrap w' ty d => if bool_decide (w' = w) then Some (ty, d) else None | _ => None end.

(** [As<ColumnVector<T>>], [As<ColumnString>], [As<ColumnFixedString>], [As<ColumnDecimal>] of a column of another class is
    null; using the null pointer is undefined. *)
Definition not_null (is_class : column -> bool) (c : column) : result column :=
  if is_class c then Ok c else Throw Undefined.

Definition is_decimal (c : column) : bool := match cast WDecimal c with Some _ => true | None => false end.

(** [static_pointer_cast<ColumnUInt8>(c)->GetWritableData()]. *)
Definition GetWritableData (c : column) : result (list Z) :=
  match c with ColumnVector _ data => Ok data | _ => Throw Undefined end.

(** [GetPrecision()], [GetScale()] of the columns that have them: read off the type. *)
Definition precision_of (ty : type) : Z := match ty with TDecimal p _ | TDateTime64 p _ | TTime64 p => p | _ => 0 end.
Definition scale_of (ty : type) : Z := match ty with TDecimal _ s => s | _ => 0 end.

(** ** Constructors *)

Definition ColumnBool_new (data : list Z) : column := ColumnWrap WBool (TSimple Code.Bool) (ColumnVector Code.UInt8 data).

Definition ColumnDate_new : column := ColumnWrap WDate (TSimple Code.Date) (empty_vector Code.UInt16).

Definition ColumnDate32_new : column := ColumnWrap WDate32 (TSimple Code.Date32) (empty_vector Code.Int32).

(** [ColumnDateTime64(TypeRef, shared_ptr<ColumnDecimal>)]: reads the precision off a [DateTime64Type]. *)
Definition ColumnDateTime64_of (ty : type) (data : column) : result column :=
  match ty with TDateTime64 _ _ => Ok (ColumnWrap WDateTime64 ty data) | _ => Throw Undefined end.

Definition ColumnTime_of (ty : type) (data : column) : column := ColumnWrap WTime ty data.

Definition ColumnTime64_of (ty : type) (data : column) : result column :=
  match ty with TTime64 _ => Ok (ColumnWrap WTime64 ty data) | _ => Throw Undefined end.

Definition ColumnDecimal_of (ty : type) (data : column) : column := ColumnWrap WDecimal ty data.

Definition ColumnUUID_new : column := ColumnWrap WUUID (TSimple Code.UUID) (empty_vector Code.UInt64).

(** [ColumnUUID(ColumnRef)]: the cast is not checked, the number of entries is. *)
Definition ColumnUUID_of (data : column) : result column :=
  let! d := not_null (is_vector Code.UInt64) data in
  if negb (Size d mod 2 =? 0) then Throw ValidationError else Ok (ColumnWrap WUUID (TSimple Code.UUID) d).

Definition ColumnIPv4_of (data : column) : result column :=
  if is_vector Code.UInt32 data then Ok (ColumnWrap WIPv4 (TSimple Code.IPv4) data) else Throw ValidationError.

Definition ColumnIPv6_of (data : column) : result column :=
  match data with
  | ColumnFixedString n _ => if n =? 16 then Ok (ColumnWrap WIPv6 (TSimple Code.IPv6) data) else Throw ValidationError
  | _ => Throw ValidationError
  end.

Definition ColumnJSON_new : column := ColumnWrap WJSON (TSimple Code.JSON) (ColumnString []).

(** [ColumnGeo<NestedColumnType, type_code>(ColumnRef)]: [WrapColumn<NestedColumnType>] throws. *)
Definition ColumnGeo_of (N : Described) (w : wrapper) (code : Code.t) (data : column) : result column :=
  if is_a N data then Ok (ColumnWrap w (TSimple code) data) else Throw ValidationError.

Section Classes.
Context (std_hash : bytes -> Z) {I Out : Type} `{InputStream I} `{OutputStream Out}.

(** ** The virtual methods of a class

    As functions of the column in [data_] (called [d]); a method that changes the object gives the [data_] it leaves. *)
Record methods := Methods {
  m_Append : column -> column -> result unit * column;                  (** the appended column, then [data_] *)
  m_LoadPrefix : Z -> M I bool;
  m_LoadBody : column -> Z -> M I (bool * column);
  m_SavePrefix : M Out unit;
  m_SaveBody : column -> M Out unit;
  m_Clear : column -> result column;
  m_Size : column -> Z;
  m_Slice : column -> Z -> Z -> result column;                          (** the new column *)
  m_CloneEmpty : column -> result column;                               (** the new column *)
  m_Swap : column -> column -> result unit * (column * column);         (** [data_] and the other column afterwards *)
  m_GetItem : column -> Z -> result ItemView;
}.

(** [Column::LoadPrefix] and [Column::SavePrefix]. *)
Definition Column_LoadPrefix (_ : Z) : M I bool := ret true.
Definition Column_SavePrefix : M Out unit := ret tt.

(** [if (auto col = column->As<T>()) data_->Append(col->data_)]. *)
Definition append_data (w : wrapper) (src d : column) : result unit * column :=
  match cast w src with Some (_, d') => Append std_hash d' d | None => (Ok tt, d) end.

(** [auto& col = dynamic_cast<T&>(other); data_.swap(col.data_)], after [check] of the other type. *)
Definition swap_data (w : wrapper) (check : type -> result unit) (d other : column) : result unit * (column * column) :=
  match cast w other with
  | None => (Throw BadCast, (d, other))
  | Some (ty', d') =>
    match check ty' with
    | Throw e => (Throw e, (d, other))
    | Ok _ => (Ok tt, (d', ColumnWrap w ty' d))
    end
  end.

Definition no_check (_ : type) : result unit := Ok tt.

(** [ItemView{code, data_->GetItem(index)}]. *)
Definition view_as (code : Code.t) (d : column) (index : Z) : result ItemView :=
  let! v := GetItem d index in ItemView_new code (snd v).

(** [auto col = data_->Slice(begin, len)->As<ColumnVector<T>>(); result->data_->Append(col)] for a new [result]. *)
Definition slice_into (code : Code.t) (result : column) (d : column) (begin len : Z) : Prelude.result column :=
  let! s := Slice std_hash d begin len in
  let! col := not_null (is_vector code) s in
  match result with
  | ColumnWrap w ty rd =>
    match Append std_hash col rd with
    | (Ok _, rd) => Ok (ColumnWrap w ty rd)
    | (Throw e, _) => Throw e
    end
  | _ => Throw Undefined
  end.

(** *** Dates *)

Definition ColumnDate_methods : methods := {|
  m_Append := append_data WDate;
  m_LoadPrefix := Column_LoadPrefix;
  m_LoadBody := LoadBody std_hash;
  m_SavePrefix := Column_SavePrefix;
  m_SaveBody := SaveBody;
  m_Clear := Clear std_hash;
  m_Size := Size;
  m_Slice := slice_into Code.UInt16 ColumnDate_new;
  m_CloneEmpty := fun _ => Ok ColumnDate_new;
  m_Swap := swap_data WDate no_check;
  m_GetItem := view_as Code.Date;
|}.

Definition ColumnDate32_methods (type_ : type) : methods := {|
  m_Append := append_data WDate32;
  m_LoadPrefix := Column_LoadPrefix;
  m_LoadBody := LoadBody std_hash;
  m_SavePrefix := Column_SavePrefix;
  m_SaveBody := SaveBody;
  m_Clear := Clear std_hash;
  m_Size := Size;
  m_Slice := slice_into Code.Int32 ColumnDate32_new;
  m_CloneEmpty := fun _ => Ok ColumnDate32_new;
  m_Swap := swap_data WDate32 no_check;
  m_GetItem := view_as (GetCode type_);
|}.

(** A new column has the time zone of this one, [Timezone()]. *)
Definition ColumnDateTime_methods (type_ : type) : methods := {|
  m_Append := append_data WDateTime;
  m_LoadPrefix := Column_LoadPrefix;
  m_LoadBody := LoadBody std_hash;
  m_SavePrefix := Column_SavePrefix;
  m_SaveBody := SaveBody;
  m_Clear := Clear std_hash;
  m_Size := Size;
  m_Slice := fun d begin len =>
    let! tz := Timezone (ColumnWrap WDateTime type_ d) in slice_into Code.UInt32 (ColumnDateTime_new tz) d begin len;
  m_CloneEmpty := fun d => let! tz := Timezone (ColumnWrap WDateTime type_ d) in Ok (ColumnDateTime_new tz);
  m_Swap := swap_data WDateTime no_check;
  m_GetItem := view_as Code.DateTime;
|}.

Definition ColumnDateTime64_methods (type_ : type) : methods := {|
  m_Append := append_data WDateTime64;
  m_LoadPrefix := Column_LoadPrefix;
  m_LoadBody := LoadBody std_hash;
  m_SavePrefix := Column_SavePrefix;
  m_SaveBody := SaveBody;
  m_Clear := Clear std_hash;
  m_Size := Size;
  m_Slice := fun d begin len =>
    let! s := Slice std_hash d begin len in let! s := not_null is_decimal s in ColumnDateTime64_of type_ s;
  m_CloneEmpty := fun d => let! e := CloneEmpty std_hash d in let! e := not_null is_decimal e in ColumnDateTime64_of type_ e;
  m_Swap := swap_data WDateTime64 (fun ty => if negb (precision_of ty =? precision_of type_) then Throw ValidationError else Ok tt);
  m_GetItem := view_as Code.DateTime64;
|}.

(** *** Times *)

Definition ColumnTime_methods (type_ : type) : methods := {|
  m_Append := append_data WTime;
  m_LoadPrefix := Column_LoadPrefix;
  m_LoadBody := LoadBody std_hash;
  m_SavePrefix := Column_SavePrefix;
  m_SaveBody := SaveBody;
  m_Clear := Clear std_hash;
  m_Size := Size;
  m_Slice := fun d begin len =>
    let! s := Slice std_hash d begin len in let! s := not_null (is_vector Code.Int32) s in Ok (ColumnTime_of type_ s);
  m_CloneEmpty := fun d =>
    let! e := CloneEmpty std_hash d in let! e := not_null (is_vector Code.Int32) e in Ok (ColumnTime_of type_ e);
  m_Swap := swap_data WTime no_check;
  m_GetItem := view_as Code.Time;
|}.

Definition ColumnTime64_methods (type_ : type) : methods := {|
  m_Append := append_data WTime64;
  m_LoadPrefix := Column_LoadPrefix;
  m_LoadBody := LoadBody std_hash;
  m_SavePrefix := Column_SavePrefix;
  m_SaveBody := SaveBody;
  m_Clear := Clear std_hash;
  m_Size := Size;
  m_Slice := fun d begin len =>
    let! s := Slice std_hash d begin len in let! s := not_null (is_vector Code.Int64) s in ColumnTime64_of type_ s;
  m_CloneEmpty := fun d =>
    let! e := CloneEmpty std_hash d in let! e := not_null (is_vector Code.Int64) e in ColumnTime64_of type_ e;
  m_Swap := swap_data WTime64 (fun ty => if negb (precision_of ty =? precision_of type_) then Throw ValidationError else Ok tt);
  m_GetItem := view_as Code.Time64;
|}.

(** *** Bool

    [data_] is a [ColumnUInt8] and not a pointer to one: its vector is taken, inserted into, moved or swapped. *)

Definition ColumnBool_AppendColumn (src d : column) : result unit * column :=
  let insert (r : result (list Z)) :=
    match r, GetWritableData d with
    | Ok s, Ok data => (Ok tt, ColumnVector Code.UInt8 (data ++ s))
    | Throw e, _ | _, Throw e => (Throw e, d)
    end in
  match cast WBool src with
  | Some (_, d') => insert (GetWritableData d')
  | None => if is_vector Code.UInt8 src then insert (GetWritableData src) else (Ok tt, d)
  end.

Definition ColumnBool_methods : methods := {|
  m_Append := ColumnBool_AppendColumn;
  m_LoadPrefix := Column_LoadPrefix;
  m_LoadBody := LoadBody std_hash;
  m_SavePrefix := Column_SavePrefix;
  m_SaveBody := SaveBody;
  m_Clear := Clear std_hash;
  m_Size := Size;
  m_Slice := fun d begin len =>
    let! s := Slice std_hash d begin len in let! data := GetWritableData s in Ok (ColumnBool_new data);
  m_CloneEmpty := fun _ => Ok (ColumnBool_new []);
  m_Swap := fun d other =>
    match cast WBool other with
    | None => (Throw BadCast, (d, other))
    | Some (ty', d') => let '(r, (d, d')) := Swap untyped untyped d d' in (r, (d, ColumnWrap WBool ty' d'))
    end;
  m_GetItem := fun d index => let! data := GetWritableData d in let! v := at_ data index in ItemView_new Code.Bool (le_bytes 1 v);
|}.

(** *** UUID: two numbers for each row *)

Definition ColumnUUID_methods : methods := {|
  m_Append := append_data WUUID;
  m_LoadPrefix := Column_LoadPrefix;
  m_LoadBody := fun d rows => LoadBody std_hash d (wrap 64 (rows * 2));
  m_SavePrefix := Column_SavePrefix;
  m_SaveBody := SaveBody;
  m_Clear := Clear std_hash;
  m_Size := fun d => Size d / 2;
  m_Slice := fun d begin len => let! s := Slice std_hash d (wrap 64 (begin * 2)) (wrap 64 (len * 2)) in ColumnUUID_of s;
  m_CloneEmpty := fun _ => Ok ColumnUUID_new;
  m_Swap := swap_data WUUID no_check;
  m_GetItem := fun d index =>
    let! data_item_view := GetItem d (wrap 64 (index * 2)) in
    let! view := memory_at d (wrap 64 (index * 2)) (zlen (snd data_item_view) * 2) in
    ItemView_new Code.UUID view;
|}.

(** *** Addresses *)

Definition ColumnIPv4_methods : methods := {|
  m_Append := append_data WIPv4;
  m_LoadPrefix := Column_LoadPrefix;
  m_LoadBody := LoadBody std_hash;
  m_SavePrefix := Column_SavePrefix;
  m_SaveBody := SaveBody;
  m_Clear := Clear std_hash;
  m_Size := Size;
  m_Slice := fun d begin len => let! s := Slice std_hash d begin len in ColumnIPv4_of s;
  m_CloneEmpty := fun d => let! e := CloneEmpty std_hash d in ColumnIPv4_of e;
  m_Swap := swap_data WIPv4 no_check;
  m_GetItem := view_as Code.IPv4;
|}.

Definition ColumnIPv6_methods : methods := {|
  m_Append := append_data WIPv6;
  m_LoadPrefix := Column_LoadPrefix;
  m_LoadBody := LoadBody std_hash;
  m_SavePrefix := Column_SavePrefix;
  m_SaveBody := SaveBody;
  m_Clear := Clear std_hash;
  m_Size := Size;
  m_Slice := fun d begin len => let! s := Slice std_hash d begin len in ColumnIPv6_of s;
  m_CloneEmpty := fun d => let! e := CloneEmpty std_hash d in ColumnIPv6_of e;
  m_Swap := swap_data WIPv6 no_check;
  m_GetItem := view_as Code.IPv6;
|}.

(** *** JSON: the prefixes are its own, a slice is swapped into a new column *)

Definition ColumnJSON_Slice (d : column) (begin len : Z) : result column :=
  match ColumnJSON_new with
  | ColumnWrap w ty rd =>
    let! s := Slice std_hash d begin len in
    let! s := not_null is_string s in
    match Swap untyped untyped rd s with
    | (Ok _, (rd, _)) => Ok (ColumnWrap w ty rd)
    | (Throw e, _) => Throw e
    end
  | _ => Throw Undefined
  end.

Definition ColumnJSON_methods : methods := {|
  m_Append := append_data WJSON;
  m_LoadPrefix := fun _ =>
    let* '(ok, v) := ReadFixed 8 0 in
    if negb ok then ret false
    else if negb (v =? JSONSerializationVersion_String) then throw ProtocolError
    else ret true;
  m_LoadBody := LoadBody std_hash;
  m_SavePrefix := WriteFixed 8 JSONSerializationVersion_String;
  m_SaveBody := SaveBody;
  m_Clear := Clear std_hash;
  m_Size := Size;
  m_Slice := ColumnJSON_Slice;
  m_CloneEmpty := fun _ => Ok ColumnJSON_new;
  m_Swap := swap_data WJSON no_check;
  m_GetItem := view_as Code.JSON;
|}.

(** *** Decimal *)

Definition ColumnDecimal_methods (type_ : type) : methods := {|
  m_Append := append_data WDecimal;
  m_LoadPrefix := Column_LoadPrefix;
  m_LoadBody := LoadBody std_hash;
  m_SavePrefix := Column_SavePrefix;
  m_SaveBody := SaveBody;
  m_Clear := Clear std_hash;
  m_Size := Size;
  m_Slice := fun d begin len => let! s := Slice std_hash d begin len in Ok (ColumnDecimal_of type_ s);
  m_CloneEmpty := fun d => let! e := CloneEmpty std_hash d in Ok (ColumnDecimal_of type_ e);
  m_Swap := swap_data WDecimal (fun ty =>
    if negb (precision_of ty =? precision_of type_) then Throw ValidationError
    else if negb (scale_of ty =? scale_of type_) then Throw ValidationError
    else Ok tt);
  m_GetItem := view_as (GetCode type_);
|}.

(** *** Geo: one template; [fresh] is what the default constructor makes.  It has no [GetItem] of its own. *)

Definition ColumnGeo_methods (N : Described) (w : wrapper) (code : Code.t) (fresh : column) : methods := {|
  m_Append := append_data w;
  m_LoadPrefix := Column_LoadPrefix;
  m_LoadBody := LoadBody std_hash;
  m_SavePrefix := Column_SavePrefix;
  m_SaveBody := SaveBody;
  m_Clear := Clear std_hash;
  m_Size := Size;
  m_Slice := fun d begin len => let! s := Slice std_hash d begin len in ColumnGeo_of N w code s;
  m_CloneEmpty := fun _ => Ok fresh;
  m_Swap := swap_data w no_check;
  m_GetItem := fun _ _ => Throw UnimplementedError;
|}.

(** ** The class of an object *)

Definition methods_of (w : wrapper) (type_ : type) : methods :=
  match w with
  | WBool => ColumnBool_methods
  | WDate => ColumnDate_methods
  | WDate32 => ColumnDate32_methods type_
  | WDateTime => ColumnDateTime_methods type_
  | WDateTime64 => ColumnDateTime64_methods type_
  | WTime => ColumnTime_methods type_
  | WTime64 => ColumnTime64_methods type_
  | WDecimal => ColumnDecimal_methods type_
  | WIPv4 => ColumnIPv4_methods
  | WIPv6 => ColumnIPv6_methods
  | WUUID => ColumnUUID_methods
  | WJSON => ColumnJSON_methods
  | WPoint => ColumnGeo_methods (TupleT [Vector Code.Float64; Vector Code.Float64]) WPoint Code.Point ColumnPoint_new
  | WRing => ColumnGeo_methods (ArrayT PointC) WRing Code.Ring ColumnRing_new
  | WPolygon => ColumnGeo_methods (ArrayT RingC) WPolygon Code.Polygon ColumnPolygon_new
  | WMultiPolygon => ColumnGeo_methods (ArrayT PolygonC) WMultiPolygon Code.MultiPolygon ColumnMultiPolygon_new
  end.

(** The operations of Columns.v and Swap.v on the object are the methods [m]. *)
Record agrees (w : wrapper) (ty : type) (d : column) (m : methods) : Prop := Agrees {
  agree_Append : forall src, wf_col src ->
    Append std_hash src (ColumnWrap w ty d) = let '(r, d) := m_Append m src d in (r, ColumnWrap w ty d);
  agree_LoadPrefix : forall rows s,
    LoadPrefix (ColumnWrap w ty d) rows s = (let* ok := m_LoadPrefix m rows in ret (ok, ColumnWrap w ty d)) s;
  agree_LoadBody : forall rows s,
    LoadBody std_hash (ColumnWrap w ty d) rows s = (let* '(ok, d) := m_LoadBody m d rows in ret (ok, ColumnWrap w ty d)) s;
  agree_SavePrefix : forall s, SavePrefix (ColumnWrap w ty d) s = m_SavePrefix m s;
  agree_SaveBody : forall s, SaveBody (ColumnWrap w ty d) s = m_SaveBody m d s;
  agree_Clear : Clear std_hash (ColumnWrap w ty d) = let! d := m_Clear m d in Ok (ColumnWrap w ty d);
  agree_Size : Size (ColumnWrap w ty d) = m_Size m d;
  agree_Slice : forall begin len, Slice std_hash (ColumnWrap w ty d) begin len = m_Slice m d begin len;
  agree_CloneEmpty : CloneEmpty std_hash (ColumnWrap w ty d) = m_CloneEmpty m d;
  agree_Swap : forall k' other, wf_col other ->
    Swap untyped k' (ColumnWrap w ty d) other = let '(r, (d, other)) := m_Swap m d other in (r, (ColumnWrap w ty d, other));
  agree_GetItem : forall index, GetItem (ColumnWrap w ty d) index = m_GetItem m d index;
}.
End Classes.

(** ** Proofs *)

(** What a well-formed column of a delegating class holds. *)
Definition holds (w : wrapper) (d : column) : Prop :=
  match w with
  | WBool => exists l, d = ColumnVector Code.UInt8 l
  | WDate => exists l, d = ColumnVector Code.UInt16 l
  | WDate32 | WTime => exists l, d = ColumnVector Code.Int32 l
  | WDateTime | WIPv4 => exists l, d = ColumnVector Code.UInt32 l
  | WTime64 => exists l, d = ColumnVector Code.Int64 l
  | WDateTime64 => exists p l, d = ColumnWrap WDecimal (TDecimal 18 p) (ColumnVector Code.Int64 l)
  | WDecimal => exists code l, d = ColumnVector code l /\ vector_code code = true
  | WIPv6 => exists l, d = ColumnFixedString 16 l
  | WUUID => exists l, d = ColumnVector Code.UInt64 l
  | WJSON => exists l, d = ColumnString l
  | WPoint => exists l k, d = ColumnTuple [ColumnVector Code.Float64 l; ColumnVector Code.Float64 k] []
  | WRing => exists p os, d = ColumnArray (ColumnWrap WPoint (TSimple Code.Point) p) os
  | WPolygon => exists p os, d = ColumnArray (ColumnWrap WRing (TSimple Code.Ring) p) os
  | WMultiPolygon => exists p os, d = ColumnArray (ColumnWrap WPolygon (TSimple Code.Polygon) p) os
  end.

(** A well-formed column of a type of one word is of the class the word names. *)
Ltac open_shape c Hw :=
  let Hs := fresh "Hs" in
  pose proof (shape_of_type c Hw) as Hs;
  match goal with Ht : _ = ColumnType c |- _ => rewrite <- Ht in Hs | Ht : ColumnType c = _ |- _ => rewrite Ht in Hs end;
  cbn in Hs.

Lemma wf_holds (w : wrapper) (ty : type) (d : column) : wf_col (ColumnWrap w ty d) -> holds w d.
Proof.
  intros (Ht & Hw & _). destruct w, ty as [[]| | | | | | | | | | |]; try done; injection Ht as Ht; cbn [holds];
    try (open_shape d Hw; done).
  - pose proof (shape_of_type d Hw) as Hs. rewrite <- Ht in Hs. destruct Hs as [e ->]. destruct Hw as (He & Hwe & _).
    injection He as He. open_shape e Hwe. destruct Hs as [l ->]. by eexists _, l.
  - pose proof (shape_of_type d Hw) as Hs. rewrite <- Ht in Hs.
    destruct (_ <=? 9); [|destruct (_ <=? 18)]; cbn in Hs; destruct Hs as [l ->]; by eexists _, l.
  - open_shape d Hw. destruct Hs as ([|a [|b [|? ?]]] & -> & Hts); try done. destruct Hw as ((Ha & Hb & _) & _). injection Hts as Hta Htb.
    pose proof (shape_of_type a Ha) as Hsa. rewrite Hta in Hsa. destruct Hsa as [l ->].
    pose proof (shape_of_type b Hb) as Hsb. rewrite Htb in Hsb. destruct Hsb as [k ->]. by exists l, k.
  - open_shape d Hw. destruct Hs as (e & os & -> & Hte). destruct Hw as (He & _). open_shape e He. destruct Hs as [p ->]. by exists p, os.
  - open_shape d Hw. destruct Hs as (e & os & -> & Hte). destruct Hw as (He & _). open_shape e He. destruct Hs as [p ->]. by exists p, os.
  - open_shape d Hw. destruct Hs as (e & os & -> & Hte). destruct Hw as (He & _). open_shape e He. destruct Hs as [p ->]. by exists p, os.
Qed.

Section Agreement.
Context (std_hash : bytes -> Z).

(** The slices of a column are of the class [N]. *)
Definition slices_are (N : Described) (c : column) : Prop :=
  forall begin len c', Slice std_hash c begin len = Ok c' -> is_a N c' = true.

Lemma slices_array (N : Described) (e : column) (os : list Z) : slices_are N e -> slices_are (ArrayT N) (ColumnArray e os).
Proof.
  intros He begin len c'. cbn [Slice]. unfold ColumnArray_Slice, ColumnArray_new.
  destruct (_ && _); [done|]. destruct (GetOffset os begin) as [o1|]; [|done]. destruct (GetOffset os _) as [o2|]; [|done]. cbn [rbind].
  destruct (Slice std_hash e _ _) as [s|] eqn:Es; [|done]. cbn [rbind]. destruct (slice_offsets _ _ _ _) as [os'|]; [|done]. cbn [rbind].
  destruct (negb _); [done|]. destruct (negb _); [done|]. intros [= <-]. by apply He in Es.
Qed.

Lemma slices_geo (w : wrapper) (N : Described) (ty : type) (d : column) : w <> WUUID -> slices_are N d -> slices_are (GeoC w N) (ColumnWrap w ty d).
Proof.
  intros Hu Hd begin len c' Hs.
  assert (exists d', Slice std_hash d begin len = Ok d' /\ c' = ColumnWrap w ty d') as (d' & Ed & ->).
  { destruct w; try done; cbn [Slice] in Hs; destruct (Slice std_hash d begin len) as [d'|]; try done; injection Hs as <-; by exists d'. }
  cbn. rewrite bool_decide_true by done. by apply Hd in Ed.
Qed.

Lemma geo_point (ty : type) (d : column) : wf_col (ColumnWrap WPoint ty d) ->
  slices_are (TupleT [Vector Code.Float64; Vector Code.Float64]) d /\ CloneEmpty std_hash (ColumnWrap WPoint (TSimple Code.Point) d) = Ok ColumnPoint_new.
Proof.
  intros Hw. destruct (wf_holds _ _ _ Hw) as (l & k & ->). split; [|done].
  intros begin len c' [= <-]. done.
Qed.

(** The three classes over arrays of the one before. *)
Lemma geo_array (w w' : wrapper) (N : Described) (code : Code.t) (fresh p : column) (os : list Z) :
  w <> WUUID -> slices_are N p -> CloneEmpty std_hash (ColumnWrap w (TSimple code) p) = Ok fresh ->
  slices_are (ArrayT (GeoC w N)) (ColumnArray (ColumnWrap w (TSimple code) p) os) /\
  forall code', CloneEmpty std_hash (ColumnWrap w' (TSimple code') (ColumnArray (ColumnWrap w (TSimple code) p) os)) =
    Ok (ColumnWrap w' (TSimple code') (ColumnArray fresh [])).
Proof.
  intros Hu Hs Hc. split; [by apply slices_array, slices_geo|]. intros code'.
  cbn [CloneEmpty] in *. destruct (CloneEmpty std_hash p); [|done]. by injection Hc as <-.
Qed.

Lemma wf_inner (w w' : wrapper) (ty ty' : type) (p : column) (os : list Z) :
  wf_col (ColumnWrap w ty (ColumnArray (ColumnWrap w' ty' p) os)) -> wf_col (ColumnWrap w' ty' p).
Proof. by intros (_ & (Hd & _) & _). Qed.

Lemma geo_ring (ty : type) (d : column) : wf_col (ColumnWrap WRing ty d) ->
  slices_are (ArrayT PointC) d /\ CloneEmpty std_hash (ColumnWrap WRing (TSimple Code.Ring) d) = Ok ColumnRing_new.
Proof.
  intros Hw. destruct (wf_holds _ _ _ Hw) as (p & os & ->). apply wf_inner, geo_point in Hw as [Hs Hc].
  destruct (geo_array WPoint WRing _ _ _ p os ltac:(done) Hs Hc) as [Ha He]. split; [done|apply He].
Qed.

Lemma geo_polygon (ty : type) (d : column) : wf_col (ColumnWrap WPolygon ty d) ->
  slices_are (ArrayT RingC) d /\ CloneEmpty std_hash (ColumnWrap WPolygon (TSimple Code.Polygon) d) = Ok ColumnPolygon_new.
Proof.
  intros Hw. destruct (wf_holds _ _ _ Hw) as (p & os & ->). apply wf_inner, geo_ring in Hw as [Hs Hc].
  destruct (geo_array WRing WPolygon _ _ _ p os ltac:(done) Hs Hc) as [Ha He]. split; [done|apply He].
Qed.

Lemma geo_multipolygon (ty : type) (d : column) : wf_col (ColumnWrap WMultiPolygon ty d) ->
  slices_are (ArrayT PolygonC) d /\ CloneEmpty std_hash (ColumnWrap WMultiPolygon (TSimple Code.MultiPolygon) d) = Ok ColumnMultiPolygon_new.
Proof.
  intros Hw. destruct (wf_holds _ _ _ Hw) as (p & os & ->). apply wf_inner, geo_polygon in Hw as [Hs Hc].
  destruct (geo_array WPolygon WMultiPolygon _ _ _ p os ltac:(done) Hs Hc) as [Ha He]. split; [done|apply He].
Qed.

(** The methods the classes share, each on the generic operation. *)
Lemma agree_append (w : wrapper) (ty : type) (d src : column) : w <> WBool ->
  Append std_hash src (ColumnWrap w ty d) = let '(r, d) := append_data std_hash w src d in (r, ColumnWrap w ty d).
Proof.
  intros Hb. unfold Append, append_data. cbn [depth Append_]. unfold ColumnWrap_Append, cast.
  destruct src as [[]| | | | |w' ty' d'| | | | |]; try done; try (by destruct w).
  destruct (decide (w = w')) as [->|Hne]; [by rewrite !bool_decide_true|]. rewrite !bool_decide_false by (try done; congruence). done.
Qed.

Lemma agree_swap (w : wrapper) (ty : type) (d : column) (k' : classes) (other : column) (check : type -> result unit) :
  wf_col other -> (forall ty', is_Some (wrapped_type w ty') -> check ty' = swap_check w ty ty') ->
  Swap untyped k' (ColumnWrap w ty d) other = let '(r, (d, other)) := swap_data w check d other in (r, (ColumnWrap w ty d, other)).
Proof.
  intros Hw Hc. unfold swap_data, cast. destruct other as [| | | | |w' ty' d'| | | | |]; try done. cbn [Swap].
  destruct (decide (w = w')) as [->|Hne]; [|rewrite !bool_decide_false by (try done; congruence); done].
  rewrite !bool_decide_true by done. unfold ColumnWrap_Swap. rewrite Hc by (destruct Hw as (-> & _); by eexists). by destruct (swap_check w' ty ty').
Qed.

Lemma agree_bool_append (ty : type) (l : list Z) (src : column) : wf_col src ->
  Append std_hash src (ColumnWrap WBool ty (ColumnVector Code.UInt8 l)) =
  let '(r, d) := ColumnBool_AppendColumn src (ColumnVector Code.UInt8 l) in (r, ColumnWrap WBool ty d).
Proof.
  intros Hw. unfold Append, ColumnBool_AppendColumn. cbn [depth Append_]. unfold ColumnWrap_Append, cast.
  destruct src as [[]| | | | |w' ty' d'| | | | |]; try done.
  destruct (decide (WBool = w')) as [<-|Hne]; [|rewrite !bool_decide_false by (try done; congruence); done].
  destruct (wf_holds _ _ _ Hw) as [k ->]. done.
Qed.

Lemma agree_bool_swap (ty : type) (l : list Z) (k' : classes) (other : column) : wf_col other ->
  Swap untyped k' (ColumnWrap WBool ty (ColumnVector Code.UInt8 l)) other =
  let '(r, (d, other)) :=
    match cast WBool other with
    | None => (Throw BadCast, (ColumnVector Code.UInt8 l, other))
    | Some (ty', d') => let '(r, (d, d')) := Swap untyped untyped (ColumnVector Code.UInt8 l) d' in (r, (d, ColumnWrap WBool ty' d'))
    end in (r, (ColumnWrap WBool ty d, other)).
Proof.
  intros Hw. unfold cast. destruct other as [| | | | |w' ty' d'| | | | |]; try done.
  destruct (decide (WBool = w')) as [<-|Hne]; [|cbn [Swap]; rewrite !bool_decide_false by (try done; congruence); done].
  destruct (wf_holds _ _ _ Hw) as [k ->]. done.
Qed.

(** A geo column: the constructor does not throw on what [Slice] gives. *)
Lemma agree_geo_slice (w : wrapper) (N : Described) (code : Code.t) (d : column) : w <> WUUID -> slices_are N d ->
  forall begin len, Slice std_hash (ColumnWrap w (TSimple code) d) begin len = let! s := Slice std_hash d begin len in ColumnGeo_of N w code s.
Proof.
  intros Hu Hs begin len. unfold ColumnGeo_of. transitivity (let! s := Slice std_hash d begin len in Ok (ColumnWrap w (TSimple code) s)).
  - by destruct w.
  - destruct (Slice std_hash d begin len) as [s|] eqn:E; [|done]. cbn [rbind]. by rewrite (Hs _ _ _ E).
Qed.

Context {I Out : Type} `{InputStream I} `{OutputStream Out}.

Lemma agree_geo (w : wrapper) (N : Described) (code : Code.t) (fresh d : column) :
  match w with WPoint | WRing | WPolygon | WMultiPolygon => True | _ => False end ->
  slices_are N d -> CloneEmpty std_hash (ColumnWrap w (TSimple code) d) = Ok fresh ->
  agrees (I := I) (Out := Out) std_hash w (TSimple code) d (ColumnGeo_methods std_hash N w code fresh).
Proof.
  intros Hg Hs Hc. assert (w <> WUUID /\ w <> WBool) as [Hu Hb] by (by destruct w).
  split; try (by destruct w).
  - intros src _. by apply agree_append.
  - intros begin len. by apply agree_geo_slice.
  - intros k' other Ho. apply agree_swap; [done|]. by destruct w.
Qed.

(** The prefix of JSON. *)
Lemma json_prefix (c : column) (s : I) :
  ColumnJSON_LoadPrefix c s =
  (let* ok := (let* '(ok, v) := ReadFixed 8 0 in
               if negb ok then ret false
               else if negb (v =? JSONSerializationVersion_String) then throw ProtocolError
               else ret true) in ret (ok, c)) s.
Proof.
  unfold ColumnJSON_LoadPrefix, bind. destruct (ReadFixed 8 0 s) as [[[[] v]|e] s']; cbn [negb]; try done.
  by destruct (negb _).
Qed.
End Agreement.

(** The classes over a leaf column: most methods are the generic operation by definition. *)
Ltac agree_vector :=
  split; try done;
  try (intros ? _; by apply agree_append);
  try (intros k' other Ho; apply agree_swap; [done|];
       intros ty' [t Hty']; by destruct ty' as [[]| | | | | | | | | | |]).

(** ** Theorem *)

(** C28. One model for all the delegating classes: for every well-formed column of a class that keeps its rows in another
    column, the operation of the library model ([Append] of a column, [LoadPrefix], [LoadBody], [SavePrefix], [SaveBody],
    [Clear], [Size], [Slice], [CloneEmpty], [Swap], [GetItem]) is the method its class defines: the same result, the same
    exception, the same column afterwards and the same bytes read and written, whatever the arguments, out-of-range slices
    and columns of another class included.  In particular the null pointers a failed cast would give are never used. *)
Theorem class_methods_agree (std_hash : bytes -> Z) {I Out : Type} `{InputStream I} `{OutputStream Out} (w : wrapper) (ty : type)
    (d : column) (Hw : wf_col (ColumnWrap w ty d)) : agrees (I := I) (Out := Out) std_hash w ty d (methods_of std_hash w ty).
Proof.
  pose proof (wf_holds _ _ _ Hw) as Hd. pose proof Hw as (Ht & _).
  destruct w; cbn [methods_of]; destruct ty as [[]| | | | | | | | | | |]; try done; cbn [holds] in Hd.
  - destruct Hd as [l ->]. split; try done; [intros src; apply agree_bool_append|intros k' other; apply agree_bool_swap].
  - destruct Hd as [l ->]. agree_vector.
  - destruct Hd as [l ->]. agree_vector.
  - destruct Hd as [l ->]. agree_vector.
  - destruct Hd as (p & l & ->). agree_vector.
  - destruct Hd as [l ->]. agree_vector.
  - destruct Hd as [l ->]. agree_vector.
  - destruct Hd as (code & l & -> & _). agree_vector.
  - destruct Hd as [l ->]. agree_vector.
  - destruct Hd as [l ->]. agree_vector. intros begin len. cbn. unfold ColumnFixedString_Slice. by destruct (_ <? _).
  - destruct Hd as [l ->]. agree_vector. intros begin len. cbn [Slice m_Slice ColumnUUID_methods].
    unfold ColumnUUID_Slice. cbn [rbind]. unfold ColumnUUID_of. set (v := ColumnVector _ _).
    change (not_null (is_vector Code.UInt64) v) with (@Ok column v). cbn [rbind]. by destruct (Size v mod 2 =? 0).
  - destruct Hd as [l ->]. agree_vector. intros rows s. apply json_prefix.
  - apply agree_geo; [done|apply (geo_point std_hash (TSimple Code.Point))..]; done.
  - apply agree_geo; [done|apply (geo_ring std_hash (TSimple Code.Ring))..]; done.
  - apply agree_geo; [done|apply (geo_polygon std_hash (TSimple Code.Polygon))..]; done.
  - apply agree_geo; [done|apply (geo_multipolygon std_hash (TSimple Code.MultiPolygon))..]; done.
Qed.

(** Three points as one ring, and a date-time with a time zone. *)
Definition example_points : column :=
  ColumnTuple [ColumnVector Code.Float64 [1; 2; 3]; ColumnVector Code.Float64 [4; 5; 6]] [].
Definition example_ring_data : column := ColumnArray (ColumnWrap WPoint (TSimple Code.Point) example_points) [1; 3].

Lemma class_methods_agree_witness :
  Slice (fun _ => 0) (ColumnWrap WRing (TSimple Code.Ring) example_ring_data) 1 1 =
    Ok (ColumnWrap WRing (TSimple Code.Ring)
          (ColumnArray (ColumnWrap WPoint (TSimple Code.Point)
             (ColumnTuple [ColumnVector Code.Float64 [2; 3]; ColumnVector Code.Float64 [5; 6]] [])) [2])) /\
  CloneEmpty (fun _ => 0) (ColumnWrap WDateTime (TDateTime (str "UTC")) (ColumnVector Code.UInt32 [7])) =
    Ok (ColumnDateTime_new (str "UTC")).
Proof.
  assert (wf_col (ColumnWrap WRing (TSimple Code.Ring) example_ring_data)) as Hr by (unfold example_ring_data, example_points; wf_auto; done).
  assert (wf_col (ColumnWrap WDateTime (TDateTime (str "UTC")) (ColumnVector Code.UInt32 [7]))) as Ht by (wf_auto; done).
  pose proof (class_methods_agree (fun _ => 0) (I := ArrayInput) (Out := BufferOutput) WRing (TSimple Code.Ring) example_ring_data Hr) as Ar.
  pose proof (class_methods_agree (fun _ => 0) (I := ArrayInput) (Out := BufferOutput) WDateTime (TDateTime (str "UTC")) (ColumnVector Code.UInt32 [7]) Ht) as At'.
  split; [rewrite (agree_Slice _ _ _ _ _ Ar); vm_compute; reflexivity|rewrite (agree_CloneEmpty _ _ _ _ _ At'); vm_compute; reflexivity].
Defined.
