(* ===== verification/Dictionaries.v ===== *)
(** * Typed dictionary columns (columns/lowcardinality.h, columns/lowcardinalityadaptor.h)

    [ColumnLowCardinalityT], which appends and reads the values of the dictionary's class through items, and the
    deprecated adaptor that keeps a plain column and travels as a dictionary column. *)

From S2P Require Import Prelude Streams WireFormat CityHash Text Types TypeParser Columns ColumnRows ColumnOps Swap ColumnWire LowCardinality Factory Values Typed.

#[local] Set Warnings "-register-all".

(** ** Values as items *)

(** A class that can be the dictionary of a typed column: how [Append] makes an item of a value
    ([ItemView::ConvertToStorageValue]), and what an item of the dictionary is read as. *)
Record DictionaryClass := mkDictionaryClass {
  dictionary :> Described;
  to_item : Code.t -> ValueType dictionary -> result ItemView;
  of_item : ItemView -> ValueType dictionary;
}.

(** A number: its bytes. *)
Definition VectorD (code : Code.t) : DictionaryClass :=
  mkDictionaryClass (Vector code) (fun c v => ItemView_new c (le_bytes (sizeof code) (wrap (bits code) v)))
    (fun it => bits_value code (le_value (snd it))).

Definition StringD : DictionaryClass := mkDictionaryClass StringC (fun c s => ItemView_new c s) snd.

Definition FixedStringD : DictionaryClass := mkDictionaryClass FixedStringC (fun c s => ItemView_new c s) snd.

(** A [time_t], the value of the classes of dates: its eight bytes. *)
Definition time_item (c : Code.t) (v : Z) : result ItemView := ItemView_new c (le_bytes 8 (wrap 64 v)).

Definition DateD : DictionaryClass := mkDictionaryClass DateC time_item (fun it => le_value (snd it) * 86400).
Definition Date32D : DictionaryClass := mkDictionaryClass Date32C time_item (fun it => swrap 32 (le_value (snd it)) * 86400).
Definition DateTimeD : DictionaryClass := mkDictionaryClass DateTimeC time_item (fun it => le_value (snd it)).

(** A nullable dictionary: NULL is the item without a type. *)
Definition NullableD (N : DictionaryClass) : DictionaryClass :=
  mkDictionaryClass (NullableT N)
    (fun c v => match v with Some v => to_item N c v | None => ItemView_new Code.Void [] end)
    (fun it => if bool_decide (fst it = Code.Void) then None else Some (of_item N it)).

(** [item_type_code_], set by [Setup]. *)
Definition item_type_code (d : column) : Code.t :=
  match d with ColumnNullable nested _ => GetCode (ColumnType nested) | d => GetCode (ColumnType d) end.

(** ** ColumnLowCardinalityT *)
Section ColumnLowCardinalityT.
Context (std_hash : bytes -> Z) (D : DictionaryClass).

Definition ColumnLowCardinalityT_Append (value : ValueType D) : M lc unit :=
  fun l => match to_item D (item_type_code (lc_dict l)) value with
           | Ok item => AppendUnsafe std_hash item l
           | Throw e => (Throw e, l)
           end.

Fixpoint AppendMany (container : list (ValueType D)) : M lc unit :=
  match container with
  | [] => ret tt
  | item :: container => ColumnLowCardinalityT_Append item ;;; AppendMany container
  end.

Definition ColumnLowCardinalityT_At (l : lc) (n : Z) : result (ValueType D) :=
  let! di := at_ (lc_index l) n in
  At D (lc_dict l) di.

(** [Wrap]: the dictionary is of the class, or can be wrapped as it. *)
Definition ColumnLowCardinalityT_Wrap (c : column) : bool :=
  match c with ColumnLowCardinality d _ _ _ => is_a D d | _ => false end.
End ColumnLowCardinalityT.

(** ** LowCardinalitySerializationAdaptor

    A plain column that is saved and loaded as a dictionary column. *)
Section Adaptor.
Context (std_hash : bytes -> Z) (D : DictionaryClass).

(** [ColumnLowCardinalityT<AdaptedColumnType>(column)]: a dictionary column with the rows of [c]. *)
Definition adapted_dictionary (c : column) : result lc :=
  let! e := CloneEmpty std_hash c in
  LowCardinality_new std_hash e c.

(** The loop that appends the rows of the dictionary column. *)
Fixpoint append_values (l : lc) (i : Z) (n : nat) : M column unit :=
  match n with
  | O => ret tt
  | S n =>
    let* v := lift_result (ColumnLowCardinalityT_At D l i) in
    AppendValue D v ;;;
    append_values l (i + 1) n
  end.

Context {I : Type} `{InputStream I}.

Definition Adaptor_LoadPrefix (c : column) (rows : Z) : M I (bool * column) :=
  let* new_data_column := lift_result (Slice std_hash c 0 0) in
  let* l := lift_result (adapted_dictionary new_data_column) in
  let* '(ok, _) := LoadPrefix (lc_column l) rows in
  ret (ok, c).

(** The adaptors derive from [ColumnString], [ColumnFixedString] and [ColumnNullable]: no template instance of [Swap]. *)
Definition Adaptor_LoadBody (c : column) (rows : Z) : M I (bool * column) :=
  let* new_data_column := lift_result (CloneEmpty std_hash c) in
  let* l := lift_result (adapted_dictionary new_data_column) in
  let* '(ok, loaded) := LoadBody std_hash (lc_column l) rows in
  if negb ok then ret (false, c)
  else match loaded with
       | ColumnLowCardinality d code index u =>
         match append_values (mkLC d code index u) 0 (Z.to_nat (zlen index)) new_data_column with
         | (Throw e, _) => throw e
         | (Ok _, new_data_column) =>
           match Swap untyped untyped c new_data_column with
           | (Ok _, (c, _)) => ret (true, c)
           | (Throw e, _) => throw e
           end
         end
       | _ => throw Undefined
       end.

(** [Column::Load]. *)
Definition Adaptor_Load (c : column) (rows : Z) : M I (bool * column) :=
  let* '(ok, c) := Adaptor_LoadPrefix c rows in
  if ok then Adaptor_LoadBody c rows else ret (false, c).

Context {Out : Type} `{OutputStream Out}.

Definition Adaptor_SaveBody (c : column) : M Out unit :=
  let* l := lift_result (adapted_dictionary c) in
  SaveBody (lc_column l).

(** [Column::Save]; [SavePrefix] is that of the adapted class. *)
Definition Adaptor_Save (c : column) : M Out unit := SavePrefix c ;;; Adaptor_SaveBody c.
End Adaptor.

(** The column the factory makes with the setting [low_cardinality_as_wrapped_column]. *)
Definition CreateAdaptedColumn (nested : TypeAst) : result column :=
  match ast_code nested with
  | Code.String => Ok (ColumnString [])
  | Code.FixedString => let! n := child_size_t nested 0 in Ok (ColumnFixedString n [])
  | _ => Throw UnimplementedError
  end.

(** ** Proofs: values and items *)

(** What the wrapper relies on: [At] of the dictionary reads its items, a value the class represents exactly becomes an item
    the dictionary accepts and that is read as the value, and appending an item keeps the class. *)
Record DictionaryLaws (D : DictionaryClass) : Prop := mkDictionaryLaws {
  dict_at : forall d j it, wf_col d -> dict_ok d -> is_a D d = true -> GetItem d j = Ok it -> At D d j = Ok (of_item D it);
  dict_value : forall d v it, wf_col d -> dict_ok d -> is_a D d = true -> exact D (ColumnType d) v ->
    to_item D (item_type_code d) v = Ok it -> zlen (snd it) < 2 ^ 64 -> accepts d it /\ of_item D it = v;
  dict_grows : forall d d' it, is_a D d = true -> AppendToDictionary d it = Ok d' -> is_a D d' = true;
}.

(** The classes of numbers and strings, which also can be nullable. *)
Inductive plain_class : DictionaryClass -> Prop :=
| plain_vector (code : Code.t) : plain_class (VectorD code)
| plain_string : plain_class StringD
| plain_fixed : plain_class FixedStringD.

Inductive dictionary_class : DictionaryClass -> Prop :=
| class_plain (N : DictionaryClass) : plain_class N -> dictionary_class N
| class_nullable (N : DictionaryClass) : plain_class N -> dictionary_class (NullableD N).

Lemma ItemView_new_inv (c : Code.t) (b : bytes) (it : ItemView) : ItemView_new c b = Ok it -> it = (c, b).
Proof. unfold ItemView_new. destruct (ValidateData c b); [|done]. by intros [= <-]. Qed.

Lemma index_at {A} (l : list A) (j : Z) (x : A) : index_ l j = Ok x -> at_ l j = Ok x.
Proof. unfold index_, at_. destruct (j <? 0); [done|]. by destruct (l !! Z.to_nat j). Qed.

Lemma vector_laws (code : Code.t) : DictionaryLaws (VectorD code).
Proof.
  assert (forall d, is_a (VectorD code) d = true -> exists data, d = ColumnVector code data /\ vector_code code = true) as Hshape.
  { intros d Ha. destruct d as [code' data| | | | | | | | | |]; try done. cbn in Ha. apply andb_prop in Ha as [Hb Hc]. apply bool_decide_eq_true in Hb as ->. by exists data. }
  split.
  - intros d j it Hw _ Ha Hg. destruct (Hshape d Ha) as (data & -> & Hc). destruct Hw as [_ Hf]. cbn [GetItem] in Hg.
    destruct (index_ data j) as [v|] eqn:Ev; [|done]. cbn [rbind] in Hg. apply ItemView_new_inv in Hg as ->.
    change (ColumnVector_At (ColumnVector code data) j = Ok (bits_value code (le_value (le_bytes (sizeof code) v)))).
    cbn [ColumnVector_At]. pose proof (index_at _ _ _ Ev) as ->. cbn [rbind]. rewrite le_value_bytes, Z.mod_small; [done|].
    unfold index_ in Ev. destruct (j <? 0); [done|]. destruct (data !! Z.to_nat j) as [y|] eqn:El; [|done]. injection Ev as ->.
    rewrite Forall_lookup in Hf. exact (Hf _ _ El).
  - intros d v it _ _ Ha Hx Hi _. destruct (Hshape d Ha) as (data & -> & Hc).
    assert (item_type_code (ColumnVector code data) = code) as Hcode by (by destruct code). rewrite Hcode in Hi.
    apply ItemView_new_inv in Hi as ->. split.
    + split; [done|]. cbn [snd]. unfold zlen. by rewrite length_le_bytes.
    + change (bits_value code (le_value (le_bytes (sizeof code) (wrap (bits code) v))) = v).
      rewrite le_value_bytes, Z.mod_small by (apply fits_wrap). by apply bits_value_wrap.
  - intros d d' it Ha Hd. destruct (Hshape d Ha) as (data & -> & Hc). cbn [AppendToDictionary] in Hd.
    destruct (item_get (sizeof code) it); [|done]. injection Hd as <-. cbn. by rewrite bool_decide_true.
Qed.

Lemma string_laws : DictionaryLaws StringD.
Proof.
  split.
  - intros d j it _ _ Ha Hg. destruct d; try done. cbn [GetItem] in Hg. destruct (at_ items j) as [s|] eqn:E; [|done].
    apply ItemView_new_inv in Hg as ->. exact E.
  - intros d v it _ _ Ha _ Hi Hl. destruct d; try done. apply ItemView_new_inv in Hi as ->. by split.
  - intros d d' it Ha Hd. destruct d; try done. by injection Hd as <-.
Qed.

Lemma fixed_laws : DictionaryLaws FixedStringD.
Proof.
  split.
  - intros d j it _ _ Ha Hg. destruct d as [| | |n data| | | | | | |]; try done. cbn [GetItem] in Hg. destruct (FixedString_At n data j) as [s|] eqn:E; [|done].
    apply ItemView_new_inv in Hg as ->. exact E.
  - intros d v it _ _ Ha Hx Hi Hl. destruct d; try done. apply ItemView_new_inv in Hi as ->. by split.
  - intros d d' it Ha Hd. destruct d; try done. cbn [AppendToDictionary] in Hd. destruct (FixedString_Append _ _ _); [|done]. by injection Hd as <-.
Qed.

Lemma plain_laws (N : DictionaryClass) : plain_class N -> DictionaryLaws N.
Proof. intros []; [apply vector_laws|apply string_laws|apply fixed_laws]. Qed.

(** A plain class is not nullable, and its items have a type. *)
Lemma plain_dict (N : DictionaryClass) (d : column) : plain_class N -> is_a N d = true -> dict_item d = true ->
  dict_ok d /\ item_type_code d = GetCode (ColumnType d) /\ (forall it, accepts d it <-> fits_item d it).
Proof. intros HN Ha Hd. destruct d; done. Qed.

Lemma plain_item_code (N : DictionaryClass) (d : column) (j : Z) (it : ItemView) : plain_class N -> wf_col d -> is_a N d = true ->
  GetItem d j = Ok it -> fst it <> Code.Void.
Proof.
  intros HN Hw Ha Hg. destruct HN; destruct d as [code' data| |items|n data| | | | | | |]; try done; cbn [GetItem] in Hg.
  - destruct Hw as [Hc _]. destruct (index_ data j); [|done]. apply ItemView_new_inv in Hg as ->. by destruct code'.
  - destruct (at_ items j); [|done]. by apply ItemView_new_inv in Hg as ->.
  - destruct (FixedString_At n data j); [|done]. by apply ItemView_new_inv in Hg as ->.
Qed.

Lemma nullable_laws (N : DictionaryClass) : plain_class N -> DictionaryLaws (NullableD N).
Proof.
  intros HN. pose proof (plain_laws N HN) as L. split.
  - intros d j it Hw Hok Ha Hg. destruct d as [| | | | | | |nested nulls| | |]; try done. destruct Hw as (Hwn & _). destruct Hok as [Hdi _].
    cbn [GetItem] in Hg. unfold ColumnNullable_GetItem in Hg.
    change (ColumnNullableT_At N (ColumnNullable nested nulls) j = Ok (of_item (NullableD N) it)).
    unfold ColumnNullableT_At. cbn [IsNull]. destruct (at_ nulls j) as [b|]; [|done]. cbn [rbind] in *. destruct (b =? 0); cbn [negb].
    + rewrite (dict_at N L nested j it Hwn) by (done || by destruct nested). cbn [rbind of_item NullableD].
      by rewrite bool_decide_false by exact (plain_item_code N nested j it HN Hwn Ha Hg).
    + by injection Hg as <-.
  - intros d v it Hw Hok Ha Hx Hi Hl. destruct d as [| | | | | | |nested nulls| | |]; try done. destruct Hw as (Hwn & _). destruct Hok as [Hdi _].
    cbn [to_item NullableD of_item item_type_code] in *. destruct v as [v|].
    + destruct (plain_dict N nested HN Ha Hdi) as (Hd & Hc & Hacc). rewrite <- Hc in Hi.
      destruct (dict_value N L nested v it Hwn Hd Ha Hx Hi Hl) as [Hf Hv]. apply Hacc in Hf. split; [by right|].
      destruct (fits_item_code nested it Hwn Hdi Hf) as [Hne _]. by rewrite bool_decide_false, Hv.
    + injection Hi as <-. split; [by left|done].
  - intros d d' it Ha Hd. destruct d as [| | | | | | |nested nulls| | |]; try done. cbn [AppendToDictionary] in Hd.
    assert (forall z nulls', (let! n := AppendToDictionary nested z in Ok (ColumnNullable n nulls')) = Ok d' -> is_a (NullableD N) d' = true) as Hgen.
    { intros z nulls' E. destruct (AppendToDictionary nested z) as [n|] eqn:En; [|done]. injection E as <-. by apply (dict_grows N L nested n z). }
    case_bool_decide; [|case_bool_decide; [|done]]; [|by eapply Hgen]. destruct (GetNullItemForDictionary nested); [|done]. by eapply Hgen.
Qed.

Lemma dictionary_laws (D : DictionaryClass) : dictionary_class D -> DictionaryLaws D.
Proof. intros [N HN|N HN]; [by apply plain_laws|by apply nullable_laws]. Qed.

(** The dictionary after an append: as before, or with the item. *)
Lemma AppendUnsafe_dict (std_hash : bytes -> Z) (it : ItemView) (l l' : lc) : AppendUnsafe std_hash it l = (Ok tt, l') ->
  lc_code l' = lc_code l /\ (lc_dict l' = lc_dict l \/ AppendToDictionary (lc_dict l) it = Ok (lc_dict l')).
Proof.
  unfold AppendUnsafe. destruct (computeHashKey std_hash it) as [k|]; [|done]. destruct (emplace _ _ _ !! k) as [di|]; [|done].
  destruct (appendIndex _ _ _); [|done]. case_bool_decide; [|intros [= <-]; by split; [|left]].
  destruct (AppendToDictionary (lc_dict l) it) as [d|]; [|done]. intros [= <-]. by split; [|right].
Qed.

(** A row of a typed dictionary column is its item. *)
Lemma typed_row (D : DictionaryClass) (l : lc) (i : Z) (it : ItemView) : DictionaryLaws D -> wf_col (lc_column l) ->
  is_a D (lc_dict l) = true -> GetItem (lc_column l) i = Ok it -> ColumnLowCardinalityT_At D l i = Ok (of_item D it).
Proof.
  intros L Hw Ha Hg. rewrite GetItem_lc in Hg by done. unfold ColumnLowCardinalityT_At.
  destruct (at_ (lc_index l) i) as [di|]; [|done]. cbn [rbind] in *. destruct Hw as (Hwd & Hok & _). by apply (dict_at D L).
Qed.

(** Rows that exist have items. *)
Lemma row_item (l : lc) (i : Z) : wf_col (lc_column l) -> 0 <= i < zlen (lc_index l) -> exists it, GetItem (lc_column l) i = Ok it.
Proof.
  intros Hw Hi. rewrite GetItem_lc by done. destruct Hw as (Hwd & Hok & _ & Hidx & _).
  destruct (lookup_in_range (lc_index l) i Hi) as [di Hd]. unfold at_. rewrite (proj2 (Z.ltb_ge _ _)) by lia. rewrite Hd. cbn [rbind].
  rewrite Forall_lookup in Hidx. destruct (Hidx _ _ Hd) as [Hr _].
  destruct (dict_GetItem (lc_dict l) di Hwd Hok Hr) as (it & E & _). by exists it.
Qed.

(** ** Proofs: the adaptor *)
Section AdaptorProofs.
Context (std_hash : bytes -> Z).

(** Strings with different contents have different keys. *)
Definition keys_differ (l : list bytes) : Prop := forall s t, s ∈ l -> t ∈ l ->
  computeHashKey std_hash (Code.String, s) = computeHashKey std_hash (Code.String, t) -> s = t.

(** A dictionary column of strings from [all], as the constructor makes it. *)
Definition string_lc (all : list bytes) (l : lc) : Prop :=
  lc_inv std_hash l /\ lc_code l = Code.UInt32 /\ (exists ds, lc_dict l = ColumnString ds /\ Forall (fun s => s ∈ all) ds) /\
  Size (lc_dict l) <= zlen (lc_index l) + 1.

(** The rows of [l] from [i] on are the strings [ss]. *)
Definition rows_are (l : lc) (i : Z) (ss : list bytes) : Prop :=
  forall j s, 0 <= j -> ss !! Z.to_nat j = Some s -> GetItem (lc_column l) (i + j) = Ok (Code.String, s).

Lemma append_string (all : list bytes) (l : lc) (s : bytes) : string_lc all l -> s ∈ all -> keys_differ all -> zlen s < 2 ^ 31 ->
  zlen (lc_index l) < 2 ^ 32 - 4 ->
  exists l', AppendUnsafe std_hash (Code.String, s) l = (Ok tt, l') /\ string_lc all l' /\ zlen (lc_index l') = zlen (lc_index l) + 1 /\
    GetItem (lc_column l') (zlen (lc_index l)) = Ok (Code.String, s) /\
    forall i, 0 <= i < zlen (lc_index l) -> GetItem (lc_column l') i = GetItem (lc_column l) i.
Proof using Type.
  intros (Hinv & Hcode & (ds & Hd & Hall) & Hsz) Hs Hk Hlen Hidx. pose proof (zlen_nonneg s). pose proof (zlen_nonneg (lc_index l)).
  destruct (computeHashKey_ok std_hash (Code.String, s)) as [k Ek]; [cbn; lia|].
  destruct (AppendUnsafe_ok std_hash l (Code.String, s) k Hinv) as (l' & E & Hinv' & Hz & Hg & Hold).
  - rewrite Hd. split; [done|cbn; lia].
  - done.
  - intros j it Hj Hgj Hkj. rewrite Hd in Hgj. cbn [GetItem] in Hgj. unfold at_ in Hgj. destruct (j <? 0); [done|].
    destruct (ds !! Z.to_nat j) as [t|] eqn:Et; [|done]. injection Hgj as <-. rewrite Forall_lookup in Hall.
    f_equal. apply (Hk t s); [by eapply Hall|done|congruence].
  - unfold dict_room. cbn [snd]. rewrite Hd in *. nia.
  - rewrite Hcode. change (256 ^ Z.of_nat (sizeof Code.UInt32)) with (2 ^ 32). lia.
  - lia.
  - exists l'. split_and!; try done. split; [done|]. destruct (AppendUnsafe_dict std_hash _ _ _ E) as [Hc [Ed|Ed]].
    + split_and!; [congruence|exists ds; split; [congruence|done]|rewrite Ed, Hz; lia].
    + rewrite Hd in Ed, Hsz. injection Ed as Ed. cbn [Size] in Hsz. rewrite <- Ed, Hz. cbn [Size]. rewrite zlen_app. change (zlen [s]) with 1.
      split_and!; [congruence| |lia]. eexists. split; [done|]. apply Forall_app. by split; [|apply Forall_cons_2].
Qed.

(** The constructor's loop over the rows of a column of strings. *)
Lemma append_strings (items : list bytes) (n : nat) : forall i l, 0 <= i -> i + Z.of_nat n = zlen items -> string_lc ([] :: items) l ->
  keys_differ ([] :: items) -> Forall (fun s => zlen s < 2 ^ 31) items -> zlen (lc_index l) + Z.of_nat n < 2 ^ 32 - 4 ->
  exists l', AppendItems std_hash (ColumnString items) i n l = (Ok tt, l') /\ string_lc ([] :: items) l' /\
    zlen (lc_index l') = zlen (lc_index l) + Z.of_nat n /\ rows_are l' (zlen (lc_index l)) (drop (Z.to_nat i) items) /\
    forall j, 0 <= j < zlen (lc_index l) -> GetItem (lc_column l') j = GetItem (lc_column l) j.
Proof using Type.
  induction n as [|n IH]; intros i l Hi Hn Hl Hk Hlen Hz.
  - exists l. split_and!; [done|done|lia| |done]. intros j s Hj Hs. rewrite drop_ge in Hs by (unfold zlen in Hn; lia). done.
  - destruct (lookup_in_range items i ltac:(lia)) as [s Hs]. assert (s ∈ [] :: items) as Hin by (apply elem_of_cons; right; by eapply list_elem_of_lookup_2).
    pose proof (zlen_nonneg (lc_index l)).
    destruct (append_string ([] :: items) l s Hl Hin Hk) as (l1 & E1 & Hl1 & Hz1 & Hg1 & Hold1);
      [rewrite Forall_lookup in Hlen; by eapply Hlen|lia|].
    destruct (IH (i + 1) l1 ltac:(lia) ltac:(lia) Hl1 Hk Hlen ltac:(lia)) as (l' & E & Hl' & Hz' & Hrows & Hold).
    exists l'. split_and!; [|done|lia| |].
    + cbn [AppendItems GetItem]. unfold at_. rewrite (proj2 (Z.ltb_ge _ _)) by lia. rewrite Hs. cbn [rbind].
      unfold bind, lift_result. cbn. by rewrite E1.
    + intros j t Hj Ht. destruct (decide (j = 0)) as [-> | Hj0].
      * rewrite lookup_drop, Nat.add_0_r in Ht. rewrite Z.add_0_r, Hold by lia. rewrite Hg1. congruence.
      * replace (zlen (lc_index l) + j) with (zlen (lc_index l1) + (j - 1)) by lia. apply Hrows; [lia|].
        rewrite lookup_drop in Ht |- *. rewrite <- Ht. f_equal. lia.
    + intros j Hj. rewrite Hold by lia. by apply Hold1.
Qed.

(** The dictionary column of no rows. *)
Lemma adapted_empty : exists l, AppendDefaultItem std_hash (lc_empty (ColumnString [])) = Ok l /\ lc_inv std_hash l /\
  lc_dict l = ColumnString [[]] /\ lc_index l = [] /\ lc_code l = Code.UInt32.
Proof using Type.
  destruct (lc_new std_hash (ColumnString [])) as (d0 & l & Ec & El & Hi & Hidx & Hc & _); try done; [by constructor|].
  injection Ec as <-. exists l. unfold LowCardinality_new in El.
  change (AppendDefaultItem std_hash (lc_empty (ColumnString []))) with
    (Ok (mkLC (ColumnString [[]]) Code.UInt32 [] (emplace (std_hash [], 11160318154034397263) 0 ∅))) in El |- *.
  cbn [rbind] in El. injection El as El. by subst l.
Qed.

Lemma adapted_strings (items : list bytes) : keys_differ ([] :: items) -> Forall (fun s => zlen s < 2 ^ 31) items ->
  zlen items < 2 ^ 32 - 4 ->
  exists l, adapted_dictionary std_hash (ColumnString items) = Ok l /\ string_lc ([] :: items) l /\
    zlen (lc_index l) = zlen items /\ rows_are l 0 items.
Proof using Type.
  intros Hk Hlen Hn. destruct adapted_empty as (l0 & E0 & Hi & Hd & Hx & Hc). pose proof (zlen_nonneg items).
  destruct (append_strings items (Z.to_nat (zlen items)) 0 l0) as (l & E & Hl & Hz & Hr & _); try done; [lia| |rewrite Hx; change (zlen []) with 0; lia|].
  - split_and!; [done|done|exists [[]]; split; [done|]; by apply Forall_cons_2; [apply elem_of_cons; left|]|rewrite Hd, Hx; done].
  - exists l. unfold adapted_dictionary. cbn [CloneEmpty rbind]. unfold LowCardinality_new. rewrite E0. cbn [rbind Size]. unfold run_lc.
    rewrite E. rewrite Hx in Hz, Hr. change (zlen []) with 0 in Hz, Hr. split_and!; [done|done|lia|exact Hr].
Qed.

(** Flattening a dictionary column of strings. *)
Lemma append_values_ok (l : lc) (items : list bytes) (n : nat) : forall i acc, wf_col (lc_column l) -> is_a StringD (lc_dict l) = true ->
  0 <= i -> i + Z.of_nat n = zlen items -> rows_are l 0 items ->
  append_values StringD l i n (ColumnString acc) = (Ok tt, ColumnString (acc ++ drop (Z.to_nat i) items)).
Proof using Type.
  induction n as [|n IH]; intros i acc Hw Ha Hi Hn Hr.
  - rewrite drop_ge, app_nil_r by (unfold zlen in Hn; lia). done.
  - destruct (lookup_in_range items i ltac:(lia)) as [s Hs]. cbn [append_values]. unfold bind, lift_result.
    rewrite (typed_row StringD l i (Code.String, s) string_laws Hw Ha) by (apply (Hr i s); done). cbn.
    rewrite (IH (i + 1) (acc ++ [s]) Hw Ha ltac:(lia) ltac:(lia) Hr). rewrite <- app_assoc. do 3 f_equal.
    rewrite (drop_S items s (Z.to_nat i) Hs). cbn. do 2 f_equal. lia.
Qed.
End AdaptorProofs.

(** Loading through the adaptor. *)
Lemma adaptor_loads {I : Type} `{InputStreamLaws I} (std_hash : bytes -> Z) (items old : list bytes) (l : lc) :
  string_lc std_hash ([] :: items) l -> zlen (lc_index l) = zlen items -> rows_are l 0 items -> 0 < zlen items ->
  reads (Adaptor_Load std_hash StringD (ColumnString old) (zlen items)) (prefix_bytes (lc_column l) ++ body_bytes (lc_column l))
    (true, ColumnString items).
Proof.
  intros ((Hw & _) & _ & (ds & Hd & _) & _) Hz Hr Hn. destruct (adapted_empty std_hash) as (l0 & E0 & _ & Hd0 & Hx0 & _).
  assert (adapted_dictionary std_hash (ColumnString []) = Ok l0) as Ea.
  { unfold adapted_dictionary. cbn [CloneEmpty rbind]. unfold LowCardinality_new. by rewrite E0. }
  assert (blank std_hash (lc_column l) (lc_column l0)) as Hb.
  { apply (blank_lc std_hash _ _ _ _ (ColumnString []) l0); rewrite ?Hd, ?Hd0; done. }
  assert (SliceVector old 0 0 = []) as Hs by (unfold SliceVector; destruct (0 <? zlen old) eqn:Eo; [|done]; rewrite Z.min_l by lia; apply ztake_0).
  unfold Adaptor_Load. eapply (reads_bind _ _ _ _ (true, ColumnString old)).
  - unfold Adaptor_LoadPrefix. cbn [Slice]. rewrite Hs. apply reads_pure. rewrite Ea. apply reads_pure.
    eapply reads_bind_nil; [by apply (reads_LoadPrefix std_hash (lc_column l))|]. apply reads_ret.
  - cbv beta iota. unfold Adaptor_LoadBody. cbn [CloneEmpty]. apply reads_pure. rewrite Ea. apply reads_pure.
    destruct l as [d code index u]. cbn [lc_column lc_dict lc_index] in *. subst d.
    destruct (loads_lc_exact std_hash (I := I) (depth (ColumnString ds)) (ColumnString ds) (ColumnString []) code index u l0
      (LoadBody_ok std_hash _) (Nat.le_refl _) Hw eq_refl eq_refl) as [u' Hl]; [by rewrite Hd0|].
    eapply reads_bind_nil.
    { unfold LoadBody. rewrite <- Hz. replace (depth (lc_column l0)) with (S (depth (ColumnString ds))); [exact Hl|].
      destruct l0. cbn in Hd0 |- *. by subst. }
    cbv beta iota. cbn [negb]. rewrite (append_values_ok (mkLC (ColumnString ds) code index u') items); [|done|done|done|lia|done].
    cbn [app Z.to_nat drop Swap swapped]. apply reads_ret.
Qed.

(** ** Theorems *)

(** C25. Typed dictionary columns: for dictionaries of numbers, strings and fixed strings, nullable or not, [Append] of a value the
    class represents (NULL included) succeeds when no other item of the dictionary has the value's pair of hashes and
    there is room; it adds one row, [At] of the new row returns the value, [At] of every older row returns what it
    returned before, and the invariant and the class of the dictionary are kept. *)
Theorem dictionary_values (std_hash : bytes -> Z) (D : DictionaryClass) (HD : dictionary_class D) (l : lc) (v : ValueType D) (it : ItemView)
    (Hi : lc_inv std_hash l) (Ha : is_a D (lc_dict l) = true) (Hx : exact D (ColumnType (lc_dict l)) v)
    (Hit : to_item D (item_type_code (lc_dict l)) v = Ok it) (Hn : no_collision std_hash (lc_dict l) it)
    (Hr : dict_room (lc_dict l) it) (Hf : Size (lc_dict l) < 256 ^ Z.of_nat (sizeof (lc_code l))) (Hz : zlen (lc_index l) + 1 < 2 ^ 64) :
  exists l', ColumnLowCardinalityT_Append std_hash D v l = (Ok tt, l') /\ lc_inv std_hash l' /\ is_a D (lc_dict l') = true /\
    zlen (lc_index l') = zlen (lc_index l) + 1 /\ ColumnLowCardinalityT_At D l' (zlen (lc_index l)) = Ok v /\
    forall i, 0 <= i < zlen (lc_index l) -> ColumnLowCardinalityT_At D l' i = ColumnLowCardinalityT_At D l i.
Proof.
  pose proof (dictionary_laws D HD) as L. pose proof Hi as (Hw & _). pose proof Hw as (Hwd & Hok & _ & _ & Hsz & _).
  assert (zlen (snd it) < 2 ^ 64) as Hl by (unfold dict_room in Hr; pose proof (zlen_nonneg (snd it)); nia).
  destruct (dict_value D L _ v it Hwd Hok Ha Hx Hit Hl) as [Hacc Hv]. destruct (computeHashKey_ok std_hash it Hl) as [k Hk].
  destruct (AppendUnsafe_ok std_hash l it k Hi Hacc Hk Hn Hr Hf Hz) as (l' & E & Hi' & Hz' & Hg & Hold).
  assert (is_a D (lc_dict l') = true) as Ha'.
  { destruct (AppendUnsafe_dict std_hash _ _ _ E) as [_ [-> | Ed]]; [done|by eapply (dict_grows D L)]. }
  pose proof Hi' as (Hw' & _). exists l'. unfold ColumnLowCardinalityT_Append. rewrite Hit. split_and!; try done.
  - rewrite <- Hv. by apply (typed_row D l' _ it L).
  - intros i Hri. destruct (row_item l i Hw Hri) as [x Hxi].
    rewrite (typed_row D l i x L Hw Ha Hxi). apply (typed_row D l' i x L Hw' Ha'). by rewrite Hold.
Qed.

Lemma dictionary_values_witness :
  exists l', ColumnLowCardinalityT_Append le_value StringD (str "x") example_lc = (Ok tt, l') /\ lc_inv le_value l' /\
    is_a StringD (lc_dict l') = true /\ zlen (lc_index l') = zlen (lc_index example_lc) + 1 /\
    ColumnLowCardinalityT_At StringD l' (zlen (lc_index example_lc)) = Ok (str "x") /\
    forall i, 0 <= i < zlen (lc_index example_lc) -> ColumnLowCardinalityT_At StringD l' i = ColumnLowCardinalityT_At StringD example_lc i.
Proof.
  assert (no_collision le_value (lc_dict example_lc) (Code.String, str "x")) as Hn.
  { intros j it' Hj Hg Hk. change (Size (lc_dict example_lc)) with 1 in Hj. replace j with 0 in Hg by lia.
    injection Hg as <-. vm_compute in Hk. discriminate. }
  assert (dict_room (lc_dict example_lc) (Code.String, str "x")) as Hr by (vm_compute; reflexivity).
  assert (Size (lc_dict example_lc) < 256 ^ Z.of_nat (sizeof (lc_code example_lc))) as Hf by (vm_compute; reflexivity).
  assert (zlen (lc_index example_lc) + 1 < 2 ^ 64) as Hz by (vm_compute; reflexivity).
  exact (dictionary_values le_value StringD (class_plain _ plain_string) example_lc (str "x") (Code.String, str "x") example_lc_inv
    eq_refl I eq_refl Hn Hr Hf Hz).
Defined.

(** Dates cannot be appended: the item made of a [time_t] has eight bytes, the types of the dictionary two or four. *)
Lemma dates_refused (std_hash : bytes -> Z) (D : DictionaryClass) (l : lc) (v : ValueType D) (Hw : wf_col (lc_dict l))
    (HD : D = DateD \/ D = Date32D \/ D = DateTimeD) (Ha : is_a D (lc_dict l) = true) :
  ColumnLowCardinalityT_Append std_hash D v l = (Throw AssertionError, l).
Proof.
  unfold ColumnLowCardinalityT_Append.
  assert (forall c w, c = Code.Date \/ c = Code.Date32 \/ c = Code.DateTime -> time_item c w = Throw AssertionError) as Ht.
  { intros c w Hc. unfold time_item, ItemView_new, ValidateData. unfold zlen. rewrite length_le_bytes. by destruct Hc as [-> | [-> | ->]]. }
  destruct (lc_dict l) as [| | | | |w ty data| | | | |]; try (destruct HD as [-> | [-> | ->]]; done).
  assert (wrapped_type w ty <> None) as Hty by (destruct Hw as (-> & _); done).
  destruct HD as [-> | [-> | ->]]; (destruct w; try done); (destruct ty as [[]| | | | | | | | | | |]; try done); cbn [to_item DateD Date32D DateTimeD item_type_code ColumnType GetCode]; rewrite Ht by tauto; done.
Qed.

(** The adaptor of columns of strings: it loads what a dictionary column with the same rows saves, whatever was in it, into
    exactly those rows.  What it saves is that without the first eight bytes: the version of the keys, which loading
    expects, is missing, because [SavePrefix] is not overridden. *)
Lemma adaptor_wire {Out I : Type} `{OutputStreamLaws Out} `{InputStreamLaws I} (std_hash : bytes -> Z) (items old : list bytes)
    (Hk : keys_differ std_hash ([] :: items)) (Hlen : Forall (fun s => zlen s < 2 ^ 31) items) (Hn : 0 < zlen items < 2 ^ 32 - 4) :
  exists l, adapted_dictionary std_hash (ColumnString items) = Ok l /\
    writes (Out := Out) (Save (lc_column l)) (le_bytes 8 SharedDictionariesWithAdditionalKeys ++ body_bytes (lc_column l)) tt /\
    reads (I := I) (Adaptor_Load std_hash StringD (ColumnString old) (zlen items))
      (le_bytes 8 SharedDictionariesWithAdditionalKeys ++ body_bytes (lc_column l)) (true, ColumnString items) /\
    writes (Out := Out) (Adaptor_Save std_hash (ColumnString items)) (body_bytes (lc_column l)) tt.
Proof.
  destruct (adapted_strings std_hash items Hk Hlen ltac:(lia)) as (l & E & Hs & Hz & Hr).
  pose proof Hs as ((Hw & _) & _ & (ds & Hd & _) & _). exists l. split; [done|].
  assert (mentions Code.Void (ColumnType (lc_column l)) = false) as Hv by (cbn; by rewrite Hd).
  split; [|split].
  - by apply (writes_Save (lc_column l)).
  - apply (adaptor_loads std_hash items old l); (done || lia).
  - eapply (writes_bind _ _ []); [apply writes_ret|]. unfold Adaptor_SaveBody. rewrite E. apply writes_pure.
    apply (writes_SaveBody_depth (depth (lc_column l))); done.
Qed.

