(* ===== verification/Sharing.v ===== *)
(** * Shared storage (Wrap of ColumnArrayT, ColumnNullableT, ColumnTupleT, ColumnMapT; columns/column.h)

    Columns as objects in a heap.  A column of columns points to its parts, and [Wrap] makes another object that points to
    the same parts: the original and the view then share their storage.  The rest of the development models a column as
    a value; here the operations are modelled on the objects, and related to the operations on values.  An object has a
    dynamic class for good, so a pointer is an address together with it: the casts of the typed classes look at that.
    This file has [Wrap], [Append] of a value, [Clear] and [Swap]; SharedCalls.v has the rest and the theorems. *)

From S2P Require Import Prelude Text Types Columns ColumnRows ColumnOps Swap Decimal Values Typed.

#[local] Set Warnings "-register-all,-clear-no-such-hyp".

(** ** Objects *)

(** The dynamic class of an object, which never changes: the name of its template instance, if it is of a template, and
    for a dictionary column that of its dictionary. *)
Abbreviation dynamic_class := (template * template)%type.

(** A pointer: an address and the class of the object there, which the program finds in the object itself. *)
Abbreviation loc := (positive * dynamic_class)%type.

(** The address [p] with an object that no template made. *)
Definition plain_at (p : positive) : loc := (p, (None, None)).

(** The template instance of an object. *)
Definition template_of (l : loc) : template := fst (snd l).

(** The classes of a column held as one object: none of those classes is one of the templates, but the dictionary of a
    dictionary column may be of one. *)
Definition leaf_classes (l : loc) : classes := Classes None [Classes (snd (snd l)) []].

(** [dynamic_cast] to the template instance of the object at [l]. *)
Definition casts_to (l l' : loc) : bool := same_template (Classes (template_of l) []) (Classes (template_of l') []).

(** A column object: one that holds its data itself, or one that points to other columns. *)
Inductive obj :=
| OColumn (c : column)
| OArray (data_ offsets_ : loc)
| ONullable (nested_ nulls_ : loc)
| OTuple (columns_ : list loc) (names : list bytes)
| OMap (data_ : loc).

Abbreviation heap := (gmap loc obj).

(** An address of a new object of the class [k]. *)
Definition new_loc (k : template) (h : heap) : loc := (fresh (set_map (D := gset positive) fst (dom h)), (k, None)).

(** [std::make_shared]. *)
Definition make_shared (k : template) (o : obj) : M heap loc :=
  fun h => let l := new_loc k h in (Ok l, <[l := o]> h).

(** Run an operation of a column that holds its data itself. *)
Definition on_leaf {A : Type} (l : loc) (m : M column A) : M heap A :=
  fun h => match h !! l with
           | Some (OColumn c) => let '(r, c) := m c in (r, <[l := OColumn c]> h)
           | _ => (Throw Undefined, h)
           end.

(** The numbers in a [ColumnVector]. *)
Definition numbers (l : loc) : M heap (list Z) :=
  fun h => match h !! l with
           | Some (OColumn (ColumnVector _ data)) => (Ok data, h)
           | _ => (Throw Undefined, h)
           end.

(** [Size()], through the pointers; [n] bounds their nesting. *)
Fixpoint SizeH (n : nat) (l : loc) (h : heap) : result Z :=
  match n with
  | O => Throw Diverges
  | S n =>
    match h !! l with
    | Some (OColumn c) => Ok (Size c)
    | Some (OArray _ o) => SizeH n o h
    | Some (ONullable _ u) => SizeH n u h
    | Some (OTuple [] _) => Ok 0
    | Some (OTuple (l :: _) _) => SizeH n l h
    | Some (OMap d) => SizeH n d h
    | None => Throw Undefined
    end
  end.

(** The constructors of arrays and nullables, with their checks; [n] is the nesting of the first argument. *)
Definition new_array (k : template) (n : nat) (data offsets : loc) : M heap loc :=
  let* h := get in
  let* size := lift_result (SizeH n data h) in
  let* os := numbers offsets in
  if negb (monotone 0 os) then throw ValidationError
  else if negb (size =? last_offset os) then throw ValidationError
  else make_shared k (OArray data offsets).

Definition new_nullable (k : template) (n : nat) (nested nulls : loc) : M heap loc :=
  let* h := get in
  let* size := lift_result (SizeH n nested h) in
  let* us := numbers nulls in
  if negb (size =? zlen us) then throw ValidationError
  else make_shared k (ONullable nested nulls).

(** The constructor of tuples checks the names against the number of columns; the types do not matter for that. *)
Definition new_tuple (k : template) (columns : list loc) (names : list bytes) : M heap loc :=
  let* _ := lift_result (CreateTuple (map (fun _ => TSimple Code.Void) columns) names) in
  make_shared k (OTuple columns names).

(** ** Classes of objects *)

(** A column class with its operations on objects: [WrapColumn<T>] of an object, null when it is not a [T], and [Append] of a
    value; [shape] says which columns its objects hold. *)
Record HeapClass := mkHeapClass {
  hclass :> Described;
  class_name : bytes;            (** its name in C++ *)
  WrapH : loc -> M heap (option loc);
  AppendH : ValueType hclass -> loc -> M heap unit;
  nesting : nat;                 (** how many pointers [Size()] follows at most, plus one *)
  shape_ok : column -> Prop;
}.

(** A column that points to no other column object that a view could share. *)
Definition leaf (c : column) : bool :=
  match c with ColumnArray _ _ | ColumnNullable _ _ | ColumnTuple _ _ | ColumnMap _ => false | _ => true end.

(** Classes without [Wrap]: [WrapColumn] is [As], the object itself if it is of the class. *)
Definition LeafH (name : bytes) (D : Described) : HeapClass :=
  mkHeapClass D name
    (fun l h => match h !! l with
                | Some (OColumn c) => (Ok (if is_a D c then Some l else None), h)
                | _ => (Ok None, h)
                end)
    (fun v l => on_leaf l (AppendValue D v))
    1 (fun c => leaf c = true).

(** [ColumnNullableT]. *)
Section NullableH.
Context (N : HeapClass).

(** Whether [As<ColumnUInt8>()] is not null. *)
Definition is_UInt8 (l : loc) : M heap bool :=
  fun h => (Ok (match h !! l with Some (OColumn c) => is_vector Code.UInt8 c | _ => false end), h).

Definition NullableT_name : bytes := str "ColumnNullableT<" ++ class_name N ++ str ">".

Definition NullableH_Wrap (l : loc) : M heap (option loc) :=
  fun h => match h !! l with
           | Some (ONullable nested nulls) =>
             (let* n := WrapH N nested in
              match n with
              | None => ret None
              | Some n =>
                let* uint8 := is_UInt8 nulls in
                if negb uint8 then ret None
                else let* l := new_nullable (Some NullableT_name) (nesting N) n nulls in ret (Some l)
              end) h
           | _ => (Ok None, h)
           end.

Definition NullableH_Append (v : option (ValueType N)) (l : loc) : M heap unit :=
  fun h => match h !! l with
           | Some (ONullable nested nulls) =>
             (on_leaf nulls (ColumnVector_Append (Z.b2z (negb (has_value v)))) ;;;
              try_catch (AppendH N (match v with Some v => v | None => null_value N end) nested)
                (fun e => let* us := numbers nulls in
                          on_leaf nulls (ColumnVector_Erase (wrap 64 (zlen us - 1)) 1) ;;; throw e)) h
           | _ => (Throw Undefined, h)
           end.

Definition NullableH : HeapClass :=
  mkHeapClass (NullableT N) NullableT_name NullableH_Wrap NullableH_Append 2
    (fun c => match c with ColumnNullable n _ => shape_ok N n | _ => False end).
End NullableH.

(** [ColumnArrayT]. *)
Section ArrayH.
Context (N : HeapClass).

Definition ArrayT_name : bytes := str "ColumnArrayT<" ++ class_name N ++ str ">".

Definition ArrayH_Wrap (l : loc) : M heap (option loc) :=
  fun h => match h !! l with
           | Some (OArray data offsets) =>
             (let* d := WrapH N data in
              match d with
              | None => ret None
              | Some d => let* l := new_array (Some ArrayT_name) (nesting N) d offsets in ret (Some l)
              end) h
           | _ => (Ok None, h)
           end.

Fixpoint append_eachH (items : list (ValueType N)) (data : loc) : M heap unit :=
  match items with
  | [] => ret tt
  | x :: items => AppendH N x data ;;; append_eachH items data
  end.

Definition ArrayH_Append (items : list (ValueType N)) (l : loc) : M heap unit :=
  fun h => match h !! l with
           | Some (OArray data offsets) =>
             (append_eachH items data ;;;
              on_leaf offsets (fun c => match c with
                                        | ColumnVector code os => (Ok tt, ColumnVector code (AddOffset os (zlen items)))
                                        | _ => (Throw Undefined, c)
                                        end)) h
           | _ => (Throw Undefined, h)
           end.

Definition ArrayH : HeapClass :=
  mkHeapClass (ArrayT N) ArrayT_name ArrayH_Wrap ArrayH_Append 2
    (fun c => match c with ColumnArray d _ => shape_ok N d | _ => False end).
End ArrayH.

(** [ColumnTupleT]. *)

(** [TupleFromColumn]: every element is wrapped, the last first; a null pointer for one that cannot be. *)
Fixpoint TupleFromColumn (Ns : list HeapClass) (ls : list loc) : M heap (list (option loc)) :=
  match Ns, ls with
  | N :: Ns, l :: ls =>
    fun h => match TupleFromColumn Ns ls h with
             | (Ok rest, h) => (let* x := WrapH N l in ret (x :: rest)) h
             | (Throw e, h) => (Throw e, h)
             end
  | _, _ => ret []
  end.

(** All of them, if none is null. *)
Fixpoint all_wrapped (l : list (option loc)) : option (list loc) :=
  match l with
  | [] => Some []
  | Some x :: l => match all_wrapped l with Some l => Some (x :: l) | None => None end
  | None :: _ => None
  end.

Definition TupleT_name (Ns : list HeapClass) : bytes := str "ColumnTupleT<" ++ join (str ", ") (map class_name Ns) ++ str ">".

Definition TupleH_Wrap (Ns : list HeapClass) (l : loc) : M heap (option loc) :=
  fun h => match h !! l with
           | Some (OTuple ls names) =>
             (if negb (zlen ls =? zlen Ns) then ret None
              else
                let* columns := TupleFromColumn Ns ls in
                match all_wrapped columns with
                | None => ret None
                | Some columns => let* l := new_tuple (Some (TupleT_name Ns)) columns names in ret (Some l)
                end) h
           | _ => (Ok None, h)
           end.

Fixpoint AppendTupleH (Ns : list HeapClass) : TupleValue (map hclass Ns) -> list loc -> M heap unit :=
  match Ns with
  | [] => fun _ _ => ret tt
  | N :: Ns => fun '(v, vs) ls =>
    match ls with
    | [] => throw Undefined
    | l :: ls => AppendTupleH Ns vs ls ;;; AppendH N v l
    end
  end.

Definition TupleH_Append (Ns : list HeapClass) (v : TupleValue (map hclass Ns)) (l : loc) : M heap unit :=
  fun h => match h !! l with
           | Some (OTuple ls _) => AppendTupleH Ns v ls h
           | _ => (Throw Undefined, h)
           end.

Fixpoint shapes_ok (Ns : list HeapClass) (cs : list column) : Prop :=
  match Ns, cs with
  | [], [] => True
  | N :: Ns, c :: cs => shape_ok N c /\ shapes_ok Ns cs
  | _, _ => False
  end.

Definition TupleH (Ns : list HeapClass) : HeapClass :=
  mkHeapClass (TupleT (map hclass Ns)) (TupleT_name Ns) (TupleH_Wrap Ns) (TupleH_Append Ns) (S (match Ns with [] => O | N :: _ => nesting N end))
    (fun c => match c with ColumnTuple cs _ => shapes_ok Ns cs | _ => False end).

(** [ColumnMapT]; the type of the data, which the constructor checks, is that of an array of pairs here. *)
Section MapH.
Context (K V : HeapClass).

Definition entriesH : HeapClass := ArrayH (TupleH [K; V]).

Definition MapT_name : bytes := str "ColumnMapT<" ++ class_name K ++ str ", " ++ class_name V ++ str ">".

Definition MapH_Wrap (l : loc) : M heap (option loc) :=
  fun h => match h !! l with
           | Some (OMap data) =>
             (let* d := WrapH entriesH data in
              match d with
              | None => ret None
              | Some d => let* l := make_shared (Some MapT_name) (OMap d) in ret (Some l)
              end) h
           | _ => (Ok None, h)
           end.

Definition MapH_Append (items : list (TupleValue [hclass K; hclass V])) (l : loc) : M heap unit :=
  fun h => match h !! l with
           | Some (OMap data) => AppendH entriesH items data h
           | _ => (Throw Undefined, h)
           end.

Definition MapH : HeapClass :=
  mkHeapClass (MapT K V) MapT_name MapH_Wrap MapH_Append 3
    (fun c => match c with ColumnMap d => shape_ok entriesH d | _ => False end).
End MapH.

#[global] Arguments NullableT_name : simpl never.
#[global] Arguments ArrayT_name : simpl never.
#[global] Arguments TupleT_name : simpl never.
#[global] Arguments MapT_name : simpl never.

(** ** Clear *)

(** [Clear()], through the pointers. *)
Fixpoint ClearH (std_hash : bytes -> Z) (n : nat) (l : loc) : M heap unit :=
  match n with
  | O => throw Diverges
  | S n => fun h =>
    match h !! l with
    | Some (OColumn _) =>
      on_leaf l (fun c => match Clear std_hash c with Ok c => (Ok tt, c) | Throw e => (Throw e, c) end) h
    | Some (OArray data offsets) => (ClearH std_hash n offsets ;;; ClearH std_hash n data) h
    | Some (ONullable nested nulls) => (ClearH std_hash n nested ;;; ClearH std_hash n nulls) h
    | Some (OTuple ls _) => mapM_ (ClearH std_hash n) ls h
    | Some (OMap data) => ClearH std_hash n data h
    | None => (Throw Undefined, h)
    end
  end.

(** ** Swap *)

(** [Type()]: the type a column was made with, which is that of its parts. *)
Fixpoint TypeH (n : nat) (l : loc) (h : heap) : type :=
  match n with
  | O => TSimple Code.Void
  | S n =>
    match h !! l with
    | Some (OColumn c) => ColumnType c
    | Some (OArray d _) => TArray (TypeH n d h)
    | Some (ONullable d _) => TNullable (TypeH n d h)
    | Some (OTuple ls names) => TTuple (map (fun l => TypeH n l h) ls) names
    | Some (OMap d) =>
      match h !! d with
      | Some (OArray t _) =>
        match h !! t with
        | Some (OTuple [k; v] _) => TMap (TypeH n k h) (TypeH n v h)
        | _ => TSimple Code.Void
        end
      | _ => TSimple Code.Void
      end
    | None => TSimple Code.Void
    end
  end.

(** The dynamic classes of the objects of a column. *)
Fixpoint ClassesH (n : nat) (l : loc) (h : heap) : classes :=
  match n with
  | O => untyped
  | S n =>
    match h !! l with
    | Some (OArray d _) | Some (ONullable d _) | Some (OMap d) => Classes (template_of l) [ClassesH n d h]
    | Some (OTuple ls _) => Classes (template_of l) (map (fun l => ClassesH n l h) ls)
    | _ => leaf_classes l
    end
  end.

(** [Swap] of two columns that hold their data themselves. *)
Definition swap_leaves (l l' : loc) : M heap unit :=
  fun h => match h !! l, h !! l' with
           | Some (OColumn a), Some (OColumn b) =>
             let '(r, (a, b)) := Swap (leaf_classes l) (leaf_classes l') a b in (r, <[l := OColumn a]> (<[l' := OColumn b]> h))
           | _, _ => (Throw Undefined, h)
           end.

(** The comparison of types; [IsEqual] can throw when a name is too long. *)
Definition check_types (n : nat) (l l' : loc) : M heap unit :=
  let* h := get in
  let* equal := lift_result (IsEqual (TypeH n l h) (TypeH n l' h)) in
  if equal : bool then ret tt else throw ValidationError.

Fixpoint for_both (f : loc -> loc -> M heap unit) (ls ls' : list loc) : M heap unit :=
  match ls, ls' with
  | l :: ls, l' :: ls' => f l l' ;;; for_both f ls ls'
  | _, _ => ret tt
  end.

(** [Swap()], through the pointers: an object of a template first casts the other one to its own template instance. *)
Fixpoint SwapH (n : nat) (l l' : loc) : M heap unit :=
  match n with
  | O => throw Diverges
  | S n => fun h =>
    match h !! l, h !! l' with
    | Some (OColumn _), Some (OColumn _) => swap_leaves l l' h
    | Some o, Some o' =>
      if negb (casts_to l l') then (Throw BadCast, h) else
      match o, o' with
      | OArray d o, OArray d' o' => (SwapH n d d' ;;; swap_leaves o o') h
      | ONullable d u, ONullable d' u' => (check_types n d d' ;;; SwapH n d d' ;;; swap_leaves u u') h
      | OTuple ls _, OTuple ls' _ =>
        (if negb (length ls =? length ls')%nat then throw ValidationError
         else for_both (check_types n) ls ls' ;;; for_both (SwapH n) ls ls') h
      | OMap d, OMap d' => SwapH n d d' h
      | _, _ => (Throw BadCast, h)
      end
    | _, _ => (Throw Undefined, h)
    end
  end.

(** ** What objects stand for *)

(** The object at [l] is the column [c]; [L] are the objects that hold its data, and no part of it is there twice. *)
Fixpoint repr (h : heap) (c : column) (l : loc) (L : gset loc) {struct c} : Prop :=
  match c with
  | ColumnArray d os =>
    exists ld o L', h !! l = Some (OArray ld o) /\ h !! o = Some (OColumn (ColumnVector Code.UInt64 os)) /\
      (o ∉ L') /\ L = {[o]} ∪ L' /\ repr h d ld L'
  | ColumnNullable n us =>
    exists ln u L', h !! l = Some (ONullable ln u) /\ h !! u = Some (OColumn (ColumnVector Code.UInt8 us)) /\
      (u ∉ L') /\ L = {[u]} ∪ L' /\ repr h n ln L'
  | ColumnTuple cs names =>
    exists ls, h !! l = Some (OTuple ls names) /\
      (fix reprs (cs : list column) (ls : list loc) (L : gset loc) : Prop :=
         match cs, ls with
         | [], [] => L = ∅
         | c :: cs, l :: ls => exists L1 L2, repr h c l L1 /\ reprs cs ls L2 /\ L1 ## L2 /\ L = L1 ∪ L2
         | _, _ => False
         end) cs ls L
  | ColumnMap d => exists ld, h !! l = Some (OMap ld) /\ repr h d ld L
  | c => h !! l = Some (OColumn c) /\ L = {[l]}
  end.

Definition reprs (h : heap) : list column -> list loc -> gset loc -> Prop :=
  fix reprs (cs : list column) (ls : list loc) (L : gset loc) : Prop :=
    match cs, ls with
    | [], [] => L = ∅
    | c :: cs, l :: ls => exists L1 L2, repr h c l L1 /\ reprs cs ls L2 /\ L1 ## L2 /\ L = L1 ∪ L2
    | _, _ => False
    end.

(** The pointers are as before: only data has changed, or new objects have come. *)
Definition pointers_kept (h h' : heap) : Prop := forall l o, h !! l = Some o ->
  match o with OColumn _ => exists c, h' !! l = Some (OColumn c) | _ => h' !! l = Some o end.

(** Only the data in [L] has changed. *)
Definition touches (L : gset loc) (h h' : heap) : Prop := pointers_kept h h' /\ forall l, l ∉ L -> h' !! l = h !! l.

(** Two objects with the same storage, up to [n] pointers deep. *)
Fixpoint shares (n : nat) (h : heap) (l l' : loc) : Prop :=
  l = l' \/
  match n with
  | O => False
  | S n =>
    match h !! l, h !! l' with
    | Some (OArray d o), Some (OArray d' o') => o = o' /\ shares n h d d'
    | Some (ONullable d u), Some (ONullable d' u') => u = u' /\ shares n h d d'
    | Some (OTuple ls names), Some (OTuple ls' names') => names = names' /\ Forall2 (shares n h) ls ls'
    | Some (OMap d), Some (OMap d') => shares n h d d'
    | _, _ => False
    end
  end.

(** ** Proofs: pointers *)

Lemma repr_tuple (h : heap) (cs : list column) (names : list bytes) (l : loc) (L : gset loc) :
  repr h (ColumnTuple cs names) l L <-> exists ls, h !! l = Some (OTuple ls names) /\ reprs h cs ls L.
Proof. split; intros H; exact H. Qed.

Lemma repr_leaf (h : heap) (c : column) (l : loc) (L : gset loc) : leaf c = true -> repr h c l L <-> h !! l = Some (OColumn c) /\ L = {[l]}.
Proof. by destruct c. Qed.

Lemma kept_refl (h : heap) : pointers_kept h h.
Proof. intros l [] Hl; eauto. Qed.

Lemma kept_trans (h h1 h2 : heap) : pointers_kept h h1 -> pointers_kept h1 h2 -> pointers_kept h h2.
Proof. intros H1 H2 l o Hl. specialize (H1 l o Hl). destruct o; try exact (H2 _ _ H1). destruct H1 as [c' H1]. exact (H2 _ _ H1). Qed.

Lemma touches_refl (L : gset loc) (h : heap) : touches L h h.
Proof. split; [apply kept_refl|done]. Qed.

Lemma touches_trans (L : gset loc) (h h1 h2 : heap) : touches L h h1 -> touches L h1 h2 -> touches L h h2.
Proof. intros [K1 T1] [K2 T2]. split; [by eapply kept_trans|]. intros l Hl. by rewrite T2, T1. Qed.

Lemma touches_mono (L L' : gset loc) (h h' : heap) : L ⊆ L' -> touches L h h' -> touches L' h h'.
Proof. intros HL [K T]. split; [done|]. intros l Hl. apply T. by intros Hin%HL. Qed.

Lemma kept_insert (h : heap) (l : loc) (c c' : column) : h !! l = Some (OColumn c) -> pointers_kept h (<[l := OColumn c']> h).
Proof.
  intros Hl k o Hk. destruct (decide (k = l)) as [-> | Hne].
  - rewrite Hl in Hk. injection Hk as <-. exists c'. apply lookup_insert_eq.
  - rewrite lookup_insert_ne by done. by apply kept_refl.
Qed.

(** *** What is not touched stays *)

Lemma repr_agree (h h' : heap) (c : column) : (forall l o, h !! l = Some o -> (forall x, o <> OColumn x) -> h' !! l = Some o) ->
  forall l L, (forall k x, k ∈ L -> h !! k = Some (OColumn x) -> h' !! k = Some (OColumn x)) -> repr h c l L -> repr h' c l L.
Proof.
  intros Ks.
  induction c as [| | | | |w ty data _|data os IH|nested nulls IH|cs names IH|data IH|d code index u _] using column_ind'; intros l L Kl Hr;
    try (destruct Hr as [Hl ->]; split; [|done]; apply Kl; [by apply elem_of_singleton|done]).
  - destruct Hr as (ld & o & L' & Hl & Ho & Hn & -> & Hd). exists ld, o, L'. split_and!; try done; [by apply Ks|apply Kl|apply IH]; try done; set_solver.
  - destruct Hr as (ld & o & L' & Hl & Ho & Hn & -> & Hd). exists ld, o, L'. split_and!; try done; [by apply Ks|apply Kl|apply IH]; try done; set_solver.
  - apply repr_tuple in Hr as (ls & Hl & Hr). apply repr_tuple. exists ls. split; [by apply Ks|]. clear Hl.
    revert ls L Kl Hr. induction IH as [|c cs IHc _ IHcs]; intros [|x ls] L Kl Hr; try done.
    destruct Hr as (L1 & L2 & H1 & H2 & Hd & ->). exists L1, L2. split_and!; try done; [apply IHc|apply IHcs]; try done; set_solver.
  - destruct Hr as (ld & Hl & Hd). exists ld. split; [by apply Ks|by apply IH].
Qed.

Lemma kept_pointer (h h' : heap) (l : loc) (o : obj) : pointers_kept h h' -> h !! l = Some o -> (forall x, o <> OColumn x) -> h' !! l = Some o.
Proof. intros K Hl Hn. specialize (K l o Hl). destruct o; try done. by destruct (Hn c). Qed.

Lemma repr_frame (h h' : heap) (T : gset loc) (c : column) (l : loc) (L : gset loc) : touches T h h' -> L ## T -> repr h c l L -> repr h' c l L.
Proof.
  intros [K F] HL. apply repr_agree; [intros k o; by apply kept_pointer|]. intros k x Hk Hx. rewrite F; [done|]. intros Hin. by apply (HL k).
Qed.

Definition extends (h h' : heap) : Prop := forall k o, h !! k = Some o -> h' !! k = Some o.

Lemma extends_kept (h h' : heap) : extends h h' -> pointers_kept h h'.
Proof. intros E l o Hl. specialize (E l o Hl). destruct o; eauto. Qed.

Lemma new_loc_fresh (k : template) (h : heap) : h !! new_loc k h = None.
Proof.
  apply eq_None_not_Some. intros [o Ho]. apply elem_of_dom_2 in Ho.
  apply (is_fresh (set_map (D := gset positive) fst (dom h))). apply elem_of_map. by exists (new_loc k h).
Qed.

Lemma alloc_extends (h : heap) (k : template) (o : obj) : extends h (<[new_loc k h := o]> h).
Proof. intros l x Hl. rewrite lookup_insert_ne; [done|]. intros <-. by rewrite new_loc_fresh in Hl. Qed.

Lemma repr_extends (h h' : heap) (c : column) (l : loc) (L : gset loc) : extends h h' -> repr h c l L -> repr h' c l L.
Proof. intros E. apply repr_agree; [intros k o Hk _; by apply E|intros k x _; apply E]. Qed.

Lemma reprs_frame (h h' : heap) (T : gset loc) (cs : list column) : touches T h h' -> forall ls L, L ## T -> reprs h cs ls L -> reprs h' cs ls L.
Proof.
  intros Ht. induction cs as [|c cs IH]; intros [|l ls] L HL Hr; try done.
  destruct Hr as (L1 & L2 & H1 & H2 & Hd & ->). exists L1, L2. split_and!; try done; [eapply repr_frame|apply IH]; try done; set_solver.
Qed.

Lemma reprs_extends (h h' : heap) (cs : list column) : extends h h' -> forall ls L, reprs h cs ls L -> reprs h' cs ls L.
Proof.
  intros Ht. induction cs as [|c cs IH]; intros [|l ls] L Hr; try done.
  destruct Hr as (L1 & L2 & H1 & H2 & Hd & ->). exists L1, L2. split_and!; try done; [by eapply repr_extends|by apply IH].
Qed.

(** *** Sharing *)

Lemma shares_refl (n : nat) (h : heap) (l : loc) : shares n h l l.
Proof. destruct n; by left. Qed.

Lemma shares_kept (h h' : heap) : pointers_kept h h' -> forall n l l', shares n h l l' -> shares n h' l l'.
Proof.
  intros K. assert (forall l o, h !! l = Some o -> (forall c, o <> OColumn c) -> h' !! l = Some o) as Ks by (intros l o; by apply kept_pointer).
  induction n as [|n IH]; intros l l' [-> | Hs]; try (by left). right.
  destruct (h !! l) as [[c|d o|d o|ls names|d]|] eqn:El; try done; destruct (h !! l') as [[c'|d' o'|d' o'|ls' names'|d']|] eqn:El'; try done;
    rewrite (Ks _ _ El), (Ks _ _ El') by done.
  - destruct Hs. auto.
  - destruct Hs. auto.
  - destruct Hs as [-> Hs]. split; [done|]. by eapply Forall2_impl.
  - auto.
Qed.

Lemma shares_sym (h : heap) (n : nat) : forall l l', shares n h l l' -> shares n h l' l.
Proof.
  induction n as [|n IH]; intros l l' [-> | Hs]; try (by left). right.
  destruct (h !! l) as [[c|d o|d o|ls names|d]|] eqn:El; try done; destruct (h !! l') as [[c'|d' o'|d' o'|ls' names'|d']|] eqn:El'; try done.
  - destruct Hs. auto.
  - destruct Hs. auto.
  - destruct Hs as [-> Hs]. split; [done|]. apply Forall2_flip. by eapply Forall2_impl.
  - auto.
Qed.

(** Objects with the same storage are the same column. *)
Lemma shares_repr (h : heap) (n : nat) : forall l l' c L, shares n h l l' -> repr h c l' L -> repr h c l L.
Proof.
  induction n as [|n IH]; intros l l' c L [-> | Hs] Hr; try done.
  destruct (h !! l) as [[x|d o|d o|ls names|d]|] eqn:El; try done; destruct (h !! l') as [[x'|d' o'|d' o'|ls' names'|d']|] eqn:El'; try done.
  - destruct Hs as [-> Hs]. destruct c as [| | | | | |cd os| | | |]; try (destruct Hr as [Hr _]; congruence); try (destruct Hr as (? & ? & ? & Hr & _); congruence);
      try (destruct Hr as (? & Hr & _); congruence).
    destruct Hr as (ld & o2 & L' & Hl & Ho & Hn & -> & Hd). rewrite El' in Hl. injection Hl as <- <-. exists d, o', L'. split_and!; try done. by eapply IH.
  - destruct Hs as [-> Hs]. destruct c as [| | | | | | |cd us| | |]; try (destruct Hr as [Hr _]; congruence); try (destruct Hr as (? & ? & ? & Hr & _); congruence);
      try (destruct Hr as (? & Hr & _); congruence).
    destruct Hr as (ld & o2 & L' & Hl & Ho & Hn & -> & Hd). rewrite El' in Hl. injection Hl as <- <-. exists d, o', L'. split_and!; try done. by eapply IH.
  - destruct Hs as [-> Hs]. destruct c as [| | | | | | | |cs names| |]; try (destruct Hr as [Hr _]; congruence); try (destruct Hr as (? & ? & ? & Hr & _); congruence);
      try (destruct Hr as (? & Hr & _); congruence).
    apply repr_tuple in Hr as (ls2 & Hl & Hr). rewrite El' in Hl. injection Hl as <- <-. apply repr_tuple. exists ls. split; [done|].
    clear El El'. revert cs L Hr. induction Hs as [|x y ls ls' Hxy Hs IHs]; intros [|c cs] L Hr; try done.
    destruct Hr as (L1 & L2 & H1 & H2 & Hd & ->). exists L1, L2. split_and!; try done; [by eapply IH|by apply IHs].
  - destruct c as [| | | | | | | | |cd|]; try (destruct Hr as [Hr _]; congruence); try (destruct Hr as (? & ? & ? & Hr & _); congruence);
      try (destruct Hr as (? & Hr & _); congruence).
    destruct Hr as (ld & Hl & Hd). rewrite El' in Hl. injection Hl as <-. exists d. split; [done|]. by eapply IH.
Qed.

(** The object at [l] tells the class of the column. *)
Lemma repr_kind (h : heap) (c : column) (l : loc) (L : gset loc) : repr h c l L ->
  match h !! l with
  | Some (OColumn x) => x = c /\ leaf c = true
  | Some (OArray ld o) => exists d os, c = ColumnArray d os
  | Some (ONullable ln u) => exists n us, c = ColumnNullable n us
  | Some (OTuple ls names) => exists cs, c = ColumnTuple cs names
  | Some (OMap ld) => exists d, c = ColumnMap d
  | None => False
  end.
Proof.
  intros Hr. destruct c; cbn in Hr; try (destruct Hr as [-> _]; done); try (destruct Hr as (? & ? & ? & -> & _); eauto); destruct Hr as (? & -> & _); eauto.
Qed.

(** ** The contract of a class *)
Record HeapLaws (C : HeapClass) : Prop := mkHeapLaws {
  (** of the columns of the class *)
  shape_of_class : forall c, is_a C c = true -> shape_ok C c;
  size_law : forall h c l L, repr h c l L -> shape_ok C c -> SizeH (nesting C) l h = Ok (Size c);
  (** [Wrap]: an object with the same storage, or null; no other object changes *)
  wrap_law : forall h c l L, repr h c l L -> wf_col c -> exists x h', WrapH C l h = (Ok x, h') /\
    extends h h' /\
    match x with Some l' => is_a C c = true /\ exists n, shares n h' l' l | None => is_a C c = false end;
  wrap_kept : forall l h, pointers_kept h (snd (WrapH C l h));
  (** [Append]: what it is on values *)
  append_law : forall h c l L v r c', repr h c l L -> shape_ok C c -> AppendValue C v c = (r, c') ->
    exists h', AppendH C v l h = (r, h') /\ touches L h h' /\ repr h' c' l L /\ shape_ok C c';
  append_kept : forall v l h, pointers_kept h (snd (AppendH C v l h));
}.

(** A class whose columns hold their data themselves. *)
Definition leaf_class (D : Described) : Prop :=
  (forall c, is_a D c = true -> leaf c = true) /\ forall v c, leaf c = true -> leaf (snd (AppendValue D v c)) = true.

Lemma on_leaf_kept {A : Type} (l : loc) (m : M column A) (h : heap) : pointers_kept h (snd (on_leaf l m h)).
Proof.
  unfold on_leaf. destruct (h !! l) as [[c| | | |]|] eqn:E; try apply kept_refl. destruct (m c) as [r c']. by eapply kept_insert.
Qed.

Lemma on_leaf_ok {A : Type} (l : loc) (m : M column A) (h : heap) (c c' : column) (r : result A) : h !! l = Some (OColumn c) -> m c = (r, c') ->
  on_leaf l m h = (r, <[l := OColumn c']> h) /\ touches {[l]} h (<[l := OColumn c']> h).
Proof.
  intros Hl Hm. unfold on_leaf. rewrite Hl, Hm. split; [done|]. split; [by eapply kept_insert|].
  intros k Hk. apply lookup_insert_ne. intros <-. by apply Hk, elem_of_singleton.
Qed.

Lemma LeafH_laws (name : bytes) (D : Described) : leaf_class D -> HeapLaws (LeafH name D).
Proof.
  intros [H1 H2]. split; cbn.
  - exact H1.
  - intros h c l L Hr Hl. apply repr_leaf in Hr as [Hc _]; [|done]. by rewrite Hc.
  - intros h c l L Hr Hw. destruct (leaf c) eqn:El.
    + apply repr_leaf in Hr as [Hc _]; [|done]. rewrite Hc. eexists _, h. split; [done|]. split; [by intros k o|].
      destruct (is_a D c); [|done]. split; [done|]. exists O. by left.
    + assert (is_a D c = false) as Hf by (destruct (is_a D c) eqn:E; [by rewrite (H1 c E) in El|done]).
      pose proof (repr_kind h c l L Hr) as Hk. destruct (h !! l) as [[x| | | |]|]; try (exists None, h; split_and!; [done|by intros k o|done]).
      destruct Hk as [-> Hk]. congruence.
  - intros l h. destruct (h !! l) as [[]|]; apply kept_refl.
  - intros h c l L v r c' Hr Hl Ha. apply repr_leaf in Hr as [Hc ->]; [|done].
    destruct (on_leaf_ok l (AppendValue D v) h c c' r Hc Ha) as [E T]. exists (<[l := OColumn c']> h).
    assert (leaf c' = true) as Hl' by (specialize (H2 v c Hl); by rewrite Ha in H2).
    split_and!; try done. apply repr_leaf; [done|]. split; [apply lookup_insert_eq|done].
  - intros v l h. apply on_leaf_kept.
Qed.

(** Wrapping through a part: what [wrap_law] needs of the object made from it. *)
Lemma make_shared_ok (h : heap) (k : template) (o : obj) : exists l' h', make_shared k o h = (Ok l', h') /\ h' !! l' = Some o /\ extends h h'.
Proof. eexists _, _. split; [reflexivity|]. split; [apply lookup_insert_eq|apply alloc_extends]. Qed.

Lemma extends_trans (h h1 h2 : heap) : extends h h1 -> extends h1 h2 -> extends h h2.
Proof. intros H1 H2 k o Hk. by apply H2, H1. Qed.

Lemma bind_kept {A B : Type} (m : M heap A) (k : A -> M heap B) (h : heap) : (forall h, pointers_kept h (snd (m h))) ->
  (forall a h, pointers_kept h (snd (k a h))) -> pointers_kept h (snd (bind m k h)).
Proof.
  intros Hm Hk. unfold bind. specialize (Hm h). destruct (m h) as [[a|e] h1]; cbn in *; [|done]. by eapply kept_trans.
Qed.

Lemma try_kept {A : Type} (m : M heap A) (k : exn -> M heap A) (h : heap) : (forall h, pointers_kept h (snd (m h))) ->
  (forall e h, pointers_kept h (snd (k e h))) -> pointers_kept h (snd (try_catch m k h)).
Proof.
  intros Hm Hk. unfold try_catch. specialize (Hm h). destruct (m h) as [[a|e] h1]; cbn in *; [done|].
  destruct e; try done; by eapply kept_trans.
Qed.

Lemma ret_kept {A : Type} (a : A) (h : heap) : pointers_kept h (snd (ret a h)).
Proof. apply kept_refl. Qed.

Lemma throw_kept {A : Type} (e : exn) (h : heap) : pointers_kept h (snd (throw (A := A) e h)).
Proof. apply kept_refl. Qed.

Lemma make_shared_kept (k : template) (o : obj) (h : heap) : pointers_kept h (snd (make_shared k o h)).
Proof. apply extends_kept, alloc_extends. Qed.

Lemma numbers_kept (l : loc) (h : heap) : pointers_kept h (snd (numbers l h)).
Proof. unfold numbers. repeat case_match; apply kept_refl. Qed.

Lemma lift_kept {A : Type} (r : result A) (h : heap) : pointers_kept h (snd (lift_result r h)).
Proof. destruct r; apply kept_refl. Qed.

Lemma is_UInt8_kept (l : loc) (h : heap) : pointers_kept h (snd (is_UInt8 l h)).
Proof. apply kept_refl. Qed.

Create HintDb kept.
#[export] Hint Resolve is_UInt8_kept bind_kept try_kept ret_kept throw_kept make_shared_kept numbers_kept lift_kept on_leaf_kept kept_refl wrap_kept append_kept : kept.

Lemma get_kept (h : heap) : pointers_kept h (snd (get h)).
Proof. apply kept_refl. Qed.
#[export] Hint Resolve get_kept : kept.

(** Computations that keep the pointers, by their form. *)
Ltac kept := repeat (intros; first [case_match|solve [auto with kept]|apply bind_kept|apply try_kept]).

Lemma new_array_kept (k : template) (n : nat) (d o : loc) (h : heap) : pointers_kept h (snd (new_array k n d o h)).
Proof. unfold new_array. kept. Qed.

Lemma new_nullable_kept (k : template) (n : nat) (d o : loc) (h : heap) : pointers_kept h (snd (new_nullable k n d o h)).
Proof. unfold new_nullable. kept. Qed.
#[export] Hint Resolve new_array_kept new_nullable_kept : kept.

Lemma numbers_ok (h : heap) (l : loc) (code : Code.t) (data : list Z) : h !! l = Some (OColumn (ColumnVector code data)) -> numbers l h = (Ok data, h).
Proof. intros Hl. unfold numbers. by rewrite Hl. Qed.

(** A column of another class: [Wrap] is null. *)
Ltac other_class h l Hr :=
  pose proof (repr_kind _ _ _ _ Hr) as Hk; exists None, h; cbn in Hr |- *;
  split_and!; [destruct (h !! l) as [[]|]; try done; exfalso; (by destruct Hk as (? & ? & ?)) || (by destruct Hk as (? & ?))|by intros ? ?|done].

(** *** Arrays *)
Section ArrayLaws.
Context (N : HeapClass) (L : HeapLaws N).

Lemma array_wrap (h : heap) (c : column) (l : loc) (F : gset loc) : repr h c l F -> wf_col c ->
  exists x h', ArrayH_Wrap N l h = (Ok x, h') /\ extends h h' /\
    match x with Some l' => is_a (ArrayH N) c = true /\ exists n, shares n h' l' l | None => is_a (ArrayH N) c = false end.
Proof using L.
  intros Hr Hw. unfold ArrayH_Wrap. destruct c as [| | | | | |d os| | | |]; try (other_class h l Hr).
  destruct Hr as (ld & o & L' & Hl & Ho & Hn & -> & Hd). destruct Hw as (Hwd & Hm & Hlast & _).
  destruct (wrap_law N L h d ld L' Hd Hwd) as (x & h1 & E & Hx & HP). rewrite Hl. unfold bind at 1. rewrite E.
  destruct x as [d'|]; [|by exists None, h1]. destruct HP as [Ha [n Hs]].
  assert (repr h1 d d' L') as Hd' by (eapply shares_repr; [exact Hs|by eapply repr_extends]).
  pose proof (size_law N L h1 d d' L' Hd' (shape_of_class N L d Ha)) as Hsz.
  destruct (make_shared_ok h1 (Some (ArrayT_name N)) (OArray d' o)) as (l' & h2 & E2 & Hl' & Hx2).
  exists (Some l'), h2. split_and!; [|by eapply extends_trans|done|].
  - unfold new_array, get, lift_result, bind. rewrite Hsz. cbn. rewrite (numbers_ok h1 o Code.UInt64 os) by (by apply Hx).
    rewrite Hm. cbn [negb]. rewrite Hlast, Z.eqb_refl. cbn [negb]. rewrite E2. done.
  - exists (S n). right. rewrite Hl'. rewrite (Hx2 _ _ (Hx _ _ Hl)). split; [done|]. by eapply shares_kept; [apply extends_kept|].
Qed.

Lemma append_items_ok (items : list (ValueType N)) : forall h d ld F r d', repr h d ld F -> shape_ok N d -> append_each N items d = (r, d') ->
  exists h', append_eachH N items ld h = (r, h') /\ touches F h h' /\ repr h' d' ld F /\ shape_ok N d'.
Proof using L.
  induction items as [|x items IH]; intros h d ld F r d' Hr Hs E; cbn [append_each append_eachH] in *.
  - injection E as <- <-. exists h. split_and!; try done. apply touches_refl.
  - unfold bind in *. destruct (AppendValue N x d) as [[a|e] d1] eqn:Ea.
    + destruct (append_law N L h d ld F x _ _ Hr Hs Ea) as (h1 & E1 & T1 & R1 & S1).
      destruct (IH h1 d1 ld F r d' R1 S1 E) as (h2 & E2 & T2 & R2 & S2). exists h2. rewrite E1. split_and!; try done. by eapply touches_trans.
    + injection E as <- <-. destruct (append_law N L h d ld F x _ _ Hr Hs Ea) as (h1 & E1 & T1 & R1 & S1). exists h1. rewrite E1. by split_and!.
Qed.

Lemma array_append (h : heap) (c : column) (l : loc) (F : gset loc) (v : list (ValueType N)) r c' : repr h c l F -> shape_ok (ArrayH N) c ->
  ColumnArrayT_Append N v c = (r, c') ->
  exists h', ArrayH_Append N v l h = (r, h') /\ touches F h h' /\ repr h' c' l F /\ shape_ok (ArrayH N) c'.
Proof using L.
  intros Hr Hs E. destruct c as [| | | | | |d os| | | |]; try done. destruct Hr as (ld & o & L' & Hl & Ho & Hn & -> & Hd).
  unfold ColumnArrayT_Append in E. destruct (append_each N v d) as [r1 d1] eqn:Ee.
  destruct (append_items_ok v h d ld L' r1 d1 Hd Hs Ee) as (h1 & E1 & T1 & R1 & S1). unfold ArrayH_Append. rewrite Hl. unfold bind. rewrite E1.
  pose proof T1 as [K1 F1]. assert (h1 !! o = Some (OColumn (ColumnVector Code.UInt64 os))) as Ho1 by (by rewrite F1).
  assert (h1 !! l = Some (OArray ld o)) as Hl1 by (by eapply kept_pointer).
  destruct r1 as [u|e]; injection E as <- <-.
  - edestruct (on_leaf_ok o (fun c => match c with
        | ColumnVector code os => (Ok tt, ColumnVector code (AddOffset os (zlen v)))
        | _ => (Throw Undefined, c) end) h1) as [E2 T2]; [exact Ho1|reflexivity|].
    eexists. split; [exact E2|]. split_and!.
    + eapply touches_trans; [|eapply touches_mono; [|exact T2]]; [eapply touches_mono; [|exact T1]|]; set_solver.
    + exists ld, o, L'. split_and!; try done; [|apply lookup_insert_eq|eapply repr_frame; [exact T2|set_solver|done]].
      eapply kept_pointer; [exact (proj1 T2)|exact Hl1|done].
    + exact S1.
  - exists h1. split_and!; [done|eapply touches_mono; [|exact T1]; set_solver| |exact S1]. by exists ld, o, L'.
Qed.

Lemma ArrayH_laws : HeapLaws (ArrayH N).
Proof using L.
  split.
  - intros c Ha. destruct c; try done. cbn in *. by apply (shape_of_class N L).
  - intros h c l F Hr Hs. destruct c; try done. destruct Hr as (ld & o & L' & Hl & Ho & _). cbn [SizeH nesting ArrayH]. by rewrite Hl, Ho.
  - exact array_wrap.
  - intros l h. cbn. unfold ArrayH_Wrap. pose proof (wrap_kept N L). destruct (h !! l) as [[]|]; kept.
  - exact array_append.
  - intros v l h. cbn. unfold ArrayH_Append. pose proof (append_kept N L) as Ha. assert (forall items d h, pointers_kept h (snd (append_eachH N items d h))) as He
      by (induction items; cbn; kept). destruct (h !! l) as [[]|]; kept.
Qed.
End ArrayLaws.

(** *** Nullables *)
Section NullableLaws.
Context (N : HeapClass) (L : HeapLaws N).

Lemma nullable_wrap (h : heap) (c : column) (l : loc) (F : gset loc) : repr h c l F -> wf_col c ->
  exists x h', NullableH_Wrap N l h = (Ok x, h') /\ extends h h' /\
    match x with Some l' => is_a (NullableH N) c = true /\ exists n, shares n h' l' l | None => is_a (NullableH N) c = false end.
Proof using L.
  intros Hr Hw. unfold NullableH_Wrap. destruct c as [| | | | | | |d us| | |]; try (other_class h l Hr).
  destruct Hr as (ld & o & L' & Hl & Ho & Hn & -> & Hd). destruct Hw as (Hwd & Hsize & _).
  destruct (wrap_law N L h d ld L' Hd Hwd) as (x & h1 & E & Hx & HP). rewrite Hl. unfold bind at 1. rewrite E.
  destruct x as [d'|]; [|by exists None, h1]. destruct HP as [Ha [n Hs]].
  assert (repr h1 d d' L') as Hd' by (eapply shares_repr; [exact Hs|by eapply repr_extends]).
  pose proof (size_law N L h1 d d' L' Hd' (shape_of_class N L d Ha)) as Hsz.
  destruct (make_shared_ok h1 (Some (NullableT_name N)) (ONullable d' o)) as (l' & h2 & E2 & Hl' & Hx2).
  exists (Some l'), h2. split_and!; [|by eapply extends_trans|done|].
  - unfold bind at 1, is_UInt8. rewrite (Hx _ _ Ho). change (is_vector Code.UInt8 (ColumnVector Code.UInt8 us)) with true. cbn [negb].
    unfold new_nullable, get, lift_result, bind. rewrite Hsz. cbn. rewrite (numbers_ok h1 o Code.UInt8 us) by (by apply Hx).
    rewrite Hsize, Z.eqb_refl. cbn [negb]. rewrite E2. done.
  - exists (S n). right. rewrite Hl'. rewrite (Hx2 _ _ (Hx _ _ Hl)). split; [done|]. by eapply shares_kept; [apply extends_kept|].
Qed.

Lemma nullable_append (h : heap) (c : column) (l : loc) (F : gset loc) (v : option (ValueType N)) r c' : repr h c l F ->
  shape_ok (NullableH N) c -> ColumnNullableT_Append N v c = (r, c') ->
  exists h', NullableH_Append N v l h = (r, h') /\ touches F h h' /\ repr h' c' l F /\ shape_ok (NullableH N) c'.
Proof using L.
  intros Hr Hs E. destruct c as [| | | | | | |d us| | |]; try done. destruct Hr as (ld & u & L' & Hl & Hu & Hn & -> & Hd).
  set (b := Z.b2z (negb (has_value v))). set (x := match v with Some v => v | None => null_value N end).
  edestruct (on_leaf_ok u (ColumnVector_Append b) h) as [E1 T1]; [exact Hu|reflexivity|].
  replace (wrap (bits Code.UInt8) b) with b in E1, T1 by (unfold b; by destruct v). set (h1 := <[u := _]> h) in *.
  assert (repr h1 d ld L') as Hd1 by (eapply repr_frame; [exact T1|set_solver|done]).
  assert (h1 !! l = Some (ONullable ld u)) as Hl1 by (eapply kept_pointer; [exact (proj1 T1)|done|done]).
  destruct (AppendValue N x d) as [r1 d1] eqn:Ea. destruct (append_law N L h1 d ld L' x r1 d1 Hd1 Hs Ea) as (h2 & E2 & T2 & R2 & S2).
  pose proof T2 as [K2 F2]. assert (h2 !! u = Some (OColumn (ColumnVector Code.UInt8 (us ++ [b])))) as Hu2 by (rewrite F2 by done; apply lookup_insert_eq).
  assert (h2 !! l = Some (ONullable ld u)) as Hl2 by (by eapply kept_pointer).
  assert (touches ({[u]} ∪ L') h h2) as T12
    by (eapply touches_trans; [eapply touches_mono; [|exact T1]|eapply touches_mono; [|exact T2]]; set_solver).
  unfold ColumnNullableT_Append, bind, try_catch, on_nested in E. cbn in E. fold b x in E. rewrite Ea in E.
  unfold NullableH_Append. rewrite Hl. fold b x. unfold bind, try_catch. rewrite E1, E2.
  assert (forall e, (Throw (A := unit) e, ColumnNullable d1 (us ++ [b])) = (r, c') ->
    exists h', (Throw (A := unit) e, h2) = (r, h') /\ touches ({[u]} ∪ L') h h' /\ repr h' c' l ({[u]} ∪ L') /\ shape_ok (NullableH N) c') as Hthrow.
  { intros e [= <- <-]. exists h2. split_and!; try done. by exists ld, u, L'. }
  assert (forall e, (Throw (A := unit) e, ColumnNullable d1 (Erase (us ++ [b]) (wrap 64 (zlen (us ++ [b]) - 1)) 1)) = (r, c') ->
    exists h', (let '(r0, h) := numbers u h2 in match r0 with
        | Ok us => let '(r1, h) := on_leaf u (ColumnVector_Erase (wrap 64 (zlen us - 1)) 1) h in
                   match r1 with Ok _ => (Throw (A := unit) e, h) | Throw e0 => (Throw e0, h) end
        | Throw e0 => (Throw e0, h) end) = (r, h') /\ touches ({[u]} ∪ L') h h' /\ repr h' c' l ({[u]} ∪ L') /\ shape_ok (NullableH N) c') as Herase.
  { intros e [= <- <-]. rewrite (numbers_ok _ _ _ _ Hu2).
    edestruct (on_leaf_ok u (ColumnVector_Erase (wrap 64 (zlen (us ++ [b]) - 1)) 1) h2) as [E3 T3]; [exact Hu2|reflexivity|]. rewrite E3.
    eexists. split; [reflexivity|]. split_and!; [eapply touches_trans; [exact T12|eapply touches_mono; [|exact T3]; set_solver]| |exact S2].
    exists ld, u, L'. split_and!; try done; [eapply kept_pointer; [exact (proj1 T3)|exact Hl2|done]|apply lookup_insert_eq|].
    eapply repr_frame; [exact T3|set_solver|done]. }
  destruct r1 as [a|e].
  - injection E as <- <-. exists h2. split_and!; try done. by exists ld, u, L'.
  - destruct e; try (by apply Hthrow); by apply Herase.
Qed.

Lemma NullableH_laws : HeapLaws (NullableH N).
Proof using L.
  split.
  - intros c Ha. destruct c; try done. cbn in *. by apply (shape_of_class N L).
  - intros h c l F Hr Hs. destruct c; try done. destruct Hr as (ld & o & L' & Hl & Ho & _). cbn [SizeH nesting NullableH]. by rewrite Hl, Ho.
  - exact nullable_wrap.
  - intros l h. cbn. unfold NullableH_Wrap. pose proof (wrap_kept N L). destruct (h !! l) as [[]|]; kept.
  - exact nullable_append.
  - intros v l h. cbn. unfold NullableH_Append. pose proof (append_kept N L) as Ha. destruct (h !! l) as [[]|]; kept.
Qed.
End NullableLaws.

(** *** Tuples *)

Lemma shares_le (h : heap) (n : nat) : forall m l l', (n <= m)%nat -> shares n h l l' -> shares m h l l'.
Proof.
  induction n as [|n IH]; intros [|m] l l' Hm [-> | Hs]; try (by left); try lia. right.
  destruct (h !! l) as [[]|]; try done; destruct (h !! l') as [[]|]; try done.
  - destruct Hs as [-> Hs]. split; [done|]. apply IH; [lia|done].
  - destruct Hs as [-> Hs]. split; [done|]. apply IH; [lia|done].
  - destruct Hs as [-> Hs]. split; [done|]. eapply Forall2_impl; [exact Hs|]. intros x y. apply IH. lia.
  - apply IH; [lia|done].
Qed.

Lemma CreateTuple_names (ts ts' : list type) (names : list bytes) (t : type) : length ts = length ts' -> CreateTuple ts names = Ok t ->
  CreateTuple ts' names = Ok (TTuple ts' names).
Proof. intros Hl. unfold CreateTuple. rewrite Hl. by repeat case_match. Qed.

Section TupleLaws.
Context (Ns : list HeapClass) (Ls : Forall HeapLaws Ns).

Lemma tuple_wraps : forall h cs ls F, reprs h cs ls F -> Forall wf_col cs -> length ls = length Ns ->
  exists xs h', TupleFromColumn Ns ls h = (Ok xs, h') /\ extends h h' /\
    match all_wrapped xs with
    | Some ls' => wrap_all (map hclass Ns) cs = true /\ exists n, Forall2 (shares n h') ls' ls
    | None => wrap_all (map hclass Ns) cs = false
    end.
Proof using Ls.
  induction Ls as [|N Ns' LN LNs IH]; intros h cs ls F Hr Hw Hlen.
  - destruct ls; [|done]. destruct cs; [|done]. exists [], h. split; [done|]. split; [by intros k o|]. split; [done|]. exists O. constructor.
  - specialize (IH LNs). destruct ls as [|l ls]; [done|]. destruct cs as [|c cs]; [done|]. destruct Hr as (F1 & F2 & H1 & H2 & _ & _).
    apply Forall_cons_1 in Hw as [Hw1 Hw2]. injection Hlen as Hlen. cbn [TupleFromColumn].
    destruct (IH h cs ls F2 H2 Hw2 Hlen) as (xs & h1 & E1 & X1 & P1). rewrite E1.
    destruct (wrap_law N LN h1 c l F1 (repr_extends _ _ _ _ _ X1 H1) Hw1) as (x & h2 & E2 & X2 & P2).
    unfold bind. rewrite E2. exists (x :: xs), h2. split; [done|]. split; [by eapply extends_trans|]. cbn [all_wrapped map wrap_all].
    destruct x as [x|]; [|by rewrite P2]. destruct P2 as [-> [n Hn]]. cbn [andb].
    destruct (all_wrapped xs) as [ls'|]; [|done]. destruct P1 as [-> [m Hm]]. split; [done|]. exists (max n m). constructor.
    + eapply shares_le; [|exact Hn]. lia.
    + eapply Forall2_impl; [exact Hm|]. intros a b Hab. eapply shares_le; [|eapply shares_kept; [by apply extends_kept|exact Hab]]. lia.
Qed.

Lemma reprs_length (h : heap) (cs : list column) : forall ls F, reprs h cs ls F -> length ls = length cs.
Proof using Type.
  induction cs as [|c cs IH]; intros [|l ls] F Hr; try done. destruct Hr as (F1 & F2 & _ & H2 & _). cbn. f_equal. by eapply IH.
Qed.

Lemma wrap_all_mismatch (Ds : list Described) (cs : list column) : length Ds <> length cs -> wrap_all Ds cs = false.
Proof using Type. intros Hl. destruct (wrap_all Ds cs) eqn:E; [|done]. by rewrite (wrap_all_length Ds cs E) in Hl. Qed.

Lemma tuple_wrap (h : heap) (c : column) (l : loc) (F : gset loc) : repr h c l F -> wf_col c ->
  exists x h', TupleH_Wrap Ns l h = (Ok x, h') /\ extends h h' /\
    match x with Some l' => is_a (TupleH Ns) c = true /\ exists n, shares n h' l' l | None => is_a (TupleH Ns) c = false end.
Proof using Ls.
  intros Hr Hw. unfold TupleH_Wrap. destruct c as [| | | | | | | |cs names| |]; try (other_class h l Hr).
  apply repr_tuple in Hr as (ls & Hl & Hr). rewrite Hl. destruct Hw as (Hwcs & _ & Hct & _). apply foldr_Forall in Hwcs.
  pose proof (reprs_length h cs ls F Hr) as Hlen.
  change (is_a (TupleH Ns) (ColumnTuple cs names)) with (wrap_all (map hclass Ns) cs).
  destruct (Z.eqb_spec (zlen ls) (zlen Ns)) as [Hz|Hz]; cbn [negb]; unfold zlen in Hz.
  - destruct (tuple_wraps h cs ls F Hr Hwcs ltac:(lia)) as (xs & h1 & E1 & X1 & P1). unfold bind at 1. rewrite E1.
    destruct (all_wrapped xs) as [ls'|]; [|by exists None, h1]. destruct P1 as [Ha [n Hn]].
    destruct (make_shared_ok h1 (Some (TupleT_name Ns)) (OTuple ls' names)) as (l' & h2 & E2 & Hl' & X2). exists (Some l'), h2. split_and!; [|by eapply extends_trans|done|].
    + unfold new_tuple, bind, lift_result. pose proof (Forall2_length _ _ _ Hn).
      rewrite (CreateTuple_names (map ColumnType cs) _ names _) by (try exact Hct; rewrite !length_map; lia). by rewrite E2.
    + exists (S n). right. rewrite Hl', (X2 _ _ (X1 _ _ Hl)). split; [done|]. eapply Forall2_impl; [exact Hn|].
      intros a b. apply shares_kept. by apply extends_kept.
  - exists None, h. split_and!; [done|by intros k o|]. apply wrap_all_mismatch. rewrite length_map. lia.
Qed.

Lemma append_tuple_ok : forall h cs ls F v r cs', reprs h cs ls F -> shapes_ok Ns cs -> AppendTuple (map hclass Ns) v cs = (r, cs') ->
  exists h', AppendTupleH Ns v ls h = (r, h') /\ touches F h h' /\ reprs h' cs' ls F /\ shapes_ok Ns cs'.
Proof using Ls.
  induction Ls as [|N Ns' LN LNs IH]; intros h cs ls F v r cs' Hr Hs E; cbn [map AppendTuple AppendTupleH] in *.
  - injection E as <- <-. exists h. split_and!; try done. apply touches_refl.
  - specialize (IH LNs). destruct v as [v vs]. destruct cs as [|c cs]; [done|]. destruct ls as [|l ls]; [done|]. destruct Hs as [Hs1 Hs2].
    destruct Hr as (F1 & F2 & R1 & R2 & Hd & ->). destruct (AppendTuple (map hclass Ns') vs cs) as [r1 cs1] eqn:Et.
    destruct (IH h cs ls F2 vs r1 cs1 R2 Hs2 Et) as (h1 & E1 & T1 & R1' & S1). unfold bind. rewrite E1.
    assert (repr h1 c l F1) as Rc by (by eapply repr_frame). destruct r1 as [a|e].
    + destruct (AppendValue N v c) as [r2 c2] eqn:Ea. injection E as <- <-.
      destruct (append_law N LN h1 c l F1 v r2 c2 Rc Hs1 Ea) as (h2 & E2 & T2 & R2' & S2). exists h2. split_and!; try done.
      * eapply touches_trans; [eapply touches_mono; [|exact T1]|eapply touches_mono; [|exact T2]]; set_solver.
      * exists F1, F2. split_and!; try done. eapply reprs_frame; [exact T2|by symmetry|done].
    + injection E as <- <-. exists h1. split_and!; try done; [eapply touches_mono; [|exact T1]; set_solver|]. by exists F1, F2.
Qed.

Lemma shapes_of_class : forall cs, wrap_all (map hclass Ns) cs = true -> shapes_ok Ns cs.
Proof using Ls.
  induction Ls as [|N Ns' LN LNs IH]; intros [|c cs] Ha; try done. cbn in *. apply andb_prop in Ha as [H1 H2].
  split; [by apply (shape_of_class N LN)|by apply (IH LNs)].
Qed.

Lemma TupleH_laws : HeapLaws (TupleH Ns).
Proof using Ls.
  split.
  - intros c Ha. destruct c; try done. by apply shapes_of_class.
  - intros h c l F Hr Hs. destruct c as [| | | | | | | |cs names| |]; try done. apply repr_tuple in Hr as (ls & Hl & Hr).
    cbn [shape_ok TupleH nesting SizeH] in *. rewrite Hl. destruct Ls as [|N Ns' LN LNs]; destruct cs as [|c cs]; try done; destruct ls as [|x ls]; try done.
    destruct Hr as (F1 & F2 & R1 & _). by apply (size_law N LN h c x F1 R1 (proj1 Hs)).
  - exact tuple_wrap.
  - intros l h. cbn. unfold TupleH_Wrap. assert (forall ls h, pointers_kept h (snd (TupleFromColumn Ns ls h))) as Ht.
    { clear l h. induction Ls as [|N Ns' LN LNs IH]; intros [|l ls] h; cbn [TupleFromColumn]; try apply kept_refl. specialize (IH LNs ls h).
      destruct (TupleFromColumn Ns' ls h) as [[xs|e] h1]; cbn in *; [|done]. eapply kept_trans; [exact IH|]. pose proof (wrap_kept N LN). kept. }
    unfold new_tuple. destruct (h !! l) as [[]|]; kept.
  - intros h c l F v r c' Hr Hs E. destruct c as [| | | | | | | |cs names| |]; try done. apply repr_tuple in Hr as (ls & Hl & Hr).
    cbn [AppendH TupleH AppendValue hclass class TupleT] in E |- *. unfold TupleH_Append. rewrite Hl. unfold ColumnTupleT_Append in E.
    destruct (AppendTuple (map hclass Ns) v cs) as [r1 cs1] eqn:Ea. injection E as <- <-.
    destruct (append_tuple_ok h cs ls F v r1 cs1 Hr Hs Ea) as (h1 & E1 & T1 & R1 & S1). exists h1. split_and!; try done. apply repr_tuple. exists ls.
    split; [by eapply kept_pointer; [exact (proj1 T1)|exact Hl|done]|done].
  - intros v l h. cbn. unfold TupleH_Append. destruct (h !! l) as [[| | |ls names|]|]; try apply kept_refl. revert v ls h.
    induction Ls as [|N Ns' LN LNs IH]; intros v ls h; cbn [AppendTupleH]; [apply kept_refl|]. destruct v as [v vs]. destruct ls as [|x ls]; [apply kept_refl|].
    apply bind_kept; [intros h'; apply (IH LNs)|intros _ h'; apply (append_kept N LN)].
Qed.
End TupleLaws.

(** *** Maps *)
Section MapLaws.
Context (K V : HeapClass) (LK : HeapLaws K) (LV : HeapLaws V).

Lemma entriesH_laws : HeapLaws (entriesH K V).
Proof using LK LV. apply ArrayH_laws, TupleH_laws. apply Forall_cons_2; [done|]. apply Forall_cons_2; [done|apply Forall_nil_2]. Qed.

Lemma map_wrap (h : heap) (c : column) (l : loc) (F : gset loc) : repr h c l F -> wf_col c ->
  exists x h', MapH_Wrap K V l h = (Ok x, h') /\ extends h h' /\
    match x with Some l' => is_a (MapH K V) c = true /\ exists n, shares n h' l' l | None => is_a (MapH K V) c = false end.
Proof using LK LV.
  intros Hr Hw. unfold MapH_Wrap. destruct c as [| | | | | | | | |d|]; try (other_class h l Hr).
  destruct Hr as (ld & Hl & Hd). destruct Hw as (Hwd & _).
  destruct (wrap_law _ entriesH_laws h d ld F Hd Hwd) as (x & h1 & E & Hx & HP). rewrite Hl. unfold bind at 1. rewrite E.
  destruct x as [d'|]; [|by exists None, h1]. destruct HP as [Ha [n Hs]].
  destruct (make_shared_ok h1 (Some (MapT_name K V)) (OMap d')) as (l' & h2 & E2 & Hl' & Hx2). exists (Some l'), h2. split_and!; [|by eapply extends_trans|done|].
  - unfold bind. by rewrite E2.
  - exists (S n). right. rewrite Hl'. rewrite (Hx2 _ _ (Hx _ _ Hl)). by eapply shares_kept; [apply extends_kept|].
Qed.

Lemma MapH_laws : HeapLaws (MapH K V).
Proof using LK LV.
  pose proof entriesH_laws as L. split.
  - intros c Ha. destruct c; try done. by apply (shape_of_class _ L).
  - intros h c l F Hr Hs. destruct c as [| | | | | | | | |d|]; try done. destruct Hr as (ld & Hl & Hd). cbn [nesting MapH SizeH]. rewrite Hl.
    exact (size_law _ L h d ld F Hd Hs).
  - exact map_wrap.
  - intros l h. cbn. unfold MapH_Wrap. pose proof (wrap_kept _ L). destruct (h !! l) as [[]|]; kept.
  - intros h c l F v r c' Hr Hs E. destruct c as [| | | | | | | | |d|]; try done. destruct Hr as (ld & Hl & Hd).
    change (on_map (AppendValue (entriesH K V) v) (ColumnMap d) = (r, c')) in E. cbn [on_map] in E.
    destruct (AppendValue (entriesH K V) v d) as [r1 d1] eqn:Ea. injection E as <- <-.
    destruct (append_law _ L h d ld F v r1 d1 Hd Hs Ea) as (h1 & E1 & T1 & R1 & S1). exists h1. cbn [AppendH MapH]. unfold MapH_Append. rewrite Hl.
    split_and!; try done. exists ld. split; [by eapply kept_pointer; [exact (proj1 T1)|exact Hl|done]|done].
  - intros v l h. cbn [AppendH MapH]. unfold MapH_Append. destruct (h !! l) as [[]|]; try apply kept_refl. apply (append_kept _ L).
Qed.
End MapLaws.

(** *** The classes *)

Inductive heap_class : HeapClass -> Prop :=
| heap_leaf (name : bytes) (D : Described) : generated D -> leaf_class D -> heap_class (LeafH name D)
| heap_nullable (N : HeapClass) : heap_class N -> heap_class (NullableH N)
| heap_array (N : HeapClass) : heap_class N -> heap_class (ArrayH N)
| heap_tuple (Ns : list HeapClass) : Forall heap_class Ns -> heap_class (TupleH Ns)
| heap_map (K V : HeapClass) : heap_class K -> heap_class V -> heap_class (MapH K V).

Fixpoint heap_laws (C : HeapClass) (H : heap_class C) {struct H} : HeapLaws C.
Proof.
  destruct H as [name D _ HD|N HN|N HN|Ns HNs|K V HK HV].
  - by apply LeafH_laws.
  - apply NullableH_laws. by apply heap_laws.
  - apply ArrayH_laws. by apply heap_laws.
  - apply TupleH_laws. induction HNs as [|N Ns HN HNs IH]; [apply Forall_nil_2|]. apply Forall_cons_2; [by apply heap_laws|exact IH].
  - apply MapH_laws; by apply heap_laws.
Qed.

Lemma leaf_fixed : leaf_class FixedStringC.
Proof. split; [by intros []|]. intros v c Hc. destruct c; try done. cbn. unfold ColumnFixedString_Append. by case_match. Qed.

Lemma on_data_leaf {A : Type} (m : M column A) (c : column) : leaf c = true -> leaf (snd (on_data m c)) = true.
Proof. intros Hc. destruct c; try done. cbn. unfold on_data. by destruct (m _). Qed.

Lemma leaf_decimal : leaf_class DecimalC.
Proof.
  split; [by intros []|]. intros v c Hc. cbn. unfold ColumnDecimal_AppendInt128. destruct c; try done; cbn; repeat case_match; try done; by apply on_data_leaf.
Qed.

Lemma leaf_uuid : leaf_class UUIDC.
Proof. split; [by intros []|]. intros v c Hc. cbn. unfold ColumnUUID_Append. by apply on_data_leaf. Qed.

Lemma plain_leaf (code : Code.t) : Forall leaf_class (plain_classes code).
Proof.
  repeat (apply Forall_cons_2; [first [exact leaf_fixed|exact leaf_decimal|exact leaf_uuid|split; [by intros []|]; intros v c Hc; first [by apply on_data_leaf|by destruct c]]|]).
  apply Forall_nil_2.
Qed.

(** ** Proofs: Clear *)

Lemma ClearH_S (std_hash : bytes -> Z) (n : nat) (l : loc) (h : heap) : ClearH std_hash (S n) l h =
  match h !! l with
  | Some (OColumn _) => on_leaf l (fun c => match Clear std_hash c with Ok c => (Ok tt, c) | Throw e => (Throw e, c) end) h
  | Some (OArray data offsets) => (ClearH std_hash n offsets ;;; ClearH std_hash n data) h
  | Some (ONullable nested nulls) => (ClearH std_hash n nested ;;; ClearH std_hash n nulls) h
  | Some (OTuple ls _) => mapM_ (ClearH std_hash n) ls h
  | Some (OMap data) => ClearH std_hash n data h
  | None => (Throw Undefined, h)
  end.
Proof. done. Qed.

Lemma clear_leaf (std_hash : bytes -> Z) (c c' : column) : leaf c = true -> Clear std_hash c = Ok c' -> leaf c' = true.
Proof.
  destruct c; try done; cbn; intros _; try (by intros [= <-]).
  - destruct (Clear std_hash c); [|done]. by intros [= <-].
  - destruct (LowCardinality_Clear _ _ _); [|done]. by intros [= <-].
Qed.

Lemma clear_one (std_hash : bytes -> Z) (n : nat) (h : heap) (l : loc) (c c' : column) : h !! l = Some (OColumn c) -> Clear std_hash c = Ok c' ->
  ClearH std_hash (S n) l h = (Ok tt, <[l := OColumn c']> h) /\ touches {[l]} h (<[l := OColumn c']> h).
Proof.
  intros Hl Hc. rewrite ClearH_S, Hl. eapply on_leaf_ok; [exact Hl|]. by rewrite Hc.
Qed.

Lemma depth_pos (c : column) : (1 <= depth c)%nat.
Proof. destruct c; cbn; lia. Qed.

Lemma ClearH_ok (std_hash : bytes -> Z) (c : column) : forall n h l L c', repr h c l L -> (depth c <= n)%nat -> Clear std_hash c = Ok c' ->
  exists h', ClearH std_hash n l h = (Ok tt, h') /\ touches L h h' /\ repr h' c' l L.
Proof.
  induction c as [| | |m fixed|size|w ty data _|data os IH|nested nulls IH|cs names IH|data IH|d code index u _] using column_ind'; intros n h l L c' Hr Hn Hc;
    (destruct n as [|n]; [cbn in Hn; lia|]);
    try (apply repr_leaf in Hr as [Hl ->]; [|done]; destruct (clear_one std_hash n h l _ c' Hl Hc) as [E T]; eexists; split_and!; [exact E|exact T|];
         apply repr_leaf; [by eapply clear_leaf; [|exact Hc]|]; split; [apply lookup_insert_eq|done]).
  - destruct Hr as (ld & o & L' & Hl & Ho & Hno & -> & Hd). cbn [Clear] in Hc. destruct (Clear std_hash data) as [d1|] eqn:Ed; [|done]. injection Hc as <-.
    cbn [depth] in Hn. pose proof (depth_pos data). destruct n as [|n]; [lia|].
    destruct (clear_one std_hash n h o _ _ Ho eq_refl) as [E1 T1].
    destruct (IH (S n) (<[o := OColumn (ColumnVector Code.UInt64 [])]> h) ld L' d1) as (h2 & E2 & T2 & R2); [eapply repr_frame; [exact T1|set_solver|done]|lia|done|].
    exists h2. rewrite ClearH_S, Hl. unfold bind. rewrite E1, E2. pose proof T2 as [K2 F2]. split_and!; [done| |].
    + eapply touches_trans; [eapply touches_mono; [|exact T1]|eapply touches_mono; [|exact T2]]; set_solver.
    + exists ld, o, L'. split_and!; try done; [|rewrite F2 by done; apply lookup_insert_eq].
      eapply kept_pointer; [exact K2|eapply kept_pointer; [exact (proj1 T1)|exact Hl|done]|done].
  - destruct Hr as (ld & o & L' & Hl & Ho & Hno & -> & Hd). cbn [Clear] in Hc. destruct (Clear std_hash nested) as [d1|] eqn:Ed; [|done]. injection Hc as <-.
    cbn [depth] in Hn. pose proof (depth_pos nested). destruct n as [|n]; [lia|].
    destruct (IH (S n) h ld L' d1 Hd ltac:(lia) eq_refl) as (h1 & E1 & T1 & R1). pose proof T1 as [K1 F1].
    assert (h1 !! o = Some (OColumn (ColumnVector Code.UInt8 nulls))) as Ho1 by (by rewrite F1).
    destruct (clear_one std_hash n h1 o _ _ Ho1 eq_refl) as [E2 T2].
    eexists. rewrite ClearH_S, Hl. unfold bind. rewrite E1, E2. split_and!; [done| |].
    + eapply touches_trans; [eapply touches_mono; [|exact T1]|eapply touches_mono; [|exact T2]]; set_solver.
    + exists ld, o, L'. split_and!; try done; [|apply lookup_insert_eq|eapply repr_frame; [exact T2|set_solver|done]].
      eapply kept_pointer; [exact (proj1 T2)|eapply kept_pointer; [exact K1|exact Hl|done]|done].
  - apply repr_tuple in Hr as (ls & Hl & Hr). cbn [Clear] in Hc. destruct (mapR (Clear std_hash) cs) as [cs'|] eqn:Ec; [|done]. injection Hc as <-.
    cbn [depth] in Hn. assert (forall h ls L cs', reprs h cs ls L -> mapR (Clear std_hash) cs = Ok cs' -> (list_max (map depth cs) <= n)%nat ->
      exists h', mapM_ (ClearH std_hash n) ls h = (Ok tt, h') /\ touches L h h' /\ reprs h' cs' ls L) as Hall.
    { clear -IH. induction IH as [|c cs IHc _ IHcs]; intros h [|l ls] L cs' Hr Ec Hn; try done.
      - injection Ec as <-. exists h. split_and!; try done. apply touches_refl.
      - destruct Hr as (L1 & L2 & H1 & H2 & Hd & ->). cbn [mapR] in Ec. destruct (Clear std_hash c) as [c1|] eqn:E1; [|done]. cbn [rbind] in Ec.
        destruct (mapR (Clear std_hash) cs) as [cs1|] eqn:E2; [|done]. injection Ec as <-. cbn [map list_max foldr] in Hn.
        destruct (IHc n h l L1 c1 H1 ltac:(lia) eq_refl) as (h1 & Er1 & T1 & R1).
        destruct (IHcs h1 ls L2 cs1) as (h2 & Er2 & T2 & R2); [eapply reprs_frame; [exact T1|by symmetry|done]|done|unfold list_max; lia|].
        exists h2. cbn [mapM_]. unfold bind. rewrite Er1, Er2. split_and!; [done| |].
        + eapply touches_trans; [eapply touches_mono; [|exact T1]|eapply touches_mono; [|exact T2]]; set_solver.
        + exists L1, L2. split_and!; try done. by eapply repr_frame. }
    destruct (Hall h ls L cs' Hr Ec ltac:(lia)) as (h1 & E1 & T1 & R1). exists h1. rewrite ClearH_S, Hl. split_and!; try done.
    apply repr_tuple. exists ls. split; [by eapply kept_pointer; [exact (proj1 T1)|exact Hl|done]|done].
  - destruct Hr as (ld & Hl & Hd). cbn [Clear] in Hc. destruct (Clear std_hash data) as [d1|] eqn:Ed; [|done]. injection Hc as <-.
    destruct (IH n h ld L d1 Hd ltac:(cbn in Hn; lia) eq_refl) as (h1 & E1 & T1 & R1). exists h1. rewrite ClearH_S, Hl. split_and!; try done.
    exists ld. split; [by eapply kept_pointer; [exact (proj1 T1)|exact Hl|done]|done].
Qed.

Lemma ClearH_kept (std_hash : bytes -> Z) (n : nat) : forall l h, pointers_kept h (snd (ClearH std_hash n l h)).
Proof.
  induction n as [|n IH]; intros l h; [apply kept_refl|]. cbn [ClearH].
  assert (forall ls h, pointers_kept h (snd (mapM_ (ClearH std_hash n) ls h))) as Hall by (induction ls; cbn; kept).
  destruct (h !! l) as [[]|]; kept.
Qed.

(** ** Proofs: Swap *)

Lemma TypeH_ok (n : nat) : forall c h l L, repr h c l L -> (depth c <= n)%nat -> TypeH n l h = ColumnType c.
Proof.
  induction n as [|n IH]; intros c h l L Hr Hn; [pose proof (depth_pos c); lia|].
  destruct c as [| | |m fixed|size|w ty data|data os|nested nulls|cs names|data|d code index u]; try (destruct Hr as [Hl _]; cbn [TypeH]; by rewrite Hl); cbn [TypeH].
  - destruct Hr as (ld & o & L' & Hl & _ & _ & _ & Hd). cbn [ColumnType]. rewrite Hl. f_equal. eapply IH; [exact Hd|cbn in Hn; lia].
  - destruct Hr as (ld & o & L' & Hl & _ & _ & _ & Hd). cbn [ColumnType]. rewrite Hl. f_equal. eapply IH; [exact Hd|cbn in Hn; lia].
  - apply repr_tuple in Hr as (ls & Hl & Hr). cbn [ColumnType]. rewrite Hl. f_equal. cbn [depth] in Hn. clear Hl. revert ls L Hr Hn.
    induction cs as [|c cs IHcs]; intros [|x ls] L Hr Hn; try done. destruct Hr as (L1 & L2 & H1 & H2 & _). cbn [map list_max foldr] in *. f_equal.
    + eapply IH; [exact H1|lia].
    + eapply IHcs; [exact H2|unfold list_max; lia].
  - destruct Hr as (ld & Hl & Hd). rewrite Hl. pose proof (repr_kind _ _ _ _ Hd) as Hk. destruct (h !! ld) as [[x|t o| | |]|] eqn:El; try done;
      try (destruct Hk as (? & ->); done); try (destruct Hk as (? & ? & ->); done); try (destruct Hk as [-> Hk]; by destruct data).
    destruct Hk as (d & os & ->). destruct Hd as (t' & o' & L' & Ht & _ & _ & _ & Hd). rewrite El in Ht. injection Ht as <- <-.
    pose proof (repr_kind _ _ _ _ Hd) as Hk. destruct (h !! t) as [[x| | |ls names|]|] eqn:Et; try done;
      try (destruct Hk as (? & ->); done); try (destruct Hk as (? & ? & ->); done); try (destruct Hk as [-> Hk]; by destruct d).
    destruct Hk as (cs & ->). apply repr_tuple in Hd as (ls' & El' & Hd). rewrite Et in El'. injection El' as <-.
    destruct ls as [|k [|v [|? ?]]]; destruct cs as [|ck [|cv [|? ?]]]; try done; try (by destruct Hd as (? & ? & _ & Hd & _));
      try (by destruct Hd as (? & ? & _ & (? & ? & _ & Hd & _) & _)).
    destruct Hd as (L1 & L2 & H1 & (L3 & L4 & H2 & _) & _). cbn [ColumnType]. cbn [depth map list_max foldr] in Hn. f_equal; (eapply IH; [eassumption|lia]).
Qed.

Lemma swap_leaves_ok (h : heap) (l l' : loc) (a b a' b' : column) (r : result unit) : h !! l = Some (OColumn a) -> h !! l' = Some (OColumn b) -> l <> l' ->
  Swap (leaf_classes l) (leaf_classes l') a b = (r, (a', b')) -> exists h', swap_leaves l l' h = (r, h') /\ touches ({[l]} ∪ {[l']}) h h' /\
    h' !! l = Some (OColumn a') /\ h' !! l' = Some (OColumn b').
Proof.
  intros Hl Hl' Hne E. unfold swap_leaves. rewrite Hl, Hl', E. eexists. split; [reflexivity|]. split_and!.
  - split.
    + eapply kept_trans; [by eapply kept_insert|]. apply (kept_insert _ l a). by rewrite lookup_insert_ne.
    + intros k Hk. rewrite !lookup_insert_ne; [done| |]; intros <-; apply Hk; [apply elem_of_union_r|apply elem_of_union_l]; by apply elem_of_singleton.
  - apply lookup_insert_eq.
  - rewrite lookup_insert_ne by done. apply lookup_insert_eq.
Qed.

Lemma swap_leaf (k k' : classes) (a b a' b' : column) (r : result unit) : leaf a = true -> leaf b = true -> Swap k k' a b = (r, (a', b')) ->
  leaf a' = true /\ leaf b' = true.
Proof.
  intros Ha Hb. destruct a; try done; destruct b; try done; cbn [Swap]; unfold bad_cast, swapped; (destruct (negb _); [by intros [= <- <- <-]|]);
    try (by intros [= <- <- <-]); try (case_bool_decide; by intros [= <- <- <-]).
  - unfold ColumnFixedString_Swap, swapped. case_match; by intros [= <- <- <-].
  - case_bool_decide; [|by intros [= <- <- <-]]. unfold ColumnWrap_Swap, swapped. case_match; by intros [= <- <- <-].
  - unfold ColumnLowCardinality_Swap, swapped. destruct (IsEqual _ _) as [[]|]; try (by intros [= <- <- <-]).
    destruct (Swap _ _ a b) as [[] [? ?]]; by intros [= <- <- <-].
Qed.

(** Classes do not change, whatever happens to the data. *)
Lemma ClassesH_kept (h h' : heap) : pointers_kept h h' -> forall n c l L, repr h c l L -> ClassesH n l h' = ClassesH n l h.
Proof.
  intros K. induction n as [|n IH]; intros c l L Hr; [done|]. cbn [ClassesH].
  destruct c as [| | | | | | | |cs names| |]; try (destruct Hr as [Hl _]; destruct (K l _ Hl) as [c' Hl']; by rewrite Hl, Hl').
  - destruct Hr as (ld & o & L' & Hl & _ & _ & _ & Hd). rewrite (kept_pointer _ _ _ _ K Hl ltac:(done)), Hl. do 2 f_equal. by eapply IH.
  - destruct Hr as (ld & o & L' & Hl & _ & _ & _ & Hd). rewrite (kept_pointer _ _ _ _ K Hl ltac:(done)), Hl. do 2 f_equal. by eapply IH.
  - apply repr_tuple in Hr as (ls & Hl & Hr). rewrite (kept_pointer _ _ _ _ K Hl ltac:(done)), Hl. f_equal. clear Hl. revert ls L Hr.
    induction cs as [|c cs IHcs]; intros [|x ls] L Hr; try done. destruct Hr as (L1 & L2 & H1 & H2 & _). cbn [map]. f_equal; [by eapply IH|by eapply IHcs].
  - destruct Hr as (ld & Hl & Hd). rewrite (kept_pointer _ _ _ _ K Hl ltac:(done)), Hl. do 2 f_equal. by eapply IH.
Qed.

Lemma ClassesH_all (h h' : heap) (K : pointers_kept h h') (n : nat) (cs : list column) : forall ls L, reprs h cs ls L ->
  map (fun l => ClassesH n l h') ls = map (fun l => ClassesH n l h) ls.
Proof.
  induction cs as [|c cs IH]; intros [|l ls] L Hr; try done. destruct Hr as (L1 & L2 & H1 & H2 & _). cbn [map].
  f_equal; [by eapply ClassesH_kept|by eapply IH].
Qed.

Lemma SwapH_S (n : nat) (l l' : loc) (h : heap) : SwapH (S n) l l' h =
  match h !! l, h !! l' with
  | Some (OColumn _), Some (OColumn _) => swap_leaves l l' h
  | Some o, Some o' =>
    if negb (casts_to l l') then (Throw BadCast, h) else
    match o, o' with
    | OArray d o, OArray d' o' => (SwapH n d d' ;;; swap_leaves o o') h
    | ONullable d u, ONullable d' u' => (check_types n d d' ;;; SwapH n d d' ;;; swap_leaves u u') h
    | OTuple ls _, OTuple ls' _ =>
      (if negb (length ls =? length ls')%nat then throw ValidationError
       else for_both (check_types n) ls ls' ;;; for_both (SwapH n) ls ls') h
    | OMap d, OMap d' => SwapH n d d' h
    | _, _ => (Throw BadCast, h)
    end
  | _, _ => (Throw Undefined, h)
  end.
Proof. done. Qed.

(** What [SwapH n] does to the objects of [a] and [b]. *)
Definition swaps (n : nat) (a b : column) : Prop := forall h l l' F F' r a' b', repr h a l F -> repr h b l' F' -> F ## F' ->
  Swap (ClassesH n l h) (ClassesH n l' h) a b = (r, (a', b')) ->
  exists h', SwapH n l l' h = (r, h') /\ touches (F ∪ F') h h' /\ repr h' a' l F /\ repr h' b' l' F'.

Lemma swaps_parts (n : nat) (d d' : column) (h : heap) (ld ld' o o' : loc) (F F' : gset loc) (x x' : column) r d1 d1' : swaps n d d' ->
  repr h d ld F -> repr h d' ld' F' -> h !! o = Some (OColumn x) -> h !! o' = Some (OColumn x') -> o ∉ F -> o' ∉ F' ->
  {[o]} ∪ F ## {[o']} ∪ F' -> Swap (ClassesH n ld h) (ClassesH n ld' h) d d' = (r, (d1, d1')) ->
  Swap (leaf_classes o) (leaf_classes o') x x' = (Ok tt, (x', x)) ->
  exists h', (SwapH n ld ld' ;;; swap_leaves o o') h = (r, h') /\ touches (({[o]} ∪ F) ∪ ({[o']} ∪ F')) h h' /\
    repr h' d1 ld F /\ repr h' d1' ld' F' /\
    h' !! o = Some (OColumn (match r with Ok _ => x' | Throw _ => x end)) /\ h' !! o' = Some (OColumn (match r with Ok _ => x | Throw _ => x' end)).
Proof.
  intros IH Hd Hd' Ho Ho' Hn Hn' Hdis E Ex. destruct (IH h ld ld' F F' r d1 d1' Hd Hd' ltac:(set_solver) E) as (h1 & E1 & T1 & R1 & R1').
  pose proof T1 as [K1 F1]. assert (h1 !! o = Some (OColumn x)) as Ho1 by (rewrite F1; [done|set_solver]).
  assert (h1 !! o' = Some (OColumn x')) as Ho1' by (rewrite F1; [done|set_solver]). unfold bind. rewrite E1. destruct r as [[]|e].
  - destruct (swap_leaves_ok h1 o o' x x' x' x (Ok tt) Ho1 Ho1') as (h2 & E2 & T2 & H2 & H2'); [set_solver|done|].
    exists h2. split_and!; try done.
    + eapply touches_trans; [eapply touches_mono; [|exact T1]|eapply touches_mono; [|exact T2]]; set_solver.
    + eapply repr_frame; [exact T2|set_solver|done].
    + eapply repr_frame; [exact T2|set_solver|done].
  - exists h1. split_and!; try done. eapply touches_mono; [|exact T1]. set_solver.
Qed.

(** A failed cast, on objects as on values. *)
Lemma swap_refused_ok (a b a' b' : column) (h : heap) (l l' : loc) (F F' : gset loc) (r : result unit) (e : exn) : repr h a l F -> repr h b l' F' ->
  (Throw e, (a, b)) = (r, (a', b')) ->
  exists h', (Throw e, h) = (r, h') /\ touches (F ∪ F') h h' /\ repr h' a' l F /\ repr h' b' l' F'.
Proof. intros Hr Hr' [= <- <- <-]. exists h. by split_and!; [|apply touches_refl|..]. Qed.

(** The cast of a composite object is the cast of its class. *)
Lemma casts_composite (n : nat) (l l' : loc) (h : heap) (o o' : obj) : h !! l = Some o -> h !! l' = Some o' ->
  (forall c, o <> OColumn c) -> (forall c, o' <> OColumn c) -> same_template (ClassesH (S n) l h) (ClassesH (S n) l' h) = casts_to l l'.
Proof. intros Hl Hl' Ho Ho'. cbn [ClassesH]. rewrite Hl, Hl'. destruct o; [by destruct (Ho c)|..]; destruct o'; try done; by destruct (Ho' c). Qed.

Lemma swaps_array (n : nat) (d d' : column) (os os' : list Z) : swaps n d d' -> swaps (S n) (ColumnArray d os) (ColumnArray d' os').
Proof.
  intros IH h l l' F F' r a' b' Hr Hr' Hdis E. pose proof Hr as (ld & o & G & Hl & Ho & Hn & -> & Hd). pose proof Hr' as (ld' & o' & G' & Hl' & Ho' & Hn' & -> & Hd').
  rewrite SwapH_S, Hl, Hl'. cbn [Swap] in E. rewrite (casts_composite n l l' h _ _ Hl Hl') in E by done.
  destruct (casts_to l l'); cbn [negb] in E |- *; [|by eapply swap_refused_ok].
  cbn [ClassesH] in E. rewrite Hl, Hl' in E. unfold ColumnArray_Swap, part in E. cbn [parts hd] in E.
  destruct (Swap _ _ d d') as [r1 [d1 d1']] eqn:Ed.
  destruct (swaps_parts n d d' h ld ld' o o' G G' _ _ r1 d1 d1' IH Hd Hd' Ho Ho' Hn Hn' Hdis Ed eq_refl) as (h2 & E2 & T2 & R2 & R2' & H2 & H2').
  exists h2. rewrite E2. pose proof (kept_pointer _ _ _ _ (proj1 T2) Hl ltac:(done)). pose proof (kept_pointer _ _ _ _ (proj1 T2) Hl' ltac:(done)).
  destruct r1 as [[]|e]; injection E as <- <- <-; (split_and!; [done|done| |]); [exists ld, o, G|exists ld', o', G'|exists ld, o, G|exists ld', o', G']; by split_and!.
Qed.

Lemma check_types_ok (n : nat) (d d' : column) (h : heap) (l l' : loc) (F F' : gset loc) : repr h d l F -> repr h d' l' F' -> (depth d <= n)%nat -> (depth d' <= n)%nat ->
  check_types n l l' h = match IsEqual (ColumnType d) (ColumnType d') with Ok true => (Ok tt, h) | Ok false => (Throw ValidationError, h) | Throw e => (Throw e, h) end.
Proof.
  intros Hr Hr' Hn Hn'. unfold check_types, bind, get, lift_result. rewrite (TypeH_ok n d h l F Hr Hn), (TypeH_ok n d' h l' F' Hr' Hn').
  by destruct (IsEqual (ColumnType d) (ColumnType d')) as [[]|].
Qed.

Lemma swaps_nullable (n : nat) (d d' : column) (us us' : list Z) : (depth d <= n)%nat -> (depth d' <= n)%nat -> swaps n d d' ->
  swaps (S n) (ColumnNullable d us) (ColumnNullable d' us').
Proof.
  intros Hn1 Hn2 IH h l l' F F' r a' b' Hr Hr' Hdis E. pose proof Hr as (ld & o & G & Hl & Ho & Hn & -> & Hd).
  pose proof Hr' as (ld' & o' & G' & Hl' & Ho' & Hn' & -> & Hd').
  rewrite SwapH_S, Hl, Hl'. cbn [Swap] in E. rewrite (casts_composite n l l' h _ _ Hl Hl') in E by done.
  destruct (casts_to l l'); cbn [negb] in E |- *; [|by eapply swap_refused_ok].
  unfold bind at 1. rewrite (check_types_ok n d d' h ld ld' G G' Hd Hd' Hn1 Hn2).
  unfold ColumnNullable_Swap in E. destruct (IsEqual (ColumnType d) (ColumnType d')) as [[|]|e]; [|by eapply swap_refused_ok..].
  cbn [ClassesH] in E. rewrite Hl, Hl' in E. unfold part in E. cbn [parts hd] in E.
  destruct (Swap _ _ d d') as [r1 [d1 d1']] eqn:Ed.
  destruct (swaps_parts n d d' h ld ld' o o' G G' _ _ r1 d1 d1' IH Hd Hd' Ho Ho' Hn Hn' Hdis Ed eq_refl) as (h2 & E2 & T2 & R2 & R2' & H2 & H2').
  exists h2. rewrite E2. pose proof (kept_pointer _ _ _ _ (proj1 T2) Hl ltac:(done)). pose proof (kept_pointer _ _ _ _ (proj1 T2) Hl' ltac:(done)).
  destruct r1 as [[]|e]; injection E as <- <- <-; (split_and!; [done|done| |]); [exists ld, o, G|exists ld', o', G'|exists ld, o, G|exists ld', o', G']; by split_and!.
Qed.

Lemma check_all (n : nat) (cs : list column) : forall cs' h ls ls' F F', reprs h cs ls F -> reprs h cs' ls' F' -> Forall (fun c => (depth c <= n)%nat) cs ->
  Forall (fun c => (depth c <= n)%nat) cs' -> for_both (check_types n) ls ls' h = (check_elements cs cs', h).
Proof.
  induction cs as [|c cs IH]; intros [|c' cs'] h [|l ls] [|l' ls'] F F' Hr Hr' Hn Hn'; try done.
  destruct Hr as (F1 & F2 & H1 & H2 & _). destruct Hr' as (F1' & F2' & H1' & H2' & _). apply Forall_cons_1 in Hn as [Hn1 Hn2]. apply Forall_cons_1 in Hn' as [Hn1' Hn2'].
  cbn [for_both check_elements]. unfold bind. rewrite (check_types_ok n c c' h l l' F1 F1') by done.
  destruct (IsEqual (ColumnType c) (ColumnType c')) as [[]|]; [|done|done]. cbn [rbind]. by eapply IH.
Qed.

Lemma swap_all (n : nat) (cs : list column) : Forall (fun c => forall c', (depth c' <= n)%nat -> swaps n c c') cs ->
  forall cs' h ls ls' F F' r ds ds', reprs h cs ls F -> reprs h cs' ls' F' -> F ## F' -> Forall (fun c => (depth c <= n)%nat) cs' ->
  swap_elements Swap (map (fun l => ClassesH n l h) ls) (map (fun l => ClassesH n l h) ls') cs cs' = (r, (ds, ds')) ->
  exists h', for_both (SwapH n) ls ls' h = (r, h') /\ touches (F ∪ F') h h' /\ reprs h' ds ls F /\ reprs h' ds' ls' F'.
Proof.
  induction 1 as [|c cs Hc _ IH]; intros cs' h ls ls' F F' r ds ds' Hr Hr' Hdis Hn E.
  - destruct ls; [|done]. cbn in E. injection E as <- <- <-. exists h. destruct ls'; (split_and!; [done|apply touches_refl|done|done]).
  - destruct ls as [|l ls]; [done|]. destruct cs' as [|c' cs']; destruct ls' as [|l' ls']; try done.
    { cbn in E. injection E as <- <- <-. exists h. split_and!; [done|apply touches_refl|done|done]. }
    destruct Hr as (F1 & F2 & H1 & H2 & Hd & ->). destruct Hr' as (F1' & F2' & H1' & H2' & Hd' & ->). apply Forall_cons_1 in Hn as [Hn1 Hn2].
    cbn [for_both swap_elements map hd tl] in E |- *. destruct (Swap _ _ c c') as [r1 [d d']] eqn:Es.
    destruct (Hc c' Hn1 h l l' F1 F1' r1 d d' H1 H1' ltac:(set_solver) Es) as (h1 & E1 & T1 & R1 & R1'). unfold bind. rewrite E1.
    assert (reprs h1 cs ls F2) as Q by (eapply reprs_frame; [exact T1|set_solver|done]).
    assert (reprs h1 cs' ls' F2') as Q' by (eapply reprs_frame; [exact T1|set_solver|done]). destruct r1 as [[]|e].
    + fold (swap_elements Swap) in E. rewrite <- (ClassesH_all h h1 (proj1 T1) n cs ls F2 H2), <- (ClassesH_all h h1 (proj1 T1) n cs' ls' F2' H2') in E.
      destruct (swap_elements Swap _ _ cs cs') as [r2 [es es']] eqn:Ee. injection E as <- <- <-.
      destruct (IH cs' h1 ls ls' F2 F2' r2 es es' Q Q' ltac:(set_solver) Hn2 Ee) as (h2 & E2 & T2 & R2 & R2'). exists h2. split_and!; [done| | |].
      * eapply touches_trans; [eapply touches_mono; [|exact T1]|eapply touches_mono; [|exact T2]]; set_solver.
      * exists F1, F2. split_and!; try done. eapply repr_frame; [exact T2|set_solver|done].
      * exists F1', F2'. split_and!; try done. eapply repr_frame; [exact T2|set_solver|done].
    + injection E as <- <- <-. exists h1. split_and!; [done|eapply touches_mono; [|exact T1]; set_solver| |]; [by exists F1, F2|by exists F1', F2'].
Qed.

Lemma swaps_tuple (n : nat) (cs cs' : list column) (names names' : list bytes) : Forall (fun c => (depth c <= n)%nat) cs -> Forall (fun c => (depth c <= n)%nat) cs' ->
  Forall (fun c => forall c', (depth c' <= n)%nat -> swaps n c c') cs -> swaps (S n) (ColumnTuple cs names) (ColumnTuple cs' names').
Proof.
  intros Hn Hn' IH h l l' F F' r a' b' Hr Hr' Hdis E. pose proof Hr as Hr0. pose proof Hr' as Hr0'.
  apply repr_tuple in Hr as (ls & Hl & Hr). apply repr_tuple in Hr' as (ls' & Hl' & Hr').
  rewrite SwapH_S, Hl, Hl'. cbn [Swap] in E. rewrite (casts_composite n l l' h _ _ Hl Hl') in E by done.
  destruct (casts_to l l'); cbn [negb] in E |- *; [|by eapply swap_refused_ok].
  rewrite (reprs_length h cs ls F Hr), (reprs_length h cs' ls' F' Hr'). unfold ColumnTuple_Swap in E.
  destruct (negb _); [by eapply swap_refused_ok|]. unfold bind. rewrite (check_all n cs cs' h ls ls' F F' Hr Hr' Hn Hn').
  destruct (check_elements cs cs') as [[]|e]; [|by eapply swap_refused_ok].
  cbn [ClassesH] in E. rewrite Hl, Hl' in E. cbn [parts] in E. destruct (swap_elements Swap _ _ cs cs') as [r1 [ds ds']] eqn:Ee. injection E as <- <- <-.
  destruct (swap_all n cs IH cs' h ls ls' F F' r1 ds ds' Hr Hr' Hdis Hn' Ee) as (h1 & E1 & T1 & R1 & R1'). exists h1. rewrite E1.
  split_and!; [done|done| |]; apply repr_tuple; eexists; (split; [|eassumption]); eapply kept_pointer; [exact (proj1 T1)|exact Hl|done|exact (proj1 T1)|exact Hl'|done].
Qed.

(** Columns of different kinds are refused. *)
Definition same_kind (a b : column) : bool :=
  match a, b with
  | ColumnArray _ _, ColumnArray _ _ | ColumnNullable _ _, ColumnNullable _ _ | ColumnTuple _ _, ColumnTuple _ _ | ColumnMap _, ColumnMap _ => true
  | _, _ => leaf a && leaf b
  end.

Lemma swap_kinds (k k' : classes) (a b : column) : same_kind a b = false -> Swap k k' a b = bad_cast a b.
Proof. destruct a, b; try done; intros _; cbn [Swap]; by destruct (negb _). Qed.

Lemma SwapH_kinds (n : nat) (a b : column) (h : heap) (l l' : loc) (F F' : gset loc) : repr h a l F -> repr h b l' F' -> same_kind a b = false ->
  SwapH (S n) l l' h = (Throw BadCast, h).
Proof.
  intros Hr Hr' Hk. apply repr_kind in Hr, Hr'. rewrite SwapH_S.
  destruct (h !! l) as [[]|]; try done; destruct (h !! l') as [[]|]; try done; try (by destruct (negb _));
    repeat match goal with
    | H : _ /\ _ |- _ => destruct H as [-> H]
    | H : exists _, _ |- _ => destruct H as [? H]
    | H : _ = ColumnArray _ _ |- _ => rewrite H in Hk; clear H
    | H : _ = ColumnNullable _ _ |- _ => rewrite H in Hk; clear H
    | H : _ = ColumnTuple _ _ |- _ => rewrite H in Hk; clear H
    | H : _ = ColumnMap _ |- _ => rewrite H in Hk; clear H
    end; try done.
  destruct a; try done; destruct b; done.
Qed.

Lemma SwapH_ok (n : nat) : forall a b, (depth a <= n)%nat -> (depth b <= n)%nat -> swaps n a b.
Proof.
  induction n as [|n IH]; intros a b Ha Hb; [pose proof (depth_pos a); lia|].
  destruct (same_kind a b) eqn:Hk.
  2: { intros h l l' F F' r a' b' Hr Hr' Hdis E. rewrite (swap_kinds _ _ a b Hk) in E. rewrite (SwapH_kinds n a b h l l' F F' Hr Hr' Hk).
       by eapply swap_refused_ok. }
  destruct (leaf a && leaf b) eqn:Hlf.
  - apply andb_prop in Hlf as [La Lb].
    intros h l l' F F' r a' b' Hr Hr' Hdis E. apply repr_leaf in Hr as [Hl ->]; [|done]. apply repr_leaf in Hr' as [Hl' ->]; [|done].
    cbn [ClassesH] in E. rewrite Hl, Hl' in E. destruct (swap_leaf _ _ a b a' b' r La Lb E) as [La' Lb'].
    destruct (swap_leaves_ok h l l' a b a' b' r Hl Hl') as (h1 & E1 & T1 & H1 & H1'); [set_solver|done|].
    exists h1. rewrite SwapH_S, Hl, Hl'. split_and!; [done|done| |]; apply repr_leaf; done.
  - destruct a as [| | | | | |d os|d us|cs names|d|], b as [| | | | | |d' os'|d' us'|cs' names'|d'|]; try done; cbn [depth] in Ha, Hb.
    + apply swaps_array, IH; lia.
    + apply swaps_nullable; [lia|lia|apply IH; lia].
    + apply swaps_tuple; [apply list_max_Forall; lia|apply list_max_Forall; lia|]. eapply Forall_impl; [apply (list_max_Forall depth cs n); lia|].
      intros c Hc c' Hc'. by apply IH.
    + intros h l l' F F' r a' b' Hr Hr' Hdis E. pose proof Hr as (ld & Hl & Hd). pose proof Hr' as (ld' & Hl' & Hd').
      rewrite SwapH_S, Hl, Hl'. cbn [Swap] in E. rewrite (casts_composite n l l' h _ _ Hl Hl') in E by done.
      destruct (casts_to l l'); cbn [negb] in E |- *; [|by eapply swap_refused_ok].
      cbn [ClassesH] in E. rewrite Hl, Hl' in E. unfold ColumnMap_Swap, part in E. cbn [parts hd] in E.
      destruct (Swap _ _ d d') as [r1 [d1 d1']] eqn:Ed. injection E as <- <- <-.
      destruct (IH d d' ltac:(lia) ltac:(lia) h ld ld' F F' r1 d1 d1' Hd Hd' Hdis Ed) as (h1 & E1 & T1 & R1 & R1').
      exists h1. split_and!; [done|done| |]; [exists ld|exists ld']; (split; [|done]);
        (eapply kept_pointer; [exact (proj1 T1)|eassumption|done]).
Qed.

Lemma swap_leaves_kept (l l' : loc) (h : heap) : pointers_kept h (snd (swap_leaves l l' h)).
Proof.
  unfold swap_leaves. destruct (h !! l) as [[a| | | |]|] eqn:El; try apply kept_refl. destruct (h !! l') as [[b| | | |]|] eqn:El'; try apply kept_refl.
  destruct (Swap _ _ a b) as [r [a' b']]. cbn. eapply kept_trans; [by eapply kept_insert|]. destruct (decide (l = l')) as [-> | Hne].
  - apply (kept_insert _ l' b'). apply lookup_insert_eq.
  - apply (kept_insert _ l a). by rewrite lookup_insert_ne.
Qed.
#[export] Hint Resolve swap_leaves_kept ClearH_kept : kept.

Lemma SwapH_kept (n : nat) : forall l l' h, pointers_kept h (snd (SwapH n l l' h)).
Proof.
  induction n as [|n IH]; intros l l' h; [apply kept_refl|]. rewrite SwapH_S.
  assert (forall m (l l' : loc) h, pointers_kept h (snd (check_types m l l' h))) as Hc by (intros; unfold check_types; kept).
  assert (forall f, (forall (l l' : loc) h, pointers_kept h (snd (f l l' h))) -> forall ls ls' h, pointers_kept h (snd (for_both f ls ls' h))) as Hb
    by (intros f Hf; induction ls; intros [|]; cbn; kept).
  destruct (h !! l) as [[]|]; destruct (h !! l') as [[]|]; kept.
Qed.
