(* ===== verification/SharedCalls.v ===== *)
(** * Calls on shared columns (clickhouse/columns/: [Append] of a column, [LoadPrefix], [LoadBody]; views stay coherent)

    The operations of Sharing.v go on here: a column is appended to another one and loaded from a stream through the objects
    it is made of.  Then the theorems: whatever is called, a column and a view that [Wrap] made of it stay the same column,
    and each operation does on the objects what it does on columns as values.

    A column that is read ([Append] of a column) is read through its pointers when the code reads it; [m] bounds that
    nesting.  The slices an array appends are objects of their own, which nothing points to afterwards. *)

From S2P Require Import Prelude Streams WireFormat CityHash Text Types Columns ColumnRows ColumnOps Swap Decimal Values Typed Sharing.

#[local] Set Warnings "-register-all,-clear-no-such-hyp".

(** ** Append of a column *)

Section AppendColumn.
Context (std_hash : bytes -> Z).

(** The column the object at [l] is. *)
Fixpoint column_at (m : nat) (l : loc) (h : heap) : option column :=
  match m with
  | O => None
  | S m =>
    match h !! l with
    | Some (OColumn c) => Some c
    | Some (OArray d o) =>
      match column_at m d h, fst (numbers o h) with Some d, Ok os => Some (ColumnArray d os) | _, _ => None end
    | Some (ONullable n u) =>
      match column_at m n h, fst (numbers u h) with Some n, Ok us => Some (ColumnNullable n us) | _, _ => None end
    | Some (OTuple ls names) =>
      match mapM (fun l => column_at m l h) ls with Some cs => Some (ColumnTuple cs names) | None => None end
    | Some (OMap d) => match column_at m d h with Some d => Some (ColumnMap d) | None => None end
    | None => None
    end
  end.

(** The objects of a new column, the slice of another one. *)
Fixpoint allocate (c : column) : M heap loc :=
  match c with
  | ColumnArray d os =>
    let* ld := allocate d in
    let* o := make_shared None (OColumn (ColumnVector Code.UInt64 os)) in
    make_shared None (OArray ld o)
  | ColumnNullable n us =>
    let* ln := allocate n in
    let* u := make_shared None (OColumn (ColumnVector Code.UInt8 us)) in
    make_shared None (ONullable ln u)
  | ColumnTuple cs names =>
    let* ls := (fix all (cs : list column) : M heap (list loc) :=
                  match cs with
                  | [] => ret []
                  | c :: cs => let* l := allocate c in let* ls := all cs in ret (l :: ls)
                  end) cs in
    make_shared None (OTuple ls names)
  | ColumnMap d => let* ld := allocate d in make_shared None (OMap ld)
  | _ => make_shared None (OColumn c)
  end.

(** A column that holds its data itself is appended to itself: [insert] of the elements of a vector into that vector is
    undefined, as is what a string column writes past its block; the loops over an array or a dictionary column never
    catch up with its size. *)
Fixpoint append_itself (c : column) : result unit * column :=
  match c with
  | ColumnFixedString n data => (Ok tt, ColumnFixedString n (data ++ data))
  | ColumnNothing size => (Ok tt, ColumnNothing (wrap 64 (size + size)))
  | ColumnString [] | ColumnArray _ [] | ColumnLowCardinality _ _ [] _ => (Ok tt, c)
  | ColumnArray _ _ | ColumnLowCardinality _ _ _ _ => (Throw Diverges, c)
  | ColumnWrap w ty data => let '(r, data) := append_itself data in (r, ColumnWrap w ty data)
  | _ => (Throw Undefined, c)
  end.

(** [Append] of the column at [src] to one that holds its data itself. *)
Definition AppendLeafH (m n : nat) (l src : loc) : M heap unit :=
  if decide (l = src) then on_leaf l append_itself
  else fun h => match column_at m src h with
                | Some s => on_leaf l (Append_ std_hash n s) h
                | None => (Throw Undefined, h)
                end.

(** [AddOffset] of an array with these offsets. *)
Definition AddOffsetH (offsets : loc) (n : Z) : M heap unit :=
  on_leaf offsets (fun c => match c with
                            | ColumnVector code os => (Ok tt, ColumnVector code (AddOffset os n))
                            | _ => (Throw Undefined, c)
                            end).

(** [ColumnArray::AppendAsColumn]; [append] is [Append] of the nested column. *)
Definition AppendAsColumnH (append : loc -> loc -> M heap unit) (m : nat) (data offsets array : loc) : M heap unit :=
  let* h := get in
  let* can := lift_result (CanAppendType (TypeH m data h) (TypeH m array h)) in
  if negb can then throw ValidationError
  else
    append data array ;;;
    let* h := get in
    let* size := lift_result (SizeH m array h) in
    AddOffsetH offsets size.

(** The loop of [ColumnArray::Append], from the row [i] on; the size of the source is asked for every time. *)
Fixpoint append_rowsH (append : loc -> loc -> M heap unit) (m : nat) (data offsets sdata soffsets : loc) (n : nat) (i : Z) : M heap unit :=
  let* sos := numbers soffsets in
  if zlen sos <=? i then ret tt
  else
    match n with
    | O => throw Diverges
    | S n =>
      let* h := get in
      match column_at m sdata h with
      | None => throw Undefined
      | Some sd =>
        let* slice := lift_result (GetAsColumn std_hash sd sos i) in
        let* array := allocate slice in
        AppendAsColumnH append m data offsets array ;;;
        append_rowsH append m data offsets sdata soffsets n (i + 1)
      end
    end.

(** The loop of [ColumnTuple::Append]. *)
Fixpoint append_columnsH (append : loc -> loc -> M heap unit) (ls ls' : list loc) : M heap unit :=
  match ls, ls' with
  | [], _ => ret tt
  | l :: ls, l' :: ls' => append l l' ;;; append_columnsH append ls ls'
  | _, [] => throw Undefined
  end.

(** [Append(src)], through the pointers.  A source of another class leaves a column of the nested classes alone. *)
Fixpoint AppendColumnH (m n : nat) (l src : loc) : M heap unit :=
  match n with
  | O => throw Diverges
  | S n' => fun h =>
    match h !! l with
    | Some (OColumn _) => AppendLeafH m n l src h
    | Some (OArray data offsets) =>
      match h !! src with
      | Some (OArray sdata soffsets) =>
        (let* sos := numbers soffsets in append_rowsH (AppendColumnH m n') m data offsets sdata soffsets (length sos) 0) h
      | _ => (Ok tt, h)
      end
    | Some (ONullable nested nulls) =>
      match h !! src with
      | Some (ONullable nested' nulls') =>
        (let* equal := lift_result (IsEqual (TypeH m nested' h) (TypeH m nested h)) in
         if equal : bool then AppendColumnH m n' nested nested' ;;; AppendLeafH m 1 nulls nulls' else ret tt) h
      | _ => (Ok tt, h)
      end
    | Some (OTuple ls _) =>
      (let* can := lift_result (CanAppendTupleType (TypeH m l h) (TypeH m src h)) in
       if negb can then throw ValidationError
       else match h !! src with
            | Some (OTuple ls' _) => append_columnsH (AppendColumnH m n') ls ls'
            | _ => throw Undefined
            end) h
    | Some (OMap data) =>
      match h !! src with
      | Some (OMap data') => AppendColumnH m n' data data' h
      | _ => (Ok tt, h)
      end
    | None => (Throw Undefined, h)
    end
  end.

(** [array->AppendAsColumn(src)]. *)
Definition ArrayH_AppendAsColumn (m n : nat) (l src : loc) : M heap unit :=
  fun h => match h !! l with
           | Some (OArray data offsets) => AppendAsColumnH (AppendColumnH m n) m data offsets src h
           | _ => (Throw Undefined, h)
           end.
End AppendColumn.

(** ** Loading *)

Section LoadColumn.
Context (std_hash : bytes -> Z) {I : Type} `{InputStream I}.

(** What an exception of the stream leaves of the contents of a column that holds its data itself. *)
Context (torn_by_load : column -> column).

(** Load a column that holds its data itself; [torn] is what an exception leaves of it. *)
Definition load_leaf (torn : column -> column) (l : loc) (load : column -> M I (bool * column)) : M (I * heap) bool :=
  fun '(s, h) =>
    match h !! l with
    | Some (OColumn c) =>
      match load c s with
      | (Ok (ok, c), s) => (Ok ok, (s, <[l := OColumn c]> h))
      | (Throw e, s) => (Throw e, (s, <[l := OColumn (torn c)]> h))
      end
    | _ => (Throw Undefined, (s, h))
    end.

Fixpoint load_allH (load : loc -> M (I * heap) bool) (ls : list loc) : M (I * heap) bool :=
  match ls with
  | [] => ret true
  | l :: ls => let* ok := load l in if ok : bool then load_allH load ls else ret false
  end.

(** [LoadPrefix(input, rows)], through the pointers. *)
Fixpoint LoadPrefixH (n : nat) (l : loc) (rows : Z) : M (I * heap) bool :=
  match n with
  | O => throw Diverges
  | S n => fun '(s, h) =>
    match h !! l with
    | Some (OColumn _) => load_leaf id l (fun c => LoadPrefix c rows) (s, h)
    | Some (OArray data _) => (if rows =? 0 then ret true else LoadPrefixH n data rows) (s, h)
    | Some (ONullable nested _) => LoadPrefixH n nested rows (s, h)
    | Some (OTuple ls _) => load_allH (fun l => LoadPrefixH n l rows) ls (s, h)
    | Some (OMap data) => LoadPrefixH n data rows (s, h)
    | None => (Throw Undefined, (s, h))
    end
  end.

(** [LoadBody(input, rows)], through the pointers. *)
Fixpoint LoadBodyH (n : nat) (l : loc) (rows : Z) : M (I * heap) bool :=
  match n with
  | O => throw Diverges
  | S n' => fun '(s, h) =>
    match h !! l with
    | Some (OColumn _) => load_leaf torn_by_load l (fun c => LoadBody_ std_hash n c rows) (s, h)
    | Some (OArray data offsets) =>
      (if rows =? 0 then ret true
       else
         let* ok := load_leaf torn_by_load offsets (fun c => LoadBody_ std_hash 1 c rows) in
         if negb ok then ret false
         else
           let* '(_, h) := get in
           let* nested_rows := lift_result (let! os := fst (numbers offsets h) in at_ os (rows - 1)) in
           if nested_rows =? 0 then ret true else LoadBodyH n' data nested_rows) (s, h)
    | Some (ONullable nested nulls) =>
      (let* ok := load_leaf torn_by_load nulls (fun c => LoadBody_ std_hash 1 c rows) in
       if negb ok then ret false else LoadBodyH n' nested rows) (s, h)
    | Some (OTuple ls _) => load_allH (fun l => LoadBodyH n' l rows) ls (s, h)
    | Some (OMap data) => LoadBodyH n' data rows (s, h)
    | None => (Throw Undefined, (s, h))
    end
  end.
End LoadColumn.

(** ** Proofs: reading and allocating *)

(** Existing objects keep their pointers, and only the data in [L] has changed; there may be new objects. *)
Definition grows (L : gset loc) (h h' : heap) : Prop :=
  pointers_kept h h' /\ forall l o, l ∉ L -> h !! l = Some o -> h' !! l = Some o.

Lemma heap_grows_refl (L : gset loc) (h : heap) : grows L h h.
Proof. split; [apply kept_refl|done]. Qed.

Lemma heap_grows_trans (L : gset loc) (h h1 h2 : heap) : grows L h h1 -> grows L h1 h2 -> grows L h h2.
Proof. intros [K1 G1] [K2 G2]. split; [by eapply kept_trans|]. intros l o Hl Ho. by apply G2, G1. Qed.

Lemma heap_grows_mono (L L' : gset loc) (h h' : heap) : L ⊆ L' -> grows L h h' -> grows L' h h'.
Proof. intros HL [K G]. split; [done|]. intros l o Hl. apply G. by intros Hin%HL. Qed.

Lemma touches_grows (L : gset loc) (h h' : heap) : touches L h h' -> grows L h h'.
Proof. intros [K T]. split; [done|]. intros l o Hl Ho. by rewrite T. Qed.

Lemma extends_grows (L : gset loc) (h h' : heap) : extends h h' -> grows L h h'.
Proof. intros E. split; [by apply extends_kept|]. intros l o _. apply E. Qed.

Lemma repr_grows (h h' : heap) (T : gset loc) (c : column) (l : loc) (L : gset loc) : grows T h h' -> L ## T -> repr h c l L -> repr h' c l L.
Proof. intros [K G] HL. apply repr_agree; [intros k o; by apply kept_pointer|]. intros k x Hk Hx. apply G; [|done]. intros Hin. by apply (HL k). Qed.

Lemma reprs_grows (h h' : heap) (T : gset loc) (cs : list column) : grows T h h' -> forall ls L, L ## T -> reprs h cs ls L -> reprs h' cs ls L.
Proof.
  intros Ht. induction cs as [|c cs IH]; intros [|l ls] L HL Hr; try done.
  destruct Hr as (L1 & L2 & H1 & H2 & Hd & ->). exists L1, L2. split_and!; try done; [eapply repr_grows|apply IH]; try done; set_solver.
Qed.

Lemma column_at_ok (c : column) : forall m h l L, repr h c l L -> (depth c <= m)%nat -> column_at m l h = Some c.
Proof.
  induction c as [| | |m fixed|size|w ty data _|data os IH|nested nulls IH|cs names IH|data IH|d code index u _] using column_ind'; intros n h l L Hr Hn;
    (destruct n as [|n]; [cbn in Hn; lia|]); try (destruct Hr as [Hl _]; cbn [column_at]; by rewrite Hl); cbn [depth] in Hn.
  - destruct Hr as (ld & o & L' & Hl & Ho & _ & _ & Hd). cbn [column_at]. by rewrite Hl, (IH n h ld L' Hd ltac:(lia)), (numbers_ok _ _ _ _ Ho).
  - destruct Hr as (ld & o & L' & Hl & Ho & _ & _ & Hd). cbn [column_at]. by rewrite Hl, (IH n h ld L' Hd ltac:(lia)), (numbers_ok _ _ _ _ Ho).
  - apply repr_tuple in Hr as (ls & Hl & Hr). cbn [column_at]. rewrite Hl. clear Hl.
    assert (mapM (fun l => column_at n l h) ls = Some cs) as ->; [|done]. assert (list_max (map depth cs) <= n)%nat as Hm by lia. clear Hn. revert ls L Hr Hm.
    induction IH as [|c cs IHc _ IHcs]; intros [|x ls] L Hr Hm; try done. destruct Hr as (L1 & L2 & H1 & H2 & _). cbn [map list_max foldr] in Hm.
    cbn [mapM]. rewrite (IHc n h x L1 H1 ltac:(lia)). cbn. rewrite (IHcs ls L2 H2) by (unfold list_max; lia). done.
  - destruct Hr as (ld & Hl & Hd). cbn [column_at]. by rewrite Hl, (IH n h ld L Hd ltac:(lia)).
Qed.

Lemma SizeH_ok (c : column) : forall m h l L, repr h c l L -> (depth c <= m)%nat -> SizeH m l h = Ok (Size c).
Proof.
  induction c as [| | |m fixed|size|w ty data _|data os IH|nested nulls IH|cs names IH|data IH|d code index u _] using column_ind'; intros n h l L Hr Hn;
    (destruct n as [|n]; [cbn in Hn; lia|]); try (destruct Hr as [Hl _]; cbn [SizeH]; by rewrite Hl); cbn [depth] in Hn.
  - destruct Hr as (ld & o & L' & Hl & Ho & _). cbn [SizeH]. rewrite Hl. pose proof (depth_pos data). destruct n as [|n]; [lia|]. cbn [SizeH]. by rewrite Ho.
  - destruct Hr as (ld & o & L' & Hl & Ho & _). cbn [SizeH]. rewrite Hl. pose proof (depth_pos nested). destruct n as [|n]; [lia|]. cbn [SizeH]. by rewrite Ho.
  - apply repr_tuple in Hr as (ls & Hl & Hr). cbn [SizeH]. rewrite Hl. destruct cs as [|c cs]; destruct ls as [|x ls]; try done.
    destruct Hr as (L1 & L2 & H1 & _). cbn [map list_max foldr] in Hn. apply Forall_cons_1 in IH as [IHc _]. apply (IHc n h x L1 H1). lia.
  - destruct Hr as (ld & Hl & Hd). cbn [SizeH]. rewrite Hl. apply (IH n h ld L Hd). lia.
Qed.

Lemma repr_in_heap (h : heap) (c : column) : forall l L, repr h c l L -> forall x, x ∈ L -> exists o, h !! x = Some o.
Proof.
  induction c as [| | |m fixed|size|w ty data _|data os IH|nested nulls IH|cs names IH|data IH|d code index u _] using column_ind'; intros l L Hr x Hx;
    try (destruct Hr as [Hl ->]; apply elem_of_singleton in Hx as ->; by eexists).
  - destruct Hr as (ld & o & L' & _ & Ho & _ & -> & Hd). apply elem_of_union in Hx as [->%elem_of_singleton|Hx]; [by eexists|by eapply IH].
  - destruct Hr as (ld & o & L' & _ & Ho & _ & -> & Hd). apply elem_of_union in Hx as [->%elem_of_singleton|Hx]; [by eexists|by eapply IH].
  - apply repr_tuple in Hr as (ls & _ & Hr). revert ls L Hr Hx. induction IH as [|c cs IHc _ IHcs]; intros [|y ls] L Hr Hx; try done.
    + cbn in Hr. subst L. by apply elem_of_empty in Hx.
    + destruct Hr as (L1 & L2 & H1 & H2 & _ & ->). apply elem_of_union in Hx as [Hx|Hx]; [by eapply IHc|by eapply IHcs].
  - destruct Hr as (ld & _ & Hd). by eapply IH.
Qed.

(** Locations that are not in use. *)
Definition unused (h : heap) (L : gset loc) : Prop := forall x, x ∈ L -> h !! x = None.

Lemma unused_disjoint (h : heap) (c : column) (l : loc) (L F : gset loc) : repr h c l L -> unused h F -> F ## L.
Proof. intros Hr Hu x Hx Hx'. destruct (repr_in_heap h c l L Hr x Hx') as [o Ho]. by rewrite (Hu x Hx) in Ho. Qed.

Lemma unused_extends (h h' : heap) (L : gset loc) : extends h h' -> unused h' L -> unused h L.
Proof. intros E Hu x Hx. specialize (Hu x Hx). destruct (h !! x) as [o|] eqn:Ex; [|done]. apply E in Ex. congruence. Qed.

(** A new object. *)
Lemma alloc_new (h : heap) (o : obj) : exists l h', make_shared None o h = (Ok l, h') /\ extends h h' /\ h' !! l = Some o /\ h !! l = None.
Proof. eexists _, _. split; [reflexivity|]. split; [apply alloc_extends|]. split; [apply lookup_insert_eq|apply new_loc_fresh]. Qed.

(** A new column of new objects. *)
Definition allocated (c : column) (h : heap) : Prop := exists l h' F, allocate c h = (Ok l, h') /\ extends h h' /\ repr h' c l F /\ unused h F.

Lemma allocated_leaf (c : column) (h : heap) : leaf c = true -> allocated c h.
Proof.
  intros Hc. destruct (alloc_new h (OColumn c)) as (l & h' & E & X & Hl & Hn). exists l, h', {[l]}. split_and!.
  - by destruct c.
  - done.
  - by apply repr_leaf.
  - by intros x ->%elem_of_singleton.
Qed.

(** A column, the vector beside it, and the object that points to both. *)
Lemma allocated_pair (d x : column) (h : heap) (mk : loc -> loc -> obj) : (forall h, allocated d h) ->
  exists ld o l h' F, (let* ld := allocate d in let* o := make_shared None (OColumn x) in make_shared None (mk ld o)) h = (Ok l, h') /\ extends h h' /\
    h' !! l = Some (mk ld o) /\ h' !! o = Some (OColumn x) /\ (o ∉ F) /\ repr h' d ld F /\ unused h ({[o]} ∪ F).
Proof.
  intros Hd. destruct (Hd h) as (ld & h1 & F & E1 & X1 & R1 & U1).
  destruct (alloc_new h1 (OColumn x)) as (o & h2 & E2 & X2 & Ho & No).
  destruct (alloc_new h2 (mk ld o)) as (l & h3 & E3 & X3 & Hl & Nl). exists ld, o, l, h3, F. split_and!.
  - unfold bind. by rewrite E1, E2, E3.
  - eapply extends_trans; [exact X1|]. by eapply extends_trans.
  - exact Hl.
  - by apply X3.
  - intros Hin. destruct (repr_in_heap h1 d ld F R1 o Hin) as [y Hy]. congruence.
  - eapply repr_extends; [exact X3|]. by eapply repr_extends.
  - intros y Hy. apply elem_of_union in Hy as [->%elem_of_singleton|Hy]; [|by apply U1].
    destruct (h !! o) as [y|] eqn:Ey; [|done]. apply X1 in Ey. congruence.
Qed.

Lemma allocate_ok (c : column) : forall h, allocated c h.
Proof.
  induction c as [| | |m fixed|size|w ty data _|data os IH|nested nulls IH|cs names IH|data IH|d code index u _] using column_ind'; intros h;
    try (by apply allocated_leaf).
  - destruct (allocated_pair data (ColumnVector Code.UInt64 os) h OArray IH) as (ld & o & l & h' & F & E & X & Hl & Ho & Hn & R & U).
    exists l, h', ({[o]} ∪ F). split_and!; try done. by exists ld, o, F.
  - destruct (allocated_pair nested (ColumnVector Code.UInt8 nulls) h ONullable IH) as (ld & o & l & h' & F & E & X & Hl & Ho & Hn & R & U).
    exists l, h', ({[o]} ∪ F). split_and!; try done. by exists ld, o, F.
  - set (all := fix all (cs : list column) : M heap (list loc) :=
        match cs with [] => ret [] | c :: cs => let* l := allocate c in let* ls := all cs in ret (l :: ls) end).
    assert (forall h0, exists ls h' F, all cs h0 = (Ok ls, h') /\ extends h0 h' /\ reprs h' cs ls F /\ unused h0 F) as Hall.
    { clear h. induction IH as [|c cs IHc _ IHcs]; intros h; [by exists [], h, ∅; split_and!; [|intros ? ?| |intros ? ?%elem_of_empty]|].
      destruct (IHc h) as (l & h1 & F1 & E1 & X1 & R1 & U1). destruct (IHcs h1) as (ls & h2 & F2 & E2 & X2 & R2 & U2).
      exists (l :: ls), h2, (F1 ∪ F2). split_and!.
      - cbn [all]. unfold bind. by rewrite E1, E2.
      - by eapply extends_trans.
      - exists F1, F2. split_and!; try done; [by eapply repr_extends|]. symmetry. by eapply unused_disjoint.
      - intros x Hx. apply elem_of_union in Hx as [Hx|Hx]; [by apply U1|by apply (unused_extends h h1 F2)]. }
    destruct (Hall h) as (ls & h1 & F & E1 & X1 & R1 & U1). destruct (alloc_new h1 (OTuple ls names)) as (l & h2 & E2 & X2 & Hl & Nl).
    exists l, h2, F. split_and!.
    + change (allocate (ColumnTuple cs names) h) with ((let* ls := all cs in make_shared None (OTuple ls names)) h). unfold bind. by rewrite E1, E2.
    + by eapply extends_trans.
    + apply repr_tuple. exists ls. split; [done|]. by eapply reprs_extends.
    + done.
  - destruct (IH h) as (ld & h1 & F & E1 & X1 & R1 & U1). destruct (alloc_new h1 (OMap ld)) as (l & h2 & E2 & X2 & Hl & Nl).
    exists l, h2, F. split_and!.
    + cbn [allocate]. unfold bind. by rewrite E1, E2.
    + by eapply extends_trans.
    + exists ld. split; [done|]. by eapply repr_extends.
    + done.
Qed.

Lemma allocate_kept (c : column) (h : heap) : pointers_kept h (snd (allocate c h)).
Proof. destruct (allocate_ok c h) as (l & h' & F & E & X & _). rewrite E. by apply extends_kept. Qed.
#[export] Hint Resolve allocate_kept : kept.

(** ** Proofs: Append of a column *)

Section AppendProofs.
Context (std_hash : bytes -> Z).

(** What [Append_ n] of [s] to [c] does to their objects, with enough fuel for reading. *)
Definition appends (n : nat) (c s : column) : Prop := forall h l k F G r c', repr h c l F -> repr h s k G -> F ## G ->
  Append_ std_hash n s c = (r, c') ->
  exists m0 h', (forall m, (m0 <= m)%nat -> AppendColumnH std_hash m n l k h = (r, h')) /\ grows F h h' /\ repr h' c' l F.

Lemma append_stays_leaf (n : nat) (s c : column) : leaf c = true -> leaf (snd (Append_ std_hash n s c)) = true.
Proof using Type.
  intros Hc. destruct n as [|n]; [exact Hc|]. destruct c as [| | |m fixed|size|w ty data| | | | |d code index u]; try done; cbn [Append_ snd].
  - destruct s as [code' data'| | | | | | | | | |]; try done. cbn. by case_bool_decide.
  - destruct s as [|code' e' data'| | | | | | | | |]; try done. cbn. by case_bool_decide.
  - by destruct s.
  - destruct s as [| | |m' data'| | | | | | |]; try done. cbn. by destruct (m =? m').
  - by destruct s.
  - unfold ColumnWrap_Append, ColumnBool_AppendUInt8. destruct s as [[]| | | | |w' ty' d'| | | | |]; try done; try (destruct w; try done; by destruct data).
    case_bool_decide; [|done]. by destruct (Append_ std_hash n d' data).
  - unfold ColumnLowCardinality_Append. destruct (rbind _ _) as [[]|]; [|done..]. by destruct (AppendItems _ _ _ _ _).
Qed.

(** A column that holds its data itself. *)
Lemma AppendLeafH_ok (n : nat) (h : heap) (c s : column) (l k : loc) (G : gset loc) r c' : h !! l = Some (OColumn c) -> leaf c = true -> repr h s k G ->
  l ∉ G -> Append_ std_hash n s c = (r, c') ->
  exists m0, (forall m, (m0 <= m)%nat -> AppendLeafH std_hash m n l k h = (r, <[l := OColumn c']> h)) /\ touches {[l]} h (<[l := OColumn c']> h) /\ leaf c' = true.
Proof using Type.
  intros Hl Hc Hs Hn E. exists (depth s). destruct (on_leaf_ok l (Append_ std_hash n s) h c c' r Hl E) as [E1 T1]. split_and!; [|done|].
  - intros m Hm. unfold AppendLeafH. rewrite decide_False.
    + by rewrite (column_at_ok s m h k G Hs Hm).
    + intros ->. pose proof (repr_kind h s k G Hs) as Hk. rewrite Hl in Hk. destruct Hk as [-> _]. apply repr_leaf in Hs as [_ ->]; [|done]. set_solver.
  - pose proof (append_stays_leaf n s c Hc) as H. by rewrite E in H.
Qed.

Lemma append_as_column_ok (n : nat) (d a d' : column) (h : heap) (ld la o : loc) (F G : gset loc) (os : list Z) (r : result unit) :
  appends n d a -> repr h d ld F -> repr h a la G -> h !! o = Some (OColumn (ColumnVector Code.UInt64 os)) -> o ∉ F -> {[o]} ∪ F ## G ->
  CanAppendType (ColumnType d) (ColumnType a) = Ok true -> Append_ std_hash n a d = (r, d') ->
  exists m0 h', (forall m, (m0 <= m)%nat -> AppendAsColumnH (AppendColumnH std_hash m n) m ld o la h = (r, h')) /\ grows ({[o]} ∪ F) h h' /\ repr h' d' ld F /\
    h' !! o = Some (OColumn (ColumnVector Code.UInt64 (match r with Ok _ => AddOffset os (Size a) | Throw _ => os end))).
Proof using Type.
  intros IH Hd Ha Ho Hn Hdis Hc E. destruct (IH h ld la F G r d' Hd Ha ltac:(set_solver) E) as (m0 & h1 & E1 & G1 & R1).
  pose proof (proj2 G1 o _ Hn Ho) as Ho1.
  assert (forall m, (max m0 (max (depth d) (depth a)) <= m)%nat -> AppendAsColumnH (AppendColumnH std_hash m n) m ld o la h =
    match r with Ok _ => AddOffsetH o (Size a) h1 | Throw e => (Throw e, h1) end) as Hrun.
  { intros m Hm. unfold AppendAsColumnH, bind, get, lift_result. rewrite (TypeH_ok m d h ld F Hd), (TypeH_ok m a h la G Ha) by lia.
    rewrite Hc. cbn [negb]. rewrite E1 by lia. destruct r as [[]|e]; [|done].
    rewrite (SizeH_ok a m h1 la G); [done| |lia]. eapply repr_grows; [exact G1|set_solver|done]. }
  exists (max m0 (max (depth d) (depth a))). destruct r as [[]|e].
  - edestruct (on_leaf_ok o (fun c => match c with
        | ColumnVector code os => (Ok tt, ColumnVector code (AddOffset os (Size a)))
        | _ => (Throw Undefined, c) end) h1) as [E2 T2]; [exact Ho1|reflexivity|].
    eexists. split; [intros m Hm; rewrite (Hrun m Hm); exact E2|]. split_and!.
    + eapply heap_grows_trans; [eapply heap_grows_mono; [|exact G1]|eapply heap_grows_mono; [|apply touches_grows, T2]]; set_solver.
    + eapply repr_frame; [exact T2|set_solver|done].
    + apply lookup_insert_eq.
  - exists h1. split; [exact Hrun|]. split_and!; [eapply heap_grows_mono; [|exact G1]; set_solver|done|done].
Qed.

(** The loop over the rows of the source. *)
Lemma append_rowsH_ok (n : nat) (sd : column) (sos : list Z) (sld so : loc) (SG : gset loc) : (forall c s, appends n c s) -> forall (j : nat) (i : Z) h d os ld o F r c',
  repr h d ld F -> h !! o = Some (OColumn (ColumnVector Code.UInt64 os)) -> o ∉ F ->
  repr h sd sld SG -> h !! so = Some (OColumn (ColumnVector Code.UInt64 sos)) -> {[o]} ∪ F ## {[so]} ∪ SG ->
  i + Z.of_nat j = zlen sos -> append_rows std_hash (Append_ std_hash n) sd sos j i d os = (r, c') ->
  exists m0 h' d' os', (forall m, (m0 <= m)%nat -> append_rowsH std_hash (AppendColumnH std_hash m n) m ld o sld so j i h = (r, h')) /\
    grows ({[o]} ∪ F) h h' /\ c' = ColumnArray d' os' /\ repr h' d' ld F /\ h' !! o = Some (OColumn (ColumnVector Code.UInt64 os')).
Proof using Type.
  intros IH. induction j as [|j IHj]; intros i h d os ld o F r c' Hd Ho Hn Hs Hso Hdis Hi E.
  - injection E as <- <-. exists O, h, d, os. split_and!; try done; [|apply heap_grows_refl]. intros m _. cbn [append_rowsH]. unfold bind.
    rewrite (numbers_ok _ _ _ _ Hso). by rewrite (proj2 (Z.leb_le _ _)) by lia.
  - cbn [append_rows] in E.
    assert (forall m, (depth sd <= m)%nat -> append_rowsH std_hash (AppendColumnH std_hash m n) m ld o sld so (S j) i h =
      (let* slice := lift_result (GetAsColumn std_hash sd sos i) in
       let* array := allocate slice in
       AppendAsColumnH (AppendColumnH std_hash m n) m ld o array ;;;
       append_rowsH std_hash (AppendColumnH std_hash m n) m ld o sld so j (i + 1)) h) as Hstep.
    { intros m Hm. cbn [append_rowsH]. unfold bind at 1. rewrite (numbers_ok _ _ _ _ Hso). rewrite (proj2 (Z.leb_gt _ _)) by lia.
      unfold bind at 1, get. by rewrite (column_at_ok sd m h sld SG Hs Hm). }
    destruct (GetAsColumn std_hash sd sos i) as [a|e].
    2: { injection E as <- <-. exists (depth sd), h, d, os. split_and!; try done; try apply heap_grows_refl. }
    destruct (allocate_ok a h) as (la & h1 & G & Ea & X & Ra & U).
    assert (repr h1 d ld F) as Hd1 by (by eapply repr_extends). pose proof (X _ _ Ho) as Ho1. pose proof (X _ _ Hso) as Hso1.
    assert (repr h1 sd sld SG) as Hs1 by (by eapply repr_extends). pose proof (extends_grows ({[o]} ∪ F) _ _ X) as G1.
    assert ({[o]} ∪ F ## G) as Hnew.
    { intros x Hx Hx'. apply U in Hx'. apply elem_of_union in Hx as [->%elem_of_singleton|Hx]; [congruence|].
      destruct (repr_in_heap h d ld F Hd x Hx) as [y Hy]. congruence. }
    assert (forall m e, (max (depth sd) (max (depth d) (depth a)) <= m)%nat ->
      CanAppendType (ColumnType d) (ColumnType a) = e -> (e <> Ok true) -> append_rowsH std_hash (AppendColumnH std_hash m n) m ld o sld so (S j) i h =
      (match e with Throw e => Throw e | Ok _ => Throw ValidationError end, h1)) as Hrefused.
    { intros m e Hm Hc He. rewrite Hstep by lia. unfold bind, lift_result. rewrite Ea. unfold AppendAsColumnH, bind, get, lift_result.
      rewrite (TypeH_ok m d h1 ld F Hd1), (TypeH_ok m a h1 la G Ra) by lia. rewrite Hc. by destruct e as [[]|]. }
    destruct (CanAppendType (ColumnType d) (ColumnType a)) as [[|]|e] eqn:Hc.
    2-3: injection E as <- <-; exists (max (depth sd) (max (depth d) (depth a))), h1, d, os; split_and!; try done;
      intros m Hm; by rewrite (Hrefused m _ Hm eq_refl).
    destruct (Append_ std_hash n a d) as [r1 d1] eqn:E1.
    destruct (append_as_column_ok n d a d1 h1 ld la o F G os r1 (IH d a) Hd1 Ra Ho1 Hn Hnew Hc E1) as (m1 & h2 & R2 & G2 & Rd & Ho2).
    destruct r1 as [[]|e].
    + destruct (IHj (i + 1) h2 d1 (AddOffset os (Size a)) ld o F r c' Rd Ho2 Hn) as (m2 & h3 & d3 & os3 & E3 & G3 & -> & R3 & Ho3).
      * eapply repr_grows; [exact G2| |exact Hs1]. set_solver.
      * apply (proj2 G2); [set_solver|exact Hso1].
      * exact Hdis.
      * lia.
      * exact E.
      * exists (max (depth sd) (max m1 m2)), h3, d3, os3. split_and!; try done.
        -- intros m Hm. rewrite Hstep by lia. unfold bind, lift_result. rewrite Ea, R2 by lia. apply E3. lia.
        -- eapply heap_grows_trans; [exact G1|]. by eapply heap_grows_trans.
    + injection E as <- <-. exists (max (depth sd) m1), h2, d1, os. split_and!; try done; [|by eapply heap_grows_trans].
      intros m Hm. rewrite Hstep by lia. unfold bind, lift_result. by rewrite Ea, R2 by lia.
Qed.

Lemma AppendColumnH_S (m n : nat) (l src : loc) (h : heap) : AppendColumnH std_hash m (S n) l src h =
  match h !! l with
  | Some (OColumn _) => AppendLeafH std_hash m (S n) l src h
  | Some (OArray data offsets) =>
    match h !! src with
    | Some (OArray sdata soffsets) =>
      (let* sos := numbers soffsets in append_rowsH std_hash (AppendColumnH std_hash m n) m data offsets sdata soffsets (length sos) 0) h
    | _ => (Ok tt, h)
    end
  | Some (ONullable nested nulls) =>
    match h !! src with
    | Some (ONullable nested' nulls') =>
      (let* equal := lift_result (IsEqual (TypeH m nested' h) (TypeH m nested h)) in
       if equal : bool then AppendColumnH std_hash m n nested nested' ;;; AppendLeafH std_hash m 1 nulls nulls' else ret tt) h
    | _ => (Ok tt, h)
    end
  | Some (OTuple ls _) =>
    (let* can := lift_result (CanAppendTupleType (TypeH m l h) (TypeH m src h)) in
     if negb can then throw ValidationError
     else match h !! src with
          | Some (OTuple ls' _) => append_columnsH (AppendColumnH std_hash m n) ls ls'
          | _ => throw Undefined
          end) h
  | Some (OMap data) =>
    match h !! src with
    | Some (OMap data') => AppendColumnH std_hash m n data data' h
    | _ => (Ok tt, h)
    end
  | None => (Throw Undefined, h)
  end.
Proof using Type. done. Qed.

(** Nothing happens, or an exception before anything does. *)
Lemma appends_nothing (n : nat) (h : heap) (c : column) (l k : loc) (F : gset loc) (r : result unit) (m0 : nat) : repr h c l F ->
  (forall m, (m0 <= m)%nat -> AppendColumnH std_hash m n l k h = (r, h)) ->
  exists m0 h', (forall m, (m0 <= m)%nat -> AppendColumnH std_hash m n l k h = (r, h')) /\ grows F h h' /\ repr h' c l F.
Proof using Type. intros Hr E. exists m0, h. split_and!; [exact E|apply heap_grows_refl|exact Hr]. Qed.

Lemma appends_array (n : nat) (d : column) (os : list Z) (s : column) : (forall c s, appends n c s) -> appends (S n) (ColumnArray d os) s.
Proof using Type.
  intros IH h l k F G r c' Hr Hs Hdis E. cbn [Append_] in E. pose proof Hr as (ld & o & F1 & Hl & Ho & Hn & -> & Hd).
  pose proof (repr_kind h s k G Hs) as Hk.
  destruct s as [| | | | | |sd sos| | | |]; try (injection E as <- <-; eapply (appends_nothing _ _ _ _ _ _ _ O Hr); intros m _; rewrite AppendColumnH_S, Hl;
    destruct (h !! k) as [[]|]; try done; by destruct Hk as (? & ? & ?)).
  destruct Hs as (sld & so & G1 & Hlk & Hso & Hn' & -> & Hsd).
  destruct (append_rowsH_ok n sd sos sld so G1 IH (length sos) 0 h d os ld o F1 r c' Hd Ho Hn Hsd Hso Hdis eq_refl E)
    as (m0 & h' & d' & os' & E1 & Gr & -> & R & Ho'). exists m0, h'. split_and!; [|done|].
  - intros m Hm. rewrite AppendColumnH_S, Hl, Hlk. unfold bind. rewrite (numbers_ok _ _ _ _ Hso). by apply E1.
  - exists ld, o, F1. split_and!; try done. by eapply kept_pointer; [exact (proj1 Gr)|exact Hl|].
Qed.

Lemma appends_nullable (n : nat) (d : column) (us : list Z) (s : column) : (forall c s, appends n c s) -> appends (S n) (ColumnNullable d us) s.
Proof using Type.
  intros IH h l k F G r c' Hr Hs Hdis E. cbn [Append_] in E. pose proof Hr as (ld & o & F1 & Hl & Ho & Hn & -> & Hd).
  pose proof (repr_kind h s k G Hs) as Hk.
  destruct s as [| | | | | | |sd sus| | |]; try (injection E as <- <-; eapply (appends_nothing _ _ _ _ _ _ _ O Hr); intros m _; rewrite AppendColumnH_S, Hl;
    destruct (h !! k) as [[]|]; try done; by destruct Hk as (? & ? & ?)).
  destruct Hs as (sld & so & G1 & Hlk & Hso & Hn' & -> & Hsd). unfold ColumnNullable_Append in E.
  assert (forall m, (max (depth d) (depth sd) <= m)%nat -> AppendColumnH std_hash m (S n) l k h =
    (let* equal := lift_result (IsEqual (ColumnType sd) (ColumnType d)) in
     if equal : bool then AppendColumnH std_hash m n ld sld ;;; AppendLeafH std_hash m 1 o so else ret tt) h) as Hstep.
  { intros m Hm. rewrite AppendColumnH_S, Hl, Hlk. by rewrite (TypeH_ok m d h ld F1 Hd), (TypeH_ok m sd h sld G1 Hsd) by lia. }
  destruct (IsEqual (ColumnType sd) (ColumnType d)) as [[|]|e].
  2-3: injection E as <- <-; eapply appends_nothing; [exact Hr|exact Hstep].
  destruct (Append_ std_hash n sd d) as [r1 d1] eqn:E1.
  destruct (IH d sd h ld sld F1 G1 r1 d1 Hd Hsd ltac:(set_solver) E1) as (m1 & h1 & R1 & Gr & Rd).
  pose proof (proj2 Gr o _ Hn Ho) as Ho1. assert (h1 !! so = Some (OColumn (ColumnVector Code.UInt8 sus))) as Hso1 by (apply (proj2 Gr); [set_solver|done]).
  pose proof (kept_pointer _ _ _ _ (proj1 Gr) Hl ltac:(done)) as Hl1. destruct r1 as [[]|e]; injection E as <- <-.
  - destruct (AppendLeafH_ok 1 h1 (ColumnVector Code.UInt8 us) (ColumnVector Code.UInt8 sus) o so {[so]} (Ok tt) (ColumnVector Code.UInt8 (us ++ sus)))
      as (m2 & E2 & T2 & _); [done|done|done|set_solver|reflexivity|].
    eexists (max (max (depth d) (depth sd)) (max m1 m2)), _. split; [intros m Hm; rewrite Hstep by lia; unfold bind, lift_result; rewrite R1 by lia; apply E2; lia|].
    split.
    + eapply heap_grows_trans; [eapply heap_grows_mono; [|exact Gr]|eapply heap_grows_mono; [|apply touches_grows, T2]]; set_solver.
    + exists ld, o, F1. split_and!; try done; [by eapply kept_pointer; [exact (proj1 T2)|exact Hl1|]|apply lookup_insert_eq|].
      eapply repr_frame; [exact T2|set_solver|done].
  - exists (max (max (depth d) (depth sd)) m1), h1. split_and!; [|eapply heap_grows_mono; [|exact Gr]; set_solver|by exists ld, o, F1].
    intros m Hm. rewrite Hstep by lia. unfold bind, lift_result. by rewrite R1 by lia.
Qed.

Lemma append_columnsH_ok (n : nat) (cs : list column) : (forall c s, appends n c s) -> forall ss h ls ks F G r cs', reprs h cs ls F -> reprs h ss ks G -> F ## G ->
  append_columns (Append_ std_hash n) cs ss = (r, cs') ->
  exists m0 h', (forall m, (m0 <= m)%nat -> append_columnsH (AppendColumnH std_hash m n) ls ks h = (r, h')) /\ grows F h h' /\ reprs h' cs' ls F.
Proof using Type.
  intros IH. induction cs as [|c cs IHcs]; intros ss h ls ks F G r cs' Hr Hs Hdis E.
  - destruct ls; [|done]. injection E as <- <-. exists O, h. split_and!; [done|apply heap_grows_refl|done].
  - destruct ls as [|l ls]; [done|]. cbn [append_columns] in E. destruct ss as [|s ss]; destruct ks as [|k ks]; try done.
    { injection E as <- <-. exists O, h. split_and!; [done|apply heap_grows_refl|done]. }
    destruct Hr as (F1 & F2 & H1 & H2 & Hd & ->). destruct Hs as (G1 & G2 & K1 & K2 & Hd' & ->).
    destruct (Append_ std_hash n s c) as [r1 c1] eqn:E1.
    destruct (IH c s h l k F1 G1 r1 c1 H1 K1 ltac:(set_solver) E1) as (m1 & h1 & R1 & Gr & Rc).
    assert (reprs h1 cs ls F2) as H2' by (eapply reprs_grows; [exact Gr|set_solver|done]). destruct r1 as [[]|e].
    + destruct (append_columns _ cs ss) as [r2 cs2] eqn:E2. injection E as <- <-.
      destruct (IHcs ss h1 ls ks F2 G2 r2 cs2 H2' ltac:(eapply reprs_grows; [exact Gr|set_solver|done]) ltac:(set_solver) E2) as (m2 & h2 & R2 & Gr2 & Rcs).
      exists (max m1 m2), h2. split_and!.
      * intros m Hm. cbn [append_columnsH]. unfold bind. rewrite R1 by lia. apply R2. lia.
      * eapply heap_grows_trans; [eapply heap_grows_mono; [|exact Gr]|eapply heap_grows_mono; [|exact Gr2]]; set_solver.
      * exists F1, F2. split_and!; try done. eapply repr_grows; [exact Gr2|set_solver|done].
    + injection E as <- <-. exists m1, h1. split_and!; [|eapply heap_grows_mono; [|exact Gr]; set_solver|by exists F1, F2].
      intros m Hm. cbn [append_columnsH]. unfold bind. by rewrite R1 by lia.
Qed.

Lemma appends_tuple (n : nat) (cs : list column) (names : list bytes) (s : column) : (forall c s, appends n c s) -> appends (S n) (ColumnTuple cs names) s.
Proof using Type.
  intros IH h l k F G r c' Hr Hs Hdis E. cbn [Append_] in E. pose proof Hr as Hr0. apply repr_tuple in Hr as (ls & Hl & Hr).
  assert (forall m, (max (depth (ColumnTuple cs names)) (depth s) <= m)%nat -> AppendColumnH std_hash m (S n) l k h =
    (let* can := lift_result (CanAppendTupleType (ColumnType (ColumnTuple cs names)) (ColumnType s)) in
     if negb can then throw ValidationError
     else match h !! k with
          | Some (OTuple ls' _) => append_columnsH (AppendColumnH std_hash m n) ls ls'
          | _ => throw Undefined
          end) h) as Hstep.
  { intros m Hm. rewrite AppendColumnH_S, Hl. by rewrite (TypeH_ok m _ h l F Hr0), (TypeH_ok m s h k G Hs) by lia. }
  unfold ColumnTuple_Append in E. destruct (CanAppendTupleType _ _) as [[|]|e].
  2-3: injection E as <- <-; eapply appends_nothing; [exact Hr0|exact Hstep].
  pose proof (repr_kind h s k G Hs) as Hk.
  destruct s as [| | | | | | | |ss snames| |]; try (injection E as <- <-; eapply appends_nothing; [exact Hr0|]; intros m Hm; rewrite (Hstep m Hm);
    destruct (h !! k) as [[]|]; try done; by destruct Hk as (? & ?)).
  apply repr_tuple in Hs as (ks & Hlk & Hs). destruct (append_columns _ cs ss) as [r1 cs1] eqn:E1. injection E as <- <-.
  destruct (append_columnsH_ok n cs IH ss h ls ks F G r1 cs1 Hr Hs Hdis E1) as (m1 & h1 & R1 & Gr & Rcs).
  eexists (max (max (depth (ColumnTuple cs names)) _) m1), h1. split_and!; [|done|].
  - intros m Hm. rewrite Hstep by (etransitivity; [apply Nat.le_max_l|exact Hm]). unfold bind, lift_result. cbn [negb]. rewrite Hlk. apply R1. lia.
  - apply repr_tuple. exists ls. split; [by eapply kept_pointer; [exact (proj1 Gr)|exact Hl|]|done].
Qed.

Lemma AppendColumnH_ok (n : nat) : forall c s, appends n c s.
Proof using Type.
  induction n as [|n IH]; intros c s.
  - intros h l k F G r c' Hr Hs Hdis [= <- <-]. exists O, h. split_and!; [done|apply heap_grows_refl|done].
  - destruct (leaf c) eqn:Hc.
    + intros h l k F G r c' Hr Hs Hdis E. apply repr_leaf in Hr as [Hl ->]; [|done].
      destruct (AppendLeafH_ok (S n) h c s l k G r c' Hl Hc Hs) as (m0 & E1 & T & Hc'); [set_solver|done|].
      exists m0, (<[l := OColumn c']> h). split_and!; [intros m Hm; rewrite AppendColumnH_S, Hl; by apply E1|by apply touches_grows|].
      apply repr_leaf; [done|]. split; [apply lookup_insert_eq|done].
    + destruct c as [| | | | | |d os|d us|cs names|d|]; try done; [by apply appends_array|by apply appends_nullable|by apply appends_tuple|].
      intros h l k F G r c' Hr Hs Hdis E. cbn [Append_] in E. pose proof Hr as (ld & Hl & Hd). pose proof (repr_kind h s k G Hs) as Hk.
      destruct s as [| | | | | | | | |sd|]; try (injection E as <- <-; eapply (appends_nothing _ _ _ _ _ _ _ O Hr); intros m _; rewrite AppendColumnH_S, Hl;
        destruct (h !! k) as [[]|]; try done; by destruct Hk as (? & ?)).
      destruct Hs as (sld & Hlk & Hsd). unfold ColumnMap_Append in E. destruct (Append_ std_hash n sd d) as [r1 d1] eqn:E1. injection E as <- <-.
      destruct (IH d sd h ld sld F G r1 d1 Hd Hsd Hdis E1) as (m1 & h1 & R1 & Gr & Rd). exists m1, h1. split_and!; [|done|].
      * intros m Hm. rewrite AppendColumnH_S, Hl, Hlk. by apply R1.
      * exists ld. split; [by eapply kept_pointer; [exact (proj1 Gr)|exact Hl|]|done].
Qed.
End AppendProofs.

(** ** Proofs: loading *)

Lemma insert_touches (h : heap) (l : loc) (c c' : column) : h !! l = Some (OColumn c) -> touches {[l]} h (<[l := OColumn c']> h).
Proof. intros Hl. split; [by eapply kept_insert|]. intros k Hk. apply lookup_insert_ne. intros <-. by apply Hk, elem_of_singleton. Qed.

Section LoadProofs.
Context (std_hash : bytes -> Z) {I : Type} `{InputStream I}.

(** What loading the column of the objects gives, from what loading the column gives: the same flag or exception and the same
    stream, and the column, if there was no exception. *)
Definition loads (out : result (bool * column) * I) (h : heap) (l : loc) (L : gset loc) (got : result bool * (I * heap)) : Prop :=
  match out with
  | (Ok (ok, c), s) => exists h', got = (Ok ok, (s, h')) /\ touches L h h' /\ repr h' c l L
  | (Throw e, s) => exists h', got = (Throw e, (s, h')) /\ touches L h h'
  end.

(** The same for the elements of a tuple. *)
Definition loads_all (out : result (bool * list column) * I) (h : heap) (ls : list loc) (L : gset loc) (got : result bool * (I * heap)) : Prop :=
  match out with
  | (Ok (ok, cs), s) => exists h', got = (Ok ok, (s, h')) /\ touches L h h' /\ reprs h' cs ls L
  | (Throw e, s) => exists h', got = (Throw e, (s, h')) /\ touches L h h'
  end.

Lemma load_leaf_ok (torn : column -> column) (load : column -> M I (bool * column)) (c : column) (h : heap) (l : loc) (s : I) :
  h !! l = Some (OColumn c) -> (forall ok c' s', load c s = (Ok (ok, c'), s') -> leaf c' = true) ->
  loads (load c s) h l {[l]} (load_leaf torn l load (s, h)).
Proof.
  intros Hl Hleaf. unfold load_leaf, loads. rewrite Hl. destruct (load c s) as [[[ok c']|e] s'] eqn:E.
  - eexists. split; [done|]. split; [by eapply insert_touches|]. apply repr_leaf; [by eapply Hleaf|]. split; [apply lookup_insert_eq|done].
  - eexists. split; [done|]. by eapply insert_touches.
Qed.

Lemma load_all_ok (load : column -> M I (bool * column)) (loadH : loc -> M (I * heap) bool) (cs : list column) :
  Forall (fun c => forall s h l L, repr h c l L -> loads (load c s) h l L (loadH l (s, h))) cs ->
  forall s h ls L, reprs h cs ls L -> loads_all (load_all load cs s) h ls L (load_allH loadH ls (s, h)).
Proof.
  induction 1 as [|c cs Hc _ IH]; intros s h [|l ls] L Hr; try done.
  - exists h. split_and!; [done|apply touches_refl|exact Hr].
  - destruct Hr as (L1 & L2 & H1 & H2 & Hd & ->). specialize (Hc s h l L1 H1). cbn [load_all load_allH]. unfold bind at 1 3. unfold loads in Hc.
    destruct (load c s) as [[[ok c']|e] s1]; [destruct Hc as (h1 & -> & T1 & R1)|destruct Hc as (h1 & -> & T1); exists h1; split;
      [done|eapply touches_mono; [|exact T1]; set_solver]].
    assert (reprs h1 cs ls L2) as H2' by (eapply reprs_frame; [exact T1|set_solver|done]). destruct ok.
    + specialize (IH s1 h1 ls L2 H2'). unfold bind, loads_all in *.
      destruct (load_all load cs s1) as [[[ok cs']|e] s2]; [destruct IH as (h2 & -> & T2 & R2)|destruct IH as (h2 & -> & T2)]; exists h2.
      * split_and!; [done|eapply touches_trans; [eapply touches_mono; [|exact T1]|eapply touches_mono; [|exact T2]]; set_solver|].
        exists L1, L2. split_and!; try done. eapply repr_frame; [exact T2|set_solver|done].
      * split; [done|]. eapply touches_trans; [eapply touches_mono; [|exact T1]|eapply touches_mono; [|exact T2]]; set_solver.
    + exists h1. split_and!; [done|eapply touches_mono; [|exact T1]; set_solver|]. by exists L1, L2.
Qed.

(** The object above one whose column has been loaded. *)
Lemma loads_above (m : M I (bool * column)) (s : I) (up : column -> column) (h h0 : heap) (l ld : loc) (L L0 : gset loc) (o : obj) (got : result bool * (I * heap)) :
  loads (m s) h ld L got -> touches L0 h0 h -> h0 !! l = Some o -> (forall c, o <> OColumn c) -> L ⊆ L0 ->
  (forall h' c', touches L h h' -> repr h' c' ld L -> h' !! l = Some o -> repr h' (up c') l L0) ->
  loads ((let* '(ok, c) := m in ret (ok, up c)) s) h0 l L0 got.
Proof.
  intros Hd T0 Hl Ho HL Hup. unfold loads, bind in *. destruct (m s) as [[[ok c]|e] s1].
  - destruct Hd as (h' & -> & T & R). exists h'. split_and!; [done|eapply touches_trans; [exact T0|by eapply touches_mono]|].
    apply Hup; [done|done|]. eapply kept_pointer; [exact (proj1 T)| |done]. by eapply kept_pointer; [exact (proj1 T0)|exact Hl|].
  - destruct Hd as (h' & -> & T). exists h'. split; [done|]. eapply touches_trans; [exact T0|by eapply touches_mono].
Qed.

Lemma load_prefix_leaf (c c' : column) (rows : Z) (s s' : I) (ok : bool) : leaf c = true -> LoadPrefix c rows s = (Ok (ok, c'), s') -> c' = c.
Proof.
  intros Hc E. destruct c as [| | | | |[] ty data| | | | |d code index u]; try done; cbn [LoadPrefix] in E; try (by injection E as _ <-).
  - unfold ColumnJSON_LoadPrefix, bind in E. destruct (ReadFixed 8 0 s) as [[[[] v]|e] s1]; cbn [negb] in E; try done; [|by injection E as _ <-].
    destruct (negb _); [done|]. by injection E as _ <-.
  - unfold ColumnLowCardinality_LoadPrefix, bind in E. destruct (ReadFixed 8 0 s) as [[[[] v]|e] s1]; cbn [negb] in E; try done.
    destruct (negb _); [done|]. by injection E as _ <-.
Qed.

Lemma LoadPrefixH_ok (c : column) : forall n rows s h l L, repr h c l L -> (depth c <= n)%nat -> loads (LoadPrefix c rows s) h l L (LoadPrefixH n l rows (s, h)).
Proof.
  induction c as [| | |m fixed|size|w ty data _|data os IH|nested nulls IH|cs names IH|data IH|d code index u _] using column_ind'; intros n rows s h l L Hr Hn;
    (destruct n as [|n]; [cbn in Hn; lia|]);
    try (apply repr_leaf in Hr as [Hl ->]; [|done]; cbn [LoadPrefixH]; rewrite Hl; apply (load_leaf_ok id (fun c => LoadPrefix c rows)); [done|];
         intros ok c' s' E; by apply load_prefix_leaf in E as ->); cbn [depth] in Hn.
  - destruct Hr as (ld & o & L' & Hl & Ho & Hno & -> & Hd). cbn [LoadPrefixH LoadPrefix]. rewrite Hl. unfold ColumnArray_LoadPrefix.
    destruct (rows =? 0); [exists h; split_and!; [done|apply touches_refl|by exists ld, o, L']|].
    eapply (loads_above _ s (fun d => ColumnArray d os) h h l ld L'); [exact (IH n rows s h ld L' Hd ltac:(lia))|apply touches_refl|exact Hl|done|set_solver|].
    intros h' c' T R Hl'. exists ld, o, L'. split_and!; try done. by rewrite (proj2 T o Hno).
  - destruct Hr as (ld & o & L' & Hl & Ho & Hno & -> & Hd). cbn [LoadPrefixH LoadPrefix]. rewrite Hl.
    eapply (loads_above _ s (fun d => ColumnNullable d nulls) h h l ld L'); [exact (IH n rows s h ld L' Hd ltac:(lia))|apply touches_refl|exact Hl|done|set_solver|].
    intros h' c' T R Hl'. exists ld, o, L'. split_and!; try done. by rewrite (proj2 T o Hno).
  - apply repr_tuple in Hr as (ls & Hl & Hr). cbn [LoadPrefixH LoadPrefix]. rewrite Hl. unfold bind.
    assert (loads_all (load_all (fun c => LoadPrefix c rows) cs s) h ls L (load_allH (fun l => LoadPrefixH n l rows) ls (s, h))) as Hall.
    { apply load_all_ok; [|done]. pose proof (list_max_Forall depth cs n ltac:(lia)) as Hd. clear -IH Hd. induction IH as [|c cs Hc _ IHcs]; [constructor|].
      apply Forall_cons_1 in Hd as [Hd1 Hd2]. constructor; [intros; by apply Hc|by apply IHcs]. }
    unfold loads, loads_all in *.
    destruct (load_all (fun c => LoadPrefix c rows) cs s) as [[[ok cs']|e] s1]; [destruct Hall as (h' & -> & T & R)|destruct Hall as (h' & -> & T)].
    + exists h'. split_and!; [done|done|]. apply repr_tuple. exists ls. split; [by eapply kept_pointer; [exact (proj1 T)|exact Hl|]|done].
    + exists h'. by split.
  - destruct Hr as (ld & Hl & Hd). cbn [LoadPrefixH LoadPrefix]. rewrite Hl.
    eapply (loads_above _ s ColumnMap h h l ld L); [exact (IH n rows s h ld L Hd ltac:(lia))|apply touches_refl|exact Hl|done|done|].
    intros h' c' T R Hl'. by exists ld.
Qed.

(** *** Bodies *)

Context (torn_by_load : column -> column).

(** Offsets and null flags. *)
Lemma load_vector_leaf (code : Code.t) (data : list Z) (rows : Z) (h : heap) (l : loc) (s : I) : h !! l = Some (OColumn (ColumnVector code data)) ->
  load_leaf torn_by_load l (fun c => LoadBody_ std_hash 1 c rows) (s, h) =
  match LoadVector (sizeof code) data rows s with
  | (Ok (ok, data'), s) => (Ok ok, (s, <[l := OColumn (ColumnVector code data')]> h))
  | (Throw e, s) => (Throw e, (s, <[l := OColumn (torn_by_load (ColumnVector code data))]> h))
  end.
Proof.
  intros Hl. unfold load_leaf. rewrite Hl. cbn [LoadBody_]. unfold bind at 1. by destruct (LoadVector (sizeof code) data rows s) as [[[ok data']|e] s'].
Qed.


Lemma load_body_leaf (n : nat) (c c' : column) (rows : Z) (s s' : I) (ok : bool) : leaf c = true -> LoadBody_ std_hash n c rows s = (Ok (ok, c'), s') ->
  leaf c' = true.
Proof.
  intros Hc E. destruct n as [|n]; [done|]. destruct c as [code data|code e data|items|m data|size|w ty data| | | | |d code index u]; try done; cbn [LoadBody_] in E.
  - unfold bind in E. destruct (LoadVector _ _ _ _) as [[[]|] s1]; [|done]. by injection E as _ <- _.
  - unfold bind in E. destruct (LoadVector _ _ _ _) as [[[]|] s1]; [|done]. by injection E as _ <- _.
  - unfold ColumnString_LoadBody, bind in E. destruct (rows =? 0); [by injection E as _ <- _|]. destruct (LoadStrings _ _) as [[[]|] s1]; [..|done]; by injection E as _ <- _.
  - unfold ColumnFixedString_LoadBody, bind in E. destruct (ReadBytes _ _) as [[[]|] s1]; [|done]. by injection E as _ <- _.
  - unfold ColumnNothing_LoadBody, bind in E. destruct (Skip _ _) as [[]  s1]; [|done]. by injection E as _ <- _.
  - assert (exists rows', LoadBody_ std_hash (S n) (ColumnWrap w ty data) rows s =
      (let* '(ok, data) := LoadBody_ std_hash n data rows' in ret (ok, ColumnWrap w ty data)) s) as [rows' Hw] by (destruct w; by eexists).
    cbn [LoadBody_] in Hw. rewrite Hw in E. unfold bind in E. destruct (LoadBody_ std_hash n data rows' s) as [[[]|] s1]; [|done]. by injection E as _ <- _.
  - unfold ColumnLowCardinality_LoadBody, try_catch, bind in E. destruct (lift_result _ s) as [[e|e] s1].
    + destruct (LoadDictionary _ _ _ _ s1) as [[l|x] s2]; [by injection E as _ <- _|]. destruct x; try done; by injection E as _ <- _.
    + destruct e; try done; by injection E as _ <- _.
Qed.

Lemma LoadBodyH_ok (n : nat) : forall c rows s h l L, repr h c l L ->
  loads (LoadBody_ std_hash n c rows s) h l L (LoadBodyH std_hash torn_by_load n l rows (s, h)).
Proof.
  induction n as [|n IH]; intros c rows s h l L Hr; [exists h; split; [done|apply touches_refl]|].
  destruct (leaf c) eqn:Hc.
  { apply repr_leaf in Hr as [Hl ->]; [|done]. cbn [LoadBodyH]. rewrite Hl.
    apply (load_leaf_ok torn_by_load (fun c => LoadBody_ std_hash (S n) c rows)); [done|]. intros ok c' s'. by apply load_body_leaf. }
  destruct c as [| | | | | |data os|nested nulls|cs names|data|]; try done; cbn [LoadBody_].
  - destruct Hr as (ld & o & L' & Hl & Ho & Hno & -> & Hd). cbn [LoadBodyH]. rewrite Hl. unfold ColumnArray_LoadBody.
    destruct (rows =? 0); [exists h; split_and!; [done|apply touches_refl|by exists ld, o, L']|].
    unfold bind, get, lift_result. rewrite (load_vector_leaf _ _ _ _ _ _ Ho). change (sizeof Code.UInt64) with 8%nat.
    assert (forall c', touches ({[o]} ∪ L') h (<[o := OColumn c']> h)) as T1 by (intros c'; eapply touches_mono; [|by eapply insert_touches]; set_solver).
    destruct (LoadVector 8 os rows s) as [[[ok os']|e] s1]; [|by eexists]. set (h1 := <[o := OColumn (ColumnVector Code.UInt64 os')]> h).
    assert (h1 !! l = Some (OArray ld o)) as Hl1 by (by eapply kept_pointer; [exact (proj1 (T1 _))|exact Hl|]).
    assert (repr h1 data ld L') as Hd1 by (eapply repr_frame; [by eapply insert_touches|set_solver|done]).
    assert (h1 !! o = Some (OColumn (ColumnVector Code.UInt64 os'))) as Ho1 by apply lookup_insert_eq.
    destruct ok; cbn [negb]; [|exists h1; split_and!; [done|apply T1|by exists ld, o, L']].
    rewrite (numbers_ok _ _ _ _ Ho1). cbn [fst rbind].
    destruct (at_ os' (rows - 1)) as [nested_rows|e]; [|exists h1; split; [done|apply T1]].
    destruct (nested_rows =? 0); [exists h1; split_and!; [done|apply T1|by exists ld, o, L']|].
    eapply (loads_above _ s1 (fun d => ColumnArray d os') h1 h l ld L'); [exact (IH data nested_rows s1 h1 ld L' Hd1)|apply T1|exact Hl|done|set_solver|].
    intros h' c' T R Hl'. exists ld, o, L'. split_and!; try done. by rewrite (proj2 T o Hno).
  - destruct Hr as (ld & o & L' & Hl & Ho & Hno & -> & Hd). cbn [LoadBodyH]. rewrite Hl. unfold ColumnNullable_LoadBody.
    unfold bind. rewrite (load_vector_leaf _ _ _ _ _ _ Ho). change (sizeof Code.UInt8) with 1%nat.
    assert (forall c', touches ({[o]} ∪ L') h (<[o := OColumn c']> h)) as T1 by (intros c'; eapply touches_mono; [|by eapply insert_touches]; set_solver).
    destruct (LoadVector 1 nulls rows s) as [[[ok us']|e] s1]; [|by eexists]. set (h1 := <[o := OColumn (ColumnVector Code.UInt8 us')]> h).
    assert (h1 !! l = Some (ONullable ld o)) as Hl1 by (by eapply kept_pointer; [exact (proj1 (T1 _))|exact Hl|]).
    assert (repr h1 nested ld L') as Hd1 by (eapply repr_frame; [by eapply insert_touches|set_solver|done]).
    assert (h1 !! o = Some (OColumn (ColumnVector Code.UInt8 us'))) as Ho1 by apply lookup_insert_eq.
    destruct ok; cbn [negb]; [|exists h1; split_and!; [done|apply T1|by exists ld, o, L']].
    eapply (loads_above _ s1 (fun d => ColumnNullable d us') h1 h l ld L'); [exact (IH nested rows s1 h1 ld L' Hd1)|apply T1|exact Hl|done|set_solver|].
    intros h' c' T R Hl'. exists ld, o, L'. split_and!; try done. by rewrite (proj2 T o Hno).
  - apply repr_tuple in Hr as (ls & Hl & Hr). cbn [LoadBodyH]. rewrite Hl. unfold ColumnTuple_LoadBody, bind.
    assert (loads_all (load_all (fun c => LoadBody_ std_hash n c rows) cs s) h ls L (load_allH (fun l => LoadBodyH std_hash torn_by_load n l rows) ls (s, h))) as Hall.
    { apply load_all_ok; [|done]. apply Forall_forall. intros c _ s0 h0 l0 L0. apply IH. }
    unfold loads, loads_all in *.
    destruct (load_all _ cs s) as [[[ok cs']|e] s1]; [destruct Hall as (h' & -> & T & R)|destruct Hall as (h' & -> & T)].
    + exists h'. split_and!; [done|done|]. apply repr_tuple. exists ls. split; [by eapply kept_pointer; [exact (proj1 T)|exact Hl|]|done].
    + exists h'. by split.
  - destruct Hr as (ld & Hl & Hd). cbn [LoadBodyH]. rewrite Hl.
    eapply (loads_above _ s ColumnMap h h l ld L); [exact (IH data rows s h ld L Hd)|apply touches_refl|exact Hl|done|done|].
    intros h' c' T R Hl'. by exists ld.
Qed.
End LoadProofs.

(** ** Views *)

(** A call of a method of a column object, with its arguments: a stream for the loads; [CallLeaf] is any other operation on
    the data of a column that holds it itself (values appended, erased or written in place, an index or an offset added). *)
Inductive call :=
| CallWrap (C : HeapClass) (l : loc)
| CallAppend (C : HeapClass) (v : ValueType C) (l : loc)
| CallAppendColumn (std_hash : bytes -> Z) (m n : nat) (l src : loc)
| CallAppendAsColumn (std_hash : bytes -> Z) (m n : nat) (l src : loc)
| CallLoadPrefix (I : Type) (stream : InputStream I) (s : I) (n : nat) (l : loc) (rows : Z)
| CallLoadBody (std_hash : bytes -> Z) (I : Type) (stream : InputStream I) (torn_by_load : column -> column) (s : I) (n : nat) (l : loc) (rows : Z)
| CallClear (std_hash : bytes -> Z) (n : nat) (l : loc)
| CallSwap (n : nat) (l l' : loc)
| CallLeaf (f : column -> column) (l : loc).

(** The objects after the call, whether it returns or throws. *)
Definition run_call (k : call) (h : heap) : heap :=
  match k with
  | CallWrap C l => snd (WrapH C l h)
  | CallAppend C v l => snd (AppendH C v l h)
  | CallAppendColumn std_hash m n l src => snd (AppendColumnH std_hash m n l src h)
  | CallAppendAsColumn std_hash m n l src => snd (ArrayH_AppendAsColumn std_hash m n l src h)
  | CallLoadPrefix J stream s n l rows => snd (snd (LoadPrefixH n l rows (s, h)))
  | CallLoadBody std_hash J stream torn_by_load s n l rows => snd (snd (LoadBodyH std_hash torn_by_load n l rows (s, h)))
  | CallClear std_hash n l => snd (ClearH std_hash n l h)
  | CallSwap n l l' => snd (SwapH n l l' h)
  | CallLeaf f l => snd (on_leaf l (fun c => (Ok tt, f c)) h)
  end.

Definition run_calls (ks : list call) (h : heap) : heap := fold_left (fun h k => run_call k h) ks h.

Definition call_ok (k : call) : Prop := match k with CallWrap C _ | CallAppend C _ _ => heap_class C | _ => True end.

Lemma AppendLeafH_kept (std_hash : bytes -> Z) (m n : nat) (l src : loc) (h : heap) : pointers_kept h (snd (AppendLeafH std_hash m n l src h)).
Proof. unfold AppendLeafH. kept. Qed.

Lemma AddOffsetH_kept (l : loc) (n : Z) (h : heap) : pointers_kept h (snd (AddOffsetH l n h)).
Proof. apply on_leaf_kept. Qed.
#[export] Hint Resolve AppendLeafH_kept AddOffsetH_kept : kept.

Section AppendKept.
Context (std_hash : bytes -> Z) (m : nat) (append : loc -> loc -> M heap unit).
Hypothesis Happend : forall l l' h, pointers_kept h (snd (append l l' h)).

Lemma AppendAsColumnH_kept (d o a : loc) (h : heap) : pointers_kept h (snd (AppendAsColumnH append m d o a h)).
Proof using Happend. unfold AppendAsColumnH. kept. Qed.

Lemma append_rowsH_kept (d o sd so : loc) (n : nat) : forall i h, pointers_kept h (snd (append_rowsH std_hash append m d o sd so n i h)).
Proof using Happend. pose proof AppendAsColumnH_kept. induction n as [|n IH]; intros i h; cbn [append_rowsH]; kept. Qed.

Lemma append_columnsH_kept (ls : list loc) : forall ls' h, pointers_kept h (snd (append_columnsH append ls ls' h)).
Proof using Happend. induction ls as [|l ls IH]; intros [|l' ls'] h; cbn [append_columnsH]; kept. Qed.
End AppendKept.

Lemma AppendColumnH_kept (std_hash : bytes -> Z) (m n : nat) : forall l src h, pointers_kept h (snd (AppendColumnH std_hash m n l src h)).
Proof.
  induction n as [|n IH]; intros l src h; [apply kept_refl|]. rewrite AppendColumnH_S.
  pose proof (append_rowsH_kept std_hash m _ IH). pose proof (append_columnsH_kept _ IH). destruct (h !! l) as [[]|]; kept.
Qed.

Lemma ArrayH_AppendAsColumn_kept (std_hash : bytes -> Z) (m n : nat) (l src : loc) (h : heap) :
  pointers_kept h (snd (ArrayH_AppendAsColumn std_hash m n l src h)).
Proof. pose proof (AppendAsColumnH_kept m _ (AppendColumnH_kept std_hash m n)). unfold ArrayH_AppendAsColumn. kept. Qed.

(** *** Loads keep the pointers *)

Section LoadKept.
Context {I : Type} `{InputStream I}.

Definition load_keeps {A : Type} (m : M (I * heap) A) : Prop := forall s h, pointers_kept h (snd (snd (m (s, h)))).

Lemma load_keeps_bind {A B : Type} (m : M (I * heap) A) (k : A -> M (I * heap) B) : load_keeps m -> (forall a, load_keeps (k a)) -> load_keeps (bind m k).
Proof.
  intros Hm Hk s h. unfold bind. specialize (Hm s h). destruct (m (s, h)) as [[a|e] [s1 h1]]; [|exact Hm]. cbn in Hm.
  eapply kept_trans; [exact Hm|apply Hk].
Qed.

Lemma load_keeps_same {A : Type} (r : result A) : load_keeps (lift_result r).
Proof. intros s h. apply kept_refl. Qed.

Lemma load_keeps_leaf (torn : column -> column) (l : loc) (load : column -> M I (bool * column)) : load_keeps (load_leaf torn l load).
Proof.
  intros s h. unfold load_leaf. destruct (h !! l) as [[c| | | |]|] eqn:E; try apply kept_refl.
  destruct (load c s) as [[[ok c']|e] s']; by eapply kept_insert.
Qed.

Lemma load_keeps_all (load : loc -> M (I * heap) bool) (ls : list loc) : (forall l, load_keeps (load l)) -> load_keeps (load_allH load ls).
Proof.
  intros Hl. induction ls as [|l ls IH]; [apply (load_keeps_same (Ok true))|]. apply load_keeps_bind; [done|]. intros []; [done|apply (load_keeps_same (Ok false))].
Qed.

Lemma LoadPrefixH_kept (n : nat) : forall l rows, load_keeps (LoadPrefixH n l rows).
Proof.
  induction n as [|n IH]; intros l rows s h; [apply kept_refl|]. cbn [LoadPrefixH]. destruct (h !! l) as [[]|]; try apply kept_refl; try apply IH.
  - apply load_keeps_leaf.
  - destruct (rows =? 0); [apply kept_refl|apply IH].
  - by apply load_keeps_all.
Qed.

Lemma LoadBodyH_kept (std_hash : bytes -> Z) (torn_by_load : column -> column) (n : nat) : forall l rows, load_keeps (LoadBodyH std_hash torn_by_load n l rows).
Proof.
  induction n as [|n IH]; intros l rows s h; [apply kept_refl|]. cbn [LoadBodyH]. destruct (h !! l) as [[]|]; try apply kept_refl; try apply IH.
  - apply load_keeps_leaf.
  - destruct (rows =? 0); [apply kept_refl|]. apply load_keeps_bind; [apply load_keeps_leaf|]. intros []; cbn [negb]; [|apply (load_keeps_same (Ok false))].
    apply load_keeps_bind; [intros s' h'; apply kept_refl|]. intros [s' h']. apply load_keeps_bind; [apply load_keeps_same|].
    intros nested_rows. destruct (nested_rows =? 0); [apply (load_keeps_same (Ok true))|apply IH].
  - apply load_keeps_bind; [apply load_keeps_leaf|]. intros []; cbn [negb]; [apply IH|apply (load_keeps_same (Ok false))].
  - by apply load_keeps_all.
Qed.
End LoadKept.

Lemma run_call_kept (k : call) (h : heap) : call_ok k -> pointers_kept h (run_call k h).
Proof.
  destruct k; cbn; intros HC.
  - apply wrap_kept. by apply heap_laws.
  - apply append_kept. by apply heap_laws.
  - apply AppendColumnH_kept.
  - apply ArrayH_AppendAsColumn_kept.
  - apply LoadPrefixH_kept.
  - apply LoadBodyH_kept.
  - apply ClearH_kept.
  - apply SwapH_kept.
  - apply on_leaf_kept.
Qed.

Lemma run_calls_kept (ks : list call) : Forall call_ok ks -> forall h, pointers_kept h (run_calls ks h).
Proof.
  induction 1 as [|k ks Hk _ IH]; intros h; [apply kept_refl|]. eapply kept_trans; [by apply run_call_kept|]. apply IH.
Qed.

(** Objects with the same storage are the same column whatever is called, on these or on other objects. *)
Lemma shares_coherent (n : nat) (h : heap) (l l' : loc) (ks : list call) : shares n h l l' -> Forall call_ok ks ->
  forall b G, repr (run_calls ks h) b l G <-> repr (run_calls ks h) b l' G.
Proof.
  intros Hs Hks b G. assert (shares n (run_calls ks h) l l') as Hr by (eapply shares_kept; [by apply run_calls_kept|done]).
  split; eapply shares_repr; [by apply shares_sym|done].
Qed.

(** The columns that keep none of their data in [F] are as before. *)
Definition others_kept (F : gset loc) (h h' : heap) : Prop := forall b k G, repr h b k G -> G ## F -> repr h' b k G.

Lemma touches_others (F : gset loc) (h h' : heap) : touches F h h' -> others_kept F h h'.
Proof. intros T b k G Hr Hd. by eapply repr_frame. Qed.

Lemma grows_others (F : gset loc) (h h' : heap) : grows F h h' -> others_kept F h h'.
Proof. intros T b k G Hr Hd. by eapply repr_grows. Qed.

(** ** Properties *)

(** C21. [Wrap] of any class made of the templates makes, for a column of that class, another object that is the same
    column over the same storage, and is null for any other column; it changes no object.  From then on the original and
    the view are the same column, whatever sequence of these calls is made on any objects, these two, their parts or
    others, and whether they return or throw: [Wrap], [Append] of a value, [Append] of a column, [AppendAsColumn],
    [LoadPrefix], [LoadBody], [Clear], [Swap], and any operation on the data of a column that holds it itself. *)
Theorem wrapped_view (C : HeapClass) (HC : heap_class C) (h : heap) (c : column) (l : loc) (F : gset loc) (Hr : repr h c l F) (Hw : wf_col c) :
  exists x h', WrapH C l h = (Ok x, h') /\ extends h h' /\
    match x with
    | None => is_a C c = false
    | Some l' =>
      is_a C c = true /\ repr h' c l' F /\
      forall ks, Forall call_ok ks -> forall b G, repr (run_calls ks h') b l G <-> repr (run_calls ks h') b l' G
    end.
Proof.
  destruct (wrap_law C (heap_laws C HC) h c l F Hr Hw) as (x & h' & E & Hx & HP). exists x, h'. split; [done|]. split; [done|].
  destruct x as [l'|]; [|done]. destruct HP as [Ha [n Hs]]. split; [done|]. split; [eapply shares_repr; [done|by eapply repr_extends]|].
  intros ks Hks. apply (shares_coherent n); [by apply shares_sym|done].
Qed.

(** C22. On objects, [Append] of a value, [Append] of a column and [Swap] (with a column that shares no data with this one),
    [Clear], [LoadPrefix] and [LoadBody] do exactly what they do on the columns as values, with the same result or exception,
    the casts of [Swap] to the template instances included, through whichever object they are called, and change no column
    that keeps none of its data there.  (When a load throws, nothing is said of the column itself.) *)
Theorem objects_refine (C : HeapClass) (HC : heap_class C) (std_hash : bytes -> Z) (h : heap) (c : column) (l : loc) (F : gset loc)
    (Hr : repr h c l F) :
  (is_a C c = true -> forall v r c', AppendValue C v c = (r, c') ->
     exists h', AppendH C v l h = (r, h') /\ repr h' c' l F /\ others_kept F h h') /\
  (forall s k G r c', repr h s k G -> F ## G -> Append std_hash s c = (r, c') ->
     exists m0 h', (forall m, (m0 <= m)%nat -> AppendColumnH std_hash m (depth c) l k h = (r, h')) /\ repr h' c' l F /\ others_kept F h h') /\
  (forall c', Clear std_hash c = Ok c' ->
     exists h', ClearH std_hash (depth c) l h = (Ok tt, h') /\ repr h' c' l F /\ others_kept F h h') /\
  (forall b k G r c' b', repr h b k G -> F ## G ->
     let n := Nat.max (depth c) (depth b) in Swap (ClassesH n l h) (ClassesH n k h) c b = (r, (c', b')) ->
     exists h', SwapH n l k h = (r, h') /\ repr h' c' l F /\ repr h' b' k G /\ others_kept (F ∪ G) h h') /\
  (forall (I : Type) (stream : InputStream I) (torn_by_load : column -> column) (rows : Z) (s : I),
     loads (LoadPrefix c rows s) h l F (LoadPrefixH (depth c) l rows (s, h)) /\
     loads (LoadBody std_hash c rows s) h l F (LoadBodyH std_hash torn_by_load (depth c) l rows (s, h))).
Proof.
  pose proof (heap_laws C HC) as L. split_and!.
  - intros Ha v r c' E. destruct (append_law C L h c l F v r c' Hr (shape_of_class C L c Ha) E) as (h' & E' & T & R & _).
    exists h'. split_and!; [done|done|]. by apply touches_others.
  - intros s k G r c' Hs Hd E. destruct (AppendColumnH_ok std_hash (depth c) c s h l k F G r c' Hr Hs Hd E) as (m0 & h' & E' & T & R).
    exists m0, h'. split_and!; [done|done|]. by apply grows_others.
  - intros c' E. destruct (ClearH_ok std_hash c (depth c) h l F c' Hr ltac:(lia) E) as (h' & E' & T & R).
    exists h'. split_and!; [done|done|]. by apply touches_others.
  - intros b k G r c' b' Hk Hd n E. destruct (SwapH_ok n c b ltac:(lia) ltac:(lia) h l k F G r c' b' Hr Hk Hd E) as (h' & E' & T & R & R').
    exists h'. split_and!; [done|done|done|]. by apply touches_others.
  - intros I stream torn_by_load rows s. split; [by apply LoadPrefixH_ok|by apply LoadBodyH_ok].
Qed.

(** *** Witnesses *)

(** An [Array(Nullable(String))] in five objects: one row, ["a" and a null]. *)
Definition example_objects : heap :=
  <[plain_at 1 := OArray (plain_at 2) (plain_at 3)]>
    (<[plain_at 2 := ONullable (plain_at 4) (plain_at 5)]>
       (<[plain_at 3 := OColumn (ColumnVector Code.UInt64 [2])]>
          (<[plain_at 4 := OColumn (ColumnString [str "a"; []])]>
             (<[plain_at 5 := OColumn (ColumnVector Code.UInt8 [0; 1])]> ∅)))).

Definition example_data : gset loc := {[plain_at 3]} ∪ ({[plain_at 5]} ∪ {[plain_at 4]}).

Definition example_column : column := ColumnArray (ColumnNullable (ColumnString [str "a"; []]) [0; 1]) [2].

Abbreviation example_class := (ArrayH (NullableH (LeafH (str "ColumnString") StringC))).

Lemma example_repr : repr example_objects example_column (plain_at 1) example_data.
Proof.
  exists (plain_at 2), (plain_at 3), ({[plain_at 5]} ∪ {[plain_at 4]}). split_and!; [by vm_compute|by vm_compute|by vm_compute|done|].
  exists (plain_at 4), (plain_at 5), {[plain_at 4]}. split_and!; [by vm_compute|by vm_compute|by vm_compute|done|]. split; [by vm_compute|done].
Qed.

Lemma example_heap_class : heap_class example_class.
Proof. constructor. constructor. constructor; [constructor|]. apply (proj1 (Forall_forall _ _) (plain_leaf Code.UInt8)). by apply list_elem_of_lookup; exists 2%nat. Qed.

(** A value is appended through the view, a row is loaded through the original, its nested column is appended to another
    one, and the original is cleared. *)
Lemma wrapped_view_witness : exists l' h', WrapH example_class (plain_at 1) example_objects = (Ok (Some l'), h') /\ repr h' example_column l' example_data /\
  let ks := [CallAppend example_class [Some (str "b")] l';
             CallLoadBody (fun _ => 0) ArrayInput _ id (mkArrayInput [x01; x00; x00; x00; x00; x00; x00; x00; x00; x01; x63]) 3 (plain_at 1) 1;
             CallAppendColumn (fun _ => 0) 3 3 (plain_at 7) l'; CallClear (fun _ => 0) 3 (plain_at 1)] in
  forall b G, repr (run_calls ks h') b (plain_at 1) G <-> repr (run_calls ks h') b l' G.
Proof.
  assert (wf_col example_column) as Hw by (unfold example_column; wf_auto).
  destruct (wrapped_view example_class example_heap_class example_objects example_column (plain_at 1) _ example_repr Hw) as (x & h' & E & _ & HP).
  destruct x as [l'|]; [|discriminate HP]. destruct HP as (_ & Hr & Hall). exists l', h'. split; [exact E|]. split; [exact Hr|].
  intros ks. apply Hall. repeat (constructor; [first [exact example_heap_class|exact I]|]). constructor.
Defined.

(** A value is appended; and a load of one row. *)
Lemma objects_refine_witness :
  (exists h', AppendH example_class [Some (str "b")] (plain_at 1) example_objects = (Ok tt, h') /\
    repr h' (ColumnArray (ColumnNullable (ColumnString [str "a"; []; str "b"]) [0; 1; 0]) [2; 3]) (plain_at 1) example_data) /\
  loads (LoadBody (fun _ => 0) example_column 1 (mkArrayInput [x01; x00; x00; x00; x00; x00; x00; x00; x00; x01; x63])) example_objects (plain_at 1) example_data
    (LoadBodyH (fun _ => 0) id 3 (plain_at 1) 1 (mkArrayInput [x01; x00; x00; x00; x00; x00; x00; x00; x00; x01; x63], example_objects)) /\
  LoadBody (fun _ => 0) example_column 1 (mkArrayInput [x01; x00; x00; x00; x00; x00; x00; x00; x00; x01; x63]) =
    (Ok (true, ColumnArray (ColumnNullable (ColumnString [str "c"]) [0]) [1]), mkArrayInput []).
Proof.
  assert (is_a example_class example_column = true) as Ha by (vm_compute; reflexivity).
  destruct (objects_refine example_class example_heap_class (fun _ => 0) example_objects example_column (plain_at 1) _ example_repr)
    as (Happ & _ & _ & _ & Hload). split; [|split].
  - destruct (Happ Ha [Some (str "b")] (Ok tt) (ColumnArray (ColumnNullable (ColumnString [str "a"; []; str "b"]) [0; 1; 0]) [2; 3])) as (h' & E & R & _);
      [vm_compute; reflexivity|]. exists h'. split; [exact E|exact R].
  - apply (Hload ArrayInput _ id 1).
  - vm_compute. reflexivity.
Defined.
