(* ===== verification/SharedDictionaries.v ===== *)
(** * Shared dictionaries (ColumnLowCardinality and ColumnLowCardinalityT::Wrap, columns/lowcardinality.h, lowcardinality.cpp)

    A dictionary column as an object that points to its dictionary, to the bundle of its index column and to its map of
    unique items; a view made by [Wrap] points to the same three.  Loading and swapping replace the index column, whose
    width may change: that is what the bundle between the object and the index column is for.  Here the operations are
    modelled on these objects; the dictionary itself lives in the heap of Sharing.v. *)

From S2P Require Import Prelude Streams WireFormat CityHash Text Types Columns ColumnRows ColumnOps Swap LowCardinality Decimal Values Typed Sharing.

#[local] Set Warnings "-register-all,-clear-no-such-hyp".

(** ** Objects *)

(** A [ColumnLowCardinality]. *)
Record low := mkLow {
  dictionary_column_ : loc;     (** a column object *)
  index_ : loc;                 (** an [IndexState] *)
  unique_items_map_ : loc;
}.

Abbreviation UniqueItems := (gmap (Z * Z) Z).

Record world := mkWorld {
  w_cols : heap;                        (** column objects: dictionaries, their parts, index columns *)
  w_index : gmap loc (loc * Code.t);    (** [IndexState]: the column and its type code *)
  w_maps : gmap loc UniqueItems;
  w_lows : gmap loc low;
}.

Definition set_cols (h : heap) (w : world) : world := mkWorld h (w_index w) (w_maps w) (w_lows w).
Definition set_indexes (i : gmap loc (loc * Code.t)) (w : world) : world := mkWorld (w_cols w) i (w_maps w) (w_lows w).
Definition set_maps (m : gmap loc UniqueItems) (w : world) : world := mkWorld (w_cols w) (w_index w) m (w_lows w).

(** Operations on column objects. *)
Definition on_cols {A} (m : M heap A) : M world A := zoom w_cols set_cols m.

(** Following a pointer to an object of a given kind. *)
Definition deref_in {A} (f : world -> gmap loc A) (l : loc) : M world A :=
  fun w => match f w !! l with Some a => (Ok a, w) | None => (Throw Undefined, w) end.

Definition set_index (i : loc) (s : loc * Code.t) : M world unit := modify (fun w => set_indexes (<[i := s]> (w_index w)) w).
Definition set_unique (u : loc) (m : UniqueItems) : M world unit := modify (fun w => set_maps (<[u := m]> (w_maps w)) w).

(** ** The dictionary *)

(** A dictionary is a plain column or a nullable one: the pointers are at most this deep. *)
Definition dictionary_depth : nat := 3.

Fixpoint read_column (n : nat) (l : loc) (h : heap) : result column :=
  match n with
  | O => Throw Diverges
  | S n =>
    match h !! l with
    | Some (OColumn c) => Ok c
    | Some (ONullable nested nulls) =>
      let! c := read_column n nested h in
      match h !! nulls with Some (OColumn (ColumnVector _ us)) => Ok (ColumnNullable c us) | _ => Throw Undefined end
    | _ => Throw Undefined
    end
  end.

Definition NullItemH (l : loc) (h : heap) : result ItemView :=
  match h !! l with
  | Some (ONullable _ _) => Ok ItemView_null
  | Some (OColumn c) => GetNullItemForDictionary c
  | _ => Throw Undefined
  end.

Fixpoint DefaultItemH (n : nat) (l : loc) (h : heap) : result ItemView :=
  match n with
  | O => Throw Diverges
  | S n =>
    match h !! l with
    | Some (ONullable nested _) => DefaultItemH n nested h
    | Some (OColumn c) => GetDefaultItemForDictionary c
    | _ => Throw Undefined
    end
  end.

(** [AppendToDictionary] and [AppendNullableToDictionary]: the value first, then the null flag. *)
Fixpoint AppendToDictionaryH (n : nat) (l : loc) (item : ItemView) : M heap unit :=
  match n with
  | O => throw Diverges
  | S n => fun h =>
    match h !! l with
    | Some (OColumn _) =>
      on_leaf l (fun c => match AppendToDictionary c item with Ok c => (Ok tt, c) | Throw e => (Throw e, c) end) h
    | Some (ONullable nested nulls) =>
      (if bool_decide (fst item = Code.Void) then
         let* z := lift_result (NullItemH nested h) in
         AppendToDictionaryH n nested z ;;; on_leaf nulls (ColumnVector_Append 1)
       else if bool_decide (GetCode (TypeH n nested h) = fst item) then
         AppendToDictionaryH n nested item ;;; on_leaf nulls (ColumnVector_Append 0)
       else throw ValidationError) h
    | Some _ => (Throw ValidationError, h)
    | None => (Throw Undefined, h)
    end
  end.

Fixpoint GetItemH (n : nat) (l : loc) (i : Z) (h : heap) : result ItemView :=
  match n with
  | O => Throw Diverges
  | S n =>
    match h !! l with
    | Some (OColumn c) => GetItem c i
    | Some (ONullable nested nulls) =>
      match h !! nulls with
      | Some (OColumn (ColumnVector _ us)) => ColumnNullable_GetItem (fun i => GetItemH n nested i h) us i
      | _ => Throw Undefined
      end
    | Some _ => Throw UnimplementedError
    | None => Throw Undefined
    end
  end.

(** [dictionary_column_->Swap( *other)]: a [ColumnNullableT] insists on another one of the same instance. *)
Definition swap_dictionaries (d d' : loc) : M world unit := on_cols (SwapH dictionary_depth d d').

(** The dynamic classes of a dictionary column with the dictionary [d]. *)
Definition low_classes (d : loc) (w : world) : classes := Classes None [ClassesH dictionary_depth d (w_cols w)].

(** ** The index *)

Definition index_column (o : low) : M world (list Z) :=
  let* '(ic, _) := deref_in w_index (index_ o) in
  on_cols (numbers ic).

Definition appendIndexH (o : low) (item_index : Z) : M world unit :=
  let* '(ic, code) := deref_in w_index (index_ o) in
  if is_index_code code then on_cols (on_leaf ic (ColumnVector_Append item_index)) else throw ValidationError.

Definition removeLastIndexH (o : low) : M world unit :=
  let* '(ic, code) := deref_in w_index (index_ o) in
  if is_index_code code then
    let* index := on_cols (numbers ic) in
    on_cols (on_leaf ic (ColumnVector_Erase (zlen index - 1) 1))
  else throw ValidationError.

Definition SizeLow (l : loc) : M world Z :=
  let* o := deref_in w_lows l in
  let* index := index_column o in
  ret (zlen index).

Definition getDictionaryIndex (o : low) (item_index : Z) : M world Z :=
  let* '(ic, code) := deref_in w_index (index_ o) in
  if is_index_code code then
    let* index := on_cols (numbers ic) in
    lift_result (at_ index item_index)
  else throw ValidationError.

Definition GetItemLow (l : loc) (i : Z) : M world ItemView :=
  let* o := deref_in w_lows l in
  let* di := getDictionaryIndex o i in
  let* h := on_cols get in
  match h !! dictionary_column_ o with
  | Some (ONullable _ _) => if di =? 0 then ret ItemView_null else lift_result (GetItemH dictionary_depth (dictionary_column_ o) di h)
  | _ => lift_result (GetItemH dictionary_depth (dictionary_column_ o) di h)
  end.

(** ** Operations that change the column *)

Section Operations.
Context (std_hash : bytes -> Z).

(** [AppendUnsafe], with the [catch] block. *)
Definition AppendUnsafeH (value : ItemView) (l : loc) : M world unit :=
  let* key := lift_result (computeHashKey std_hash value) in
  let* o := deref_in w_lows l in
  let* initial := index_column o in
  let* h := on_cols get in
  let* size := lift_result (SizeH dictionary_depth (dictionary_column_ o) h) in
  let* items := deref_in w_maps (unique_items_map_ o) in
  let is_new_item := bool_decide (items !! key = None) in
  let items := emplace key size items in
  set_unique (unique_items_map_ o) items ;;;
  let* second := lift_result (match items !! key with Some i => Ok i | None => Throw Undefined end) in
  try_catch
    (appendIndexH o second ;;;
     when is_new_item (on_cols (AppendToDictionaryH dictionary_depth (dictionary_column_ o) value)))
    (fun e =>
       let* index := index_column o in
       when (negb (zlen index =? zlen initial)) (removeLastIndexH o) ;;;
       when is_new_item (let* items := deref_in w_maps (unique_items_map_ o) in set_unique (unique_items_map_ o) (delete key items)) ;;;
       throw e).

Definition AppendNullItemH (o : low) : M world unit :=
  let* h := on_cols get in
  let* null_item := lift_result (NullItemH (dictionary_column_ o) h) in
  on_cols (AppendToDictionaryH dictionary_depth (dictionary_column_ o) null_item) ;;;
  let* key := lift_result (computeHashKey std_hash null_item) in
  let* items := deref_in w_maps (unique_items_map_ o) in
  set_unique (unique_items_map_ o) (emplace key 0 items).

Definition AppendDefaultItemH (o : low) : M world unit :=
  let* h := on_cols get in
  let* default_item := lift_result (DefaultItemH dictionary_depth (dictionary_column_ o) h) in
  let* key := lift_result (computeHashKey std_hash default_item) in
  let* size := lift_result (SizeH dictionary_depth (dictionary_column_ o) h) in
  let* items := deref_in w_maps (unique_items_map_ o) in
  set_unique (unique_items_map_ o) (emplace key size items) ;;;
  on_cols (AppendToDictionaryH dictionary_depth (dictionary_column_ o) default_item).

Definition ClearLow (l : loc) : M world unit :=
  let* o := deref_in w_lows l in
  let* '(ic, _) := deref_in w_index (index_ o) in
  on_cols (ClearH std_hash 1 ic) ;;;
  on_cols (ClearH std_hash dictionary_depth (dictionary_column_ o)) ;;;
  set_unique (unique_items_map_ o) ∅ ;;;
  let* h := on_cols get in
  match h !! dictionary_column_ o with
  | Some (ONullable _ _) => AppendNullItemH o ;;; AppendDefaultItemH o
  | _ => AppendDefaultItemH o
  end.

(** Objects for a dictionary that was loaded into a clone of [like]: of the same class as that. *)
Definition new_dictionary (like : loc) (d : column) : M world loc :=
  match d with
  | ColumnNullable nested nulls =>
    let* ln := on_cols (make_shared None (OColumn nested)) in
    let* lu := on_cols (make_shared None (OColumn (ColumnVector Code.UInt8 nulls))) in
    on_cols (make_shared (template_of like) (ONullable ln lu))
  | d => on_cols (make_shared None (OColumn d))
  end.

(** The loaded parts take the place of the old ones: the dictionary by [Swap], the index column in the bundle. *)
Definition install (o : low) (new : lc) : M world unit :=
  let* d := new_dictionary (dictionary_column_ o) (lc_dict new) in
  let* ic := on_cols (make_shared None (OColumn (ColumnVector (lc_code new) (lc_index new)))) in
  swap_dictionaries (dictionary_column_ o) d ;;;
  set_index (index_ o) (ic, lc_code new) ;;;
  set_unique (unique_items_map_ o) (lc_unique new).

(** [LoadBody]: everything is read into new objects, which only this call knows, before the column changes. *)
Definition LoadBodyLow {I} `{InputStream I} (l : loc) (rows : Z) : M (I * world) bool :=
  let on_world {A} (m : M world A) : M (I * world) A := zoom snd (fun w s => (fst s, w)) m in
  let on_input {A} (m : M I A) : M (I * world) A := zoom fst (fun i s => (i, snd s)) m in
  try_catch
    (let* o := on_world (deref_in w_lows l) in
     let* h := on_world (on_cols get) in
     let* clone := lift_result (let! d := read_column dictionary_depth (dictionary_column_ o) h in CloneEmpty std_hash d) in
     let* new := on_input (LoadDictionary std_hash (LoadBody_ std_hash (depth clone)) clone rows) in
     on_world (install o new) ;;;
     ret true)
    (fun _ => ret false).
End Operations.

(** [Swap]: the dictionaries in place, then the contents of the bundles and of the maps. *)
Definition SwapLow (l l' : loc) : M world unit :=
  let* o := deref_in w_lows l in
  let* o' := fun w => match w_lows w !! l' with Some o' => (Ok o', w) | None => (Throw BadCast, w) end in
  on_cols (check_types dictionary_depth (dictionary_column_ o) (dictionary_column_ o')) ;;;
  swap_dictionaries (dictionary_column_ o) (dictionary_column_ o') ;;;
  let* s := deref_in w_index (index_ o) in
  let* s' := deref_in w_index (index_ o') in
  set_index (index_ o) s' ;;; set_index (index_ o') s ;;;
  let* m := deref_in w_maps (unique_items_map_ o) in
  let* m' := deref_in w_maps (unique_items_map_ o') in
  set_unique (unique_items_map_ o) m' ;;; set_unique (unique_items_map_ o') m.

(** ** Wrap *)

(** [dynamic_pointer_cast<DictionaryColumnType>]: the dictionary was made as a column of that very class. *)
Definition exact_dictionary (N : HeapClass) (d : loc) (w : world) : bool :=
  match read_column dictionary_depth d (w_cols w) with
  | Ok c => is_a N c && (leaf c || bool_decide (template_of d = Some (class_name N)))
  | Throw _ => false
  end.

(** [make_shared<ColumnLowCardinalityT>]: shares what it is given. *)
Definition new_low (o : low) : M world loc :=
  fun w => let l := fresh (dom (w_lows w)) in (Ok l, mkWorld (w_cols w) (w_index w) (w_maps w) (<[l := o]> (w_lows w))).

Definition WrapLow (N : HeapClass) (l : loc) : M world (option loc) :=
  fun w => match w_lows w !! l with
           | None => (Ok None, w)
           | Some o =>
             (if exact_dictionary N (dictionary_column_ o) w then let* l := new_low o in ret (Some l)
              else
                let* d := on_cols (WrapH N (dictionary_column_ o)) in
                match d with
                | None => ret None
                | Some d =>
                  let* l := new_low (mkLow d (index_ o) (unique_items_map_ o)) in ret (Some l)
                end) w
           end.

(** ** What objects stand for *)

(** The objects a dictionary column is made of. *)
Record footprint := mkFoot {
  f_dictionary : gset loc;      (** what holds the data of the dictionary *)
  f_column : loc;               (** the index column *)
  f_index : loc;                (** the bundle *)
  f_map : loc;
}.

Definition f_cols (f : footprint) : gset loc := {[f_column f]} ∪ f_dictionary f.

(** The object at [l], with the dictionary at [dl], is the dictionary column [x]. *)
Definition low_at (w : world) (x : lc) (l dl : loc) (f : footprint) : Prop :=
  w_lows w !! l = Some (mkLow dl (f_index f) (f_map f)) /\
  repr (w_cols w) (lc_dict x) dl (f_dictionary f) /\
  w_index w !! f_index f = Some (f_column f, lc_code x) /\
  w_cols w !! f_column f = Some (OColumn (ColumnVector (lc_code x) (lc_index x))) /\
  (f_column f ∉ f_dictionary f) /\
  w_maps w !! f_map f = Some (lc_unique x).

Definition low_repr (w : world) (x : lc) (l : loc) (f : footprint) : Prop := exists dl, low_at w x l dl f.

(** Two dictionary columns with no object in common. *)
Definition apart (f g : footprint) : Prop := f_cols f ## f_cols g /\ f_index f <> f_index g /\ f_map f <> f_map g.

(** Two objects that share everything. *)
Definition low_shares (n : nat) (w : world) (l l' : loc) : Prop :=
  exists d d' i u, w_lows w !! l = Some (mkLow d i u) /\ w_lows w !! l' = Some (mkLow d' i u) /\ shares n (w_cols w) d d'.

(** The pointers are as before, up to new objects and to the index columns of the bundles. *)
Definition world_kept (w w' : world) : Prop :=
  pointers_kept (w_cols w) (w_cols w') /\ forall l o, w_lows w !! l = Some o -> w_lows w' !! l = Some o.

(** Only the objects named have changed, or new ones have come. *)
Definition changes (L I U : gset loc) (w w' : world) : Prop :=
  world_kept w w' /\ (forall k o, k ∉ L -> w_cols w !! k = Some o -> w_cols w' !! k = Some o) /\
  (forall i, i ∉ I -> w_index w' !! i = w_index w !! i) /\ (forall u, u ∉ U -> w_maps w' !! u = w_maps w !! u).

(** The dictionary columns that have no object of [f] are as before. *)
Definition lows_kept (f : footprint) (w w' : world) : Prop := forall y k g, low_repr w y k g -> apart f g -> low_repr w' y k g.

(** A column that can be a dictionary. *)
Definition dictionary (d : column) : Prop :=
  match d with ColumnNullable n _ => dict_item n = true | d => dict_item d = true end.

(** ** Proofs: footprints *)

Lemma world_kept_refl (w : world) : world_kept w w.
Proof. split; [apply kept_refl|done]. Qed.

Lemma world_kept_trans (w w1 w2 : world) : world_kept w w1 -> world_kept w1 w2 -> world_kept w w2.
Proof. intros [K1 H1] [K2 H2]. split; [by eapply kept_trans|]. intros l o Hl. by apply H2, H1. Qed.

Lemma changes_refl (L I U : gset loc) (w : world) : changes L I U w w.
Proof. split; [apply world_kept_refl|done]. Qed.

Lemma changes_trans (L I U : gset loc) (w w1 w2 : world) : changes L I U w w1 -> changes L I U w1 w2 -> changes L I U w w2.
Proof.
  intros (K1 & C1 & I1 & U1) (K2 & C2 & I2 & U2). split; [by eapply world_kept_trans|]. split; [|split].
  - intros k o Hk Ho. by apply C2, C1.
  - intros i Hi. by rewrite I2, I1.
  - intros u Hu. by rewrite U2, U1.
Qed.

Lemma changes_mono (L L' I I' U U' : gset loc) (w w' : world) : L ⊆ L' -> I ⊆ I' -> U ⊆ U' -> changes L I U w w' -> changes L' I' U' w w'.
Proof.
  intros HL HI HU (K & C & HCI & HCU). split; [done|]. split; [|split].
  - intros k o Hk. apply C. set_solver.
  - intros i Hi. apply HCI. set_solver.
  - intros u Hu. apply HCU. set_solver.
Qed.

Lemma set_cols_changes (L I U : gset loc) (w : world) (h : heap) : touches L (w_cols w) h -> changes L I U w (set_cols h w).
Proof. intros [K F]. split; [by split|]. split; [|done]. intros k o Hk Ho. cbn. by rewrite F. Qed.

Lemma set_cols_extends (L I U : gset loc) (w : world) (h : heap) : extends (w_cols w) h -> changes L I U w (set_cols h w).
Proof. intros E. split; [split; [by apply extends_kept|done]|]. split; [|done]. intros k o _ Ho. by apply E. Qed.

Lemma set_index_changes (L I U : gset loc) (w : world) (i : loc) (s : loc * Code.t) : i ∈ I -> changes L I U w (set_indexes (<[i := s]> (w_index w)) w).
Proof. intros Hi. split; [split; [apply kept_refl|done]|]. split; [done|]. split; [|done]. intros j Hj. apply lookup_insert_ne. by intros ->. Qed.

Lemma set_unique_changes (L I U : gset loc) (w : world) (u : loc) (m : UniqueItems) : u ∈ U -> changes L I U w (set_maps (<[u := m]> (w_maps w)) w).
Proof. intros Hu. split; [split; [apply kept_refl|done]|]. split; [done|]. split; [done|]. intros v Hv. apply lookup_insert_ne. by intros ->. Qed.

Lemma repr_changes (L I U : gset loc) (w w' : world) (c : column) (l : loc) (F : gset loc) : changes L I U w w' -> F ## L ->
  repr (w_cols w) c l F -> repr (w_cols w') c l F.
Proof.
  intros ((K & _) & C & _) HL. apply repr_agree; [intros k o; by apply kept_pointer|]. intros k x Hk Hx. apply C; [|done]. intros Hin. by apply (HL k).
Qed.

(** What has no part in the change stays. *)
Lemma low_frame (L I U : gset loc) (w w' : world) (y : lc) (k : loc) (g : footprint) : changes L I U w w' -> f_cols g ## L -> f_index g ∉ I -> f_map g ∉ U ->
  low_repr w y k g -> low_repr w' y k g.
Proof.
  intros HC HL HI HU (dl & Hk & Hd & Hi & Hc & Hn & Hm). pose proof HC as ((_ & KL) & C & CI & CU). unfold f_cols in HL. exists dl.
  split_and!; [by apply KL|eapply repr_changes; [done|set_solver|done]|by rewrite CI|apply C; [set_solver|done]|done|by rewrite CU].
Qed.

Lemma changes_lows_kept (f : footprint) (w w' : world) : changes (f_cols f) {[f_index f]} {[f_map f]} w w' -> lows_kept f w w'.
Proof.
  intros HC y k g Hr (H1 & H2 & H3). eapply low_frame; [exact HC|by symmetry|set_solver|set_solver|done].
Qed.

(** *** Views *)

Lemma low_shares_kept (n : nat) (w w' : world) (l l' : loc) : world_kept w w' -> low_shares n w l l' -> low_shares n w' l l'.
Proof. intros [K KL] (d & d' & i & u & H1 & H2 & Hs). exists d, d', i, u. split_and!; [by apply KL|by apply KL|by eapply shares_kept]. Qed.

Lemma low_shares_repr (n : nat) (w : world) (l l' : loc) (x : lc) (f : footprint) : low_shares n w l l' -> low_repr w x l f <-> low_repr w x l' f.
Proof.
  intros (d & d' & i & u & H1 & H2 & Hs). split; intros (dl & Hl & Hr & Hp).
  - rewrite H1 in Hl. injection Hl as -> -> ->. exists d'. split; [done|]. split; [|exact Hp]. eapply shares_repr; [by apply shares_sym|done].
  - rewrite H2 in Hl. injection Hl as -> -> ->. exists d. split; [done|]. split; [|exact Hp]. by eapply shares_repr.
Qed.

(** ** Proofs: the dictionary *)

Lemma dict_item_leaf (d : column) : dict_item d = true -> leaf d = true.
Proof. by destruct d. Qed.

Lemma dict_item_depth (d : column) : wf_col d -> dict_item d = true -> (depth d <= 2)%nat.
Proof.
  intros Hw Hd. destruct d as [| | | | |w ty d| | | | |]; try done; cbn; try lia.
  destruct Hw as (Ht & Hw & _). destruct w; try done; destruct ty as [[]| | | | | | | | | | |]; try done; injection Ht as Ht;
    pose proof (shape_of_type d Hw) as Hs; rewrite <- Ht in Hs; cbn in Hs; destruct Hs as [? ->]; cbn; lia.
Qed.

Lemma append_dict_item (d d' : column) (it : ItemView) : dict_item d = true -> AppendToDictionary d it = Ok d' -> dict_item d' = true.
Proof.
  intros Hd Ha. destruct d as [code data| |items|n data| |w ty d| | | | |]; try done; cbn in Ha.
  - destruct (item_get _ _); [|done]. by injection Ha as <-.
  - by injection Ha as <-.
  - destruct (FixedString_Append _ _ _); [|done]. by injection Ha as <-.
  - destruct w; try done; destruct d; try done;
      repeat (match type of Ha with context [rbind ?x _] => destruct x; [|done] | context [if ?b then _ else _] => destruct b; [done|] end; cbn [rbind] in Ha);
      by injection Ha as <-.
Qed.

Lemma append_dictionary (d d' : column) (it : ItemView) : dictionary d -> AppendToDictionary d it = Ok d' -> dictionary d'.
Proof.
  intros Hd Ha. destruct d as [| | | | |w ty d| |n us| | |]; try done; try (apply (append_dict_item _ _ it Hd) in Ha; by destruct d').
  cbn [AppendToDictionary] in Ha. case_bool_decide.
  - destruct (GetNullItemForDictionary n) as [z|]; [|done]. cbn [rbind] in Ha. destruct (AppendToDictionary n z) as [n'|] eqn:E; [|done].
    injection Ha as <-. by apply (append_dict_item n n' z Hd).
  - case_bool_decide; [|done]. destruct (AppendToDictionary n it) as [n'|] eqn:E; [|done]. injection Ha as <-. by apply (append_dict_item n n' it Hd).
Qed.

(** A dictionary in the heap. *)
Lemma repr_dictionary (h : heap) (d : column) (l : loc) (F : gset loc) : dictionary d -> repr h d l F ->
  (dict_item d = true /\ h !! l = Some (OColumn d) /\ F = {[l]}) \/
  exists n us ln u, d = ColumnNullable n us /\ dict_item n = true /\ h !! l = Some (ONullable ln u) /\ h !! ln = Some (OColumn n) /\
    h !! u = Some (OColumn (ColumnVector Code.UInt8 us)) /\ u <> ln /\ F = {[u]} ∪ {[ln]}.
Proof.
  intros Hd Hr. destruct d as [| | | | |w ty d| |n us| | |]; try done; try (left; destruct Hr as [Hl ->]; done).
  right. destruct Hr as (ln & u & L' & Hl & Hu & Hn & -> & Hr). apply repr_leaf in Hr as [Hr ->]; [|by apply dict_item_leaf].
  exists n, us, ln, u. split_and!; try done. set_solver.
Qed.

Lemma leaf_repr (h : heap) (d : column) (l : loc) : dict_item d = true -> h !! l = Some (OColumn d) -> repr h d l {[l]}.
Proof. intros Hd Hl. apply repr_leaf; [by apply dict_item_leaf|done]. Qed.

Lemma nullable_repr (h : heap) (n : column) (us : list Z) (l ln u : loc) : dict_item n = true -> h !! l = Some (ONullable ln u) ->
  h !! ln = Some (OColumn n) -> h !! u = Some (OColumn (ColumnVector Code.UInt8 us)) -> u <> ln -> repr h (ColumnNullable n us) l ({[u]} ∪ {[ln]}).
Proof. intros Hn Hl Hln Hu Hne. exists ln, u, {[ln]}. split_and!; try done; [set_solver|by apply leaf_repr]. Qed.

Lemma SizeH_dictionary (h : heap) (d : column) (l : loc) (F : gset loc) : dictionary d -> repr h d l F -> SizeH dictionary_depth l h = Ok (Size d).
Proof.
  intros Hd Hr. destruct (repr_dictionary h d l F Hd Hr) as [(_ & Hl & _)|(n & us & ln & u & -> & _ & Hl & Hln & Hu & _)]; cbn; by rewrite Hl, ?Hu.
Qed.

Lemma read_dictionary (h : heap) (d : column) (l : loc) (F : gset loc) : dictionary d -> repr h d l F -> read_column dictionary_depth l h = Ok d.
Proof.
  intros Hd Hr. destruct (repr_dictionary h d l F Hd Hr) as [(_ & Hl & _)|(n & us & ln & u & -> & _ & Hl & Hln & Hu & _)]; cbn; rewrite Hl; [done|].
  by rewrite Hln, Hu.
Qed.

Lemma NullItemH_ok (h : heap) (d : column) (l : loc) (F : gset loc) : dictionary d -> repr h d l F -> NullItemH l h = GetNullItemForDictionary d.
Proof.
  intros Hd Hr. unfold NullItemH. destruct (repr_dictionary h d l F Hd Hr) as [(_ & Hl & _)|(n & us & ln & u & -> & _ & Hl & _)]; by rewrite Hl.
Qed.

Lemma DefaultItemH_ok (h : heap) (d : column) (l : loc) (F : gset loc) : dictionary d -> repr h d l F ->
  DefaultItemH dictionary_depth l h = GetDefaultItemForDictionary d.
Proof.
  intros Hd Hr. destruct (repr_dictionary h d l F Hd Hr) as [(_ & Hl & _)|(n & us & ln & u & -> & _ & Hl & Hln & _)]; cbn; by rewrite Hl, ?Hln.
Qed.

Lemma GetItemH_ok (h : heap) (d : column) (l : loc) (F : gset loc) (i : Z) : dictionary d -> repr h d l F -> GetItemH dictionary_depth l i h = GetItem d i.
Proof.
  intros Hd Hr. destruct (repr_dictionary h d l F Hd Hr) as [(_ & Hl & _)|(n & us & ln & u & -> & _ & Hl & Hln & Hu & _)]; cbn; rewrite Hl; [done|].
  by rewrite Hu, Hln.
Qed.

(** [AppendToDictionary] on a column of one object. *)
Lemma append_leaf (n : nat) (h : heap) (d : column) (l : loc) (it : ItemView) : h !! l = Some (OColumn d) ->
  match AppendToDictionary d it with
  | Ok d' => AppendToDictionaryH (S n) l it h = (Ok tt, <[l := OColumn d']> h)
  | Throw e => AppendToDictionaryH (S n) l it h = (Throw e, h)
  end.
Proof.
  intros Hl. cbn [AppendToDictionaryH]. rewrite Hl. unfold on_leaf. rewrite Hl. destruct (AppendToDictionary d it); [done|].
  by rewrite insert_id.
Qed.

Lemma touches_insert (h : heap) (l : loc) (c c' : column) : h !! l = Some (OColumn c) -> touches {[l]} h (<[l := OColumn c']> h).
Proof. intros Hl. split; [by eapply kept_insert|]. intros k Hk. apply lookup_insert_ne. set_solver. Qed.

(** A nullable dictionary: the value and then the flag. *)
Lemma append_flag (n : nat) (h : heap) (d d' : column) (us : list Z) (l ln u : loc) (it : ItemView) (b : Z) : dict_item d = true ->
  h !! l = Some (ONullable ln u) -> h !! ln = Some (OColumn d) -> h !! u = Some (OColumn (ColumnVector Code.UInt8 us)) -> u <> ln -> 0 <= b <= 1 ->
  AppendToDictionary d it = Ok d' ->
  exists h', (AppendToDictionaryH (S n) ln it ;;; on_leaf u (ColumnVector_Append b)) h = (Ok tt, h') /\ touches ({[u]} ∪ {[ln]}) h h' /\
    repr h' (ColumnNullable d' (us ++ [b])) l ({[u]} ∪ {[ln]}).
Proof.
  intros Hd Hl Hln Hu Hne Hb Ha. pose proof (append_leaf n h d ln it Hln) as Hap. rewrite Ha in Hap. unfold bind. rewrite Hap.
  set (h1 := <[ln := OColumn d']> h). assert (h1 !! u = Some (OColumn (ColumnVector Code.UInt8 us))) as Hu1 by (unfold h1; by rewrite lookup_insert_ne).
  destruct (on_leaf_ok u (ColumnVector_Append b) h1 _ (ColumnVector Code.UInt8 (us ++ [wrap 8 b])) (Ok tt) Hu1 eq_refl) as [E T].
  assert (wrap 8 b = b) as Hwb by (unfold wrap; apply Z.mod_small; lia). rewrite Hwb in E, T.
  pose proof (touches_insert h ln d d' Hln) as T1. eexists. split; [exact E|]. split.
  - eapply touches_trans; [eapply touches_mono; [|exact T1]|eapply touches_mono; [|exact T]]; set_solver.
  - apply nullable_repr; [by eapply append_dict_item| | |apply lookup_insert_eq|done].
    + eapply kept_pointer; [exact (proj1 T)|eapply kept_pointer; [exact (proj1 T1)|exact Hl|done]|done].
    + rewrite lookup_insert_ne by done. apply lookup_insert_eq.
Qed.

Lemma AppendToDictionaryH_nullable (n : nat) (h : heap) (l nested nulls : loc) (item : ItemView) : h !! l = Some (ONullable nested nulls) ->
  AppendToDictionaryH (S n) l item h =
  (if bool_decide (fst item = Code.Void) then
     let* z := lift_result (NullItemH nested h) in
     AppendToDictionaryH n nested z ;;; on_leaf nulls (ColumnVector_Append 1)
   else if bool_decide (GetCode (TypeH n nested h) = fst item) then
     AppendToDictionaryH n nested item ;;; on_leaf nulls (ColumnVector_Append 0)
   else throw ValidationError) h.
Proof. intros Hl. cbn [AppendToDictionaryH]. by rewrite Hl. Qed.

Lemma AppendToDictionaryH_ok (h : heap) (d : column) (l : loc) (F : gset loc) (it : ItemView) : dictionary d -> repr h d l F ->
  match AppendToDictionary d it with
  | Ok d' => exists h', AppendToDictionaryH dictionary_depth l it h = (Ok tt, h') /\ touches F h h' /\ repr h' d' l F /\ dictionary d'
  | Throw e => AppendToDictionaryH dictionary_depth l it h = (Throw e, h)
  end.
Proof.
  intros Hd Hr. destruct (repr_dictionary h d l F Hd Hr) as [(Hi & Hl & ->)|(n & us & ln & u & -> & Hi & Hl & Hln & Hu & Hne & ->)].
  - pose proof (append_leaf 2 h d l it Hl) as Ha. destruct (AppendToDictionary d it) as [d'|e] eqn:E; [|done]. exists (<[l := OColumn d']> h).
    apply (append_dict_item d d' it Hi) in E. split_and!; [done|by eapply touches_insert|apply leaf_repr; [done|apply lookup_insert_eq]|by destruct d'].
  - change (AppendToDictionaryH dictionary_depth l it) with (AppendToDictionaryH 3 l it).
    cbn [AppendToDictionary]. rewrite (AppendToDictionaryH_nullable 2 h l ln u it Hl).
    assert (NullItemH ln h = GetNullItemForDictionary n) as Hnull by (unfold NullItemH; by rewrite Hln).
    assert (TypeH 2 ln h = ColumnType n) as Hty by (cbn [TypeH]; by rewrite Hln).
    rewrite Hnull, Hty. case_bool_decide.
    + unfold bind at 1, lift_result. destruct (GetNullItemForDictionary n) as [z|e]; [|done]. cbn [rbind].
      destruct (AppendToDictionary n z) as [n'|e] eqn:E.
      * destruct (append_flag 1 h n n' us l ln u z 1 Hi Hl Hln Hu Hne ltac:(lia) E) as (h' & E' & T & R). exists h'. split_and!; try done.
        by apply (append_dict_item n n' z Hi).
      * pose proof (append_leaf 1 h n ln z Hln) as Ha. rewrite E in Ha. exact (bind_throw _ _ _ _ _ Ha).
    + case_bool_decide; [|done]. destruct (AppendToDictionary n it) as [n'|e] eqn:E.
      * destruct (append_flag 1 h n n' us l ln u it 0 Hi Hl Hln Hu Hne ltac:(lia) E) as (h' & E' & T & R). exists h'. split_and!; try done.
        by apply (append_dict_item n n' it Hi).
      * pose proof (append_leaf 1 h n ln it Hln) as Ha. rewrite E in Ha. exact (bind_throw _ _ _ _ _ Ha).
Qed.

(** ** Proofs: the parts of a dictionary column *)

(** The change of one dictionary column. *)
Abbreviation changes_of f := (changes (f_cols f) {[f_index f]} {[f_map f]}).

(** [m] has the outcome [r] and leaves the column [x']. *)
Definition does (m : M world unit) (w : world) (l dl : loc) (f : footprint) (r : result unit) (x' : lc) : Prop :=
  exists w', m w = (r, w') /\ low_at w' x' l dl f /\ changes_of f w w'.

Lemma does_bind (m : M world unit) (k : unit -> M world unit) (w : world) (l dl : loc) (f : footprint) (r : result unit) (x1 x2 : lc) :
  does m w l dl f (Ok tt) x1 -> (forall w1, low_at w1 x1 l dl f -> does (k tt) w1 l dl f r x2) -> does (bind m k) w l dl f r x2.
Proof.
  intros (w1 & E1 & H1 & C1) Hk. destruct (Hk w1 H1) as (w2 & E2 & H2 & C2). exists w2. split; [|split; [done|by eapply changes_trans]].
  by rewrite (bind_ok _ _ _ _ _ E1).
Qed.

Lemma does_throw (m : M world unit) (k : unit -> M world unit) (w : world) (l dl : loc) (f : footprint) (e : exn) (x1 : lc) :
  does m w l dl f (Throw e) x1 -> does (bind m k) w l dl f (Throw e) x1.
Proof. intros (w1 & E1 & H1 & C1). exists w1. split; [|done]. by rewrite (bind_throw _ _ _ _ _ E1). Qed.

(** A computation that only looks. *)
Lemma does_look {A} (m : M world A) (k : A -> M world unit) (w : world) (l dl : loc) (f : footprint) (a : A) (r : result unit) (x : lc) :
  m w = (Ok a, w) -> does (k a) w l dl f r x -> does (bind m k) w l dl f r x.
Proof. intros E (w' & E' & H' & C'). exists w'. split; [|done]. by rewrite (bind_ok _ _ _ _ _ E). Qed.

Lemma does_ret (w : world) (l dl : loc) (f : footprint) (x : lc) : low_at w x l dl f -> does (ret tt) w l dl f (Ok tt) x.
Proof. intros H. exists w. split; [done|]. split; [done|apply changes_refl]. Qed.

Lemma does_raise (w : world) (l dl : loc) (f : footprint) (x : lc) (e : exn) : low_at w x l dl f -> does (throw e) w l dl f (Throw e) x.
Proof. intros H. exists w. split; [done|]. split; [done|apply changes_refl]. Qed.

Lemma does_catch (m : M world unit) (h : exn -> M world unit) (w : world) (l dl : loc) (f : footprint) (e : exn) (r : result unit) (x1 x2 : lc) :
  e <> Undefined -> e <> Diverges -> does m w l dl f (Throw e) x1 -> (forall w1, low_at w1 x1 l dl f -> does (h e) w1 l dl f r x2) ->
  does (try_catch m h) w l dl f r x2.
Proof.
  intros Hu Hv (w1 & E1 & H1 & C1) Hk. destruct (Hk w1 H1) as (w2 & E2 & H2 & C2). exists w2. split; [|split; [done|by eapply changes_trans]].
  unfold try_catch. rewrite E1. by destruct e.
Qed.

Lemma does_try (m : M world unit) (h : exn -> M world unit) (w : world) (l dl : loc) (f : footprint) (x1 : lc) :
  does m w l dl f (Ok tt) x1 -> does (try_catch m h) w l dl f (Ok tt) x1.
Proof. intros (w1 & E1 & H1 & C1). exists w1. split; [|done]. unfold try_catch. by rewrite E1. Qed.

Lemma deref_ok {A} (g : world -> gmap loc A) (w : world) (l : loc) (a : A) : g w !! l = Some a -> deref_in g l w = (Ok a, w).
Proof. intros H. unfold deref_in. by rewrite H. Qed.

Lemma on_cols_look {A} (m : M heap A) (w : world) (r : result A) : m (w_cols w) = (r, w_cols w) -> on_cols m w = (r, w).
Proof. intros E. unfold on_cols, zoom. rewrite E. by destruct w. Qed.

Section Parts.
Context (w : world) (x : lc) (l dl : loc) (f : footprint) (H : low_at w x l dl f).

Lemma index_ok : w_index w !! f_index f = Some (f_column f, lc_code x) /\ numbers (f_column f) (w_cols w) = (Ok (lc_index x), w_cols w).
Proof. destruct H as (_ & _ & Hi & Hc & _). split; [done|]. by eapply numbers_ok. Qed.

Lemma index_column_ok : index_column (mkLow dl (f_index f) (f_map f)) w = (Ok (lc_index x), w).
Proof.
  destruct index_ok as [Hi Hn]. unfold index_column. rewrite (bind_ok _ _ _ _ _ (deref_ok w_index w _ _ Hi)).
  by apply on_cols_look.
Qed.

Lemma does_unique (m : UniqueItems) : does (set_unique (f_map f) m) w l dl f (Ok tt) (mkLC (lc_dict x) (lc_code x) (lc_index x) m).
Proof.
  destruct H as (Hl & Hd & Hi & Hc & Hn & Hm). eexists. split; [reflexivity|]. split; [|apply set_unique_changes; set_solver].
  split_and!; try done. apply lookup_insert_eq.
Qed.

(** A change of the data of the index column. *)
Lemma does_index (m : M column unit) (index' : list Z) : m (ColumnVector (lc_code x) (lc_index x)) = (Ok tt, ColumnVector (lc_code x) index') ->
  does (on_cols (on_leaf (f_column f) m)) w l dl f (Ok tt) (mkLC (lc_dict x) (lc_code x) index' (lc_unique x)).
Proof.
  intros Hm'. destruct H as (Hl & Hd & Hi & Hc & Hn & Hm). destruct (on_leaf_ok _ m _ _ _ (Ok tt) Hc Hm') as [E T].
  eexists. split; [unfold on_cols, zoom; rewrite E; reflexivity|].
  split; [|apply set_cols_changes; eapply touches_mono; [|exact T]; unfold f_cols; set_solver].
  split_and!; try done; [eapply repr_frame; [exact T|set_solver|done]|apply lookup_insert_eq].
Qed.

Lemma does_appendIndex (di : Z) :
  match appendIndex (lc_code x) (lc_index x) di with
  | Ok index => does (appendIndexH (mkLow dl (f_index f) (f_map f)) di) w l dl f (Ok tt) (mkLC (lc_dict x) (lc_code x) index (lc_unique x))
  | Throw e => does (appendIndexH (mkLow dl (f_index f) (f_map f)) di) w l dl f (Throw e) x
  end.
Proof.
  destruct index_ok as [Hi _]. unfold appendIndex, appendIndexH. destruct (is_index_code (lc_code x)) eqn:E;
    (eapply does_look; [by apply deref_ok|]); cbn; rewrite E; [by apply does_index|by apply does_raise].
Qed.

Lemma does_removeLast : is_index_code (lc_code x) = true ->
  does (removeLastIndexH (mkLow dl (f_index f) (f_map f))) w l dl f (Ok tt) (mkLC (lc_dict x) (lc_code x) (removeLastIndex (lc_index x)) (lc_unique x)).
Proof.
  intros Hc. destruct index_ok as [Hi Hn]. unfold removeLastIndexH. eapply does_look; [by apply deref_ok|]. cbn. rewrite Hc.
  eapply does_look; [by apply on_cols_look|]. by apply does_index.
Qed.

Lemma does_dictionary (it : ItemView) : dictionary (lc_dict x) ->
  match AppendToDictionary (lc_dict x) it with
  | Ok d => does (on_cols (AppendToDictionaryH dictionary_depth dl it)) w l dl f (Ok tt) (mkLC d (lc_code x) (lc_index x) (lc_unique x)) /\ dictionary d
  | Throw e => does (on_cols (AppendToDictionaryH dictionary_depth dl it)) w l dl f (Throw e) x
  end.
Proof.
  intros Hdict. destruct H as (Hl & Hd & Hi & Hc & Hn & Hm). pose proof (AppendToDictionaryH_ok _ _ _ _ it Hdict Hd) as Ha.
  destruct (AppendToDictionary (lc_dict x) it) as [d|e].
  - destruct Ha as (h' & E & T & R & Hd'). split; [|done]. eexists. split; [unfold on_cols, zoom; rewrite E; reflexivity|].
    split; [|apply set_cols_changes; eapply touches_mono; [|exact T]; unfold f_cols; set_solver].
    split_and!; try done. cbn. by rewrite (proj2 T).
  - eexists. split; [by apply on_cols_look|]. split; [|apply changes_refl]. by split_and!.
Qed.
End Parts.

(** ** Proofs: the operations *)

(** The entry that [try_emplace] finds or makes. *)
Lemma emplace_found (k : Z * Z) (v : Z) (m : UniqueItems) : exists i, emplace k v m !! k = Some i.
Proof. unfold emplace. destruct (m !! k) as [i|] eqn:E; [by exists i|]. exists v. apply lookup_insert_eq. Qed.

Lemma lc_eta (x : lc) : mkLC (lc_dict x) (lc_code x) (lc_index x) (lc_unique x) = x.
Proof. by destruct x. Qed.

Lemma appendIndex_length (code : Code.t) (index index' : list Z) (di : Z) : appendIndex code index di = Ok index' ->
  is_index_code code = true /\ zlen index' = zlen index + 1.
Proof. unfold appendIndex. destruct (is_index_code code); [|done]. intros [= <-]. split; [done|]. by rewrite zlen_app. Qed.

Section AppendUnsafe.
Context (std_hash : bytes -> Z).

(** The [catch] block: the index as it was, and the entry of a new item out again. *)
Lemma does_rollback (w : world) (x : lc) (l dl : loc) (f : footprint) (initial : list Z) (is_new : bool) (k : Z * Z) (e : exn) :
  low_at w x l dl f ->
  (lc_index x = initial \/ (zlen (lc_index x) = zlen initial + 1 /\ is_index_code (lc_code x) = true)) ->
  does (let* index := index_column (mkLow dl (f_index f) (f_map f)) in
        when (negb (zlen index =? zlen initial)) (removeLastIndexH (mkLow dl (f_index f) (f_map f))) ;;;
        when is_new (let* items := deref_in w_maps (f_map f) in set_unique (f_map f) (delete k items)) ;;;
        throw e) w l dl f (Throw e)
    (mkLC (lc_dict x) (lc_code x) (if zlen (lc_index x) =? zlen initial then lc_index x else removeLastIndex (lc_index x))
       (if is_new then delete k (lc_unique x) else lc_unique x)).
Proof.
  intros H Hi. eapply does_look; [by eapply index_column_ok|].
  set (x1 := mkLC (lc_dict x) (lc_code x) (if zlen (lc_index x) =? zlen initial then lc_index x else removeLastIndex (lc_index x)) (lc_unique x)).
  eapply (does_bind _ _ _ _ _ _ _ x1).
  - subst x1. destruct (Z.eqb_spec (zlen (lc_index x)) (zlen initial)) as [Heq|Hne]; cbn [negb when].
    + rewrite lc_eta. by apply does_ret.
    + destruct Hi as [Hi|[_ Hc]]; [by rewrite Hi in Hne|]. by apply does_removeLast.
  - intros w1 H1. eapply (does_bind _ _ _ _ _ _ _ (mkLC (lc_dict x1) (lc_code x1) (lc_index x1) (if is_new then delete k (lc_unique x1) else lc_unique x1))).
    + destruct is_new; cbn [when]; [|by apply does_ret]. eapply does_look; [apply deref_ok; exact (proj2 (proj2 (proj2 (proj2 (proj2 H1)))))|]. by apply does_unique.
    + intros w2 H2. by apply does_raise.
Qed.

Lemma AppendUnsafeH_ok (w : world) (x x' : lc) (l dl : loc) (f : footprint) (it : ItemView) (r : result unit) : low_at w x l dl f -> dictionary (lc_dict x) ->
  AppendUnsafe std_hash it x = (r, x') -> r <> Throw Undefined -> r <> Throw Diverges -> does (AppendUnsafeH std_hash it l) w l dl f r x'.
Proof.
  intros H Hd E Hu Hv. unfold AppendUnsafe in E. unfold AppendUnsafeH.
  destruct (computeHashKey std_hash it) as [k|e] eqn:Ek; [|injection E as <- <-; exists w; split; [done|]; split; [done|apply changes_refl]].
  eapply does_look; [reflexivity|]. pose proof H as (Hl & Hr & _ & _ & _ & Hm). eapply does_look; [by apply deref_ok|].
  eapply does_look; [by eapply index_column_ok|]. eapply does_look; [by apply on_cols_look|]. cbn [dictionary_column_ unique_items_map_].
  eapply does_look; [unfold lift_result; by rewrite (SizeH_dictionary _ _ _ _ Hd Hr)|]. eapply does_look; [by apply deref_ok|].
  destruct (emplace_found k (Size (lc_dict x)) (lc_unique x)) as [di Hdi]. set (items := emplace _ _ _) in *. set (is_new := bool_decide _) in *.
  rewrite Hdi in E. set (x1 := mkLC (lc_dict x) (lc_code x) (lc_index x) items).
  eapply (does_bind _ _ _ _ _ _ _ x1); [by apply does_unique|]. intros w1 H1. rewrite Hdi. eapply does_look; [reflexivity|].
  pose proof (does_appendIndex w1 x1 l dl f H1 di) as Hai. cbn [x1 lc_code lc_index lc_dict lc_unique] in Hai.
  destruct (appendIndex (lc_code x) (lc_index x) di) as [index|e] eqn:Eai.
  - destruct (appendIndex_length _ _ _ _ Eai) as [Hc Hlen]. destruct is_new eqn:Enew; cbn [when] in *.
    + set (x2 := mkLC (lc_dict x) (lc_code x) index items). 
      destruct (AppendToDictionary (lc_dict x) it) as [d|e] eqn:Ea; injection E as <- <-.
      * apply does_try. eapply (does_bind _ _ _ _ _ _ _ x2); [exact Hai|]. intros w2 H2.
        pose proof (does_dictionary w2 x2 l dl f H2 it Hd) as Hdd. cbn [x2 lc_dict] in Hdd. rewrite Ea in Hdd. exact (proj1 Hdd).
      * eapply (does_catch _ _ _ _ _ _ e _ x2); [congruence|congruence| |].
        -- eapply (does_bind _ _ _ _ _ _ _ x2); [exact Hai|]. intros w2 H2.
           pose proof (does_dictionary w2 x2 l dl f H2 it Hd) as Hdd. cbn [x2 lc_dict] in Hdd. by rewrite Ea in Hdd.
        -- intros w3 H3. pose proof (does_rollback w3 x2 l dl f (lc_index x) true k e H3) as Hb. cbn [x2 lc_dict lc_code lc_index lc_unique] in Hb.
           rewrite (proj2 (Z.eqb_neq _ _)) in Hb by lia. apply Hb. by right.
    + injection E as <- <-. apply does_try. eapply (does_bind _ _ _ _ _ _ _ _ _ Hai). intros w2 H2. by apply does_ret.
  - injection E as <- <-. eapply (does_catch _ _ _ _ _ _ e _ x1); [congruence|congruence| |].
    + apply does_throw. exact Hai.
    + intros w2 H2. pose proof (does_rollback w2 x1 l dl f (lc_index x) is_new k e H2 ltac:(by left)) as Hb.
      cbn [x1 lc_dict lc_code lc_index lc_unique] in Hb. rewrite Z.eqb_refl in Hb. exact Hb.
Qed.
End AppendUnsafe.

(** *** Clear *)

Lemma clear_item (std_hash : bytes -> Z) (d : column) : wf_col d -> dict_item d = true ->
  Clear std_hash d = Ok (ClearDictionary d) /\ dict_item (ClearDictionary d) = true.
Proof.
  intros Hw Hd. destruct d as [| | | | |w ty d| | | | |]; try done.
  destruct Hw as (Ht & Hw & _). destruct w; try done; destruct ty as [[]| | | | | | | | | | |]; try done; injection Ht as Ht;
    pose proof (shape_of_type d Hw) as Hs; rewrite <- Ht in Hs; cbn in Hs; by destruct Hs as [? ->].
Qed.

Lemma clear_dictionary (std_hash : bytes -> Z) (d : column) : wf_col d -> dictionary d ->
  Clear std_hash d = Ok (ClearDictionary d) /\ dictionary (ClearDictionary d) /\ (depth d <= dictionary_depth)%nat.
Proof.
  intros Hw Hd. destruct d as [| | | | |w ty d| |n us| | |]; try done; try (cbn; split_and!; [done|done|unfold dictionary_depth; lia]).
  - destruct (clear_item std_hash (ColumnWrap w ty d) Hw Hd) as [E Hi]. split_and!; try done. pose proof (dict_item_depth _ Hw Hd). unfold dictionary_depth. lia.
  - destruct Hw as (Hw & _). destruct (clear_item std_hash n Hw Hd) as [E Hi]. cbn [Clear ClearDictionary]. rewrite E. split_and!; try done.
    pose proof (dict_item_depth _ Hw Hd). cbn [depth]. unfold dictionary_depth. lia.
Qed.

Section Clear.
Context (std_hash : bytes -> Z).

(** [m] is [Clear()] of the dictionary. *)
Lemma does_clear_dictionary (w : world) (x : lc) (l dl : loc) (f : footprint) : low_at w x l dl f -> wf_col (lc_dict x) -> dictionary (lc_dict x) ->
  does (on_cols (ClearH std_hash dictionary_depth dl)) w l dl f (Ok tt) (mkLC (ClearDictionary (lc_dict x)) (lc_code x) (lc_index x) (lc_unique x)).
Proof.
  intros (Hl & Hr & Hi & Hc & Hn & Hm) Hw Hd. destruct (clear_dictionary std_hash _ Hw Hd) as (Ec & _ & Hdep).
  destruct (ClearH_ok std_hash _ dictionary_depth _ _ _ _ Hr Hdep Ec) as (h' & E & T & R). eexists.
  split; [unfold on_cols, zoom; rewrite E; reflexivity|].
  split; [|apply set_cols_changes; eapply touches_mono; [|exact T]; unfold f_cols; set_solver].
  split_and!; try done. cbn. by rewrite (proj2 T).
Qed.

Lemma does_null_item (w : world) (x x' : lc) (l dl : loc) (f : footprint) : low_at w x l dl f -> dictionary (lc_dict x) ->
  AppendNullItem std_hash x = Ok x' -> does (AppendNullItemH std_hash (mkLow dl (f_index f) (f_map f))) w l dl f (Ok tt) x' /\ dictionary (lc_dict x').
Proof.
  intros H Hd E. pose proof H as (_ & Hr & _ & _ & _ & Hm). unfold AppendNullItem in E. unfold AppendNullItemH.
  destruct (GetNullItemForDictionary (lc_dict x)) as [it|] eqn:Ei; [|done]. cbn [rbind] in E.
  destruct (AppendToDictionary (lc_dict x) it) as [d|] eqn:Ea; [|done]. cbn [rbind] in E.
  destruct (computeHashKey std_hash it) as [k|] eqn:Ek; [|done]. injection E as <-.
  pose proof (does_dictionary w x l dl f H it Hd) as Hdd. rewrite Ea in Hdd. destruct Hdd as [Hdd Hd']. split; [|done].
  eapply does_look; [by apply on_cols_look|]. cbn [dictionary_column_ unique_items_map_].
  eapply does_look; [unfold lift_result; by rewrite (NullItemH_ok _ _ _ _ Hd Hr), Ei|].
  eapply (does_bind _ _ _ _ _ _ _ _ _ Hdd). intros w1 H1. eapply does_look; [unfold lift_result; by rewrite Ek|].
  eapply does_look; [apply deref_ok; exact (proj2 (proj2 (proj2 (proj2 (proj2 H1)))))|]. exact (does_unique w1 _ l dl f H1 _).
Qed.

Lemma does_default_item (w : world) (x x' : lc) (l dl : loc) (f : footprint) : low_at w x l dl f -> dictionary (lc_dict x) ->
  AppendDefaultItem std_hash x = Ok x' -> does (AppendDefaultItemH std_hash (mkLow dl (f_index f) (f_map f))) w l dl f (Ok tt) x' /\ dictionary (lc_dict x').
Proof.
  intros H Hd E. pose proof H as (_ & Hr & _ & _ & _ & Hm). unfold AppendDefaultItem in E. unfold AppendDefaultItemH.
  destruct (GetDefaultItemForDictionary (lc_dict x)) as [it|] eqn:Ei; [|done]. cbn [rbind] in E.
  destruct (computeHashKey std_hash it) as [k|] eqn:Ek; [|done]. cbn [rbind] in E.
  destruct (AppendToDictionary (lc_dict x) it) as [d|] eqn:Ea; [|done]. injection E as <-.
  split; [|exact (append_dictionary _ _ _ Hd Ea)].
  eapply does_look; [by apply on_cols_look|]. cbn [dictionary_column_ unique_items_map_].
  eapply does_look; [unfold lift_result; by rewrite (DefaultItemH_ok _ _ _ _ Hd Hr), Ei|].
  eapply does_look; [unfold lift_result; by rewrite Ek|].
  eapply does_look; [unfold lift_result; by rewrite (SizeH_dictionary _ _ _ _ Hd Hr)|].
  eapply does_look; [by apply deref_ok|].
  eapply (does_bind _ _ _ _ _ _ _ _ _ (does_unique w x l dl f H _)). intros w1 H1.
  pose proof (does_dictionary w1 _ l dl f H1 it Hd) as Hdd. cbn [lc_dict] in Hdd. rewrite Ea in Hdd. exact (proj1 Hdd).
Qed.

(** [Clear]. *)
Lemma ClearLow_ok (w : world) (x x' : lc) (l dl : loc) (f : footprint) : low_at w x l dl f -> wf_col (lc_dict x) -> dictionary (lc_dict x) ->
  LowCardinality_Clear std_hash ClearDictionary x = Ok x' -> does (ClearLow std_hash l) w l dl f (Ok tt) x'.
Proof.
  intros H Hw Hd E. pose proof H as (Hl & Hr & Hi & Hc & Hn & Hm). unfold ClearLow. destruct (clear_dictionary std_hash _ Hw Hd) as (Ec & Hd' & Hdep).
  eapply does_look; [by apply deref_ok|]. eapply does_look; [by apply deref_ok|]. cbn [dictionary_column_ unique_items_map_].
  set (x1 := mkLC (lc_dict x) (lc_code x) [] (lc_unique x)). set (x2 := mkLC (ClearDictionary (lc_dict x)) (lc_code x) [] (lc_unique x)).
  set (x3 := mkLC (ClearDictionary (lc_dict x)) (lc_code x) [] ∅).
  eapply (does_bind _ _ _ _ _ _ _ x1).
  { pose proof (does_index w x l dl f H (fun c => match Clear std_hash c with Ok c => (Ok tt, c) | Throw e => (Throw e, c) end) [] eq_refl) as (w' & Ew & Hw' & Cw).
    exists w'. split; [|done]. rewrite <- Ew. unfold on_cols, zoom. cbn [ClearH]. by rewrite Hc. }
  intros w1 H1. eapply (does_bind _ _ _ _ _ _ _ x2); [exact (does_clear_dictionary w1 x1 l dl f H1 Hw Hd)|].
  intros w2 H2. eapply (does_bind _ _ _ _ _ _ _ x3); [exact (does_unique w2 x2 l dl f H2 ∅)|].
  intros w3 H3. eapply does_look; [by apply on_cols_look|]. unfold LowCardinality_Clear in E. fold x3 in E.
  destruct (repr_dictionary _ _ _ _ Hd' (proj1 (proj2 H3))) as [(Hit & Edl & _)|(n & us & ln & u & En & _ & Edl & _)]; rewrite Edl.
  - replace (match lc_dict x3 with ColumnNullable _ _ => AppendNullItem std_hash x3 | _ => Ok x3 end) with (@Ok lc x3) in E
      by (subst x3; cbn [lc_dict]; by destruct (ClearDictionary (lc_dict x))).
    by apply (does_default_item w3 x3).
  - cbn [lc_dict x3] in E, En. rewrite En in E. destruct (AppendNullItem std_hash x3) as [x4|] eqn:E4; [|done]. cbn [rbind] in E.
    destruct (does_null_item w3 x3 x4 l dl f H3 Hd' E4) as [D4 Hd4]. eapply (does_bind _ _ _ _ _ _ _ _ _ D4).
    intros w4 H4. by apply (does_default_item w4 x4).
Qed.
End Clear.

(** *** Swap *)

Lemma dictionary_deep (d : column) : wf_col d -> dictionary d -> (depth d <= dictionary_depth)%nat.
Proof. intros Hw Hd. by apply (clear_dictionary (fun _ => 0)). Qed.

(** The footprint of a column that has got another index column. *)
Definition with_column (f : footprint) (ic : loc) : footprint := mkFoot (f_dictionary f) ic (f_index f) (f_map f).

(** Two dictionary columns with no object in common, and the change of both. *)
Abbreviation changes_both f g := (changes (f_cols f ∪ f_cols g) ({[f_index f]} ∪ {[f_index g]}) ({[f_map f]} ∪ {[f_map g]})).

Lemma check_types_look (n : nat) (d d' : column) (h : heap) (l l' : loc) (F F' : gset loc) : repr h d l F -> repr h d' l' F' -> (depth d <= n)%nat -> (depth d' <= n)%nat ->
  check_types n l l' h = (match IsEqual (ColumnType d) (ColumnType d') with Ok true => Ok tt | Ok false => Throw ValidationError | Throw e => Throw e end, h).
Proof. intros Hr Hr' Hn Hn'. rewrite (check_types_ok n d d' h l l' F F') by done. by destruct (IsEqual _ _) as [[]|]. Qed.

(** The exchange of the bundles and of the maps, after the dictionaries. *)
Lemma swap_bundles (w : world) (x y : lc) (l k dl dk : loc) (f g : footprint) : low_at w x l dl f -> low_at w y k dk g -> apart f g ->
  exists w', (let* s := deref_in w_index (f_index f) in
              let* s' := deref_in w_index (f_index g) in
              set_index (f_index f) s' ;;; set_index (f_index g) s ;;;
              let* m := deref_in w_maps (f_map f) in
              let* m' := deref_in w_maps (f_map g) in
              set_unique (f_map f) m' ;;; set_unique (f_map g) m) w = (Ok tt, w') /\
    low_at w' (mkLC (lc_dict x) (lc_code y) (lc_index y) (lc_unique y)) l dl (with_column f (f_column g)) /\
    low_at w' (mkLC (lc_dict y) (lc_code x) (lc_index x) (lc_unique x)) k dk (with_column g (f_column f)) /\ changes_both f g w w'.
Proof.
  intros (Hl & Hd & Hi & Hc & Hn & Hm) (Hl' & Hd' & Hi' & Hc' & Hn' & Hm') (Ha & Hai & Ham). unfold f_cols in Ha.
  set (w1 := set_indexes (<[f_index g := (f_column f, lc_code x)]> (<[f_index f := (f_column g, lc_code y)]> (w_index w))) w).
  set (w2 := set_maps (<[f_map g := lc_unique x]> (<[f_map f := lc_unique y]> (w_maps w1))) w1). exists w2.
  split; [|split; [|split]].
  - rewrite (bind_ok _ _ _ _ _ (deref_ok w_index w _ _ Hi)), (bind_ok _ _ _ _ _ (deref_ok w_index w _ _ Hi')).
    change ((let* m := deref_in w_maps (f_map f) in let* m' := deref_in w_maps (f_map g) in set_unique (f_map f) m' ;;; set_unique (f_map g) m) w1 = (Ok tt, w2)).
    by rewrite (bind_ok _ _ _ _ _ (deref_ok w_maps w1 _ _ Hm)), (bind_ok _ _ _ _ _ (deref_ok w_maps w1 _ _ Hm')).
  - split_and!; try done; cbn [with_column f_dictionary f_column f_index f_map]; [|set_solver|].
    + change (w_index w2) with (<[f_index g := (f_column f, lc_code x)]> (<[f_index f := (f_column g, lc_code y)]> (w_index w))).
      rewrite lookup_insert_ne by done. apply lookup_insert_eq.
    + change (w_maps w2) with (<[f_map g := lc_unique x]> (<[f_map f := lc_unique y]> (w_maps w))). rewrite lookup_insert_ne by done. apply lookup_insert_eq.
  - split_and!; try done; cbn [with_column f_dictionary f_column f_index f_map]; [apply lookup_insert_eq|set_solver|apply lookup_insert_eq].
  - split; [split; [apply kept_refl|done]|]. split; [done|]. split.
    + intros i Hi2. change (w_index w2) with (<[f_index g := (f_column f, lc_code x)]> (<[f_index f := (f_column g, lc_code y)]> (w_index w))).
      by rewrite !lookup_insert_ne by set_solver.
    + intros u Hu2. change (w_maps w2) with (<[f_map g := lc_unique x]> (<[f_map f := lc_unique y]> (w_maps w))). by rewrite !lookup_insert_ne by set_solver.
Qed.

(** [Swap] of two dictionary columns that have no object in common. *)
Lemma SwapLow_ok (w : world) (x y x' y' : lc) (l k dl dk : loc) (f g : footprint) (r : result unit) : low_at w x l dl f -> low_at w y k dk g -> apart f g ->
  wf_col (lc_dict x) -> dictionary (lc_dict x) -> wf_col (lc_dict y) -> dictionary (lc_dict y) ->
  Swap (low_classes dl w) (low_classes dk w) (lc_column x) (lc_column y) = (r, (lc_column x', lc_column y')) ->
  exists w' f' g', SwapLow l k w = (r, w') /\ low_at w' x' l dl f' /\ low_at w' y' k dk g' /\ changes_both f g w w'.
Proof.
  intros H H' Ha Hw Hd Hw' Hd' E. pose proof H as (Hl & Hr & Hi & Hc & Hn & Hm). pose proof H' as (Hl' & Hr' & Hi' & Hc' & Hn' & Hm').
  pose proof (dictionary_deep _ Hw Hd) as Hdep. pose proof (dictionary_deep _ Hw' Hd') as Hdep'.
  unfold SwapLow. rewrite (bind_ok _ _ _ _ _ (deref_ok w_lows w _ _ Hl)). unfold bind at 1. rewrite Hl'. cbn [dictionary_column_ index_ unique_items_map_].
  pose proof (on_cols_look _ _ _ (check_types_look dictionary_depth _ _ _ _ _ _ _ Hr Hr' Hdep Hdep')) as Hck.
  set (kx := ClassesH dictionary_depth dl (w_cols w)). set (ky := ClassesH dictionary_depth dk (w_cols w)).
  change (Swap (low_classes dl w) (low_classes dk w) (lc_column x) (lc_column y)) with
    (ColumnLowCardinality_Swap (Swap kx ky (lc_dict x) (lc_dict y)) (lc_dict x) (lc_dict y) (lc_code x) (lc_code y) (lc_index x) (lc_index y) (lc_unique x) (lc_unique y)) in E.
  unfold ColumnLowCardinality_Swap in E. destruct (IsEqual (ColumnType (lc_dict x)) (ColumnType (lc_dict y))) as [[|]|e];
    [|injection E as <- E1 E2 E3 E4 E5 E6 E7 E8; exists w, f, g; rewrite (bind_throw _ _ _ _ _ Hck); destruct x, y, x', y'; cbn in *; subst;
      split_and!; try done; apply changes_refl..].
  rewrite (bind_ok _ _ _ _ _ Hck). destruct (Swap kx ky (lc_dict x) (lc_dict y)) as [r1 [d d']] eqn:Ed.
  pose proof Ha as (Hac & _). unfold f_cols in Hac.
  destruct (SwapH_ok dictionary_depth _ _ Hdep Hdep' (w_cols w) dl dk _ _ r1 d d' Hr Hr' ltac:(set_solver) Ed) as (h1 & E1 & T1 & R1 & R1').
  assert (swap_dictionaries dl dk w = (r1, set_cols h1 w)) as Es by (unfold swap_dictionaries, on_cols, zoom; by rewrite E1).
  assert (changes_both f g w (set_cols h1 w)) as C1 by (apply set_cols_changes; eapply touches_mono; [|exact T1]; unfold f_cols; clear; set_solver).
  assert (f_column f ∉ f_dictionary f ∪ f_dictionary g) as Hcf by (clear -Hn Hac; set_solver).
  assert (f_column g ∉ f_dictionary f ∪ f_dictionary g) as Hcg by (clear -Hn' Hac; set_solver).
  assert (low_at (set_cols h1 w) (mkLC d (lc_code x) (lc_index x) (lc_unique x)) l dl f) as L1
    by (split_and!; [exact Hl|exact R1|exact Hi|cbn; by rewrite (proj2 T1)|exact Hn|exact Hm]).
  assert (low_at (set_cols h1 w) (mkLC d' (lc_code y) (lc_index y) (lc_unique y)) k dk g) as L1'
    by (split_and!; [exact Hl'|exact R1'|exact Hi'|cbn; by rewrite (proj2 T1)|exact Hn'|exact Hm']).
  destruct r1 as [[]|e].
  - injection E as <- E1' E2 E3 E4 E5 E6 E7 E8. rewrite (bind_ok _ _ _ _ _ Es).
    destruct (swap_bundles _ _ _ _ _ _ _ _ _ L1 L1' Ha) as (w2 & E' & L2 & L2' & C2). exists w2, (with_column f (f_column g)), (with_column g (f_column f)).
    cbn [lc_dict lc_code lc_index lc_unique] in L2, L2'. rewrite E1', E2, E3, E4, lc_eta in L2. rewrite E5, E6, E7, E8, lc_eta in L2'.
    split_and!; try done. by eapply changes_trans.
  - injection E as <- E1' E2 E3 E4 E5 E6 E7 E8. rewrite (bind_throw _ _ _ _ _ Es). exists (set_cols h1 w), f, g.
    rewrite E1', E2, E3, E4, lc_eta in L1. rewrite E5, E6, E7, E8, lc_eta in L1'. by split_and!.
Qed.

(** A dictionary made as a typed column refuses one that is not of its class. *)
Lemma SwapLow_refused (w : world) (x y : lc) (l k dl dk : loc) (f g : footprint) : low_at w x l dl f -> low_at w y k dk g ->
  wf_col (lc_dict x) -> dictionary (lc_dict x) -> wf_col (lc_dict y) -> dictionary (lc_dict y) -> IsEqual (ColumnType (lc_dict x)) (ColumnType (lc_dict y)) = Ok true ->
  (exists n us, lc_dict x = ColumnNullable n us) -> casts_to dl dk = false -> SwapLow l k w = (Throw BadCast, w).
Proof.
  intros (Hl & Hr & _) (Hl' & Hr' & _) Hw Hd Hw' Hd' He (n & us & En) Ht. unfold SwapLow. rewrite (bind_ok _ _ _ _ _ (deref_ok w_lows w _ _ Hl)). unfold bind at 1. rewrite Hl'.
  cbn [dictionary_column_]. pose proof (dictionary_deep _ Hw Hd) as Hdep. pose proof (dictionary_deep _ Hw' Hd') as Hdep'.
  pose proof (on_cols_look _ _ _ (check_types_look dictionary_depth _ _ _ _ _ _ _ Hr Hr' Hdep Hdep')) as Hck. rewrite He in Hck.
  rewrite (bind_ok _ _ _ _ _ Hck). apply bind_throw. unfold swap_dictionaries, on_cols, zoom, dictionary_depth. rewrite SwapH_S.
  rewrite En in Hr. destruct Hr as (ln & u & F & -> & _). apply repr_kind in Hr'. rewrite Ht. destruct w as [h ? ? ?]. cbn [w_cols] in *.
  destruct (h !! dk) as [[]|]; done.
Qed.

(** *** Reading *)

Lemma SizeLow_ok (w : world) (x : lc) (l dl : loc) (f : footprint) : low_at w x l dl f -> SizeLow l w = (Ok (Size (lc_column x)), w).
Proof.
  intros H. unfold SizeLow. rewrite (bind_ok _ _ _ _ _ (deref_ok w_lows w _ _ (proj1 H))).
  by rewrite (bind_ok _ _ _ _ _ (index_column_ok _ _ _ _ _ H)).
Qed.

Lemma GetItemLow_ok (w : world) (x : lc) (l dl : loc) (f : footprint) (i : Z) : low_at w x l dl f -> dictionary (lc_dict x) -> is_index_code (lc_code x) = true ->
  GetItemLow l i w = (GetItem (lc_column x) i, w).
Proof.
  intros H Hd Hc. pose proof H as (Hl & Hr & Hi & Hcol & _ & _). destruct (index_ok _ _ _ _ _ H) as [_ Hn]. unfold GetItemLow, getDictionaryIndex.
  rewrite (bind_ok _ _ _ _ _ (deref_ok w_lows w _ _ Hl)). cbn [index_ dictionary_column_].
  assert (forall k : Z -> M world ItemView, bind (let* '(ic, code) := deref_in w_index (f_index f) in
            if is_index_code code then let* index := on_cols (numbers ic) in lift_result (at_ index i) else throw ValidationError) k w =
            match at_ (lc_index x) i with Ok di => k di w | Throw e => (Throw e, w) end) as Hdi.
  { intros k. unfold bind at 1. rewrite (bind_ok _ _ _ _ _ (deref_ok w_index w _ _ Hi)), Hc, (bind_ok _ _ _ _ _ (on_cols_look _ w _ Hn)).
    unfold lift_result. by destruct (at_ (lc_index x) i). }
  rewrite Hdi. change (GetItem (lc_column x) i) with (ColumnLowCardinality_GetItem (GetItem (lc_dict x)) (lc_dict x) (lc_index x) i).
  unfold ColumnLowCardinality_GetItem. destruct (at_ (lc_index x) i) as [di|e]; [|done]. cbn [rbind].
  rewrite (bind_ok _ _ _ _ _ (on_cols_look get w _ eq_refl)), (GetItemH_ok _ _ _ _ di Hd Hr).
  destruct (repr_dictionary _ _ _ _ Hd Hr) as [(Hit & Edl & _)|(n & us & ln & u & En & _ & Edl & _)]; rewrite Edl.
  - by destruct (lc_dict x).
  - rewrite En. by destruct (di =? 0).
Qed.

(** *** LoadBody *)

(** Columns of the same class and type, of the classes a dictionary is made of. *)
Fixpoint kind (a b : column) : Prop :=
  match a, b with
  | ColumnVector c _, ColumnVector c' _ => c = c'
  | ColumnString _, ColumnString _ => True
  | ColumnFixedString n _, ColumnFixedString n' _ => n = n'
  | ColumnWrap w t d, ColumnWrap w' t' d' => w = w' /\ t = t' /\ kind d d'
  | ColumnNullable d _, ColumnNullable d' _ => kind d d'
  | _, _ => False
  end.

Lemma kind_right (a : column) : forall b, kind a b -> kind b b.
Proof.
  induction a as [| | | | |w t d IH| |d us IH| | |] using column_ind'; intros [| | | | |w' t' d'| |d' us'| | |] Hk; try done; [|exact (IH _ Hk)].
  destruct Hk as (-> & -> & Hk). split_and!; try done. exact (IH _ Hk).
Qed.

Lemma kind_trans (a : column) : forall b c, kind a b -> kind b c -> kind a c.
Proof.
  induction a as [| | | | |w t d IH| |d us IH| | |] using column_ind'; intros [| | | | |w1 t1 d1| |d1 us1| | |] [| | | | |w2 t2 d2| |d2 us2| | |] H1 H2;
    try done; cbn in *; try congruence; [|by apply (IH d1)].
  destruct H1 as (-> & -> & H1), H2 as (-> & -> & H2). split_and!; try done. by apply (IH d1).
Qed.

Lemma kind_depth (a : column) : forall b, kind a b -> depth a = depth b.
Proof.
  induction a as [| | | | |w t d IH| |d us IH| | |] using column_ind'; intros [| | | | |w' t' d'| |d' us'| | |] Hk; try done; cbn; f_equal; apply IH; [|done].
  by destruct Hk as (_ & _ & Hk).
Qed.

Lemma kind_type (a : column) : forall b, kind a b -> ColumnType a = ColumnType b.
Proof.
  induction a as [| | | | |w t d IH| |d us IH| | |] using column_ind'; intros [| | | | |w' t' d'| |d' us'| | |] Hk; try done; cbn in *; try congruence;
    [by destruct Hk as (_ & -> & _)|]. f_equal. by apply IH.
Qed.

Lemma kind_item (a b : column) : kind a b -> dict_item a = dict_item b.
Proof. destruct a, b; try done. by intros (-> & _). Qed.

Lemma kind_dictionary (a b : column) : kind a b -> dictionary a -> dictionary b.
Proof.
  destruct a, b; try done; cbn; [by intros (-> & _)|]. intros Hk. by rewrite (kind_item _ _ Hk).
Qed.

(** [Swap] of two such columns exchanges them, if a typed one meets a column of its own class. *)
Lemma kind_swap (h : heap) (a b : column) (l l' : loc) (F F' : gset loc) : wf_col a -> dictionary a -> kind a b -> repr h a l F -> repr h b l' F' ->
  (forall n us, a = ColumnNullable n us -> casts_to l l' = true) ->
  Swap (ClassesH dictionary_depth l h) (ClassesH dictionary_depth l' h) a b = (Ok tt, (b, a)).
Proof.
  assert (forall n a b l l' F F', kind a b -> dict_item a = true -> repr h a l F -> repr h b l' F' ->
    Swap (ClassesH (S n) l h) (ClassesH (S n) l' h) a b = (Ok tt, (b, a))) as Hitem.
  { intros n x y k k' G G' Hk Hd Hr Hr'. destruct x as [| | | | |w t d| |n1 us| | |], y as [| | | | |w' t' d'| |n' us'| | |]; try done; cbn in Hk;
      apply repr_leaf in Hr as [Hr _]; try done; apply repr_leaf in Hr' as [Hr' _]; try done; cbn [ClassesH]; rewrite Hr, Hr'.
    - subst. cbn [Swap same_template own leaf_classes negb]. by rewrite bool_decide_true.
    - done.
    - subst. cbn [Swap same_template own leaf_classes negb]. unfold ColumnFixedString_Swap. by rewrite Z.eqb_refl.
    - destruct Hk as (-> & -> & _). cbn [Swap same_template own leaf_classes negb]. rewrite bool_decide_true by done. unfold ColumnWrap_Swap. by rewrite swap_check_refl. }
  intros Hw Hd Hk Hr Hr' Hc. destruct a as [| | | | |w t d| |n us| | |]; try done; try (by eapply (Hitem 2%nat)).
  destruct b as [| | | | | | |n' us'| | |]; try done. pose proof Hw as (_ & _ & _ & Hn). destruct Hr as (ln & u & G & Hl & _ & _ & _ & Hr).
  destruct Hr' as (ln' & u' & G' & Hl' & _ & _ & _ & Hr'). unfold dictionary_depth.
  pose proof (casts_composite 2 l l' h _ _ Hl Hl' ltac:(done) ltac:(done)) as Hs. rewrite (Hc n us eq_refl) in Hs.
  pose proof (Hitem 1%nat n n' ln ln' G G' Hk Hd Hr Hr') as Hi.
  remember (ClassesH 3 l h) as kx eqn:Ex. remember (ClassesH 3 l' h) as ky eqn:Ey. cbn [Swap]. rewrite Hs. cbn [negb].
  cbn [ClassesH] in Ex, Ey. rewrite Hl in Ex. rewrite Hl' in Ey. subst kx ky. unfold part. cbn [parts hd] in *. unfold ColumnNullable_Swap.
  rewrite <- (kind_type n n' Hk), IsEqual_refl by done. change (ClassesH 2 ln h) with (ClassesH (S 1) ln h).
  cbn [ClassesH] in Hi. by rewrite Hi.
Qed.

(** A well-formed dictionary, and a clone of it. *)
Lemma item_kind (std_hash : bytes -> Z) (d : column) : wf_col d -> dict_item d = true -> exists e, CloneEmpty std_hash d = Ok e /\ kind d e.
Proof.
  intros Hw Hd. destruct d as [| | | | |w ty d| | | | |]; try done; try (eexists; split; [reflexivity|done]).
  destruct Hw as (Ht & Hw & _). destruct w; try done; destruct ty as [[]| | | | | | | | | | |]; try done; injection Ht as Ht;
    pose proof (shape_of_type d Hw) as Hs; rewrite <- Ht in Hs; cbn in Hs; destruct Hs as [? ->]; (eexists; split; [reflexivity|]; by split_and!).
Qed.

Lemma clone_kind (std_hash : bytes -> Z) (d : column) : wf_col d -> dictionary d -> exists e, CloneEmpty std_hash d = Ok e /\ kind d e.
Proof.
  intros Hw Hd. destruct d as [| | | | |w ty d| |n us| | |]; try done; try (by apply item_kind).
  destruct Hw as (Hw & _). destruct (item_kind std_hash n Hw Hd) as (e & E & Hk). cbn [CloneEmpty]. rewrite E. by eexists.
Qed.

Section Load.
Context (std_hash : bytes -> Z) {I : Type} `{InputStream I}.

(** Loading keeps the class. *)
Lemma load_kind (n : nat) : forall (c c' : column) (rows : Z) (ok : bool) (s s' : I), kind c c ->
  LoadBody_ std_hash n c rows s = (Ok (ok, c'), s') -> kind c c'.
Proof.
  induction n as [|n IH]; intros c c' rows ok s s' Hk E; [done|].
  assert (forall w t d rows', kind d d -> (let* '(ok, d) := LoadBody_ std_hash n d rows' in ret (ok, ColumnWrap w t d)) s = (Ok (ok, c'), s') ->
            kind (ColumnWrap w t d) c') as Hwrap.
  { intros w t d rows' Hkd E'. apply bind_inv in E' as ([ok1 d1] & s1 & E1 & E2). injection E2 as <- <- <-. split_and!; try done. by eapply IH. }
  destruct c as [code data| |items|m data| |w t d| |d us| | |]; try done; cbn [LoadBody_] in E.
  - apply bind_inv in E as ([ok1 data1] & s1 & E1 & E2). by injection E2 as <- <- <-.
  - unfold ColumnString_LoadBody in E. destruct (rows =? 0); [by injection E as <- <- <-|].
    apply bind_inv in E as (l & s1 & E1 & E2). destruct l; by injection E2 as <- <- <-.
  - unfold ColumnFixedString_LoadBody in E. apply bind_inv in E as ([got ok1] & s1 & E1 & E2). by injection E2 as <- <- <-.
  - destruct Hk as (_ & _ & Hk). destruct w; by apply Hwrap in E.
  - unfold ColumnNullable_LoadBody in E. apply bind_inv in E as ([ok1 us1] & s1 & E1 & E2). destruct (negb ok1); [by injection E2 as <- <- <-|].
    apply bind_inv in E2 as ([ok2 d2] & s2 & E2 & E3). injection E3 as <- <- <-. by eapply (IH d).
Qed.

Lemma load_dictionary_kind (n : nat) (e : column) (new : lc) (rows : Z) (s s' : I) : kind e e ->
  LoadDictionary std_hash (LoadBody_ std_hash n) e rows s = (Ok new, s') -> kind e (lc_dict new) /\ is_index_code (lc_code new) = true.
Proof.
  intros Hk E. unfold LoadDictionary in E.
  apply bind_inv in E as ([ok t] & s1 & _ & E). destruct (negb ok); [done|].
  apply bind_inv in E as (code & s2 & Ec & E). destruct (negb _) in E; [done|]. destruct (Z.land _ _ =? 0) in E; [done|].
  apply bind_inv in E as ([ok2 keys] & s3 & _ & E). destruct (negb ok2); [done|].
  apply bind_inv in E as ([ok3 data] & s4 & El & E). destruct (negb ok3); [done|].
  apply bind_inv in E as ([ok4 nrows] & s5 & _ & E). destruct (negb ok4); [done|]. destruct (negb _) in E; [done|].
  apply bind_inv in E as ([ok5 index] & s6 & _ & E). apply bind_inv in E as (u & s7 & _ & E). injection E as <- <-. cbn [lc_dict lc_code]. split.
  - destruct e as [| | | | |w ty d| |d us| | |]; try done; by apply load_kind in El.
  - injection Ec as Ec _. unfold createIndexColumn in Ec. repeat (destruct (_ =? _) in Ec; [by injection Ec as <-|]). done.
Qed.

Lemma make_shared_fresh (h : heap) (k : template) (o : obj) : exists l, make_shared k o h = (Ok l, <[l := o]> h) /\ h !! l = None /\ template_of l = k.
Proof. exists (new_loc k h). split; [done|]. split; [apply new_loc_fresh|done]. Qed.

Lemma fresh_extends (h : heap) (l : loc) (o : obj) : h !! l = None -> extends h (<[l := o]> h).
Proof. intros Hl k o' Hk. rewrite lookup_insert_ne; [done|]. by intros ->; rewrite Hl in Hk. Qed.

Definition same_others (w w' : world) : Prop := w_index w' = w_index w /\ w_maps w' = w_maps w /\ w_lows w' = w_lows w.

(** The objects of a loaded dictionary are new. *)
Lemma new_dictionary_ok (w : world) (like : loc) (d : column) : dictionary d -> exists nd G w1, new_dictionary like d w = (Ok nd, w1) /\
  extends (w_cols w) (w_cols w1) /\ repr (w_cols w1) d nd G /\ (forall k, k ∈ G -> w_cols w !! k = None) /\
  (forall n us, d = ColumnNullable n us -> template_of nd = template_of like) /\ same_others w w1.
Proof.
  intros Hd. assert ((exists n us, d = ColumnNullable n us) \/ ~ exists n us, d = ColumnNullable n us) as [(n & us & ->)|Hn]
    by (destruct d; try (right; by intros (? & ? & ?)); by left; eauto).
  - cbn [new_dictionary]. destruct (make_shared_fresh (w_cols w) None (OColumn n)) as (ln & E1 & F1 & _). set (h1 := <[ln := OColumn n]> (w_cols w)) in *.
    destruct (make_shared_fresh h1 None (OColumn (ColumnVector Code.UInt8 us))) as (lu & E2 & F2 & _). set (h2 := <[lu := OColumn (ColumnVector Code.UInt8 us)]> h1) in *.
    destruct (make_shared_fresh h2 (template_of like) (ONullable ln lu)) as (ld & E3 & F3 & T3). set (h3 := <[ld := ONullable ln lu]> h2) in *.
    pose proof (fresh_extends _ _ (OColumn n) F1) as X1. pose proof (fresh_extends _ _ (OColumn (ColumnVector Code.UInt8 us)) F2) as X2.
    pose proof (fresh_extends _ _ (ONullable ln lu) F3) as X3. fold h1 in X1. fold h2 in X2. fold h3 in X3.
    eexists ld, ({[lu]} ∪ {[ln]}), _. split; [|split_and!].
    + unfold on_cols, zoom, bind. rewrite E1. cbn [w_cols set_cols]. rewrite E2. cbn [w_cols set_cols]. rewrite E3. reflexivity.
    + cbn [w_cols]. by eapply extends_trans, extends_trans.
    + cbn [w_cols]. apply nullable_repr; [done|apply lookup_insert_eq|by apply X3, X2, lookup_insert_eq|by apply X3, lookup_insert_eq|].
      intros ->. unfold h1 in F2. by rewrite lookup_insert_eq in F2.
    + intros k Hk. apply elem_of_union in Hk as [Hk|Hk]; apply elem_of_singleton in Hk as ->; [|done]. destruct (w_cols w !! lu) eqn:E; [|done]. by rewrite (X1 _ _ E) in F2.
    + done.
    + done.
  - assert (new_dictionary like d = on_cols (make_shared None (OColumn d))) as -> by (destruct d; try done; by destruct Hn; eauto).
    destruct (make_shared_fresh (w_cols w) None (OColumn d)) as (ld & E1 & F1 & _). eexists ld, {[ld]}, _. split; [unfold on_cols, zoom; rewrite E1; reflexivity|].
    assert (dict_item d = true) as Hi by (destruct d; try done; by destruct Hn; eauto).
    cbn [w_cols set_cols]. split_and!; try done; [by apply fresh_extends|apply leaf_repr; [done|apply lookup_insert_eq]|set_solver|].
    intros n us ->. by destruct Hn; eauto.
Qed.

Lemma repr_dom (h : heap) (d : column) (l : loc) (F : gset loc) (k : loc) : dictionary d -> repr h d l F -> k ∈ F -> h !! k <> None.
Proof.
  intros Hd Hr Hk. destruct (repr_dictionary h d l F Hd Hr) as [(_ & Hl & ->)|(n & us & ln & u & _ & _ & _ & Hln & Hu & _ & ->)].
  - apply elem_of_singleton in Hk as ->. by rewrite Hl.
  - apply elem_of_union in Hk as [Hk|Hk]; apply elem_of_singleton in Hk as ->; by rewrite ?Hu, ?Hln.
Qed.

Lemma install_ok (w : world) (x new : lc) (l dl : loc) (f : footprint) : low_at w x l dl f -> wf_col (lc_dict x) -> dictionary (lc_dict x) ->
  kind (lc_dict x) (lc_dict new) ->
  exists w' f', install (mkLow dl (f_index f) (f_map f)) new w = (Ok tt, w') /\ low_at w' new l dl f' /\ changes_of f w w'.
Proof.
  intros (Hl & Hr & Hi & Hc & Hn & Hm) Hw Hd Hk. pose proof (kind_dictionary _ _ Hk Hd) as Hd'.
  unfold install. cbn [dictionary_column_ index_ unique_items_map_].
  destruct (new_dictionary_ok w dl (lc_dict new) Hd') as (nd & G & w1 & E1 & X1 & R1 & F1 & T1 & (SI & SM & SL)). rewrite (bind_ok _ _ _ _ _ E1).
  destruct (make_shared_fresh (w_cols w1) None (OColumn (ColumnVector (lc_code new) (lc_index new)))) as (ic & E2 & F2 & _).
  pose proof (fresh_extends _ _ (OColumn (ColumnVector (lc_code new) (lc_index new))) F2) as X2. set (h2 := <[ic := _]> (w_cols w1)) in *.
  assert (on_cols (make_shared None (OColumn (ColumnVector (lc_code new) (lc_index new)))) w1 = (Ok ic, set_cols h2 w1)) as E2'
    by (unfold on_cols, zoom; by rewrite E2). rewrite (bind_ok _ _ _ _ _ E2').
  assert (repr h2 (lc_dict x) dl (f_dictionary f)) as Rx by (by eapply repr_extends, repr_extends).
  assert (repr h2 (lc_dict new) nd G) as Rn by (by eapply repr_extends).
  assert (f_dictionary f ## G) as HFG by (intros k Hk1 Hk2; by apply (repr_dom _ _ _ _ k Hd Hr Hk1), F1).
  assert ((ic ∉ f_dictionary f) /\ (ic ∉ G)) as [HicF HicG].
  { split; intros Hin; [apply (repr_dom _ _ _ _ ic Hd (repr_extends _ _ _ _ _ X1 Hr) Hin)|apply (repr_dom _ _ _ _ ic Hd' R1 Hin)]; done. }
  pose proof (dictionary_deep _ Hw Hd) as Hdep. assert ((depth (lc_dict new) <= dictionary_depth)%nat) as Hdep' by (rewrite <- (kind_depth _ _ Hk); done).
  assert (forall n us, lc_dict x = ColumnNullable n us -> casts_to dl nd = true) as Hcast.
  { intros n us Ex. rewrite Ex in Hk. destruct (lc_dict new) as [| | | | | | |n' us'| | |]; try done. unfold casts_to, same_template. cbn [own].
    rewrite (T1 _ _ eq_refl). by destruct (template_of dl); [apply bool_decide_eq_true|]. }
  destruct (SwapH_ok dictionary_depth _ _ Hdep Hdep' h2 dl nd _ _ _ _ _ Rx Rn HFG (kind_swap h2 _ _ _ _ _ _ Hw Hd Hk Rx Rn Hcast)) as (h3 & E3 & T3 & R3 & _).
  assert (swap_dictionaries dl nd (set_cols h2 w1) = (Ok tt, set_cols h3 (set_cols h2 w1))) as E3'
    by (unfold swap_dictionaries, on_cols, zoom; cbn [w_cols set_cols]; by rewrite E3).
  rewrite (bind_ok _ _ _ _ _ E3'). set (w3 := set_cols h3 (set_cols h2 w1)).
  set (w4 := set_indexes (<[f_index f := (ic, lc_code new)]> (w_index w3)) w3). set (w5 := set_maps (<[f_map f := lc_unique new]> (w_maps w4)) w4).
  exists w5, (with_column f ic). split; [done|]. split.
  - split_and!; cbn [with_column f_dictionary f_column f_index f_map]; try done.
    + change (w_lows w5) with (w_lows w1). by rewrite SL.
    + apply lookup_insert_eq.
    + change (w_cols w5) with h3. rewrite (proj2 T3) by (intros Hin; apply elem_of_union in Hin as [Hin|Hin]; [by apply HicF|by apply HicG]). apply lookup_insert_eq.
    + apply lookup_insert_eq.
  - split; [split|split; [|split]].
    + eapply kept_trans; [by apply extends_kept|]. eapply kept_trans; [by apply extends_kept|]. exact (proj1 T3).
    + intros k o Hk0. change (w_lows w5) with (w_lows w1). by rewrite SL.
    + intros k o Hnk Hko. change (w_cols w5) with h3. rewrite (proj2 T3); [by apply X2, X1|]. unfold f_cols in Hnk.
      intros Hin. apply elem_of_union in Hin as [Hin|Hin]; [by apply Hnk, elem_of_union_r|]. by rewrite (F1 _ Hin) in Hko.
    + intros i Hin. change (w_index w5) with (<[f_index f := (ic, lc_code new)]> (w_index w1)). rewrite lookup_insert_ne by (intros <-; by apply Hin, elem_of_singleton). by rewrite SI.
    + intros u Hin. change (w_maps w5) with (<[f_map f := lc_unique new]> (w_maps w1)). rewrite lookup_insert_ne by (intros <-; by apply Hin, elem_of_singleton). by rewrite SM.
Qed.

(** [LoadBody]: the outcome and the bytes read are those of the column as a value. *)
Lemma LoadBodyLow_ok (w : world) (x : lc) (l dl : loc) (f : footprint) (rows : Z) (s s' : I) (r : result (bool * column)) : low_at w x l dl f ->
  wf_col (lc_dict x) -> dictionary (lc_dict x) -> LoadBody std_hash (lc_column x) rows s = (r, s') ->
  match r with
  | Ok (ok, c') => exists w' x' f', LoadBodyLow std_hash l rows (s, w) = (Ok ok, (s', w')) /\ c' = lc_column x' /\ low_at w' x' l dl f' /\ changes_of f w w'
  | Throw e => LoadBodyLow std_hash l rows (s, w) = (Throw e, (s', w))
  end.
Proof.
  intros H0 Hw Hd E. pose proof H0 as (Hl & Hr & _). destruct (clone_kind std_hash _ Hw Hd) as (e & Ee & Hke).
  change (LoadBody std_hash (lc_column x) rows) with (ColumnLowCardinality_LoadBody std_hash (LoadBody_ std_hash (depth (lc_dict x))) x rows) in E.
  unfold ColumnLowCardinality_LoadBody, try_catch in E. rewrite Ee in E. rewrite (bind_ok _ _ s e s) in E by done. rewrite (kind_depth _ _ Hke) in E.
  unfold LoadBodyLow, try_catch. cbv zeta. rewrite (bind_ok _ _ (s, w) (mkLow dl (f_index f) (f_map f)) (s, w))
    by (unfold zoom; cbn [fst snd]; by rewrite (deref_ok w_lows w _ _ Hl)).
  rewrite (bind_ok _ _ (s, w) (w_cols w) (s, w)) by (unfold zoom; cbn [fst snd]; by rewrite (on_cols_look get w _ eq_refl)).
  cbn [dictionary_column_]. rewrite (bind_ok _ _ (s, w) e (s, w)) by (unfold lift_result; rewrite (read_dictionary _ _ _ _ Hd Hr); cbn [rbind]; by rewrite Ee).
  unfold bind at 1 in E. destruct (LoadDictionary std_hash (LoadBody_ std_hash (depth e)) e rows s) as [[new|ex] s1] eqn:El.
  - rewrite (bind_ok _ _ (s, w) new (s1, w)) by (unfold zoom; cbn [fst snd]; by rewrite El).
    apply load_dictionary_kind in El as [Hkn _]; [|by eapply kind_right]. injection E as <- <-.
    destruct (install_ok w x new l dl f H0 Hw Hd) as (w' & f' & Ei & L' & C'); [by eapply kind_trans|].
    exists w', new, f'. split; [|done]. rewrite (bind_ok _ _ (s1, w) tt (s1, w')) by (unfold zoom; cbn [fst snd]; by rewrite Ei). done.
  - rewrite (bind_throw _ _ (s, w) ex (s1, w)) by (unfold zoom; cbn [fst snd]; by rewrite El).
    destruct ex; injection E as <- <-; first [reflexivity|exists w, x, f; split; [reflexivity|split; [reflexivity|split; [exact H0|apply changes_refl]]]].
Qed.
End Load.

(** ** Proofs: the pointers stay *)

(** Whatever the objects are, and whether it returns or throws. *)
Definition keeps {A} (m : M world A) : Prop := forall w, world_kept w (snd (m w)).

Create HintDb wkept.

Lemma bind_keeps {A B} (m : M world A) (k : A -> M world B) : keeps m -> (forall a, keeps (k a)) -> keeps (bind m k).
Proof.
  intros Hm Hk w. unfold bind. specialize (Hm w). destruct (m w) as [[a|e] w1]; [|done]. eapply world_kept_trans; [exact Hm|]. apply Hk.
Qed.

Lemma try_keeps {A} (m : M world A) (k : exn -> M world A) : keeps m -> (forall e, keeps (k e)) -> keeps (try_catch m k).
Proof.
  intros Hm Hk w. unfold try_catch. specialize (Hm w). destruct (m w) as [[a|e] w1]; [done|]. destruct e; try done; (eapply world_kept_trans; [exact Hm|]; apply Hk).
Qed.

Lemma ret_keeps {A} (a : A) : keeps (ret a).
Proof. intros w. apply world_kept_refl. Qed.

Lemma throw_keeps {A} (e : exn) : keeps (throw (A := A) e).
Proof. intros w. apply world_kept_refl. Qed.

Lemma lift_keeps {A} (r : result A) : keeps (lift_result r).
Proof. intros w. apply world_kept_refl. Qed.

Lemma deref_keeps {A} (g : world -> gmap loc A) (l : loc) : keeps (deref_in g l).
Proof. intros w. unfold deref_in. case_match; apply world_kept_refl. Qed.

Lemma cols_keeps {A} (m : M heap A) : (forall h, pointers_kept h (snd (m h))) -> keeps (on_cols m).
Proof. intros Hm w. unfold on_cols, zoom. specialize (Hm (w_cols w)). destruct (m (w_cols w)) as [r h]. by split. Qed.

Lemma set_index_keeps (i : loc) (s : loc * Code.t) : keeps (set_index i s).
Proof. intros w. split; [apply kept_refl|done]. Qed.

Lemma set_unique_keeps (u : loc) (m : UniqueItems) : keeps (set_unique u m).
Proof. intros w. split; [apply kept_refl|done]. Qed.

Lemma when_keeps (b : bool) (m : M world unit) : keeps m -> keeps (when b m).
Proof. intros Hm. destruct b; [done|apply ret_keeps]. Qed.

#[export] Hint Resolve ret_keeps throw_keeps lift_keeps deref_keeps set_index_keeps set_unique_keeps : wkept.

Lemma AppendToDictionaryH_kept (n : nat) : forall l it h, pointers_kept h (snd (AppendToDictionaryH n l it h)).
Proof. induction n as [|n IH]; intros l it h; [apply kept_refl|]. cbn [AppendToDictionaryH]. kept. Qed.

Lemma numbers_keeps (l : loc) : keeps (on_cols (numbers l)).
Proof. apply cols_keeps. intros h. auto with kept. Qed.

Lemma get_keeps : keeps (on_cols get).
Proof. apply cols_keeps. intros h. apply kept_refl. Qed.

Lemma leaf_keeps (l : loc) (m : M column unit) : keeps (on_cols (on_leaf l m)).
Proof. apply cols_keeps. intros h. apply on_leaf_kept. Qed.

Lemma append_keeps (n : nat) (l : loc) (it : ItemView) : keeps (on_cols (AppendToDictionaryH n l it)).
Proof. apply cols_keeps. intros h. apply AppendToDictionaryH_kept. Qed.

Lemma clear_keeps (std_hash : bytes -> Z) (n : nat) (l : loc) : keeps (on_cols (ClearH std_hash n l)).
Proof. apply cols_keeps. intros h. apply ClearH_kept. Qed.

Lemma make_keeps (k : template) (o : obj) : keeps (on_cols (make_shared k o)).
Proof. apply cols_keeps. intros h. apply make_shared_kept. Qed.

Lemma check_keeps (n : nat) (l l' : loc) : keeps (on_cols (check_types n l l')).
Proof. apply cols_keeps. intros h. unfold check_types. kept. Qed.

Lemma swap_keeps (d d' : loc) : keeps (swap_dictionaries d d').
Proof. apply cols_keeps. intros h. apply SwapH_kept. Qed.

#[export] Hint Resolve numbers_keeps get_keeps leaf_keeps append_keeps clear_keeps make_keeps check_keeps swap_keeps when_keeps : wkept.

(** Computations on the objects, by their form. *)
Ltac keeps := repeat (intros; first [case_match|solve [auto with wkept]|apply bind_keeps|apply try_keeps|apply when_keeps]).

Lemma AppendUnsafeH_keeps (std_hash : bytes -> Z) (it : ItemView) (l : loc) : keeps (AppendUnsafeH std_hash it l).
Proof. unfold AppendUnsafeH, index_column, appendIndexH, removeLastIndexH. keeps. Qed.

Lemma ClearLow_keeps (std_hash : bytes -> Z) (l : loc) : keeps (ClearLow std_hash l).
Proof. unfold ClearLow, AppendNullItemH, AppendDefaultItemH. keeps. Qed.

Lemma install_keeps (o : low) (new : lc) : keeps (install o new).
Proof.
  unfold install. apply bind_keeps; [|keeps]. unfold new_dictionary. destruct (lc_dict new); keeps.
Qed.

Lemma SwapLow_keeps (l l' : loc) : keeps (SwapLow l l').
Proof. unfold SwapLow. keeps. intros w. case_match; apply world_kept_refl. Qed.

(** The same for computations that also read from a stream. *)
Definition keeps_in {I A} (m : M (I * world) A) : Prop := forall s, world_kept (snd s) (snd (snd (m s))).

Lemma bind_keeps_in {I A B} (m : M (I * world) A) (k : A -> M (I * world) B) : keeps_in m -> (forall a, keeps_in (k a)) -> keeps_in (bind m k).
Proof.
  intros Hm Hk s. unfold bind. specialize (Hm s). destruct (m s) as [[a|e] s1]; [|done]. eapply world_kept_trans; [exact Hm|]. apply Hk.
Qed.

Lemma world_keeps_in {I A} (m : M world A) : keeps m -> keeps_in (zoom snd (fun w (s : I * world) => (fst s, w)) m).
Proof. intros Hm s. unfold zoom. specialize (Hm (snd s)). by destruct (m (snd s)). Qed.

Lemma LoadBodyLow_kept (std_hash : bytes -> Z) {I} `{InputStream I} (l : loc) (rows : Z) (s : I) (w : world) :
  world_kept w (snd (snd (LoadBodyLow std_hash l rows (s, w)))).
Proof.
  unfold LoadBodyLow. cbv zeta. set (body := bind _ _).
  assert (keeps_in body) as Hb.
  { apply bind_keeps_in; [apply world_keeps_in; keeps|]. intros o. apply bind_keeps_in; [apply world_keeps_in; keeps|]. intros h.
    apply bind_keeps_in; [intros x; apply world_kept_refl|]. intros e. apply bind_keeps_in.
    - intros x. unfold zoom. destruct (LoadDictionary _ _ _ _ _). apply world_kept_refl.
    - intros new. apply bind_keeps_in; [apply world_keeps_in, install_keeps|]. intros [] x. apply world_kept_refl. }
  specialize (Hb (s, w)). unfold try_catch. destruct (body (s, w)) as [[a|e] [s1 w1]]; [done|]. by destruct e.
Qed.

(** ** Proofs: Wrap *)

Lemma new_low_ok (w : world) (o : low) : exists l w', new_low o w = (Ok l, w') /\ w_lows w' !! l = Some o /\ world_kept w w' /\
  (forall k x, w_lows w !! k = Some x -> w_lows w' !! k = Some x) /\ w_cols w' = w_cols w /\ w_index w' = w_index w /\ w_maps w' = w_maps w.
Proof.
  eexists _, _. split; [reflexivity|]. assert (forall k x, w_lows w !! k = Some x -> <[fresh (dom (w_lows w)) := o]> (w_lows w) !! k = Some x) as Hk.
  { intros k x Hk. rewrite lookup_insert_ne; [done|]. intros <-. apply (is_fresh (dom (w_lows w))). by apply elem_of_dom. }
  split_and!; try done; [apply lookup_insert_eq|split; [apply kept_refl|done]].
Qed.

Lemma WrapLow_keeps (N : HeapClass) (l : loc) : HeapLaws N -> keeps (WrapLow N l).
Proof.
  intros HN w. unfold WrapLow. destruct (w_lows w !! l) as [o|]; [|apply world_kept_refl].
  assert (forall o, keeps (new_low o)) as Hnew by (intros o' w'; destruct (new_low_ok w' o') as (l' & w1 & -> & _ & K & _); done).
  case_match; [apply bind_keeps; [apply Hnew|auto with wkept]|].
  apply bind_keeps; [apply cols_keeps; intros h; by apply wrap_kept|]. intros [d|]; [|auto with wkept].
  apply bind_keeps; [apply Hnew|auto with wkept].
Qed.

(** [Wrap]: a view that shares all parts, or null; no dictionary column changes. *)
Lemma WrapLow_ok (N : HeapClass) (w : world) (x : lc) (l dl : loc) (f : footprint) : HeapLaws N -> low_at w x l dl f -> wf_col (lc_dict x) -> dictionary (lc_dict x) ->
  exists v w', WrapLow N l w = (Ok v, w') /\ changes ∅ ∅ ∅ w w' /\
    match v with
    | None => is_a N (lc_dict x) = false
    | Some l' => is_a N (lc_dict x) = true /\ exists n, low_shares n w' l l'
    end.
Proof.
  intros HN (Hl & Hr & Hi & Hc & Hn & Hm) Hw Hd. unfold WrapLow. rewrite Hl. unfold exact_dictionary. cbn [dictionary_column_ index_ unique_items_map_].
  rewrite (read_dictionary _ _ _ _ Hd Hr). destruct (is_a N (lc_dict x) && (leaf (lc_dict x) || bool_decide (template_of dl = Some (class_name N)))) eqn:Ex.
  - apply andb_true_iff in Ex as [Ha _]. destruct (new_low_ok w (mkLow dl (f_index f) (f_map f))) as (l' & w' & E & Hl' & K & KL & EC & EI & EM).
    exists (Some l'), w'. rewrite (bind_ok _ _ _ _ _ E). split; [done|]. split; [|split; [done|]].
    + split; [done|]. rewrite EC, EI, EM. done.
    + exists O, dl, dl, (f_index f), (f_map f). split_and!; [by apply KL|done|by left].
  - destruct (wrap_law N HN _ _ _ _ Hr Hw) as (v & h' & E & X & Hv).
    assert (on_cols (WrapH N dl) w = (Ok v, set_cols h' w)) as E' by (unfold on_cols, zoom; by rewrite E). rewrite (bind_ok _ _ _ _ _ E').
    destruct v as [d|]; [|exists None, (set_cols h' w); split; [done|]; split; [by apply set_cols_extends|done]].
    destruct Hv as [Ha [n Hs]]. set (w1 := set_cols h' w).
    destruct (new_low_ok w1 (mkLow d (f_index f) (f_map f))) as (l' & w' & E2 & Hl' & K & KL & EC & EI & EM). rewrite (bind_ok _ _ _ _ _ E2).
    exists (Some l'), w'. split; [done|]. split; [|split; [done|]].
    + split; [split; [rewrite EC; by apply extends_kept|intros k o Hk; by apply KL]|]. rewrite EC, EI, EM. split; [|done]. intros k o _ Hk. by apply X.
    + exists n, dl, d, (f_index f), (f_map f). split_and!; [by apply KL|done|rewrite EC; by apply shares_sym].
Qed.

(** ** Properties *)

(** A call of a method of a dictionary column. *)
Inductive low_call : Type :=
| LWrap (N : HeapClass) (l : loc)
| LAppend (std_hash : bytes -> Z) (it : ItemView) (l : loc)
| LClear (std_hash : bytes -> Z) (l : loc)
| LLoad (std_hash : bytes -> Z) (data : bytes) (l : loc) (rows : Z)
| LSwap (l l' : loc).

(** The objects after the call, whether it returns or throws. *)
Definition run_low_call (k : low_call) (w : world) : world :=
  match k with
  | LWrap N l => snd (WrapLow N l w)
  | LAppend std_hash it l => snd (AppendUnsafeH std_hash it l w)
  | LClear std_hash l => snd (ClearLow std_hash l w)
  | LLoad std_hash data l rows => snd (snd (LoadBodyLow std_hash l rows (mkArrayInput data, w)))
  | LSwap l l' => snd (SwapLow l l' w)
  end.

Definition run_low_calls (ks : list low_call) (w : world) : world := fold_left (fun w k => run_low_call k w) ks w.

Definition low_call_ok (k : low_call) : Prop := match k with LWrap N _ => heap_class N | _ => True end.

Lemma run_low_calls_kept (ks : list low_call) : Forall low_call_ok ks -> forall w, world_kept w (run_low_calls ks w).
Proof.
  induction 1 as [|k ks Hk _ IH]; intros w; [apply world_kept_refl|]. eapply world_kept_trans; [|apply IH].
  destruct k; cbn [run_low_call]; [by apply WrapLow_keeps, heap_laws|apply AppendUnsafeH_keeps|apply ClearLow_keeps|apply LoadBodyLow_kept|apply SwapLow_keeps].
Qed.

Lemma wf_dictionary (x : lc) : wf_col (lc_column x) -> wf_col (lc_dict x) /\ dictionary (lc_dict x) /\ is_index_code (lc_code x) = true.
Proof. intros (Hw & Hd & Hc & _). split; [done|]. split; [|done]. destruct (lc_dict x); try done. by destruct Hd. Qed.

(** C23. Views of dictionary columns: [ColumnLowCardinalityT::Wrap] makes, for a column whose dictionary is of the class, an object
    that is the same column over the same dictionary, index bundle and map of unique items, whether the stored dictionary
    already is of that very class or a typed view of it has to be made first; it is null otherwise, and no dictionary
    column changes.  From then on, whatever is called on the view, on the original or on other columns, appending,
    clearing, loading a block that replaces the index column by one of another width, swapping, wrapping again,
    returning or throwing, the view and the original are the same column. *)
Theorem dictionary_view (N : HeapClass) (HN : heap_class N) (w : world) (x : lc) (l : loc) (f : footprint) (Hr : low_repr w x l f)
    (Hw : wf_col (lc_column x)) :
  exists v w', WrapLow N l w = (Ok v, w') /\ (forall y k g, low_repr w y k g -> low_repr w' y k g) /\
    match v with
    | None => is_a N (lc_dict x) = false
    | Some l' =>
      is_a N (lc_dict x) = true /\ low_repr w' x l' f /\
      forall ks, Forall low_call_ok ks -> forall y g, low_repr (run_low_calls ks w') y l g <-> low_repr (run_low_calls ks w') y l' g
    end.
Proof.
  destruct (wf_dictionary x Hw) as (Hwd & Hd & _). destruct Hr as [dl Hr].
  destruct (WrapLow_ok N w x l dl f (heap_laws N HN) Hr Hwd Hd) as (v & w' & E & C & Hv). exists v, w'. split; [done|].
  assert (forall y k g, low_repr w y k g -> low_repr w' y k g) as Hk by (intros y k g; eapply low_frame; [exact C|set_solver..]).
  split; [done|]. destruct v as [l'|]; [|done]. destruct Hv as [Ha [n Hs]]. split; [done|]. split.
  - apply (low_shares_repr n w' l l'); [done|]. apply Hk. by exists dl.
  - intros ks Hks y g. apply (low_shares_repr n). eapply low_shares_kept; [by apply run_low_calls_kept|done].
Qed.

(** C24. On the objects of a dictionary column, [Size], [GetItem], [AppendUnsafe] with its rollback, [Clear], [LoadBody] and
    [Swap] have the outcome they have on the column as a value, and leave that column, through whichever object they
    are called; every dictionary column with no object in common is as before.  The outcome of [Swap] depends on the dynamic
    classes of the dictionaries: where this one was made as a typed nullable column and the other was not, or as one of
    another template instance, it throws although the types are equal, and nothing changes. *)
Theorem dictionary_objects_refine (std_hash : bytes -> Z) (w : world) (x : lc) (l dl : loc) (f : footprint) (Hr : low_at w x l dl f)
    (Hw : wf_col (lc_column x)) :
  SizeLow l w = (Ok (Size (lc_column x)), w) /\
  (forall i, GetItemLow l i w = (GetItem (lc_column x) i, w)) /\
  (forall it r x', AppendUnsafe std_hash it x = (r, x') -> r <> Throw Undefined -> r <> Throw Diverges ->
     exists w', AppendUnsafeH std_hash it l w = (r, w') /\ low_at w' x' l dl f /\ lows_kept f w w') /\
  (forall c', Clear std_hash (lc_column x) = Ok c' ->
     exists w' x', ClearLow std_hash l w = (Ok tt, w') /\ c' = lc_column x' /\ low_at w' x' l dl f /\ lows_kept f w w') /\
  (forall I (HI : InputStream I) rows (s s' : I) ok c', LoadBody std_hash (lc_column x) rows s = (Ok (ok, c'), s') ->
     exists w' x' f', LoadBodyLow std_hash l rows (s, w) = (Ok ok, (s', w')) /\ c' = lc_column x' /\ low_at w' x' l dl f' /\ lows_kept f w w') /\
  (forall y k dk g, low_at w y k dk g -> apart f g -> wf_col (lc_column y) ->
     ((exists n us, lc_dict x = ColumnNullable n us) -> casts_to dl dk = false -> IsEqual (ColumnType (lc_dict x)) (ColumnType (lc_dict y)) = Ok true ->
        SwapLow l k w = (Throw BadCast, w)) /\
     (forall r x' y', Swap (low_classes dl w) (low_classes dk w) (lc_column x) (lc_column y) = (r, (lc_column x', lc_column y')) ->
        exists w' f' g', SwapLow l k w = (r, w') /\ low_at w' x' l dl f' /\ low_at w' y' k dk g' /\
          forall z j q, low_repr w z j q -> apart f q -> apart g q -> low_repr w' z j q)).
Proof.
  destruct (wf_dictionary x Hw) as (Hwd & Hd & Hc). split_and!.
  - by eapply SizeLow_ok.
  - intros i. by eapply GetItemLow_ok.
  - intros it r x' E Hu Hv. destruct (AppendUnsafeH_ok std_hash w x x' l dl f it r Hr Hd E Hu Hv) as (w' & E' & L' & C'). exists w'.
    split; [done|]. split; [done|by apply changes_lows_kept].
  - intros c' E. cbn [Clear lc_column] in E. destruct (LowCardinality_Clear std_hash ClearDictionary _) as [x'|] eqn:Ec; [|done]. injection E as <-.
    rewrite lc_eta in Ec. destruct (ClearLow_ok std_hash w x x' l dl f Hr Hwd Hd Ec) as (w' & E' & L' & C'). exists w', x'.
    split; [done|]. split; [done|]. split; [done|by apply changes_lows_kept].
  - intros I HI rows s s' ok c' E. destruct (LoadBodyLow_ok std_hash w x l dl f rows s s' _ Hr Hwd Hd E) as (w' & x' & f' & E' & Hc' & L' & C').
    exists w', x', f'. split; [done|]. split; [done|]. split; [done|by apply changes_lows_kept].
  - intros y k dk g Hy Ha Hwy. destruct (wf_dictionary y Hwy) as (Hwyd & Hyd & _). split.
    + intros Hn Ht He. by apply (SwapLow_refused w x y l k dl dk f g).
    + intros r x' y' E. destruct (SwapLow_ok w x y x' y' l k dl dk f g r Hr Hy Ha Hwd Hd Hwyd Hyd E) as (w' & f' & g' & E' & L' & L'' & C).
      exists w', f', g'. split; [done|]. split; [done|]. split; [done|]. intros z j q Hz (A1 & A2 & A3) (B1 & B2 & B3).
      eapply low_frame; [exact C|set_solver..|done].
Qed.

(** *** Witnesses *)

(** A [LowCardinality(Nullable(String))] as the factory makes it, with the rows NULL and "a". *)
Definition example_dictionary : column := ColumnNullable (ColumnString [[]; []; str "a"]) [1; 0; 0].
Definition example_low : lc := mkLC example_dictionary Code.UInt8 [0; 2] ∅.

Definition example_world : world :=
  mkWorld (<[plain_at 1 := ONullable (plain_at 2) (plain_at 3)]>
             (<[plain_at 2 := OColumn (ColumnString [[]; []; str "a"])]>
                (<[plain_at 3 := OColumn (ColumnVector Code.UInt8 [1; 0; 0])]>
                   (<[plain_at 4 := OColumn (ColumnVector Code.UInt8 [0; 2])]> ∅))))
    {[plain_at 5 := (plain_at 4, Code.UInt8)]} {[plain_at 6 := ∅]} {[plain_at 7 := mkLow (plain_at 1) (plain_at 5) (plain_at 6)]}.

Definition example_footprint : footprint := mkFoot ({[plain_at 3]} ∪ {[plain_at 2]}) (plain_at 4) (plain_at 5) (plain_at 6).

Lemma example_low_at : low_at example_world example_low (plain_at 7) (plain_at 1) example_footprint.
Proof.
  split; [by vm_compute|]. split; [|split; [by vm_compute|split; [by vm_compute|split; [|by vm_compute]]]].
  - apply nullable_repr; [done|by vm_compute..|done].
  - cbn. set_solver.
Qed.

Lemma example_low_wf : wf_col (lc_column example_low).
Proof. unfold example_low, example_dictionary, lc_column. cbn [lc_dict lc_code lc_index lc_unique]. wf_auto; done. Qed.

Lemma example_dictionary_class : heap_class (NullableH (LeafH (str "ColumnString") StringC)).
Proof. constructor. constructor; [constructor|]. apply (proj1 (Forall_forall _ _) (plain_leaf Code.UInt8)). by apply list_elem_of_lookup; exists 2%nat. Qed.

(** The view after the original has been cleared and has got an item is the original. *)
Lemma dictionary_view_witness : exists l' w', WrapLow (NullableH (LeafH (str "ColumnString") StringC)) (plain_at 7) example_world = (Ok (Some l'), w') /\
  low_repr w' example_low l' example_footprint /\
  let ks := [LClear (fun _ => 0) (plain_at 7); LAppend (fun _ => 0) (Code.String, str "b") l'] in
  forall y g, low_repr (run_low_calls ks w') y (plain_at 7) g <-> low_repr (run_low_calls ks w') y l' g.
Proof.
  assert (low_repr example_world example_low (plain_at 7) example_footprint) as Hr by (exists (plain_at 1); exact example_low_at).
  destruct (dictionary_view _ example_dictionary_class example_world example_low (plain_at 7) example_footprint Hr example_low_wf) as (v & w' & E & _ & Hv).
  destruct v as [l'|]; [|discriminate Hv]. destruct Hv as (_ & Hl & Hks). exists l', w'. split; [exact E|]. split; [exact Hl|].
  intros ks. apply Hks. constructor; [exact Logic.I|]. constructor; [exact Logic.I|constructor].
Defined.

Lemma dictionary_objects_refine_witness : exists w' x', AppendUnsafeH (fun _ => 0) (Code.String, str "b") (plain_at 7) example_world = (Ok tt, w') /\
  lc_index x' = [0; 2; 3] /\ low_at w' x' (plain_at 7) (plain_at 1) example_footprint.
Proof.
  destruct (dictionary_objects_refine (fun _ => 0) example_world example_low (plain_at 7) (plain_at 1) example_footprint example_low_at example_low_wf) as (_ & _ & Ha & _).
  destruct (AppendUnsafe (fun _ => 0) (Code.String, str "b") example_low) as [r x'] eqn:E.
  assert (r = Ok tt /\ lc_index x' = [0; 2; 3]) as [Hr Hx] by (split; vm_compute in E; injection E as <- <-; reflexivity).
  destruct (Ha _ r x' E) as (w' & E' & L & _); [rewrite Hr; discriminate|rewrite Hr; discriminate|]. rewrite Hr in E'.
  exists w', x'. split; [exact E'|]. split; [exact Hx|exact L].
Defined.
