(* ===== verification/Block.v ===== *)
(** * Blocks (clickhouse/block.h, block.cpp)

    A block is a list of named columns with a row count that it keeps beside
    them.  The columns are shared with the application, which may append to them
    behind the block's back; [RefreshRowCount] re-establishes the invariant. *)

From S2P Require Import Prelude Streams WireFormat CityHash Text Types Columns ColumnRows ColumnOps.

Record BlockInfo := mkBlockInfo {
  is_overflows : Z;   (** [uint8_t] *)
  bucket_num : Z;     (** [int32_t] *)
}.

Definition BlockInfo_new : BlockInfo := mkBlockInfo 0 (-1).

Record Block := mkBlock {
  info_ : BlockInfo;
  columns_ : list (bytes * column);
  rows_ : Z;
}.

Definition Block_new : Block := mkBlock BlockInfo_new [] 0.

(** [Block(size_t cols, size_t rows)]: [cols] only reserves memory. *)
Definition Block_reserved (cols rows : Z) : Block := mkBlock BlockInfo_new [] rows.

Definition GetColumnCount (b : Block) : Z := zlen (columns_ b).

Definition Info (b : Block) : BlockInfo := info_ b.

Definition SetInfo (info : BlockInfo) (b : Block) : Block := mkBlock info (columns_ b) (rows_ b).

Definition GetRowCount (b : Block) : Z := rows_ b.

Definition AppendColumn (name : bytes) (col : column) : M Block unit :=
  fun b =>
    let push rows := mkBlock (info_ b) (columns_ b ++ [(name, col)]) rows in
    match columns_ b with
    | [] => (Ok tt, push (Size col))
    | _ :: _ => if negb (Size col =? rows_ b) then (Throw ValidationError, b) else (Ok tt, push (rows_ b))
    end.

(** The loop of [RefreshRowCount]: the first column sets the count, the others must agree. *)
Fixpoint check_rows (first : bool) (rows : Z) (cols : list (bytes * column)) : result Z :=
  match cols with
  | [] => Ok rows
  | (_, col) :: cols =>
    if first then check_rows false (Size col) cols
    else if negb (rows =? Size col) then Throw ValidationError
    else check_rows false rows cols
  end.

Definition RefreshRowCount : M Block Z :=
  fun b =>
    match check_rows true 0 (columns_ b) with
    | Ok rows => (Ok rows, mkBlock (info_ b) (columns_ b) rows)
    | Throw e => (Throw e, b)
    end.

Definition GetColumnName (b : Block) (idx : Z) : result bytes :=
  let! item := at_ (columns_ b) idx in Ok (fst item).

(** [At], and [operator\[\]]. *)
Definition At (b : Block) (idx : Z) : result column :=
  if idx <? zlen (columns_ b) then let! item := index_ (columns_ b) idx in Ok (snd item)
  else Throw OutOfRange.

(** The loop of [Clear] over the columns; a column that throws leaves the earlier ones cleared. *)
Fixpoint clear_columns (std_hash : bytes -> Z) (cols : list (bytes * column)) : result unit * list (bytes * column) :=
  match cols with
  | [] => (Ok tt, [])
  | (name, col) :: rest =>
    match Columns.Clear std_hash col with
    | Throw e => (Throw e, cols)
    | Ok col => let '(r, rest) := clear_columns std_hash rest in (r, (name, col) :: rest)
    end
  end.

Definition Block_Clear (std_hash : bytes -> Z) : M Block unit :=
  fun b =>
    match clear_columns std_hash (columns_ b) with
    | (Throw e, cols) => (Throw e, mkBlock (info_ b) cols (rows_ b))
    | (Ok _, cols) => (RefreshRowCount ;;; ret tt) (mkBlock (info_ b) cols (rows_ b))
    end.

(** ** Iterators *)

Record Iterator := mkIterator { it_block : Block; it_idx : Z }.

Definition Block_begin (b : Block) : Iterator := mkIterator b 0.

Definition Block_end (b : Block) : Iterator := mkIterator b (GetColumnCount b).

Definition Iterator_IsValid (it : Iterator) : bool := it_idx it <? zlen (columns_ (it_block it)).

Definition Iterator_Next (it : Iterator) : bool * Iterator :=
  let it := mkIterator (it_block it) (it_idx it + 1) in (Iterator_IsValid it, it).

Definition Iterator_Name (it : Iterator) : result bytes :=
  let! item := index_ (columns_ (it_block it)) (it_idx it) in Ok (fst item).

Definition Iterator_Column (it : Iterator) : result column :=
  let! item := index_ (columns_ (it_block it)) (it_idx it) in Ok (snd item).

Definition Iterator_Type (it : Iterator) : result type :=
  let! col := Iterator_Column it in Ok (ColumnType col).

(** ** The invariant: the count is the number of rows of every column *)

Definition block_ok (b : Block) : Prop :=
  Forall (fun c => Size (snd c) = rows_ b) (columns_ b) /\ (columns_ b = [] -> rows_ b = 0).

Lemma check_rows_ok (cols : list (bytes * column)) : forall first rows,
  (forall n, check_rows first rows cols = Ok n -> Forall (fun c => Size (snd c) = n) cols /\
     (first = false \/ cols = [] -> n = rows)) /\
  (forall n, Forall (fun c => Size (snd c) = n) cols -> (first = false \/ cols = [] -> n = rows) ->
     check_rows first rows cols = Ok n) /\
  (forall e, check_rows first rows cols = Throw e -> e = ValidationError).
Proof.
  induction cols as [|[nm c] cols IH]; intros first rows; cbn [check_rows].
  - split_and!; [|intros n _ ->; auto|done]. intros n [= <-]. by split.
  - destruct (IH false (Size c)) as (A1 & A2 & A3). destruct first.
    + split_and!; [| |done].
      * intros n Hn. destruct (A1 n Hn) as [Hf He]. split; [|by intros []]. constructor; [|done]. symmetry. auto.
      * intros n Hf _. inversion Hf; subst. apply A2; [done|]. by intros _.
    + destruct (Z.eqb_spec rows (Size c)) as [->|Hne]; cbn [negb].
      * split_and!; [| |done].
        -- intros n Hn. destruct (A1 n Hn) as [Hf He]. rewrite (He (or_introl eq_refl)) in *. split; [|done]. by constructor.
        -- intros n Hf He. inversion Hf; subst. apply A2; [done|]. by intros _.
      * split_and!; [done| |by intros e [= <-]]. intros n Hf He. inversion Hf; subst. cbn in *.
        by rewrite (He (or_introl eq_refl)) in Hne.
Qed.

(** The row count of a block is the number of rows of each of its columns:
    appending keeps it so, refuses a column of another length with a
    [ValidationError] and leaves the block as it was; and [RefreshRowCount], on a
    block whose columns have been changed in any way, either re-establishes it or,
    exactly when two columns differ, throws and changes nothing. *)
Lemma block_rows (b : Block) (name : bytes) (col : column) (Hb : block_ok b) :
  (columns_ b = [] \/ Size col = rows_ b ->
     exists b', AppendColumn name col b = (Ok tt, b') /\ columns_ b' = columns_ b ++ [(name, col)] /\
       rows_ b' = Size col /\ block_ok b') /\
  (columns_ b <> [] -> Size col <> rows_ b -> AppendColumn name col b = (Throw ValidationError, b)) /\
  forall c : Block,
    (exists b', RefreshRowCount c = (Ok (rows_ b'), b') /\ block_ok b' /\ columns_ b' = columns_ c) \/
    (RefreshRowCount c = (Throw ValidationError, c) /\ forall n, ~ Forall (fun x => Size (snd x) = n) (columns_ c)).
Proof.
  split_and!.
  - intros Hc. unfold AppendColumn. destruct (columns_ b) as [|x cols] eqn:E.
    + eexists. split; [done|]. split_and!; try done. split; [by repeat constructor|done].
    + destruct Hc as [?|Hc]; [done|]. rewrite Hc, Z.eqb_refl. eexists. split; [done|]. cbn. split_and!; try done.
      split; [|done]. destruct Hb as [Hf _]. rewrite E in Hf. cbn. apply (Forall_app_2 _ (x :: cols)); [done|]. by repeat constructor.
  - intros Hc Hs. unfold AppendColumn. destruct (columns_ b); [done|]. by rewrite (proj2 (Z.eqb_neq _ _) Hs).
  - intros c. destruct (check_rows_ok (columns_ c) true 0) as (H1 & H2 & H3). unfold RefreshRowCount.
    destruct (check_rows true 0 (columns_ c)) as [n|e] eqn:E.
    + left. exists (mkBlock (info_ c) (columns_ c) n). split; [done|]. destruct (H1 n eq_refl) as [Hf He].
      split_and!; try done. split; cbn; [done|]. auto.
    + right. rewrite (H3 e eq_refl). split; [done|]. intros n Hf.
      destruct (columns_ c) as [|x cols] eqn:Ec; [done|]. enough (Throw e = Ok n) by done. apply H2; [done|]. by intros [].
Qed.

