(* ===== verification/Capacity.v ===== *)
(** * Capacity and direct access to the storage (Reserve, Capacity, GetWritableData; columns/ and block.cpp)

    What [Reserve] asks of the containers behind a column.  The capacities are a tree beside the column; a column as
    a value does not have them.  How far a container grows, its largest size, and the square root in doubles that
    estimates the size of a dictionary are parameters. *)

From S2P Require Import Prelude Streams WireFormat CityHash Text Types Columns ColumnRows ColumnOps Swap Factory Decimal Values Block.

#[local] Set Warnings "-register-all".

(** ** Capacities *)

(** The capacities of the containers behind a column. *)
Inductive capacities :=
| CData (data_ : Z)                                  (** a vector of numbers, or the characters of fixed strings *)
| CString (items_ blocks_ : Z)
| CNothing
| COne (data_ : capacities)                          (** the delegating classes, and maps *)
| CTwo (first : capacities) (second : Z)             (** arrays and offsets, nested and nulls, dictionary and index *)
| CTuple (columns_ : list capacities).

Section Reserve.
(** [max_size()]; the capacity after [reserve(n)] of a container that is too small; [ceil(sqrt(double))]. *)
Context (max_size : Z) (grown : Z -> Z -> Z) (ceil_sqrt : Z -> Z).

(** [std::vector::reserve], [std::string::reserve]: never shrinks. *)
Definition reserve (n cap : Z) : result Z :=
  if max_size <? n then Throw LengthError else Ok (if n <=? cap then cap else grown cap n).

(** [Column::Reserve] of each class. *)
Definition ColumnString_Reserve (new_cap items blocks : Z) : result capacities :=
  let! items := reserve new_cap items in
  let! blocks := reserve (Z.max 1 (new_cap / 16)) blocks in
  Ok (CString items blocks).

Definition ColumnFixedString_Reserve (string_size new_cap cap : Z) : result capacities :=
  let! cap := reserve (wrap 64 (string_size * new_cap)) cap in Ok (CData cap).

(** [first] is [Reserve] of the first of two parts, [n] what the second is to hold. *)
Definition Reserve_two (first : result capacities) (n second : Z) : result capacities :=
  let! k := first in
  let! cap := reserve n second in
  Ok (CTwo k cap).

Fixpoint Reserve (c : column) (new_cap : Z) (k : capacities) : result capacities :=
  match c, k with
  | ColumnVector _ _, CData cap | ColumnEnum _ _ _, CData cap => let! cap := reserve new_cap cap in Ok (CData cap)
  | ColumnString _, CString items blocks => ColumnString_Reserve new_cap items blocks
  | ColumnFixedString n _, CData cap => ColumnFixedString_Reserve n new_cap cap
  | ColumnNothing _, CNothing => Ok CNothing
  | ColumnWrap _ _ d, COne k | ColumnMap d, COne k => let! k := Reserve d new_cap k in Ok (COne k)
  | ColumnArray d _, CTwo k cap | ColumnNullable d _, CTwo k cap => Reserve_two (Reserve d new_cap k) new_cap cap
  | ColumnTuple cs _, CTuple ks =>
    let! ks := (fix go (cs : list column) (ks : list capacities) : result (list capacities) :=
                  match cs, ks with
                  | c :: cs, k :: ks => let! k := Reserve c new_cap k in let! ks := go cs ks in Ok (k :: ks)
                  | _, _ => Ok ks
                  end) cs ks in
    Ok (CTuple ks)
  | ColumnLowCardinality d _ _ _, CTwo k cap => Reserve_two (Reserve d (ceil_sqrt new_cap) k) (wrap 64 (new_cap + 2)) cap
  | _, _ => Throw Undefined
  end.

(** [Capacity()] of the classes that have it: the vectors of numbers and the classes over one. *)
Fixpoint Capacity (c : column) (k : capacities) : result Z :=
  match c, k with
  | ColumnVector _ _, CData cap => Ok cap
  | ColumnWrap (WBool | WDate | WDate32 | WDateTime | WTime | WTime64) _ d, COne k => Capacity d k
  | _, _ => Throw Undefined
  end.

(** [Block::Reserve]: every column. *)
Fixpoint Block_Reserve (cols : list (bytes * column)) (new_cap : Z) (ks : list capacities) : result (list capacities) :=
  match cols, ks with
  | (_, c) :: cols, k :: ks => let! k := Reserve c new_cap k in let! ks := Block_Reserve cols new_cap ks in Ok (k :: ks)
  | _, _ => Ok ks
  end.

(** The loop over the columns of a tuple. *)
Definition Reserve_all (new_cap : Z) : list column -> list capacities -> result (list capacities) :=
  fix go cs ks :=
    match cs, ks with
    | c :: cs, k :: ks => let! k := Reserve c new_cap k in let! ks := go cs ks in Ok (k :: ks)
    | _, _ => Ok ks
    end.

(** ** Room for rows *)

(** The capacities have the form of the column. *)
Fixpoint matches (c : column) (k : capacities) : Prop :=
  match c, k with
  | ColumnVector _ _, CData _ | ColumnEnum _ _ _, CData _ | ColumnFixedString _ _, CData _ => True
  | ColumnString _, CString _ _ => True
  | ColumnNothing _, CNothing => True
  | ColumnWrap _ _ d, COne k | ColumnMap d, COne k => matches d k
  | ColumnArray d _, CTwo k _ | ColumnNullable d _, CTwo k _ | ColumnLowCardinality d _ _ _, CTwo k _ => matches d k
  | ColumnTuple cs _, CTuple ks =>
    (fix go (cs : list column) (ks : list capacities) : Prop :=
       match cs, ks with
       | [], [] => True
       | c :: cs, k :: ks => matches c k /\ go cs ks
       | _, _ => False
       end) cs ks
  | _, _ => False
  end.

(** The containers with an element (or [string_size] characters) for each row hold what the column has; those that hold the items
    of arrays, the dictionary and the characters of strings grow otherwise. *)
Fixpoint fits (c : column) (k : capacities) : Prop :=
  match c, k with
  | ColumnVector _ data, CData cap | ColumnEnum _ _ data, CData cap => zlen data <= cap
  | ColumnFixedString _ data, CData cap => zlen data <= cap
  | ColumnString items, CString cap _ => zlen items <= cap
  | ColumnNothing _, CNothing => True
  | ColumnWrap _ _ d, COne k | ColumnMap d, COne k => fits d k
  | ColumnArray _ offsets, CTwo _ cap => zlen offsets <= cap
  | ColumnNullable d nulls, CTwo k cap => fits d k /\ zlen nulls <= cap
  | ColumnLowCardinality _ _ index _, CTwo _ cap => zlen index <= cap
  | ColumnTuple cs _, CTuple ks =>
    (fix go (cs : list column) (ks : list capacities) : Prop :=
       match cs, ks with
       | [], [] => True
       | c :: cs, k :: ks => fits c k /\ go cs ks
       | _, _ => False
       end) cs ks
  | _, _ => False
  end.

(** No UUID column, whose rows are two numbers each, and [n] fixed strings have a size the machine can tell. *)
Fixpoint reservable (n : Z) (c : column) : Prop :=
  match c with
  | ColumnWrap w _ d => w <> WUUID /\ reservable n d
  | ColumnFixedString m _ => m * n < 2 ^ 64
  | ColumnNullable d _ | ColumnMap d => reservable n d
  | ColumnTuple cs _ => foldr (fun c P => reservable n c /\ P) True cs
  | _ => n + 2 < 2 ^ 64
  end.

(** ** Proofs *)

Hypothesis grown_enough : forall cap n, n <= grown cap n.

Lemma reserve_enough (n cap cap' : Z) : reserve n cap = Ok cap' -> n <= cap' /\ (cap <= cap').
Proof.
  unfold reserve. destruct (max_size <? n); [done|]. intros [= <-]. pose proof (grown_enough cap n). destruct (Z.leb_spec n cap); lia.
Qed.

Lemma fixed_rows (n : Z) (data : bytes) (m : Z) : 0 < n -> zlen data mod n = 0 -> zlen data / n <= m -> zlen data <= n * m.
Proof. intros Hn Hm Hs. pose proof (Z.div_mod (zlen data) n ltac:(lia)). nia. Qed.

(** After [Reserve(n)], a column of the same type with at most [n] rows fits. *)
Definition reserves (c : column) : Prop := forall n k k' c', matches c k -> Reserve c n k = Ok k' -> 0 <= n -> reservable n c -> wf_col c -> wf_col c' ->
  ColumnType c' = ColumnType c -> Size c' <= n -> fits c' k'.

(** The second of two parts. *)
Lemma reserve_second (first : result capacities) (n cap : Z) (k' : capacities) : Reserve_two first n cap = Ok k' ->
  exists k cap', k' = CTwo k cap' /\ first = Ok k /\ n <= cap'.
Proof.
  unfold Reserve_two. destruct first as [k|]; [|done]. cbn [rbind]. destruct (reserve n cap) as [cap'|] eqn:E; [|done]. intros [= <-].
  apply reserve_enough in E as [E _]. by exists k, cap'.
Qed.

Lemma Reserve_tuple (cs : list column) (n : Z) : Forall reserves cs -> 0 <= n -> Forall (reservable n) cs -> Forall wf_col cs -> forall cs' ks ks' names,
  Reserve_all n cs ks = Ok ks' -> map ColumnType cs' = map ColumnType cs -> Forall wf_col cs' -> Forall (fun c => Size c <= n) cs' ->
  matches (ColumnTuple cs names) (CTuple ks) -> fits (ColumnTuple cs' names) (CTuple ks').
Proof.
  intros HI Hn. induction HI as [|c cs Hc _ IH]; intros Hrs Hw [|c' cs'] [|k ks] ks' names E Ht Hw' Hs Hm; try done; [by injection E as <-|].
  apply Forall_cons in Hrs as [Hr Hrs]. apply Forall_cons in Hw as [Hwc Hw]. apply Forall_cons in Hw' as [Hwc' Hw']. apply Forall_cons in Hs as [Hsc Hs].
  injection Ht as Htc Ht. destruct Hm as [Hmc Hm]. cbn [Reserve_all] in E. destruct (Reserve c n k) as [k1|] eqn:E1; [|done]. cbn [rbind] in E. fold (Reserve_all n) in E.
  destruct (Reserve_all n cs ks) as [ks1|] eqn:E2; [|done]. injection E as <-. split; [by apply (Hc n k k1)|by apply (IH Hrs Hw cs' ks ks1 names)].
Qed.

Lemma Reserve_enough (c : column) : reserves c.
Proof.
  induction c as [code data|code e data|items|m data|size|w ty d IH|d os IH|d nulls IH|cs names IH|d IH|d code index u IH] using column_ind';
    intros n k k' c' Hm E Hn Hrs Hw Hw' Ht Hs; pose proof (shape_of_type c' Hw') as Hsh; rewrite Ht in Hsh; cbn [ColumnType] in Hsh.
  - destruct k as [cap| | | | |]; try done. cbn [Reserve] in E. destruct (reserve n cap) as [cap'|] eqn:Er; [|done]. injection E as <-.
    apply reserve_enough in Er as [Er _]. destruct Hw as [Hc _]. destruct code; try done; destruct Hsh as [data' ->]; cbn in *; lia.
  - destruct k as [cap| | | | |]; try done. cbn [Reserve] in E. destruct (reserve n cap) as [cap'|] eqn:Er; [|done]. injection E as <-.
    apply reserve_enough in Er as [Er _]. destruct Hw as [Hc _]. destruct code; try done; destruct Hsh as [data' ->]; cbn in *; lia.
  - destruct k as [|i b| | | |]; try done. cbn [Reserve] in E. unfold ColumnString_Reserve in E. destruct (reserve n i) as [i'|] eqn:Er; [|done]. cbn [rbind] in E.
    destruct (reserve _ b); [|done]. injection E as <-. apply reserve_enough in Er as [Er _]. destruct Hsh as [items' ->]. cbn in *. lia.
  - destruct k as [cap| | | | |]; try done. cbn [Reserve] in E. unfold ColumnFixedString_Reserve in E. destruct (reserve _ cap) as [cap'|] eqn:Er; [|done]. injection E as <-.
    apply reserve_enough in Er as [Er _]. destruct Hsh as [data' ->]. destruct Hw' as (Hm0 & Hmod & _). cbn in Hrs, Hs |- *. unfold wrap in Er.
    rewrite Z.mod_small in Er by nia. pose proof (fixed_rows m data' n Hm0 Hmod Hs). lia.
  - destruct k as [| | | | |]; try done. injection E as <-. destruct Hsh as [size' ->]. done.
  - destruct (wrap_same w ty d c' Hw Hw' Ht) as [d' ->]. destruct k as [| | |k| |]; try done. cbn [Reserve] in E.
    destruct (Reserve d n k) as [k1|] eqn:Er; [|done]. injection E as <-. destruct Hrs as [Hu Hrs]. destruct Hw as (Hty & Hw & _), Hw' as (Hty' & Hw' & _).
    cbn [fits]. apply (IH n k k1 d' Hm Er Hn Hrs Hw Hw'); [congruence|]. by destruct w.
  - destruct Hsh as (d' & os' & -> & _). destruct k as [| | | |k cap|]; try done. cbn [Reserve] in E. apply reserve_second in E as (k1 & cap' & -> & _ & Hc).
    cbn in *. lia.
  - destruct Hsh as (d' & nulls' & -> & Htd). destruct k as [| | | |k cap|]; try done. cbn [Reserve] in E. apply reserve_second in E as (k1 & cap' & -> & Er & Hc).
    destruct Hw as (Hw & _), Hw' as (Hw' & Hlen & _). cbn [Size] in Hs. cbn [fits]. split; [|lia]. apply (IH n k k1 d' Hm Er Hn Hrs Hw Hw' Htd). lia.
  - destruct Hsh as (cs' & -> & Hts). destruct k as [| | | | |ks]; try done. cbn [Reserve] in E. fold (Reserve_all n) in E.
    destruct (Reserve_all n cs ks) as [ks'|] eqn:Er; [|done]. injection E as <-. destruct Hw as (Hw & _), Hw' as (Hw' & Hsz & _).
    apply foldr_Forall in Hw, Hw'. cbn [reservable] in Hrs. apply foldr_Forall in Hrs.
    eapply Reserve_tuple; try done. eapply Forall_impl; [exact Hsz|]. cbn beta. intros x ->. exact Hs.
  - destruct Hw as (Hw & kk & v & os & ->). destruct Hsh as (d' & -> & Htd). destruct Hw' as (Hw' & _). destruct k as [| | |k| |]; try done.
    change (Reserve (ColumnMap ?d) n (COne k)) with (let! k := Reserve d n k in Ok (COne k)) in E.
    destruct (Reserve _ n k) as [k1|] eqn:Er; [|done]. injection E as <-. cbn [fits]. apply (IH n k k1 d' Hm Er Hn Hrs Hw Hw' Htd). exact Hs.
  - destruct Hsh as (d' & code' & index' & u' & -> & Htd). destruct k as [| | | |k cap|]; try done. cbn [Reserve] in E.
    apply reserve_second in E as (k1 & cap' & -> & _ & Hc). cbn in Hrs, Hs |- *. unfold wrap in Hc. rewrite Z.mod_small in Hc by lia. lia.
Qed.
End Reserve.

(** After [Reserve(n)] returns, a column of that type that has grown to at most [n] rows needs no larger container for them, at
    any nesting; so no container that grows with the rows is moved on the way. *)
Lemma reserve_room (max_size : Z) (grown : Z -> Z -> Z) (ceil_sqrt : Z -> Z) (c c' : column) (n : Z) (k k' : capacities) :
  (forall cap n, n <= grown cap n) -> matches c k -> Reserve max_size grown ceil_sqrt c n k = Ok k' -> 0 <= n -> reservable n c -> wf_col c -> wf_col c' ->
  ColumnType c' = ColumnType c -> Size c' <= n -> fits c' k'.
Proof. intros Hg. apply (Reserve_enough max_size grown ceil_sqrt Hg). Qed.

(** A UUID column reserves as many numbers as there are to be rows, but a row takes two: half of the rows fit. *)
Lemma uuid_reserve_half (n : Z) (l : list Z) : n < 2 ^ 60 -> 0 < n -> zlen l = 2 * n ->
  exists k', Reserve (2 ^ 60) (fun _ n => n) id (ColumnWrap WUUID (TSimple Code.UUID) (empty_vector Code.UInt64)) n (COne (CData 0)) = Ok k' /\
    Size (ColumnWrap WUUID (TSimple Code.UUID) (ColumnVector Code.UInt64 l)) = n /\ ~ fits (ColumnWrap WUUID (TSimple Code.UUID) (ColumnVector Code.UInt64 l)) k'.
Proof.
  intros Hn Hp Hl. exists (COne (CData n)). split; [|split].
  - cbn. unfold reserve. rewrite (proj2 (Z.ltb_ge _ _)) by lia. cbn [rbind]. by rewrite (proj2 (Z.leb_gt _ _)) by lia.
  - cbn [Size]. rewrite Hl. rewrite Z.mul_comm. apply Z.div_mul. lia.
  - cbn. lia.
Qed.

Example reserve_strings :
  Reserve (2 ^ 60) (fun _ n => n) id (ColumnNullable (ColumnString []) []) 1000 (CTwo (CString 0 0) 0) = Ok (CTwo (CString 1000 62) 1000).
Proof. reflexivity. Qed.

(** ** Direct access *)

(** [GetWritableData()]: the numbers, and the column after the application has changed them through the reference. *)
Fixpoint writable_data (c : column) : option (list Z * (list Z -> column)) :=
  match c with
  | ColumnVector code data => Some (data, fun data => ColumnVector code data)
  | ColumnWrap ((WDate | WDate32 | WDateTime | WTime | WTime64) as w) ty d =>
    match writable_data d with
    | Some (data, put) => Some (data, fun data => ColumnWrap w ty (put data))
    | None => None
    end
  | _ => None
  end.

(** The width of the numbers. *)
Fixpoint number_width (c : column) : nat :=
  match c with ColumnVector code _ => sizeof code | ColumnWrap _ _ d => number_width d | _ => O end.

(** Numbers of the width of the column leave it well formed; they are the numbers it has afterwards, in as many rows. *)
Lemma writable_data_ok (c : column) : forall data put, wf_col c -> writable_data c = Some (data, put) ->
  put data = c /\ forall data', Forall (fits_width (number_width c)) data' ->
    wf_col (put data') /\ ColumnType (put data') = ColumnType c /\ Size (put data') = zlen data' /\
    exists put', writable_data (put data') = Some (data', put').
Proof.
  induction c as [code l| | | | |w ty d IH| | | | |] using column_ind'; intros now put Hw E; try done.
  - injection E as <- <-. split; [done|]. intros data' Hf. split_and!; try done; [by destruct Hw|by eexists].
  - destruct Hw as (Ht & Hw & _). cbn [writable_data] in E.
    assert (exists p, writable_data d = Some (now, p) /\ put = (fun data => ColumnWrap w ty (p data)) /\ w <> WUUID /\
              forall q, (exists r, writable_data q = Some r) -> exists r, writable_data (ColumnWrap w ty q) = Some (match writable_data q with Some (x, _) => x | None => [] end, r))
      as (p & Ed & -> & Hu & Hq).
    { destruct w; try done; destruct (writable_data d) as [[x p]|]; try done; injection E as <- <-; exists p; split_and!; try done;
        intros q [[y r] Er]; cbn [writable_data]; rewrite Er; by eexists. }
    destruct (IH now p Hw Ed) as [Hput Hall]. split; [by rewrite Hput|]. intros data' Hf. destruct (Hall data' Hf) as (Hw' & Ht' & Hs & put' & Ep). cbn beta.
    split; [|split; [done|split]].
    + split; [congruence|]. by split.
    + by destruct w.
    + destruct (Hq (p data') (ex_intro _ _ Ep)) as [r Er]. rewrite Ep in Er. by exists r.
Qed.
