(* ===== verification/Protocol.v ===== *)
(** * Protocol constants (clickhouse/protocol.h, the macros of client.cpp, version.h) *)

From S2P Require Import Prelude.

Module ServerCodes.
Definition Hello : Z := 0.
Definition Data : Z := 1.
Definition Exception : Z := 2.
Definition Progress : Z := 3.
Definition Pong : Z := 4.
Definition EndOfStream : Z := 5.
Definition ProfileInfo : Z := 6.
Definition Totals : Z := 7.
Definition Extremes : Z := 8.
Definition TablesStatusResponse : Z := 9.
Definition Log : Z := 10.
Definition TableColumns : Z := 11.
Definition PartUUIDs : Z := 12.
Definition ReadTaskRequest : Z := 13.
Definition ProfileEvents : Z := 14.
End ServerCodes.

Module ClientCodes.
Definition Hello : Z := 0.
Definition Query : Z := 1.
Definition Data : Z := 2.
Definition Cancel : Z := 3.
Definition Ping : Z := 4.
End ClientCodes.

(** [CompressionState] and [Stages]. *)
Definition CompressionState (enabled : bool) : Z := if enabled then 1 else 0.

Definition Stages_Complete : Z := 2.

Definition CLIENT_NAME : bytes := str "clickhouse-cpp".

Definition CLICKHOUSE_CPP_VERSION_MAJOR : Z := 2.
Definition CLICKHOUSE_CPP_VERSION_MINOR : Z := 6.
Definition CLICKHOUSE_CPP_VERSION_PATCH : Z := 2.

Definition DBMS_MIN_REVISION_WITH_TEMPORARY_TABLES : Z := 50264.
Definition DBMS_MIN_REVISION_WITH_TOTAL_ROWS_IN_PROGRESS : Z := 51554.
Definition DBMS_MIN_REVISION_WITH_BLOCK_INFO : Z := 51903.
Definition DBMS_MIN_REVISION_WITH_CLIENT_INFO : Z := 54032.
Definition DBMS_MIN_REVISION_WITH_SERVER_TIMEZONE : Z := 54058.
Definition DBMS_MIN_REVISION_WITH_QUOTA_KEY_IN_CLIENT_INFO : Z := 54060.
Definition DBMS_MIN_REVISION_WITH_SERVER_DISPLAY_NAME : Z := 54372.
Definition DBMS_MIN_REVISION_WITH_VERSION_PATCH : Z := 54401.
Definition DBMS_MIN_REVISION_WITH_CLIENT_WRITE_INFO : Z := 54420.
Definition DBMS_MIN_REVISION_WITH_SETTINGS_SERIALIZED_AS_STRINGS : Z := 54429.
Definition DBMS_MIN_REVISION_WITH_INTERSERVER_SECRET : Z := 54441.
Definition DBMS_MIN_REVISION_WITH_OPENTELEMETRY : Z := 54442.
Definition DBMS_MIN_REVISION_WITH_DISTRIBUTED_DEPTH : Z := 54448.
Definition DBMS_MIN_REVISION_WITH_INITIAL_QUERY_START_TIME : Z := 54449.
Definition DBMS_MIN_REVISION_WITH_PARALLEL_REPLICAS : Z := 54453.
Definition DBMS_MIN_REVISION_WITH_CUSTOM_SERIALIZATION : Z := 54454.
Definition DBMS_MIN_PROTOCOL_VERSION_WITH_ADDENDUM : Z := 54458.
Definition DBMS_MIN_PROTOCOL_VERSION_WITH_PARAMETERS : Z := 54459.

Definition DMBS_PROTOCOL_REVISION : Z := DBMS_MIN_PROTOCOL_VERSION_WITH_PARAMETERS.
