(* ===== verification/BlockWire.v ===== *)
(** * Blocks on the wire (ReadBlock, WriteBlock, SendBlockData, ReceiveData of client.cpp)

    The native format of a block, as the client writes it and reads it, over any
    stream, plain or compressed.  The type names in a block go through the
    process-wide cache of parsed names: a state that holds that cache beside a
    stream is an instance of [TypeCache]. *)

From S2P Require Import Prelude Streams WireFormat CityHash Compressed Text Types TypeParser TypeNames Columns ColumnRows ColumnWire ColumnOps Factory Block Protocol.

(** ** The cache of parsed type names *)

Class TypeCache (S : Type) := on_type_cache : forall {A}, M ast_cache A -> M S A.

(** What the block reader relies on: a lookup that succeeds whatever trees the cache
    holds does so here, and leaves the stream alone. *)
Class TypeCacheLaws (map_bool : bool) (S : Type) `{InputStreamLaws S} `{!TypeCache S} :=
  type_cache_law : forall A (m : M ast_cache A) (a : A),
    (forall cache, cache_ok map_bool cache -> exists cache', m cache = (Ok a, cache') /\ cache_ok map_bool cache') ->
    reads (on_type_cache m) [] a.

(** A stream and the cache. *)
Record Session (I : Type) := mkSession { ss_cache : ast_cache; ss_input : I }.
Arguments mkSession {I}.
Arguments ss_cache {I}.
Arguments ss_input {I}.

Definition ss_on_input {I A} (m : M I A) : M (Session I) A :=
  zoom ss_input (fun i s => mkSession (ss_cache s) i) m.

#[global] Instance Session_IS {I} `{InputStream I} : InputStream (Session I) :=
  {| DoRead := fun len => ss_on_input (DoRead len); Skip := fun n => ss_on_input (Skip n) |}.

#[global] Instance Session_cache {I} : TypeCache (Session I) :=
  fun A m => zoom ss_cache (fun c s => mkSession c (ss_input s)) m.

#[global] Instance Compressed_cache {I} `{!TypeCache I} : TypeCache (CompressedInput I) :=
  fun A m => ci_on_input (on_type_cache m).

(** ** Writing *)

Section WriteBlock.
Context {Out : Type} `{OutputStream Out}.
Context (revision : Z).

Definition WriteBlockInfo (info : BlockInfo) : M Out unit :=
  WriteUInt64 1 ;;;
  WriteFixed 1 (is_overflows info) ;;;
  WriteUInt64 2 ;;;
  WriteFixed 4 (bucket_num info) ;;;
  WriteUInt64 0.

(** One turn of the loop over the columns. *)
Definition WriteBlockColumn (rows : Z) (item : bytes * column) : M Out unit :=
  WriteString (fst item) ;;;
  WriteString (GetName (ColumnType (snd item))) ;;;
  when (DBMS_MIN_REVISION_WITH_CUSTOM_SERIALIZATION <=? revision) (WriteFixed 1 0) ;;;
  when (0 <? rows) (Save (snd item)).

(** Everything but the final flush. *)
Definition WriteBlock_body (block : Block) : M Out unit :=
  when (DBMS_MIN_REVISION_WITH_BLOCK_INFO <=? revision) (WriteBlockInfo (Info block)) ;;;
  WriteUInt64 (GetColumnCount block) ;;;
  WriteUInt64 (GetRowCount block) ;;;
  mapM_ (WriteBlockColumn (GetRowCount block)) (columns_ block).

Definition WriteBlock (block : Block) : M Out unit := WriteBlock_body block ;;; Flush.
End WriteBlock.

(** ** Reading *)

Section ReadBlock.
Context (std_hash : bytes -> Z) (map_bool : bool).
Context {I : Type} `{InputStream I} `{!TypeCache I}.
Context (revision : Z).

(** The fields are read only to be skipped, the two values apart. *)
Definition ReadBlockInfo : M I (option BlockInfo) :=
  let* '(ok, _) := ReadUInt64 in
  if negb ok then ret None else
  let* '(ok, overflows) := ReadFixed 1 (is_overflows BlockInfo_new) in
  if negb ok then ret None else
  let* '(ok, _) := ReadUInt64 in
  if negb ok then ret None else
  let* '(ok, bucket) := ReadFixed 4 (bucket_num BlockInfo_new) in
  if negb ok then ret None else
  let* '(ok, _) := ReadUInt64 in
  if negb ok then ret None else
  ret (Some (mkBlockInfo overflows (swrap 32 bucket))).

(** One turn of the loop over the columns; [false] makes [ReadBlock] return it. *)
Definition ReadBlockColumn (num_rows : Z) (block : Block) : M I (bool * Block) :=
  let* '(ok, name) := ReadString [] in
  if negb ok then ret (false, block) else
  let* '(ok, type) := ReadString [] in
  if negb ok then ret (false, block) else
  let* '(ok, custom_format_len) :=
    if DBMS_MIN_REVISION_WITH_CUSTOM_SERIALIZATION <=? revision then ReadFixed 1 0 else ret (true, 0) in
  if negb ok then ret (false, block) else
  if 0 <? custom_format_len then throw UnimplementedError else
  let* col := on_type_cache (CreateColumnByType std_hash map_bool type) in
  match col with
  | None => throw UnimplementedError
  | Some col =>
    let* '(ok, col) := if num_rows =? 0 then ret (true, col) else Load std_hash col num_rows in
    if negb ok then throw ProtocolError else
    match AppendColumn name col block with
    | (Ok _, block) => ret (true, block)
    | (Throw e, _) => throw e
    end
  end.

Fixpoint ReadBlockColumns (n : nat) (num_rows : Z) (block : Block) : M I (bool * Block) :=
  match n with
  | O => ret (true, block)
  | S n =>
    let* '(ok, block) := ReadBlockColumn num_rows block in
    if ok then ReadBlockColumns n num_rows block else ret (false, block)
  end.

Definition ReadBlock (block : Block) : M I (bool * Block) :=
  let* info :=
    if DBMS_MIN_REVISION_WITH_BLOCK_INFO <=? revision
    then let* i := ReadBlockInfo in ret (option_map (fun i => SetInfo i block) i)
    else ret (Some block) in
  match info with
  | None => ret (false, block)
  | Some block =>
    let* '(ok, num_columns) := ReadUInt64 in
    if negb ok then ret (false, block) else
    let* '(ok, num_rows) := ReadUInt64 in
    if negb ok then ret (false, block) else
    ReadBlockColumns (Z.to_nat num_columns) num_rows block
  end.
End ReadBlock.

(** ** Plain and compressed transfer *)

Section Transfer.
Context (lz4 : lz4_api) (zstd : zstd_api).

(** [SendBlockData]: with compression, a compressed stream over [output_] and a
    buffer over it live as long as the call. *)
Definition SendBlockData {Out} `{OutputStream Out} (compression : bool) (method : CompressionMethod.t)
    (max_compression_chunk_size revision : Z) (block : Block) : M Out unit :=
  if compression then fun output =>
    match CompressedOutput_new lz4 zstd output max_compression_chunk_size method with
    | (Throw e, compressed) => (Throw e, co_destination compressed)
    | (Ok _, compressed) =>
      let _ := CompressedOutput_OS lz4 zstd (Out := Out) in
      let '(r, buffered) := WriteBlock revision block (BufferedOutput_new compressed max_compression_chunk_size) in
      (r, co_destination (bo_destination buffered))
    end
  else WriteBlock revision block.

(** The part of [ReceiveData] that reads the block.  The destructor of the compressed
    stream checks that it is drained, unless an exception is in flight. *)
Definition ReceiveBlockData {I} `{InputStream I} `{!TypeCache I} (std_hash : bytes -> Z) (map_bool : bool)
    (compression : bool) (revision : Z) (block : Block) : M I (bool * Block) :=
  if compression then fun input =>
    let _ := CompressedInput_IS lz4 zstd (I := I) in
    let '(r, compressed) := ReadBlock std_hash map_bool revision block (CompressedInput_new input) in
    match r with
    | Throw e => (Throw e, ci_input compressed)
    | Ok v =>
      match CompressedInput_delete compressed with
      | Ok _ => (Ok v, ci_input compressed)
      | Throw e => (Throw e, ci_input compressed)
      end
    end
  else ReadBlock std_hash map_bool revision block.
End Transfer.

(** ** The bytes of a block *)

Definition opt_bytes (b : bool) (l : bytes) : bytes := if b then l else [].

Definition info_bytes (info : BlockInfo) : bytes :=
  varint_bytes 1 ++ le_bytes 1 (is_overflows info) ++ varint_bytes 2 ++ le_bytes 4 (bucket_num info) ++ varint_bytes 0.

Definition column_bytes (revision rows : Z) (item : bytes * column) : bytes :=
  string_bytes (fst item) ++ string_bytes (GetName (ColumnType (snd item))) ++
  opt_bytes (DBMS_MIN_REVISION_WITH_CUSTOM_SERIALIZATION <=? revision) (le_bytes 1 0) ++
  opt_bytes (0 <? rows) (prefix_bytes (snd item) ++ body_bytes (snd item)).

Definition block_bytes (revision : Z) (b : Block) : bytes :=
  opt_bytes (DBMS_MIN_REVISION_WITH_BLOCK_INFO <=? revision) (info_bytes (info_ b)) ++
  varint_bytes (zlen (columns_ b)) ++ varint_bytes (rows_ b) ++
  concat (map (column_bytes revision (rows_ b)) (columns_ b)).

(** A column a block can carry: well formed, of a type whose name the parser reads
    back, with the number of rows of the block. *)
Definition sendable (map_bool : bool) (rows : Z) (item : bytes * column) : Prop :=
  wf_col (snd item) /\ wf_type map_bool (ColumnType (snd item)) /\ mentions Code.Void (ColumnType (snd item)) = false /\
  Size (snd item) = rows /\ zlen (fst item) <= MAX_STRING /\ zlen (GetName (ColumnType (snd item))) <= MAX_STRING.

Definition block_sendable (map_bool : bool) (b : Block) : Prop :=
  Forall (sendable map_bool (rows_ b)) (columns_ b) /\ (columns_ b = [] -> rows_ b = 0) /\
  is_u 64 (rows_ b) /\ zlen (columns_ b) < 2 ^ 64 /\ is_u 8 (is_overflows (info_ b)) /\ is_s 32 (bucket_num (info_ b)).

(** The column received for a column sent. *)
Definition same_column (x y : bytes * column) : Prop :=
  fst y = fst x /\ ColumnType (snd y) = ColumnType (snd x) /\ rows (snd y) = rows (snd x) /\
  (mentions Code.LowCardinality (ColumnType (snd x)) = false -> snd y = snd x).

(** The block received for a block sent to a server of the given revision. *)
Definition same_block (revision : Z) (x y : Block) : Prop :=
  Forall2 same_column (columns_ x) (columns_ y) /\ rows_ y = rows_ x /\ block_ok y /\
  info_ y = if DBMS_MIN_REVISION_WITH_BLOCK_INFO <=? revision then info_ x else BlockInfo_new.

(** ** Writing *)
Section WriteSpec.
Context {Out : Type} `{OutputStreamLaws Out} (map_bool : bool) (revision : Z).

Lemma writes_when (b : bool) (m : M Out unit) bs : writes m bs tt -> writes (when b m) (opt_bytes b bs) tt.
Proof. intros Hm. destruct b; [done|apply writes_ret]. Qed.

Lemma writes_column (rows : Z) (item : bytes * column) : sendable map_bool rows item ->
  writes (WriteBlockColumn revision rows item) (column_bytes revision rows item) tt.
Proof.
  intros (Hw & _ & Hv & _). unfold WriteBlockColumn, column_bytes.
  eapply writes_bind; [apply writes_WriteString|]. eapply writes_bind; [apply writes_WriteString|].
  eapply writes_bind; [apply writes_when, writes_WriteFixed|]. apply writes_when. by apply writes_Save.
Qed.

Lemma writes_body (b : Block) : block_sendable map_bool b -> writes (WriteBlock_body revision b) (block_bytes revision b) tt.
Proof.
  intros (Hc & _). unfold WriteBlock_body, block_bytes.
  eapply writes_bind; [apply writes_when|].
  { unfold WriteBlockInfo, info_bytes. eapply writes_bind; [apply writes_WriteVarint64|].
    eapply writes_bind; [apply writes_WriteFixed|]. eapply writes_bind; [apply writes_WriteVarint64|].
    eapply writes_bind; [apply writes_WriteFixed|apply writes_WriteVarint64]. }
  eapply writes_bind; [apply writes_WriteVarint64|]. eapply writes_bind; [apply writes_WriteVarint64|].
  apply writes_mapM. eapply Forall_impl; [exact Hc|]. apply writes_column.
Qed.

Lemma writes_WriteBlock (b : Block) : block_sendable map_bool b -> writes (WriteBlock revision b) (block_bytes revision b) tt.
Proof.
  intros Hb. unfold WriteBlock.
  rewrite <- (app_nil_r (block_bytes revision b)). eapply writes_bind; [by apply writes_body|]. apply writes_flush.
Qed.
End WriteSpec.

(** ** Reading *)
Section ReadSpec.
Context (std_hash : bytes -> Z) (map_bool : bool) (revision : Z).
Context {I : Type} `{InputStreamLaws I} `{!TypeCache I} `{!TypeCacheLaws map_bool I}.

Lemma reads_info (info : BlockInfo) : is_u 8 (is_overflows info) -> is_s 32 (bucket_num info) ->
  reads ReadBlockInfo (info_bytes info) (Some info).
Proof.
  intros Ho Hb. unfold ReadBlockInfo, info_bytes.
  eapply reads_bind; [by apply reads_ReadVarint64|]. cbv beta iota. cbn [negb].
  eapply reads_bind; [by apply reads_ReadFixed|]. cbv beta iota. cbn [negb].
  eapply reads_bind; [by apply reads_ReadVarint64|]. cbv beta iota. cbn [negb].
  assert (le_bytes 4 (bucket_num info) = le_bytes 4 (wrap 32 (bucket_num info))) as ->.
  { symmetry. apply (le_bytes_mod 4). }
  eapply reads_bind; [apply reads_ReadFixed, (wrap_range 32); lia|]. cbv beta iota. cbn [negb].
  eapply reads_bind_nil; [by apply reads_ReadVarint64|]. cbv beta iota. cbn [negb].
  rewrite swrap_wrap, swrap_id by (done || lia). destruct info. apply reads_ret.
Qed.

Lemma sendable_zero (item : bytes * column) (e : column) : sendable map_bool 0 item -> blank std_hash (snd item) e ->
  same_column item (fst item, e) /\ Size e = 0.
Proof.
  intros (Hw & _ & _ & Hs & _) Hb. destruct (blank_spec _ _ _ Hw Hb) as [Hr Hsk]. split; [|by eapply blank_size].
  split_and!; cbn [fst snd]; [done|by apply skeleton_eq_type|by rewrite Hr, (proj2 (rows_nil _ Hw) Hs)|].
  intros Hlc. apply blank_clone in Hb; [|done|done]. rewrite (clone_self _ _ Hw Hlc Hs) in Hb. by injection Hb.
Qed.

(** One column: created from its type name, loaded, appended. *)
Lemma reads_column (rows : Z) (item : bytes * column) (b : Block) : 0 <= rows -> sendable map_bool rows item ->
  block_ok b -> (columns_ b = [] \/ rows_ b = rows) ->
  exists y, same_column item y /\
    reads (ReadBlockColumn std_hash map_bool revision rows b) (column_bytes revision rows item)
      (true, mkBlock (info_ b) (columns_ b ++ [y]) rows) /\
    block_ok (mkBlock (info_ b) (columns_ b ++ [y]) rows).
Proof.
  intros Hr Hs Hok Hrows. pose proof Hs as (Hw & Ht & Hv & Hsz & Hn & Hnt).
  destruct (CreateColumnByType_ok std_hash map_bool (snd item) Hw Ht) as (e & Hb & Hcr).
  assert (exists c', same_column item (fst item, c') /\ Size c' = rows /\
    reads (if rows =? 0 then ret (true, e) else Load std_hash e rows)
      (opt_bytes (0 <? rows) (prefix_bytes (snd item) ++ body_bytes (snd item))) (true, c')) as (c' & Hsame & Hsz' & Hload).
  { destruct (Z.eqb_spec rows 0) as [->|Hne].
    - destruct (sendable_zero item e Hs Hb) as [Hsame Hz]. exists e. split_and!; [done|done|apply reads_ret].
    - destruct (Load_ok std_hash (I := I) (snd item) e Hw Hv ltac:(lia) Hb) as (c' & Hl & Hrw & Hsk & Hsc & Heq).
      exists c'. rewrite (proj2 (Z.ltb_lt 0 rows)) by lia. rewrite Hsz in *. split_and!; [|done|done].
      split_and!; cbn [fst snd]; [done|by apply skeleton_eq_type|done|done]. }
  exists (fst item, c'). split; [done|]. split.
  - unfold ReadBlockColumn, column_bytes.
    eapply reads_bind; [by apply reads_ReadString|]. cbv beta iota. cbn [negb].
    eapply reads_bind; [by apply reads_ReadString|]. cbv beta iota. cbn [negb].
    eapply (reads_bind _ _ _ _ (true, 0)).
    { destruct (DBMS_MIN_REVISION_WITH_CUSTOM_SERIALIZATION <=? revision); [by apply reads_ReadFixed|apply reads_ret]. }
    cbv beta iota. cbn [negb Z.ltb Z.compare].
    rewrite <- (app_nil_l (opt_bytes (0 <? rows) _)).
    eapply (reads_bind _ _ _ _ (Some e)); [apply type_cache_law; exact Hcr|]. cbv beta iota.
    eapply reads_bind_nil; [exact Hload|]. cbv beta iota. cbn [negb].
    unfold AppendColumn. destruct (columns_ b) as [|z cols] eqn:Ec.
    + rewrite Hsz'. apply reads_ret.
    + destruct Hrows as [?|Hrows]; [done|]. rewrite Hsz', Hrows, Z.eqb_refl. cbn [negb]. apply reads_ret.
  - destruct Hok as [Hf Hz]. split; cbn [columns_ rows_]; [|by intros [_ ?]%app_eq_nil].
    apply Forall_app_2; [|by repeat constructor]. destruct Hrows as [->|<-]; [done|done].
Qed.

Lemma reads_columns (rows : Z) (items : list (bytes * column)) : 0 <= rows -> Forall (sendable map_bool rows) items ->
  forall b, block_ok b -> (columns_ b = [] \/ rows_ b = rows) -> (items = [] -> rows_ b = rows) ->
  exists ys, Forall2 same_column items ys /\
    reads (ReadBlockColumns std_hash map_bool revision (length items) rows b) (concat (map (column_bytes revision rows) items))
      (true, mkBlock (info_ b) (columns_ b ++ ys) rows) /\
    block_ok (mkBlock (info_ b) (columns_ b ++ ys) rows).
Proof.
  intros Hr. induction 1 as [|item items Hi _ IH]; intros b Hok Hrows Hnil; cbn [length ReadBlockColumns map concat].
  - exists []. rewrite app_nil_r, <- (Hnil eq_refl). destruct b. split_and!; [done|apply reads_ret|done].
  - destruct (reads_column rows item b Hr Hi Hok Hrows) as (y & Hy & Hrd & Hok').
    destruct (IH _ Hok' ltac:(by right) ltac:(done)) as (ys & Hys & Hrds & Hok''). exists (y :: ys).
    cbn [info_ columns_] in *. rewrite <- app_assoc in *. split_and!; [by constructor| |done].
    eapply reads_bind; [exact Hrd|]. exact Hrds.
Qed.

Lemma reads_ReadBlock (b : Block) : block_sendable map_bool b ->
  exists b', same_block revision b b' /\
    reads (ReadBlock std_hash map_bool revision Block_new) (block_bytes revision b) (true, b').
Proof.
  intros (Hc & Hnil & Hr & Hn & Ho & Hb). unfold ReadBlock, block_bytes.
  set (blk := mkBlock (if DBMS_MIN_REVISION_WITH_BLOCK_INFO <=? revision then info_ b else BlockInfo_new) [] 0).
  destruct (reads_columns (rows_ b) (columns_ b) (proj1 Hr) Hc blk) as (ys & Hys & Hrd & Hok).
  { by split. }
  { by left. }
  { intros E. symmetry. by apply Hnil. }
  eexists. split; [|eapply (reads_bind _ _ _ _ (Some blk))].
  3: { cbv beta iota. pose proof (zlen_nonneg (columns_ b)).
       eapply reads_bind; [apply reads_ReadVarint64; split; done|]. cbv beta iota. cbn [negb].
       eapply reads_bind; [by apply reads_ReadVarint64|]. cbv beta iota. cbn [negb].
       unfold zlen. rewrite Nat2Z.id. exact Hrd. }
  - split_and!; try done. 
  - unfold blk. destruct (DBMS_MIN_REVISION_WITH_BLOCK_INFO <=? revision); [|apply reads_ret].
    eapply reads_bind_nil; [by apply reads_info|]. apply reads_ret.
Qed.
End ReadSpec.

(** ** The states that hold the cache *)
Section CacheInstances.
Context (map_bool : bool) {I : Type} `{InputStreamLaws I}.

#[refine] Instance Session_laws : InputStreamLaws (Session I) :=
  {| pending := fun s => pending (ss_input s); in_good := fun s => in_good (ss_input s) /\ cache_ok map_bool (ss_cache s) |}.
Proof.
  intros s len [Hg Hc] Hl Hp. cbn [DoRead Session_IS]. unfold ss_on_input, zoom.
  destruct (DoRead_law (ss_input s) len Hg Hl Hp) as (got & i & -> & Hne & Hlen & Hd & Hg'). by eexists _, _.
Defined.

#[global] Instance Session_cache_laws : TypeCacheLaws map_bool (Session I).
Proof.
  intros A m a Hm s rest [Hg Hc] Hp. destruct (Hm (ss_cache s) Hc) as (c' & E & Hc').
  unfold on_type_cache, Session_cache, zoom. rewrite E. by eexists.
Qed.

Context `{!TypeCache I} `{!TypeCacheLaws map_bool I} (lz4 : lz4_api) (zstd : zstd_api) (tail : bytes).

Lemma Compressed_cache_laws :
  @TypeCacheLaws map_bool (CompressedInput I) (CompressedInput_IS lz4 zstd) (CompressedInput_laws lz4 zstd tail) _.
Proof.
  intros A m a Hm c rest (Hg & Hp & Hu) Hrest. destruct (type_cache_law A m a Hm (ci_input c) _ Hg eq_refl) as (i & E & Hpi & Hgi).
  exists (mkCompressedInput i (ci_data c) (ci_mem c)).
  split; [unfold on_type_cache at 1, Compressed_cache, ci_on_input, zoom; by rewrite E|].
  assert (ci_framed tail (mkCompressedInput i (ci_data c) (ci_mem c)) = ci_framed tail c) as Hf
    by (unfold ci_framed; cbn [ci_input]; by rewrite Hpi).
  cbn [pending in_good CompressedInput_laws] in *. unfold ci_pending, ci_good, ci_unread in *. rewrite Hf. cbn [ci_mem ci_input].
  split; [exact Hrest|]. rewrite Hpi. done.
Qed.
End CacheInstances.

(** ** Main results *)

(** A block goes through a stream: what [send] appends to the output, [receive] reads
    back from any input that starts with it. *)
Definition transfers {Out I} `{OutputStreamLaws Out} `{InputStreamLaws I} (send : M Out unit) (receive : M I (bool * Block))
    (revision : Z) (b : Block) : Prop :=
  forall o, out_good o -> exists bs o', send o = (Ok tt, o') /\ accepted o' = accepted o ++ bs /\ out_good o' /\
    forall i rest, in_good i -> pending i = bs ++ rest ->
    exists b' i', receive i = (Ok (true, b'), i') /\ pending i' = rest /\ in_good i' /\ same_block revision b b'.

Section BlockTransfer.
Context {Out I : Type} `{OutputStreamLaws Out} `{InputStreamLaws I} `{!TypeCache I}.
Context (std_hash : bytes -> Z) (map_bool : bool) `{!TypeCacheLaws map_bool I}.
Context (lz4 : lz4_api) (zstd : zstd_api) (revision : Z).

Lemma transfers_plain (b : Block) : block_sendable map_bool b ->
  transfers (WriteBlock revision b : M Out unit) (ReadBlock std_hash map_bool revision Block_new : M I _) revision b.
Proof.
  intros Hb o Hg. destruct (writes_WriteBlock map_bool revision b Hb o Hg) as (o' & E & Ha & Hg').
  destruct (reads_ReadBlock std_hash map_bool revision (I := I) b Hb) as (b' & Hs & Hr).
  exists (block_bytes revision b), o'. split_and!; try done. intros i rest Hi Hp.
  destruct (Hr i rest Hi Hp) as (i' & Er & Hp' & Hi'). by exists b', i'.
Qed.

(** The frames a compressed block is sent as. *)
Lemma send_compressed (method : CompressionMethod.t) (max_in chunk : Z) (b : Block) (o : Out) :
  method_ok lz4 zstd method max_in -> 0 < chunk <= max_in -> block_sendable map_bool b -> out_good o ->
  exists F o', SendBlockData lz4 zstd true method chunk revision b o = (Ok tt, o') /\ accepted o' = accepted o ++ F /\
    out_good o' /\ frames lz4 zstd F (block_bytes revision b).
Proof.
  intros Hm Hch Hb Hg. set (base := accepted o).
  destruct (Preallocate_ok lz4 zstd max_in chunk (mkCompressedOutput o chunk [] method) Hm ltac:(lia)) as (buf & E0 & Hroom).
  cbn [co_destination co_max_chunk co_method] in *. set (c0 := mkCompressedOutput o chunk buf method) in *.
  destruct (co_good_intro lz4 zstd max_in base c0 [] []) as (Hg0 & _ & Ha0); try done; [by rewrite app_nil_r|constructor|].
  pose (OSC := CompressedOutput_OS lz4 zstd (Out := Out)). pose (LC := CompressedOutput_laws lz4 zstd max_in base (Out := Out)).
  pose (b0 := BufferedOutput_new c0 chunk).
  assert (bo_good b0) as Hgb.
  { split; [exact Hg0|]. unfold b0, BufferedOutput_new, ao_ok. cbn [bo_array ao_pos ao_mem]. rewrite zlen_replicate. lia. }
  destruct (writes_body (H0 := @BufferedOutput_laws _ OSC LC) map_bool revision b Hb b0 Hgb) as (b1 & E1 & Ha1 & Hg1).
  destruct (BufferedOutput_DoFlush_ok b1 Hg1) as (b2 & E2 & Hg2 & _ & _ & Ha2 & _).
  destruct Hg2 as [(Hgo & _ & _ & _ & Hacc & HF) _].
  exists (co_sent base (bo_destination b2)), (co_destination (bo_destination b2)). split_and!; [|done|done|].
  - unfold SendBlockData, CompressedOutput_new. rewrite E0. unfold WriteBlock. cbv zeta. fold c0 OSC b0.
    rewrite (bind_ok _ _ _ _ _ E1). unfold Flush. cbn [DoFlush BufferedOutput_OS]. rewrite E2. done.
  - cbn [accepted BufferedOutput_laws LC CompressedOutput_laws] in *.
    change (accepted (bo_destination b2)) with (co_accepted lz4 zstd base (bo_destination b2)) in Ha2.
    rewrite Ha1 in Ha2. unfold bo_accepted in Ha2. cbn [b0 BufferedOutput_new bo_destination bo_array] in Ha2.
    change (accepted c0) with (co_accepted lz4 zstd base c0) in Ha2. rewrite Ha0 in Ha2.
    unfold ao_written in Ha2. cbn [ao_pos ao_mem] in Ha2. rewrite ztake_0 in Ha2. cbn [app] in Ha2. by rewrite <- Ha2.
Qed.

Lemma receive_compressed (b : Block) (F rest : bytes) (i : I) : block_sendable map_bool b ->
  frames lz4 zstd F (block_bytes revision b) -> in_good i -> pending i = F ++ rest ->
  exists b' i', ReceiveBlockData lz4 zstd std_hash map_bool true revision Block_new i = (Ok (true, b'), i') /\
    pending i' = rest /\ in_good i' /\ same_block revision b b'.
Proof.
  intros Hb HF Hi Hp.
  destruct (ci_good_intro lz4 zstd rest (CompressedInput_new i) F _ Hi Hp (frames_unframe _ _ _ _ HF)) as [Hg Hu].
  pose (LI := CompressedInput_laws lz4 zstd rest (I := I)).
  destruct (reads_ReadBlock (H0 := LI) (TypeCacheLaws0 := Compressed_cache_laws map_bool lz4 zstd rest)
    std_hash map_bool revision b Hb) as (b' & Hs & Hr).
  destruct (Hr (CompressedInput_new i) [] Hg) as (c' & E & Hp' & Hg').
  { cbn [pending LI CompressedInput_laws]. unfold ci_pending. rewrite Hu. cbn. by rewrite app_nil_r. }
  destruct (ci_drained lz4 zstd rest c' Hg' Hp') as [Hd Hpi].
  exists b', (ci_input c'). unfold ReceiveBlockData. cbv zeta. rewrite E, Hd. split_and!; try done. by destruct Hg'.
Qed.
End BlockTransfer.

(** C2. Blocks round trip, compressed or not, at every server revision: a block of
    well-formed columns of any nesting, sent with [SendBlockData], is accepted by
    [ReceiveBlockData] from any stream that starts with the bytes sent; the
    names, types, rows and block information arrive (the information only at
    revisions that carry it), columns without dictionaries arrive identical,
    nothing that follows is consumed, and a compressed stream is left drained. *)
Theorem block_roundtrip {Out I} `{OutputStreamLaws Out} `{InputStreamLaws I} `{!TypeCache I}
    (std_hash : bytes -> Z) (map_bool : bool) `{!TypeCacheLaws map_bool I} (lz4 : lz4_api) (zstd : zstd_api)
    (compression : bool) (method : CompressionMethod.t) (max_in chunk revision : Z) (b : Block)
    (Hcodec : compression = true -> method_ok lz4 zstd method max_in /\ 0 < chunk <= max_in)
    (Hb : block_sendable map_bool b) :
  transfers (SendBlockData lz4 zstd compression method chunk revision b : M Out unit)
    (ReceiveBlockData lz4 zstd std_hash map_bool compression revision Block_new : M I _) revision b.
Proof.
  destruct compression; [|by apply transfers_plain]. destruct (Hcodec eq_refl) as [Hm Hch]. intros o Hg.
  destruct (send_compressed map_bool lz4 zstd revision method max_in chunk b o Hm Hch Hb Hg) as (F & o' & E & Ha & Hg' & HF).
  exists F, o'. split_and!; try done. intros i rest Hi Hp. by eapply receive_compressed.
Qed.

Definition example_block : Block :=
  mkBlock (mkBlockInfo 0 (-1)) [(str "id", ColumnVector Code.UInt8 [1; 2; 3]); (str "v", example_column)] 3.

Lemma example_sendable : block_sendable false example_block.
Proof.
  split; [|split; [done|split; [done|split; [reflexivity|split; done]]]].
  constructor; [|constructor; [|constructor]]; unfold sendable; cbn [fst snd].
  - split; [wf_auto|]. split_and!; done.
  - split; [exact example_wf|]. split; [|split_and!; done]. cbn. split_and!; try done. by left.
Qed.

Lemma block_roundtrip_witness :
  transfers (SendBlockData store_lz4 store_zstd true CompressionMethod.LZ4 100 54459 example_block : M ChunkSink unit)
    (@ReceiveBlockData store_lz4 store_zstd (Session ChunkSource) _ _ (fun _ => 0) false true 54459 Block_new)
    (H2 := Session_laws false) 54459 example_block.
Proof.
  apply (block_roundtrip (H2 := Session_laws false) (fun _ => 0) false store_lz4 store_zstd true CompressionMethod.LZ4 1000 100 54459 example_block).
  - intros _. split; [exact store_lz4_ok|lia].
  - exact example_sendable.
Defined.
