(* ===== verification/Endpoints.v ===== *)
(** * Endpoints (clickhouse/base/endpoints_iterator.h, endpoints_iterator.cpp) *)

From S2P Require Import Prelude Columns.

Record Endpoint := mkEndpoint { ep_host : bytes; ep_port : Z }.

#[global] Instance Endpoint_eq_dec : EqDecision Endpoint.
Proof. solve_decision. Defined.

(** [endpoints] is a reference to the client's options, which do not change. *)
Record RoundRobinEndpointsIterator := mkRoundRobin { endpoints : list Endpoint; current_index : Z }.

Definition ValidateEndpoints (endpoints : list Endpoint) : result (list Endpoint) :=
  match endpoints with [] => Throw ValidationError | _ => Ok endpoints end.

Definition RoundRobin_new (es : list Endpoint) : result RoundRobinEndpointsIterator :=
  let! es := ValidateEndpoints es in
  Ok (mkRoundRobin es (wrap 64 (zlen es - 1))).

Definition Next : M RoundRobinEndpointsIterator Endpoint :=
  fun it =>
    let current_index := wrap 64 (current_index it + 1) mod zlen (endpoints it) in
    let it := mkRoundRobin (endpoints it) current_index in
    (index_ (endpoints it) current_index, it).

(** [n] calls in a row. *)
Fixpoint Next_n (n : nat) : M RoundRobinEndpointsIterator (list Endpoint) :=
  match n with
  | O => ret []
  | S n =>
    let* e := Next in
    let* es := Next_n n in
    ret (e :: es)
  end.

Definition rr_ok (it : RoundRobinEndpointsIterator) : Prop :=
  0 <= current_index it < zlen (endpoints it) /\ zlen (endpoints it) < 2 ^ 64.

(** The endpoints from position [i] on, around the list. *)
Definition rotation (es : list Endpoint) (i : Z) (n : nat) : list Endpoint :=
  map (fun k => nth (Z.to_nat ((i + Z.of_nat k) mod zlen es)) es (mkEndpoint [] 0)) (seq 0 n).

Lemma Next_ok (it : RoundRobinEndpointsIterator) : rr_ok it ->
  let i := (current_index it + 1) mod zlen (endpoints it) in
  Next it = (Ok (nth (Z.to_nat i) (endpoints it) (mkEndpoint [] 0)), mkRoundRobin (endpoints it) i) /\
  rr_ok (mkRoundRobin (endpoints it) i).
Proof.
  intros [Hi Hn] i. unfold Next. rewrite wrap_id by (unfold is_u; lia). fold i.
  assert (0 <= i < zlen (endpoints it)) as Hb by (apply Z.mod_pos_bound; lia).
  split; [|by split]. f_equal. unfold index_. cbn [endpoints]. rewrite (proj2 (Z.ltb_ge _ _)) by lia.
  assert (Z.to_nat i < length (endpoints it))%nat as Hl by (unfold zlen in Hb; lia).
  destruct (lookup_lt_is_Some_2 _ _ Hl) as [e E]. rewrite E. by rewrite (nth_lookup_Some _ _ _ _ E).
Qed.

Lemma rotation_S (es : list Endpoint) (i : Z) (n : nat) : 0 < zlen es ->
  rotation es i (S n) = nth (Z.to_nat (i mod zlen es)) es (mkEndpoint [] 0) :: rotation es ((i + 1) mod zlen es) n.
Proof.
  intros Hn. unfold rotation. cbn [seq map]. f_equal; [by rewrite Z.add_0_r|].
  rewrite <- seq_shift, map_map. apply map_ext. intros k. do 2 f_equal.
  rewrite Zplus_mod_idemp_l. f_equal. lia.
Qed.

Lemma Next_n_ok (n : nat) : forall it, rr_ok it ->
  exists it', Next_n n it = (Ok (rotation (endpoints it) ((current_index it + 1) mod zlen (endpoints it)) n), it') /\
    rr_ok it' /\ endpoints it' = endpoints it /\
    current_index it' = (current_index it + Z.of_nat n) mod zlen (endpoints it).
Proof.
  induction n as [|n IH]; intros it Hok.
  - exists it. split_and!; [done|done|done|]. destruct Hok. rewrite Z.add_0_r, Z.mod_small; lia.
  - destruct (Next_ok it Hok) as [E Hok']. destruct (IH _ Hok') as (it' & E' & Hok'' & He & Hc).
    cbn [endpoints current_index] in *. exists it'. split_and!; [|done|done|].
    + cbn [Next_n]. unfold bind. rewrite E, E'. unfold ret. rewrite rotation_S, Zmod_mod by (destruct Hok; lia). done.
    + rewrite Hc, Zplus_mod_idemp_l. f_equal. lia.
Qed.

(** A full round from position [j]. *)
Lemma rotation_split (es : list Endpoint) (j : Z) : 0 <= j < zlen es ->
  rotation es j (length es) = drop (Z.to_nat j) es ++ take (Z.to_nat j) es.
Proof.
  intros Hj. unfold zlen in Hj. apply list_eq. intros i. unfold rotation.
  change (map ?f ?l) with (f <$> l). rewrite list_lookup_fmap. destruct (decide (i < length es)%nat) as [Hi|Hi].
  - rewrite lookup_seq_lt by done. cbn [fmap option_fmap option_map]. rewrite lookup_app, lookup_drop, length_drop.
    destruct (decide (Z.to_nat j + i < length es)%nat) as [Hlt|Hge].
    + destruct (lookup_lt_is_Some_2 _ _ Hlt) as [e E]. rewrite E. rewrite Z.mod_small by (unfold zlen; lia).
      replace (Z.to_nat (j + Z.of_nat (0 + i))) with (Z.to_nat j + i)%nat by lia. by rewrite (nth_lookup_Some _ _ _ _ E).
    + rewrite (lookup_ge_None_2 es) by lia. rewrite lookup_take_lt by lia.
      assert (i - (length es - Z.to_nat j) < length es)%nat as Hk by lia. destruct (lookup_lt_is_Some_2 _ _ Hk) as [e E]. rewrite E.
      replace ((j + Z.of_nat (0 + i)) mod zlen es) with (Z.of_nat (i - (length es - Z.to_nat j))).
      * rewrite Nat2Z.id. by rewrite (nth_lookup_Some _ _ _ _ E).
      * unfold zlen. apply (Z.mod_unique_pos _ _ 1); lia.
  - rewrite lookup_seq_ge by lia. cbn. symmetry. apply lookup_ge_None_2. rewrite length_app, length_drop, length_take. lia.
Qed.

(** The endpoints are tried in order, each once per round: a fresh iterator
    over a non-empty list yields the list itself and is then back where it
    started, so every further round does the same; an empty list is refused. *)
Lemma round_robin (es : list Endpoint) (Hn : es <> []) (Hl : zlen es < 2 ^ 64) :
  exists it, RoundRobin_new es = Ok it /\ Next_n (length es) it = (Ok es, it) /\
    RoundRobin_new [] = Throw ValidationError.
Proof.
  pose proof (zlen_pos _ Hn). exists (mkRoundRobin es (zlen es - 1)).
  assert (rr_ok (mkRoundRobin es (zlen es - 1))) as Hok by (split; cbn; lia).
  destruct (Next_n_ok (length es) _ Hok) as ([es' i'] & E & _ & He & Hc). cbn [endpoints current_index] in *.
  split_and!; [| |done].
  - unfold RoundRobin_new. destruct es as [|e es]; [done|]. cbn [ValidateEndpoints rbind]. by rewrite wrap_id by (unfold is_u; lia).
  - rewrite E, He, Hc. rewrite Z.sub_add, Z_mod_same_full, rotation_split by lia. rewrite drop_0, app_nil_r. do 2 f_equal.
    fold (zlen es). replace (zlen es - 1 + zlen es) with (zlen es - 1 + 1 * zlen es) by lia.
    rewrite Z_mod_plus_full. apply Z.mod_small. lia.
Qed.

