(* ===== verification/Query.v ===== *)
(** * Queries and their callbacks (clickhouse/query.h, query.cpp, server_exception.h)

    The callbacks are the application's code: computations on a state [W] the
    client knows nothing about, which may throw.  The settings and the parameters
    are unordered maps; the order in which they are iterated is unspecified and is
    here that of [map_to_list]. *)

From S2P Require Import Prelude Text Types Columns Block.

Record Exception := mkException {
  e_code : Z;           (** [int] *)
  e_name : bytes;
  e_display_text : bytes;
  e_stack_trace : bytes;
}.

(** The exception object thrown for it. *)
Definition ServerException (e : Exception) : exn :=
  ServerError (e_code e) (e_name e) (e_display_text e) (e_stack_trace e).

Record QuerySettingsField := mkQuerySettingsField { qs_value : bytes; qs_flags : Z }.

Record Profile := mkProfile {
  p_rows : Z; p_blocks : Z; p_bytes : Z; p_rows_before_limit : Z;
  p_applied_limit : bool; p_calculated_rows_before_limit : bool;
}.

Definition Profile_new : Profile := mkProfile 0 0 0 0 false false.

Record Progress := mkProgress {
  pr_rows : Z; pr_bytes : Z; pr_total_rows : Z; pr_written_rows : Z; pr_written_bytes : Z;
}.

Definition Progress_new : Progress := mkProgress 0 0 0 0 0.

(** [open_telemetry::TracingContext]; the trace id is 16 bytes in memory. *)
Record TracingContext := mkTracingContext {
  trace_id : Z; span_id : Z; tracestate : bytes; trace_flags : Z;
}.

Record Query (W : Type) := mkQuery {
  query_ : bytes;
  query_id_ : bytes;
  tracing_context_ : option TracingContext;
  query_settings_ : gmap bytes QuerySettingsField;
  query_params_ : gmap bytes (option bytes);
  exception_cb_ : option (Exception -> M W unit);
  progress_cb_ : option (Progress -> M W unit);
  select_cb_ : option (Block -> M W unit);
  select_cancelable_cb_ : option (Block -> M W bool);
  select_server_log_cb_ : option (Block -> M W bool);
  profile_events_callback_cb_ : option (Block -> M W bool);
  profile_callback_cb_ : option (Profile -> M W unit);
}.
Arguments mkQuery {W}.
Arguments query_ {W}.
Arguments query_id_ {W}.
Arguments tracing_context_ {W}.
Arguments query_settings_ {W}.
Arguments query_params_ {W}.
Arguments exception_cb_ {W}.
Arguments progress_cb_ {W}.
Arguments select_cb_ {W}.
Arguments select_cancelable_cb_ {W}.
Arguments select_server_log_cb_ {W}.
Arguments profile_events_callback_cb_ {W}.
Arguments profile_callback_cb_ {W}.

Section Query.
Context {W : Type}.

Definition default_query_id : bytes := [].

Definition Query_new (query query_id : bytes) : Query W :=
  mkQuery query query_id None ∅ ∅ None None None None None None None.

(** [Query()]. *)
Definition Query_empty : Query W := Query_new [] [].

Definition SetQuerySettings (s : gmap bytes QuerySettingsField) (q : Query W) : Query W :=
  mkQuery (query_ q) (query_id_ q) (tracing_context_ q) s (query_params_ q) (exception_cb_ q) (progress_cb_ q)
    (select_cb_ q) (select_cancelable_cb_ q) (select_server_log_cb_ q) (profile_events_callback_cb_ q) (profile_callback_cb_ q).

Definition SetSetting (key : bytes) (value : QuerySettingsField) (q : Query W) : Query W :=
  SetQuerySettings (<[key := value]> (query_settings_ q)) q.

Definition SetParams (p : gmap bytes (option bytes)) (q : Query W) : Query W :=
  mkQuery (query_ q) (query_id_ q) (tracing_context_ q) (query_settings_ q) p (exception_cb_ q) (progress_cb_ q)
    (select_cb_ q) (select_cancelable_cb_ q) (select_server_log_cb_ q) (profile_events_callback_cb_ q) (profile_callback_cb_ q).

Definition SetParam (name : bytes) (value : option bytes) (q : Query W) : Query W :=
  SetParams (<[name := value]> (query_params_ q)) q.

Definition SetTracingContext (t : TracingContext) (q : Query W) : Query W :=
  mkQuery (query_ q) (query_id_ q) (Some t) (query_settings_ q) (query_params_ q) (exception_cb_ q) (progress_cb_ q)
    (select_cb_ q) (select_cancelable_cb_ q) (select_server_log_cb_ q) (profile_events_callback_cb_ q) (profile_callback_cb_ q).

(** [Query::OnData(SelectCallback)]. *)
Definition SetOnData (cb : Block -> M W unit) (q : Query W) : Query W :=
  mkQuery (query_ q) (query_id_ q) (tracing_context_ q) (query_settings_ q) (query_params_ q) (exception_cb_ q) (progress_cb_ q)
    (Some cb) (select_cancelable_cb_ q) (select_server_log_cb_ q) (profile_events_callback_cb_ q) (profile_callback_cb_ q).

Definition SetOnDataCancelable (cb : Block -> M W bool) (q : Query W) : Query W :=
  mkQuery (query_ q) (query_id_ q) (tracing_context_ q) (query_settings_ q) (query_params_ q) (exception_cb_ q) (progress_cb_ q)
    (select_cb_ q) (Some cb) (select_server_log_cb_ q) (profile_events_callback_cb_ q) (profile_callback_cb_ q).

Definition SetOnException (cb : Exception -> M W unit) (q : Query W) : Query W :=
  mkQuery (query_ q) (query_id_ q) (tracing_context_ q) (query_settings_ q) (query_params_ q) (Some cb) (progress_cb_ q)
    (select_cb_ q) (select_cancelable_cb_ q) (select_server_log_cb_ q) (profile_events_callback_cb_ q) (profile_callback_cb_ q).

Definition SetOnProgress (cb : Progress -> M W unit) (q : Query W) : Query W :=
  mkQuery (query_ q) (query_id_ q) (tracing_context_ q) (query_settings_ q) (query_params_ q) (exception_cb_ q) (Some cb)
    (select_cb_ q) (select_cancelable_cb_ q) (select_server_log_cb_ q) (profile_events_callback_cb_ q) (profile_callback_cb_ q).

Definition SetOnServerLog (cb : Block -> M W bool) (q : Query W) : Query W :=
  mkQuery (query_ q) (query_id_ q) (tracing_context_ q) (query_settings_ q) (query_params_ q) (exception_cb_ q) (progress_cb_ q)
    (select_cb_ q) (select_cancelable_cb_ q) (Some cb) (profile_events_callback_cb_ q) (profile_callback_cb_ q).

Definition SetOnProfileEvents (cb : Block -> M W bool) (q : Query W) : Query W :=
  mkQuery (query_ q) (query_id_ q) (tracing_context_ q) (query_settings_ q) (query_params_ q) (exception_cb_ q) (progress_cb_ q)
    (select_cb_ q) (select_cancelable_cb_ q) (select_server_log_cb_ q) (Some cb) (profile_callback_cb_ q).

Definition SetOnProfile (cb : Profile -> M W unit) (q : Query W) : Query W :=
  mkQuery (query_ q) (query_id_ q) (tracing_context_ q) (query_settings_ q) (query_params_ q) (exception_cb_ q) (progress_cb_ q)
    (select_cb_ q) (select_cancelable_cb_ q) (select_server_log_cb_ q) (profile_events_callback_cb_ q) (Some cb).

Definition is_set {A} (o : option A) : bool := match o with Some _ => true | None => false end.

Definition HasEventCallbacks (q : Query W) : bool :=
  is_set (exception_cb_ q) || is_set (progress_cb_ q) || is_set (select_cb_ q) || is_set (select_cancelable_cb_ q)
  || is_set (select_server_log_cb_ q) || is_set (profile_events_callback_cb_ q) || is_set (profile_callback_cb_ q).

(** ** The events, as the client raises them *)

Definition call {A B} (cb : option (A -> M W B)) (a : A) : M W unit :=
  match cb with Some f => f a ;;; ret tt | None => ret tt end.

Definition OnData (q : Query W) (block : Block) : M W unit := call (select_cb_ q) block.

Definition OnDataCancelable (q : Query W) (block : Block) : M W bool :=
  match select_cancelable_cb_ q with Some f => f block | None => ret true end.

Definition OnServerException (q : Query W) (e : Exception) : M W unit := call (exception_cb_ q) e.

Definition OnProfile (q : Query W) (profile : Profile) : M W unit := call (profile_callback_cb_ q) profile.

Definition OnProgress (q : Query W) (progress : Progress) : M W unit := call (progress_cb_ q) progress.

Definition OnServerLog (q : Query W) (block : Block) : M W unit := call (select_server_log_cb_ q) block.

Definition OnProfileEvents (q : Query W) (block : Block) : M W unit := call (profile_events_callback_cb_ q) block.

Definition OnFinish (q : Query W) : M W unit := ret tt.
End Query.
