(* ===== verification/Messages.v ===== *)
(** * The messages of the client (SendHello, SendQuery, SendCancel, Ping, SendData of client.cpp)

    Each message as a writer on any output stream, and the bytes it stands for.
    What a message contains depends on the revision the server announced; the
    writer of a query throws in the middle of the message when the server is too
    old for what the query asks. *)

From S2P Require Import Prelude Streams WireFormat CityHash Compressed Text Types Columns ColumnWire Block Protocol Query BlockWire.

Record ClientInfo := mkClientInfo {
  iface_type : Z;
  query_kind : Z;
  initial_user : bytes;
  initial_query_id : bytes;
  quota_key : bytes;
  os_user : bytes;
  client_hostname : bytes;
  client_name : bytes;
  initial_address : bytes;
  client_version_major : Z;
  client_version_minor : Z;
  client_version_patch : Z;
  client_revision : Z;
}.

(** The [ClientInfo] that [SendQuery] fills in. *)
Definition client_info : ClientInfo :=
  mkClientInfo 1 1 [] [] [] [] [] CLIENT_NAME (str "[::ffff:127.0.0.1]:0") CLICKHOUSE_CPP_VERSION_MAJOR
    CLICKHOUSE_CPP_VERSION_MINOR CLICKHOUSE_CPP_VERSION_PATCH DMBS_PROTOCOL_REVISION.

(** ** Readers that may fail *)

(** A read that reports [false] on failure. *)
Definition checked {S A} (m : M S (bool * A)) : M S (option A) :=
  let* '(ok, a) := m in ret (if ok then Some a else None).

(** Reads in sequence: the first that fails makes the whole fail. *)
Definition obind {S A B} (m : M S (option A)) (k : A -> M S (option B)) : M S (option B) :=
  let* o := m in match o with Some a => k a | None => ret None end.

(** ** The messages *)

Section Writers.
Context {Out : Type} `{OutputStream Out}.

Definition WriteHello (default_database user password : bytes) : M Out unit :=
  WriteUInt64 ClientCodes.Hello ;;;
  WriteString CLIENT_NAME ;;;
  WriteUInt64 CLICKHOUSE_CPP_VERSION_MAJOR ;;;
  WriteUInt64 CLICKHOUSE_CPP_VERSION_MINOR ;;;
  WriteUInt64 DMBS_PROTOCOL_REVISION ;;;
  WriteString default_database ;;;
  WriteString user ;;;
  WriteString password ;;;
  Flush.

(** [SendCancel], and the request of [Ping]. *)
Definition WriteCancel : M Out unit := WriteUInt64 ClientCodes.Cancel ;;; Flush.

Definition WritePing : M Out unit := WriteUInt64 ClientCodes.Ping ;;; Flush.

Context (revision : Z).

(** The OpenTelemetry header. *)
Definition WriteTracingContext (tracing_context : option TracingContext) : M Out unit :=
  if DBMS_MIN_REVISION_WITH_OPENTELEMETRY <=? revision then
    match tracing_context with
    | Some t =>
      WriteFixed 1 1 ;;;
      WriteFixed 16 (trace_id t) ;;;
      WriteFixed 8 (span_id t) ;;;
      WriteString (tracestate t) ;;;
      WriteFixed 1 (trace_flags t)
    | None => WriteFixed 1 0
    end
  else
    match tracing_context with
    | Some _ => throw UnimplementedError
    | None => ret tt
    end.

Definition WriteClientInfo (info : ClientInfo) (tracing_context : option TracingContext) : M Out unit :=
  WriteFixed 1 (query_kind info) ;;;
  WriteString (initial_user info) ;;;
  WriteString (initial_query_id info) ;;;
  WriteString (initial_address info) ;;;
  when (DBMS_MIN_REVISION_WITH_INITIAL_QUERY_START_TIME <=? revision) (WriteFixed 8 0) ;;;
  WriteFixed 1 (iface_type info) ;;;
  WriteString (os_user info) ;;;
  WriteString (client_hostname info) ;;;
  WriteString (client_name info) ;;;
  WriteUInt64 (client_version_major info) ;;;
  WriteUInt64 (client_version_minor info) ;;;
  WriteUInt64 (client_revision info) ;;;
  when (DBMS_MIN_REVISION_WITH_QUOTA_KEY_IN_CLIENT_INFO <=? revision) (WriteString (quota_key info)) ;;;
  when (DBMS_MIN_REVISION_WITH_DISTRIBUTED_DEPTH <=? revision) (WriteUInt64 0) ;;;
  when (DBMS_MIN_REVISION_WITH_VERSION_PATCH <=? revision) (WriteUInt64 (client_version_patch info)) ;;;
  WriteTracingContext tracing_context ;;;
  when (DBMS_MIN_REVISION_WITH_PARALLEL_REPLICAS <=? revision) (
    WriteUInt64 0 ;;;
    WriteUInt64 0 ;;;
    WriteUInt64 0).

Definition WriteSetting (setting : bytes * QuerySettingsField) : M Out unit :=
  WriteString (fst setting) ;;;
  WriteVarint64 (qs_flags (snd setting)) ;;;
  WriteString (qs_value (snd setting)).

Definition WriteSettings (settings : list (bytes * QuerySettingsField)) : M Out unit :=
  (if DBMS_MIN_REVISION_WITH_SETTINGS_SERIALIZED_AS_STRINGS <=? revision then mapM_ WriteSetting settings
   else if 0 <? zlen settings then throw UnimplementedError
   else ret tt) ;;;
  WriteString [].

(** The flag [Custom]. *)
Definition Custom : Z := 2.

Definition WriteParam (param : bytes * option bytes) : M Out unit :=
  WriteString (fst param) ;;;
  WriteVarint64 Custom ;;;
  match snd param with
  | Some value => WriteQuotedString value
  | None => WriteParamNullRepresentation
  end.

(** [SendQuery] up to the empty block that ends it. *)
Definition WriteQuery {W} (compression : bool) (query : Query W) : M Out unit :=
  WriteUInt64 ClientCodes.Query ;;;
  WriteString (query_id_ query) ;;;
  when (DBMS_MIN_REVISION_WITH_CLIENT_INFO <=? revision) (WriteClientInfo client_info (tracing_context_ query)) ;;;
  WriteSettings (map_to_list (query_settings_ query)) ;;;
  when (DBMS_MIN_REVISION_WITH_INTERSERVER_SECRET <=? revision) (WriteString []) ;;;
  WriteUInt64 Stages_Complete ;;;
  WriteUInt64 (CompressionState compression) ;;;
  WriteString (query_ query) ;;;
  when (DBMS_MIN_PROTOCOL_VERSION_WITH_PARAMETERS <=? revision) (
    mapM_ WriteParam (map_to_list (query_params_ query)) ;;;
    WriteString []).

(** The header of a data packet, and that of an external table. *)
Definition WriteDataHeader : M Out unit :=
  WriteUInt64 ClientCodes.Data ;;;
  when (DBMS_MIN_REVISION_WITH_TEMPORARY_TABLES <=? revision) (WriteString []).

Definition WriteTableHeader (name : bytes) : M Out unit :=
  WriteFixed 1 ClientCodes.Data ;;;
  WriteString name.
End Writers.

(** ** The bytes of the messages *)

Definition hello_bytes (default_database user password : bytes) : bytes :=
  varint_bytes ClientCodes.Hello ++ string_bytes CLIENT_NAME ++ varint_bytes CLICKHOUSE_CPP_VERSION_MAJOR ++
  varint_bytes CLICKHOUSE_CPP_VERSION_MINOR ++ varint_bytes DMBS_PROTOCOL_REVISION ++
  string_bytes default_database ++ string_bytes user ++ string_bytes password.

Definition cancel_bytes : bytes := varint_bytes ClientCodes.Cancel.

Definition ping_bytes : bytes := varint_bytes ClientCodes.Ping.

Section Bytes.
Context (revision : Z).

Definition tracing_bytes (tracing_context : option TracingContext) : bytes :=
  opt_bytes (DBMS_MIN_REVISION_WITH_OPENTELEMETRY <=? revision)
    match tracing_context with
    | Some t => le_bytes 1 1 ++ le_bytes 16 (trace_id t) ++ le_bytes 8 (span_id t) ++ string_bytes (tracestate t) ++
                le_bytes 1 (trace_flags t)
    | None => le_bytes 1 0
    end.

Definition client_info_bytes (info : ClientInfo) (tracing_context : option TracingContext) : bytes :=
  le_bytes 1 (query_kind info) ++ string_bytes (initial_user info) ++ string_bytes (initial_query_id info) ++
  string_bytes (initial_address info) ++
  opt_bytes (DBMS_MIN_REVISION_WITH_INITIAL_QUERY_START_TIME <=? revision) (le_bytes 8 0) ++
  le_bytes 1 (iface_type info) ++ string_bytes (os_user info) ++ string_bytes (client_hostname info) ++
  string_bytes (client_name info) ++ varint_bytes (client_version_major info) ++
  varint_bytes (client_version_minor info) ++ varint_bytes (client_revision info) ++
  opt_bytes (DBMS_MIN_REVISION_WITH_QUOTA_KEY_IN_CLIENT_INFO <=? revision) (string_bytes (quota_key info)) ++
  opt_bytes (DBMS_MIN_REVISION_WITH_DISTRIBUTED_DEPTH <=? revision) (varint_bytes 0) ++
  opt_bytes (DBMS_MIN_REVISION_WITH_VERSION_PATCH <=? revision) (varint_bytes (client_version_patch info)) ++
  tracing_bytes tracing_context ++
  opt_bytes (DBMS_MIN_REVISION_WITH_PARALLEL_REPLICAS <=? revision) (varint_bytes 0 ++ varint_bytes 0 ++ varint_bytes 0).

Definition setting_bytes (setting : bytes * QuerySettingsField) : bytes :=
  string_bytes (fst setting) ++ varint_bytes (qs_flags (snd setting)) ++ string_bytes (qs_value (snd setting)).

(** The text sent for the value of a parameter. *)
Definition param_text (value : option bytes) : bytes :=
  match value with Some v => quoted v | None => NULL_REPRESENTATION end.

Definition param_bytes (param : bytes * option bytes) : bytes :=
  string_bytes (fst param) ++ varint_bytes Custom ++ string_bytes (param_text (snd param)).

Definition query_bytes {W} (compression : bool) (query : Query W) : bytes :=
  varint_bytes ClientCodes.Query ++ string_bytes (query_id_ query) ++
  opt_bytes (DBMS_MIN_REVISION_WITH_CLIENT_INFO <=? revision) (client_info_bytes client_info (tracing_context_ query)) ++
  concat (map setting_bytes (map_to_list (query_settings_ query))) ++ string_bytes [] ++
  opt_bytes (DBMS_MIN_REVISION_WITH_INTERSERVER_SECRET <=? revision) (string_bytes []) ++
  varint_bytes Stages_Complete ++ varint_bytes (CompressionState compression) ++ string_bytes (query_ query) ++
  opt_bytes (DBMS_MIN_PROTOCOL_VERSION_WITH_PARAMETERS <=? revision)
    (concat (map param_bytes (map_to_list (query_params_ query))) ++ string_bytes []).

Definition data_header_bytes : bytes :=
  varint_bytes ClientCodes.Data ++
  opt_bytes (DBMS_MIN_REVISION_WITH_TEMPORARY_TABLES <=? revision) (string_bytes []).

Definition table_header_bytes (name : bytes) : bytes := le_bytes 1 ClientCodes.Data ++ string_bytes name.

(** The server can be sent the query: it is new enough for the settings and the tracing context. *)
Definition query_supported {W} (query : Query W) : Prop :=
  (DBMS_MIN_REVISION_WITH_SETTINGS_SERIALIZED_AS_STRINGS <= revision \/ query_settings_ query = ∅) /\
  (DBMS_MIN_REVISION_WITH_OPENTELEMETRY <= revision \/ tracing_context_ query = None).
End Bytes.

(** ** The writers write them *)

Ltac writes_step :=
  lazymatch goal with
  | |- writes (WriteString _) _ _ => apply writes_WriteString
  | |- writes (WriteFixed _ _) _ _ => apply writes_WriteFixed
  | |- writes (WriteVarint64 _) _ _ => apply writes_WriteVarint64
  | |- writes (WriteUInt64 _) _ _ => apply writes_WriteVarint64
  | |- writes (WriteAll _) _ _ => apply writes_WriteAll
  | |- writes (when _ _) _ _ => apply writes_when
  | |- writes (bind _ _) _ _ => eapply writes_bind
  end.

Section WritersSpec.
Context {Out : Type} `{OutputStreamLaws Out}.

Lemma writes_then_flush (m : M Out unit) bs : writes m bs tt -> writes (m ;;; Flush) bs tt.
Proof. intros Hm. rewrite <- (app_nil_r bs). eapply writes_bind; [exact Hm|apply writes_flush]. Qed.

Lemma writes_WriteHello (d u p : bytes) : writes (WriteHello d u p) (hello_bytes d u p) tt.
Proof. unfold WriteHello, hello_bytes. do 7 (eapply writes_bind; [writes_step|]). apply writes_then_flush, writes_WriteString. Qed.

Lemma writes_WriteCancel : writes WriteCancel cancel_bytes tt.
Proof. apply writes_then_flush, writes_WriteVarint64. Qed.

Lemma writes_WritePing : writes WritePing ping_bytes tt.
Proof. apply writes_then_flush, writes_WriteVarint64. Qed.

Context (revision : Z).

Lemma writes_tracing (tc : option TracingContext) : DBMS_MIN_REVISION_WITH_OPENTELEMETRY <= revision \/ tc = None ->
  writes (WriteTracingContext revision tc) (tracing_bytes revision tc) tt.
Proof.
  intros Hs. unfold WriteTracingContext, tracing_bytes. destruct (Z.leb_spec DBMS_MIN_REVISION_WITH_OPENTELEMETRY revision); cbn [opt_bytes].
  - destruct tc; repeat writes_step.
  - destruct Hs as [?| ->]; [lia|apply writes_ret].
Qed.

Lemma writes_client_info (info : ClientInfo) (tc : option TracingContext) :
  DBMS_MIN_REVISION_WITH_OPENTELEMETRY <= revision \/ tc = None ->
  writes (WriteClientInfo revision info tc) (client_info_bytes revision info tc) tt.
Proof.
  intros Hs. unfold WriteClientInfo, client_info_bytes. do 15 (eapply writes_bind; [repeat writes_step|]).
  eapply writes_bind; [by apply writes_tracing|repeat writes_step].
Qed.

Lemma writes_settings (l : list (bytes * QuerySettingsField)) :
  DBMS_MIN_REVISION_WITH_SETTINGS_SERIALIZED_AS_STRINGS <= revision \/ l = [] ->
  writes (WriteSettings revision l) (concat (map setting_bytes l) ++ string_bytes []) tt.
Proof.
  intros Hs. unfold WriteSettings. eapply writes_bind; [|apply writes_WriteString].
  destruct (Z.leb_spec DBMS_MIN_REVISION_WITH_SETTINGS_SERIALIZED_AS_STRINGS revision).
  - apply writes_mapM, Forall_forall. intros x _. unfold WriteSetting, setting_bytes. repeat writes_step.
  - destruct Hs as [?| ->]; [lia|apply writes_ret].
Qed.

Lemma writes_param (p : bytes * option bytes) : writes (WriteParam p) (param_bytes p) tt.
Proof.
  unfold WriteParam, param_bytes. eapply writes_bind; [writes_step|]. eapply writes_bind; [writes_step|].
  destruct (snd p); cbn [param_text]; [apply writes_WriteQuotedString|]. unfold WriteParamNullRepresentation, string_bytes. repeat writes_step.
Qed.

Lemma writes_WriteQuery {W} (compression : bool) (q : Query W) : query_supported revision q ->
  writes (WriteQuery revision compression q) (query_bytes revision compression q) tt.
Proof.
  intros [Hset Htr]. unfold WriteQuery, query_bytes. do 2 (eapply writes_bind; [writes_step|]).
  eapply writes_bind; [apply writes_when; by apply writes_client_info|]. rewrite app_assoc.
  eapply writes_bind; [apply writes_settings; destruct Hset as [?| ->]; [by left|right; apply map_to_list_empty]|].
  do 4 (eapply writes_bind; [repeat writes_step|]). apply writes_when. eapply writes_bind; [|writes_step].
  apply writes_mapM, Forall_forall. intros x _. apply writes_param.
Qed.

Lemma writes_data_header : writes (WriteDataHeader revision) (data_header_bytes revision) tt.
Proof. unfold WriteDataHeader, data_header_bytes. repeat writes_step. Qed.

Lemma writes_table_header (name : bytes) : writes (WriteTableHeader name) (table_header_bytes name) tt.
Proof. unfold WriteTableHeader, table_header_bytes. repeat writes_step. Qed.
End WritersSpec.

(** ** A reference reader of queries

    What a server reads: the fields in the order of the protocol, each present when
    the revision has it.  Settings and parameters end at an empty name. *)

Record QueryMessage := mkQueryMessage {
  qm_id : bytes;
  qm_tracing : option TracingContext;
  qm_settings : list (bytes * QuerySettingsField);
  qm_stage : Z;
  qm_compression : Z;
  qm_text : bytes;
  qm_params : list (bytes * bytes);
}.

Section Reader.
Context {I : Type} `{InputStream I} (revision : Z).

Definition since {A} (r : Z) (d : A) (m : M I (option A)) : M I (option A) := if r <=? revision then m else ret (Some d).

Definition read_string : M I (option bytes) := checked (ReadString []).

Definition read_tracing : M I (option (option TracingContext)) :=
  obind (checked (ReadFixed 1 0)) (fun present =>
  if present =? 0 then ret (Some None) else
  obind (checked (ReadFixed 16 0)) (fun trace =>
  obind (checked (ReadFixed 8 0)) (fun span =>
  obind read_string (fun state =>
  obind (checked (ReadFixed 1 0)) (fun flags =>
  ret (Some (Some (mkTracingContext trace span state flags)))))))).

Definition read_client_info : M I (option (option TracingContext)) :=
  obind (checked (ReadFixed 1 0)) (fun kind =>
  obind read_string (fun _ => obind read_string (fun _ => obind read_string (fun _ =>
  obind (since DBMS_MIN_REVISION_WITH_INITIAL_QUERY_START_TIME 0 (checked (ReadFixed 8 0))) (fun _ =>
  obind (checked (ReadFixed 1 0)) (fun _ =>
  obind read_string (fun _ => obind read_string (fun _ => obind read_string (fun _ =>
  obind (checked ReadUInt64) (fun _ => obind (checked ReadUInt64) (fun _ => obind (checked ReadUInt64) (fun _ =>
  obind (since DBMS_MIN_REVISION_WITH_QUOTA_KEY_IN_CLIENT_INFO [] read_string) (fun _ =>
  obind (since DBMS_MIN_REVISION_WITH_DISTRIBUTED_DEPTH 0 (checked ReadUInt64)) (fun _ =>
  obind (since DBMS_MIN_REVISION_WITH_VERSION_PATCH 0 (checked ReadUInt64)) (fun _ =>
  obind (since DBMS_MIN_REVISION_WITH_OPENTELEMETRY None read_tracing) (fun tracing =>
  obind (since DBMS_MIN_REVISION_WITH_PARALLEL_REPLICAS 0 (
    obind (checked ReadUInt64) (fun _ => obind (checked ReadUInt64) (fun _ => checked ReadUInt64)))) (fun _ =>
  ret (Some tracing)))))))))))))))))).

(** A list of entries ended by an empty name. *)
Fixpoint read_entries {A} (read : M I (option A)) (fuel : nat) : M I (option (list (bytes * A))) :=
  match fuel with
  | O => ret None
  | S fuel =>
    obind read_string (fun name =>
    match name with
    | [] => ret (Some [])
    | _ => obind read (fun a => obind (read_entries read fuel) (fun l => ret (Some ((name, a) :: l))))
    end)
  end.

Definition read_setting : M I (option QuerySettingsField) :=
  obind (checked ReadUInt64) (fun flags => obind read_string (fun value => ret (Some (mkQuerySettingsField value flags)))).

Definition read_param : M I (option bytes) := obind (checked ReadUInt64) (fun _ => read_string).

Definition read_query (fuel : nat) : M I (option QueryMessage) :=
  obind (checked ReadUInt64) (fun code =>
  if negb (code =? ClientCodes.Query) then ret None else
  obind read_string (fun id =>
  obind (since DBMS_MIN_REVISION_WITH_CLIENT_INFO None read_client_info) (fun tracing =>
  obind (read_entries read_setting fuel) (fun settings =>
  obind (since DBMS_MIN_REVISION_WITH_INTERSERVER_SECRET [] read_string) (fun _ =>
  obind (checked ReadUInt64) (fun stage =>
  obind (checked ReadUInt64) (fun compression =>
  obind read_string (fun text =>
  obind (since DBMS_MIN_PROTOCOL_VERSION_WITH_PARAMETERS [] (read_entries read_param fuel)) (fun params =>
  ret (Some (mkQueryMessage id tracing settings stage compression text params))))))))))).
End Reader.

(** ** Queries can be read back *)

(** The strings fit the limit of the reader, the numbers their width, no name is empty. *)
Definition short (s : bytes) : Prop := zlen s <= MAX_STRING.

Definition tracing_ok (t : TracingContext) : Prop :=
  is_u 128 (trace_id t) /\ is_u 64 (span_id t) /\ short (tracestate t) /\ is_u 8 (trace_flags t).

Definition setting_ok (s : bytes * QuerySettingsField) : Prop :=
  fst s <> [] /\ short (fst s) /\ is_u 64 (qs_flags (snd s)) /\ short (qs_value (snd s)).

Definition param_ok (p : bytes * option bytes) : Prop := fst p <> [] /\ short (fst p) /\ short (param_text (snd p)).

Definition query_encodable {W} (q : Query W) : Prop :=
  short (query_id_ q) /\ short (query_ q) /\ (forall t, tracing_context_ q = Some t -> tracing_ok t) /\
  Forall setting_ok (map_to_list (query_settings_ q)) /\ Forall param_ok (map_to_list (query_params_ q)).

Section ReaderSpec.
Context {I : Type} `{InputStreamLaws I} (revision : Z).

Lemma reads_obind {A B} (m : M I (option A)) (k : A -> M I (option B)) bs cs a b :
  reads m bs (Some a) -> reads (k a) cs b -> reads (obind m k) (bs ++ cs) b.
Proof. intros Hm Hk. unfold obind. by eapply reads_bind. Qed.

Lemma reads_obind_nil {A B} (m : M I (option A)) (k : A -> M I (option B)) bs a b :
  reads m bs (Some a) -> reads (k a) [] b -> reads (obind m k) bs b.
Proof. intros Hm Hk. rewrite <- (app_nil_r bs). by eapply reads_obind. Qed.

Lemma reads_checked {A} (m : M I (bool * A)) bs a : reads m bs (true, a) -> reads (checked m) bs (Some a).
Proof. intros Hm. unfold checked. eapply reads_bind_nil; [exact Hm|apply reads_ret]. Qed.

Lemma reads_since {A} (r : Z) (d a : A) (m : M I (option A)) bs : reads m bs (Some a) ->
  reads (since revision r d m) (opt_bytes (r <=? revision) bs) (Some (if r <=? revision then a else d)).
Proof. intros Hm. unfold since. destruct (r <=? revision); [done|apply reads_ret]. Qed.

Lemma reads_string (s : bytes) : short s -> reads read_string (string_bytes s) (Some s).
Proof. intros Hs. by apply reads_checked, reads_ReadString. Qed.

Lemma reads_uint (z : Z) : is_u 64 z -> reads (checked ReadUInt64) (varint_bytes z) (Some z).
Proof. intros Hz. by apply reads_checked, reads_ReadVarint64. Qed.

Lemma reads_fixed (n : nat) (z : Z) : 0 <= z < 256 ^ Z.of_nat n -> reads (checked (ReadFixed n 0)) (le_bytes n z) (Some z).
Proof. intros Hz. by apply reads_checked, reads_ReadFixed. Qed.

Lemma reads_tracing (tc : option TracingContext) : (forall t, tc = Some t -> tracing_ok t) ->
  reads read_tracing match tc with
    | Some t => le_bytes 1 1 ++ le_bytes 16 (trace_id t) ++ le_bytes 8 (span_id t) ++ string_bytes (tracestate t) ++ le_bytes 1 (trace_flags t)
    | None => le_bytes 1 0
    end (Some tc).
Proof.
  intros Ht. unfold read_tracing. destruct tc as [[tr sp st fl]|].
  - destruct (Ht _ eq_refl) as (H1 & H2 & H3 & H4). cbn [trace_id span_id tracestate trace_flags] in *.
    eapply reads_obind; [by apply reads_fixed|]. cbn [Z.eqb]. eapply reads_obind; [by apply reads_fixed|].
    eapply reads_obind; [by apply reads_fixed|]. eapply reads_obind; [by apply reads_string|].
    eapply reads_obind_nil; [by apply reads_fixed|apply reads_ret].
  - eapply reads_obind_nil; [by apply reads_fixed|apply reads_ret].
Qed.

Ltac reads_next := eapply reads_obind; [first [by apply reads_fixed|by apply reads_uint|by apply reads_string]|].

Lemma reads_client_info (tc : option TracingContext) : (forall t, tc = Some t -> tracing_ok t) ->
  reads (read_client_info revision) (client_info_bytes revision client_info tc)
    (Some (if DBMS_MIN_REVISION_WITH_OPENTELEMETRY <=? revision then tc else None)).
Proof.
  intros Ht. unfold read_client_info, client_info_bytes, tracing_bytes. do 4 reads_next.
  eapply reads_obind; [apply reads_since; by apply reads_fixed|]. do 7 reads_next.
  eapply reads_obind; [apply reads_since; by apply reads_string|].
  do 2 (eapply reads_obind; [apply reads_since; by apply reads_uint|]).
  eapply reads_obind; [apply reads_since; by apply reads_tracing|].
  eapply reads_obind_nil; [|apply reads_ret]. apply reads_since. do 2 reads_next. by apply reads_uint.
Qed.

Lemma reads_entries {A B} (read : M I (option B)) (enc : bytes * A -> bytes) (dec : A -> B) (l : list (bytes * A)) :
  Forall (fun x => fst x <> [] /\ short (fst x) /\ exists bs, enc x = string_bytes (fst x) ++ bs /\ reads read bs (Some (dec (snd x)))) l ->
  forall fuel, (length l < fuel)%nat ->
  reads (read_entries read fuel) (concat (map enc l) ++ string_bytes []) (Some (map (fun x => (fst x, dec (snd x))) l)).
Proof.
  induction 1 as [|[nm a] l (Hn & Hs & bs & He & Hr) _ IH]; intros [|fuel] Hf; cbn [length] in Hf; try lia; cbn [read_entries map concat fst snd].
  - eapply reads_obind_nil; [by apply reads_string|apply reads_ret].
  - rewrite He, <- !app_assoc. eapply reads_obind; [by apply reads_string|]. destruct nm as [|c nm]; [done|].
    eapply reads_obind; [exact Hr|]. eapply reads_obind_nil; [apply IH; lia|apply reads_ret].
Qed.

Lemma reads_settings (l : list (bytes * QuerySettingsField)) (fuel : nat) : Forall setting_ok l -> (length l < fuel)%nat ->
  reads (read_entries read_setting fuel) (concat (map setting_bytes l) ++ string_bytes []) (Some l).
Proof.
  intros Hl Hf. assert (l = map (fun x => (fst x, id (snd x))) l) as El.
  { rewrite <- (map_id l) at 1. apply map_ext. by intros []. }
  rewrite El at 2. apply reads_entries; [|done]. eapply Forall_impl; [exact Hl|]. intros [nm [v fl]] (H1 & H2 & H3 & H4).
  split_and!; [done|done|]. eexists. split; [done|]. cbn [fst snd qs_flags qs_value] in *. reads_next.
  eapply reads_obind_nil; [by apply reads_string|apply reads_ret].
Qed.

Lemma reads_params (l : list (bytes * option bytes)) (fuel : nat) : Forall param_ok l -> (length l < fuel)%nat ->
  reads (read_entries read_param fuel) (concat (map param_bytes l) ++ string_bytes []) (Some (map (fun x => (fst x, param_text (snd x))) l)).
Proof.
  intros Hl Hf. apply reads_entries; [|done]. eapply Forall_impl; [exact Hl|]. intros [nm v] (H1 & H2 & H3).
  split_and!; [done|done|]. eexists. split; [done|]. reads_next. by apply reads_string.
Qed.
End ReaderSpec.

(** What the server has to find in the message for a query. *)
Definition query_message {W} (revision : Z) (compression : bool) (q : Query W) : QueryMessage :=
  mkQueryMessage (query_id_ q)
    (if DBMS_MIN_REVISION_WITH_CLIENT_INFO <=? revision
     then if DBMS_MIN_REVISION_WITH_OPENTELEMETRY <=? revision then tracing_context_ q else None else None)
    (map_to_list (query_settings_ q)) Stages_Complete (CompressionState compression) (query_ q)
    (if DBMS_MIN_PROTOCOL_VERSION_WITH_PARAMETERS <=? revision
     then map (fun x => (fst x, param_text (snd x))) (map_to_list (query_params_ q)) else []).

(** C7. A query reaches the server: at every revision, for every query the server
    is new enough for, the message [SendQuery] writes is read back field by field
    by a reader of the protocol, which recovers the id, the tracing context, the
    settings, the stage, the compression flag, the text and the parameters, and
    stops exactly at its end. *)
Theorem query_message_roundtrip {Out I W} `{OutputStreamLaws Out} `{InputStreamLaws I} (revision : Z) (compression : bool)
    (q : Query W) (fuel : nat) (Hs : query_supported revision q) (He : query_encodable q)
    (Hf : (size (query_settings_ q) < fuel /\ size (query_params_ q) < fuel)%nat) :
  exists bs, writes (Out := Out) (WriteQuery revision compression q) bs tt /\
    reads (I := I) (read_query revision fuel) bs (Some (query_message revision compression q)).
Proof.
  exists (query_bytes revision compression q). split; [by apply writes_WriteQuery|].
  destruct He as (Hid & Htx & Htr & Hset & Hpar). destruct Hf as [Hf1 Hf2]. rewrite <- length_map_to_list in Hf1. rewrite <- length_map_to_list in Hf2.
  unfold read_query, query_bytes. eapply reads_obind; [by apply reads_uint|]. cbn [Z.eqb negb].
  eapply reads_obind; [by apply reads_string|].
  eapply reads_obind; [apply reads_since; by apply reads_client_info|]. rewrite app_assoc.
  eapply reads_obind; [by apply reads_settings|]. eapply reads_obind; [apply reads_since; by apply reads_string|].
  eapply reads_obind; [by apply reads_uint|]. eapply reads_obind; [apply reads_uint; by destruct compression|].
  eapply reads_obind; [by apply reads_string|].
  eapply reads_obind_nil; [apply reads_since; by apply reads_params|]. apply reads_ret.
Qed.

Definition example_query {W} : Query W :=
  SetParam (str "p") (Some (str "it's")) (SetSetting (str "max_threads") (mkQuerySettingsField (str "1") 1)
    (SetTracingContext (mkTracingContext 5 6 (str "s") 1) (Query_new (str "SELECT {p:String}") (str "id-1")))).

Lemma query_message_roundtrip_witness :
  exists bs, writes (Out := ChunkSink) (WriteQuery 54459 true (example_query (W := unit))) bs tt /\
    reads (I := ChunkSource) (read_query 54459 2) bs (Some (query_message 54459 true (example_query (W := unit)))).
Proof.
  apply (query_message_roundtrip 54459 true example_query 2).
  - split; left; done.
  - split_and!; [done|done|intros t [= <-]; by split_and!|..].
    + vm_compute map_to_list. repeat constructor; done.
    + vm_compute map_to_list. repeat constructor; done.
  - split; vm_compute; lia.
Defined.

(** A query the server is too old for is refused in the middle of its message:
    with settings and a server before they were sent as strings, [SendQuery]
    throws after the packet code, the query id and the client information have
    been handed to the stream, which the next message then follows. *)
Lemma query_refused_midway {Out W} `{OutputStreamLaws Out} (revision : Z) (compression : bool) (q : Query W) (o : Out)
    (Ho : out_good o) (Hr : revision < DBMS_MIN_REVISION_WITH_SETTINGS_SERIALIZED_AS_STRINGS)
    (Hset : query_settings_ q <> ∅) (Htr : tracing_context_ q = None) :
  exists o', WriteQuery revision compression q o = (Throw UnimplementedError, o') /\ out_good o' /\
    accepted o' = accepted o ++ varint_bytes ClientCodes.Query ++ string_bytes (query_id_ q) ++
      opt_bytes (DBMS_MIN_REVISION_WITH_CLIENT_INFO <=? revision) (client_info_bytes revision client_info None).
Proof.
  assert (writes (WriteUInt64 ClientCodes.Query ;;; WriteString (query_id_ q) ;;;
    when (DBMS_MIN_REVISION_WITH_CLIENT_INFO <=? revision) (WriteClientInfo revision client_info (tracing_context_ q)))
    (varint_bytes ClientCodes.Query ++ string_bytes (query_id_ q) ++
     opt_bytes (DBMS_MIN_REVISION_WITH_CLIENT_INFO <=? revision) (client_info_bytes revision client_info None)) tt) as Hw.
  { rewrite Htr. do 2 (eapply writes_bind; [writes_step|]). apply writes_when, writes_client_info. by right. }
  destruct (Hw o Ho) as (o' & E & Ha & Hg). exists o'. split_and!; [|done|done].
  unfold WriteQuery, WriteSettings, bind in *. rewrite (proj2 (Z.leb_gt DBMS_MIN_REVISION_WITH_SETTINGS_SERIALIZED_AS_STRINGS revision)) by done.
  assert ((0 <? zlen (map_to_list (query_settings_ q))) = true) as ->.
  { apply Z.ltb_lt, zlen_pos. intros El. by apply map_to_list_empty_iff in El. }
  revert E. destruct (WriteUInt64 ClientCodes.Query o) as [[[]|] o1]; [|done].
  destruct (WriteString (query_id_ q) o1) as [[[]|] o2]; [|done]. by intros ->.
Qed.

