(* ===== verification/Client.v ===== *)
(** * The client (Client::Impl of clickhouse/client.cpp)

    The state of a connection and every operation on it: handshake, queries,
    packets, inserts, cancellation, retries and failover.  A member function is a
    computation on the record [Impl].  The network is the socket factory's: a state
    [N] and the two operations of its interface; a connection is a pair of streams.
    What the peer will send is part of the state of the input stream.

    [input_] and [output_] are null until the first connection; using them then is
    undefined.  The callbacks of a query are the application's: they work on a
    state of their own and do not call back into the client.  A string that is being
    read when the stream throws keeps its old value here. *)

From S2P Require Import Prelude Streams WireFormat CityHash Compressed Text Types TypeParser TypeNames Columns ColumnRows ColumnOps ColumnWire Factory Block Protocol BlockWire Endpoints Query Messages.

(** ** Data *)

Record ServerInfo := mkServerInfo {
  si_name : bytes;
  si_timezone : bytes;
  si_display_name : bytes;
  si_version_major : Z;
  si_version_minor : Z;
  si_version_patch : Z;
  si_revision : Z;
}.

(** The options [client.cpp] itself reads; the others are the socket factory's. *)
Record ClientOptions := mkClientOptions {
  host : bytes;
  port : Z;
  co_endpoints : list Endpoint;
  default_database : bytes;
  user : bytes;
  password : bytes;
  rethrow_exceptions : bool;
  ping_before_query : bool;
  send_retries : Z;
  retry_timeout : Z;
  compression_method : CompressionMethod.t;
  max_compression_chunk_size : Z;
}.

(** The declared default values. *)
Definition ClientOptions_new : ClientOptions :=
  mkClientOptions [] 9000 [] (str "default") (str "default") [] true false 1 5 CompressionMethod.None 65535.

Definition modifyClientOptions (opts : ClientOptions) : ClientOptions :=
  match host opts with
  | [] => opts
  | _ =>
    mkClientOptions (host opts) (port opts) (mkEndpoint (host opts) (port opts) :: co_endpoints opts)
      (default_database opts) (user opts) (password opts) (rethrow_exceptions opts) (ping_before_query opts)
      (send_retries opts) (retry_timeout opts) (compression_method opts) (max_compression_chunk_size opts)
  end.

Inductive State := Idle | Selecting | Inserting.

#[global] Instance State_eq_dec : EqDecision State.
Proof. solve_decision. Defined.

(** [events_] is a pointer: null, to the member [query_], or to the local query of [BeginInsert]. *)
Inductive EventsPtr := NoEvents | MemberQuery | LocalQuery.

Inductive DecodedPacket :=
| PBlock (block : Block)
| PServerException (e : Exception)
| PProfile (profile : Profile)
| PProgress (progress : Progress)
| PPong
| PHello
| PLog (block : Block)
| PTableColumns
| PProfileEvents (block : Block)
| PEndOfStream.

Record ExternalTable := mkExternalTable { et_name : bytes; et_data : Block }.

(** The socket factory: a connection is an input and an output stream. *)
Class SocketFactory (N SI SO : Type) := {
  connect : Endpoint -> M N (SI * SO);
  sleepFor : Z -> M N unit;
}.

(** The application's state, and the local [block] that [BeginInsert] captures by reference. *)
Record World (W : Type) := mkWorld { app : W; captured : Block }.
Arguments mkWorld {W}.
Arguments app {W}.
Arguments captured {W}.

Record Impl (N SI SO W : Type) := mkImpl {
  cl_query : Query (World W);              (** [query_] *)
  local_query : Query (World W);           (** the parameter [query] of [BeginInsert] *)
  events_ : EventsPtr;
  compression_ : bool;
  input_ : option (BufferedInput SI);
  output_ : option (BufferedOutput SO);
  endpoints_iterator : RoundRobinEndpointsIterator;
  current_endpoint_ : option Endpoint;
  server_info_ : ServerInfo;
  state_ : State;
  type_cache : ast_cache;                  (** the process-wide cache of parsed type names *)
  net : N;
  world : World W;
}.
Arguments mkImpl {N SI SO W}.
Arguments cl_query {N SI SO W}.
Arguments local_query {N SI SO W}.
Arguments events_ {N SI SO W}.
Arguments compression_ {N SI SO W}.
Arguments input_ {N SI SO W}.
Arguments output_ {N SI SO W}.
Arguments endpoints_iterator {N SI SO W}.
Arguments current_endpoint_ {N SI SO W}.
Arguments server_info_ {N SI SO W}.
Arguments state_ {N SI SO W}.
Arguments type_cache {N SI SO W}.
Arguments net {N SI SO W}.
Arguments world {N SI SO W}.

(** [NameToQueryString]: a column name between backticks, backticks doubled. *)
Definition NameToQueryString (input : bytes) : bytes :=
  str "`" ++ concat (map (fun c => if bool_decide (c = "`"%byte) then str "``" else [c]) input) ++ str "`".

(** [fields_section] of [Insert]: the loop over the columns from index [i] on. *)
Fixpoint fields_section (n : nat) (i : Z) (block : Block) : result bytes :=
  match n with
  | O => Ok []
  | S n =>
    let! name := GetColumnName block i in
    let! rest := fields_section n (i + 1) block in
    Ok (NameToQueryString name ++ (if i =? GetColumnCount block - 1 then [] else str ",") ++ rest)
  end.

Definition insert_text (table_name : bytes) (block : Block) : result bytes :=
  let! fields := fields_section (Z.to_nat (GetColumnCount block)) 0 block in
  Ok (str "INSERT INTO " ++ table_name ++ str " ( " ++ fields ++ str " ) VALUES").

(** ** Fields *)
Section Fields.
Context {N SI SO W : Type}.

Definition set_cl_query (v : Query (World W)) (s : Impl N SI SO W) : Impl N SI SO W :=
  mkImpl v (local_query s) (events_ s) (compression_ s) (input_ s) (output_ s) (endpoints_iterator s)
    (current_endpoint_ s) (server_info_ s) (state_ s) (type_cache s) (net s) (world s).

Definition set_local_query (v : Query (World W)) (s : Impl N SI SO W) : Impl N SI SO W :=
  mkImpl (cl_query s) v (events_ s) (compression_ s) (input_ s) (output_ s) (endpoints_iterator s)
    (current_endpoint_ s) (server_info_ s) (state_ s) (type_cache s) (net s) (world s).

Definition set_events (v : EventsPtr) (s : Impl N SI SO W) : Impl N SI SO W :=
  mkImpl (cl_query s) (local_query s) v (compression_ s) (input_ s) (output_ s) (endpoints_iterator s)
    (current_endpoint_ s) (server_info_ s) (state_ s) (type_cache s) (net s) (world s).

Definition set_compression (v : bool) (s : Impl N SI SO W) : Impl N SI SO W :=
  mkImpl (cl_query s) (local_query s) (events_ s) v (input_ s) (output_ s) (endpoints_iterator s)
    (current_endpoint_ s) (server_info_ s) (state_ s) (type_cache s) (net s) (world s).

Definition set_input (v : option (BufferedInput SI)) (s : Impl N SI SO W) : Impl N SI SO W :=
  mkImpl (cl_query s) (local_query s) (events_ s) (compression_ s) v (output_ s) (endpoints_iterator s)
    (current_endpoint_ s) (server_info_ s) (state_ s) (type_cache s) (net s) (world s).

Definition set_output (v : option (BufferedOutput SO)) (s : Impl N SI SO W) : Impl N SI SO W :=
  mkImpl (cl_query s) (local_query s) (events_ s) (compression_ s) (input_ s) v (endpoints_iterator s)
    (current_endpoint_ s) (server_info_ s) (state_ s) (type_cache s) (net s) (world s).

Definition set_endpoints_iterator (v : RoundRobinEndpointsIterator) (s : Impl N SI SO W) : Impl N SI SO W :=
  mkImpl (cl_query s) (local_query s) (events_ s) (compression_ s) (input_ s) (output_ s) v
    (current_endpoint_ s) (server_info_ s) (state_ s) (type_cache s) (net s) (world s).

Definition set_current_endpoint (v : option Endpoint) (s : Impl N SI SO W) : Impl N SI SO W :=
  mkImpl (cl_query s) (local_query s) (events_ s) (compression_ s) (input_ s) (output_ s) (endpoints_iterator s)
    v (server_info_ s) (state_ s) (type_cache s) (net s) (world s).

Definition set_server_info (v : ServerInfo) (s : Impl N SI SO W) : Impl N SI SO W :=
  mkImpl (cl_query s) (local_query s) (events_ s) (compression_ s) (input_ s) (output_ s) (endpoints_iterator s)
    (current_endpoint_ s) v (state_ s) (type_cache s) (net s) (world s).

Definition set_state (v : State) (s : Impl N SI SO W) : Impl N SI SO W :=
  mkImpl (cl_query s) (local_query s) (events_ s) (compression_ s) (input_ s) (output_ s) (endpoints_iterator s)
    (current_endpoint_ s) (server_info_ s) v (type_cache s) (net s) (world s).

Definition set_type_cache (v : ast_cache) (s : Impl N SI SO W) : Impl N SI SO W :=
  mkImpl (cl_query s) (local_query s) (events_ s) (compression_ s) (input_ s) (output_ s) (endpoints_iterator s)
    (current_endpoint_ s) (server_info_ s) (state_ s) v (net s) (world s).

Definition set_net (v : N) (s : Impl N SI SO W) : Impl N SI SO W :=
  mkImpl (cl_query s) (local_query s) (events_ s) (compression_ s) (input_ s) (output_ s) (endpoints_iterator s)
    (current_endpoint_ s) (server_info_ s) (state_ s) (type_cache s) v (world s).

Definition set_world (v : World W) (s : Impl N SI SO W) : Impl N SI SO W :=
  mkImpl (cl_query s) (local_query s) (events_ s) (compression_ s) (input_ s) (output_ s) (endpoints_iterator s)
    (current_endpoint_ s) (server_info_ s) (state_ s) (type_cache s) (net s) v.
End Fields.

(** ** Operations *)
Section Client.
Context {N SI SO W : Type} `{InputStream SI} `{OutputStream SO} `{SocketFactory N SI SO}.
Context (lz4 : lz4_api) (zstd : zstd_api) (std_hash : bytes -> Z) (map_bool : bool).
Context (options_ : ClientOptions).
(** A bound on the packets of one response; see the header of the development. *)
Context (fuel : positive).

Abbreviation Impl := (Impl N SI SO W).
Abbreviation Input := (Session (BufferedInput SI)).
Abbreviation Output := (BufferedOutput SO).

Definition on_input {A} (m : M Input A) : M Impl A :=
  fun s =>
    match input_ s with
    | None => (Throw Undefined, s)
    | Some i =>
      let '(r, ss) := m (mkSession (type_cache s) i) in
      (r, set_type_cache (ss_cache ss) (set_input (Some (ss_input ss)) s))
    end.

Definition on_output {A} (m : M Output A) : M Impl A :=
  fun s =>
    match output_ s with
    | None => (Throw Undefined, s)
    | Some o => let '(r, o) := m o in (r, set_output (Some o) s)
    end.

Definition on_world {A} (m : M (World W) A) : M Impl A := zoom world set_world m.

Definition on_net {A} (m : M N A) : M Impl A := zoom net set_net m.

(** [m] after which [cleanup] runs if an exception leaves it. *)
Definition on_exception {A} (m : M Impl A) (cleanup : M Impl unit) : M Impl A :=
  try_catch m (fun e => cleanup ;;; throw e).

(** [catch (const std::system_error&)]. *)
Definition catch_system_error {A} (m : M Impl A) (h : M Impl A) : M Impl A :=
  try_catch m (fun e => match e with SystemError => h | _ => throw e end).

(** A local object whose destructor does [fin]. *)
Definition finally {A} (m : M Impl A) (fin : Impl -> Impl) : M Impl A :=
  fun s => let '(r, s) := m s in (r, fin s).

Definition is_state (st : State) : M Impl bool := fun s => (Ok (bool_decide (state_ s = st)), s).

Definition current_events (s : Impl) : option (Query (World W)) :=
  match events_ s with
  | NoEvents => None
  | MemberQuery => Some (cl_query s)
  | LocalQuery => Some (local_query s)
  end.

(** [if (events_) events_->On...]. *)
Definition on_events (f : Query (World W) -> M (World W) unit) : M Impl unit :=
  let* s := get in
  match current_events s with
  | None => ret tt
  | Some q => on_world (f q)
  end.

Definition revision : M Impl Z := fun s => (Ok (si_revision (server_info_ s)), s).

Definition ResetState : M Impl unit :=
  modify (fun s => set_events NoEvents (set_cl_query Query_empty (set_state Idle s))).

(** *** Sending *)

Definition SendCancel : M Impl unit := on_output WriteCancel.

Definition SendBlockData_ (block : Block) : M Impl unit :=
  let* s := get in
  on_output (SendBlockData lz4 zstd (compression_ s) (compression_method options_)
    (max_compression_chunk_size options_) (si_revision (server_info_ s)) block).

Definition SendData (block : Block) : M Impl unit :=
  let* rev := revision in
  on_output (WriteDataHeader rev) ;;;
  SendBlockData_ block ;;;
  on_output Flush.

Definition FinalizeQuery : M Impl unit :=
  SendData Block_new ;;;
  on_output Flush.

Definition SendQuery (query : Query (World W)) (finalize : bool) : M Impl unit :=
  let* s := get in
  on_output (WriteQuery (si_revision (server_info_ s)) (compression_ s) query) ;;;
  when finalize FinalizeQuery.

Fixpoint SendExternalData (external_tables : list ExternalTable) : M Impl unit :=
  match external_tables with
  | [] => ret tt
  | table :: rest =>
    when (negb (GetRowCount (et_data table) =? 0)) (
      on_output (WriteTableHeader (et_name table)) ;;;
      SendBlockData_ (et_data table)) ;;;
    SendExternalData rest
  end.

(** *** Receiving *)

Definition skip_string : M Input (option unit) :=
  let* ok := SkipString in ret (if ok then Some tt else None).

Definition to_bool (z : Z) : bool := negb (z =? 0).

Definition ReadException : M Input (option Exception) :=
  obind (checked (ReadFixed 4 0)) (fun code =>
  obind (checked (ReadString [])) (fun name =>
  obind (checked (ReadString [])) (fun display_text =>
  obind (checked (ReadString [])) (fun stack_trace =>
  obind (checked (ReadFixed 1 0)) (fun has_nested =>
  ret (Some (mkException (swrap 32 code) name display_text stack_trace))))))).

Definition ReadProfile : M Input (option Profile) :=
  obind (checked ReadUInt64) (fun rows =>
  obind (checked ReadUInt64) (fun blocks =>
  obind (checked ReadUInt64) (fun bytes =>
  obind (checked (ReadFixed 1 0)) (fun applied_limit =>
  obind (checked ReadUInt64) (fun rows_before_limit =>
  obind (checked (ReadFixed 1 0)) (fun calculated =>
  ret (Some (mkProfile rows blocks bytes rows_before_limit (to_bool applied_limit) (to_bool calculated))))))))).

Definition ReadProgress (revision : Z) : M Input (option Progress) :=
  obind (checked ReadUInt64) (fun rows =>
  obind (checked ReadUInt64) (fun bytes =>
  obind (checked ReadUInt64) (fun total_rows =>
  if DBMS_MIN_REVISION_WITH_CLIENT_WRITE_INFO <=? revision then
    obind (checked ReadUInt64) (fun written_rows =>
    obind (checked ReadUInt64) (fun written_bytes =>
    ret (Some (mkProgress rows bytes total_rows written_rows written_bytes))))
  else ret (Some (mkProgress rows bytes total_rows 0 0))))).

(** The tag of a log or profile packet, then a block that is never compressed. *)
Definition ReadPlainBlock (revision : Z) : M Input (option Block) :=
  obind skip_string (fun _ => checked (ReadBlock std_hash map_bool revision Block_new)).

Definition ReadData (compression : bool) (revision : Z) : M Input (option Block) :=
  obind (if DBMS_MIN_REVISION_WITH_TEMPORARY_TABLES <=? revision then skip_string else ret (Some tt)) (fun _ =>
  checked (ReceiveBlockData lz4 zstd std_hash map_bool compression revision Block_new)).

Definition ReadTableColumns : M Input (option unit) := obind skip_string (fun _ => skip_string).

(** Each [Receive...]: read, then tell the query's events. *)
Definition received {A} (read : M Input (option A)) (tell : A -> M Impl unit) : M Impl (option A) :=
  obind (on_input read) (fun a => tell a ;;; ret (Some a)).

Definition ReceiveData : M Impl (option Block) :=
  let* s := get in
  received (ReadData (compression_ s) (si_revision (server_info_ s))) (fun block =>
    let* s := get in
    match current_events s with
    | None => ret tt
    | Some q =>
      on_world (OnData q block) ;;;
      let* go_on := on_world (OnDataCancelable q block) in
      when (negb go_on) SendCancel
    end).

Definition ReceiveException : M Impl (option Exception) :=
  received ReadException (fun e => on_events (fun q => OnServerException q e)).

Definition ReceiveProfileInfo : M Impl (option Profile) :=
  received ReadProfile (fun p => on_events (fun q => OnProfile q p)).

Definition ReceiveProgress : M Impl (option Progress) :=
  let* rev := revision in
  received (ReadProgress rev) (fun p => on_events (fun q => OnProgress q p)).

Definition ReceiveLog : M Impl (option Block) :=
  let* rev := revision in
  received (ReadPlainBlock rev) (fun b => on_events (fun q => OnServerLog q b)).

Definition ReceiveTableColumns : M Impl (option unit) := on_input ReadTableColumns.

Definition ReceiveProfileEvents : M Impl (option Block) :=
  let* rev := revision in
  received (ReadPlainBlock rev) (fun b => on_events (fun q => OnProfileEvents q b)).

(** [if (!Receive...) throw ProtocolError]. *)
Definition require {A} (m : M Impl (option A)) : M Impl A :=
  let* o := m in match o with Some a => ret a | None => throw ProtocolError end.

(** The packet with the given code. *)
Definition ReceiveBody (packet_type : Z) : M Impl DecodedPacket :=
  if packet_type =? ServerCodes.Data then let* b := require ReceiveData in ret (PBlock b)
  else if packet_type =? ServerCodes.Exception then
    let* e := require ReceiveException in
    if rethrow_exceptions options_ then throw (ServerException e) else ret (PServerException e)
  else if packet_type =? ServerCodes.ProfileInfo then let* p := require ReceiveProfileInfo in ret (PProfile p)
  else if packet_type =? ServerCodes.Progress then let* p := require ReceiveProgress in ret (PProgress p)
  else if packet_type =? ServerCodes.Pong then ret PPong
  else if packet_type =? ServerCodes.Hello then ret PHello
  else if packet_type =? ServerCodes.EndOfStream then on_events OnFinish ;;; ret PEndOfStream
  else if packet_type =? ServerCodes.Log then let* b := require ReceiveLog in ret (PLog b)
  else if packet_type =? ServerCodes.TableColumns then require ReceiveTableColumns ;;; ret PTableColumns
  else if packet_type =? ServerCodes.ProfileEvents then let* b := require ReceiveProfileEvents in ret (PProfileEvents b)
  else throw UnimplementedError.

(** The packet, with its code ([*server_packet]). *)
Definition ReceivePacket : M Impl (Z * DecodedPacket) :=
  let* packet_type := require (on_input (checked ReadVarint64)) in
  let* packet := ReceiveBody packet_type in
  ret (packet_type, packet).

(** [true] while the response goes on. *)
Definition ProcessPacket : M Impl (bool * Z) :=
  let* '(code, packet) := ReceivePacket in
  match packet with
  | PServerException _ | PEndOfStream => ret (false, code)
  | _ => ret (true, code)
  end.

(** *** Connecting *)

Definition InitializeStreams (socket : SI * SO) : M Impl unit :=
  modify (fun s => set_input (Some (BufferedInput_new (fst socket) 8192))
    (set_output (Some (BufferedOutput_new (snd socket) 8192)) s)).

Definition SendHello : M Impl bool :=
  on_output (WriteHello (default_database options_) (user options_) (password options_)) ;;; ret true.

(** [if (!Read...(&server_info_.field)) return false]: the field is written in place. *)
Definition read_info {A} (read : ServerInfo -> M Input (bool * A)) (store : A -> ServerInfo -> ServerInfo)
    (k : M Impl bool) : M Impl bool :=
  let* s := get in
  let* '(ok, a) := on_input (read (server_info_ s)) in
  modify (fun s => set_server_info (store a (server_info_ s)) s) ;;;
  if ok then k else ret false.

Definition read_info_since {A} (since : Z) (read : ServerInfo -> M Input (bool * A))
    (store : A -> ServerInfo -> ServerInfo) (k : M Impl bool) : M Impl bool :=
  let* rev := revision in
  if since <=? rev then read_info read store k else k.

Definition ReceiveServerInfo : M Impl bool :=
  read_info (fun i => ReadString (si_name i))
    (fun v i => mkServerInfo v (si_timezone i) (si_display_name i) (si_version_major i) (si_version_minor i) (si_version_patch i) (si_revision i)) (
  read_info (fun _ => ReadUInt64)
    (fun v i => mkServerInfo (si_name i) (si_timezone i) (si_display_name i) v (si_version_minor i) (si_version_patch i) (si_revision i)) (
  read_info (fun _ => ReadUInt64)
    (fun v i => mkServerInfo (si_name i) (si_timezone i) (si_display_name i) (si_version_major i) v (si_version_patch i) (si_revision i)) (
  read_info (fun _ => ReadUInt64)
    (fun v i => mkServerInfo (si_name i) (si_timezone i) (si_display_name i) (si_version_major i) (si_version_minor i) (si_version_patch i) v) (
  read_info_since DBMS_MIN_REVISION_WITH_SERVER_TIMEZONE (fun i => ReadString (si_timezone i))
    (fun v i => mkServerInfo (si_name i) v (si_display_name i) (si_version_major i) (si_version_minor i) (si_version_patch i) (si_revision i)) (
  read_info_since DBMS_MIN_REVISION_WITH_SERVER_DISPLAY_NAME (fun i => ReadString (si_display_name i))
    (fun v i => mkServerInfo (si_name i) (si_timezone i) v (si_version_major i) (si_version_minor i) (si_version_patch i) (si_revision i)) (
  read_info_since DBMS_MIN_REVISION_WITH_VERSION_PATCH (fun _ => ReadUInt64)
    (fun v i => mkServerInfo (si_name i) (si_timezone i) (si_display_name i) (si_version_major i) (si_version_minor i) v (si_revision i)) (
  ret true))))))).

Definition ReceiveHello : M Impl bool :=
  let* '(ok, packet_type) := on_input ReadVarint64 in
  if negb ok then ret false
  else if packet_type =? ServerCodes.Hello then ReceiveServerInfo
  else if packet_type =? ServerCodes.Exception then
    let* e := require ReceiveException in throw (ServerException e)
  else ret false.

Definition Handshake : M Impl bool :=
  let* sent := SendHello in
  if negb sent then ret false else
  let* received := ReceiveHello in
  if negb received then ret false else
  let* rev := revision in
  when (DBMS_MIN_PROTOCOL_VERSION_WITH_ADDENDUM <=? rev) (on_output (WriteString [])) ;;;
  ret true.

Definition ResetConnection : M Impl unit :=
  let* s := get in
  match current_endpoint_ s with
  | None => throw BadOptionalAccess
  | Some e =>
    let* socket := on_net (connect e) in
    InitializeStreams socket ;;;
    modify (set_state Idle) ;;;
    let* ok := Handshake in
    if ok then ret tt else throw ProtocolError
  end.

(** [current_endpoint_ = endpoints_iterator->Next()]. *)
Definition NextEndpoint : M Impl unit :=
  let* e := zoom endpoints_iterator set_endpoints_iterator Next in
  modify (set_current_endpoint (Some e)).

(** One turn of the loop, and the handlers of its exceptions. *)
Definition ResetConnectionEndpoint_step (last_endpoint : option Endpoint) (i : Z) : M Impl (Z + unit) :=
  try_catch (ResetConnection ;;; ret (inr tt)) (fun e =>
    match e with
    | SystemError =>
      NextEndpoint ;;;
      if zlen (co_endpoints options_) <=? i then
        modify (set_current_endpoint last_endpoint) ;;; throw SystemError
      else ret (inl (wrap 64 (i + 1)))
    | e => modify (set_current_endpoint last_endpoint) ;;; throw e
    end).

Definition ResetConnectionEndpoint : M Impl unit :=
  let* s := get in
  while (Z.to_pos (zlen (co_endpoints options_) + 1)) (ResetConnectionEndpoint_step (current_endpoint_ s)) 1.

Definition CreateConnection_step (max_attempts i : Z) : M Impl (Z + unit) :=
  catch_system_error (ResetConnectionEndpoint ;;; ret (inr tt))
    (if max_attempts <=? i then throw SystemError else ret (inl (wrap 64 (i + 1)))).

Definition CreateConnection : M Impl unit :=
  let max_attempts := if send_retries options_ =? 0 then 1 else send_retries options_ in
  while (Z.to_pos (max_attempts + 1)) (CreateConnection_step max_attempts) 1.

(** *** Retrying *)

(** First loop: [true] when [func] is done, [false] to try other endpoints. *)
Definition RetryGuard_same (func : M Impl unit) (i : Z) : M Impl (Z + bool) :=
  catch_system_error (func ;;; ret (inr true)) (
    if send_retries options_ =? 0 then throw SystemError
    else if send_retries options_ <=? i then ret (inr false)
    else
      catch_system_error (on_net (sleepFor (retry_timeout options_)) ;;; ResetConnection) (ret tt) ;;;
      ret (inl (wrap 32 (i + 1)))).

(** Second loop, with the handlers of its exceptions. *)
Definition RetryGuard_other (func : M Impl unit) (connection_attempts_count : Z) (last_endpoint : option Endpoint)
    (i : Z) : M Impl (Z + unit) :=
  try_catch (
    on_net (sleepFor (retry_timeout options_)) ;;;
    NextEndpoint ;;;
    ResetConnection ;;;
    func ;;;
    ret (inr tt)) (fun e =>
    match e with
    | SystemError =>
      if connection_attempts_count <=? i then
        modify (set_current_endpoint last_endpoint) ;;; throw SystemError
      else ret (inl (wrap 64 (i + 1)))
    | e => modify (set_current_endpoint last_endpoint) ;;; throw e
    end).

Definition RetryGuard (func : M Impl unit) : M Impl unit :=
  let* done := while (Z.to_pos (send_retries options_ + 1)) (RetryGuard_same func) 1 in
  if done then ret tt else
  let connection_attempts_count := wrap 64 (zlen (co_endpoints options_) * send_retries options_) in
  let* s := get in
  while (Z.to_pos (connection_attempts_count + 1))
    (RetryGuard_other func connection_attempts_count (current_endpoint_ s)) 1.

Definition Ping : M Impl unit :=
  let* idle := is_state Idle in
  if negb idle then throw ValidationError else
  on_output WritePing ;;;
  let* '(more, server_packet) := ProcessPacket in
  if negb more || negb (server_packet =? ServerCodes.Pong) then throw ProtocolError else ret tt.

Definition ping_first : M Impl unit := when (ping_before_query options_) (RetryGuard Ping).

(** *** Selecting *)

Definition BeginExecuteQuery (query : Query (World W)) (finalize : bool) : M Impl unit :=
  let* idle := is_state Idle in
  if negb idle then throw ValidationError else
  ping_first ;;;
  modify (fun s => set_state Selecting (set_events MemberQuery (set_cl_query query s))) ;;;
  on_exception (let* s := get in SendQuery (cl_query s) finalize) ResetState.

Definition NextBlock_step (_ : unit) : M Impl (unit + option Block) :=
  let* '(_, packet) := ReceivePacket in
  match packet with
  | PBlock block => if GetColumnCount block =? 0 then ret (inl tt) else ret (inr (Some block))
  | PServerException _ | PEndOfStream => ResetState ;;; ret (inr None)
  | _ => ret (inl tt)
  end.

Definition NextBlock : M Impl (option Block) :=
  let* selecting := is_state Selecting in
  if negb selecting then throw ValidationError else
  on_exception (while fuel NextBlock_step tt) ResetState.

(** [while (NextBlock().has_value());]. *)
Definition drain : M Impl unit :=
  while fuel (fun _ : unit => let* b := NextBlock in ret (match b with Some _ => inl tt | None => inr tt end)) tt.

Definition ExecuteQuery (query : Query (World W)) : M Impl unit :=
  BeginExecuteQuery query true ;;;
  drain.

Definition SelectWithExternalData (query : Query (World W)) (external_tables : list ExternalTable) : M Impl unit :=
  let* rev := revision in
  if rev <? DBMS_MIN_REVISION_WITH_TEMPORARY_TABLES then throw UnimplementedError else
  BeginExecuteQuery query false ;;;
  on_exception (SendExternalData external_tables ;;; FinalizeQuery) ResetState ;;;
  drain.

Definition Cancel : M Impl unit :=
  let* selecting := is_state Selecting in
  if negb selecting then throw ValidationError else
  SendCancel ;;;
  drain.

(** *** Inserting *)

Definition EndInsert_step (_ : Z) : M Impl (Z + Z) :=
  let* '(more, code) := ProcessPacket in ret (if more then inl code else inr code).

Definition EndInsert : M Impl unit :=
  let* inserting := is_state Inserting in
  if negb inserting then ret tt else
  SendData Block_new ;;;
  let* eos_packet := while fuel EndInsert_step 0 in
  if negb (eos_packet =? ServerCodes.EndOfStream) && negb (eos_packet =? ServerCodes.Exception)
     && negb (eos_packet =? ServerCodes.Log) && rethrow_exceptions options_
  then throw ProtocolError
  else modify (set_state Idle).

(** The loop that waits for a data packet; [false] when the response ends first. *)
Definition WaitData_step (_ : unit) : M Impl (unit + bool) :=
  let* '(more, code) := ProcessPacket in
  ret (if more then if code =? ServerCodes.Data then inr true else inl tt else inr false).

Definition Insert (table_name query_id : bytes) (block : Block) : M Impl unit :=
  let* inserting := is_state Inserting in
  if inserting then throw ValidationError else
  let* idle := is_state Idle in
  if negb idle then throw ValidationError else
  ping_first ;;;
  modify (set_state Inserting) ;;;
  let* text := lift_result (insert_text table_name block) in
  SendQuery (Query_new text query_id) true ;;;
  let* got := while fuel WaitData_step tt in
  if got then
    SendData block ;;;
    EndInsert
  else throw ProtocolError.

(** The callback [BeginInsert] installs: it assigns the captured local [block]. *)
Definition capture (b : Block) : M (World W) unit := modify (fun w => mkWorld (app w) b).

Definition BeginInsert (query : Query (World W)) : M Impl Block :=
  let* idle := is_state Idle in
  if negb idle then throw ValidationError else
  if HasEventCallbacks query then throw ValidationError else
  modify (fun s => set_events LocalQuery (set_local_query query s)) ;;;
  finally (
    ping_first ;;;
    modify (set_state Inserting) ;;;
    on_world (capture Block_new) ;;;
    modify (fun s => set_local_query (SetOnData capture (local_query s)) s) ;;;
    let* s := get in
    SendQuery (local_query s) true ;;;
    let* got := while fuel WaitData_step tt in
    if got then let* s := get in ret (captured (world s)) else throw ProtocolError)
    (set_events NoEvents).

Definition SendInsertBlock (block : Block) : M Impl unit :=
  let* inserting := is_state Inserting in
  if negb inserting then throw ValidationError else
  SendData block.

(** *** Construction and destruction *)

(** The member initialisers; the numbers of [server_info_] are not initialised. *)
Definition Impl_init (indeterminate : Z) (cache : ast_cache) (n : N) (w : World W) : result Impl :=
  let! it := RoundRobin_new (co_endpoints options_) in
  let '(r, it) := Next it in
  let! e := r in
  Ok (mkImpl Query_empty Query_empty NoEvents false None None it (Some e)
        (mkServerInfo [] [] [] indeterminate indeterminate indeterminate indeterminate) Idle cache n w).

Definition Impl_body : M Impl unit :=
  CreateConnection ;;;
  match compression_method options_ with
  | CompressionMethod.None => ret tt
  | _ => modify (set_compression true)
  end.

(** [~Impl]: whatever [EndInsert] throws is swallowed. *)
Definition Impl_delete : M Impl unit :=
  try_catch (
    let* inserting := is_state Inserting in
    when inserting EndInsert) (fun _ => ret tt).
(** *** The public class [Client]: what it adds to the calls above *)

Definition Client_Execute (query : Query (World W)) : M Impl unit := ExecuteQuery query.

Definition Client_Select (query query_id : bytes) (cb : Block -> M (World W) unit) : M Impl unit :=
  Client_Execute (SetOnData cb (Query_new query query_id)).

Definition Client_SelectCancelable (query query_id : bytes) (cb : Block -> M (World W) bool) : M Impl unit :=
  Client_Execute (SetOnDataCancelable cb (Query_new query query_id)).

Definition Client_SelectWithExternalData (query query_id : bytes) (external_tables : list ExternalTable)
    (cb : Block -> M (World W) unit) : M Impl unit :=
  SelectWithExternalData (SetOnData cb (Query_new query query_id)) external_tables.

Definition Client_SelectWithExternalDataCancelable (query query_id : bytes) (external_tables : list ExternalTable)
    (cb : Block -> M (World W) bool) : M Impl unit :=
  SelectWithExternalData (SetOnDataCancelable cb (Query_new query query_id)) external_tables.

Definition Client_BeginExecute (query : Query (World W)) : M Impl unit := BeginExecuteQuery query true.

Definition Client_BeginSelect (query query_id : bytes) : M Impl unit := Client_BeginExecute (Query_new query query_id).

(** Without an identifier the query gets the default one. *)
Definition Client_Insert (table_name : bytes) (block : Block) : M Impl unit := Insert table_name default_query_id block.

Definition Client_BeginInsert (query query_id : bytes) : M Impl Block := BeginInsert (Query_new query query_id).

Definition IsSelecting (s : Impl) : bool := bool_decide (state_ s = Selecting).

Definition IsInserting (s : Impl) : bool := bool_decide (state_ s = Inserting).
End Client.

(** ** A scripted network

    The smallest socket factory, for concrete runs: each attempt to connect is logged
    and takes the next entry of the script, what the peer will send, or a failure. *)

Record Script := mkScript { sc_attempts : list (option bytes); sc_log : list Endpoint }.

#[global] Instance Script_factory : SocketFactory Script ChunkSource ChunkSink := {|
  connect := fun e sc =>
    match sc_attempts sc with
    | Some bs :: rest => (Ok (mkChunkSource bs 7, mkChunkSink [] 5), mkScript rest (sc_log sc ++ [e]))
    | _ :: rest => (Throw SystemError, mkScript rest (sc_log sc ++ [e]))
    | [] => (Throw SystemError, mkScript [] (sc_log sc ++ [e]))
    end;
  sleepFor := fun _ => ret tt;
|}.

(** The hello of a server of the given revision (at least 54401). *)
Definition hello_message (revision : Z) : bytes :=
  varint_bytes ServerCodes.Hello ++ string_bytes (str "ClickHouse") ++ varint_bytes 24 ++ varint_bytes 8 ++
  varint_bytes revision ++ string_bytes (str "UTC") ++ string_bytes (str "db") ++ varint_bytes 1.

(** A client before its first connection. *)
Definition fresh_client {W} (es : list Endpoint) (attempts : list (option bytes)) (w : W) :
    Impl Script ChunkSource ChunkSink W :=
  mkImpl Query_empty Query_empty NoEvents false None None (mkRoundRobin es 0) (head es)
    (mkServerInfo [] [] [] 0 0 0 0) Idle ∅ (mkScript attempts []) (mkWorld w Block_new).
