(* ===== verification/ClientStates.v ===== *)
(** * The client as a state machine

    What every public operation does to [state_] and to the pointer [events_],
    whatever the server sends, whatever the callbacks do and whichever call throws.
    The abstract machine [transition] is what the interface promises; the client
    implements it, and in particular never keeps a pointer to a query that is gone. *)

From S2P Require Import Prelude Streams WireFormat Compressed Types TypeParser TypeNames Columns Block Protocol BlockWire Endpoints Query Messages Client.

(** ** The abstract machine *)

Inductive operation := OBegin | ONext | OExecute | OExternal | OCancel | OInsert | OBeginInsert | OSendInsert
  | OEndInsert | OPing | OReset.

(** What the caller sees: a return (with [true] when [NextBlock] yields a block) or an exception. *)
Inductive outcome := Returns (more : bool) | Throws (e : exn).

Inductive transition : State -> operation -> outcome -> State -> Prop :=
| TBegin : transition Idle OBegin (Returns false) Selecting
| TBeginFails e : transition Idle OBegin (Throws e) Idle
| TNext : transition Selecting ONext (Returns true) Selecting
| TNextEnds : transition Selecting ONext (Returns false) Idle
| TNextFails e : transition Selecting ONext (Throws e) Idle
| TExecute : transition Idle OExecute (Returns false) Idle
| TExecuteFails e : transition Idle OExecute (Throws e) Idle
| TExternal : transition Idle OExternal (Returns false) Idle
| TExternalFails e : transition Idle OExternal (Throws e) Idle
| TExternalRefused st : transition st OExternal (Throws UnimplementedError) st
| TCancel : transition Selecting OCancel (Returns false) Idle
| TCancelFails e st : st <> Inserting -> transition Selecting OCancel (Throws e) st
| TInsert : transition Idle OInsert (Returns false) Idle
| TInsertFails e st : st <> Selecting -> transition Idle OInsert (Throws e) st
| TBeginInsert : transition Idle OBeginInsert (Returns false) Inserting
| TBeginInsertFails e st : st <> Selecting -> transition Idle OBeginInsert (Throws e) st
| TSendInsert : transition Inserting OSendInsert (Returns false) Inserting
| TSendInsertFails e : transition Inserting OSendInsert (Throws e) Inserting
| TEndInsert : transition Inserting OEndInsert (Returns false) Idle
| TEndInsertFails e : transition Inserting OEndInsert (Throws e) Inserting
| TEndInsertNone st : st <> Inserting -> transition st OEndInsert (Returns false) st
| TPing : transition Idle OPing (Returns false) Idle
| TPingFails e : transition Idle OPing (Throws e) Idle
| TReset st : transition st OReset (Returns false) Idle
| TResetFails st e : transition st OReset (Throws e) Idle
| TResetUnconnected st e : transition st OReset (Throws e) st
| TRefused st op : (op = ONext \/ op = OCancel -> st <> Selecting) -> (op = OSendInsert -> st <> Inserting) ->
    (op <> ONext -> op <> OCancel -> op <> OSendInsert -> st <> Idle) -> op <> OEndInsert -> op <> OReset ->
    transition st op (Throws ValidationError) st.

(** ** The public operations *)
Section Machine.
Context {N SI SO W : Type} `{InputStream SI} `{OutputStream SO} `{SocketFactory N SI SO}.
Context (lz4 : lz4_api) (zstd : zstd_api) (std_hash : bytes -> Z) (map_bool : bool) (opts : ClientOptions) (fuel : positive).

Abbreviation Impl := (Impl N SI SO W).

Inductive request :=
| RBegin (query : Query (World W))
| RNext
| RExecute (query : Query (World W))
| RExternal (query : Query (World W)) (tables : list ExternalTable)
| RCancel
| RInsert (table_name query_id : bytes) (block : Block)
| RBeginInsert (query : Query (World W))
| RSendInsert (block : Block)
| REndInsert
| RPing
| RReset
| RResetEndpoint.

Definition op_of (req : request) : operation :=
  match req with
  | RBegin _ => OBegin | RNext => ONext | RExecute _ => OExecute | RExternal _ _ => OExternal | RCancel => OCancel
  | RInsert _ _ _ => OInsert | RBeginInsert _ => OBeginInsert | RSendInsert _ => OSendInsert | REndInsert => OEndInsert
  | RPing => OPing | RReset | RResetEndpoint => OReset
  end.

Definition done {A} (m : M Impl A) : M Impl bool := m ;;; ret false.

(** The call; [true] when [NextBlock] returns a block. *)
Definition run (req : request) : M Impl bool :=
  match req with
  | RBegin q => done (BeginExecuteQuery lz4 zstd std_hash map_bool opts q true)
  | RNext => let* b := NextBlock lz4 zstd std_hash map_bool opts fuel in ret (is_set b)
  | RExecute q => done (ExecuteQuery lz4 zstd std_hash map_bool opts fuel q)
  | RExternal q tables => done (SelectWithExternalData lz4 zstd std_hash map_bool opts fuel q tables)
  | RCancel => done (Cancel lz4 zstd std_hash map_bool opts fuel)
  | RInsert t id b => done (Insert lz4 zstd std_hash map_bool opts fuel t id b)
  | RBeginInsert q => done (BeginInsert lz4 zstd std_hash map_bool opts fuel q)
  | RSendInsert b => done (SendInsertBlock lz4 zstd opts b)
  | REndInsert => done (EndInsert lz4 zstd std_hash map_bool opts fuel)
  | RPing => done (Ping lz4 zstd std_hash map_bool opts)
  | RReset => done (ResetConnection opts)
  | RResetEndpoint => done (ResetConnectionEndpoint opts)
  end.

Definition outcome_of (r : result bool) : outcome := match r with Ok more => Returns more | Throw e => Throws e end.

(** Between two calls [events_] never points to a local query, and points to the
    member while a select is in progress. *)
Definition client_ok (s : Impl) : Prop :=
  events_ s <> LocalQuery /\ (state_ s = Selecting -> events_ s = MemberQuery).

(** ** Computations that keep a property of the control state *)

Definition ctl (s : Impl) : State * EventsPtr := (state_ s, events_ s).

Lemma ctl_state s st ev : ctl s = (st, ev) -> state_ s = st /\ events_ s = ev.
Proof. by intros [= -> ->]. Qed.

(** A part of the state that only the operations on connections and on the control state change. *)
Class FrameProj {X} (f : Impl -> X) : Prop := {
  frame_input : forall v s, f (set_input v s) = f s;
  frame_output : forall v s, f (set_output v s) = f s;
  frame_cache : forall v s, f (set_type_cache v s) = f s;
  frame_world : forall v s, f (set_world v s) = f s;
  frame_net : forall v s, f (set_net v s) = f s;
  frame_info : forall v s, f (set_server_info v s) = f s;
}.

#[global] Instance ctl_frame : FrameProj ctl.
Proof. by split. Qed.

(** The endpoints. *)
Definition ep (s : Impl) : RoundRobinEndpointsIterator * option Endpoint := (endpoints_iterator s, current_endpoint_ s).

#[global] Instance ep_frame : FrameProj ep.
Proof. by split. Qed.

Definition keeps_of {X A} (f : Impl -> X) (Q : X -> Prop) (m : M Impl A) : Prop := forall s, Q (f s) -> Q (f (snd (m s))).

Abbreviation keeps := (keeps_of ctl).

Section Keeps.
Context {X : Type} (f : Impl -> X) (Q : X -> Prop).

Lemma keeps_ret {A} (a : A) : keeps_of f Q (ret a).
Proof. by intros s. Qed.

Lemma keeps_throw {A} (e : exn) : keeps_of f Q (throw (A := A) e).
Proof. by intros s. Qed.

Lemma keeps_lift {A} (r : result A) : keeps_of f Q (lift_result r).
Proof. by intros s. Qed.

Lemma keeps_get : keeps_of f Q get.
Proof. by intros s. Qed.

Lemma keeps_revision : keeps_of f Q revision.
Proof. by intros s. Qed.

Lemma keeps_is_state st : keeps_of f Q (is_state st).
Proof. by intros s. Qed.

Lemma keeps_modify (g : Impl -> Impl) : (forall s, Q (f s) -> Q (f (g s))) -> keeps_of f Q (modify g).
Proof. intros Hg s. apply Hg. Qed.

Lemma keeps_bind {A B} (m : M Impl A) (k : A -> M Impl B) : keeps_of f Q m -> (forall a, keeps_of f Q (k a)) -> keeps_of f Q (bind m k).
Proof. intros Hm Hk s Hs. unfold bind. specialize (Hm s Hs). destruct (m s) as [[a|e] s']; [by apply Hk|done]. Qed.

Lemma keeps_try {A} (m : M Impl A) (h : exn -> M Impl A) : keeps_of f Q m -> (forall e, keeps_of f Q (h e)) -> keeps_of f Q (try_catch m h).
Proof. intros Hm Hh s Hs. unfold try_catch. specialize (Hm s Hs). destruct (m s) as [[a|[]] s']; cbn in *; try done; by apply Hh. Qed.

Lemma keeps_while {A B} (n : positive) (body : A -> M Impl (A + B)) a : (forall a, keeps_of f Q (body a)) -> keeps_of f Q (while n body a).
Proof.
  intros Hb s Hs. apply (wp_while n body (fun _ s => Q (f s)) (fun _ s => Q (f s))); [|done|done].
  intros a1 s1 Hs1. apply (wp_mono _ (fun _ s' => Q (f s'))); [exact (Hb a1 s1 Hs1)|]. by intros [[]|] ?.
Qed.

Context `{!FrameProj f}.

Lemma keeps_on_input {A} (m : M (Session (BufferedInput SI)) A) : keeps_of f Q (on_input m).
Proof.
  intros s Hs. unfold on_input. destruct (input_ s) as [i|]; [|done]. destruct (m _) as [r ss]. cbn [snd]. by rewrite frame_cache, frame_input.
Qed.

Lemma keeps_on_output {A} (m : M (BufferedOutput SO) A) : keeps_of f Q (on_output m).
Proof. intros s Hs. unfold on_output. destruct (output_ s) as [o|]; [|done]. destruct (m _) as [r o']. cbn [snd]. by rewrite frame_output. Qed.

Lemma keeps_on_world {A} (m : M (World W) A) : keeps_of f Q (on_world m).
Proof. intros s Hs. unfold on_world, zoom. destruct (m _). cbn [snd]. by rewrite frame_world. Qed.

Lemma keeps_on_net {A} (m : M N A) : keeps_of f Q (on_net m).
Proof. intros s Hs. unfold on_net, zoom. destruct (m _). cbn [snd]. by rewrite frame_net. Qed.
End Keeps.

Lemma keeps_wp (Q : State * EventsPtr -> Prop) {A} (m : M Impl A) s : keeps Q m -> Q (ctl s) -> wp m (fun _ s' => Q (ctl s')) s.
Proof. intros Hm. apply Hm. Qed.

Lemma keeps_next (Q : State * EventsPtr -> Prop) : keeps Q NextEndpoint.
Proof. intros s Hs. unfold NextEndpoint, zoom, bind. by destruct (Next _) as [[]]. Qed.


Ltac keeps_step :=
  first
    [ apply keeps_ret | apply keeps_throw | apply keeps_lift | apply keeps_get | apply keeps_revision | apply keeps_is_state
    | apply keeps_on_input | apply keeps_on_output | apply keeps_on_world | apply keeps_on_net | apply keeps_next 
    | apply keeps_bind; intros | apply keeps_try; intros | apply keeps_while; intros
    | match goal with
      | |- FrameProj _ => typeclasses eauto
      | |- keeps_of _ _ (match ?x with _ => _ end) => destruct x
      | |- keeps_of _ _ (when ?b _) => destruct b; cbn [when]
      | |- keeps_of _ _ (on_events _) => unfold on_events
      | |- keeps_of _ _ (obind _ _) => unfold obind
      | |- keeps_of _ _ (require _) => unfold require
      | |- keeps_of _ _ (received _ _) => unfold received
      | |- keeps_of _ _ (read_info _ _ _) => unfold read_info
      | |- keeps_of _ _ (read_info_since _ _ _ _) => unfold read_info_since
      | |- keeps_of _ _ (on_exception _ _) => unfold on_exception
      | |- keeps_of _ _ (catch_system_error _ _) => unfold catch_system_error
      | |- keeps_of _ _ (modify _) => apply keeps_modify; intros; first [done | rewrite frame_info; done]
      end ].

Ltac keeps := repeat keeps_step.

(** *** Sending and receiving leave the control state alone *)
Section Frame.
Context (Q : State * EventsPtr -> Prop).

Lemma keeps_SendBlockData (b : Block) : keeps Q (SendBlockData_ lz4 zstd opts b).
Proof. unfold SendBlockData_. keeps. Qed.

Lemma keeps_SendData (b : Block) : keeps Q (SendData lz4 zstd opts b).
Proof. unfold SendData. keeps. Qed.

Lemma keeps_FinalizeQuery : keeps Q (FinalizeQuery lz4 zstd opts).
Proof. unfold FinalizeQuery. keeps. Qed.

Lemma keeps_SendQuery (q : Query (World W)) (f : bool) : keeps Q (SendQuery lz4 zstd opts q f).
Proof. unfold SendQuery. keeps. Qed.

Lemma keeps_SendExternalData (tables : list ExternalTable) : keeps Q (SendExternalData lz4 zstd opts tables).
Proof.
  induction tables as [|t tables IH]; cbn [SendExternalData]; keeps; apply IH.
Qed.

Lemma keeps_ReceivePacket : keeps Q (ReceivePacket lz4 zstd std_hash map_bool opts).
Proof.
  unfold ReceivePacket, ReceiveBody, ReceiveData, ReceiveException, ReceiveProfileInfo, ReceiveProgress, ReceiveLog,
    ReceiveTableColumns, ReceiveProfileEvents, SendCancel. keeps.
Qed.

Lemma keeps_ProcessPacket : keeps Q (ProcessPacket lz4 zstd std_hash map_bool opts).
Proof. unfold ProcessPacket. apply keeps_bind; [apply keeps_ReceivePacket|]. intros. keeps. Qed.

End Frame.

Lemma keeps_Handshake {X} (f : Impl -> X) `{!FrameProj f} (Q : X -> Prop) : keeps_of f Q (Handshake opts).
Proof. unfold Handshake, SendHello, ReceiveHello, ReceiveServerInfo, ReceiveException. keeps. Qed.

(** *** Connections and retries *)
Section Retries.
Context (Q : State * EventsPtr -> Prop) (Hidle : forall st e, Q (st, e) -> Q (Idle, e)).

Lemma keeps_ResetConnection : keeps Q (ResetConnection opts).
Proof.
  unfold ResetConnection. apply keeps_bind; [keeps|intros s]. destruct (current_endpoint_ s); [|keeps].
  apply keeps_bind; [keeps|intros socket]. apply keeps_bind; [apply keeps_modify; by intros|intros _].
  apply keeps_bind; [apply keeps_modify; intros s' Hs; exact (Hidle _ _ Hs)|intros _].
  apply keeps_bind; [apply keeps_Handshake; apply _|intros; keeps].
Qed.

Lemma keeps_ResetConnectionEndpoint : keeps Q (ResetConnectionEndpoint opts).
Proof.
  unfold ResetConnectionEndpoint, ResetConnectionEndpoint_step. apply keeps_bind; [apply keeps_get|intros s].
  apply keeps_while. intros i. apply keeps_try; [apply keeps_bind; [apply keeps_ResetConnection|intros; keeps]|intros; keeps].
Qed.

Lemma keeps_RetryGuard (f : M Impl unit) : keeps Q f -> keeps Q (RetryGuard opts f).
Proof.
  intros Hf. unfold RetryGuard. apply keeps_bind.
  - apply keeps_while. intros i. apply keeps_try; [apply keeps_bind; [done|intros; keeps]|]. intros e.
    destruct e; try apply keeps_throw. destruct (send_retries opts =? 0); [keeps|]. destruct (send_retries opts <=? i); [keeps|].
    apply keeps_bind; [|intros; keeps]. apply keeps_try; [|intros; keeps]. apply keeps_bind; [keeps|intros _; apply keeps_ResetConnection].
  - intros b. destruct b; [keeps|]. apply keeps_bind; [apply keeps_get|intros s]. apply keeps_while. intros i.
    apply keeps_try; [|intros; keeps]. do 2 (apply keeps_bind; [keeps|intros ?]).
    apply keeps_bind; [apply keeps_ResetConnection|intros ?]. apply keeps_bind; [done|intros; keeps].
Qed.

Lemma keeps_Ping : keeps Q (Ping lz4 zstd std_hash map_bool opts).
Proof.
  unfold Ping. apply keeps_bind; [keeps|]. intros b. destruct (negb b); [keeps|]. apply keeps_bind; [keeps|intros _].
  apply keeps_bind; [apply keeps_ProcessPacket|intros; keeps].
Qed.

Lemma keeps_ping_first : keeps Q (ping_first lz4 zstd std_hash map_bool opts).
Proof. unfold ping_first, when. destruct (ping_before_query opts); [apply keeps_RetryGuard, keeps_Ping|keeps]. Qed.
End Retries.

(** *** Outcomes of the operations *)

Definition post {A} (P : result A -> State * EventsPtr -> Prop) (r : result A) (s : Impl) : Prop := defined r -> P r (ctl s).

Lemma wp_post_bind {A B} (Q : State * EventsPtr -> Prop) (m : M Impl A) (k : A -> M Impl B) P s :
  keeps Q m -> Q (ctl s) -> (forall e c, Q c -> P (Throw e) c) -> (forall a s', Q (ctl s') -> wp (k a) (post P) s') ->
  wp (bind m k) (post P) s.
Proof.
  intros Hm Hs He Hk. apply wp_bind. eapply wp_mono; [by apply keeps_wp|]. intros [a|e] s' Hq; [by apply Hk|].
  intros _. by apply He.
Qed.

Lemma wp_reset {A} (m : M Impl A) P s :
  wp m (fun r s' => match r with Ok a => P (Ok a) (ctl s') | Throw _ => True end) s ->
  (forall e, P (Throw e) (Idle, NoEvents)) -> wp (on_exception m ResetState) (post P) s.
Proof.
  intros Hm He. apply wp_try. eapply wp_mono; [exact Hm|].
  intros [a|[]] s' Hp; try (by intros _); try (by intros []); intros _; apply He.
Qed.

Lemma wp_keeps_run {A} (Q : State * EventsPtr -> Prop) (m : M Impl A) (P : result A -> State * EventsPtr -> Prop) s :
  keeps Q m -> Q (ctl s) -> (forall r c, Q c -> P r c) -> wp m (post P) s.
Proof. intros Hm Hs HP _. apply HP, Hm, Hs. Qed.

Lemma wp_NextBlock s ev : ctl s = (Selecting, ev) ->
  wp (NextBlock lz4 zstd std_hash map_bool opts fuel)
    (post (fun r c => match r with Ok (Some _) => c = (Selecting, ev) | _ => c = (Idle, NoEvents) end)) s.
Proof.
  intros Hs. unfold NextBlock. apply wp_bind. unfold wp at 1, is_state. cbn [fst snd].
  rewrite bool_decide_true by (by apply ctl_state in Hs as [-> _]). cbn [negb]. apply wp_reset; [|done].
  apply wp_while with (Inv := fun _ s => ctl s = (Selecting, ev)); [|done|done].
  intros [] s1 Hs1. unfold NextBlock_step. apply wp_bind. eapply wp_mono; [by apply (keeps_wp (fun c => c = (Selecting, ev))), Hs1; apply keeps_ReceivePacket|].
  intros [[code packet]|e] s2 Hs2; [|done]. destruct packet; try done. by destruct (GetColumnCount block =? 0).
Qed.

Lemma wp_drain s ev : ctl s = (Selecting, ev) ->
  wp (drain lz4 zstd std_hash map_bool opts fuel) (post (fun _ c => c = (Idle, NoEvents))) s.
Proof.
  intros Hs. unfold drain. apply wp_while with (Inv := fun _ s => ctl s = (Selecting, ev)); [|by intros ? ? ? []|done].
  intros [] s1 Hs1. apply wp_bind. eapply wp_mono; [by apply wp_NextBlock|].
  intros [[b|]|e] s2 Hp; [apply Hp, defined_ok|intros _; apply Hp, defined_ok|intros Hd; apply Hp; exact (defined_throw _ Hd)].
Qed.

(** The call is refused: nothing happens. *)
Lemma guard_refused {A} (st : State) (s : Impl) (m : M Impl A) : state_ s <> st ->
  (let* b := is_state st in if negb b then throw ValidationError else m) s = (Throw ValidationError, s).
Proof. intros Hs. unfold bind, is_state. by rewrite bool_decide_false. Qed.

Lemma guard_passed {A} (st : State) (s : Impl) (m : M Impl A) : state_ s = st ->
  (let* b := is_state st in if negb b then throw ValidationError else m) s = m s.
Proof. intros Hs. unfold bind, is_state. by rewrite bool_decide_true. Qed.

Lemma wp_guard {A} (st : State) (m : M Impl A) Q s : state_ s = st -> wp m Q s ->
  wp (let* b := is_state st in if negb b then throw ValidationError else m) Q s.
Proof. intros Hs Hm. unfold wp. by rewrite guard_passed. Qed.

Definition idle_with (ev : EventsPtr) (c : State * EventsPtr) : Prop := c = (Idle, ev).

Lemma idle_closed ev st e : idle_with ev (st, e) -> idle_with ev (Idle, e).
Proof. by intros [= -> ->]. Qed.

Lemma wp_BeginExecuteQuery q f s ev : ctl s = (Idle, ev) -> ev <> LocalQuery ->
  wp (BeginExecuteQuery lz4 zstd std_hash map_bool opts q f)
    (post (fun r c => match r with Ok _ => c = (Selecting, MemberQuery) | Throw _ => fst c = Idle /\ snd c <> LocalQuery end)) s.
Proof.
  intros Hs Hev. apply wp_guard; [by apply ctl_state in Hs as []|].
  eapply (wp_post_bind (idle_with ev)); [apply keeps_ping_first, idle_closed|done|by intros ? ? ->|]. intros _ s1 Hs1.
  apply wp_bind. unfold wp at 1. cbn [fst snd modify]. apply wp_reset; [|done].
  eapply wp_mono; [apply (keeps_wp (fun c => c = (Selecting, MemberQuery))); [|done]|by intros [] ?].
  apply keeps_bind; [apply keeps_get|intros]. apply keeps_SendQuery.
Qed.

Lemma wp_ExecuteQuery q s ev : ctl s = (Idle, ev) -> ev <> LocalQuery ->
  wp (ExecuteQuery lz4 zstd std_hash map_bool opts fuel q) (post (fun r c => fst c = Idle /\ snd c <> LocalQuery)) s.
Proof.
  intros Hs Hev. apply wp_bind. eapply wp_mono; [by eapply wp_BeginExecuteQuery|].
  intros [[]|e] s1 Hp; [|by intros Hd; apply Hp]. eapply wp_mono; [eapply wp_drain, Hp, defined_ok|].
  intros r s2 Hq Hd. specialize (Hq Hd). by rewrite Hq.
Qed.

Definition idle_or_refused {A} (s : Impl) (r : result A) (s' : Impl) : Prop :=
  defined r -> (fst (ctl s') = Idle /\ snd (ctl s') <> LocalQuery) \/ (r = Throw UnimplementedError /\ s' = s).

Lemma wp_SelectWithExternalData q tables s ev : ctl s = (Idle, ev) -> ev <> LocalQuery ->
  wp (SelectWithExternalData lz4 zstd std_hash map_bool opts fuel q tables) (idle_or_refused s) s.
Proof.
  intros Hs Hev. unfold SelectWithExternalData. apply wp_bind. unfold wp at 1, revision. cbn [fst snd].
  destruct (_ <? _); [intros _; by right|]. apply wp_bind. eapply wp_mono; [by eapply wp_BeginExecuteQuery|].
  intros [[]|e] s1 Hp; [|intros Hd; left; by apply Hp]. specialize (Hp (defined_ok _)). apply wp_bind.
  eapply wp_mono; [eapply (wp_reset _ (fun r c => match r with Ok _ => c = (Selecting, MemberQuery) | Throw _ => c = (Idle, NoEvents) end)); [|done]|].
  - eapply wp_mono; [apply (keeps_wp (fun c => c = (Selecting, MemberQuery))); [|done]|by intros [] ?].
    apply keeps_bind; [apply keeps_SendExternalData|intros; apply keeps_FinalizeQuery].
  - intros [[]|e] s2 Hq; [|intros Hd; left; rewrite (Hq (defined_throw _ Hd)); done].
    eapply wp_mono; [eapply wp_drain, Hq, defined_ok|]. intros r s3 Hr Hd. left. by rewrite (Hr Hd).
Qed.

Lemma wp_Cancel s ev : ctl s = (Selecting, ev) ->
  wp (Cancel lz4 zstd std_hash map_bool opts fuel)
    (post (fun r c => c = (Idle, NoEvents) \/ c = (Selecting, ev) /\ match r with Ok _ => False | _ => True end)) s.
Proof.
  intros Hs. apply wp_guard; [by apply ctl_state in Hs as []|].
  eapply (wp_post_bind (fun c => c = (Selecting, ev))); [apply keeps_on_output; apply _|done|by intros ? ? ->; right|].
  intros _ s1 Hs1. eapply wp_mono; [by eapply wp_drain|]. intros r s2 Hr Hd. left. by apply Hr.
Qed.

Lemma wp_EndInsert s ev : ctl s = (Inserting, ev) ->
  wp (EndInsert lz4 zstd std_hash map_bool opts fuel)
    (post (fun r c => match r with Ok _ => c = (Idle, ev) | Throw _ => c = (Inserting, ev) end)) s.
Proof.
  intros Hs. unfold EndInsert. apply wp_bind. unfold wp at 1, is_state. cbn [fst snd].
  rewrite bool_decide_true by (by apply ctl_state in Hs as []). cbn [negb].
  eapply (wp_post_bind (fun c => c = (Inserting, ev))); [apply keeps_SendData|done|by intros ? ? ->|]. intros _ s1 Hs1.
  eapply (wp_post_bind (fun c => c = (Inserting, ev))); [|done|by intros ? ? ->|].
  - apply keeps_while. intros z. apply keeps_bind; [apply keeps_ProcessPacket|]. intros []. apply keeps_ret.
  - intros code s2 Hs2. apply ctl_state in Hs2 as [H1' H2']. unfold wp, post, ctl.
    destruct (_ && rethrow_exceptions opts); cbn [fst snd throw modify]; intros _; [by rewrite H1', H2'|].
    cbn. by rewrite H2'.
Qed.

Lemma keeps_WaitData (Q : State * EventsPtr -> Prop) : keeps Q (while fuel (WaitData_step lz4 zstd std_hash map_bool opts) tt).
Proof. apply keeps_while. intros z. apply keeps_bind; [apply keeps_ProcessPacket|]. intros []. apply keeps_ret. Qed.

Lemma wp_Insert t id b s ev : ctl s = (Idle, ev) ->
  wp (Insert lz4 zstd std_hash map_bool opts fuel t id b)
    (post (fun r c => snd c = ev /\ match r with Ok _ => fst c = Idle | Throw _ => fst c <> Selecting end)) s.
Proof.
  intros Hs. unfold Insert. apply wp_bind. unfold wp at 1, is_state. cbn [fst snd].
  rewrite bool_decide_false by (by apply ctl_state in Hs as [-> _]). apply wp_guard; [by apply ctl_state in Hs as []|].
  eapply (wp_post_bind (idle_with ev)); [apply keeps_ping_first, idle_closed|done|by intros ? ? ->|]. intros _ s1 Hs1.
  apply wp_bind. unfold wp at 1. cbn [fst snd modify].
  assert (ctl (set_state Inserting s1) = (Inserting, ev)) as Hs2 by (apply ctl_state in Hs1 as [_ He]; unfold ctl; cbn; by rewrite He).
  eapply (wp_post_bind (fun c => c = (Inserting, ev))); [apply keeps_lift|done|by intros ? ? ->|]. intros text s3 Hs3.
  eapply (wp_post_bind (fun c => c = (Inserting, ev))); [apply keeps_SendQuery|done|by intros ? ? ->|]. intros _ s4 Hs4.
  eapply (wp_post_bind (fun c => c = (Inserting, ev))); [apply keeps_WaitData|done|by intros ? ? ->|]. intros [] s5 Hs5; [|intros _; unfold throw; cbn [snd]; by rewrite Hs5].
  eapply (wp_post_bind (fun c => c = (Inserting, ev))); [apply keeps_SendData|done|by intros ? ? ->|]. intros _ s6 Hs6.
  eapply wp_mono; [by apply wp_EndInsert|]. intros [[]|e] s7 Hp Hd; rewrite (Hp Hd); done.
Qed.

Lemma wp_BeginInsert q s ev : ctl s = (Idle, ev) -> ev <> LocalQuery ->
  wp (BeginInsert lz4 zstd std_hash map_bool opts fuel q)
    (post (fun r c => snd c <> LocalQuery /\ match r with Ok _ => fst c = Inserting | Throw _ => fst c <> Selecting end)) s.
Proof.
  intros Hs Hev. apply wp_guard; [by apply ctl_state in Hs as []|].
  destruct (HasEventCallbacks q); [intros _; unfold throw; cbn [snd]; by rewrite Hs|]. apply wp_bind. unfold wp at 1. cbn [fst snd modify].
  set (s0 := set_events LocalQuery (set_local_query q s)).
  assert (idle_with LocalQuery (ctl s0)) as Hs0 by (apply ctl_state in Hs as [He _]; unfold idle_with, ctl; cbn; by rewrite He).
  unfold finally, wp. match goal with |- context [let '(r, x) := ?m s0 in (r, set_events NoEvents x)] => set (body := m) end.
  assert (wp body (fun r s' => match r with Ok _ => state_ s' = Inserting | Throw _ => state_ s' <> Selecting end) s0) as Hb.
  { apply wp_bind. eapply wp_mono; [apply (keeps_wp (idle_with LocalQuery)); [apply keeps_ping_first, idle_closed|done]|].
    intros [[]|e] s1 Hs1; apply ctl_state in Hs1 as [Hs1 _]; [|by rewrite Hs1].
    apply wp_bind. unfold wp at 1. cbn [fst snd modify].
    eapply wp_mono; [apply (keeps_wp (fun c => fst c = Inserting)); [|done]|].
    - do 2 (apply keeps_bind; [keeps|intros]). apply keeps_bind; [keeps|intros sl]. apply keeps_bind; [apply keeps_SendQuery|intros].
      apply keeps_bind; [apply keeps_WaitData|intros; keeps].
    - intros [b|e] s2 Hs2; [|cbn in Hs2; by rewrite Hs2]. done. }
  unfold wp in Hb. destruct (body s0) as [r s']. cbn [fst snd] in *. intros _. split; [done|]. by destruct r.
Qed.

Lemma wp_ResetConnection (s : Impl) :
  wp (ResetConnection opts) (fun r s' => events_ s' = events_ s /\ (state_ s' = Idle \/ state_ s' = state_ s) /\
    match r with Ok _ => state_ s' = Idle | Throw _ => True end) s.
Proof.
  unfold ResetConnection. apply wp_bind. unfold wp at 1. cbn [fst snd get]. destruct (current_endpoint_ s); [|unfold wp; cbn; auto].
  apply wp_bind. eapply wp_mono; [apply (keeps_wp (fun c => c = ctl s)); [apply keeps_on_net; apply _|done]|].
  intros [socket|e'] s1 Hs1; apply ctl_state in Hs1 as [Hst Hev]; [|auto].
  do 2 (apply wp_bind; unfold wp at 1; cbn [fst snd modify InitializeStreams]).
  eapply wp_mono; [apply (keeps_wp (fun c => c = (Idle, events_ s))); [|unfold ctl; cbn; by rewrite Hev]|].
  - apply keeps_bind; [apply keeps_Handshake; apply _|intros; keeps].
  - intros r s2 Hs2. apply ctl_state in Hs2 as [-> ->]. by destruct r; auto.
Qed.

Lemma wp_ResetConnectionEndpoint (s : Impl) :
  wp (ResetConnectionEndpoint opts) (fun r s' => events_ s' = events_ s /\ (state_ s' = Idle \/ state_ s' = state_ s) /\
    match r with Ok _ => state_ s' = Idle | Throw _ => True end) s.
Proof.
  unfold ResetConnectionEndpoint. apply wp_bind. unfold wp at 1. cbn [fst snd get].
  apply wp_while with (Inv := fun _ s' => events_ s' = events_ s /\ (state_ s' = Idle \/ state_ s' = state_ s)); [|tauto|auto].
  intros i s1 [He Hs]. apply wp_try. apply wp_bind. eapply wp_mono; [apply wp_ResetConnection|].
  assert (forall (m : M Impl (Z + unit)) s2, (forall Q, keeps Q m) -> (forall s r, fst (m s) <> Ok (inr r)) -> events_ s2 = events_ s /\ (state_ s2 = Idle \/ state_ s2 = state_ s) ->
    wp m (fun r s' => match r with Ok (inl _) => events_ s' = events_ s /\ (state_ s' = Idle \/ state_ s' = state_ s)
      | Ok (inr b) => events_ s' = events_ s /\ (state_ s' = Idle \/ state_ s' = state_ s) /\ state_ s' = Idle
      | Throw _ => events_ s' = events_ s /\ (state_ s' = Idle \/ state_ s' = state_ s) /\ True end) s2) as Hm.
  { intros m s2 Hk Hr Hs2. unfold wp. specialize (Hk (fun c => snd c = events_ s /\ (fst c = Idle \/ fst c = state_ s)) s2 Hs2). specialize (Hr s2).
    destruct (m s2) as [[[]|] s3]; cbn in *; [tauto|by destruct (Hr u)|tauto]. }
  intros [[]|e] s2 (He2 & Hs2 & Hi).
  - cbn. rewrite He2, He, Hi. auto.
  - assert (events_ s2 = events_ s /\ (state_ s2 = Idle \/ state_ s2 = state_ s)) as Hb.
    { split; [congruence|]. destruct Hs2 as [-> | ->]; auto. }
    destruct e; try tauto; (apply Hm; [intros Q; keeps| |exact Hb]); intros s3 []; try done.
    unfold bind, NextEndpoint, zoom, bind. destruct (Next (endpoints_iterator s3)) as [[]]; cbn; [|done]. by destruct (_ <=? _).
Qed.

(** ** The client implements the machine *)

Lemma run_done {A} (m : M Impl A) (P : result bool -> Impl -> Prop) s :
  wp m (fun r s' => P (match r with Ok _ => Ok false | Throw e => Throw e end) s') s -> wp (done m) P s.
Proof. intros Hm. apply wp_bind. eapply wp_mono; [exact Hm|]. by intros [a|e] s'. Qed.

Lemma defined_done {A} (r : result A) : defined (match r with Ok _ => Ok false | Throw e => Throw e end) -> defined r.
Proof. destruct r; [intros _; apply defined_ok|apply defined_throw]. Qed.

Definition implements (req : request) (s : Impl) (r : result bool) (s' : Impl) : Prop :=
  defined r -> client_ok s' /\ transition (state_ s) (op_of req) (outcome_of r) (state_ s').

Lemma implements_refused req s : client_ok s -> run req s = (Throw ValidationError, s) ->
  transition (state_ s) (op_of req) (Throws ValidationError) (state_ s) -> wp (run req) (implements req s) s.
Proof. intros Hok E Ht. unfold wp. rewrite E. by intros _. Qed.

(** A call that the current state does not allow throws and changes nothing. *)
Definition expects (req : request) : option State :=
  match req with
  | RNext | RCancel => Some Selecting
  | RSendInsert _ => Some Inserting
  | REndInsert | RReset | RResetEndpoint | RExternal _ _ => None
  | _ => Some Idle
  end.

Lemma run_refused req s st : expects req = Some st -> state_ s <> st -> run req s = (Throw ValidationError, s).
Proof.
  intros He Hs.
  destruct req; cbn [expects run] in *; try discriminate; injection He as <-;
    try exact (bind_throw _ _ _ _ _ (guard_refused _ _ _ Hs)).
  - exact (bind_throw _ _ _ _ _ (bind_throw _ _ _ _ _ (guard_refused _ _ _ Hs))).
  - apply bind_throw. unfold Insert, bind at 1, is_state at 1. destruct (bool_decide_reflect (state_ s = Inserting)); [done|].
    exact (guard_refused _ _ _ Hs).
Qed.

Lemma external_refused q tables s : state_ s <> Idle ->
  exists e, run (RExternal q tables) s = (Throw e, s) /\ (e = UnimplementedError \/ e = ValidationError).
Proof.
  intros Hs. cbn [run]. destruct (si_revision (server_info_ s) <? DBMS_MIN_REVISION_WITH_TEMPORARY_TABLES) eqn:E.
  - exists UnimplementedError. split; [|auto]. apply bind_throw. unfold SelectWithExternalData, revision, bind. by rewrite E.
  - exists ValidationError. split; [|auto]. apply bind_throw. unfold SelectWithExternalData, revision, bind at 1. rewrite E.
    exact (bind_throw _ _ _ _ _ (guard_refused _ _ _ Hs)).
Qed.

Lemma client_ok_ctl (s : Impl) st ev : ctl s = (st, ev) -> ev <> LocalQuery -> (st = Selecting -> ev = MemberQuery) -> client_ok s.
Proof. intros Hc Hl Hm. apply ctl_state in Hc as [H1' H2']. unfold client_ok. rewrite H1', H2'. done. Qed.

(** From [Idle]. *)
Lemma run_idle req s ev : ctl s = (Idle, ev) -> ev <> LocalQuery -> expects req = Some Idle ->
  wp (run req) (implements req s) s.
Proof.
  intros Hs Hev He. pose proof (ctl_state _ _ _ Hs) as [Hst _]. unfold implements. rewrite Hst.
  destruct req; try discriminate; cbn [run op_of]; apply run_done.
  - eapply wp_mono; [by eapply wp_BeginExecuteQuery|]. intros [[]|e] s' Hp Hd.
    + apply (fun H => H (defined_ok _)) in Hp. pose proof (ctl_state _ _ _ Hp) as [-> _].
      split; [by eapply client_ok_ctl|constructor].
    + destruct (Hp (defined_throw _ Hd)) as [Hi Hl]. cbn in Hi, Hl. split; [split; [done|congruence]|]. rewrite Hi. constructor.
  - eapply wp_mono; [by eapply wp_ExecuteQuery|]. intros r s' Hp Hd.
    pose proof (defined_done r Hd) as Hr.
    destruct (Hp Hr) as [Hi Hl]. cbn in Hi, Hl. split; [split; [done|congruence]|]. rewrite Hi. destruct r; constructor.
  - eapply wp_mono; [by eapply wp_Insert|]. intros r s' Hp Hd.
    pose proof (defined_done r Hd) as Hr.
    destruct (Hp Hr) as [Hl Hi]. cbn in Hi, Hl. split; [split; [congruence|destruct r; congruence]|]. destruct r; [rewrite Hi; constructor|by constructor].
  - eapply wp_mono; [by eapply wp_BeginInsert|]. intros r s' Hp Hd.
    pose proof (defined_done r Hd) as Hr.
    destruct (Hp Hr) as [Hl Hi]. cbn in Hi, Hl. split; [split; [congruence|destruct r; congruence]|]. destruct r; [rewrite Hi; constructor|by constructor].
  - eapply wp_mono; [apply (keeps_wp (fun c => c = (Idle, ev))); [apply keeps_Ping|done]|]. intros r s' Hp Hd.
    pose proof (ctl_state _ _ _ Hp) as [-> _]. split; [exact (client_ok_ctl _ _ _ Hp Hev ltac:(done))|]. destruct r; constructor.
Qed.

(** From [Selecting]. *)
Lemma run_selecting req s : ctl s = (Selecting, MemberQuery) -> expects req = Some Selecting ->
  wp (run req) (implements req s) s.
Proof.
  intros Hs He. pose proof (ctl_state _ _ _ Hs) as [Hst _]. unfold implements. rewrite Hst. destruct req; try discriminate; cbn [run op_of].
  - apply wp_bind. eapply wp_mono; [by apply wp_NextBlock|]. intros [[b|]|e] s' Hp; [intros _|intros _|intros Hd].
    1,2: apply (fun H => H (defined_ok _)) in Hp. 3: apply (fun H => H (defined_throw _ Hd)) in Hp.
    all: pose proof (ctl_state _ _ _ Hp) as [Hst' _]; split; [by eapply client_ok_ctl|]; cbn; rewrite Hst'; constructor.
  - apply run_done. eapply wp_mono; [by apply wp_Cancel|]. intros r s' Hp Hd.
    pose proof (defined_done r Hd) as Hr.
    destruct (Hp Hr) as [Hc|[Hc Hr']]; pose proof (ctl_state _ _ _ Hc) as [-> _]; (split; [by eapply client_ok_ctl|]);
      destruct r; try done; by constructor.
Qed.

Lemma run_reset (m : M Impl unit) s req : run req = done m -> op_of req = OReset -> client_ok s ->
  wp m (fun r s' => events_ s' = events_ s /\ (state_ s' = Idle \/ state_ s' = state_ s) /\
    match r with Ok _ => state_ s' = Idle | Throw _ => True end) s -> wp (run req) (implements req s) s.
Proof.
  intros Hrun Hop [Hl Hm] Hwp. rewrite Hrun. apply run_done. eapply wp_mono; [exact Hwp|]. intros r s' (He & Hst & Hr) _. rewrite Hop.
  split; [split; [congruence|]|].
  - intros Hsel. rewrite He. apply Hm. destruct Hst; congruence.
  - destruct r; [rewrite Hr; constructor|]. destruct Hst as [-> | ->]; constructor.
Qed.

Lemma run_end_insert s : client_ok s -> wp (run REndInsert) (implements REndInsert s) s.
Proof.
  intros [Hl Hm]. cbn [run]. apply run_done. destruct (decide (state_ s = Inserting)) as [Hi|Hi].
  - eapply wp_mono; [apply wp_EndInsert; unfold ctl; by rewrite Hi|]. intros r s' Hp Hd. cbn [op_of]. rewrite Hi.
    pose proof (defined_done r Hd) as Hr. specialize (Hp Hr).
    destruct r; pose proof (ctl_state _ _ _ Hp) as [-> _]; (split; [by eapply client_ok_ctl|constructor]).
  - unfold wp, EndInsert, is_state, bind. rewrite bool_decide_false by done. intros _. split; [done|by constructor].
Qed.

Lemma run_implements req s : client_ok s -> wp (run req) (implements req s) s.
Proof.
  intros Hok. pose proof Hok as [Hl Hm]. destruct (expects req) as [st|] eqn:He.
  - destruct (decide (state_ s = st)) as [Hst|Hst].
    + destruct st; [eapply run_idle; [unfold ctl; by rewrite Hst|done|done]|apply run_selecting; [unfold ctl; by rewrite Hst, (Hm Hst)|done]|].
      destruct req; try discriminate. cbn [run]. apply run_done.
      eapply wp_mono; [apply (keeps_wp (fun c => c = (Inserting, events_ s))); [|unfold ctl; by rewrite Hst]|].
      * unfold SendInsertBlock. apply keeps_bind; [keeps|]. intros []; [apply keeps_SendData|keeps].
      * intros r s' Hc _. pose proof (ctl_state _ _ _ Hc) as [Hst' _]. split; [exact (client_ok_ctl _ _ _ Hc Hl ltac:(done))|]. cbn [op_of]. rewrite Hst, Hst'. destruct r; constructor.
    + apply implements_refused; [done|by eapply run_refused|]. destruct req; try discriminate; injection He as <-; constructor; first [by intros|by intros []|intros; congruence].
  - destruct req; try discriminate.
    + destruct (decide (state_ s = Idle)) as [Hst|Hst].
      * cbn [run]. apply run_done. eapply wp_mono; [eapply wp_SelectWithExternalData; [unfold ctl; by rewrite Hst|done]|]. intros r s' Hp Hd. cbn [op_of]. rewrite Hst.
        pose proof (defined_done r Hd) as Hr.
        destruct (Hp Hr) as [[Hi Hl']|[-> ->]]; [|split; [done|rewrite Hst; constructor]]. cbn in Hi, Hl'.
        split; [split; [done|congruence]|]. rewrite Hi. destruct r; constructor.
      * destruct (external_refused query tables s Hst) as (e & E & [-> | ->]); unfold wp; rewrite E; (split; [done|]); constructor; first [by intros|by intros []|intros; congruence].
    + by apply run_end_insert.
    + eapply run_reset; [done|done|done|apply wp_ResetConnection].
    + eapply run_reset; [done|done|done|apply wp_ResetConnectionEndpoint].
Qed.

(** ** Sequences of calls *)

Fixpoint run_all (reqs : list request) (s : Impl) : list (result bool) * Impl :=
  match reqs with
  | [] => ([], s)
  | req :: reqs =>
    let '(r, s) := run req s in
    let '(rs, s) := run_all reqs s in (r :: rs, s)
  end.
End Machine.

(** Runs of the machine. *)
Inductive trace : State -> list (operation * outcome) -> State -> Prop :=
| trace_nil st : trace st [] st
| trace_cons st op o st1 l st2 : transition st op o st1 -> trace st1 l st2 -> trace st ((op, o) :: l) st2.

Lemma run_all_implements {N SI SO W} `{InputStream SI} `{OutputStream SO} `{SocketFactory N SI SO}
    (lz4 : lz4_api) (zstd : zstd_api) (std_hash : bytes -> Z) (map_bool : bool) (opts : ClientOptions) (fuel : positive)
    (reqs : list request) : forall s : Impl N SI SO W, client_ok s ->
  let '(rs, s') := run_all lz4 zstd std_hash map_bool opts fuel reqs s in
  Forall defined rs -> client_ok s' /\ trace (state_ s) (zip (map op_of reqs) (map outcome_of rs)) (state_ s').
Proof.
  induction reqs as [|req reqs IH]; intros s Hok; cbn [run_all]; [intros _; split; [done|constructor]|].
  pose proof (run_implements lz4 zstd std_hash map_bool opts fuel req s Hok) as Hr. unfold wp in Hr.
  destruct (run _ _ _ _ _ _ req s) as [r s1]. cbn [fst snd] in Hr.
  specialize (IH s1). destruct (run_all _ _ _ _ _ _ reqs s1) as [rs s2]. intros [Hd Hds]%Forall_cons.
  destruct (Hr Hd) as [Hok1 Ht]. destruct (IH Hok1 Hds) as [Hok2 Hts]. split; [done|]. cbn [map zip_with]. by econstructor.
Qed.

(** ** Main results *)

(** C4. The client is a correct implementation of its protocol of calls: in any
    sequence of calls, with any server, any callbacks, any exception thrown
    anywhere, each call moves [state_] as the machine [transition] says (a select
    always ends in [Idle], also when it fails; an insert that fails is left open
    until it is ended or the connection reset); a call that the state does not
    allow throws and changes nothing; and [events_] never outlives the query it
    points to. *)
Theorem client_machine {N SI SO W} `{InputStream SI} `{OutputStream SO} `{SocketFactory N SI SO}
    (lz4 : lz4_api) (zstd : zstd_api) (std_hash : bytes -> Z) (map_bool : bool) (opts : ClientOptions) (fuel : positive)
    (reqs : list request) (s s' : Impl N SI SO W) (rs : list (result bool)) (Hok : client_ok s)
    (Hrun : run_all lz4 zstd std_hash map_bool opts fuel reqs s = (rs, s')) (Hdef : Forall defined rs) :
  client_ok s' /\ trace (state_ s) (zip (map op_of reqs) (map outcome_of rs)) (state_ s') /\
  forall req st, expects req = Some st -> state_ s' <> st ->
    run lz4 zstd std_hash map_bool opts fuel req s' = (Throw ValidationError, s').
Proof.
  pose proof (run_all_implements lz4 zstd std_hash map_bool opts fuel reqs s Hok) as H2. rewrite Hrun in H2.
  destruct (H2 Hdef) as [Hok' Ht]. split_and!; [done|done|]. intros req st. apply run_refused.
Qed.

(** Reset, ping, a refused [NextBlock], a query whose response ends at once. *)
Definition example_requests : list (request (W := unit)) :=
  [RReset; RPing; RNext; RBegin Query_empty; RPing; RNext].

Definition example_client : Impl Script ChunkSource ChunkSink unit :=
  fresh_client [mkEndpoint (str "a") 9000] [Some (hello_message 54459 ++ varint_bytes 4 ++ varint_bytes 5)] tt.

Definition example_run := run_all store_lz4 store_zstd (fun _ => 0) false ClientOptions_new 10 example_requests example_client.

Lemma example_results :
  fst example_run = [Ok false; Ok false; Throw ValidationError; Ok false; Throw ValidationError; Ok false].
Proof. vm_compute. reflexivity. Qed.

Lemma client_machine_witness :
  trace Idle (zip (map op_of example_requests) (map outcome_of (fst example_run))) (state_ (snd example_run)).
Proof.
  apply (client_machine store_lz4 store_zstd (fun _ => 0) false ClientOptions_new 10 example_requests example_client (snd example_run) (fst example_run)).
  - by split.
  - unfold example_run. apply surjective_pairing.
  - rewrite example_results. repeat constructor; done.
Defined.
