(* ===== verification/ClientWire.v ===== *)
(** * What the client does on the wire

    A response of the server as a list of packets and its bytes, what the
    application is to see of it, and the theorems that the client shows exactly
    that, for selects and inserts, over any socket whose streams satisfy the
    stream laws. *)

From S2P Require Import Prelude Streams WireFormat CityHash Compressed Text Types TypeParser TypeNames Columns ColumnRows ColumnOps ColumnWire Factory Block Protocol BlockWire Endpoints Query Messages Client ClientStates.

(** ** The server's side *)

Inductive server_packet :=
| SData (name : bytes) (block : Block)
| SProfile (profile : Profile)
| SProgress (progress : Progress)
| SPong
| SHello
| SLog (tag : bytes) (block : Block)
| STableColumns (table description : bytes)
| SProfileEvents (tag : bytes) (block : Block).

(** How a response ends. *)
Inductive ending := SEnd | SException (e : Exception).

Definition bool_byte (b : bool) : Z := if b then 1 else 0.

Definition exception_bytes (e : Exception) : bytes :=
  le_bytes 4 (e_code e) ++ string_bytes (e_name e) ++ string_bytes (e_display_text e) ++
  string_bytes (e_stack_trace e) ++ le_bytes 1 0.

Definition exception_ok (e : Exception) : Prop :=
  is_s 32 (e_code e) /\ short (e_name e) /\ short (e_display_text e) /\ short (e_stack_trace e).

Definition profile_bytes (p : Profile) : bytes :=
  varint_bytes (p_rows p) ++ varint_bytes (p_blocks p) ++ varint_bytes (p_bytes p) ++
  le_bytes 1 (bool_byte (p_applied_limit p)) ++ varint_bytes (p_rows_before_limit p) ++
  le_bytes 1 (bool_byte (p_calculated_rows_before_limit p)).

Definition profile_ok (p : Profile) : Prop :=
  is_u 64 (p_rows p) /\ is_u 64 (p_blocks p) /\ is_u 64 (p_bytes p) /\ is_u 64 (p_rows_before_limit p).

Section Server.
Context (lz4 : lz4_api) (zstd : zstd_api) (map_bool : bool) (revision : Z) (compression : bool).

Definition has_write_info : bool := DBMS_MIN_REVISION_WITH_CLIENT_WRITE_INFO <=? revision.

Definition progress_bytes (p : Progress) : bytes :=
  varint_bytes (pr_rows p) ++ varint_bytes (pr_bytes p) ++ varint_bytes (pr_total_rows p) ++
  opt_bytes has_write_info (varint_bytes (pr_written_rows p) ++ varint_bytes (pr_written_bytes p)).

Definition progress_ok (p : Progress) : Prop :=
  is_u 64 (pr_rows p) /\ is_u 64 (pr_bytes p) /\ is_u 64 (pr_total_rows p) /\
  is_u 64 (pr_written_rows p) /\ is_u 64 (pr_written_bytes p) /\
  (has_write_info = false -> pr_written_rows p = 0 /\ pr_written_bytes p = 0).

(** The bytes of a block of data: in frames when compression is on. *)
Definition payload (b : Block) (bs : bytes) : Prop :=
  if compression then frames lz4 zstd bs (block_bytes revision b) else bs = block_bytes revision b.

(** [wire p code bs]: the server sends the packet as [code] and [bs]. *)
Inductive wire : server_packet -> Z -> bytes -> Prop :=
| wire_data name b bs : short name -> block_sendable map_bool b -> payload b bs ->
    wire (SData name b) ServerCodes.Data (opt_bytes (DBMS_MIN_REVISION_WITH_TEMPORARY_TABLES <=? revision) (string_bytes name) ++ bs)
| wire_profile p : profile_ok p -> wire (SProfile p) ServerCodes.ProfileInfo (profile_bytes p)
| wire_progress p : progress_ok p -> wire (SProgress p) ServerCodes.Progress (progress_bytes p)
| wire_pong : wire SPong ServerCodes.Pong []
| wire_hello : wire SHello ServerCodes.Hello []
| wire_log tag b : short tag -> block_sendable map_bool b ->
    wire (SLog tag b) ServerCodes.Log (string_bytes tag ++ block_bytes revision b)
| wire_table_columns t d : short t -> short d ->
    wire (STableColumns t d) ServerCodes.TableColumns (string_bytes t ++ string_bytes d)
| wire_profile_events tag b : short tag -> block_sendable map_bool b ->
    wire (SProfileEvents tag b) ServerCodes.ProfileEvents (string_bytes tag ++ block_bytes revision b).

(** The packet the client decodes. *)
Inductive seen : server_packet -> DecodedPacket -> Prop :=
| seen_data name b b' : same_block revision b b' -> seen (SData name b) (PBlock b')
| seen_profile p : seen (SProfile p) (PProfile p)
| seen_progress p : seen (SProgress p) (PProgress p)
| seen_pong : seen SPong PPong
| seen_hello : seen SHello PHello
| seen_log tag b b' : same_block revision b b' -> seen (SLog tag b) (PLog b')
| seen_table_columns t d : seen (STableColumns t d) PTableColumns
| seen_profile_events tag b b' : same_block revision b b' -> seen (SProfileEvents tag b) (PProfileEvents b').

(** A response: packets, and its end. *)
Inductive response : list server_packet -> ending -> bytes -> Prop :=
| response_end : response [] SEnd (varint_bytes ServerCodes.EndOfStream)
| response_exception e : exception_ok e -> response [] (SException e) (varint_bytes ServerCodes.Exception ++ exception_bytes e)
| response_packet p code bs ps e rest : wire p code bs -> response ps e rest ->
    response (p :: ps) e (varint_bytes code ++ bs ++ rest).
End Server.

(** ** What the application is to see

    The callbacks, in the order of the packets, on the application's state; and the
    bytes the client sends meanwhile: a cancel request each time the callback asks. *)

Section Application.
Context {W : Type}.

Definition view : Type := World W * bytes.

Definition app_call {A} (m : M (World W) A) : M view A := zoom fst (fun w v => (w, snd v)) m.

Definition tell (q : option (Query (World W))) (p : DecodedPacket) : M view unit :=
  match q with
  | None => ret tt
  | Some q =>
    match p with
    | PBlock b =>
      app_call (OnData q b) ;;;
      let* go_on := app_call (OnDataCancelable q b) in
      when (negb go_on) (modify (fun v => (fst v, snd v ++ cancel_bytes)))
    | PServerException e => app_call (OnServerException q e)
    | PProfile p => app_call (OnProfile q p)
    | PProgress p => app_call (OnProgress q p)
    | PLog b => app_call (OnServerLog q b)
    | PProfileEvents b => app_call (OnProfileEvents q b)
    | PEndOfStream => app_call (OnFinish q)
    | PPong | PHello | PTableColumns => ret tt
    end
  end.

(** [delivers revision rethrow q ps e v r v']: the packets are shown one after the other,
    until the end or until a callback throws; an exception of the server is shown too and,
    if the options say so, thrown. *)
Inductive delivers (revision : Z) (rethrow : bool) (q : option (Query (World W))) :
    list server_packet -> ending -> view -> result unit -> view -> Prop :=
| delivers_packet p p' ps e v v1 r v2 : seen revision p p' -> tell q p' v = (Ok tt, v1) ->
    delivers revision rethrow q ps e v1 r v2 -> delivers revision rethrow q (p :: ps) e v r v2
| delivers_throw p p' ps e v x v1 : seen revision p p' -> tell q p' v = (Throw x, v1) ->
    delivers revision rethrow q (p :: ps) e v (Throw x) v1
| delivers_end v : delivers revision rethrow q [] SEnd v (Ok tt) v
| delivers_exception e v v1 : tell q (PServerException e) v = (Ok tt, v1) ->
    delivers revision rethrow q [] (SException e) v (if rethrow then Throw (ServerException e) else Ok tt) v1
| delivers_exception_throw e v x v1 : tell q (PServerException e) v = (Throw x, v1) ->
    delivers revision rethrow q [] (SException e) v (Throw x) v1.
End Application.

(** ** The connection *)
Section Connection.
Context {N SI SO W : Type} `{InputStreamLaws SI} `{OutputStreamLaws SO} `{SocketFactory N SI SO}.
Context (lz4 : lz4_api) (zstd : zstd_api) (std_hash : bytes -> Z) (map_bool : bool) (opts : ClientOptions) (fuel : positive).
Context (rev : Z) (compression : bool).

Abbreviation Impl := (Impl N SI SO W).
Abbreviation Input := (Session (BufferedInput SI)).

#[local] Instance input_laws : InputStreamLaws Input := Session_laws map_bool.

#[local] Instance input_cache_laws : TypeCacheLaws map_bool Input := Session_cache_laws map_bool.

#[local] Instance input_skip : InputStreamSkip Input.
Proof.
  intros s n [Hg Hc] Hn. destruct (Skip_within (ss_input s) n Hg Hn) as (i & E & Hp & Hg').
  exists (mkSession (ss_cache s) i). split; [|done]. cbn [Skip Session_IS]. unfold ss_on_input, zoom. by rewrite E.
Qed.

(** What the peer has sent and the client has not read; what the client has sent. *)
Definition in_pending (s : Impl) : bytes := match input_ s with Some i => pending i | None => [] end.

Definition out_accepted (s : Impl) : bytes := match output_ s with Some o => accepted o | None => [] end.

(** A working connection to a server of revision [rev], with or without compression. *)
Definition conn_good (s : Impl) : Prop :=
  (exists i, input_ s = Some i /\ in_good i) /\ (exists o, output_ s = Some o /\ out_good o) /\ cache_ok map_bool (type_cache s) /\
  si_revision (server_info_ s) = rev /\ compression_ s = compression.

(** Everything but the streams, the cache and the application. *)
Definition same_rest (s s' : Impl) : Prop :=
  cl_query s' = cl_query s /\ local_query s' = local_query s /\ events_ s' = events_ s /\ compression_ s' = compression_ s /\
  endpoints_iterator s' = endpoints_iterator s /\ current_endpoint_ s' = current_endpoint_ s /\
  server_info_ s' = server_info_ s /\ state_ s' = state_ s /\ net s' = net s.

Definition view_of (s : Impl) : view := (world s, out_accepted s).

Lemma view_inv s w a : view_of s = (w, a) -> world s = w /\ out_accepted s = a.
Proof. by intros [= <- <-]. Qed.

#[global] Instance same_rest_trans : Transitive same_rest.
Proof. intros s1 s2 s3. unfold same_rest. intuition congruence. Qed.

#[global] Instance same_rest_refl : Reflexive same_rest.
Proof. intros s. by split_and!. Qed.

Lemma same_rest_events s s' : same_rest s s' -> current_events s' = current_events s.
Proof. intros (Eq & El & Ee & _). unfold current_events. by rewrite Eq, El, Ee. Qed.

(** [reads_to m bs P]: with [bs] next, [m] consumes it and returns a value that satisfies [P]. *)
Definition reads_to {A} (m : M Input A) (bs : bytes) (P : A -> Prop) : Prop :=
  forall i rest, in_good i -> pending i = bs ++ rest ->
  exists a i', P a /\ m i = (Ok a, i') /\ pending i' = rest /\ in_good i'.

Lemma reads_reads_to {A} (m : M Input A) bs a : reads m bs a -> reads_to m bs (eq a).
Proof. intros Hm i rest Hg Hp. destruct (Hm i rest Hg Hp) as (i' & E & Hp' & Hg'). by exists a, i'. Qed.

Lemma on_input_reads_to {A} (m : M Input A) bs P s rest : reads_to m bs P -> conn_good s -> in_pending s = bs ++ rest ->
  exists a s', P a /\ on_input m s = (Ok a, s') /\ conn_good s' /\ in_pending s' = rest /\ view_of s' = view_of s /\ same_rest s s'.
Proof.
  intros Hm ((i & Ei & Hi) & (o & Eo & Ho) & Hc & Hrv & Hcm) Hp. unfold in_pending in Hp. rewrite Ei in Hp.
  destruct (Hm (mkSession (type_cache s) i) rest (conj Hi Hc) Hp) as (a & [c' i'] & Ha & E & Hp' & Hi' & Hc').
  unfold on_input. rewrite Ei, E. do 2 eexists. split; [exact Ha|]. split; [done|]. split_and!; try done.
  split_and!; [by eexists|by exists o|done..].
Qed.

Lemma on_input_reads {A} (m : M Input A) bs a s rest : reads m bs a -> conn_good s -> in_pending s = bs ++ rest ->
  exists s', on_input m s = (Ok a, s') /\ conn_good s' /\ in_pending s' = rest /\ view_of s' = view_of s /\ same_rest s s'.
Proof.
  intros Hm Hg Hp. destruct (on_input_reads_to _ _ _ _ _ (reads_reads_to _ _ _ Hm) Hg Hp) as (? & s' & <- & Hs'). by exists s'.
Qed.

Lemma on_output_writes {A} (m : M (BufferedOutput SO) A) bs a s : writes m bs a -> conn_good s ->
  exists s', on_output m s = (Ok a, s') /\ conn_good s' /\ in_pending s' = in_pending s /\
    view_of s' = (world s, out_accepted s ++ bs) /\ same_rest s s'.
Proof.
  intros Hm ((i & Ei & Hi) & (o & Eo & Ho) & Hc & Hrv & Hcm). destruct (Hm o Ho) as (o' & E & Ha & Ho').
  unfold on_output. rewrite Eo, E. eexists. split; [done|]. split_and!; try done.
  - split_and!; [by exists i|by eexists|done..].
  - change (view_of (set_output (Some o') s)) with (world s, accepted o'). unfold out_accepted. by rewrite Eo, Ha.
Qed.

Lemma on_world_app {A} (m : M (World W) A) s r v' : app_call m (view_of s) = (r, v') -> conn_good s ->
  exists s', on_world m s = (r, s') /\ conn_good s' /\ in_pending s' = in_pending s /\ view_of s' = v' /\ same_rest s s'.
Proof.
  unfold app_call, zoom, on_world, view_of. cbn [fst snd]. destruct (m (world s)) as [r' w'] eqn:E. intros [= <- <-] Hg.
  unfold zoom. rewrite E. by eexists.
Qed.

(** [shows m p]: [m] does what the application is to see of [p]. *)
Definition shows (m : M Impl unit) (p : DecodedPacket) : Prop :=
  forall s, conn_good s -> exists r s', m s = (r, s') /\ tell (current_events s) p (view_of s) = (r, view_of s') /\
    conn_good s' /\ in_pending s' = in_pending s /\ same_rest s s'.

Lemma shows_events (f : Query (World W) -> M (World W) unit) (p : DecodedPacket) :
  (forall q v, tell (Some q) p v = app_call (f q) v) -> shows (on_events f) p.
Proof.
  intros Hf s Hg. unfold on_events, bind, get. destruct (current_events s) as [q|]; [|by exists (Ok tt), s].
  rewrite Hf. destruct (app_call (f q) (view_of s)) as [r v'] eqn:E. destruct (on_world_app _ _ _ _ E Hg) as (s' & E' & Hg' & Hp & <- & Hs).
  by exists r, s'.
Qed.

Lemma shows_data (b : Block) :
  shows (let* s := get in
    match current_events s with
    | None => ret tt
    | Some q =>
      on_world (OnData q b) ;;;
      let* go_on := on_world (OnDataCancelable q b) in
      when (negb go_on) SendCancel
    end) (PBlock b).
Proof.
  intros s Hg. unfold bind at 1, get. destruct (current_events s) as [q|]; [|by exists (Ok tt), s]. cbn [tell].
  destruct (app_call (OnData q b) (view_of s)) as [r v1] eqn:E1. destruct (on_world_app _ _ _ _ E1 Hg) as (s1 & E1' & Hg1 & Hp1 & <- & Hs1).
  unfold bind at 1 3. rewrite E1, E1'. destruct r as [[]|e]; [|by exists (Throw e), s1].
  destruct (app_call (OnDataCancelable q b) (view_of s1)) as [r v2] eqn:E2. destruct (on_world_app _ _ _ _ E2 Hg1) as (s2 & E2' & Hg2 & Hp2 & <- & Hs2).
  unfold bind. rewrite E2, E2'. destruct r as [go_on|e]; [|exists (Throw e), s2; split_and!; [done..|congruence|by etransitivity]].
  destruct go_on; cbn [negb when].
  - exists (Ok tt), s2. split_and!; [done..|congruence|by etransitivity].
  - destruct (on_output_writes _ _ _ s2 writes_WriteCancel Hg2) as (s3 & E3 & Hg3 & Hp3 & Hv3 & Hs3).
    exists (Ok tt), s3. split_and!; [done|unfold modify; by rewrite Hv3|done|congruence|]. etransitivity; [exact Hs1|by etransitivity].
Qed.

(** [gets m bs P]: with [bs] next, [m] returns a value and shows a packet, related by [P],
    unless the application throws. *)
Definition gets {A} (m : M Impl A) (bs : bytes) (P : A -> DecodedPacket -> Prop) : Prop :=
  forall s rest, conn_good s -> in_pending s = bs ++ rest ->
  exists a p r s', P a p /\ m s = (match r with Ok _ => Ok a | Throw e => Throw e end, s') /\
    tell (current_events s) p (view_of s) = (r, view_of s') /\ conn_good s' /\ in_pending s' = rest /\ same_rest s s'.

Lemma gets_received {A} (read : M Input (option A)) (show : A -> M Impl unit) bs (pk : A -> DecodedPacket) (P : A -> Prop) :
  reads_to read bs (fun o => exists a, o = Some a /\ P a) -> (forall a, shows (show a) (pk a)) ->
  gets (received read show) bs (fun o p => exists a, o = Some a /\ P a /\ p = pk a).
Proof.
  intros Hr Hs s rest Hg Hp. destruct (on_input_reads_to _ _ _ _ _ Hr Hg Hp) as (? & s1 & (a & -> & Ha) & E1 & Hg1 & Hp1 & Hv1 & Hs1).
  destruct (Hs a s1 Hg1) as (r & s2 & E2 & Ht & Hg2 & Hp2 & Hs2). rewrite (same_rest_events _ _ Hs1), Hv1 in Ht.
  exists (Some a), (pk a), r, s2. unfold received, obind, bind. rewrite E1, E2.
  split_and!; [by exists a|by destruct r|done|done|congruence|by etransitivity].
Qed.

Lemma gets_require {A} (m : M Impl (option A)) (pk : A -> DecodedPacket) bs (P : A -> Prop) :
  gets m bs (fun o p => exists a, o = Some a /\ P a /\ p = pk a) ->
  gets (let* x := require m in ret (pk x)) bs (fun p' p => p' = p /\ exists a, P a /\ p = pk a).
Proof.
  intros Hm s rest Hg Hp. destruct (Hm s rest Hg Hp) as (? & ? & r & s' & (a & -> & Ha & ->) & E & Hrest). exists (pk a), (pk a), r, s'.
  split; [split; [done|by exists a]|]. split; [|done]. unfold require, bind. rewrite E. by destruct r.
Qed.

(** *** The readers *)

Lemma reads_skip_string (t : bytes) : short t -> reads skip_string (string_bytes t) (Some tt).
Proof. intros Ht. unfold skip_string. eapply reads_bind_nil; [by apply reads_SkipString|apply reads_ret]. Qed.

Lemma reads_int32 (z : Z) {B} (k : Z -> M Input (option B)) cs b : is_s 32 z -> reads (k z) cs b ->
  reads (obind (checked (ReadFixed 4 0)) (fun v => k (swrap 32 v))) (le_bytes 4 z ++ cs) b.
Proof.
  intros Hz Hk. assert (le_bytes 4 z = le_bytes 4 (wrap 32 z)) as -> by (symmetry; apply (le_bytes_mod 4)).
  eapply reads_obind; [apply reads_fixed, (wrap_range 32); lia|]. cbv beta. by rewrite swrap_wrap, swrap_id by (done || lia).
Qed.

Lemma reads_exception (e : Exception) : exception_ok e -> reads ReadException (exception_bytes e) (Some e).
Proof.
  intros (Hc & Hn & Hd & Hs). unfold ReadException, exception_bytes.
  apply (reads_int32 (e_code e) (fun code => obind _ (fun name => obind _ (fun d => obind _ (fun st => obind _ (fun _ => ret (Some (mkException code name d st)))))))); [done|].
  do 3 (eapply reads_obind; [by apply reads_string|]). eapply reads_obind_nil; [by apply reads_fixed|]. destruct e. apply reads_ret.
Qed.

Lemma reads_profile (p : Profile) : profile_ok p -> reads ReadProfile (profile_bytes p) (Some p).
Proof.
  intros (H1' & H2' & H3' & H4'). unfold ReadProfile, profile_bytes. do 3 (eapply reads_obind; [by apply reads_uint|]).
  eapply reads_obind; [apply reads_fixed; by destruct (p_applied_limit p)|]. eapply reads_obind; [by apply reads_uint|].
  eapply reads_obind_nil; [apply reads_fixed; by destruct (p_calculated_rows_before_limit p)|].
  destruct p as [? ? ? ? [] []]; apply reads_ret.
Qed.

Lemma reads_progress (p : Progress) : progress_ok rev p -> reads (ReadProgress rev) (progress_bytes rev p) (Some p).
Proof.
  intros (H1' & H2' & H3' & H4' & H5' & H6'). unfold ReadProgress, progress_bytes, has_write_info in *. do 3 (eapply reads_obind; [by apply reads_uint|]).
  destruct (DBMS_MIN_REVISION_WITH_CLIENT_WRITE_INFO <=? rev); cbn [opt_bytes].
  - eapply reads_obind; [by apply reads_uint|]. eapply reads_obind_nil; [by apply reads_uint|]. destruct p; apply reads_ret.
  - destruct p. destruct (H6' eq_refl) as [E1 E2]. cbn in *. rewrite E1, E2. apply reads_ret.
Qed.

Lemma reads_plain_block (tag : bytes) (b : Block) : short tag -> block_sendable map_bool b ->
  exists b', same_block rev b b' /\ reads (ReadPlainBlock std_hash map_bool rev) (string_bytes tag ++ block_bytes rev b) (Some b').
Proof.
  intros Ht Hb. destruct (reads_ReadBlock std_hash map_bool rev (I := Input) b Hb) as (b' & Hs & Hr). exists b'. split; [done|].
  eapply reads_obind; [by apply reads_skip_string|]. by apply reads_checked.
Qed.

Lemma reads_data (name : bytes) (b : Block) (bs : bytes) : short name -> block_sendable map_bool b -> payload lz4 zstd rev compression b bs ->
  reads_to (ReadData lz4 zstd std_hash map_bool compression rev)
    (opt_bytes (DBMS_MIN_REVISION_WITH_TEMPORARY_TABLES <=? rev) (string_bytes name) ++ bs)
    (fun o => exists b', o = Some b' /\ same_block rev b b').
Proof.
  intros Hn Hb Hpay i rest Hg Hp. rewrite <- app_assoc in Hp.
  assert (reads (if DBMS_MIN_REVISION_WITH_TEMPORARY_TABLES <=? rev then skip_string else ret (Some tt) : M Input _)
    (opt_bytes (DBMS_MIN_REVISION_WITH_TEMPORARY_TABLES <=? rev) (string_bytes name)) (Some tt)) as Hskip.
  { destruct (_ <=? _); [by apply reads_skip_string|apply reads_ret]. }
  destruct (Hskip i _ Hg Hp) as (i1 & E1 & Hp1 & Hg1).
  assert (exists b' i2, ReceiveBlockData lz4 zstd std_hash map_bool compression rev Block_new i1 = (Ok (true, b'), i2) /\
    pending i2 = rest /\ in_good i2 /\ same_block rev b b') as (b' & i2 & E2 & Hp2 & Hg2 & Hs).
  { unfold payload in Hpay. destruct compression; [exact (receive_compressed std_hash map_bool lz4 zstd rev b bs rest i1 Hb Hpay Hg1 Hp1)|]. subst bs.
    destruct (reads_ReadBlock std_hash map_bool rev (I := Input) b Hb) as (b' & Hs & Hr).
    destruct (Hr i1 rest Hg1 Hp1) as (i2 & E2 & Hp2 & Hg2). by exists b', i2. }
  exists (Some b'), i2. split_and!; [by exists b'| |done|done]. unfold ReadData, obind, checked, bind. by rewrite E1, E2.
Qed.

(** *** Packets *)

Lemma gets_weaken {A} (m : M Impl A) bs (P Q : A -> DecodedPacket -> Prop) : gets m bs P -> (forall a p, P a p -> Q a p) -> gets m bs Q.
Proof. intros Hm HPQ s rest Hg Hp. destruct (Hm s rest Hg Hp) as (a & p & r & s' & HP & Hrest). exists a, p, r, s'. auto. Qed.

Lemma gets_simple {A} (read : M Input (option A)) (f : A -> Query (World W) -> M (World W) unit) (pk : A -> DecodedPacket) bs a :
  reads read bs (Some a) -> (forall a q v, tell (Some q) (pk a) v = app_call (f a q) v) ->
  gets (received read (fun x => on_events (f x))) bs (fun o p => exists a', o = Some a' /\ a = a' /\ p = pk a').
Proof.
  intros Hr Hf. apply gets_received.
  - intros i rest Hg Hp. destruct (reads_reads_to _ _ _ Hr i rest Hg Hp) as (? & i' & <- & Hi). exists (Some a), i'. split; [by exists a|done].
  - intros x. apply shows_events. apply Hf.
Qed.

(** The packet built from what is received. *)
Lemma gets_packet {A} (m : M Impl (option A)) (pk : A -> DecodedPacket) bs a p :
  gets m bs (fun o p => exists a', o = Some a' /\ a = a' /\ p = pk a') -> seen rev p (pk a) ->
  gets (let* x := require m in ret (pk x)) bs (fun p' p0 => p' = p0 /\ seen rev p p0).
Proof. intros Hm Hs. eapply gets_weaken; [by apply gets_require|]. by intros ? ? (-> & ? & <- & ->). Qed.

Lemma gets_ret (p : DecodedPacket) (sp : server_packet) : (forall (q : option (Query (World W))) v, tell q p v = (Ok tt, v)) -> seen rev sp p ->
  gets (ret p) [] (fun p' p0 => p' = p0 /\ seen rev sp p0).
Proof. intros Ht Hs s rest Hg Hp. exists p, p, (Ok tt), s. by rewrite Ht. Qed.

(** A computation that starts by asking for the revision. *)
Lemma gets_revision {A} (k : Z -> M Impl A) bs P : gets (k rev) bs P -> gets (let* r := revision in k r) bs P.
Proof.
  intros Hk s rest Hg Hp. pose proof Hg as (_ & _ & _ & Hrv & _). destruct (Hk s rest Hg Hp) as (a & p & r & s' & HP & E & Hrest).
  exists a, p, r, s'. split; [done|]. split; [|done]. unfold bind, revision. by rewrite Hrv.
Qed.

Abbreviation Body := (ReceiveBody lz4 zstd std_hash map_bool opts).

Lemma gets_body p code bs : wire lz4 zstd map_bool rev compression p code bs ->
  is_u 64 code /\ gets (Body code) bs (fun p' p0 => p' = p0 /\ seen rev p p0).
Proof.
  intros [name b cs Hn Hb Hpay|pr Hp|pr Hp| | |tag b Ht Hb|t d Ht Hd|tag b Ht Hb]; (split; [done|]).
  - eapply gets_weaken; [eapply (gets_require (ReceiveData lz4 zstd std_hash map_bool) PBlock _ (fun b' => same_block rev b b'))|].
    + intros s rest Hg Hp. pose proof Hg as (_ & _ & _ & Hrv & Hcm). unfold ReceiveData, bind at 1, get at 1. rewrite Hrv, Hcm.
      eapply gets_received; [by apply reads_data|apply shows_data|done|done].
    + intros ? ? (-> & b' & Hs & ->). split; [done|by constructor].
  - change (Body ServerCodes.ProfileInfo) with (let* x := require ReceiveProfileInfo in ret (PProfile x) : M Impl DecodedPacket).
    eapply (gets_packet ReceiveProfileInfo PProfile _ pr); [|constructor].
    apply (gets_simple ReadProfile (fun p q => OnProfile q p)); [by apply reads_profile|done].
  - change (Body ServerCodes.Progress) with (let* x := require ReceiveProgress in ret (PProgress x) : M Impl DecodedPacket).
    eapply (gets_packet ReceiveProgress PProgress _ pr); [|constructor]. apply gets_revision.
    apply (gets_simple (ReadProgress rev) (fun p q => OnProgress q p)); [by apply reads_progress|done].
  - change (Body ServerCodes.Pong) with (ret PPong : M Impl DecodedPacket). apply gets_ret; [by intros []|constructor].
  - change (Body ServerCodes.Hello) with (ret PHello : M Impl DecodedPacket). apply gets_ret; [by intros []|constructor].
  - destruct (reads_plain_block tag b Ht Hb) as (b' & Hs & Hr).
    change (Body ServerCodes.Log) with (let* x := require (ReceiveLog std_hash map_bool) in ret (PLog x) : M Impl DecodedPacket).
    eapply (gets_packet (ReceiveLog std_hash map_bool) PLog _ b'); [|by constructor]. apply gets_revision.
    by apply (gets_simple (ReadPlainBlock std_hash map_bool rev) (fun b q => OnServerLog q b)).
  - intros s rest Hg Hp. assert (reads ReadTableColumns (string_bytes t ++ string_bytes d) (Some tt)) as Hr
      by (eapply reads_obind; by apply reads_skip_string).
    destruct (on_input_reads _ _ _ _ _ Hr Hg Hp) as (s' & E & Hg' & Hp' & Hv & Hs). exists PTableColumns, PTableColumns, (Ok tt), s'.
    split_and!; [done|constructor| |by rewrite Hv; destruct (current_events s)|done|done|done].
    change (Body ServerCodes.TableColumns) with (require (ReceiveTableColumns) ;;; ret PTableColumns : M Impl DecodedPacket).
    unfold require, ReceiveTableColumns, bind. by rewrite E.
  - destruct (reads_plain_block tag b Ht Hb) as (b' & Hs & Hr).
    change (Body ServerCodes.ProfileEvents) with (let* x := require (ReceiveProfileEvents std_hash map_bool) in ret (PProfileEvents x) : M Impl DecodedPacket).
    eapply (gets_packet (ReceiveProfileEvents std_hash map_bool) PProfileEvents _ b'); [|by constructor]. apply gets_revision.
    by apply (gets_simple (ReadPlainBlock std_hash map_bool rev) (fun b q => OnProfileEvents q b)).
Qed.

Abbreviation Packet := (ReceivePacket lz4 zstd std_hash map_bool opts).

Lemma packet_code code bs (s : Impl) : is_u 64 code -> conn_good s -> in_pending s = varint_bytes code ++ bs ->
  exists s1, Packet s = (let* p := Body code in ret (code, p)) s1 /\ conn_good s1 /\ in_pending s1 = bs /\ view_of s1 = view_of s /\ same_rest s s1.
Proof.
  intros Hc Hg Hp. destruct (on_input_reads _ _ _ _ _ (reads_uint code Hc) Hg Hp) as (s1 & E & Hs1). exists s1. split; [|done].
  unfold ReceivePacket, require, bind at 1 2. change ReadVarint64 with (ReadUInt64 (I := Input)). by rewrite E.
Qed.

(** A packet of the server is received, decoded and shown. *)
Lemma receive_packet p code bs rest (s : Impl) : wire lz4 zstd map_bool rev compression p code bs -> conn_good s ->
  in_pending s = varint_bytes code ++ bs ++ rest ->
  exists p' r s', seen rev p p' /\ Packet s = (match r with Ok _ => Ok (code, p') | Throw e => Throw e end, s') /\
    tell (current_events s) p' (view_of s) = (r, view_of s') /\ conn_good s' /\ in_pending s' = rest /\ same_rest s s'.
Proof.
  intros Hw Hg Hp. destruct (gets_body p code bs Hw) as [Hc Hb].
  destruct (packet_code code _ s Hc Hg Hp) as (s1 & E1 & Hg1 & Hp1 & Hv1 & Hs1).
  destruct (Hb s1 rest Hg1 Hp1) as (p' & ? & r & s2 & [<- Hseen] & E2 & Ht & Hg2 & Hp2 & Hs2).
  rewrite (same_rest_events _ _ Hs1), Hv1 in Ht. exists p', r, s2.
  split_and!; [done| |done|done|done|by etransitivity]. rewrite E1. unfold bind. rewrite E2. by destruct r.
Qed.

(** The end of a response is received. *)
Lemma receive_end (s : Impl) rest : conn_good s -> in_pending s = varint_bytes ServerCodes.EndOfStream ++ rest ->
  exists s', Packet s = (Ok (ServerCodes.EndOfStream, PEndOfStream), s') /\ conn_good s' /\ in_pending s' = rest /\
    view_of s' = view_of s /\ same_rest s s'.
Proof.
  intros Hg Hp. destruct (packet_code ServerCodes.EndOfStream _ s ltac:(done) Hg Hp) as (s1 & E1 & Hg1 & Hp1 & Hv1 & Hs1).
  exists s1. split; [|done]. rewrite E1.
  change (Body ServerCodes.EndOfStream) with (on_events OnFinish ;;; ret PEndOfStream : M Impl DecodedPacket).
  unfold bind, on_events, bind, get. destruct (current_events s1); [|done]. unfold on_world, zoom, OnFinish, ret. by destruct s1.
Qed.

Lemma receive_exception e (s : Impl) rest : exception_ok e -> conn_good s ->
  in_pending s = varint_bytes ServerCodes.Exception ++ exception_bytes e ++ rest ->
  exists r s', Packet s = (match r with
      | Ok _ => if rethrow_exceptions opts then Throw (ServerException e) else Ok (ServerCodes.Exception, PServerException e)
      | Throw x => Throw x end, s') /\
    tell (current_events s) (PServerException e) (view_of s) = (r, view_of s') /\ conn_good s' /\ in_pending s' = rest /\ same_rest s s'.
Proof.
  intros He Hg Hp. destruct (packet_code ServerCodes.Exception _ s ltac:(done) Hg Hp) as (s1 & E1 & Hg1 & Hp1 & Hv1 & Hs1).
  destruct (gets_simple ReadException (fun e q => OnServerException q e) PServerException _ e (reads_exception e He) ltac:(done) s1 rest Hg1 Hp1)
    as (? & ? & r & s2 & (? & -> & <- & ->) & E2 & Ht & Hg2 & Hp2 & Hs2).
  rewrite (same_rest_events _ _ Hs1), Hv1 in Ht. exists r, s2. split_and!; [|done|done|done|by etransitivity]. rewrite E1.
  change (Body ServerCodes.Exception) with (let* e := require ReceiveException in
    if rethrow_exceptions opts then throw (ServerException e) else ret (PServerException e) : M Impl DecodedPacket).
  unfold bind, require, bind, ReceiveException. rewrite E2. destruct r; [|done]. by destruct (rethrow_exceptions opts).
Qed.

(** *** Responses *)

Abbreviation Delivers := (delivers rev (rethrow_exceptions opts)).
Abbreviation Response := (response lz4 zstd map_bool rev compression).
Abbreviation NextStep := (NextBlock_step lz4 zstd std_hash map_bool opts).

Definition reset (s : Impl) : Impl := set_events NoEvents (set_cl_query Query_empty (set_state Idle s)).

(** How one [NextBlock] may go: a block is returned and the rest of the response is still
    to come; the response is over; or an exception leaves. *)
Inductive next_outcome (s : Impl) (ps : list server_packet) (e : ending) (rest : bytes) : result (option Block) -> Impl -> Prop :=
| next_block b ps2 bs2 s' : Response ps2 e bs2 -> in_pending s' = bs2 ++ rest -> (length ps2 < length ps)%nat ->
    conn_good s' -> same_rest s s' ->
    (forall r v, Delivers (current_events s) ps2 e (view_of s') r v -> Delivers (current_events s) ps e (view_of s) r v) ->
    next_outcome s ps e rest (Ok (Some b)) s'
| next_end s' : Delivers (current_events s) ps e (view_of s) (Ok tt) (view_of s') -> conn_good s' -> in_pending s' = rest ->
    ctl s' = (Idle, NoEvents) -> next_outcome s ps e rest (Ok None) s'
| next_throw x s' : Delivers (current_events s) ps e (view_of s) (Throw x) (view_of s') -> conn_good s' ->
    next_outcome s ps e rest (Throw x) s'.

Lemma next_outcome_step s p p' ps e rest s1 r s' : seen rev p p' -> tell (current_events s) p' (view_of s) = (Ok tt, view_of s1) ->
  same_rest s s1 -> next_outcome s1 ps e rest r s' -> next_outcome s (p :: ps) e rest r s'.
Proof.
  intros Hseen Ht Hs. pose proof (same_rest_events _ _ Hs) as Hev. intros [b ps2 bs2 s2 Hr Hp Hl Hg Hs2 Hd|s2 Hd Hg Hp Hc|x s2 Hd Hg]; rewrite Hev in Hd.
  - econstructor; [exact Hr|done|cbn; lia|done|by etransitivity|]. intros r0 v Hv. econstructor; [done|done|auto].
  - constructor; try done. by econstructor.
  - constructor; try done. by econstructor.
Qed.

Lemma next_loop ps e bs : Response ps e bs -> forall s rest, conn_good s -> in_pending s = bs ++ rest ->
  exists n r s', loops NextStep tt s n r s' /\ (n <= S (length ps))%nat /\ next_outcome s ps e rest r s'.
Proof.
  induction 1 as [|ex He|p code cs ps e bs Hw Hr IH]; intros s rest Hg Hp.
  - destruct (receive_end s rest Hg Hp) as (s1 & E & Hg1 & Hp1 & Hv & Hs). exists 1%nat, (Ok None), (reset s1). split; [|split; [done|]].
    + apply loops_exit. unfold NextBlock_step, bind. by rewrite E.
    + constructor; try done. change (view_of (reset s1)) with (view_of s1). rewrite Hv. constructor.
  - rewrite <- app_assoc in Hp. destruct (receive_exception ex s rest He Hg Hp) as (r & s1 & E & Ht & Hg1 & Hp1 & Hs). exists 1%nat.
    assert (NextStep tt s = match r with Ok _ => if rethrow_exceptions opts then (Throw (ServerException ex), s1) else (Ok (inr None), reset s1) | Throw x => (Throw x, s1) end) as Es.
    { unfold NextBlock_step, bind. rewrite E. destruct r; [|done]. by destruct (rethrow_exceptions opts). }
    destruct r as [[]|x].
    + pose proof (delivers_exception rev (rethrow_exceptions opts) _ _ _ _ Ht) as Hd. destruct (rethrow_exceptions opts) eqn:Er.
      * exists (Throw (ServerException ex)), s1. split; [by apply loops_throw|split; [done|]]. constructor; [by rewrite Er|done].
      * exists (Ok None), (reset s1). split; [by apply loops_exit|split; [done|]]. constructor; try done. by rewrite Er.
    + exists (Throw x), s1. split; [by apply loops_throw|split; [done|]]. constructor; [by econstructor|done].
  - rewrite <- !app_assoc in Hp. destruct (receive_packet p code cs _ s Hw Hg Hp) as (p' & r & s1 & Hseen & E & Ht & Hg1 & Hp1 & Hs).
    destruct r as [[]|x].
    + destruct (IH s1 rest Hg1 Hp1) as (n & r & s' & Hl & Hn & Ho). pose proof (next_outcome_step _ _ _ _ _ _ _ _ _ Hseen Ht Hs Ho) as Ho'.
      assert (NextStep tt s = match p' with
        | PBlock b => if GetColumnCount b =? 0 then (Ok (inl tt), s1) else (Ok (inr (Some b)), s1)
        | PServerException _ | PEndOfStream => (Ok (inr None), reset s1) | _ => (Ok (inl tt), s1) end) as Es.
      { unfold NextBlock_step, bind. rewrite E. destruct p'; try done. by destruct (GetColumnCount block =? 0). }
      destruct Hseen as [nm b b' Hb| | | | | | |]; try (exists (S n), r, s'; split_and!; [by eapply loops_next|cbn; lia|exact Ho']).
      destruct (GetColumnCount b' =? 0); [exists (S n), r, s'; split_and!; [by eapply loops_next|cbn; lia|exact Ho']|].
      exists 1%nat, (Ok (Some b')), s1. split_and!; [by apply loops_exit|cbn; lia|]. econstructor; [exact Hr|done|cbn; lia|done|done|].
      intros r0 v Hv. econstructor; [by apply seen_data|done|done].
    + exists 1%nat, (Throw x), s1. split_and!; [apply loops_throw; unfold NextBlock_step, bind; by rewrite E|cbn; lia|].
      constructor; [by econstructor|done].
Qed.

Abbreviation Next_ := (NextBlock lz4 zstd std_hash map_bool opts fuel).

Lemma reset_good s : conn_good s -> conn_good (reset s).
Proof. done. Qed.

Lemma next_block_ok ps e bs s rest : Response ps e bs -> conn_good s -> state_ s = Selecting -> in_pending s = bs ++ rest ->
  (length ps < Pos.to_nat fuel)%nat -> exists r s', Next_ s = (r, s') /\ next_outcome s ps e rest r s'.
Proof.
  intros Hr Hg Hst Hp Hf. destruct (next_loop ps e bs Hr s rest Hg Hp) as (n & r & s' & Hl & Hn & Ho).
  unfold NextBlock. rewrite guard_passed by done. unfold on_exception, try_catch. rewrite (loops_while _ fuel _ _ _ _ _ Hl) by lia.
  destruct Ho as [b ps2 bs2 s' Hr2 Hp2 Hl2 Hg2 Hs2 Hd|s' Hd Hg2 Hp2 Hc|x s' Hd Hg2].
  - do 2 eexists. split; [done|by econstructor].
  - do 2 eexists. split; [done|by constructor].
  - assert (next_outcome s ps e rest (Throw x) s' /\ next_outcome s ps e rest (Throw x) (reset s')) as [H1' H2'] by (split; by constructor).
    destruct x; do 2 eexists; (split; [done|]); assumption.
Qed.

Lemma drain_ok ps e bs s rest : Response ps e bs -> conn_good s -> ctl s = (Selecting, MemberQuery) -> in_pending s = bs ++ rest ->
  (length ps < Pos.to_nat fuel)%nat ->
  exists r s', drain lz4 zstd std_hash map_bool opts fuel s = (r, s') /\ Delivers (current_events s) ps e (view_of s) r (view_of s') /\
    conn_good s' /\ (defined r -> ctl s' = (Idle, NoEvents)) /\ (r = Ok tt -> in_pending s' = rest).
Proof.
  intros Hr Hg Hc Hp Hf.
  set (body := (fun _ => let* b := Next_ in ret (match b with Some _ => inl tt | None => inr tt end)) : unit -> M Impl (unit + unit)).
  enough (exists n r s', loops body tt s n r s' /\ (n <= S (length ps))%nat /\ Delivers (current_events s) ps e (view_of s) r (view_of s') /\
    conn_good s' /\ (defined r -> ctl s' = (Idle, NoEvents)) /\ (r = Ok tt -> in_pending s' = rest)) as (n & r & s' & Hl & Hn & Hrest).
  { exists r, s'. split; [|done]. apply (loops_while body fuel _ _ _ _ _ Hl). lia. }
  remember (length ps) as k eqn:Hk. revert ps bs s Hr Hg Hc Hp Hf Hk. induction k as [k IH] using lt_wf_ind. intros ps bs s Hr Hg Hc Hp Hf ->.
  destruct (next_block_ok ps e bs s rest Hr Hg (proj1 (ctl_state _ _ _ Hc)) Hp Hf) as (r & s' & E & Ho).
  pose proof (wp_run _ _ _ _ _ E (wp_NextBlock lz4 zstd std_hash map_bool opts fuel s MemberQuery Hc)) as Hctl.
  destruct Ho as [b ps2 bs2 s' Hr2 Hp2 Hl2 Hg2 Hs2 Hd|s' Hd Hg2 Hp2 Hc2|x s' Hd Hg2].
  - specialize (Hctl (defined_ok _)). cbn in Hctl. destruct (IH _ Hl2 ps2 bs2 s' Hr2 Hg2 Hctl Hp2 ltac:(lia) eq_refl) as (n & r & s2 & Hl & Hn & Hdl & Hrest).
    exists (S n), r, s2. split_and!; [|lia|apply Hd; by rewrite <- (same_rest_events _ _ Hs2)|tauto..].
    eapply loops_next; [unfold body, bind; by rewrite E|done].
  - exists 1%nat, (Ok tt), s'. split_and!; [apply loops_exit; unfold body, bind; by rewrite E|lia|done..].
  - exists 1%nat, (Throw x), s'. split_and!; [apply loops_throw; unfold body, bind; by rewrite E|lia|done|done| |done].
    intros Hdef. exact (Hctl (defined_throw _ Hdef)).
Qed.

(** *** Sending *)

Context (max_in : Z).
Hypothesis codec : compression = true ->
  method_ok lz4 zstd (compression_method opts) max_in /\ 0 < max_compression_chunk_size opts <= max_in.

(** The bytes of a data packet. *)
Definition data_sent (b : Block) (bs : bytes) : Prop :=
  exists pl, bs = data_header_bytes rev ++ pl /\ payload lz4 zstd rev compression b pl.

(** [sends m P]: [m] sends bytes that satisfy [P], and that is all it does. *)
Definition sends (m : M Impl unit) (P : bytes -> Prop) : Prop :=
  forall s, conn_good s -> exists bs s', m s = (Ok tt, s') /\ P bs /\ conn_good s' /\ in_pending s' = in_pending s /\
    view_of s' = (world s, out_accepted s ++ bs) /\ same_rest s s'.

Lemma sends_output (m : M (BufferedOutput SO) unit) bs : writes m bs tt -> sends (on_output m) (eq bs).
Proof. intros Hm s Hg. destruct (on_output_writes _ _ _ s Hm Hg) as (s' & E & Hs'). by exists bs, s'. Qed.

Lemma sends_bind (m k : M Impl unit) P Q : sends m P -> sends k Q -> sends (m ;;; k) (fun bs => exists b1 b2, bs = b1 ++ b2 /\ P b1 /\ Q b2).
Proof.
  intros Hm Hk s Hg. destruct (Hm s Hg) as (b1 & s1 & E1 & HP & Hg1 & Hp1 & Hv1 & Hs1).
  destruct (Hk s1 Hg1) as (b2 & s2 & E2 & HQ & Hg2 & Hp2 & Hv2 & Hs2). exists (b1 ++ b2), s2. unfold bind. rewrite E1, E2.
  injection Hv1 as Hw Ha. rewrite Hw, Ha in Hv2. split_and!; [done|by exists b1, b2|done|congruence|by rewrite Hv2, app_assoc|by etransitivity].
Qed.

Lemma sends_weaken (m : M Impl unit) (P Q : bytes -> Prop) : sends m P -> (forall bs, P bs -> Q bs) -> sends m Q.
Proof. intros Hm HPQ s Hg. destruct (Hm s Hg) as (bs & s' & E & HP & Hs'). exists bs, s'. auto. Qed.

Lemma sends_payload (b : Block) : block_sendable map_bool b -> sends (SendBlockData_ lz4 zstd opts b) (payload lz4 zstd rev compression b).
Proof.
  intros Hb s Hg. pose proof Hg as ((i & Ei & Hi) & (o & Eo & Ho) & Hc & Hrv & Hcm).
  assert (exists bs o', SendBlockData lz4 zstd compression (compression_method opts) (max_compression_chunk_size opts) rev b o = (Ok tt, o') /\
    accepted o' = accepted o ++ bs /\ out_good o' /\ payload lz4 zstd rev compression b bs) as (bs & o' & E & Ha & Ho' & Hpl).
  { unfold payload. destruct compression.
    - destruct (codec eq_refl) as [Hm Hch].
      destruct (send_compressed map_bool lz4 zstd rev (compression_method opts) max_in (max_compression_chunk_size opts) b o Hm Hch Hb Ho) as (F & o' & Hx).
      by exists F, o'.
    - destruct (writes_WriteBlock map_bool rev b Hb o Ho) as (o' & Hx & Hy & Hz). by exists (block_bytes rev b), o'. }
  exists bs, (set_output (Some o') s). split_and!; try done.
  - unfold SendBlockData_, bind, get. rewrite Hcm, Hrv. unfold on_output. by rewrite Eo, E.
  - split_and!; [by exists i|by exists o'|done..].
  - change (view_of (set_output (Some o') s)) with (world s, accepted o'). unfold out_accepted. by rewrite Eo, Ha.
Qed.

Lemma sends_flush : sends (on_output Flush) (eq []).
Proof. apply sends_output, writes_flush. Qed.

Lemma sends_data (b : Block) : block_sendable map_bool b -> sends (SendData lz4 zstd opts b) (data_sent b).
Proof.
  intros Hb s Hg. pose proof Hg as (_ & _ & _ & Hrv & _).
  destruct (sends_bind _ _ _ _ (sends_output _ _ (writes_data_header rev)) (sends_bind _ _ _ _ (sends_payload b Hb) sends_flush) s Hg)
    as (bs & s' & E & (h & pf & -> & <- & pl & ? & -> & Hpl & <-) & Hs').
  exists (data_header_bytes rev ++ pl ++ []), s'. split; [|split; [exists pl; by rewrite app_nil_r|exact Hs']].
  rewrite <- E. unfold SendData, bind at 1, revision. by rewrite Hrv.
Qed.

Lemma empty_sendable : block_sendable map_bool Block_new.
Proof. by split_and!. Qed.

Lemma sends_query (q : Query (World W)) : query_supported rev q ->
  sends (SendQuery lz4 zstd opts q true) (fun bs => exists d, bs = query_bytes rev compression q ++ d /\ data_sent Block_new d).
Proof.
  intros Hq s Hg. pose proof Hg as (_ & _ & _ & Hrv & Hcm).
  destruct (sends_bind _ _ _ _ (sends_output _ _ (writes_WriteQuery rev compression q Hq))
    (sends_bind _ _ _ _ (sends_data Block_new empty_sendable) sends_flush) s Hg)
    as (bs & s' & E & (h & pf & -> & <- & d & ? & -> & Hd & <-) & Hs').
  exists (query_bytes rev compression q ++ d ++ []), s'. split; [|split; [exists d; by rewrite app_nil_r|exact Hs']].
  rewrite <- E. unfold SendQuery, bind at 1, get. by rewrite Hrv, Hcm.
Qed.

Lemma execute_ok (q : Query (World W)) ps e bs s rest : query_supported rev q -> Response ps e bs -> conn_good s -> state_ s = Idle ->
  ping_before_query opts = false -> in_pending s = bs ++ rest -> (length ps < Pos.to_nat fuel)%nat ->
  exists sent r s', ExecuteQuery lz4 zstd std_hash map_bool opts fuel q s = (r, s') /\ data_sent Block_new sent /\
    Delivers (Some q) ps e (world s, out_accepted s ++ query_bytes rev compression q ++ sent) r (view_of s') /\
    (defined r -> state_ s' = Idle /\ events_ s' = NoEvents) /\ (r = Ok tt -> in_pending s' = rest) /\ conn_good s'.
Proof.
  intros Hq Hr Hg Hst Hping Hp Hf. set (s0 := set_state Selecting (set_events MemberQuery (set_cl_query q s))).
  destruct (sends_query q Hq s0 Hg) as (bs0 & s1 & E1 & (d & -> & Hd) & Hg1 & Hp1 & Hv1 & Hs1).
  pose proof (same_rest_events _ _ Hs1) as Hev. change (current_events s0) with (Some q) in Hev.
  assert (ctl s1 = (Selecting, MemberQuery)) as Hc1 by (destruct Hs1 as (_ & _ & H5' & _ & _ & _ & _ & H6' & _); unfold ctl; by rewrite H5', H6').
  destruct (drain_ok ps e bs s1 rest Hr Hg1 Hc1 ltac:(by rewrite Hp1) Hf) as (r & s' & E2 & Hdl & Hg2 & Hctl & Hrest).
  exists d, r, s'. rewrite Hev, Hv1 in Hdl. split_and!; [|done|exact Hdl| |done|done].
  - unfold ExecuteQuery, BeginExecuteQuery. unfold bind at 1. rewrite guard_passed by done. unfold ping_first. rewrite Hping. cbn [when].
    unfold bind at 1 2, ret, modify. fold s0. unfold on_exception, try_catch, bind, get. change (cl_query s0) with q. by rewrite E1.
  - intros Hdf. specialize (Hctl Hdf). by apply ctl_state in Hctl.
Qed.

(** *** Inserts *)

Abbreviation Process := (ProcessPacket lz4 zstd std_hash map_bool opts).

Definition is_data (p : server_packet) : bool := match p with SData _ _ => true | _ => false end.

(** Packets that are not data, and their bytes. *)
Inductive preamble : list server_packet -> bytes -> Prop :=
| preamble_nil : preamble [] []
| preamble_cons p code bs ps rest : wire lz4 zstd map_bool rev compression p code bs -> is_data p = false -> preamble ps rest ->
    preamble (p :: ps) (varint_bytes code ++ bs ++ rest).

(** Events that nothing but data is shown to. *)
Definition quiet (q : option (Query (World W))) : Prop :=
  forall p p' v, seen rev p p' -> is_data p = false -> tell q p' v = (Ok tt, v).

Lemma process_packet p code bs rest (s : Impl) : wire lz4 zstd map_bool rev compression p code bs -> conn_good s ->
  in_pending s = varint_bytes code ++ bs ++ rest ->
  exists p' r s', seen rev p p' /\ Process s = (match r with Ok _ => Ok (true, code) | Throw e => Throw e end, s') /\
    tell (current_events s) p' (view_of s) = (r, view_of s') /\ conn_good s' /\ in_pending s' = rest /\ same_rest s s'.
Proof.
  intros Hw Hg Hp. destruct (receive_packet p code bs rest s Hw Hg Hp) as (p' & r & s' & Hseen & E & Hrest). exists p', r, s'.
  split; [done|]. split; [|done]. unfold ProcessPacket, bind. rewrite E. destruct r; [|done]. by destruct Hseen.
Qed.

Lemma wire_code p code bs : wire lz4 zstd map_bool rev compression p code bs -> (code =? ServerCodes.Data) = is_data p.
Proof. by intros []. Qed.

(** The wait for the data packet. *)
Lemma wait_data ps bs name b cs : preamble ps bs -> wire lz4 zstd map_bool rev compression (SData name b) ServerCodes.Data cs ->
  forall s rest v', conn_good s -> quiet (current_events s) ->
  (forall b', same_block rev b b' -> tell (current_events s) (PBlock b') (view_of s) = (Ok tt, v' b')) ->
  in_pending s = bs ++ varint_bytes ServerCodes.Data ++ cs ++ rest ->
  exists n b' s', loops (WaitData_step lz4 zstd std_hash map_bool opts) tt s n (Ok true) s' /\ (n <= S (length ps))%nat /\ same_block rev b b' /\
    conn_good s' /\ in_pending s' = rest /\ view_of s' = v' b' /\ same_rest s s'.
Proof.
  intros Hpre Hw. induction Hpre as [|p code ds ps bs Hwp Hd Hpre IH]; intros s rest v' Hg Hq Ht Hp.
  - destruct (process_packet _ _ _ _ _ Hw Hg Hp) as (p' & r & s1 & Hseen & E & Htell & Hg1 & Hp1 & Hs1).
    inversion Hseen as [? ? b' Hb| | | | | | |]; subst. rewrite (Ht b' Hb) in Htell. apply pair_eq in Htell as [<- Hv].
    exists 1%nat, b', s1. split_and!; try done. apply loops_exit. unfold WaitData_step, bind. by rewrite E.
  - rewrite <- !app_assoc in Hp. destruct (process_packet _ _ _ _ _ Hwp Hg Hp) as (p' & r & s1 & Hseen & E & Htell & Hg1 & Hp1 & Hs1).
    rewrite (Hq p p' _ Hseen Hd) in Htell. apply pair_eq in Htell as [<- Hv]. pose proof (same_rest_events _ _ Hs1) as Hev.
    destruct (IH s1 rest v' Hg1) as (n & b' & s' & Hl & Hn & Hb & Hg' & Hp' & Hv' & Hs').
    { by rewrite Hev. }
    { rewrite Hev, <- Hv. exact Ht. }
    { done. }
    exists (S n), b', s'. split_and!; [|cbn; lia|done..|by etransitivity]. eapply loops_next; [|exact Hl].
    unfold WaitData_step, bind. rewrite E. unfold ret. by rewrite (wire_code _ _ _ Hwp), Hd.
Qed.

(** The outcome of an insert whose response ends with [e]. *)
Definition ended (e : ending) : result unit :=
  match e with
  | SEnd => Ok tt
  | SException x => if rethrow_exceptions opts then Throw (ServerException x) else Ok tt
  end.

Lemma end_loop ps e bs : Response ps e bs -> forall s rest z, conn_good s -> current_events s = None -> in_pending s = bs ++ rest ->
  exists n s', loops (EndInsert_step lz4 zstd std_hash map_bool opts) z s n
      (match ended e with Ok _ => Ok (match e with SEnd => ServerCodes.EndOfStream | SException _ => ServerCodes.Exception end) | Throw x => Throw x end) s' /\
    (n <= S (length ps))%nat /\ conn_good s' /\ in_pending s' = rest /\ view_of s' = view_of s /\ same_rest s s'.
Proof.
  induction 1 as [|ex He|p code cs ps e bs Hw Hr IH]; intros s rest z Hg Hev Hp.
  - destruct (receive_end s rest Hg Hp) as (s1 & E & Hs). exists 1%nat, s1. split; [|by split]. apply loops_exit.
    unfold EndInsert_step, ProcessPacket, bind. by rewrite E.
  - rewrite <- app_assoc in Hp. destruct (receive_exception ex s rest He Hg Hp) as (r & s1 & E & Ht & Hg1 & Hp1 & Hs).
    rewrite Hev in Ht. apply pair_eq in Ht as [<- Hv]. exists 1%nat, s1. split; [|by split_and!]. cbn [ended]. destruct (rethrow_exceptions opts).
    + apply loops_throw. unfold EndInsert_step, ProcessPacket, bind. by rewrite E.
    + apply loops_exit. unfold EndInsert_step, ProcessPacket, bind. by rewrite E.
  - rewrite <- !app_assoc in Hp. destruct (process_packet _ _ _ _ _ Hw Hg Hp) as (p' & r & s1 & Hseen & E & Ht & Hg1 & Hp1 & Hs1).
    rewrite Hev in Ht. apply pair_eq in Ht as [<- Hv].
    destruct (IH s1 rest code Hg1 ltac:(by rewrite (same_rest_events _ _ Hs1)) Hp1) as (n & s' & Hl & Hn & Hg' & Hp' & Hv' & Hs').
    exists (S n), s'. split_and!; [|cbn; lia|done|done|congruence|by etransitivity]. eapply loops_next; [|exact Hl].
    unfold EndInsert_step, bind. by rewrite E.
Qed.

Lemma end_insert_ok ps e bs s rest : Response ps e bs -> conn_good s -> current_events s = None -> state_ s = Inserting ->
  in_pending s = bs ++ rest -> (length ps < Pos.to_nat fuel)%nat ->
  exists sent s', EndInsert lz4 zstd std_hash map_bool opts fuel s = (ended e, s') /\ data_sent Block_new sent /\
    view_of s' = (world s, out_accepted s ++ sent) /\ in_pending s' = rest /\ conn_good s' /\
    state_ s' = (match ended e with Ok _ => Idle | Throw _ => Inserting end) /\ events_ s' = events_ s.
Proof.
  intros Hr Hg Hev Hst Hp Hf. destruct (sends_data Block_new empty_sendable s Hg) as (sent & s1 & E1 & Hd & Hg1 & Hp1 & Hv1 & Hs1).
  destruct (end_loop ps e bs Hr s1 rest 0 Hg1 ltac:(by rewrite (same_rest_events _ _ Hs1)) ltac:(by rewrite Hp1)) as (n & s2 & Hl & Hn & Hg2 & Hp2 & Hv2 & Hs2).
  exists sent. assert (same_rest s s2) as (_ & _ & He2 & _ & _ & _ & _ & Hst2 & _) by (by etransitivity).
  assert (EndInsert lz4 zstd std_hash map_bool opts fuel s = match ended e with Ok _ => (Ok tt, set_state Idle s2) | Throw x => (Throw x, s2) end) as Ee.
  { unfold EndInsert, bind at 1, is_state. rewrite bool_decide_true by done. cbn [negb]. unfold bind at 1. rewrite E1.
    unfold bind. rewrite (loops_while _ fuel _ _ _ _ _ Hl) by lia. destruct e; cbn [ended]; [done|]. by destruct (rethrow_exceptions opts). }
  rewrite Ee. destruct (ended e) as [[]|x].
  - eexists. split; [done|]. split_and!; try done. by rewrite <- Hv1, <- Hv2.
  - exists s2. split_and!; try done; congruence.
Qed.

(** What [Insert] sends before it waits, given the text of the query. *)
Lemma insert_ok (t id text : bytes) (b : Block) pre bs name header cs ps e es s rest :
  insert_text t b = Ok text -> block_sendable map_bool b -> conn_good s -> state_ s = Idle -> events_ s = NoEvents ->
  ping_before_query opts = false -> preamble pre bs -> wire lz4 zstd map_bool rev compression (SData name header) ServerCodes.Data cs ->
  Response ps e es -> in_pending s = bs ++ varint_bytes ServerCodes.Data ++ cs ++ es ++ rest ->
  (length pre < Pos.to_nat fuel)%nat -> (length ps < Pos.to_nat fuel)%nat ->
  exists d1 d2 d3 s', Insert lz4 zstd std_hash map_bool opts fuel t id b s = (ended e, s') /\
    data_sent Block_new d1 /\ data_sent b d2 /\ data_sent Block_new d3 /\
    view_of s' = (world s, out_accepted s ++ query_bytes rev compression (Query_new (W := World W) text id) ++ d1 ++ d2 ++ d3) /\
    in_pending s' = rest /\ conn_good s' /\ state_ s' = (match ended e with Ok _ => Idle | Throw _ => Inserting end) /\ events_ s' = NoEvents.
Proof.
  intros Ht Hb Hg Hst Hev Hping Hpre Hw Hr Hp Hf1 Hf2. set (s0 := set_state Inserting s).
  destruct (sends_query (Query_new text id) ltac:(split; by right) s0 Hg) as (bs0 & s1 & E1 & (d1 & -> & Hd1) & Hg1 & Hp1 & Hv1 & Hs1).
  assert (events_ s1 = NoEvents /\ state_ s1 = Inserting) as [Hev1 Hst1] by (destruct Hs1 as (_ & _ & -> & _ & _ & _ & _ & -> & _); done).
  assert (current_events s1 = None) as Hce by (unfold current_events; by rewrite Hev1).
  destruct (wait_data pre bs name header cs Hpre Hw s1 (es ++ rest) (fun _ => view_of s1) Hg1) as (n & h' & s2 & Hl & Hn & _ & Hg2 & Hp2 & Hv2 & Hs2).
  { rewrite Hce. by intros p p' v _ _. }
  { by rewrite Hce. }
  { by rewrite Hp1. }
  destruct (sends_data b Hb s2 Hg2) as (d2 & s3 & E3 & Hd2 & Hg3 & Hp3 & Hv3 & Hs3).
  assert (same_rest s1 s3) as Hs13 by (by etransitivity). pose proof Hs13 as (_ & _ & He3 & _ & _ & _ & _ & Hst3 & _).
  destruct (end_insert_ok ps e es s3 rest Hr Hg3 ltac:(by rewrite (same_rest_events _ _ Hs13)) ltac:(congruence) ltac:(by rewrite Hp3) Hf2)
    as (d3 & s4 & E4 & Hd3 & Hv4 & Hp4 & Hg4 & Hst4 & Hev4).
  exists d1, d2, d3, s4. split_and!; try done; [| |congruence].
  - unfold Insert, bind at 1, is_state at 1. rewrite bool_decide_false by (by rewrite Hst). rewrite guard_passed by done.
    unfold ping_first. rewrite Hping. cbn [when]. unfold bind at 1 2 3, ret, modify. fold s0. rewrite Ht. unfold lift_result.
    unfold bind. rewrite E1, (loops_while _ fuel _ _ _ _ _ Hl) by lia. by rewrite E3.
  - rewrite Hv4. apply view_inv in Hv3 as [Hw3 Ha3]. apply view_inv in Hv2 as [Hw2 Ha2]. apply view_inv in Hv1 as [Hw1 Ha1].
    rewrite Hw3, Ha3, Hw2, Ha2, Hw1, Ha1. change (world s0) with (world s). change (out_accepted s0) with (out_accepted s). by rewrite <- !app_assoc.
Qed.

(** [BeginInsert] returns the block of the server. *)
Lemma begin_insert_ok (q : Query (World W)) pre bs name header cs s rest :
  HasEventCallbacks q = false -> query_supported rev q -> conn_good s -> state_ s = Idle ->
  ping_before_query opts = false -> preamble pre bs -> wire lz4 zstd map_bool rev compression (SData name header) ServerCodes.Data cs ->
  in_pending s = bs ++ varint_bytes ServerCodes.Data ++ cs ++ rest -> (length pre < Pos.to_nat fuel)%nat ->
  exists d b' s', BeginInsert lz4 zstd std_hash map_bool opts fuel q s = (Ok b', s') /\ same_block rev header b' /\ data_sent Block_new d /\
    view_of s' = (mkWorld (app (world s)) b', out_accepted s ++ query_bytes rev compression q ++ d) /\
    in_pending s' = rest /\ conn_good s' /\ state_ s' = Inserting /\ events_ s' = NoEvents.
Proof.
  intros Hcb Hq Hg Hst Hping Hpre Hw Hp Hf. set (q' := SetOnData capture q).
  set (s0 := set_local_query q' (set_world (mkWorld (app (world s)) Block_new) (set_state Inserting (set_events LocalQuery (set_local_query q s))))).
  destruct (sends_query q' Hq s0 Hg) as (bs0 & s1 & E1 & (d & -> & Hd) & Hg1 & Hp1 & Hv1 & Hs1).
  pose proof (same_rest_events _ _ Hs1) as Hce. change (current_events s0) with (Some q') in Hce.
  unfold HasEventCallbacks in Hcb. repeat rewrite orb_false_iff in Hcb. destruct Hcb as [[[[[[C1 C2] C3] C4] C5] C6] C7].
  destruct (wait_data pre bs name header cs Hpre Hw s1 rest (fun b' => (mkWorld (app (world s)) b', out_accepted s1)) Hg1)
    as (n & b' & s2 & Hl & Hn & Hb & Hg2 & Hp2 & Hv2 & Hs2).
  { rewrite Hce. intros p p' v Hseen Hnd. destruct Hseen; try done; cbn; unfold app_call, zoom, OnProfile, OnProgress, OnServerLog, OnProfileEvents, call, q';
      cbn [SetOnData profile_callback_cb_ progress_cb_ select_server_log_cb_ profile_events_callback_cb_];
      repeat match goal with |- context [match ?x q with _ => _ end] => destruct (x q); try done end; by destruct v. }
  { intros b' _. rewrite Hce. cbn [tell]. unfold app_call, zoom, OnData, OnDataCancelable, call, bind, q'. cbn [SetOnData select_cb_ select_cancelable_cb_].
    destruct (select_cancelable_cb_ q); [done|]. apply view_inv in Hv1 as [Hw1 _]. cbn. by rewrite Hw1. }
  { by rewrite Hp1. }
  exists d, b', (set_events NoEvents s2). split_and!; try done.
  - unfold BeginInsert. rewrite guard_passed by done.
    replace (HasEventCallbacks q) with false by (unfold HasEventCallbacks; by rewrite C1, C2, C3, C4, C5, C6, C7).
    unfold bind at 1, modify at 1, finally, ping_first. rewrite Hping. cbn [when].
    unfold bind at 1 2 3 4 5, ret at 1, modify, on_world, zoom, capture, modify, get at 1. cbn [fst snd].
    match goal with |- context [(_ ;;; _) ?x] => change x with s0 end. change (local_query s0) with q'.
    unfold bind. rewrite E1, (loops_while _ fuel _ _ _ _ _ Hl) by lia. unfold get, ret. apply view_inv in Hv2 as [-> _]. done.
  - change (view_of (set_events NoEvents s2)) with (view_of s2). rewrite Hv2. apply view_inv in Hv1 as [_ ->]. done.
  - assert (same_rest s0 s2) as (_ & _ & _ & _ & _ & _ & _ & Hst2 & _) by (by etransitivity). exact Hst2.
Qed.
(** An insert in several blocks. *)
Definition insert_blocks (q : Query (World W)) (blocks : list Block) : M Impl Block :=
  let* header := BeginInsert lz4 zstd std_hash map_bool opts fuel q in
  mapM_ (SendInsertBlock lz4 zstd opts) blocks ;;;
  EndInsert lz4 zstd std_hash map_bool opts fuel ;;;
  ret header.

Lemma send_blocks_ok (blocks : list Block) : Forall (block_sendable map_bool) blocks -> forall s, conn_good s -> state_ s = Inserting ->
  exists ds s', mapM_ (SendInsertBlock lz4 zstd opts) blocks s = (Ok tt, s') /\ Forall2 data_sent blocks ds /\ conn_good s' /\
    in_pending s' = in_pending s /\ view_of s' = (world s, out_accepted s ++ concat ds) /\ same_rest s s'.
Proof.
  induction 1 as [|b blocks Hb _ IH]; intros s Hg Hst; cbn [mapM_].
  - exists [], s. unfold view_of. cbn [concat]. rewrite app_nil_r. by split_and!.
  - destruct (sends_data b Hb s Hg) as (d & s1 & E1 & Hd & Hg1 & Hp1 & Hv1 & Hs1). pose proof Hs1 as (_ & _ & _ & _ & _ & _ & _ & Hst1 & _).
    destruct (IH s1 Hg1 ltac:(congruence)) as (ds & s2 & E2 & Hds & Hg2 & Hp2 & Hv2 & Hs2). apply view_inv in Hv1 as [Hw1 Ha1].
    exists (d :: ds), s2. unfold bind. unfold SendInsertBlock at 1. rewrite guard_passed, E1, E2 by done. rewrite Hw1, Ha1 in Hv2.
    cbn [concat]. split_and!; [done|by constructor|done|congruence|by rewrite Hv2, app_assoc|by etransitivity].
Qed.

Lemma insert_blocks_ok (q : Query (World W)) (blocks : list Block) pre bs name header cs ps e es s rest :
  HasEventCallbacks q = false -> query_supported rev q -> Forall (block_sendable map_bool) blocks -> conn_good s -> state_ s = Idle ->
  ping_before_query opts = false -> preamble pre bs -> wire lz4 zstd map_bool rev compression (SData name header) ServerCodes.Data cs ->
  Response ps e es -> in_pending s = bs ++ varint_bytes ServerCodes.Data ++ cs ++ es ++ rest ->
  (length pre < Pos.to_nat fuel)%nat -> (length ps < Pos.to_nat fuel)%nat ->
  exists d0 ds d1 b' s', insert_blocks q blocks s = (match ended e with Ok _ => Ok b' | Throw x => Throw x end, s') /\ same_block rev header b' /\
    data_sent Block_new d0 /\ Forall2 data_sent blocks ds /\ data_sent Block_new d1 /\
    view_of s' = (mkWorld (app (world s)) b', out_accepted s ++ query_bytes rev compression q ++ d0 ++ concat ds ++ d1) /\
    in_pending s' = rest /\ conn_good s' /\ state_ s' = (match ended e with Ok _ => Idle | Throw _ => Inserting end) /\ events_ s' = NoEvents.
Proof.
  intros Hcb Hq Hbl Hg Hst Hping Hpre Hw Hr Hp Hf1 Hf2.
  destruct (begin_insert_ok q pre bs name header cs s (es ++ rest) Hcb Hq Hg Hst Hping Hpre Hw Hp Hf1)
    as (d0 & b' & s1 & E1 & Hb' & Hd0 & Hv1 & Hp1 & Hg1 & Hst1 & Hev1).
  destruct (send_blocks_ok blocks Hbl s1 Hg1 Hst1) as (ds & s2 & E2 & Hds & Hg2 & Hp2 & Hv2 & Hs2). pose proof Hs2 as (_ & _ & He2 & _ & _ & _ & _ & Hst2 & _).
  destruct (end_insert_ok ps e es s2 rest Hr Hg2) as (d1 & s3 & E3 & Hd1 & Hv3 & Hp3 & Hg3 & Hst3 & Hev3).
  { unfold current_events. by rewrite He2, Hev1. }
  { congruence. }
  { congruence. }
  { done. }
  apply view_inv in Hv1 as [Hw1 Ha1]. apply view_inv in Hv2 as [Hw2 Ha2].
  exists d0, ds, d1, b', s3. split_and!; try done; [| |congruence].
  - unfold insert_blocks, bind. rewrite E1, E2, E3. by destruct (ended e).
  - rewrite Hv3, Hw2, Ha2, Hw1, Ha1. by rewrite <- !app_assoc.
Qed.
End Connection.

(** ** Main results *)

(** C3. A select delivers the response: the client sends the query, then shows the
    application every packet of the response, decoded, in order and once, each
    to its own callback, sending a cancel request whenever the data callback asks
    for it; an exception of the server is shown and thrown if the options say so;
    if a callback throws, nothing more is shown.  However it ends, the client is
    idle again, and after a complete response it has consumed exactly that
    response.  Blocks may be compressed; the server may have any revision. *)
Theorem select_delivers {N SI SO W} `{InputStreamLaws SI} `{OutputStreamLaws SO} `{SocketFactory N SI SO}
    (lz4 : lz4_api) (zstd : zstd_api) (std_hash : bytes -> Z) (map_bool : bool) (opts : ClientOptions) (fuel : positive)
    (rev : Z) (compression : bool) (max_in : Z) (s : Impl N SI SO W) (q : Query (World W))
    (ps : list server_packet) (e : ending) (bs rest : bytes)
    (Hcodec : compression = true ->
      method_ok lz4 zstd (compression_method opts) max_in /\ 0 < max_compression_chunk_size opts <= max_in)
    (Hconn : conn_good map_bool rev compression s) (Hidle : state_ s = Idle) (Hping : ping_before_query opts = false)
    (Hq : query_supported rev q) (Hr : response lz4 zstd map_bool rev compression ps e bs) (Hp : in_pending s = bs ++ rest)
    (Hfuel : (length ps < Pos.to_nat fuel)%nat) :
  exists sent r s', ExecuteQuery lz4 zstd std_hash map_bool opts fuel q s = (r, s') /\
    data_sent lz4 zstd rev compression Block_new sent /\
    delivers rev (rethrow_exceptions opts) (Some q) ps e
      (world s, out_accepted s ++ query_bytes rev compression q ++ sent) r (view_of s') /\
    (defined r -> state_ s' = Idle /\ events_ s' = NoEvents) /\ (r = Ok tt -> in_pending s' = rest) /\
    conn_good map_bool rev compression s'.
Proof. by eapply (execute_ok lz4 zstd std_hash map_bool opts fuel rev compression max_in Hcodec). Qed.

(** A client that is connected to a server of the current revision, which has sent [bs]. *)
Definition connected {W} (bs : bytes) (w : W) : Impl Script ChunkSource ChunkSink W :=
  mkImpl Query_empty Query_empty NoEvents false (Some (BufferedInput_new (mkChunkSource bs 7) 8192))
    (Some (BufferedOutput_new (mkChunkSink [] 5) 8192)) (mkRoundRobin [mkEndpoint (str "a") 9000] 0) (Some (mkEndpoint (str "a") 9000))
    (mkServerInfo [] [] [] 24 8 1 54459) Idle ∅ (mkScript [] []) (mkWorld w Block_new).

Lemma connected_good {W} (bs : bytes) (w : W) : conn_good false 54459 false (connected bs w).
Proof.
  split; [eexists; split; [reflexivity|split; done]|]. split; [eexists; split; [reflexivity|split; [done|]]|].
  - unfold ao_ok. cbn [BufferedOutput_new bo_array ao_pos ao_mem]. rewrite zlen_replicate. lia.
  - split_and!; [|done|done]. intros nm ast Hl. change (type_cache (connected bs w)) with (∅ : ast_cache) in Hl. by rewrite lookup_empty in Hl.
Qed.

(** A progress packet, a block of three rows, the end. *)
Definition example_progress : Progress := mkProgress 3 24 3 0 0.

Definition example_response : bytes :=
  varint_bytes ServerCodes.Progress ++ progress_bytes 54459 example_progress ++
  varint_bytes ServerCodes.Data ++ (string_bytes [] ++ block_bytes 54459 example_block) ++
  varint_bytes ServerCodes.EndOfStream.

Lemma example_response_ok :
  response store_lz4 store_zstd false 54459 false [SProgress example_progress; SData [] example_block] SEnd example_response.
Proof.
  apply response_packet; [by constructor|]. apply (response_packet _ _ _ _ _ _ _ _ [] SEnd); [|constructor].
  apply (wire_data _ _ _ 54459 false [] example_block (block_bytes 54459 example_block)); [done|exact example_sendable|done].
Qed.

(** Counts the blocks, and cancels. *)
Definition counting_query : Query (World nat) :=
  SetOnDataCancelable (fun _ => ret false) (SetOnData (fun _ => modify (fun w => mkWorld (S (app w)) (captured w))) (Query_new (str "SELECT 1") [])).

Lemma select_delivers_witness :
  exists sent r s', ExecuteQuery store_lz4 store_zstd (fun _ => 0) false ClientOptions_new 10 counting_query (connected example_response 0%nat) = (r, s') /\
    data_sent store_lz4 store_zstd 54459 false Block_new sent /\
    delivers 54459 true (Some counting_query) [SProgress example_progress; SData [] example_block] SEnd
      (world (connected [] 0%nat), out_accepted (connected example_response 0%nat) ++ query_bytes 54459 false counting_query ++ sent) r (view_of s') /\
    (defined r -> state_ s' = Idle /\ events_ s' = NoEvents) /\ (r = Ok tt -> in_pending s' = []) /\
    conn_good false 54459 false s'.
Proof.
  apply (select_delivers store_lz4 store_zstd (fun _ => 0) false ClientOptions_new 10 54459 false 1000 (connected example_response 0%nat)
    counting_query [SProgress example_progress; SData [] example_block] SEnd example_response []).
  - done.
  - apply connected_good.
  - done.
  - done.
  - split; by right.
  - exact example_response_ok.
  - by rewrite app_nil_r.
  - cbn. lia.
Defined.

(** C5. An insert delivers the block: after the query and the server's description of
    the table, the client sends exactly the block and the empty block that ends the
    data, waits for the end of the response and returns to [Idle], also after an
    exception of the server that the options say to swallow; one that is thrown
    leaves the client inserting.  It consumes exactly the server's packets. *)
Theorem insert_delivers {N SI SO W} `{InputStreamLaws SI} `{OutputStreamLaws SO} `{SocketFactory N SI SO}
    (lz4 : lz4_api) (zstd : zstd_api) (std_hash : bytes -> Z) (map_bool : bool) (opts : ClientOptions) (fuel : positive)
    (rev : Z) (compression : bool) (max_in : Z) (s : Impl N SI SO W) (table id text : bytes) (b : Block)
    (pre ps : list server_packet) (name : bytes) (header : Block) (e : ending) (bs cs es rest : bytes)
    (Hcodec : compression = true ->
      method_ok lz4 zstd (compression_method opts) max_in /\ 0 < max_compression_chunk_size opts <= max_in)
    (Hconn : conn_good map_bool rev compression s) (Hidle : state_ s = Idle) (Hev : events_ s = NoEvents)
    (Hping : ping_before_query opts = false) (Ht : insert_text table b = Ok text) (Hb : block_sendable map_bool b)
    (Hpre : preamble lz4 zstd map_bool rev compression pre bs)
    (Hw : wire lz4 zstd map_bool rev compression (SData name header) ServerCodes.Data cs)
    (Hr : response lz4 zstd map_bool rev compression ps e es)
    (Hp : in_pending s = bs ++ varint_bytes ServerCodes.Data ++ cs ++ es ++ rest)
    (Hfuel : (length pre < Pos.to_nat fuel /\ length ps < Pos.to_nat fuel)%nat) :
  exists d1 d2 d3 s', Insert lz4 zstd std_hash map_bool opts fuel table id b s = (ended opts e, s') /\
    data_sent lz4 zstd rev compression Block_new d1 /\ data_sent lz4 zstd rev compression b d2 /\
    data_sent lz4 zstd rev compression Block_new d3 /\
    view_of s' = (world s, out_accepted s ++ query_bytes rev compression (Query_new (W := World W) text id) ++ d1 ++ d2 ++ d3) /\
    in_pending s' = rest /\ conn_good map_bool rev compression s' /\
    state_ s' = (match ended opts e with Ok _ => Idle | Throw _ => Inserting end) /\ events_ s' = NoEvents.
Proof.
  destruct Hfuel. by eapply (insert_ok lz4 zstd std_hash map_bool opts fuel rev compression max_in Hcodec table id text b pre bs name header cs ps e es s rest).
Qed.

(** The empty block that describes the columns of the table. *)
Definition example_header : bytes := string_bytes [] ++ block_bytes 54459 Block_new.

Definition example_insert : Impl Script ChunkSource ChunkSink unit :=
  connected (varint_bytes ServerCodes.Data ++ example_header ++ varint_bytes ServerCodes.EndOfStream) tt.

Lemma insert_delivers_witness :
  exists d1 d2 d3 s', Insert store_lz4 store_zstd (fun _ => 0) false ClientOptions_new 10 (str "t") (str "i") example_block example_insert = (Ok tt, s') /\
    data_sent store_lz4 store_zstd 54459 false Block_new d1 /\ data_sent store_lz4 store_zstd 54459 false example_block d2 /\
    data_sent store_lz4 store_zstd 54459 false Block_new d3 /\
    view_of s' = (world example_insert, out_accepted example_insert ++
      query_bytes 54459 false (Query_new (W := World unit) (str "INSERT INTO t ( `id`,`v` ) VALUES") (str "i")) ++ d1 ++ d2 ++ d3) /\
    in_pending s' = [] /\ conn_good false 54459 false s' /\ state_ s' = Idle /\ events_ s' = NoEvents.
Proof.
  apply (insert_delivers store_lz4 store_zstd (fun _ => 0) false ClientOptions_new 10 54459 false 1000 example_insert (str "t") (str "i")
    (str "INSERT INTO t ( `id`,`v` ) VALUES") example_block [] [] [] Block_new SEnd [] example_header (varint_bytes ServerCodes.EndOfStream) []).
  - done.
  - apply connected_good.
  - done.
  - done.
  - done.
  - vm_compute. reflexivity.
  - exact example_sendable.
  - constructor.
  - apply (wire_data _ _ _ 54459 false [] Block_new (block_bytes 54459 Block_new)); [done|apply empty_sendable|done].
  - constructor.
  - by rewrite app_nil_r.
  - cbn. lia.
Defined.

(** C6. An insert in several blocks: [BeginInsert] returns the server's description of
    the table, each [SendInsertBlock] sends its block, [EndInsert] ends the data and
    returns to [Idle] at the end of the response.  The output is the query, the
    blocks in order and the two empty blocks around them, the input is consumed up
    to the end of the response, and the pointer to the query of [BeginInsert] is
    gone. *)
Theorem insert_session_delivers {N SI SO W} `{InputStreamLaws SI} `{OutputStreamLaws SO} `{SocketFactory N SI SO}
    (lz4 : lz4_api) (zstd : zstd_api) (std_hash : bytes -> Z) (map_bool : bool) (opts : ClientOptions) (fuel : positive)
    (rev : Z) (compression : bool) (max_in : Z) (s : Impl N SI SO W) (q : Query (World W)) (blocks : list Block)
    (pre ps : list server_packet) (name : bytes) (header : Block) (e : ending) (bs cs es rest : bytes)
    (Hcodec : compression = true ->
      method_ok lz4 zstd (compression_method opts) max_in /\ 0 < max_compression_chunk_size opts <= max_in)
    (Hconn : conn_good map_bool rev compression s) (Hidle : state_ s = Idle) (Hping : ping_before_query opts = false)
    (Hcb : HasEventCallbacks q = false) (Hq : query_supported rev q) (Hbl : Forall (block_sendable map_bool) blocks)
    (Hpre : preamble lz4 zstd map_bool rev compression pre bs)
    (Hw : wire lz4 zstd map_bool rev compression (SData name header) ServerCodes.Data cs)
    (Hr : response lz4 zstd map_bool rev compression ps e es)
    (Hp : in_pending s = bs ++ varint_bytes ServerCodes.Data ++ cs ++ es ++ rest)
    (Hfuel : (length pre < Pos.to_nat fuel /\ length ps < Pos.to_nat fuel)%nat) :
  exists d0 ds d1 b' s', insert_blocks lz4 zstd std_hash map_bool opts fuel q blocks s =
      (match ended opts e with Ok _ => Ok b' | Throw x => Throw x end, s') /\ same_block rev header b' /\
    data_sent lz4 zstd rev compression Block_new d0 /\ Forall2 (data_sent lz4 zstd rev compression) blocks ds /\
    data_sent lz4 zstd rev compression Block_new d1 /\
    view_of s' = (mkWorld (app (world s)) b', out_accepted s ++ query_bytes rev compression q ++ d0 ++ concat ds ++ d1) /\
    in_pending s' = rest /\ conn_good map_bool rev compression s' /\
    state_ s' = (match ended opts e with Ok _ => Idle | Throw _ => Inserting end) /\ events_ s' = NoEvents.
Proof.
  destruct Hfuel.
  by eapply (insert_blocks_ok lz4 zstd std_hash map_bool opts fuel rev compression max_in Hcodec q blocks pre bs name header cs ps e es s rest).
Qed.

Lemma insert_session_delivers_witness :
  exists d0 ds d1 b' s', insert_blocks store_lz4 store_zstd (fun _ => 0) false ClientOptions_new 10 (Query_new (str "INSERT INTO t VALUES") [])
      [example_block; example_block] example_insert = (Ok b', s') /\ same_block 54459 Block_new b' /\
    data_sent store_lz4 store_zstd 54459 false Block_new d0 /\
    Forall2 (data_sent store_lz4 store_zstd 54459 false) [example_block; example_block] ds /\
    data_sent store_lz4 store_zstd 54459 false Block_new d1 /\
    view_of s' = (mkWorld (app (world example_insert)) b', out_accepted example_insert ++
      query_bytes 54459 false (Query_new (W := World unit) (str "INSERT INTO t VALUES") []) ++ d0 ++ concat ds ++ d1) /\
    in_pending s' = [] /\ conn_good false 54459 false s' /\ state_ s' = Idle /\ events_ s' = NoEvents.
Proof.
  apply (insert_session_delivers store_lz4 store_zstd (fun _ => 0) false ClientOptions_new 10 54459 false 1000 example_insert
    (Query_new (str "INSERT INTO t VALUES") []) [example_block; example_block] [] [] [] Block_new SEnd [] example_header (varint_bytes ServerCodes.EndOfStream) []).
  - done.
  - apply connected_good.
  - done.
  - done.
  - done.
  - split; by right.
  - do 2 (apply Forall_cons_2; [exact example_sendable|]). apply Forall_nil_2.
  - constructor.
  - apply (wire_data _ _ _ 54459 false [] Block_new (block_bytes 54459 Block_new)); [done|apply empty_sendable|done].
  - constructor.
  - by rewrite app_nil_r.
  - cbn. lia.
Defined.
