(* ===== verification/Connecting.v ===== *)
(** * Connecting, failing over and retrying

    The handshake, the order in which endpoints are tried, and the bound on the
    attempts of [RetryGuard]. *)

From S2P Require Import Prelude Streams WireFormat CityHash Compressed Text Types TypeParser TypeNames Columns ColumnRows ColumnOps ColumnWire Factory Block Protocol BlockWire Endpoints Query Messages Client ClientStates ClientWire.

(** ** The handshake *)

Definition server_info_ok (i : ServerInfo) : Prop :=
  short (si_name i) /\ short (si_timezone i) /\ short (si_display_name i) /\ is_u 64 (si_version_major i) /\
  is_u 64 (si_version_minor i) /\ is_u 64 (si_version_patch i) /\ is_u 64 (si_revision i).

(** What the server answers to the hello of the client. *)
Definition server_hello_bytes (i : ServerInfo) : bytes :=
  varint_bytes ServerCodes.Hello ++ string_bytes (si_name i) ++ varint_bytes (si_version_major i) ++
  varint_bytes (si_version_minor i) ++ varint_bytes (si_revision i) ++
  opt_bytes (DBMS_MIN_REVISION_WITH_SERVER_TIMEZONE <=? si_revision i) (string_bytes (si_timezone i)) ++
  opt_bytes (DBMS_MIN_REVISION_WITH_SERVER_DISPLAY_NAME <=? si_revision i) (string_bytes (si_display_name i)) ++
  opt_bytes (DBMS_MIN_REVISION_WITH_VERSION_PATCH <=? si_revision i) (varint_bytes (si_version_patch i)).

(** What the client then knows: the fields an old server does not send keep their value. *)
Definition announced (old i : ServerInfo) : ServerInfo :=
  let since r {A} (new old : A) := if r <=? si_revision i then new else old in
  mkServerInfo (si_name i) (since DBMS_MIN_REVISION_WITH_SERVER_TIMEZONE (si_timezone i) (si_timezone old))
    (since DBMS_MIN_REVISION_WITH_SERVER_DISPLAY_NAME (si_display_name i) (si_display_name old))
    (si_version_major i) (si_version_minor i)
    (since DBMS_MIN_REVISION_WITH_VERSION_PATCH (si_version_patch i) (si_version_patch old)) (si_revision i).

Section Handshake.
Context {N SI SO W : Type} `{InputStreamLaws SI} `{OutputStreamLaws SO} `{SocketFactory N SI SO}.
Context (map_bool : bool) (opts : ClientOptions).

Abbreviation Impl := (Impl N SI SO W).
Abbreviation Input := (Session (BufferedInput SI)).

#[local] Instance input_laws' : InputStreamLaws Input := Session_laws map_bool.

(** Everything but the streams and [server_info_]. *)
Definition same_but_info (s s' : Impl) : Prop :=
  cl_query s' = cl_query s /\ local_query s' = local_query s /\ events_ s' = events_ s /\ compression_ s' = compression_ s /\
  ep s' = ep s /\ state_ s' = state_ s /\ net s' = net s /\ world s' = world s.

#[local] Instance same_but_info_trans : Transitive same_but_info.
Proof. intros s1 s2 s3. unfold same_but_info. intuition congruence. Qed.

(** A good connection, whatever the revision. *)
Definition linked (s : Impl) : Prop := conn_good map_bool (si_revision (server_info_ s)) (compression_ s) s.

(** From [s], [m] succeeds, leaves [rest] to be read and [server_info_] at [i], and changes nothing else. *)
Definition learns (m : M Impl bool) (s : Impl) (rest : bytes) (i : ServerInfo) : Prop :=
  exists s', m s = (Ok true, s') /\ linked s' /\ in_pending s' = rest /\ out_accepted s' = out_accepted s /\
    server_info_ s' = i /\ same_but_info s s'.

Lemma learns_field {A} (read : ServerInfo -> M Input (bool * A)) (store : A -> ServerInfo -> ServerInfo) k bs cs a s rest i :
  (forall i, reads (read i) bs (true, a)) -> linked s -> in_pending s = bs ++ cs ->
  (forall s1, linked s1 -> in_pending s1 = cs -> server_info_ s1 = store a (server_info_ s) -> learns k s1 rest i) ->
  learns (read_info read store k) s rest i.
Proof.
  intros Hr Hl Hp Hk.
  destruct (on_input_reads map_bool _ _ _ _ _ s cs (Hr (server_info_ s)) Hl Hp) as (s1 & E & Hg & Hp1 & Hv & Hs).
  set (s2 := set_server_info (store a (server_info_ s1)) s1). apply view_inv in Hv as [Hw Ha].
  destruct Hs as (H1' & H2' & H3' & H4' & H5' & H6' & H7' & H8' & H9').
  assert (same_but_info s s2) as Hs2 by (split_and!; try done; unfold ep; cbn; congruence).
  destruct (Hk s2) as (s3 & E3 & Hl3 & Hp3 & Ha3 & Hi3 & Hs3).
  { destruct Hg as (Hi & Ho & Hc & _ & Hcm). by split_and!. }
  { done. }
  { cbn. by rewrite H7'. }
  exists s3. split_and!; [|done|done|by rewrite Ha3|done|by etransitivity].
  rewrite <- E3. unfold read_info, bind, get, modify. by rewrite E.
Qed.

Lemma learns_since {A} (r : Z) (read : ServerInfo -> M Input (bool * A)) (store : A -> ServerInfo -> ServerInfo) k bs cs a s rest i rev :
  (forall i, reads (read i) bs (true, a)) -> linked s -> si_revision (server_info_ s) = rev -> in_pending s = opt_bytes (r <=? rev) bs ++ cs ->
  (forall s1, linked s1 -> in_pending s1 = cs -> server_info_ s1 = (if r <=? rev then store a (server_info_ s) else server_info_ s) -> learns k s1 rest i) ->
  learns (read_info_since r read store k) s rest i.
Proof.
  intros Hr Hl Hrev Hp Hk. unfold learns, read_info_since, bind, revision. rewrite Hrev.
  destruct (r <=? rev); [by eapply (learns_field read store k bs cs a s rest i)|]. by apply Hk.
Qed.

Lemma receive_info (i : ServerInfo) (s : Impl) rest : server_info_ok i -> linked s ->
  varint_bytes ServerCodes.Hello ++ in_pending s = server_hello_bytes i ++ rest ->
  learns ReceiveServerInfo s rest (announced (server_info_ s) i).
Proof.
  intros (Hn & Ht & Hd & Hma & Hmi & Hpa & Hr) Hl Hp. unfold server_hello_bytes in Hp. rewrite <- !app_assoc in Hp. apply app_inv_head in Hp.
  unfold ReceiveServerInfo.
  eapply (learns_field _ _ _ _ _ (si_name i)); [by intros; apply reads_ReadString|done|exact Hp|]. clear Hl Hp. intros s1 Hl Hp Hi1.
  eapply (learns_field _ _ _ _ _ (si_version_major i)); [by intros; apply reads_ReadVarint64|done|exact Hp|]. clear Hl Hp. intros s2 Hl Hp Hi2. rewrite Hi1 in Hi2. cbn in Hi2.
  eapply (learns_field _ _ _ _ _ (si_version_minor i)); [by intros; apply reads_ReadVarint64|done|exact Hp|]. clear Hl Hp. intros s3 Hl Hp Hi3. rewrite Hi2 in Hi3. cbn in Hi3.
  eapply (learns_field _ _ _ _ _ (si_revision i)); [by intros; apply reads_ReadVarint64|done|exact Hp|]. clear Hl Hp. intros s4 Hl Hp Hi4. rewrite Hi3 in Hi4. cbn in Hi4.
  eapply (learns_since _ _ _ _ _ _ (si_timezone i) _ _ _ (si_revision i)); [by intros; apply reads_ReadString|done|by rewrite Hi4|exact Hp|]. clear Hl Hp. intros s5 Hl Hp Hi5. rewrite Hi4 in Hi5. cbn in Hi5.
  assert (si_revision (server_info_ s5) = si_revision i) as Hr5 by (rewrite Hi5; by destruct (DBMS_MIN_REVISION_WITH_SERVER_TIMEZONE <=? si_revision i)).
  eapply (learns_since _ _ _ _ _ _ (si_display_name i) _ _ _ (si_revision i)); [by intros; apply reads_ReadString|done|exact Hr5|exact Hp|]. clear Hl Hp. intros s6 Hl Hp Hi6.
  assert (si_revision (server_info_ s6) = si_revision i) as Hr6 by (rewrite Hi6; by destruct (DBMS_MIN_REVISION_WITH_SERVER_DISPLAY_NAME <=? si_revision i)).
  eapply (learns_since _ _ _ _ _ _ (si_version_patch i) _ _ _ (si_revision i)); [by intros; apply reads_ReadVarint64|done|exact Hr6|exact Hp|]. clear Hl Hp. intros s7 Hl Hp Hi7.
  exists s7. split_and!; try done. rewrite Hi7. unfold announced.
  destruct (DBMS_MIN_REVISION_WITH_SERVER_TIMEZONE <=? si_revision i); rewrite Hi5 in Hi6; cbn in Hi6;
    (destruct (DBMS_MIN_REVISION_WITH_SERVER_DISPLAY_NAME <=? si_revision i); rewrite Hi6; cbn;
      by destruct (DBMS_MIN_REVISION_WITH_VERSION_PATCH <=? si_revision i)).
Qed.

(** The addendum a recent server expects. *)
Definition addendum (i : ServerInfo) : bytes := opt_bytes (DBMS_MIN_PROTOCOL_VERSION_WITH_ADDENDUM <=? si_revision i) (string_bytes []).

Lemma handshake_ok (i : ServerInfo) (s : Impl) rest : server_info_ok i -> linked s -> in_pending s = server_hello_bytes i ++ rest ->
  exists s', Handshake opts s = (Ok true, s') /\ linked s' /\ in_pending s' = rest /\
    out_accepted s' = out_accepted s ++ hello_bytes (default_database opts) (user opts) (password opts) ++ addendum i /\
    server_info_ s' = announced (server_info_ s) i /\ same_but_info s s'.
Proof.
  intros Hok Hl Hp. set (r0 := si_revision (server_info_ s)). set (c0 := compression_ s).
  destruct (on_output_writes map_bool r0 c0 _ _ _ s (writes_WriteHello (default_database opts) (user opts) (password opts)) Hl)
    as (s1 & E1 & Hg1 & Hp1 & Hv1 & Hs1). apply view_inv in Hv1 as [Hw1 Ha1].
  assert (is_u 64 ServerCodes.Hello) as H64 by done.
  assert (in_pending s1 = varint_bytes ServerCodes.Hello ++ drop (length (varint_bytes ServerCodes.Hello)) (in_pending s1)) as Hp1'.
  { rewrite Hp1, Hp. unfold server_hello_bytes. by rewrite <- !app_assoc, drop_app_length. }
  destruct (on_input_reads map_bool r0 c0 _ _ _ s1 _ (reads_ReadVarint64 ServerCodes.Hello H64) Hg1 Hp1') as (s2 & E2 & Hg2 & Hp2 & Hv2 & Hs2).
  apply view_inv in Hv2 as [Hw2 Ha2]. assert (same_rest s s2) as (Q1 & Q2 & Q3 & Q4 & Q5 & Q6 & Q7 & Q8 & Q9) by (by etransitivity).
  assert (linked s2) as Hl2 by (unfold linked; rewrite Q4, Q7; exact Hg2).
  destruct (receive_info i s2 rest Hok Hl2) as (s3 & E3 & Hl3 & Hp3 & Ha3 & Hi3 & Hs3).
  { rewrite Hp2, <- Hp1', Hp1. exact Hp. }
  assert (same_but_info s s3) as Hs03.
  { etransitivity; [|exact Hs3]. split_and!; try done; [unfold ep; congruence|congruence]. }
  assert (writes (when (DBMS_MIN_PROTOCOL_VERSION_WITH_ADDENDUM <=? si_revision i) (WriteString []) : M (BufferedOutput SO) unit) (addendum i) tt) as Hadd
    by (apply writes_when, writes_WriteString).
  destruct (on_output_writes map_bool _ _ _ _ _ s3 Hadd Hl3) as (s4 & E4 & Hg4 & Hp4 & Hv4 & Hs4). apply view_inv in Hv4 as [Hw4 Ha4].
  destruct Hs4 as (R1 & R2 & R3 & R4 & R5 & R6 & R7 & R8 & R9).
  exists s4. split_and!.
  - unfold Handshake, SendHello, bind. rewrite E1. unfold ret. cbn [negb]. unfold ReceiveHello, bind. rewrite E2. cbn [negb].
    change (ServerCodes.Hello =? ServerCodes.Hello) with true. cbv iota. rewrite E3. cbn [negb]. unfold revision. rewrite Hi3.
    change (si_revision (announced _ i)) with (si_revision i). unfold when in *. destruct (DBMS_MIN_PROTOCOL_VERSION_WITH_ADDENDUM <=? si_revision i); [by rewrite E4|].
    unfold on_output in E4. destruct Hl3 as (_ & (o3 & Eo3 & _) & _). rewrite Eo3 in E4. injection E4 as <-.
    f_equal. destruct s3. cbn in Eo3. by rewrite <- Eo3.
  - unfold linked. rewrite R4, R7. exact Hg4.
  - congruence.
  - by rewrite Ha4, Ha3, Ha2, Ha1, <- app_assoc.
  - by rewrite R7, Hi3, Q7.
  - etransitivity; [exact Hs03|]. split_and!; try done. unfold ep. congruence.
Qed.

Lemma new_streams_good (s : Impl) (si : SI) (so : SO) : in_good si -> out_good so -> cache_ok map_bool (type_cache s) ->
  let s' := set_input (Some (BufferedInput_new si 8192)) (set_output (Some (BufferedOutput_new so 8192)) s) in
  linked s' /\ in_pending s' = pending si /\ out_accepted s' = accepted so.
Proof.
  intros Hi Ho Hc s'. split_and!.
  - split; [eexists; split; [reflexivity|by split]|]. split; [eexists; split; [reflexivity|split; [done|]]|by split_and!].
    unfold ao_ok. cbn [BufferedOutput_new bo_array ao_pos ao_mem]. rewrite zlen_replicate. lia.
  - done.
  - change (out_accepted s') with (accepted so ++ ao_written (mkArrayOutput (replicate (Z.to_nat 8192) x00) 0)).
    unfold ao_written. cbn [ao_pos ao_mem]. by rewrite ztake_0, app_nil_r.
Qed.

Lemma reset_connection_ok (s : Impl) (e : Endpoint) (n : N) (si : SI) (so : SO) (i : ServerInfo) rest :
  current_endpoint_ s = Some e -> connect e (net s) = (Ok (si, so), n) -> in_good si -> out_good so -> cache_ok map_bool (type_cache s) ->
  server_info_ok i -> pending si = server_hello_bytes i ++ rest ->
  exists s', ResetConnection opts s = (Ok tt, s') /\ linked s' /\ in_pending s' = rest /\
    out_accepted s' = accepted so ++ hello_bytes (default_database opts) (user opts) (password opts) ++ addendum i /\
    server_info_ s' = announced (server_info_ s) i /\ state_ s' = Idle /\ current_endpoint_ s' = Some e /\ net s' = n /\ world s' = world s.
Proof.
  intros He Hc Hsi Hso Hca Hi Hp.
  set (s0 := set_state Idle (set_input (Some (BufferedInput_new si 8192)) (set_output (Some (BufferedOutput_new so 8192)) (set_net n s)))).
  destruct (new_streams_good (set_net n s) si so Hsi Hso Hca) as (Hl & Hp0 & Ha0).
  destruct (handshake_ok i s0 rest Hi Hl ltac:(by rewrite <- Hp)) as (s' & E & Hl' & Hp' & Ha' & Hi' & Hs').
  destruct Hs' as (_ & _ & _ & _ & Hep & Hst & Hnet & Hw). exists s'.
  assert (current_endpoint_ s' = Some e) as Hcur by (apply (f_equal snd) in Hep; cbn in Hep; by rewrite Hep).
  split; [|split; [exact Hl'|split; [exact Hp'|split; [by rewrite Ha', <- Ha0|split; [exact Hi'|split; [exact Hst|split; [exact Hcur|split; [exact Hnet|exact Hw]]]]]]]].
  - unfold ResetConnection, bind at 1, get. rewrite He. unfold bind at 1, on_net, zoom. rewrite Hc.
    unfold bind at 1, InitializeStreams, modify. unfold bind at 1. cbn [fst snd]. fold s0. unfold bind. by rewrite E.
Qed.
End Handshake.

(** ** Failover *)
Section Failover.
Context {N SI SO W : Type} `{InputStream SI} `{OutputStream SO} `{SocketFactory N SI SO}.
Context (opts : ClientOptions).

Abbreviation Impl := (Impl N SI SO W).
Abbreviation es := (co_endpoints opts).

Lemma ResetConnection_ep (s : Impl) : ep (snd (ResetConnection opts s)) = ep s.
Proof.
  enough (keeps_of ep (fun c => c = ep s) (ResetConnection opts)) as Hk by (by apply Hk).
  unfold ResetConnection. apply keeps_bind; [apply keeps_get|intros s0]. destruct (current_endpoint_ s0); [|apply keeps_throw].
  apply keeps_bind; [apply keeps_on_net; apply _|intros socket]. apply keeps_bind; [by apply keeps_modify|intros _].
  apply keeps_bind; [by apply keeps_modify|intros _]. apply keeps_bind; [apply keeps_Handshake; apply _|].
  intros []; [apply keeps_ret|apply keeps_throw].
Qed.

(** The iterator goes round the endpoints of the options. *)
Definition circles (s : Impl) : Prop := endpoints (endpoints_iterator s) = es /\ rr_ok (endpoints_iterator s).

(** The iterator stands at the current endpoint. *)
Definition aligned (s : Impl) : Prop :=
  circles s /\ current_endpoint_ s = Some (nth (Z.to_nat (current_index (endpoints_iterator s))) es (mkEndpoint [] 0)).

Definition index_of (s : Impl) : Z := current_index (endpoints_iterator s).

Lemma next_aligned (s : Impl) : circles s ->
  exists s', NextEndpoint s = (Ok tt, s') /\ aligned s' /\ index_of s' = (index_of s + 1) mod zlen es.
Proof.
  intros (He & Hok). destruct (Next_ok _ Hok) as [E Hok']. rewrite He in *.
  unfold NextEndpoint, bind, zoom. rewrite E. eexists. split; [reflexivity|]. unfold aligned, circles, index_of. cbn. by split_and!.
Qed.

Lemma circles_ep (s s' : Impl) : ep s' = ep s -> (circles s -> circles s') /\ (aligned s -> aligned s') /\ index_of s' = index_of s.
Proof. intros E. unfold aligned, circles, index_of, ep in *. injection E as -> ->. done. Qed.

(** [attempts s l r s']: [ResetConnection] is tried with the endpoints of [l] as the current
    one, in order, going on to the next only after a system error. *)
Inductive attempts : Impl -> list Endpoint -> result unit -> Impl -> Prop :=
| attempts_none s : attempts s [] (Throw SystemError) s
| attempts_done s e l r s' : current_endpoint_ s = Some e -> ResetConnection opts s = (r, s') -> r <> Throw SystemError ->
    attempts s (e :: l) r s'
| attempts_next s e l s1 s2 r s' : current_endpoint_ s = Some e -> ResetConnection opts s = (Throw SystemError, s1) ->
    NextEndpoint s1 = (Ok tt, s2) -> attempts s2 l r s' -> attempts s (e :: l) r s'.

(** What is done with the current endpoint at the end. *)
Definition restore (last : option Endpoint) (r : result unit) (s : Impl) : Impl :=
  match r with
  | Ok _ | Throw Undefined | Throw Diverges => s
  | Throw _ => set_current_endpoint last s
  end.

Lemma rotation_one (j : Z) (n : nat) : 0 <= j < zlen es ->
  rotation es j (S n) = nth (Z.to_nat j) es (mkEndpoint [] 0) :: rotation es ((j + 1) mod zlen es) n.
Proof. intros Hj. rewrite rotation_S by lia. by rewrite Z.mod_small by lia. Qed.

Lemma failover_loop (last : option Endpoint) (k : nat) : forall i (s : Impl) e, circles s -> current_endpoint_ s = Some e ->
  1 <= i -> i + Z.of_nat k = zlen es -> zlen es < 2 ^ 64 ->
  exists m r s1, loops (ResetConnectionEndpoint_step opts last) i s m r (restore last r s1) /\ (m <= S k)%nat /\
    attempts s (e :: rotation es ((index_of s + 1) mod zlen es) k) r s1 /\
    (aligned s -> r = Ok tt -> aligned s1) /\ (r = Throw SystemError -> aligned s1 /\ index_of s1 = (index_of s + 1 + Z.of_nat k) mod zlen es).
Proof.
  induction k as [|k IH]; intros i s e Hci Hc Hi Hk Hn;
    pose proof (ResetConnection_ep s) as Hep; destruct (ResetConnection opts s) as [r s1] eqn:E; cbn [snd] in Hep;
    destruct (circles_ep s s1 Hep) as (Hci1 & Hal1 & Hix1); specialize (Hci1 Hci);
    (destruct (decide (r = Throw SystemError)) as [->|Hne];
      [destruct (next_aligned s1 Hci1) as (s2 & En & Hal2 & Hix2)|]).
  - exists 1%nat, (Throw SystemError), s2. split_and!; [|lia| |done|].
    + apply loops_throw. unfold ResetConnectionEndpoint_step, try_catch, bind. rewrite E, En. by rewrite (proj2 (Z.leb_le _ _)) by lia.
    + eapply attempts_next; [done|exact E|exact En|]. constructor.
    + intros _. split; [done|]. rewrite Hix2, Hix1. f_equal. lia.
  - exists 1%nat, r, s1. split_and!; [|lia|by eapply attempts_done|auto|done].
    destruct r as [[]|x]; [apply loops_exit|apply loops_throw]; unfold ResetConnectionEndpoint_step, try_catch, bind; rewrite E; [done|].
    by destruct x.
  - pose proof Hal2 as (Hci2 & Hc2). fold (index_of s2) in Hc2.
    destruct (IH (i + 1) s2 _ Hci2 Hc2 ltac:(lia) ltac:(lia) Hn) as (m & r & s3 & Hl & Hm & Ha & Hok & Hse).
    exists (S m), r, s3. split_and!; [|lia| |auto|].
    + eapply loops_next; [|exact Hl]. unfold ResetConnectionEndpoint_step, try_catch, bind. rewrite E, En.
      rewrite (proj2 (Z.leb_gt _ _)) by lia. unfold ret. by rewrite wrap_id by (unfold is_u; lia).
    + eapply attempts_next; [done|exact E|exact En|]. rewrite rotation_one by (apply Z.mod_pos_bound; lia). by rewrite Hix2, Hix1 in Ha.
    + intros Hr. destruct (Hse Hr) as [? Hx]. split; [done|]. rewrite Hx, Hix2, Hix1.
      rewrite <- Z.add_assoc, Zplus_mod_idemp_l. f_equal. lia.
  - exists 1%nat, r, s1. split_and!; [|lia|by eapply attempts_done|auto|done].
    destruct r as [[]|x]; [apply loops_exit|apply loops_throw]; unfold ResetConnectionEndpoint_step, try_catch, bind; rewrite E; [done|].
    by destruct x.
Qed.

(** *** The bound on retries *)

(** A part of the state that connecting does not touch counts the calls of [func]. *)
Context (func : M Impl unit) (calls : Impl -> Z).
Hypothesis calls_func : forall s, calls (snd (func s)) <= calls s + 1.
Hypothesis calls_reset : forall s, calls (snd (ResetConnection opts s)) = calls s.
Hypothesis calls_net : forall n s, calls (set_net n s) = calls s.
Hypothesis calls_ep : forall it e s, calls (set_current_endpoint e s) = calls s /\ calls (set_endpoints_iterator it s) = calls s.
Hypothesis func_ends : forall s : Impl, fst (func s) <> Throw Diverges.
Hypothesis reset_ends : forall s : Impl, fst (ResetConnection opts s) <> Throw Diverges.
Hypothesis sleep_ends : forall n, fst (sleepFor (retry_timeout opts) n) <> Throw Diverges.

Definition ends_within {A} (c : Z) (r : result A) (s : Impl) : Prop := r <> Throw Diverges /\ calls s <= c.

Lemma func_within s c : calls s + 1 <= c -> wp func (ends_within c) s.
Proof. intros Hc. split; [apply func_ends|]. pose proof (calls_func s). lia. Qed.

Lemma reset_within s c : calls s <= c -> wp (ResetConnection opts) (ends_within c) s.
Proof. intros Hc. split; [apply reset_ends|]. by rewrite calls_reset. Qed.

Lemma sleep_within s c : calls s <= c -> wp (on_net (sleepFor (retry_timeout opts))) (ends_within c) s.
Proof.
  intros Hc. unfold wp, ends_within, on_net, zoom. pose proof (sleep_ends (net s)) as Hs. destruct (sleepFor _ _) as [r n]. cbn in *.
  by rewrite calls_net.
Qed.

Lemma next_within s c : calls s <= c -> wp NextEndpoint (ends_within c) s.
Proof.
  intros Hc. unfold wp, ends_within, NextEndpoint, zoom, bind.
  assert (forall it, fst (Next it) <> Throw Diverges) as Hn.
  { intros it. unfold Next. cbn [fst]. unfold index_. destruct (_ <? 0); [done|]. by destruct (_ !! _). }
  specialize (Hn (endpoints_iterator s)). destruct (Next (endpoints_iterator s)) as [[e|x] it]; cbn in *;
    (split; [congruence|]); rewrite ?(proj1 (calls_ep it _ _)), ?(proj2 (calls_ep it None _)); done.
Qed.

Lemma within_bind {A B} (m : M Impl A) (k : A -> M Impl B) c (Q : result B -> Impl -> Prop) s : wp m (ends_within c) s ->
  (forall a s', calls s' <= c -> wp (k a) Q s') -> (forall e s', ends_within (A := B) c (Throw e) s' -> Q (Throw e) s') ->
  wp (bind m k) Q s.
Proof.
  intros Hm Hk He. apply wp_bind. eapply wp_mono; [exact Hm|]. intros [a|e] s' [Hd Hc]; [by apply Hk|]. apply He. split; [congruence|done].
Qed.

Lemma within_weaken {A} (m : M Impl A) c d s : wp m (ends_within c) s -> c <= d -> wp m (ends_within d) s.
Proof. intros Hm Hc. eapply wp_mono; [exact Hm|]. intros r s' [Hd Hs]. split; [done|lia]. Qed.

Context (Hr : 0 <= send_retries opts < 2 ^ 32).

Lemma same_bounded s c : calls s = c ->
  wp (while (Z.to_pos (send_retries opts + 1)) (RetryGuard_same opts func) 1) (ends_within (c + Z.max 1 (send_retries opts))) s.
Proof.
  intros Hc. set (L := Z.max 1 (send_retries opts)).
  apply wp_while_total with (Inv := fun i s => 1 <= i <= L /\ calls s <= c + (i - 1)) (mu := fun i => Z.to_nat (L - i)); [|lia|lia].
  clear s Hc. intros i s [Hi Hc]. unfold RetryGuard_same, catch_system_error. apply wp_try.
  apply wp_bind. eapply wp_mono; [apply (func_within s (c + i)); lia|]. intros [[]|x] s1 [Hd Hc1].
  { unfold wp. cbn [fst snd ret]. split; [done|lia]. }
  assert (ends_within (A := bool) (c + L) (Throw x) s1) as Hout by (split; [congruence|lia]).
  destruct x; try exact Hout.
  destruct (send_retries opts =? 0) eqn:E0; [exact Hout|]. destruct (Z.leb_spec (send_retries opts) i); [unfold wp; cbn [fst snd ret]; split; [done|lia]|].
  apply (within_bind _ _ (c + i)).
  - unfold catch_system_error. apply wp_try. eapply wp_mono; [apply (within_bind _ _ (c + i) (ends_within (c + i)))|].
    + by apply sleep_within.
    + intros _ s2 Hc2. by apply reset_within.
    + done.
    + intros [[]|y] s2 [Hd2 Hc2]; [by split|]. by destruct y.
  - intros [] s2 Hc2. unfold wp. cbn [fst snd ret]. rewrite wrap_id by (unfold is_u; lia). lia.
  - intros y s2 [Hd2 Hc2]. split; [congruence|lia].
Qed.

Lemma other_bounded s c n last : calls s = c -> is_u 64 n ->
  wp (while (Z.to_pos (n + 1)) (RetryGuard_other opts func n last) 1) (ends_within (c + Z.max 1 n)) s.
Proof.
  intros Hc Hn. set (L := Z.max 1 n).
  apply wp_while_total with (Inv := fun i s => 1 <= i <= L /\ calls s <= c + (i - 1)) (mu := fun i => Z.to_nat (L - i)); [|lia|unfold is_u in Hn; lia].
  clear s Hc. intros i s [Hi Hc]. unfold RetryGuard_other. apply wp_try.
  match goal with |- wp _ ?Q s => set (QQ := Q) end.
  assert (forall e s', ends_within (A := Z + unit) (c + i) (Throw e) s' -> QQ (Throw e) s') as Hexc.
  { intros e s1 [Hd Hc1]. unfold QQ. assert (ends_within (A := unit) (c + L) (Throw e) s1) as Hout by (split; [congruence|lia]).
    destruct e; try exact Hout; try (unfold wp; cbn; split; [done|]; rewrite (proj1 (calls_ep (endpoints_iterator s1) _ _)); lia).
    destruct (Z.leb_spec n i); unfold wp; cbn [fst snd ret bind modify throw].
    - split; [done|]. rewrite (proj1 (calls_ep (endpoints_iterator s1) _ _)). lia.
    - rewrite wrap_id by (unfold is_u in *; lia). lia. }
  assert (forall e s', ends_within (A := Z + unit) (c + (i - 1)) (Throw e) s' -> QQ (Throw e) s') as Hexc'.
  { intros e s' [? ?]. apply Hexc. split; [done|lia]. }
  apply (within_bind _ _ (c + (i - 1))); [by apply sleep_within| |exact Hexc']. intros _ s1 H1'.
  apply (within_bind _ _ (c + (i - 1))); [by apply next_within| |exact Hexc']. intros _ s2 H2'.
  apply (within_bind _ _ (c + (i - 1))); [by apply reset_within| |exact Hexc']. intros _ s3 H3'.
  apply (within_bind _ _ (c + i)); [apply func_within; lia| |exact Hexc]. intros _ s4 H4'.
  unfold wp, QQ. cbn [fst snd ret]. split; [done|lia].
Qed.

Definition max_calls : Z :=
  Z.max 1 (send_retries opts) + Z.max 1 (wrap 64 (zlen es * send_retries opts)).

Lemma retry_within s : wp (RetryGuard opts func) (ends_within (calls s + max_calls)) s.
Proof.
  unfold RetryGuard, max_calls. eapply within_bind; [by apply (same_bounded s (calls s))| |].
  - intros [] s1 Hc1; [unfold wp; cbn [fst snd ret]; split; [done|lia]|]. apply wp_bind. unfold wp at 1. cbn [fst snd get].
    eapply within_weaken; [apply (other_bounded s1 (calls s1)); [done|apply (wrap_range 64); lia]|lia].
  - intros e s' [Hd Hc]. split; [congruence|lia].
Qed.

(** Anything but a system error leaves at once. *)
Lemma retry_once s r s1 : func s = (r, s1) -> r <> Throw SystemError -> RetryGuard opts func s = (r, s1).
Proof.
  intros E Hne. assert (loops (RetryGuard_same opts func) 1 s 1 (match r with Ok _ => Ok true | Throw x => Throw x end) s1) as Hl.
  { destruct r as [[]|x]; [apply loops_exit|apply loops_throw]; unfold RetryGuard_same, catch_system_error, try_catch, bind; rewrite E; [done|].
    by destruct x. }
  unfold RetryGuard, bind. rewrite (loops_while _ _ _ _ _ _ _ Hl) by lia. by destruct r as [[]|].
Qed.
End Failover.

(** ** Main results *)

(** C8. The handshake: on a fresh connection the client introduces itself with the
    configured database, user and password, takes over what the server says of
    itself (fields an old server does not send keep their value), writes the addendum
    exactly for servers that expect it, reads nothing beyond the server's hello and
    is idle, whatever it was doing before. *)
Theorem handshake_establishes {N SI SO W} `{InputStreamLaws SI} `{OutputStreamLaws SO} `{SocketFactory N SI SO}
    (map_bool : bool) (opts : ClientOptions) (s : Impl N SI SO W) (e : Endpoint) (n : N) (si : SI) (so : SO)
    (i : ServerInfo) (rest : bytes) (He : current_endpoint_ s = Some e) (Hc : connect e (net s) = (Ok (si, so), n))
    (Hsi : in_good si) (Hso : out_good so) (Hcache : cache_ok map_bool (type_cache s)) (Hi : server_info_ok i)
    (Hp : pending si = server_hello_bytes i ++ rest) :
  exists s', ResetConnection opts s = (Ok tt, s') /\ conn_good map_bool (si_revision i) (compression_ s') s' /\
    in_pending s' = rest /\
    out_accepted s' = accepted so ++ hello_bytes (default_database opts) (user opts) (password opts) ++ addendum i /\
    server_info_ s' = announced (server_info_ s) i /\ state_ s' = Idle /\ current_endpoint_ s' = Some e /\
    net s' = n /\ world s' = world s.
Proof.
  destruct (reset_connection_ok map_bool opts s e n si so i rest He Hc Hsi Hso Hcache Hi Hp) as (s' & E & Hl & Hp' & Ha & Hi' & Hrest).
  exists s'. unfold linked in Hl. rewrite Hi' in Hl. split; [exact E|]. split; [exact Hl|]. split; [exact Hp'|].
  split; [exact Ha|]. split; [exact Hi'|]. exact Hrest.
Qed.

Definition example_info : ServerInfo := mkServerInfo (str "ClickHouse") (str "UTC") (str "db") 24 8 1 54459.

Lemma handshake_establishes_witness :
  let s := fresh_client [mkEndpoint (str "a") 9000] [Some (server_hello_bytes example_info)] tt in
  exists s', ResetConnection ClientOptions_new s = (Ok tt, s') /\ conn_good false (si_revision example_info) (compression_ s') s' /\
    in_pending s' = [] /\
    out_accepted s' = accepted (mkChunkSink [] 5) ++
      hello_bytes (default_database ClientOptions_new) (user ClientOptions_new) (password ClientOptions_new) ++ addendum example_info /\
    server_info_ s' = announced (server_info_ s) example_info /\ state_ s' = Idle /\
    current_endpoint_ s' = Some (mkEndpoint (str "a") 9000) /\ net s' = mkScript [] [mkEndpoint (str "a") 9000] /\ world s' = world s.
Proof.
  apply (handshake_establishes false ClientOptions_new (fresh_client [mkEndpoint (str "a") 9000] [Some (server_hello_bytes example_info)] tt)
    (mkEndpoint (str "a") 9000) (mkScript [] [mkEndpoint (str "a") 9000]) (mkChunkSource (server_hello_bytes example_info) 7) (mkChunkSink [] 5)
    example_info []); done.
Defined.

(** C9. Failover: from any state, [ResetConnectionEndpoint] tries the current endpoint first, then the ones after the
    iterator's position, going round the list, as many as there are endpoints, and goes on only after a system error.  It
    stops at the first that works, which becomes the current endpoint.  While the iterator stands at the current endpoint,
    as it does in a new client, each endpoint is tried exactly once, in the order of the list; and it stands there again
    after a connection and after all endpoints have failed with a system error, when the endpoints are as before, so the
    next call starts over.  (After a failure of another kind it does not, and a later call can try one endpoint twice and
    another not at all: [failover_skips].) *)
Theorem failover_order {N SI SO W} `{InputStream SI} `{OutputStream SO} `{SocketFactory N SI SO}
    (opts : ClientOptions) (s : Impl N SI SO W) (e : Endpoint) (Hci : circles opts s) (He : current_endpoint_ s = Some e)
    (Hn : zlen (co_endpoints opts) < 2 ^ 64) :
  let n := length (co_endpoints opts) in
  let tried := e :: rotation (co_endpoints opts) ((index_of s + 1) mod Z.of_nat n) (n - 1) in
  exists r s1,
    attempts opts s tried r s1 /\
    ResetConnectionEndpoint opts s = (r, restore (current_endpoint_ s) r s1) /\
    (aligned opts s ->
      let j := Z.to_nat (index_of s) in tried = drop j (co_endpoints opts) ++ take j (co_endpoints opts) /\
      (r = Ok tt -> aligned opts s1) /\
      (r = Throw SystemError -> aligned opts (restore (current_endpoint_ s) r s1) /\ index_of s1 = index_of s)).
Proof.
  pose proof Hci as (Hes & [Hix _]). rewrite Hes in Hix. fold (index_of s) in Hix.
  destruct (failover_loop opts (current_endpoint_ s) (length (co_endpoints opts) - 1) 1 s e Hci He ltac:(lia) ltac:(unfold zlen in *; lia) Hn)
    as (m & r & s1 & Hl & Hm & Ha & Hok & Hse).
  intros n tried. exists r, s1. split_and!; [exact Ha| |].
  - unfold ResetConnectionEndpoint, bind, get. apply (loops_while _ _ _ _ _ _ _ Hl). unfold zlen in *. lia.
  - intros Hal j. split_and!.
    + unfold j. rewrite <- (rotation_split _ _ Hix). unfold tried, n. destruct (length (co_endpoints opts)) as [|k] eqn:Hlen; [unfold zlen in Hix; lia|].
      rewrite (rotation_one opts (index_of s) k Hix). unfold zlen. rewrite Hlen. cbn [Nat.sub]. rewrite Nat.sub_0_r. f_equal.
      pose proof (proj2 Hal) as Hc. rewrite He in Hc. by injection Hc as ->.
    + by apply Hok.
    + intros Hr. destruct (Hse Hr) as [((He1 & Hok1) & Hc1) Hx]. subst r.
      replace (index_of s + 1 + Z.of_nat (length (co_endpoints opts) - 1)) with (index_of s + 1 * zlen (co_endpoints opts)) in Hx by (unfold zlen in *; lia).
      rewrite Z_mod_plus_full, Z.mod_small in Hx by lia. split; [|exact Hx]. split; [by split|]. cbn. rewrite (proj2 Hal).
      unfold index_of in Hx. by rewrite Hx.
Qed.

Definition three_endpoints : list Endpoint := [mkEndpoint (str "a") 9000; mkEndpoint (str "b") 9000; mkEndpoint (str "c") 9000].

Definition options_for (es : list Endpoint) : ClientOptions :=
  mkClientOptions [] 9000 es (str "default") (str "default") [] true false 1 5 CompressionMethod.None 65535.

Lemma failover_order_witness :
  let s := fresh_client three_endpoints [None; Some (hello_message 54459)] tt in
  exists r s1, attempts (options_for three_endpoints) s three_endpoints r s1 /\
    ResetConnectionEndpoint (options_for three_endpoints) s = (r, restore (current_endpoint_ s) r s1) /\
    (aligned (options_for three_endpoints) s ->
      let j := Z.to_nat (index_of s) in three_endpoints = drop j three_endpoints ++ take j three_endpoints /\
      (r = Ok tt -> aligned (options_for three_endpoints) s1) /\
      (r = Throw SystemError -> aligned (options_for three_endpoints) (restore (current_endpoint_ s) r s1) /\ index_of s1 = index_of s)).
Proof.
  apply (failover_order (options_for three_endpoints) (fresh_client three_endpoints [None; Some (hello_message 54459)] tt) (mkEndpoint (str "a") 9000)).
  - split; [done|]. split; [split; done|vm_compute; reflexivity].
  - reflexivity.
  - vm_compute. reflexivity.
Defined.

(** The server refuses the login. *)
Definition refusal : bytes :=
  varint_bytes ServerCodes.Exception ++ exception_bytes (mkException 516 (str "DB::Exception") (str "no") []).

(** After an endpoint has failed with anything but a system error, failover skips
    it: the current endpoint is put back, the iterator is not.  Here the second of
    three endpoints refuses the login; the next call tries the first endpoint twice,
    the third once, and the second never. *)
Lemma failover_skips :
  let s := fresh_client three_endpoints [None; Some refusal; None; None; None] tt in
  let '(r1, s1) := ResetConnectionEndpoint (options_for three_endpoints) s in
  let '(r2, s2) := ResetConnectionEndpoint (options_for three_endpoints) s1 in
  r1 = Throw (ServerError 516 (str "DB::Exception") (str "no") []) /\ r2 = Throw SystemError /\
  map ep_host (sc_log (net s2)) = [str "a"; str "b"; str "a"; str "c"; str "a"].
Proof. vm_compute. split_and!; reflexivity. Qed.

(** C14. Retries are bounded and only for system errors: whatever [func] does, [RetryGuard]
    calls it at most [max 1 send_retries + max 1 (endpoints * send_retries)] times and
    its loops end; and an outcome of the first call that is not a system error is the
    outcome of the guard, without a new connection. *)
Theorem retry_bounded {N SI SO W} `{InputStream SI} `{OutputStream SO} `{SocketFactory N SI SO}
    (opts : ClientOptions) (func : M (Impl N SI SO W) unit) (calls : Impl N SI SO W -> Z) (s : Impl N SI SO W)
    (Hr : 0 <= send_retries opts < 2 ^ 32)
    (Hfunc : forall s, calls (snd (func s)) <= calls s + 1 /\ fst (func s) <> Throw Diverges)
    (Hreset : forall s, calls (snd (ResetConnection opts s)) = calls s /\ fst (ResetConnection opts s) <> Throw Diverges)
    (Hsleep : forall n, fst (sleepFor (retry_timeout opts) n) <> Throw Diverges)
    (Hnet : forall n s, calls (set_net n s) = calls s)
    (Hep : forall it e s, calls (set_current_endpoint e s) = calls s /\ calls (set_endpoints_iterator it s) = calls s) :
  fst (RetryGuard opts func s) <> Throw Diverges /\ calls (snd (RetryGuard opts func s)) <= calls s + max_calls opts /\
  (fst (func s) <> Throw SystemError -> RetryGuard opts func s = func s).
Proof.
  destruct (retry_within opts func calls (fun s => proj1 (Hfunc s)) (fun s => proj1 (Hreset s)) Hnet Hep (fun s => proj2 (Hfunc s))
    (fun s => proj2 (Hreset s)) Hsleep Hr s) as [H2 H3]. split_and!; [done|done|].
  destruct (func s) as [r s1] eqn:E. intros Hne. by apply retry_once.
Qed.

(** A network where nothing answers. *)
#[global] Instance dead_network : SocketFactory unit ChunkSource ChunkSink :=
  {| connect := fun _ => throw SystemError; sleepFor := fun _ => ret tt |}.

(** A call that leaves a mark and fails. *)
Definition marking : M (Impl unit ChunkSource ChunkSink unit) unit :=
  modify (fun s => set_local_query (Query_new (x00 :: query_ (local_query s)) []) s) ;;; throw SystemError.

Definition marks (s : Impl unit ChunkSource ChunkSink unit) : Z := zlen (query_ (local_query s)).

Definition lonely_client : Impl unit ChunkSource ChunkSink unit :=
  mkImpl Query_empty Query_empty NoEvents false None None (mkRoundRobin three_endpoints 0) (head three_endpoints)
    (mkServerInfo [] [] [] 0 0 0 0) Idle ∅ tt (mkWorld tt Block_new).

Lemma retry_bounded_witness :
  fst (RetryGuard (options_for three_endpoints) marking lonely_client) <> Throw Diverges /\
  marks (snd (RetryGuard (options_for three_endpoints) marking lonely_client)) <= marks lonely_client + max_calls (options_for three_endpoints) /\
  (fst (marking lonely_client) <> Throw SystemError ->
   RetryGuard (options_for three_endpoints) marking lonely_client = marking lonely_client).
Proof.
  apply (retry_bounded (options_for three_endpoints) marking marks lonely_client).
  - done.
  - intros s. split; [|done]. unfold marks. cbn. rewrite zlen_cons. lia.
  - intros s. unfold ResetConnection, bind, get. destruct (current_endpoint_ s); by split.
  - done.
  - done.
  - done.
Defined.

(** [ResetConnection] makes the client idle but does not detach the query in
    progress: the callbacks of a select that was abandoned by resetting the
    connection are called for the packets of a later insert. *)
Lemma stale_callbacks :
  let s := mkImpl Query_empty Query_empty NoEvents false (Some (BufferedInput_new (mkChunkSource [] 7) 8192))
    (Some (BufferedOutput_new (mkChunkSink [] 5) 8192)) (mkRoundRobin three_endpoints 0) (head three_endpoints)
    (mkServerInfo [] [] [] 24 8 1 54459) Idle ∅
    (mkScript [Some (hello_message 54459 ++ varint_bytes ServerCodes.Data ++ example_header ++ varint_bytes ServerCodes.EndOfStream)] [])
    (mkWorld 0%nat Block_new) in
  let run := run_all store_lz4 store_zstd (fun _ => 0) false (options_for three_endpoints) 10 in
  let '(r1, s1) := run [RBegin counting_query; RReset; RInsert (str "t") [] example_block] s in
  let '(r2, s2) := run [RReset; RInsert (str "t") [] example_block] s in
  r1 = [Ok false; Ok false; Ok false] /\ app (world s1) = 1%nat /\ r2 = [Ok false; Ok false] /\ app (world s2) = 0%nat.
Proof. vm_compute. split_and!; reflexivity. Qed.
