(* ===== verification/Sockets.v ===== *)
(** * Sockets (clickhouse/base/socket.h, socket.cpp)

    Connecting, owning and using a TCP socket.  The system calls are parameters: [SocketApi] has one operation per call
    on the state of the operating system, [SocketApiLaws] what POSIX says of the descriptors they open and close;
    a connected socket is a receiving half and a sending half, with [recv] and [send].  The code modelled is that of
    the unix build. *)

From S2P Require Import Prelude Text Streams Endpoints Client.

#[local] Set Warnings "-register-all".

(** ** System calls *)

Definition INVALID_SOCKET : Z := -1.
Definition EINTR : Z := 4.
Definition EAGAIN : Z := 11.
Definition EWOULDBLOCK : Z := 11.
Definition ETIMEDOUT : Z := 110.
Definition EINPROGRESS : Z := 115.
Definition O_NONBLOCK : Z := 2048.
Definition AI_ADDRCONFIG : Z := 32.

(** One element of the list [getaddrinfo] returns. *)
Record addrinfo := mkAddrinfo { ai_family : Z; ai_socktype : Z; ai_protocol : Z; ai_addr : bytes }.

Inductive sockopt := SO_RCVTIMEO | SO_SNDTIMEO | SO_KEEPALIVE | TCP_KEEPIDLE | TCP_KEEPINTVL | TCP_KEEPCNT | TCP_NODELAY.

Class SocketApi (W : Type) := {
  sys_getaddrinfo : bytes -> bytes -> Z -> W -> (Z * list addrinfo) * W;   (** host, port and [ai_flags] *)
  sys_freeaddrinfo : list addrinfo -> W -> W;
  sys_socket : addrinfo -> W -> Z * W;
  sys_getfl : Z -> W -> Z * W;                                             (** [fcntl(fd, F_GETFL, 0)] *)
  sys_setfl : Z -> Z -> W -> Z * W;                                        (** [fcntl(fd, F_SETFL, flags)] *)
  sys_setsockopt : Z -> sockopt -> Z * Z -> W -> Z * W;                    (** an [int] is [(v, 0)], a [timeval] its two fields *)
  sys_connect : Z -> addrinfo -> W -> Z * W;
  sys_poll : Z -> Z -> W -> Z * W;                                         (** wait for [POLLOUT] *)
  sys_so_error : Z -> W -> Z * W;                                          (** the value of [SO_ERROR] *)
  sys_close : Z -> W -> W;
  sys_errno : W -> Z;
}.

(** The descriptors that are open, and what each call does to them. *)
Class SocketApiLaws (W : Type) `{SocketApi W} := {
  open_fds : W -> gset Z;
  socket_law : forall a w fd w', sys_socket a w = (fd, w') ->
    (fd = INVALID_SOCKET /\ open_fds w' = open_fds w) \/ (0 <= fd /\ (fd ∉ open_fds w) /\ open_fds w' = {[fd]} ∪ open_fds w);
  close_law : forall fd w, open_fds (sys_close fd w) = open_fds w ∖ {[fd]};
  getaddrinfo_law : forall h p f w r w', sys_getaddrinfo h p f w = (r, w') -> open_fds w' = open_fds w;
  freeaddrinfo_law : forall l w, open_fds (sys_freeaddrinfo l w) = open_fds w;
  getfl_law : forall fd w r w', sys_getfl fd w = (r, w') -> open_fds w' = open_fds w;
  setfl_law : forall fd f w r w', sys_setfl fd f w = (r, w') -> open_fds w' = open_fds w;
  setsockopt_law : forall fd o v w r w', sys_setsockopt fd o v w = (r, w') -> open_fds w' = open_fds w;
  connect_law : forall fd a w r w', sys_connect fd a w = (r, w') -> open_fds w' = open_fds w;
  poll_law : forall fd t w r w', sys_poll fd t w = (r, w') -> open_fds w' = open_fds w;
  so_error_law : forall fd w r w', sys_so_error fd w = (r, w') -> open_fds w' = open_fds w;
}.

(** [SocketTimeoutParams], in milliseconds. *)
Record SocketTimeoutParams := mkTimeouts { connect_timeout : Z; recv_timeout : Z; send_timeout : Z }.

(** The options of [ClientOptions] that concern the socket. *)
Record SocketOptions := mkSocketOptions {
  connection_timeouts : SocketTimeoutParams;
  tcp_keepalive : bool;
  tcp_keepalive_idle : Z;
  tcp_keepalive_intvl : Z;
  tcp_keepalive_cnt : Z;
  tcp_nodelay : bool;
}.

(** ** Connecting *)
Section Connect.
Context {W : Type} `{SocketApi W}.

(** A system call; it does not throw. *)
Definition call {A} (f : W -> A * W) : M W A := fun w => let '(a, w) := f w in (Ok a, w).

Definition SetNonBlock (fd : Z) (value : bool) : M W unit :=
  let* flags := call (sys_getfl fd) in
  let flags := if flags =? -1 then 0 else flags in
  let flags := if value then Z.lor flags O_NONBLOCK else Z.land flags (Z.lnot O_NONBLOCK) in
  let* r := call (sys_setfl fd flags) in
  if r =? -1 then throw SystemError else ret tt.

(** [timeval] of a number of milliseconds. *)
Definition timeval (ms : Z) : Z * Z := (Z.quot ms 1000, Z.rem ms 1000 * 1000).

Definition SetTimeout (fd : Z) (p : SocketTimeoutParams) : M W unit :=
  let* recv_ret := call (sys_setsockopt fd SO_RCVTIMEO (timeval (recv_timeout p))) in
  let* send_ret := call (sys_setsockopt fd SO_SNDTIMEO (timeval (send_timeout p))) in
  if (recv_ret =? -1) || (send_ret =? -1) then throw SystemError else ret tt.

Definition CloseSocket (fd : Z) : M W unit :=
  if fd =? INVALID_SOCKET then ret tt else modify (sys_close fd).

(** [SocketRAIIWrapper]: the socket is closed when the scope is left, by an exception too, unless it was released,
    which [body] reports by [inr]. *)
Definition with_socket (fd : Z) (body : M W (Z + Z)) : M W (Z + Z) :=
  fun w => match body w with
           | (Ok (inl last_err), w) => let '(_, w) := CloseSocket fd w in (Ok (inl last_err), w)
           | (Ok (inr released), w) => (Ok (inr released), w)
           | (Throw e, w) => let '(_, w) := CloseSocket fd w in (Throw e, w)
           end.

(** One iteration of the loop of [SocketConnect]: [inl last_err] goes on, [inr fd] is the connected socket. *)
Definition SocketConnect_step (p : SocketTimeoutParams) (res : addrinfo) (last_err : Z) : M W (Z + Z) :=
  let* s := call (sys_socket res) in
  with_socket s (
    if s =? INVALID_SOCKET then ret (inl last_err)
    else
      SetNonBlock s true ;;;
      SetTimeout s p ;;;
      let* c := call (sys_connect s res) in
      if negb (c =? 0) then
        let* w := get in
        let err := sys_errno w in
        if (err =? EINPROGRESS) || (err =? EAGAIN) || (err =? EWOULDBLOCK) then
          let* rval := call (sys_poll s (swrap 32 (connect_timeout p))) in
          if rval =? -1 then throw SystemError
          else
            let last_err := if rval =? 0 then ETIMEDOUT else last_err in
            if 0 <? rval then
              let* err := call (sys_so_error s) in
              if err =? 0 then SetNonBlock s false ;;; ret (inr s) else ret (inl err)
            else ret (inl last_err)
        else ret (inl last_err)
      else SetNonBlock s false ;;; ret (inr s)).

(** The loop; the two throws after it differ in the error code only. *)
Fixpoint SocketConnect_loop (p : SocketTimeoutParams) (info : list addrinfo) (last_err : Z) : M W Z :=
  match info with
  | [] => throw SystemError
  | res :: info =>
    let* r := SocketConnect_step p res last_err in
    match r with inr s => ret s | inl last_err => SocketConnect_loop p info last_err end
  end.

Definition SocketConnect (info : list addrinfo) (p : SocketTimeoutParams) : M W Z := SocketConnect_loop p info 0.

Definition LocalNames : list bytes :=
  [str "localhost"; str "localhost.localdomain"; str "localhost6"; str "localhost6.localdomain6"; str "::1"; str "127.0.0.1"].

Definition IsLocalName (name : bytes) : bool := existsb (bytes_eqb name) LocalNames.

Definition NetworkAddress_new (host port : bytes) : M W (list addrinfo) :=
  let flags := if IsLocalName host then 0 else AI_ADDRCONFIG in
  let* '(error, info) := call (sys_getaddrinfo (c_str host) (c_str port) flags) in
  if negb (error =? 0) then throw SystemError else ret info.

(** A computation with an address, which is freed when the scope is left. *)
Definition with_address {A} (info : list addrinfo) (m : M W A) : M W A :=
  fun w => let '(r, w) := m w in (r, match info with [] => w | _ => sys_freeaddrinfo info w end).

(** *** The class Socket *)

(** [handle_]. *)
Record Socket := mkSocket { handle_ : Z }.

Definition Socket_new (info : list addrinfo) (p : SocketTimeoutParams) : M W Socket :=
  let* fd := SocketConnect info p in ret (mkSocket fd).

(** [Close()], which the destructor calls. *)
Definition Socket_Close (s : Socket) : M W Socket :=
  CloseSocket (handle_ s) ;;; ret (mkSocket INVALID_SOCKET).

(** The move constructor: the new object and what is left of [other]. *)
Definition Socket_move (other : Socket) : Socket * Socket := (mkSocket (handle_ other), mkSocket INVALID_SOCKET).

(** Move assignment from another object; assignment of an object to itself does nothing. *)
Definition Socket_move_assign (this other : Socket) : M W (Socket * Socket) :=
  Socket_Close this ;;; ret (Socket_move other).

Definition SetTcpKeepAlive (s : Socket) (idle intvl cnt : Z) : M W unit :=
  call (sys_setsockopt (handle_ s) SO_KEEPALIVE (1, 0)) ;;;
  call (sys_setsockopt (handle_ s) TCP_KEEPIDLE (idle, 0)) ;;;
  call (sys_setsockopt (handle_ s) TCP_KEEPINTVL (intvl, 0)) ;;;
  call (sys_setsockopt (handle_ s) TCP_KEEPCNT (cnt, 0)) ;;;
  ret tt.

Definition SetTcpNoDelay (s : Socket) (nodelay : bool) : M W unit :=
  call (sys_setsockopt (handle_ s) TCP_NODELAY (Z.b2z nodelay, 0)) ;;; ret tt.

Definition setSocketOptions (opts : SocketOptions) (s : Socket) : M W unit :=
  when (tcp_keepalive opts)
    (SetTcpKeepAlive s (swrap 32 (tcp_keepalive_idle opts)) (swrap 32 (tcp_keepalive_intvl opts)) (swrap 32 (tcp_keepalive_cnt opts))) ;;;
  when (tcp_nodelay opts) (SetTcpNoDelay s (tcp_nodelay opts)).

Definition doConnect (info : list addrinfo) (opts : SocketOptions) : M W Socket := Socket_new info (connection_timeouts opts).

(** [NonSecureSocketFactory::connect]. *)
Definition NonSecureSocketFactory_connect (opts : SocketOptions) (e : Endpoint) : M W Socket :=
  let* address := NetworkAddress_new (ep_host e) (to_string (ep_port e)) in
  with_address address (
    let* socket := doConnect address opts in
    setSocketOptions opts socket ;;;
    ret socket).
End Connect.

(** ** A connected socket *)

(** What [recv] returns: the bytes, or -1 and the error. *)
Inductive recv_result := Received (data : bytes) | RecvFailed (errno : Z).

Class ReceiveHalf (R : Type) := { sys_recv : Z -> R -> recv_result * R }.

(** [send] of the bytes: how many were sent, or -1. *)
Class SendHalf (T : Type) := { sys_send : bytes -> T -> Z * T }.

(** A parameter of type [size_t] given an [int]: [(int)len] as the argument of [recv] and [send]. *)
Definition int_size (len : Z) : Z := wrap 64 (swrap 32 len).

(** More calls of [recv] than any process makes. *)
Definition recv_fuel : positive := (2 ^ 64)%positive.

Section Streams.
Context {R : Type} `{ReceiveHalf R}.

(** The loop around [recv], which is repeated while it is interrupted by a signal. *)
Definition recv_step (len : Z) (_ : unit) : M R (unit + recv_result) :=
  fun r => let '(res, r) := sys_recv (int_size len) r in
           match res with
           | RecvFailed e => if e =? EINTR then (Ok (inl tt), r) else (Ok (inr res), r)
           | Received _ => (Ok (inr res), r)
           end.

(** Bytes behind the end of the buffer of [len] bytes are undefined behaviour. *)
Definition SocketInput_DoRead (len : Z) : M R bytes :=
  let* res := while recv_fuel (recv_step len) tt in
  match res with
  | RecvFailed _ => throw SystemError
  | Received data =>
    if bool_decide (data = []) && negb (len =? 0) then throw ProtocolError
    else if len <? zlen data then throw Undefined
    else ret data
  end.

Definition SocketInput_Skip (_ : Z) : M R bool := ret false.

#[local] Instance SocketInput : InputStream R := {| DoRead := SocketInput_DoRead; Skip := SocketInput_Skip |}.

Context {T : Type} `{SendHalf T}.

(** The bytes are those of [data]; a size beyond them makes [send] read behind the end. *)
Definition SocketOutput_DoWrite (data : bytes) : M T Z :=
  if zlen data <? int_size (zlen data) then throw Undefined
  else
    fun t => let '(r, t) := sys_send (ztake (int_size (zlen data)) data) t in
             if r <? 0 then (Throw SystemError, t) else (Ok r, t).

#[local] Instance SocketOutput : OutputStream T := {| DoWrite := SocketOutput_DoWrite; DoFlush := ret tt |}.

(** *** The factory the client uses *)

Context {W : Type} `{SocketApi W} (opts : SocketOptions).

(** The halves of a connected socket ([makeInputStream], [makeOutputStream]), and sleeping. *)
Context (halves : Socket -> W -> R * T) (sleep : Z -> W -> W).

#[local] Instance NonSecureSocketFactory : SocketFactory W R T := {|
  connect e :=
    let* s := NonSecureSocketFactory_connect opts e in
    let* w := get in
    ret (halves s w);
  sleepFor ms := modify (sleep ms);
|}.
End Streams.

(** ** What the network promises *)

(** A receiving half that is alive: the peer's bytes arrive in order, some of them with each call that is not interrupted,
    and there are [interruptions] before the next one that is not. *)
Class ReceiveLaws (R : Type) `{ReceiveHalf R} := {
  arriving : R -> bytes;
  interruptions : R -> nat;
  alive : R -> Prop;
  recv_law : forall size r, alive r -> 0 < size ->
    match interruptions r with
    | S n => exists r', sys_recv size r = (RecvFailed EINTR, r') /\ interruptions r' = n /\ arriving r' = arriving r /\ alive r'
    | O => exists data r', sys_recv size r = (Received data, r') /\ zlen data <= size /\ arriving r = data ++ arriving r' /\ alive r' /\
             (data = [] <-> arriving r = []) /\ (Z.of_nat (interruptions r') < 2 ^ 64)
    end;
  recv_empty : forall r, alive r -> interruptions r = O -> sys_recv 0 r = (Received [], r);
}.

(** A sending half that is alive: each call takes some of the bytes. *)
Class SendLaws (T : Type) `{SendHalf T} := {
  sent : T -> bytes;
  sending : T -> Prop;
  send_law : forall data t, sending t -> data <> [] -> exists n t', sys_send data t = (n, t') /\ 0 < n <= zlen data /\
    sent t' = sent t ++ ztake n data /\ sending t';
}.

(** ** Proofs: descriptors *)
Section Descriptors.
Context {W : Type} `{SocketApiLaws W}.

(** [m] opens and closes nothing, and its outcome satisfies [Q]. *)
Definition quiet {A} (m : M W A) (Q : result A -> Prop) : Prop :=
  forall w, Q (fst (m w)) /\ open_fds (snd (m w)) = open_fds w.

Lemma quiet_ret {A} (a : A) (Q : result A -> Prop) : Q (Ok a) -> quiet (ret a) Q.
Proof using Type. by intros HQ w. Qed.

Lemma quiet_throw {A} (e : exn) (Q : result A -> Prop) : Q (Throw e) -> quiet (throw e) Q.
Proof using Type. by intros HQ w. Qed.

Lemma quiet_bind {A B} (m : M W A) (k : A -> M W B) (P : result A -> Prop) (Q : result B -> Prop) :
  quiet m P -> (forall a, P (Ok a) -> quiet (k a) Q) -> (forall e, P (Throw e) -> Q (Throw e)) -> quiet (bind m k) Q.
Proof using Type.
  intros Hm Hk He w. unfold bind. specialize (Hm w). destruct (m w) as [[a|e] w1]; cbn in Hm |- *; destruct Hm as [HP Ho].
  - destruct (Hk a HP w1) as [HQ Ho']. by rewrite Ho', Ho.
  - split; [by apply He|done].
Qed.

Lemma quiet_call {A} (f : W -> A * W) (Q : result A -> Prop) :
  (forall w a w', f w = (a, w') -> open_fds w' = open_fds w /\ Q (Ok a)) -> quiet (call f) Q.
Proof using Type. intros Hf w. unfold call. destruct (f w) as [a w'] eqn:E. by destruct (Hf w a w' E). Qed.

Definition no_throw {A} (r : result A) : Prop := exists a, r = Ok a.

(** Only [std::system_error] is thrown. *)
Definition system_errors {A} (r : result A) : Prop := match r with Ok _ => True | Throw e => e = SystemError end.

Ltac quiet_step :=
  lazymatch goal with
  | |- quiet (bind (call _) _) _ =>
    eapply (quiet_bind _ _ no_throw);
      [apply quiet_call; intros ? ? ? ?; split; [eauto using getfl_law, setfl_law, setsockopt_law, connect_law, poll_law, so_error_law|eexists; reflexivity]
      |intros ? _|intros ? [? ?]; discriminate]
  | |- quiet (if ?b then _ else _) _ => destruct b
  | |- quiet (ret _) _ => apply quiet_ret
  | |- quiet (throw _) _ => apply quiet_throw
  end.

Lemma SetNonBlock_quiet (fd : Z) (value : bool) : quiet (SetNonBlock fd value) system_errors.
Proof using Type. unfold SetNonBlock. by repeat quiet_step. Qed.

Lemma SetTimeout_quiet (fd : Z) (p : SocketTimeoutParams) : quiet (SetTimeout fd p) system_errors.
Proof using Type. unfold SetTimeout. by repeat quiet_step. Qed.

(** A released socket is the one of the scope. *)
Definition releases (s : Z) (r : result (Z + Z)) : Prop :=
  match r with Ok (inl _) => True | Ok (inr fd) => fd = s | Throw e => e = SystemError end.

Lemma close_new (s : Z) (w w0 : W) : 0 <= s -> s ∉ open_fds w0 -> open_fds w = {[s]} ∪ open_fds w0 ->
  exists w', CloseSocket s w = (Ok tt, w') /\ open_fds w' = open_fds w0.
Proof using Type.
  intros Hs Hn Ho. unfold CloseSocket, modify. rewrite (proj2 (Z.eqb_neq _ _)) by (unfold INVALID_SOCKET; lia).
  eexists. split; [done|]. rewrite close_law, Ho. apply set_eq. intros x. rewrite elem_of_difference, elem_of_union, elem_of_singleton.
  split; [by intros [[-> | Hx] Hne]|]. intros Hx. split; [by right|by intros ->].
Qed.

(** The socket of an attempt: handed out, or closed again. *)
Definition opened (w : W) (r : result Z) (w' : W) : Prop :=
  match r with
  | Ok fd => 0 <= fd /\ (fd ∉ open_fds w) /\ open_fds w' = {[fd]} ∪ open_fds w
  | Throw e => e = SystemError /\ open_fds w' = open_fds w
  end.

Lemma with_socket_ok (s : Z) (body : M W (Z + Z)) (w0 w : W) : quiet body (releases s) -> 0 <= s -> s ∉ open_fds w0 ->
  open_fds w = {[s]} ∪ open_fds w0 ->
  match with_socket s body w with
  | (Ok (inl _), w') => open_fds w' = open_fds w0
  | (Ok (inr fd), w') => opened w0 (Ok fd) w'
  | (Throw e, w') => opened w0 (Throw e) w'
  end.
Proof using Type.
  intros Hq Hs Hn Ho. unfold with_socket. specialize (Hq w). destruct (body w) as [[[le|fd]|e] w1]; cbn in Hq; destruct Hq as [HQ Ho1].
  - destruct (close_new s w1 w0 Hs Hn ltac:(congruence)) as (w2 & -> & Ho2). done.
  - subst fd. split_and!; [done|done|congruence].
  - destruct (close_new s w1 w0 Hs Hn ltac:(congruence)) as (w2 & -> & Ho2). done.
Qed.

Lemma attempt_quiet (p : SocketTimeoutParams) (res : addrinfo) (last_err s : Z) : s <> INVALID_SOCKET ->
  quiet (SetNonBlock s true ;;;
      SetTimeout s p ;;;
      let* c := call (sys_connect s res) in
      if negb (c =? 0) then
        let* w := get in
        let err := sys_errno w in
        if (err =? EINPROGRESS) || (err =? EAGAIN) || (err =? EWOULDBLOCK) then
          let* rval := call (sys_poll s (swrap 32 (connect_timeout p))) in
          if rval =? -1 then throw SystemError
          else
            let last_err := if rval =? 0 then ETIMEDOUT else last_err in
            if 0 <? rval then
              let* err := call (sys_so_error s) in
              if err =? 0 then SetNonBlock s false ;;; ret (inr s) else ret (inl err)
            else ret (inl last_err)
        else ret (inl last_err)
      else SetNonBlock s false ;;; ret (inr s)) (releases s).
Proof using Type.
  intros Hs.
  assert (quiet (SetNonBlock s false ;;; ret (inr s)) (releases s)) as Hrel
    by (eapply quiet_bind; [apply SetNonBlock_quiet|intros ? _; by apply quiet_ret|by intros e ->]).
  eapply quiet_bind; [apply SetNonBlock_quiet|intros ? _|by intros e ->].
  eapply quiet_bind; [apply SetTimeout_quiet|intros ? _|by intros e ->].
  quiet_step. destruct (negb (_ =? 0)); [|exact Hrel].
  eapply (quiet_bind _ _ no_throw); [by intros w; split; [eexists|]|intros w _|by intros e [? ?]].
  cbn zeta. destruct (_ || _); [|by apply quiet_ret]. quiet_step. destruct (_ =? -1); [by apply quiet_throw|].
  destruct (0 <? _); [|by apply quiet_ret]. quiet_step. destruct (_ =? 0); [exact Hrel|by apply quiet_ret].
Qed.

Lemma SocketConnect_step_ok (p : SocketTimeoutParams) (res : addrinfo) (last_err : Z) (w : W) :
  match SocketConnect_step p res last_err w with
  | (Ok (inl _), w') => open_fds w' = open_fds w
  | (Ok (inr fd), w') => opened w (Ok fd) w'
  | (Throw e, w') => opened w (Throw e) w'
  end.
Proof using Type.
  unfold SocketConnect_step, bind at 1, call at 1. destruct (sys_socket res w) as [s w1] eqn:E.
  destruct (socket_law _ _ _ _ E) as [[-> Ho]|(Hs & Hn & Ho)].
  - cbn. done.
  - assert (s <> INVALID_SOCKET) as Hne by (unfold INVALID_SOCKET; lia). rewrite (proj2 (Z.eqb_neq _ _) Hne).
    apply with_socket_ok; try done. by apply attempt_quiet.
Qed.

Lemma SocketConnect_opened (info : list addrinfo) (p : SocketTimeoutParams) (w : W) :
  opened w (fst (SocketConnect info p w)) (snd (SocketConnect info p w)).
Proof using Type.
  unfold SocketConnect. generalize 0 as last_err. revert w. induction info as [|res info IH]; intros w last_err; [done|].
  cbn [SocketConnect_loop]. unfold bind. pose proof (SocketConnect_step_ok p res last_err w) as Hs.
  destruct (SocketConnect_step p res last_err w) as [[[le|fd]|e] w1]; [|done|done].
  specialize (IH w1 le). unfold opened in *. by rewrite Hs in IH.
Qed.

Lemma setSocketOptions_quiet (opts : SocketOptions) (s : Socket) : quiet (setSocketOptions opts s) no_throw.
Proof using Type.
  assert (forall fd o v, quiet (call (sys_setsockopt fd o v)) no_throw) as Hset
    by (intros fd o v; apply quiet_call; intros w r w' E; split; [by eapply setsockopt_law|by eexists]).
  assert (forall (k : Z -> M W unit) fd o v, (forall a, quiet (k a) no_throw) -> quiet (bind (call (sys_setsockopt fd o v)) k) no_throw) as Hstep.
  { intros k fd o v Hk. apply (quiet_bind _ _ no_throw); [apply Hset|by intros a _|by intros e [? ?]]. }
  unfold setSocketOptions. apply (quiet_bind _ _ no_throw); [|intros _ _|by intros e [? ?]].
  - destruct (tcp_keepalive opts); cbn [when]; [|by apply quiet_ret; eexists]. repeat (apply Hstep; intros _). by apply quiet_ret; eexists.
  - destruct (tcp_nodelay opts); cbn [when]; [|by apply quiet_ret; eexists]. apply Hstep. intros _. by apply quiet_ret; eexists.
Qed.

(** The whole of [connect]: the one socket that is handed out is the only descriptor left open. *)
Lemma connect_opened (opts : SocketOptions) (e : Endpoint) (w : W) :
  match NonSecureSocketFactory_connect opts e w with
  | (Ok s, w') => opened w (Ok (handle_ s)) w'
  | (Throw e, w') => opened w (Throw e) w'
  end.
Proof using Type.
  unfold NonSecureSocketFactory_connect, NetworkAddress_new, bind at 1 2, call at 1.
  destruct (sys_getaddrinfo _ _ _ w) as [[error info] w1] eqn:Eg. apply getaddrinfo_law in Eg.
  destruct (negb (error =? 0)); cbn [throw ret]; [by split|]. unfold with_address, doConnect, Socket_new, bind.
  pose proof (SocketConnect_opened info (connection_timeouts opts) w1) as Hc.
  assert (forall w, open_fds (match info with [] => w | _ => sys_freeaddrinfo info w end) = open_fds w) as Hf
    by (intros w'; destruct info; [done|apply freeaddrinfo_law]).
  destruct (SocketConnect info (connection_timeouts opts) w1) as [[fd|x] w2]; cbn in Hc |- *; rewrite Eg in Hc.
  - destruct (setSocketOptions_quiet opts (mkSocket fd) w2) as [[[] Ht] Ho].
    destruct (setSocketOptions opts (mkSocket fd) w2) as [r w3]. cbn in Ht, Ho. subst r. cbn. by rewrite Hf, Ho.
  - by rewrite Hf.
Qed.
End Descriptors.

(** ** Proofs: ownership

    Socket objects in numbered places; what the program can do with them. *)
Section Ownership.
Context {W : Type} `{SocketApiLaws W}.

Inductive socket_op :=
| Construct (i : nat) (info : list addrinfo) (p : SocketTimeoutParams)   (** [Socket(addr, timeouts)] in place [i] *)
| Connect (i : nat) (opts : SocketOptions) (e : Endpoint)                (** [NonSecureSocketFactory::connect] *)
| MoveConstruct (i j : nat)                                              (** a [Socket] in place [i] from the moved one in place [j] *)
| MoveAssign (i j : nat)                                                 (** assignment of the moved socket in place [j] *)
| Destroy (i : nat).

Abbreviation objects := (gmap nat Socket).

(** Run an operation; one that names a place it cannot use does nothing. *)
Definition run_op (o : socket_op) (s : objects * W) : objects * W :=
  let '(objs, w) := s in
  match o with
  | Construct i info p =>
    match objs !! i with
    | Some _ => s
    | None => match Socket_new info p w with
              | (Ok x, w) => (<[i := x]> objs, w)
              | (Throw _, w) => (objs, w)
              end
    end
  | Connect i opts e =>
    match objs !! i with
    | Some _ => s
    | None => match NonSecureSocketFactory_connect opts e w with
              | (Ok x, w) => (<[i := x]> objs, w)
              | (Throw _, w) => (objs, w)
              end
    end
  | MoveConstruct i j =>
    match objs !! i, objs !! j with
    | None, Some other => let '(x, other) := Socket_move other in (<[i := x]> (<[j := other]> objs), w)
    | _, _ => s
    end
  | MoveAssign i j =>
    if bool_decide (i = j) then s
    else match objs !! i, objs !! j with
         | Some this, Some other =>
           match Socket_move_assign this other w with
           | (Ok (x, other), w) => (<[i := x]> (<[j := other]> objs), w)
           | (Throw _, w) => (objs, w)
           end
         | _, _ => s
         end
  | Destroy i =>
    match objs !! i with
    | Some x => let '(_, w) := Socket_Close x w in (delete i objs, w)
    | None => s
    end
  end.

(** The object in place [i] has the descriptor [fd]. *)
Definition holds (objs : objects) (i : nat) (fd : Z) : Prop :=
  exists x, objs !! i = Some x /\ handle_ x = fd /\ fd <> INVALID_SOCKET.

(** Every open descriptor that was not there before ([base]) belongs to an object, and every descriptor an object has is
    open, is not one of [base] and belongs to no other object. *)
Definition owned (base : gset Z) (s : objects * W) : Prop :=
  let '(objs, w) := s in
  base ⊆ open_fds w /\
  (forall i fd, holds objs i fd -> fd ∈ open_fds w /\ (fd ∉ base) /\ forall j, holds objs j fd -> i = j) /\
  (forall fd, fd ∈ open_fds w -> fd ∈ base \/ exists i, holds objs i fd).

Lemma holds_insert (objs : objects) (i k : nat) (x : Socket) (fd : Z) :
  holds (<[i := x]> objs) k fd <-> (k = i /\ handle_ x = fd /\ fd <> INVALID_SOCKET) \/ (k <> i /\ holds objs k fd).
Proof using Type.
  unfold holds. destruct (decide (k = i)) as [-> | Hk].
  - rewrite lookup_insert_eq. split; [intros (y & [= <-] & H1 & H2); by left|intros [(_ & H1 & H2)|[Hk _]]; [by exists x|done]].
  - rewrite lookup_insert_ne by done. split; [intros Hy; by right|intros [[-> _]|[_ Hy]]; done].
Qed.

Lemma holds_delete (objs : objects) (i k : nat) (fd : Z) : holds (delete i objs) k fd <-> k <> i /\ holds objs k fd.
Proof using Type.
  unfold holds. destruct (decide (k = i)) as [-> | Hk].
  - rewrite lookup_delete_eq. split; [by intros (y & ? & _)|by intros [Hk _]].
  - rewrite lookup_delete_ne by done. split; [done|by intros [_ ?]].
Qed.

(** *** The steps of the operations *)

Lemma owned_same (base : gset Z) (objs objs' : objects) (w : W) : (forall k fd, holds objs' k fd <-> holds objs k fd) ->
  owned base (objs, w) -> owned base (objs', w).
Proof using Type.
  intros Hh (Hb & H1 & H2). split_and!; [done| |].
  - intros i fd Hi. apply Hh in Hi. destruct (H1 i fd Hi) as (Ho & Hn & Hu). split_and!; [done|done|]. intros j Hj. by apply Hu, Hh.
  - intros fd Hfd. destruct (H2 fd Hfd) as [Hx|[i Hi]]; [by left|]. right. exists i. by apply Hh.
Qed.

Lemma owned_new (base : gset Z) (objs : objects) (w w' : W) (i : nat) (fd : Z) : owned base (objs, w) -> objs !! i = None ->
  opened w (Ok fd) w' -> owned base (<[i := mkSocket fd]> objs, w').
Proof using Type.
  intros (Hb & H1 & H2) Hi (Hfd & Hn & Ho). assert (fd <> INVALID_SOCKET) as Hv by (unfold INVALID_SOCKET; lia).
  assert (forall k, holds objs k fd -> False) as Hnone by (intros k Hk; destruct (H1 k fd Hk) as [? _]; done).
  split_and!.
  - rewrite Ho. apply union_subseteq_r'. done.
  - intros k x [(-> & <- & _)|[Hk Hx]]%holds_insert; cbn [handle_].
    + split_and!; [rewrite Ho; apply elem_of_union_l, elem_of_singleton; done|intros Hbf; by apply Hn, Hb|].
      intros j [(-> & _)|[_ Hj]]%holds_insert; [done|]. by destruct (Hnone j).
    + destruct (H1 k x Hx) as (Hxo & Hxb & Hu). split_and!; [rewrite Ho; by apply elem_of_union_r|done|].
      intros j [(-> & Hj & _)|[_ Hj]]%holds_insert; [|by apply Hu]. cbn in Hj. subst x. by destruct (Hnone k).
  - intros x Hx. rewrite Ho in Hx. apply elem_of_union in Hx as [->%elem_of_singleton|Hx].
    + right. exists i. apply holds_insert. by left.
    + destruct (H2 x Hx) as [?|[k Hk]]; [by left|]. right. exists k. apply holds_insert. right. split; [|done].
      intros ->. destruct Hk as (y & Hy & _). congruence.
Qed.

Lemma owned_close (base : gset Z) (objs : objects) (w : W) (i : nat) (x : Socket) : owned base (objs, w) -> objs !! i = Some x ->
  exists w', CloseSocket (handle_ x) w = (Ok tt, w') /\ owned base (<[i := mkSocket INVALID_SOCKET]> objs, w').
Proof using Type.
  intros (Hb & H1 & H2) Hi. unfold CloseSocket. destruct (Z.eqb_spec (handle_ x) INVALID_SOCKET) as [Hv|Hv].
  - eexists. split; [done|]. apply (owned_same base objs); [|by split_and!]. intros k fd. rewrite holds_insert. cbn [handle_].
    split; [intros [(_ & Hf & Hv')|[_ Hk]]; [congruence|done]|]. intros Hk. right. split; [|done]. intros ->.
    destruct Hk as (y & Hy & Hf & Hv'). congruence.
  - assert (holds objs i (handle_ x)) as Hx by (by exists x). destruct (H1 _ _ Hx) as (Ho & Hn & Hu).
    eexists. split; [done|]. split_and!.
    + intros y Hy. rewrite close_law. apply elem_of_difference. split; [by apply Hb|]. intros ->%elem_of_singleton. done.
    + intros k fd [(_ & Hf & Hv')|[Hk Hf]]%holds_insert; [cbn in Hf; congruence|]. destruct (H1 k fd Hf) as (Hfo & Hfb & Hfu). split_and!; [|done|].
      * rewrite close_law. apply elem_of_difference. split; [done|]. intros ->%elem_of_singleton. by apply Hk, Hfu.
      * intros j [(_ & Hf' & Hv')|[_ Hj]]%holds_insert; [cbn in Hf'; congruence|by apply Hfu].
    + intros fd Hfd. rewrite close_law in Hfd. apply elem_of_difference in Hfd as [Hfd Hne]. destruct (H2 fd Hfd) as [?|[k Hk]]; [by left|].
      right. exists k. apply holds_insert. right. split; [|done]. intros ->. destruct Hk as (y & Hy & Hf & _).
      apply Hne, elem_of_singleton. congruence.
Qed.

Lemma owned_move (base : gset Z) (objs : objects) (w : W) (i j : nat) (y : Socket) : owned base (objs, w) -> i <> j ->
  (forall fd, ~ holds objs i fd) -> objs !! j = Some y ->
  owned base (<[i := mkSocket (handle_ y)]> (<[j := mkSocket INVALID_SOCKET]> objs), w).
Proof using Type.
  intros (Hb & H1 & H2) Hij Hi Hj.
  assert (forall k fd, holds (<[i := mkSocket (handle_ y)]> (<[j := mkSocket INVALID_SOCKET]> objs)) k fd <->
    (k = i /\ holds objs j fd) \/ (k <> i /\ k <> j /\ holds objs k fd)) as Hh.
  { intros k fd. rewrite !holds_insert. cbn [handle_]. split.
    - intros [(-> & Hf & Hv)|(Hk & [(_ & Hf & Hv)|[Hkj Hk']])]; [left; split; [done|by exists y]|congruence|by right].
    - intros [(-> & (z & Hz & Hf & Hv))|(Hk & Hkj & Hk')]; [left; split_and!; [done|congruence|done]|]. right. split; [done|]. by right. }
  split_and!; [done| |].
  - intros k fd [(-> & Hf)|(Hk & Hkj & Hf)]%Hh; destruct (H1 _ _ Hf) as (Ho & Hn & Hu); split_and!; try done; intros k'.
    + intros [(-> & _)|(_ & Hkj' & Hf')]%Hh; [done|]. by destruct Hkj'; symmetry; apply Hu.
    + intros [(-> & Hf')|(_ & _ & Hf')]%Hh; [by destruct Hkj; apply Hu|by apply Hu].
  - intros fd Hfd. destruct (H2 fd Hfd) as [?|[k Hk]]; [by left|]. right. destruct (decide (k = j)) as [-> | Hkj].
    + exists i. apply Hh. by left.
    + exists k. apply Hh. right. split_and!; try done. intros ->. by apply (Hi fd).
Qed.

Lemma run_op_owned (base : gset Z) (o : socket_op) (s : gmap nat Socket * W) : owned base s -> owned base (run_op o s).
Proof using Type.
  destruct s as [objs w]. intros Ho. destruct o as [i info p|i opts e|i j|i j|i]; cbn [run_op].
  - destruct (objs !! i) as [x|] eqn:Hi; [done|]. pose proof (SocketConnect_opened info p w) as Hc.
    unfold Socket_new, bind. destruct (SocketConnect info p w) as [[fd|e] w1]; cbn in Hc |- *; [by apply (owned_new base objs w)|].
    destruct Hc as [_ Hc]. unfold owned. by rewrite Hc.
  - destruct (objs !! i) as [x|] eqn:Hi; [done|]. pose proof (connect_opened opts e w) as Hc.
    destruct (NonSecureSocketFactory_connect opts e w) as [[[fd]|x] w1]; [by apply (owned_new base objs w)|].
    destruct Hc as [_ Hc]. unfold owned. by rewrite Hc.
  - destruct (objs !! i) as [x|] eqn:Hi; [done|]. destruct (objs !! j) as [y|] eqn:Hj; [|done]. cbn [Socket_move].
    apply owned_move; try done; [congruence|]. intros fd (z & Hz & _). congruence.
  - case_bool_decide as Hij; [done|]. destruct (objs !! i) as [x|] eqn:Hi; [|done]. destruct (objs !! j) as [y|] eqn:Hj; [|done].
    destruct (owned_close base objs w i x Ho Hi) as (w1 & E & Ho1). unfold Socket_move_assign, Socket_Close, bind. rewrite E. cbn [ret Socket_move].
    apply (owned_same base (<[i := mkSocket (handle_ y)]> (<[j := mkSocket INVALID_SOCKET]> (<[i := mkSocket INVALID_SOCKET]> objs)))).
    { intros k fd. rewrite !holds_insert. tauto. }
    apply owned_move; [done|done| |by rewrite lookup_insert_ne]. intros fd [(_ & Hf & Hv)|[Hk _]]%holds_insert; [by cbn in Hf|done].
  - destruct (objs !! i) as [x|] eqn:Hi; [|done].
    destruct (owned_close base objs w i x Ho Hi) as (w1 & E & Ho1). unfold Socket_Close, bind. rewrite E. cbn [ret].
    revert Ho1. apply owned_same. intros k fd. rewrite holds_delete, holds_insert. cbn [handle_]. split; [by right|].
    by intros [(-> & Hf & Hv)|Hk].
Qed.
End Ownership.

(** ** Proofs: the streams *)
Section Transfer.
Context {R : Type} `{ReceiveLaws R} {T : Type} `{SendLaws T}.

Lemma int_size_id (len : Z) : 0 <= len < 2 ^ 31 -> int_size len = len.
Proof using Type. intros Hl. unfold int_size. rewrite swrap_id by (unfold is_s; lia). apply wrap_id. unfold is_u. lia. Qed.

Lemma int_size_multiple (k : Z) : int_size (k * 2 ^ 32) = 0.
Proof using Type. unfold int_size. rewrite <- swrap_wrap by lia. unfold wrap at 2. rewrite Z.mod_mul by lia. done. Qed.

(** The loop around [recv] ends with the first call that is not interrupted. *)
Lemma recv_loop (len : Z) (r : R) : alive r -> 0 < int_size len -> Z.of_nat (interruptions r) < 2 ^ 64 ->
  exists data r', while recv_fuel (recv_step len) tt r = (Ok (Received data), r') /\ zlen data <= int_size len /\
    arriving r = data ++ arriving r' /\ alive r' /\ (data = [] <-> arriving r = []).
Proof using Type.
  intros Ha Hl Hi.
  destruct (while_rule (recv_step len) (fun _ s => alive s /\ arriving s = arriving r) (fun _ s => interruptions s)
    (fun b s => exists data, b = Received data /\ zlen data <= int_size len /\ arriving r = data ++ arriving s /\ alive s /\ (data = [] <-> arriving r = [])))
    with (fuel := recv_fuel) (a := tt) (s := r) as (b & r' & E & data & -> & HP).
  - intros [] s [Has Ear]. pose proof (recv_law (int_size len) s Has Hl) as Hr. unfold recv_step. destruct (interruptions s) as [|n].
    + destruct Hr as (data & s' & -> & Hle & Hd & Ha' & He & _). eexists (inr _), s'. split; [done|]. exists data.
      rewrite <- Ear. by split_and!.
    + destruct Hr as (s' & -> & Hn & Hd & Ha'). eexists (inl tt), s'. cbn. split; [done|]. split; [split; congruence|]. rewrite Hn. lia.
  - done.
  - apply Nat2Z.inj_lt. unfold recv_fuel. rewrite positive_nat_Z. exact Hi.
  - by exists data, r'.
Qed.
End Transfer.

(** ** A small operating system, for concrete runs *)

(** Descriptors in order; how each [connect] ends is scripted. *)
Inductive attempt := Refused | Connected | InProgress (poll so_error : Z) | NoSocket.

(** A descriptor that is not in use: one above the highest. *)
Definition fresh_fd (used : gset Z) : Z := 1 + set_fold Z.max 2 used.

Record TestOS := mkOS { os_open : gset Z; os_errno : Z; os_current : attempt; os_script : list attempt }.

Definition os_set_errno (e : Z) (w : TestOS) : TestOS := mkOS (os_open w) e (os_current w) (os_script w).

#[global] Instance TestOS_api : SocketApi TestOS := {|
  sys_getaddrinfo _ _ _ w := ((0, [mkAddrinfo 2 1 6 []; mkAddrinfo 10 1 6 []]), w);
  sys_freeaddrinfo _ w := w;
  sys_socket _ w :=
    match os_script w with
    | [] => (INVALID_SOCKET, w)
    | NoSocket :: l => (INVALID_SOCKET, mkOS (os_open w) 24 NoSocket l)
    | a :: l =>
      let fd := fresh_fd (os_open w) in
      (fd, mkOS ({[fd]} ∪ os_open w) (os_errno w) a l)
    end;
  sys_getfl _ w := (2, w);
  sys_setfl _ _ w := (0, w);
  sys_setsockopt _ _ _ w := (0, w);
  sys_connect _ _ w :=
    match os_current w with
    | Connected => (0, w)
    | InProgress _ _ => (-1, os_set_errno EINPROGRESS w)
    | _ => (-1, os_set_errno 111 w)
    end;
  sys_poll _ _ w := (match os_current w with InProgress p _ => p | _ => -1 end, w);
  sys_so_error _ w := (match os_current w with InProgress _ e => e | _ => 0 end, w);
  sys_close fd w := mkOS (os_open w ∖ {[fd]}) (os_errno w) (os_current w) (os_script w);
  sys_errno w := os_errno w;
|}.

Lemma fold_max_ge (l : list Z) (b : Z) : b <= foldr Z.max b l /\ forall x, x ∈ l -> x <= foldr Z.max b l.
Proof.
  induction l as [|y l [IH1 IH2]]; [split; [done|by intros x Hx%elem_of_nil]|]. cbn [foldr]. split; [lia|].
  intros x [-> | Hx]%elem_of_cons; [lia|]. specialize (IH2 x Hx). lia.
Qed.

Lemma fresh_fd_ok (used : gset Z) : 3 <= fresh_fd used /\ fresh_fd used ∉ used.
Proof.
  unfold fresh_fd, set_fold. cbn. destruct (fold_max_ge (elements used) 2) as [H1 H2]. split; [lia|].
  intros Hin. apply elem_of_elements, H2 in Hin. lia.
Qed.

#[global, refine] Instance TestOS_laws : SocketApiLaws TestOS := {| open_fds := os_open |}.
Proof.
  - intros a w fd w' E. cbn in E. destruct (os_script w) as [|[] l]; try (injection E as <- <-; by left);
      injection E as <- <-; right; destruct (fresh_fd_ok (os_open w)) as [H1 H2]; (split_and!; [lia|done|done]).
  - done.
  - by intros h p f w r w' [= <- <-].
  - done.
  - by intros fd w r w' [= <- <-].
  - by intros fd f w r w' [= <- <-].
  - by intros fd o v w r w' [= <- <-].
  - intros fd a w r w' E. cbn in E. destruct (os_current w); by injection E as <- <-.
  - intros fd t w r w' E. cbn in E. by injection E as <- <-.
  - intros fd w r w' E. cbn in E. by injection E as <- <-.
Defined.

(** A receiving half with a script: the pieces in which the bytes arrive, each after some interruptions. *)
Record TestPeer := mkPeer { peer_interrupts : list nat; peer_data : bytes }.

(** At most three bytes with each call. *)
#[global] Instance TestPeer_receive : ReceiveHalf TestPeer := {|
  sys_recv size p :=
    match peer_interrupts p with
    | Datatypes.S n :: l => (RecvFailed EINTR, mkPeer (n :: l) (peer_data p))
    | l => (Received (ztake (Z.min size 3) (peer_data p)),
            mkPeer (if size =? 0 then l else tail l) (zdrop (Z.min size 3) (peer_data p)))
    end |}.

#[global] Instance TestPeer_send : SendHalf TestPeer := {|
  sys_send data p := (Z.min 2 (zlen data), mkPeer (peer_interrupts p) (peer_data p ++ ztake 2 data)) |}.

(** Interruptions of a script. *)
Definition peer_interrupted (p : TestPeer) : nat := match peer_interrupts p with [] => O | n :: _ => n end.

#[global, refine] Instance TestPeer_receive_laws : ReceiveLaws TestPeer := {|
  arriving := peer_data;
  interruptions := peer_interrupted;
  alive p := Forall (fun n => Z.of_nat n < 2 ^ 64) (peer_interrupts p) |}.
Proof.
  - intros size p Hp Hs. unfold peer_interrupted, sys_recv, TestPeer_receive. destruct (peer_interrupts p) as [|[|n] l] eqn:E.
    + eexists _, _. split; [done|]. cbn. rewrite (proj2 (Z.eqb_neq size 0)) by lia.
      split_and!; [rewrite zlen_ztake; lia|by rewrite ztake_zdrop|done| |done]. split; [|intros ->; apply ztake_nil]. intros Hn. by apply (ztake_nil_inv (Z.min size 3)); [lia|].
    + apply Forall_cons_1 in Hp as [_ Hp]. eexists _, _. split; [done|]. cbn. rewrite (proj2 (Z.eqb_neq size 0)) by lia.
      split_and!; [rewrite zlen_ztake; lia|by rewrite ztake_zdrop|done| |destruct l; [done|by apply Forall_cons_1 in Hp as [? _]]].
      split; [|intros ->; apply ztake_nil]. intros Hn. by apply (ztake_nil_inv (Z.min size 3)); [lia|].
    + eexists. split; [done|]. cbn. split_and!; [done|done|]. apply Forall_cons_1 in Hp as [Hn Hl]. apply Forall_cons_2; [lia|done].
  - intros [l d] Hp Hi. unfold peer_interrupted in Hi. cbn in *. destruct l as [|[|n] l]; cbn; rewrite ?ztake_0, ?zdrop_0; done.
Defined.

#[global, refine] Instance TestPeer_send_laws : SendLaws TestPeer := {| sent := peer_data; sending _ := True |}.
Proof.
  intros data p _ Hne. eexists _, _. split; [done|]. cbn. split_and!; [|lia| |done].
  - destruct data; [done|]. rewrite zlen_cons. pose proof (zlen_nonneg data). lia.
  - f_equal. destruct (Z.min_spec 2 (zlen data)) as [[? ->]|[? ->]]; [done|]. by rewrite !ztake_all by lia.
Defined.

(** ** Theorems *)

(** C10. Descriptors of sockets: in any sequence of constructions and connections (successful or not), moves, assignments and destructions of
    Socket objects, starting with no object, every descriptor that was opened and not closed belongs to exactly one object and
    every descriptor an object has is open; so none leaks, none is closed twice and none that the program had opened
    otherwise is closed. *)
Theorem sockets_owned {W : Type} {A : SocketApi W} (L : SocketApiLaws W) (ops : list socket_op) (w : W) :
  owned (open_fds w) (fold_left (fun s o => run_op o s) ops (∅, w)).
Proof.
  assert (owned (open_fds w) (∅, w)) as Ho.
  { split_and!; [done| |by left]. intros i fd (x & Hx & _). by rewrite lookup_empty in Hx. }
  revert Ho. generalize (∅ : gmap nat Socket, w) as s. induction ops as [|o ops IH]; intros s Hs; [done|].
  cbn [fold_left]. by apply IH, run_op_owned.
Qed.

(** A failed attempt, a connection after polling, a move onto it and the end of both objects. *)
Lemma sockets_owned_witness :
  let w := mkOS {[0; 1; 2]} 0 NoSocket [Refused; InProgress 1 0; Connected; NoSocket; NoSocket; Refused; Connected] in
  let info := [mkAddrinfo 2 1 6 []; mkAddrinfo 10 1 6 []] in
  let p := mkTimeouts 5000 0 0 in
  let ops := [Construct 0 info p; Construct 1 info p; Construct 2 info p; MoveAssign 0 1; Destroy 1; Destroy 2;
    Connect 1 (mkSocketOptions p true 60 5 3 true) (mkEndpoint (str "localhost") 9000)] in
  owned (os_open w) (fold_left (fun s o => run_op o s) ops (∅, w)) /\
  os_open (snd (fold_left (fun s o => run_op o s) ops (∅, w))) = {[0; 1; 2; 4; 5]}.
Proof.
  intros w info p ops. split; [exact (sockets_owned TestOS_laws ops w)|]. apply (bool_decide_unpack _). vm_compute. reflexivity.
Defined.


(** C11. The streams of a connected socket, for requests below 2^31 bytes: [DoRead] waits through any number of interruptions by
    signals and returns a non-empty part of the arriving bytes that fits the buffer, in order and without loss, or reports
    [ProtocolError] when the peer has closed the connection; [DoWrite] sends a non-empty initial part of the data and
    returns its length. *)
Theorem socket_transfer {R T : Type} {HR : ReceiveHalf R} {HT : SendHalf T} (LR : ReceiveLaws R) (LT : SendLaws T) (len : Z) (r : R) (data : bytes) (t : T) :
  alive r -> Z.of_nat (interruptions r) < 2 ^ 64 -> 0 < len < 2 ^ 31 -> sending t -> 0 < zlen data < 2 ^ 31 ->
  (exists r', alive r' /\
     ((arriving r <> [] /\ exists got, SocketInput_DoRead len r = (Ok got, r') /\ got <> [] /\ zlen got <= len /\ arriving r = got ++ arriving r') \/
      (arriving r = [] /\ arriving r' = [] /\ SocketInput_DoRead len r = (Throw ProtocolError, r')))) /\
  (exists n t', SocketOutput_DoWrite data t = (Ok n, t') /\ 0 < n <= zlen data /\ sent t' = sent t ++ ztake n data /\ sending t').
Proof.
  intros Ha Hi Hl Hs Hd. split.
  - destruct (recv_loop len r Ha ltac:(rewrite int_size_id; lia) Hi) as (got & r' & E & Hle & Hr & Ha' & He).
    rewrite int_size_id in Hle by lia. exists r'. split; [done|]. unfold SocketInput_DoRead, bind. rewrite E.
    rewrite (proj2 (Z.eqb_neq len 0)) by lia. destruct (decide (arriving r = [])) as [Hn|Hn].
    + right. assert (got = []) as -> by tauto. rewrite bool_decide_true by done. cbn in Hr. split_and!; [done|congruence|done].
    + left. assert (got <> []) as Hg by tauto. split; [done|]. exists got. rewrite bool_decide_false by done. cbn [andb].
      rewrite (proj2 (Z.ltb_ge len (zlen got)) Hle). by split_and!.
  - assert (data <> []) as Hne by (intros ->; change (zlen []) with 0 in Hd; lia). destruct (send_law data t Hs Hne) as (n & t' & E & Hn & Hsent & Hs').
    exists n, t'. split; [|done]. unfold SocketOutput_DoWrite. rewrite int_size_id, Z.ltb_irrefl, ztake_all by lia. rewrite E.
    by rewrite (proj2 (Z.ltb_ge n 0)) by lia.
Qed.

Lemma socket_transfer_witness :
  let r := mkPeer [2%nat; 0%nat] (str "hello") in
  let t := mkPeer [] [] in
  (alive r /\ Z.of_nat (interruptions r) < 2 ^ 64) /\
  exists r', alive r' /\
     ((arriving r <> [] /\ exists got, SocketInput_DoRead 16 r = (Ok got, r') /\ got <> [] /\ zlen got <= 16 /\ arriving r = got ++ arriving r') \/
      (arriving r = [] /\ arriving r' = [] /\ SocketInput_DoRead 16 r = (Throw ProtocolError, r'))).
Proof.
  intros r t. assert (alive r) as Ha by (repeat (apply Forall_cons_2; [done|]); apply Forall_nil_2).
  assert (Z.of_nat (interruptions r) < 2 ^ 64) as Hi by done. split; [done|].
  exact (proj1 (socket_transfer TestPeer_receive_laws TestPeer_send_laws 16 r (str "world") t Ha Hi ltac:(done) I ltac:(done))).
Defined.

(** A request of a multiple of 2^32 bytes, which [BufferedInput] hands on to the socket unchanged, becomes a request of none:
    [DoRead] reports that the connection is closed, although bytes have arrived. *)
Lemma socket_large_read {R : Type} {HR : ReceiveHalf R} (LR : ReceiveLaws R) (k : Z) (r : R) :
  alive r -> interruptions r = O -> 0 < k -> SocketInput_DoRead (k * 2 ^ 32) r = (Throw ProtocolError, r).
Proof.
  intros Ha Hi Hk. unfold SocketInput_DoRead, bind.
  rewrite (loops_while (recv_step (k * 2 ^ 32)) recv_fuel tt r 1 (Ok (Received [])) r); [|apply loops_exit|by apply Pos2Nat.is_pos].
  - rewrite bool_decide_true by done. by rewrite (proj2 (Z.eqb_neq _ _)) by lia.
  - unfold recv_step. by rewrite int_size_multiple, recv_empty by done.
Qed.

