(* ===== verification/Tls.v ===== *)
(** * TLS connections (clickhouse/base/sslsocket.h, sslsocket.cpp; the choice of a factory in client.cpp)

    The library that implements TLS is a parameter: [TlsApi] has one operation, which takes a call of the library and
    returns its answer, an integer or a pointer (a number, the null pointer being 0), on the state of the library;
    [effect] says which objects of the library a call makes and frees.  Modelled is the build with OpenSSL; texts of
    exceptions are left out, and so is the initialisation of the library, which happens once. *)

From stdpp Require Import gmultiset.
From S2P Require Import Prelude Text Streams Endpoints Client Sockets.

#[local] Set Warnings "-register-all,-clear-no-such-hyp".

(** ** Calls of the library *)

Inductive tls_call :=
(** contexts *)
| SSL_CTX_new
| SSL_CTX_free (ctx : Z)
| SSL_CTX_up_ref (ctx : Z)
| SSL_CTX_set_default_verify_paths (ctx : Z)
| SSL_CTX_load_verify_locations (ctx : Z) (file directory : option bytes)
| SSL_CTX_set_options (ctx options : Z)
| SSL_CTX_set_min_proto_version (ctx version : Z)
| SSL_CTX_set_max_proto_version (ctx version : Z)
(** connections *)
| SSL_new (ctx : Z)
| SSL_free (ssl : Z)
| SSL_set_fd (ssl fd : Z)
| SSL_set_tlsext_host_name (ssl : Z) (name : bytes)
| SSL_set_hostflags (ssl flags : Z)
| SSL_set1_host (ssl : Z) (name : bytes)
| SSL_set_connect_state (ssl : Z)
| SSL_connect (ssl : Z)
| SSL_set_mode (ssl mode : Z)
| SSL_get_verify_result (ssl : Z)
| SSL_get_peer_certificate (ssl : Z)
(** configuration commands *)
| SSL_CONF_CTX_new
| SSL_CONF_CTX_free (conf : Z)
| SSL_CONF_CTX_set1_prefix (conf : Z) (prefix : bytes)
| SSL_CONF_CTX_set_flags (conf flags : Z)
| SSL_CONF_CTX_set_ssl (conf ssl : Z)
| SSL_CONF_CTX_set_ssl_ctx (conf ctx : Z)
| SSL_CONF_cmd (conf : Z) (command : bytes) (value : option bytes)
(** errors and texts *)
| SSL_get_error (ssl ret_code : Z)
| SSL_get_session (ssl : Z)
| SSL_get_state (ssl : Z)
| SSL_SESSION_get0_peer (session : Z)
| ERR_get_error
| ERR_peek_error
| BIO_new
| BIO_free (bio : Z)
| X509_print (bio cert : Z)
| BIO_get_mem_data (bio : Z)
| a2i_IPADDRESS (name : bytes)
| ASN1_OCTET_STRING_free (ip : Z).

Class TlsApi (V : Type) := { tls : tls_call -> V -> Z * V }.

Definition X509_V_OK : Z := 0.
Definition TLS_ST_OK : Z := 1.
Definition SSL_MODE_AUTO_RETRY : Z := 4.

(** [SSL_CONF_FLAG_CMDLINE | SSL_CONF_FLAG_FILE | SSL_CONF_FLAG_CLIENT | SSL_CONF_FLAG_SHOW_ERRORS | SSL_CONF_FLAG_CERTIFICATE]. *)
Definition conf_flags : Z := Z.lor (Z.lor (Z.lor (Z.lor 0x1 0x2) 0x4) 0x10) 0x20.

(** ** Options *)

Record SSLParams := mkSSLParams {
  path_to_ca_files : list bytes;
  path_to_ca_directory : bytes;
  use_default_ca_locations : bool;
  context_options : Z;
  min_protocol_version : Z;
  max_protocol_version : Z;
  use_SNI : bool;
  skip_verification : bool;
  host_flags : Z;
  server_host_name : bytes;
  configuration : list (bytes * option bytes);
}.

(** [ClientOptions::SSLOptions::CommandAndValue]. *)
Record CommandAndValue := mkCommand { cv_command : bytes; cv_value : option bytes }.

(** [ClientOptions::SSLOptions], with the names of [SSLParams] where they are not the same. *)
Record SSLOptions := mkSSLOptions {
  so_ssl_context : Z;
  so_use_default_ca_locations : bool;
  so_path_to_ca_files : list bytes;
  so_path_to_ca_directory : bytes;
  so_min_protocol_version : Z;
  so_max_protocol_version : Z;
  so_context_options : Z;
  so_use_sni : bool;
  so_skip_verification : bool;
  so_host_flags : Z;
  so_server_host_name : bytes;
  so_configuration : list CommandAndValue;
}.

(** The defaults. *)
Definition SSLOptions_new : SSLOptions := mkSSLOptions 0 true [] [] (-1) (-1) (-1) true false (-1) [] [].

Fixpoint convertConfiguration (configuration : list CommandAndValue) : list (bytes * option bytes) :=
  match configuration with
  | [] => []
  | cv :: configuration => (cv_command cv, cv_value cv) :: convertConfiguration configuration
  end.

Definition GetSSLParams (o : SSLOptions) : SSLParams :=
  mkSSLParams (so_path_to_ca_files o) (so_path_to_ca_directory o) (so_use_default_ca_locations o) (so_context_options o)
    (so_min_protocol_version o) (so_max_protocol_version o) (so_use_sni o) (so_skip_verification o) (so_host_flags o)
    (so_server_host_name o) (convertConfiguration (so_configuration o)).

(** ** The connection *)
Section Tls.
Context {W : Type} `{SocketApi W} {V : Type} `{TlsApi V}.

(** The state: the operating system and the library. *)
Abbreviation S := (W * V)%type.

Definition on_system {A} (m : M W A) : M S A := zoom fst (fun w s => (w, snd s)) m.

Definition call_tls (c : tls_call) : M S Z :=
  fun s => let '(r, v) := tls c (snd s) in (Ok r, (fst s, v)).

(** A [std::unique_ptr] in a scope: the object, if there is one, is freed when the scope is left. *)
Definition scoped {A} (p : Z) (free : tls_call) (m : M S A) : M S A :=
  fun s => let '(r, s) := m s in (r, if p =? 0 then s else snd (call_tls free s)).

(** The same, for an object that survives the scope when it is left without an exception. *)
Definition kept_on_success {A} (p : Z) (free : tls_call) (m : M S A) : M S A :=
  fun s => match m s with
           | (Ok a, s) => (Ok a, s)
           | (Throw e, s) => (Throw e, if p =? 0 then s else snd (call_tls free s))
           end.

Fixpoint for_each {A} (f : A -> M S unit) (l : list A) : M S unit :=
  match l with
  | [] => ret tt
  | x :: l => f x ;;; for_each f l
  end.

(** The text of a certificate, for a message; the certificate is not freed. *)
Definition getCertificateInfo (cert : Z) : M S unit :=
  if cert =? 0 then ret tt
  else
    let* mem_bio := call_tls BIO_new in
    scoped mem_bio (BIO_free mem_bio) (
      call_tls (X509_print mem_bio cert) ;;;
      call_tls (BIO_get_mem_data mem_bio) ;;;
      ret tt).

Definition throwSSLError {A} (ssl : Z) : M S A :=
  call_tls ERR_get_error ;;;
  when (negb (ssl =? 0)) (
    let* ssl_session := call_tls (SSL_get_session ssl) in
    if ssl_session =? 0 then ret tt
    else
      let* state := call_tls (SSL_get_state ssl) in
      if state =? TLS_ST_OK then ret tt
      else
        let* peer := call_tls (SSL_SESSION_get0_peer ssl_session) in
        getCertificateInfo peer) ;;;
  throw OpenSSLError.

(** [HANDLE_SSL_ERROR] and [HANDLE_SSL_CTX_ERROR]. *)
Definition handle_ssl_error (ssl : Z) (statement : tls_call) : M S Z :=
  let* ret_code := call_tls statement in
  if ret_code <=? 0 then call_tls (SSL_get_error ssl (swrap 32 ret_code)) ;;; throwSSLError ssl
  else ret ret_code.

Definition handle_ssl_ctx_error (statement : tls_call) : M S unit :=
  let* ret_code := call_tls statement in
  if ret_code =? 0 then call_tls ERR_peek_error ;;; throwSSLError 0
  else ret tt.

(** One command of [configureSSL]. *)
Definition configure_command (conf_ctx ssl : Z) (kv : bytes * option bytes) : M S unit :=
  let* err := call_tls (SSL_CONF_cmd conf_ctx (c_str (fst kv)) (option_map c_str (snd kv))) in
  let value_present := match snd kv with Some _ => true | None => false end in
  if (err =? 2) || ((err =? 1) && negb value_present) then ret tt
  else if err =? 0 then throwSSLError ssl
  else throw OpenSSLError.

Definition configureSSL (configuration : list (bytes * option bytes)) (ssl context : Z) : M S unit :=
  let* conf_ctx := call_tls SSL_CONF_CTX_new in
  scoped conf_ctx (SSL_CONF_CTX_free conf_ctx) (
    call_tls (SSL_CONF_CTX_set1_prefix conf_ctx []) ;;;
    call_tls (SSL_CONF_CTX_set_flags conf_ctx conf_flags) ;;;
    (if negb (ssl =? 0) then call_tls (SSL_CONF_CTX_set_ssl conf_ctx ssl) ;;; ret tt
     else if negb (context =? 0) then call_tls (SSL_CONF_CTX_set_ssl_ctx conf_ctx context) ;;; ret tt
     else ret tt) ;;;
    for_each (configure_command conf_ctx ssl) configuration).

Definition prepareSSLContext (p : SSLParams) : M S Z :=
  let* ctx := call_tls SSL_CTX_new in
  kept_on_success ctx (SSL_CTX_free ctx) (
    if ctx =? 0 then throw OpenSSLError
    else
      when (use_default_ca_locations p) (handle_ssl_ctx_error (SSL_CTX_set_default_verify_paths ctx)) ;;;
      when (negb (bool_decide (path_to_ca_directory p = [])))
        (handle_ssl_ctx_error (SSL_CTX_load_verify_locations ctx None (Some (c_str (path_to_ca_directory p))))) ;;;
      for_each (fun f => handle_ssl_ctx_error (SSL_CTX_load_verify_locations ctx (Some (c_str f)) None)) (path_to_ca_files p) ;;;
      when (negb (context_options p =? -1)) (call_tls (SSL_CTX_set_options ctx (context_options p)) ;;; ret tt) ;;;
      when (negb (min_protocol_version p =? -1)) (handle_ssl_ctx_error (SSL_CTX_set_min_proto_version ctx (min_protocol_version p))) ;;;
      when (negb (max_protocol_version p =? -1)) (handle_ssl_ctx_error (SSL_CTX_set_max_proto_version ctx (max_protocol_version p))) ;;;
      ret ctx).

(** [SSLContext]. *)
Record SSLContext := mkSSLContext { context_ : Z }.

Definition SSLContext_external (context : Z) : M S SSLContext :=
  call_tls (SSL_CTX_up_ref context) ;;; ret (mkSSLContext context).

Definition SSLContext_new (p : SSLParams) : M S SSLContext :=
  let* ctx := prepareSSLContext p in ret (mkSSLContext ctx).

Definition SSLContext_destroy (c : SSLContext) : M S unit :=
  scoped (context_ c) (SSL_CTX_free (context_ c)) (ret tt).

(** [SSLSocket]: a [Socket] and [ssl_]. *)
Record SSLSocket := mkSSLSocket { base_ : Socket; ssl_ : Z }.

(** The body of the constructor. *)
Definition SSLSocket_handshake (host : bytes) (p : SSLParams) (fd ssl : Z) : M S unit :=
  if ssl =? 0 then throw OpenSSLError
  else
    let tls_host_name := if bool_decide (server_host_name p = []) then host else server_host_name p in
    let* ip_addr := call_tls (a2i_IPADDRESS (c_str tls_host_name)) in
    scoped ip_addr (ASN1_OCTET_STRING_free ip_addr) (
      handle_ssl_error ssl (SSL_set_fd ssl fd) ;;;
      when (use_SNI p) (handle_ssl_error ssl (SSL_set_tlsext_host_name ssl (c_str tls_host_name)) ;;; ret tt) ;;;
      when (negb (host_flags p =? -1)) (call_tls (SSL_set_hostflags ssl (host_flags p)) ;;; ret tt) ;;;
      handle_ssl_error ssl (SSL_set1_host ssl (c_str tls_host_name)) ;;;
      when (0 <? zlen (configuration p)) (configureSSL (configuration p) ssl 0) ;;;
      call_tls (SSL_set_connect_state ssl) ;;;
      handle_ssl_error ssl (SSL_connect ssl) ;;;
      handle_ssl_error ssl (SSL_set_mode ssl SSL_MODE_AUTO_RETRY) ;;;
      let* verify_result := call_tls (SSL_get_verify_result ssl) in
      if negb (skip_verification p) && negb (verify_result =? X509_V_OK) then
        let* cert := call_tls (SSL_get_peer_certificate ssl) in
        getCertificateInfo cert ;;;
        throw OpenSSLError
      else ret tt).

(** The base is destroyed when the rest of the constructor throws, after [ssl_]. *)
Definition closed_on_throw {A} (socket : Socket) (m : M S A) : M S A :=
  fun s => match m s with
           | (Ok a, s) => (Ok a, s)
           | (Throw e, s) => (Throw e, snd (on_system (Socket_Close socket) s))
           end.

Definition SSLSocket_new (info : list addrinfo) (host : bytes) (timeouts : SocketTimeoutParams) (p : SSLParams) (context : SSLContext) : M S SSLSocket :=
  let* socket := on_system (Socket_new info timeouts) in
  closed_on_throw socket (
    let* ssl := call_tls (SSL_new (context_ context)) in
    kept_on_success ssl (SSL_free ssl) (
      SSLSocket_handshake host p (handle_ socket) ssl ;;;
      ret (mkSSLSocket socket ssl))).

(** The destructor: [ssl_] first, then the base. *)
Definition SSLSocket_destroy (s : SSLSocket) : M S unit :=
  scoped (ssl_ s) (SSL_free (ssl_ s)) (ret tt) ;;;
  on_system (Socket_Close (base_ s)) ;;;
  ret tt.

(** The move constructor: the new object and what is left of [other]. *)
Definition SSLSocket_move (other : SSLSocket) : SSLSocket * SSLSocket :=
  let '(base, base') := Socket_move (base_ other) in (mkSSLSocket base (ssl_ other), mkSSLSocket base' 0).

Definition validateParams (p : SSLParams) : M S unit :=
  let* ctx := call_tls SSL_CTX_new in
  scoped ctx (SSL_CTX_free ctx) (configureSSL (configuration p) 0 ctx).

(** ** The factory *)

Record SSLSocketFactory := mkSSLSocketFactory { ssl_params_ : SSLParams; ssl_context_ : SSLContext }.

Definition SSLSocketFactory_new (o : SSLOptions) : M S SSLSocketFactory :=
  let p := GetSSLParams o in
  let* context := if negb (so_ssl_context o =? 0) then SSLContext_external (so_ssl_context o) else SSLContext_new p in
  ret (mkSSLSocketFactory p context).

Definition SSLSocketFactory_destroy (f : SSLSocketFactory) : M S unit := SSLContext_destroy (ssl_context_ f).

Definition SSLSocketFactory_doConnect (f : SSLSocketFactory) (info : list addrinfo) (host : bytes) (opts : SocketOptions) : M S SSLSocket :=
  SSLSocket_new info host (connection_timeouts opts) (ssl_params_ f) (ssl_context_ f).

(** [connect], which the class inherits, with its own [doConnect]. *)
Definition SSLSocketFactory_connect (f : SSLSocketFactory) (opts : SocketOptions) (e : Endpoint) : M S SSLSocket :=
  let* address := on_system (NetworkAddress_new (ep_host e) (to_string (ep_port e))) in
  fun s =>
    let '(r, s) := (let* socket := SSLSocketFactory_doConnect f address (ep_host e) opts in
                    on_system (setSocketOptions opts (base_ socket)) ;;;
                    ret socket) s in
    (r, snd (on_system (with_address address (ret tt)) s)).
End Tls.

(** ** Streams *)

(** [SSL_read_ex] of at most [len] bytes: the bytes, or nothing for a failure or the end of the stream. *)
Class TlsReceive (R : Type) := { SSL_read_ex : Z -> R -> option bytes * R }.

(** [SSL_write]: how many bytes were written; 0 or less for a failure. *)
Class TlsSend (T : Type) := { SSL_write : bytes -> T -> Z * T }.

Section TlsStreams.
Context {R : Type} `{TlsReceive R} {T : Type} `{TlsSend T}.

Definition SSLSocketInput_DoRead (len : Z) : M R bytes :=
  fun r => match SSL_read_ex len r with
           | (Some data, r) => if len <? zlen data then (Throw Undefined, r) else (Ok data, r)
           | (None, r) => (Throw OpenSSLError, r)
           end.

Definition SSLSocketInput_Skip (_ : Z) : M R bool := ret false.

#[local] Instance SSLSocketInput : InputStream R := {| DoRead := SSLSocketInput_DoRead; Skip := SSLSocketInput_Skip |}.

Definition INT_MAX : Z := 2 ^ 31 - 1.

Definition SSLSocketOutput_DoWrite (data : bytes) : M T Z :=
  if INT_MAX <? zlen data then throw AssertionError
  else fun t => let '(r, t) := SSL_write data t in if r <=? 0 then (Throw OpenSSLError, t) else (Ok r, t).

#[local] Instance SSLSocketOutput : OutputStream T := {| DoWrite := SSLSocketOutput_DoWrite; DoFlush := ret tt |}.
End TlsStreams.

(** ** Objects of the library *)

Inductive kind := Context_ | Connection | Certificate | Configuration | Buffer | IpAddress.

#[global] Instance kind_eq_dec : EqDecision kind.
Proof. solve_decision. Defined.

#[global] Instance kind_countable : Countable kind.
Proof.
  refine (inj_countable' (fun k => match k with Context_ => 0 | Connection => 1 | Certificate => 2 | Configuration => 3 | Buffer => 4 | IpAddress => 5 end)%nat
            (fun n => match n with 0 => Context_ | 1 => Connection | 2 => Certificate | 3 => Configuration | 4 => Buffer | _ => IpAddress end)%nat _).
  by intros [].
Defined.

(** References to objects; one is counted as often as it was given out. *)
Abbreviation references := (gmultiset (kind * Z)).

Definition made (k : kind) (p : Z) (h : references) : references := if p =? 0 then h else {[+ (k, p) +]} ⊎ h.

(** What the documentation says of each call: the references after a call that answered [r]. *)
Definition effect (c : tls_call) (r : Z) (h : references) : references :=
  match c with
  | SSL_CTX_new => made Context_ r h
  | SSL_CTX_up_ref ctx => {[+ (Context_, ctx) +]} ⊎ h
  | SSL_CTX_free ctx => h ∖ {[+ (Context_, ctx) +]}
  | SSL_new _ => made Connection r h
  | SSL_free ssl => h ∖ {[+ (Connection, ssl) +]}
  | SSL_get_peer_certificate _ => made Certificate r h
  | SSL_CONF_CTX_new => made Configuration r h
  | SSL_CONF_CTX_free conf => h ∖ {[+ (Configuration, conf) +]}
  | BIO_new => made Buffer r h
  | BIO_free bio => h ∖ {[+ (Buffer, bio) +]}
  | a2i_IPADDRESS _ => made IpAddress r h
  | ASN1_OCTET_STRING_free ip => h ∖ {[+ (IpAddress, ip) +]}
  | _ => h
  end.

(** Calls that give out and take back nothing. *)
Definition neutral (c : tls_call) : bool :=
  match c with
  | SSL_CTX_new | SSL_CTX_up_ref _ | SSL_CTX_free _ | SSL_new _ | SSL_free _ | SSL_get_peer_certificate _ | SSL_CONF_CTX_new | SSL_CONF_CTX_free _
  | BIO_new | BIO_free _ | a2i_IPADDRESS _ | ASN1_OCTET_STRING_free _ => false
  | _ => true
  end.

Class TlsLaws (V : Type) `{TlsApi V} := {
  held : V -> references;
  tls_law : forall c v r v', tls c v = (r, v') -> held v' = effect c r (held v);
}.

(** ** Proofs: references *)
Section References.
Context {W : Type} `{SocketApi W} {V : Type} `{TlsLaws V}.

Abbreviation S := (W * V)%type.

(** [m] does not touch the operating system, and retains the references [d], of which [Q] holds with the outcome. *)
Definition retains {A} (m : M S A) (Q : result A -> references -> Prop) : Prop :=
  forall w v, exists r v' d, m (w, v) = (r, (w, v')) /\ held v' = d ⊎ held v /\ Q r d.

(** Nothing is kept, and only [OpenSSLError] is thrown. *)
Definition clean {A} (r : result A) (d : references) : Prop := d = ∅ /\ match r with Ok _ => True | Throw e => e = OpenSSLError end.

Lemma retains_ret {A} (a : A) (Q : result A -> references -> Prop) : Q (Ok a) ∅ -> retains (ret a) Q.
Proof using Type. intros HQ w v. exists (Ok a), v, ∅. split_and!; [done|multiset_solver|done]. Qed.

Lemma retains_throw {A} (e : exn) (Q : result A -> references -> Prop) : Q (Throw e) ∅ -> retains (throw e) Q.
Proof using Type. intros HQ w v. exists (Throw e), v, ∅. split_and!; [done|multiset_solver|done]. Qed.

Lemma retains_bind {A B} (m : M S A) (k : A -> M S B) (P : result A -> references -> Prop) (Q : result B -> references -> Prop) : retains m P ->
  (forall e d, P (Throw e) d -> Q (Throw e) d) -> (forall a d1, P (Ok a) d1 -> retains (k a) (fun r d => Q r (d ⊎ d1))) -> retains (bind m k) Q.
Proof using Type.
  intros Hm He Hk w v. destruct (Hm w v) as (r & v1 & d1 & E & Hd & HP). unfold bind. rewrite E. destruct r as [a|e].
  - destruct (Hk a d1 HP w v1) as (r & v2 & d2 & E2 & Hd2 & HQ). exists r, v2, (d2 ⊎ d1). split_and!; [done|multiset_solver|done].
  - exists (Throw e), v1, d1. split_and!; [done|done|by apply He].
Qed.

(** After a computation that retains nothing. *)
Lemma retains_then {A B} (m : M S A) (k : A -> M S B) (Q : result B -> references -> Prop) : retains m clean -> Q (Throw OpenSSLError) ∅ ->
  (forall a, retains (k a) Q) -> retains (bind m k) Q.
Proof using Type.
  intros Hm He Hk. eapply retains_bind; [exact Hm|by intros e d [-> ->]|]. intros a d1 [-> _] w v.
  destruct (Hk a w v) as (r & v' & d & E & Hd & HQ). exists r, v', d. split_and!; [done|done|]. by rewrite (right_id_L ∅ (⊎)).
Qed.

Lemma retains_weaken {A} (m : M S A) (P Q : result A -> references -> Prop) : retains m P -> (forall r d, P r d -> Q r d) -> retains m Q.
Proof using Type. intros Hm HPQ w v. destruct (Hm w v) as (r & v' & d & E & Hd & HP). exists r, v', d. auto. Qed.

Lemma retains_call (c : tls_call) : neutral c = true -> retains (call_tls c) clean.
Proof using Type.
  intros Hc w v. unfold call_tls. cbn [fst snd]. destruct (tls c v) as [r v'] eqn:E. exists (Ok r), v', ∅. split_and!; [done| |done].
  rewrite (tls_law _ _ _ _ E). destruct c; try done; cbn [effect]; multiset_solver.
Qed.

(** An object made for a scope. *)
Lemma retains_scoped {A} (k : kind) (new : tls_call) (free : Z -> tls_call) (m : Z -> M S A) (Q : result A -> references -> Prop) :
  (forall r h, effect new r h = made k r h) -> (forall p r h, effect (free p) r h = h ∖ {[+ (k, p) +]}) ->
  (forall p, retains (m p) Q) -> retains (bind (call_tls new) (fun p => scoped p (free p) (m p))) Q.
Proof using Type.
  intros Hnew Hfree Hm w v. unfold bind, call_tls at 1. cbn [fst snd]. destruct (tls new v) as [p v1] eqn:E. apply tls_law in E. rewrite Hnew in E.
  destruct (Hm p w v1) as (r & v2 & d & Em & Hd & HQ). unfold scoped. rewrite Em. unfold made in E.
  destruct (Z.eqb_spec p 0) as [-> | Hp].
  - exists r, v2, d. split_and!; [done|congruence|done].
  - unfold call_tls. cbn [fst snd]. destruct (tls (free p) v2) as [r' v3] eqn:Ef. apply tls_law in Ef. rewrite Hfree in Ef.
    exists r, v3, d. split_and!; [done| |done]. rewrite Ef, Hd, E. multiset_solver.
Qed.

(** An object that survives its scope only when nothing is thrown. *)
Lemma retains_on_success {A} (k : kind) (new : tls_call) (free : Z -> tls_call) (m : Z -> M S A) (P : Z -> result A -> references -> Prop)
    (Q : result A -> references -> Prop) :
  (forall r h, effect new r h = made k r h) -> (forall p r h, effect (free p) r h = h ∖ {[+ (k, p) +]}) ->
  (forall p, retains (m p) (P p)) -> (forall p e d, P p (Throw e) d -> Q (Throw e) d) -> (forall p a d, P p (Ok a) d -> Q (Ok a) (made k p d)) ->
  retains (bind (call_tls new) (fun p => kept_on_success p (free p) (m p))) Q.
Proof using Type.
  intros Hnew Hfree Hm Ht Ho w v. unfold bind, call_tls at 1. cbn [fst snd]. destruct (tls new v) as [p v1] eqn:E. apply tls_law in E. rewrite Hnew in E.
  destruct (Hm p w v1) as (r & v2 & d & Em & Hd & HP). unfold kept_on_success. rewrite Em. unfold made in E. destruct r as [a|e].
  - exists (Ok a), v2, (made k p d). split_and!; [done| |by apply Ho]. unfold made. destruct (Z.eqb_spec p 0); [congruence|]. rewrite Hd, E. multiset_solver.
  - destruct (Z.eqb_spec p 0) as [-> | Hp].
    + exists (Throw e), v2, d. split_and!; [done|congruence|by eapply Ht].
    + unfold call_tls. cbn [fst snd]. destruct (tls (free p) v2) as [r' v3] eqn:Ef. apply tls_law in Ef. rewrite Hfree in Ef.
      exists (Throw e), v3, d. split_and!; [done| |by eapply Ht]. rewrite Ef, Hd, E. multiset_solver.
Qed.

(** Computations that keep nothing, by their form. *)
Ltac retains_clean :=
  repeat (intros; first
    [ solve [eauto with retains] | apply retains_ret; by split | apply retains_throw; by split
    | apply retains_then; [|by split|]
    | lazymatch goal with
      | |- retains (if ?b then _ else _) _ => destruct b
      | |- retains (when ?b _) _ => destruct b; cbn [when]
      | |- retains (call_tls _) _ => by apply retains_call
      end ]).

Create HintDb retains.

Lemma retains_certificate (cert : Z) : retains (getCertificateInfo cert) clean.
Proof using Type. unfold getCertificateInfo. destruct (cert =? 0); [retains_clean|]. apply (retains_scoped Buffer); try done. retains_clean. Qed.
Hint Resolve retains_certificate : retains.

Lemma retains_throw_error {A} (ssl : Z) : retains (throwSSLError (A := A) ssl) clean.
Proof using Type. unfold throwSSLError. retains_clean. Qed.
Hint Resolve retains_throw_error : retains.

Lemma retains_handle (ssl : Z) (c : tls_call) : neutral c = true -> retains (handle_ssl_error ssl c) clean.
Proof using Type. intros Hc. unfold handle_ssl_error. retains_clean. Qed.

Lemma retains_handle_ctx (c : tls_call) : neutral c = true -> retains (handle_ssl_ctx_error c) clean.
Proof using Type. intros Hc. unfold handle_ssl_ctx_error. retains_clean. Qed.
Hint Resolve retains_handle retains_handle_ctx : retains.

Lemma retains_for_each {A} (f : A -> M S unit) (l : list A) : (forall a, retains (f a) clean) -> retains (for_each f l) clean.
Proof using Type. intros Hf. induction l; cbn [for_each]; retains_clean. Qed.
Hint Resolve retains_for_each : retains.

Lemma retains_configure (conf : list (bytes * option bytes)) (ssl ctx : Z) : retains (configureSSL conf ssl ctx) clean.
Proof using Type.
  unfold configureSSL. apply (retains_scoped Configuration); try done. intros p. retains_clean. intros _. apply retains_for_each. intros kv. unfold configure_command.
  retains_clean.
Qed.
Hint Resolve retains_configure : retains.

Lemma retains_validate (p : SSLParams) : retains (validateParams p) clean.
Proof using Type. unfold validateParams. apply (retains_scoped Context_); try done. retains_clean. Qed.

(** The context that [prepareSSLContext] returns is the one thing it retains. *)
Lemma retains_prepare (p : SSLParams) : retains (prepareSSLContext p)
  (fun r d => match r with Ok ctx => ctx <> 0 /\ d = {[+ (Context_, ctx) +]} | Throw e => e = OpenSSLError /\ d = ∅ end).
Proof using Type.
  unfold prepareSSLContext. apply (retains_on_success Context_ _ _ _ (fun ctx r d => clean r d /\ match r with Ok a => a = ctx /\ ctx <> 0 | _ => True end)); try done.
  - intros ctx. destruct (Z.eqb_spec ctx 0) as [Hz|Hz]; [by apply retains_throw|].
    repeat (apply retains_then; [retains_clean|by split|intros ?]). by apply retains_ret.
  - by intros ctx e d [[-> ->] _].
  - intros ctx a d [[-> _] [-> Hz]]. unfold made. rewrite (proj2 (Z.eqb_neq _ _) Hz). split; [done|multiset_solver].
Qed.

(** What a failed connection retains: at most the certificate that did not verify, which is never given back. *)
Definition leaks (p : SSLParams) (d : references) : Prop :=
  d = ∅ \/ (skip_verification p = false /\ exists x, d = {[+ (Certificate, x) +]}).

Definition handshaken (p : SSLParams) (ssl : Z) (r : result unit) (d : references) : Prop :=
  match r with Ok _ => d = ∅ /\ ssl <> 0 | Throw e => e = OpenSSLError /\ leaks p d end.

Lemma retains_handshake (host : bytes) (p : SSLParams) (fd ssl : Z) : retains (SSLSocket_handshake host p fd ssl) (handshaken p ssl).
Proof using Type.
  unfold SSLSocket_handshake. destruct (Z.eqb_spec ssl 0) as [Hz|Hz]; [apply retains_throw; split; [done|by left]|].
  apply (retains_scoped IpAddress); try done. intros ip.
  repeat (apply retains_then; [retains_clean|split; [done|by left]|intros ?]).
  destruct (skip_verification p) eqn:Es; cbn [negb andb]; [by apply retains_ret|]. destruct (negb _); [|by apply retains_ret].
  intros w v. unfold bind at 1, call_tls. cbn [fst snd]. destruct (tls (SSL_get_peer_certificate ssl) v) as [cert v1] eqn:E. apply tls_law in E.
  destruct (retains_certificate cert w v1) as (r & v2 & d & Ec & Hd & -> & Hr). unfold bind. rewrite Ec.
  assert (exists d, held v2 = d ⊎ held v /\ leaks p d) as (d & Hh & Hl).
  { rewrite Hd, E. cbn [effect]. unfold made. destruct (cert =? 0); [exists ∅; split; [multiset_solver|by left]|].
    exists {[+ (Certificate, cert) +]}. split; [multiset_solver|]. right. split; [done|by eexists]. }
  destruct r as [[]|e]; [by exists (Throw OpenSSLError), v2, d|]. subst e. by exists (Throw OpenSSLError), v2, d.
Qed.
End References.

(** *** Connecting *)
Section TlsConnect.
Context {W : Type} `{SocketApiLaws W} {V : Type} `{TlsLaws V}.

Abbreviation S := (W * V)%type.

(** A connection that is handed out owns a descriptor and an object of the library; a failed one has closed and freed both. *)
Definition connected (p : SSLParams) (s : S) (r : result SSLSocket) (s' : S) : Prop :=
  match r with
  | Ok x => opened (fst s) (Ok (handle_ (base_ x))) (fst s') /\ ssl_ x <> 0 /\ held (snd s') = {[+ (Connection, ssl_ x) +]} ⊎ held (snd s)
  | Throw e => (e = SystemError \/ e = OpenSSLError) /\ open_fds (fst s') = open_fds (fst s) /\ exists d, held (snd s') = d ⊎ held (snd s) /\ leaks p d
  end.

Lemma close_system (x : Socket) (w w' : W) (v : V) : CloseSocket (handle_ x) w = (Ok tt, w') ->
  on_system (Socket_Close x) (w, v) = (Ok (mkSocket INVALID_SOCKET), (w', v)).
Proof using Type. intros E. unfold on_system, zoom, Socket_Close, bind. cbn [fst snd]. by rewrite E. Qed.

Lemma SSLSocket_new_ok (info : list addrinfo) (host : bytes) (t : SocketTimeoutParams) (p : SSLParams) (c : SSLContext) (s : S) :
  let '(r, s') := SSLSocket_new info host t p c s in connected p s r s'.
Proof using Type.
  destruct s as [w v]. unfold SSLSocket_new, bind at 1, on_system at 1, zoom at 1, Socket_new, bind at 1. cbn [fst snd].
  pose proof (SocketConnect_opened info t w) as Ho. destruct (SocketConnect info t w) as [[fd|e] w1]; cbn in Ho |- *.
  2: { destruct Ho as [-> Ho]. split; [by left|]. split; [done|]. exists ∅. split; [multiset_solver|by left]. }
  unfold closed_on_throw.
  assert (retains (W := W) (V := V) (let* ssl := call_tls (SSL_new (context_ c)) in kept_on_success ssl (SSL_free ssl)
      (SSLSocket_handshake host p fd ssl ;;; ret (mkSSLSocket (mkSocket fd) ssl)))
    (fun r d => match r with
                | Ok x => handle_ (base_ x) = fd /\ ssl_ x <> 0 /\ d = {[+ (Connection, ssl_ x) +]}
                | Throw e => e = OpenSSLError /\ leaks p d
                end)) as Hk.
  { apply (retains_on_success Connection _ _ _ (fun ssl r d => match r with
        | Ok x => x = mkSSLSocket (mkSocket fd) ssl /\ ssl <> 0 /\ d = ∅ | Throw e => e = OpenSSLError /\ leaks p d end)); try done.
    - intros ssl. eapply retains_bind; [apply retains_handshake|intros e d Hd; exact Hd|]. intros [] d [-> Hz]. apply retains_ret. split_and!; [done|done|multiset_solver].
    - intros ssl x d (-> & Hz & ->). cbn. unfold made. rewrite (proj2 (Z.eqb_neq _ _) Hz). split_and!; [done|done|multiset_solver]. }
  destruct (Hk w1 v) as (r & v' & d & E & Hd & HQ). cbn [handle_]. rewrite E. destruct r as [x|e].
  - destruct HQ as (<- & Hz & ->). split; [exact Ho|]. split; [exact Hz|exact Hd].
  - destruct HQ as [-> Hl]. destruct Ho as (Hfd & Hn & Ho). destruct (close_new fd w1 w Hfd Hn Ho) as (w2 & Ec & Hc).
    rewrite (close_system (mkSocket fd) w1 w2 v' Ec). cbn. split; [by right|]. split; [done|]. by exists d.
Qed.

Lemma tls_connect_ok (f : SSLSocketFactory) (opts : SocketOptions) (e : Endpoint) (s : S) :
  let '(r, s') := SSLSocketFactory_connect f opts e s in connected (ssl_params_ f) s r s'.
Proof using Type.
  destruct s as [w v]. unfold SSLSocketFactory_connect, NetworkAddress_new, bind at 1, on_system at 1, zoom at 1, bind at 1, call at 1. cbn [fst snd].
  destruct (sys_getaddrinfo _ _ _ w) as [[error info] w1] eqn:Eg. apply getaddrinfo_law in Eg.
  destruct (negb (error =? 0)); cbn [throw ret fst snd].
  { split; [by left|]. split; [done|]. exists ∅. split; [by rewrite (left_id_L ∅ (⊎))|by left]. }
  pose proof (SSLSocket_new_ok info (ep_host e) (connection_timeouts opts) (ssl_params_ f) (ssl_context_ f) (w1, v)) as Hc.
  unfold SSLSocketFactory_doConnect, bind at 1.
  assert (forall w, open_fds (snd (with_address info (ret tt) w)) = open_fds w) as Hf
    by (intros w'; unfold with_address; cbn; destruct info; [done|apply freeaddrinfo_law]).
  destruct (SSLSocket_new _ _ _ _ _ (w1, v)) as [[x|e'] [w2 v2]]; cbn in Hc |- *.
  - unfold bind, on_system, zoom. cbn. destruct (setSocketOptions_quiet opts (base_ x) w2) as [[[] Ht] Ho].
    destruct (setSocketOptions opts (base_ x) w2) as [r w3]. cbn in Ht, Ho. subst r. cbn. unfold opened in *. cbn in *.
    specialize (Hf w3). unfold with_address in Hf. cbn in Hf. rewrite Hf, Ho, <- Eg. done.
  - destruct Hc as (He & Ho & Hd). specialize (Hf w2). unfold with_address in Hf. cbn in Hf. rewrite Hf, Ho, Eg. by split_and!.
Qed.
End TlsConnect.

(** ** Ownership

    The factories and connections of a program, and what it can do with them. *)
Section TlsOwnership.
Context {W : Type} `{SocketApiLaws W} {V : Type} `{TlsLaws V}.

Abbreviation S := (W * V)%type.

Inductive tls_op :=
| NewFactory (o : SSLOptions)
| TlsConnect (i : nat) (opts : SocketOptions) (e : Endpoint)   (** [connect] of the factory in place [i] *)
| MoveSocket (i : nat)                                         (** a new connection from the moved one in place [i] *)
| DestroySocket (i : nat)
| DestroyFactory (i : nat)
| Validate (p : SSLParams).

Record tls_objects := mkObjects { factories : list SSLSocketFactory; sockets : list SSLSocket }.

(** Run an operation; new objects come last, and an operation on a place where there is nothing does nothing. *)
Definition run_tls (o : tls_op) (x : tls_objects * S) : tls_objects * S :=
  let '(mkObjects fs xs, s) := x in
  match o with
  | NewFactory o =>
    match SSLSocketFactory_new o s with
    | (Ok f, s) => (mkObjects (fs ++ [f]) xs, s)
    | (Throw _, s) => (mkObjects fs xs, s)
    end
  | TlsConnect i opts e =>
    match fs !! i with
    | None => x
    | Some f =>
      match SSLSocketFactory_connect f opts e s with
      | (Ok c, s) => (mkObjects fs (xs ++ [c]), s)
      | (Throw _, s) => (mkObjects fs xs, s)
      end
    end
  | MoveSocket i =>
    match xs !! i with
    | None => x
    | Some c => let '(c, rest) := SSLSocket_move c in (mkObjects fs (<[i := rest]> xs ++ [c]), s)
    end
  | DestroySocket i =>
    match xs !! i with
    | None => x
    | Some c => (mkObjects fs (delete i xs), snd (SSLSocket_destroy c s))
    end
  | DestroyFactory i =>
    match fs !! i with
    | None => x
    | Some f => (mkObjects (delete i fs) xs, snd (SSLSocketFactory_destroy f s))
    end
  | Validate p => (mkObjects fs xs, snd (validateParams p s))
  end.

(** The references the objects have. *)
Definition factory_references (fs : list SSLSocketFactory) : references :=
  foldr (fun f h => made Context_ (context_ (ssl_context_ f)) h) ∅ fs.

Definition socket_references (xs : list SSLSocket) : references := foldr (fun x h => made Connection (ssl_ x) h) ∅ xs.

(** The descriptors they have. *)
Definition handles (xs : list SSLSocket) : list Z := filter (fun fd => fd <> INVALID_SOCKET) (map (fun x => handle_ (base_ x)) xs).

(** Over [base] and [open], which were there before: every reference belongs to one object, but for certificates that were
    left behind, and every descriptor to exactly one connection. *)
Definition tls_owned (base : references) (open : gset Z) (x : tls_objects * S) : Prop :=
  let '(mkObjects fs xs, (w, v)) := x in
  (exists lost, held v = lost ⊎ (factory_references fs ⊎ (socket_references xs ⊎ base)) /\ forall o, o ∈ lost -> fst o = Certificate) /\
  NoDup (handles xs) /\ (forall fd, fd ∈ handles xs -> fd ∉ open) /\ open_fds w = open ∪ list_to_set (handles xs).

Lemma made_union (k : kind) (p : Z) (h h' : references) : made k p (h ⊎ h') = made k p h ⊎ h'.
Proof using Type. unfold made. destruct (p =? 0); multiset_solver. Qed.

Lemma foldr_made_perm {A} (k : kind) (f : A -> Z) (l l' : list A) : l ≡ₚ l' ->
  foldr (fun x h => made k (f x) h) (∅ : references) l = foldr (fun x h => made k (f x) h) ∅ l'.
Proof using Type.
  induction 1 as [|x l l' _ IH|x y l|]; cbn [foldr]; [done|by rewrite IH| |congruence].
  unfold made. destruct (f x =? 0), (f y =? 0); multiset_solver.
Qed.

Lemma handles_perm (xs ys : list SSLSocket) : xs ≡ₚ ys -> handles xs ≡ₚ handles ys.
Proof using Type. intros Hp. unfold handles. by rewrite Hp. Qed.

(** The invariant sees the objects up to their order. *)
Lemma owned_perm (base : references) (open : gset Z) (fs fs' : list SSLSocketFactory) (xs xs' : list SSLSocket) (s : S) : fs ≡ₚ fs' -> xs ≡ₚ xs' ->
  tls_owned base open (mkObjects fs xs, s) -> tls_owned base open (mkObjects fs' xs', s).
Proof using Type.
  destruct s as [w v]. intros Hf Hx. unfold tls_owned, factory_references, socket_references.
  rewrite (foldr_made_perm Context_ _ fs fs' Hf), (foldr_made_perm Connection _ xs xs' Hx). pose proof (handles_perm _ _ Hx) as Hh.
  intros (Hl & Hn & Ho & Hw). split_and!; [done|by rewrite <- Hh|intros fd Hfd; apply Ho; by rewrite Hh|].
  rewrite Hw. apply set_eq. intros fd. rewrite !elem_of_union, !elem_of_list_to_set. by rewrite Hh.
Qed.

(** What changes in the library only. *)
Lemma owned_library (base : references) (open : gset Z) (fs fs' : list SSLSocketFactory) (xs : list SSLSocket) (w : W) (v v' : V) (d lost : references) :
  tls_owned base open (mkObjects fs xs, (w, v)) -> held v' = d ⊎ held v -> d ⊎ factory_references fs = lost ⊎ factory_references fs' ->
  (forall o, o ∈ lost -> fst o = Certificate) -> tls_owned base open (mkObjects fs' xs, (w, v')).
Proof using Type.
  intros ((l & Hv & Hl) & Hrest) Hd He Hlost. split; [|done]. exists (l ⊎ lost). split; [|multiset_solver]. rewrite Hd, Hv.
  transitivity (l ⊎ ((d ⊎ factory_references fs) ⊎ (socket_references xs ⊎ base))); [multiset_solver|]. rewrite He. multiset_solver.
Qed.

(** *** The operations *)

Lemma union_move (a b c d e : references) : a ⊎ (b ⊎ (c ⊎ (d ⊎ e))) = b ⊎ (c ⊎ ((a ⊎ d) ⊎ e)).
Proof using Type. clear. multiset_solver. Qed.

Lemma leaks_certificates (p : SSLParams) (d : references) : leaks p d -> forall o, o ∈ d -> fst o = Certificate.
Proof using Type. intros [-> | (_ & x & ->)] o Ho; [multiset_solver|]. apply gmultiset_elem_of_singleton in Ho. by subst o. Qed.

Lemma owned_connected (base : references) (open : gset Z) (p : SSLParams) (fs : list SSLSocketFactory) (xs : list SSLSocket) (s s' : S)
    (r : result SSLSocket) : tls_owned base open (mkObjects fs xs, s) -> connected p s r s' ->
  tls_owned base open (mkObjects fs (match r with Ok c => c :: xs | Throw _ => xs end), s').
Proof using Type.
  destruct s as [w v], s' as [w' v']. intros Ho Hc. unfold connected in Hc. destruct r as [c|e]; cbn [fst snd] in Hc.
  - destruct Hc as ((Hfd & Hn & Hw) & Hz & Hv). destruct Ho as ((l & Hh & Hl) & Hnd & Hopen & Ho).
    assert (handles (c :: xs) = handle_ (base_ c) :: handles xs) as Hhs
      by (unfold handles; cbn [map]; by rewrite filter_cons_True by (unfold INVALID_SOCKET; lia)).
    assert ((handle_ (base_ c) ∉ handles xs) /\ (handle_ (base_ c) ∉ open)) as [Hn1 Hn2] by (rewrite Ho in Hn; set_solver).
    split_and!.
    + exists l. split; [|done]. rewrite Hv, Hh. unfold socket_references. cbn [foldr]. unfold made. rewrite (proj2 (Z.eqb_neq _ _) Hz). apply union_move.
    + rewrite Hhs. by constructor.
    + rewrite Hhs. intros fd [-> | Hin]%elem_of_cons; [done|by apply Hopen].
    + rewrite Hhs, Hw, Ho. set_solver.
  - destruct Hc as (_ & Hw & d & Hd & Hl). assert (tls_owned base open (mkObjects fs xs, (w', v))) as Ho'
      by (destruct Ho as (H1' & H2' & H3' & H4'); split_and!; [done|done|done|by rewrite Hw]).
    eapply owned_library; [exact Ho'|exact Hd|reflexivity|]. by eapply leaks_certificates.
Qed.

Lemma owned_clean {A : Type} (base : references) (open : gset Z) (x : tls_objects) (m : M S A) (s : S) : retains m clean -> tls_owned base open (x, s) ->
  tls_owned base open (x, snd (m s)).
Proof using Type.
  destruct x as [fs xs], s as [w v]. intros Hm Ho. destruct (Hm w v) as (r & v' & d & -> & Hd & -> & _). cbn [snd].
  eapply (owned_library _ _ fs fs xs w v v' ∅ ∅); [done|done|done|multiset_solver].
Qed.

Lemma factory_new_ok (o : SSLOptions) : retains (W := W) (V := V) (SSLSocketFactory_new o)
  (fun r d => match r with Ok f => d = made Context_ (context_ (ssl_context_ f)) ∅ | Throw _ => d = ∅ end).
Proof using Type.
  unfold SSLSocketFactory_new.
  assert (retains (W := W) (V := V) (if negb (so_ssl_context o =? 0) then SSLContext_external (so_ssl_context o) else SSLContext_new (GetSSLParams o))
    (fun r d => match r with Ok c => d = made Context_ (context_ c) ∅ | Throw _ => d = ∅ end)) as Hc.
  { destruct (Z.eqb_spec (so_ssl_context o) 0) as [Hz|Hz]; cbn [negb].
    - eapply retains_bind; [apply retains_prepare|by intros e d [_ ->]|]. intros ctx d [Hz' ->]. apply retains_ret. cbn [context_].
      unfold made. rewrite (proj2 (Z.eqb_neq _ _) Hz'). by rewrite (left_id_L ∅ (⊎)), (right_id_L ∅ (⊎)).
    - intros w v. unfold SSLContext_external, bind, call_tls. cbn [fst snd]. destruct (tls _ v) as [r v1] eqn:E. apply tls_law in E.
      eexists (Ok _), v1, {[+ (Context_, so_ssl_context o) +]}. split_and!; [done|done|]. cbn [context_]. unfold made.
      by rewrite (proj2 (Z.eqb_neq _ _) Hz), (right_id_L ∅ (⊎)). }
  eapply retains_bind; [exact Hc|by intros e d ->|]. intros c d ->. apply retains_ret. by rewrite (left_id_L ∅ (⊎)).
Qed.

(** [scoped] around nothing gives back one reference. *)
Lemma free_reference (k : kind) (p : Z) (free : tls_call) (w : W) (v : V) (h : references) : (forall r h, effect free r h = h ∖ {[+ (k, p) +]}) ->
  held v = made k p h -> exists v', scoped p free (ret tt) (w, v) = (Ok tt, (w, v')) /\ held v' = h.
Proof using Type.
  intros Hf Hv. unfold scoped, made in *. cbn [ret]. destruct (p =? 0); [by exists v|]. unfold call_tls. cbn [fst snd].
  destruct (tls free v) as [r v'] eqn:E. apply tls_law in E. exists v'. split; [done|]. rewrite E, Hf, Hv. clear. multiset_solver.
Qed.

Lemma owned_destroy_factory (base : references) (open : gset Z) (f : SSLSocketFactory) (fs : list SSLSocketFactory) (xs : list SSLSocket) (s : S) :
  tls_owned base open (mkObjects (f :: fs) xs, s) -> tls_owned base open (mkObjects fs xs, snd (SSLSocketFactory_destroy f s)).
Proof using Type.
  destruct s as [w v]. intros ((l & Hv & Hl) & Hrest).
  destruct (free_reference Context_ (context_ (ssl_context_ f)) (SSL_CTX_free (context_ (ssl_context_ f))) w v
    (l ⊎ (factory_references fs ⊎ (socket_references xs ⊎ base)))) as (v' & E & Hv'); [done| |].
  { rewrite Hv. unfold factory_references at 1. cbn [foldr]. fold (factory_references fs). rewrite (comm_L _ l), <- made_union, <- made_union. f_equal. apply comm_L, _. }
  unfold SSLSocketFactory_destroy, SSLContext_destroy. rewrite E. split; [|done]. by exists l.
Qed.

Lemma owned_destroy_socket (base : references) (open : gset Z) (c : SSLSocket) (fs : list SSLSocketFactory) (xs : list SSLSocket) (s : S) :
  tls_owned base open (mkObjects fs (c :: xs), s) -> tls_owned base open (mkObjects fs xs, snd (SSLSocket_destroy c s)).
Proof using Type.
  destruct s as [w v]. intros ((l & Hv & Hl) & Hnd & Hopen & Ho).
  destruct (free_reference Connection (ssl_ c) (SSL_free (ssl_ c)) w v
    (l ⊎ (factory_references fs ⊎ (socket_references xs ⊎ base)))) as (v' & E & Hv'); [done| |].
  { rewrite Hv. unfold socket_references at 1. cbn [foldr]. fold (socket_references xs). rewrite made_union.
    unfold made. destruct (ssl_ c =? 0); [done|]. clear. multiset_solver. }
  unfold SSLSocket_destroy, bind. rewrite E. cbn [fst].
  assert (exists w', CloseSocket (handle_ (base_ c)) w = (Ok tt, w') /\ open_fds w' = open ∪ list_to_set (handles xs) /\ NoDup (handles xs) /\
    forall fd, fd ∈ handles xs -> fd ∉ open) as (w' & Ec & Ho' & Hnd' & Hopen').
  { unfold CloseSocket. unfold handles in *. cbn [map] in *. destruct (Z.eqb_spec (handle_ (base_ c)) INVALID_SOCKET) as [Hz|Hz].
    - rewrite filter_cons_False in Hnd, Hopen, Ho by (intros Hne; by apply Hne). by exists w.
    - rewrite filter_cons_True in Hnd, Hopen, Ho by done. apply NoDup_cons in Hnd as [Hin Hnd]. eexists. split; [done|].
      split_and!; [|done|set_solver]. rewrite close_law, Ho. assert (handle_ (base_ c) ∉ open) by (apply Hopen, elem_of_cons; by left).
      apply set_eq. set_solver. }
  rewrite (close_system (base_ c) w w' v' Ec). cbn [snd ret]. split_and!; [by exists l|done|done|done].
Qed.

(** A connection that is moved: the same references and descriptors, in one object. *)
Lemma owned_move_socket (base : references) (open : gset Z) (c : SSLSocket) (fs : list SSLSocketFactory) (xs : list SSLSocket) (s : S) :
  tls_owned base open (mkObjects fs (c :: xs), s) ->
  tls_owned base open (mkObjects fs (mkSSLSocket (mkSocket INVALID_SOCKET) 0 :: mkSSLSocket (mkSocket (handle_ (base_ c))) (ssl_ c) :: xs), s).
Proof using Type.
  destruct s as [w v]. unfold tls_owned, handles. cbn [map base_ handle_]. rewrite (filter_cons_False _ INVALID_SOCKET) by (intros Hne; by apply Hne).
  exact id.
Qed.

Lemma run_tls_owned (base : references) (open : gset Z) (o : tls_op) (x : tls_objects * S) : tls_owned base open x -> tls_owned base open (run_tls o x).
Proof using Type.
  destruct x as [[fs xs] s]. intros Ho. destruct o as [o|i opts e|i|i|i|p]; cbn [run_tls].
  - destruct s as [w v]. destruct (factory_new_ok o w v) as (r & v' & d & -> & Hd & HQ). destruct r as [f|e]; subst d.
    + eapply owned_perm; [apply Permutation_cons_append|reflexivity|].
      eapply (owned_library _ _ fs (f :: fs) xs w v v' _ ∅); [done|exact Hd| |intros o' Ho'; by apply gmultiset_not_elem_of_empty in Ho'].
      rewrite (left_id_L ∅ (⊎)), <- made_union, (left_id_L ∅ (⊎)). done.
    + eapply (owned_library _ _ fs fs xs w v v' ∅ ∅); [done|exact Hd|done|intros o' Ho'; by apply gmultiset_not_elem_of_empty in Ho'].
  - destruct (fs !! i) as [f|]; [|done]. pose proof (tls_connect_ok f opts e s) as Hc.
    destruct (SSLSocketFactory_connect f opts e s) as [[c|e'] s']; pose proof (owned_connected _ _ _ _ _ _ _ _ Ho Hc) as Hn; [|done].
    eapply owned_perm; [reflexivity|apply Permutation_cons_append|exact Hn].
  - destruct (xs !! i) as [c|] eqn:Hi; [|done]. cbn [SSLSocket_move Socket_move].
    eapply owned_perm; [reflexivity| |eapply owned_move_socket, owned_perm; [reflexivity|by eapply delete_Permutation|exact Ho]].
    pose proof (delete_Permutation (<[i := mkSSLSocket (mkSocket INVALID_SOCKET) 0]> xs) i (mkSSLSocket (mkSocket INVALID_SOCKET) 0)) as Hp.
    rewrite Hp by (apply list_lookup_insert_eq; by eapply lookup_lt_Some). rewrite !delete_take_drop, take_insert_ge, drop_insert_lt by lia.
    cbn [app]. apply perm_skip, Permutation_cons_append.
  - destruct (xs !! i) as [c|] eqn:Hi; [|done]. apply owned_destroy_socket. eapply owned_perm; [reflexivity|by eapply delete_Permutation|exact Ho].
  - destruct (fs !! i) as [f|] eqn:Hi; [|done]. apply owned_destroy_factory. eapply owned_perm; [by eapply delete_Permutation|reflexivity|exact Ho].
  - apply owned_clean; [apply retains_validate|done].
Qed.

Lemma run_tls_all (base : references) (open : gset Z) (ops : list tls_op) : forall x, tls_owned base open x ->
  tls_owned base open (fold_left (fun x o => run_tls o x) ops x).
Proof using Type. induction ops as [|o ops IH]; intros x Hx; [done|]. by apply IH, run_tls_owned. Qed.
End TlsOwnership.

(** ** What a connection has gone through

    The library with a record of the calls and their answers. *)

Abbreviation log := (list (tls_call * Z)).

#[global] Instance Logged {V : Type} `{TlsApi V} : TlsApi (V * log) := {|
  tls c s := let '(r, v) := tls c (fst s) in (r, (v, snd s ++ [(c, r)]));
|}.

(** One call with an answer as [ok] says. *)
Definition answered (c : tls_call) (ok : Z -> Prop) (d : log) : Prop := exists r, d = [(c, r)] /\ ok r.

(** One thing after another, and a thing that is done or not. *)
Definition before (P Q : log -> Prop) (d : log) : Prop := exists d1 d2, d = d1 ++ d2 /\ P d1 /\ Q d2.

Definition optionally (b : bool) (P : log -> Prop) (d : log) : Prop := if b then P d else d = [].

Infix ">>" := before (at level 60, right associativity) : cpp_scope.

Definition positive_answer (r : Z) : Prop := 0 < r.
Definition any_answer (r : Z) : Prop := True.

(** A command is taken with its value, or without one if it has none. *)
Definition command_taken (value : option bytes) (r : Z) : Prop := r = 2 \/ (r = 1 /\ value = None).

(** All the commands, in order, each taken. *)
Fixpoint commands_taken (conf : Z) (commands : list (bytes * option bytes)) : log -> Prop :=
  match commands with
  | [] => fun d => d = []
  | (command, value) :: commands =>
    answered (SSL_CONF_cmd conf (c_str command) (option_map c_str value)) (command_taken value) >> commands_taken conf commands
  end.

Definition configured (ssl : Z) (commands : list (bytes * option bytes)) (d : log) : Prop := exists conf,
  (answered SSL_CONF_CTX_new (eq conf) >>
   answered (SSL_CONF_CTX_set1_prefix conf []) any_answer >>
   answered (SSL_CONF_CTX_set_flags conf conf_flags) any_answer >>
   answered (SSL_CONF_CTX_set_ssl conf ssl) any_answer >>
   commands_taken conf commands >>
   optionally (negb (conf =? 0)) (answered (SSL_CONF_CTX_free conf) any_answer)) d.

(** The history of a good connection [ssl] over the descriptor [fd] to the host [name], from when the connection is given
    its descriptor. *)
Definition good_handshake (p : SSLParams) (name : bytes) (fd ssl ip : Z) : log -> Prop :=
  answered (SSL_set_fd ssl fd) positive_answer >>
  optionally (use_SNI p) (answered (SSL_set_tlsext_host_name ssl name) positive_answer) >>
  optionally (negb (host_flags p =? -1)) (answered (SSL_set_hostflags ssl (host_flags p)) any_answer) >>
  answered (SSL_set1_host ssl name) positive_answer >>
  optionally (0 <? zlen (configuration p)) (configured ssl (configuration p)) >>
  answered (SSL_set_connect_state ssl) any_answer >>
  answered (SSL_connect ssl) positive_answer >>
  answered (SSL_set_mode ssl SSL_MODE_AUTO_RETRY) positive_answer >>
  answered (SSL_get_verify_result ssl) (fun r => skip_verification p = true \/ r = X509_V_OK) >>
  optionally (negb (ip =? 0)) (answered (ASN1_OCTET_STRING_free ip) any_answer).

Definition verified (p : SSLParams) (name : bytes) (ctx fd ssl : Z) (d : log) : Prop := exists ip,
  (answered (SSL_new ctx) (fun r => r = ssl /\ ssl <> 0) >>
   answered (a2i_IPADDRESS name) (eq ip) >>
   good_handshake p name fd ssl ip) d.

Section History.
Context {W : Type} `{SocketApi W} {V : Type} `{TlsApi V}.

Abbreviation S := (W * (V * log))%type.

(** What [m] adds to the log when it returns. *)
Definition records {A} (m : M S A) (P : A -> log -> Prop) : Prop :=
  forall w v l, exists r w' v' d, m (w, (v, l)) = (r, (w', (v', l ++ d))) /\ match r with Ok a => P a d | Throw _ => True end.

Lemma records_ret {A} (a : A) (P : A -> log -> Prop) : P a [] -> records (ret a) P.
Proof using Type. intros HP w v l. exists (Ok a), w, v, []. by rewrite app_nil_r. Qed.

Lemma records_throw {A} (e : exn) (P : A -> log -> Prop) : records (throw e) P.
Proof using Type. intros w v l. exists (Throw e), w, v, []. by rewrite app_nil_r. Qed.

Lemma records_bind {A B} (m : M S A) (k : A -> M S B) (P : A -> log -> Prop) (Q : B -> log -> Prop) : records m P ->
  (forall a d1, P a d1 -> records (k a) (fun b d2 => Q b (d1 ++ d2))) -> records (bind m k) Q.
Proof using Type.
  intros Hm Hk w v l. destruct (Hm w v l) as (r & w1 & v1 & d1 & E & HP). unfold bind. rewrite E. destruct r as [a|e].
  - destruct (Hk a d1 HP w1 v1 (l ++ d1)) as (r & w2 & v2 & d2 & E2 & HQ). exists r, w2, v2, (d1 ++ d2). by rewrite E2, app_assoc.
  - by exists (Throw e), w1, v1, d1.
Qed.

Lemma records_weaken {A} (m : M S A) (P Q : A -> log -> Prop) : records m P -> (forall a d, P a d -> Q a d) -> records m Q.
Proof using Type.
  intros Hm HPQ w v l. destruct (Hm w v l) as (r & w1 & v1 & d1 & E & HP). exists r, w1, v1, d1. split; [done|]. destruct r; auto.
Qed.

(** One step of a history: [m] does the first part, the rest the second. *)
Lemma records_before {A B} (m : M S A) (k : A -> M S B) (P Q : log -> Prop) : records m (fun _ => P) -> (forall a, records (k a) (fun _ => Q)) ->
  records (bind m k) (fun _ => P >> Q).
Proof using Type.
  intros Hm Hk. eapply records_bind; [exact Hm|]. intros a d1 HP. eapply records_weaken; [apply Hk|]. intros b d2 HQ. by exists d1, d2.
Qed.

Lemma records_call (c : tls_call) : records (call_tls c) (fun r d => d = [(c, r)]).
Proof using Type.
  intros w v l. unfold call_tls. cbn. destruct (tls c v) as [r v']. by exists (Ok r), w, v', [(c, r)].
Qed.

Lemma records_answered (c : tls_call) : records (call_tls c) (fun _ => answered c any_answer).
Proof using Type. eapply records_weaken; [apply records_call|]. intros r d ->. by exists r. Qed.

(** [m] is the history [Q] but for its end, [R]. *)
Definition leads {A} (m : M S A) (Q R : log -> Prop) : Prop := records m (fun _ d => forall d2, R d2 -> Q (d ++ d2)).

Lemma leads_step {A B} (m : M S A) (k : A -> M S B) (P Q R : log -> Prop) : records m (fun _ => P) -> (forall a, leads (k a) Q R) ->
  leads (bind m k) (P >> Q) R.
Proof using Type.
  intros Hm Hk. eapply records_bind; [exact Hm|]. intros a d1 HP. eapply records_weaken; [apply Hk|]. intros b d2 HQ d3 HR.
  exists d1, (d2 ++ d3). split_and!; [by rewrite app_assoc|done|by apply HQ].
Qed.

Lemma leads_last {A} (m : M S A) (P R : log -> Prop) : records m (fun _ => P) -> leads m (P >> R) R.
Proof using Type. intros Hm. eapply records_weaken; [exact Hm|]. intros a d HP d2 HR. by exists d, d2. Qed.

(** An object that is made for a scope is given back at its end. *)
Lemma records_scoped {A} (new : tls_call) (free : Z -> tls_call) (m : Z -> M S A) (Q : Z -> log -> Prop) :
  (forall p, leads (m p) (Q p) (optionally (negb (p =? 0)) (answered (free p) any_answer))) ->
  records (let* p := call_tls new in scoped p (free p) (m p)) (fun _ d => exists p, (answered new (eq p) >> Q p) d).
Proof using Type.
  intros Hm. eapply records_bind; [apply records_call|]. intros p d ->. intros w v l. destruct (Hm p w v l) as (r & w1 & v1 & d1 & E & HP).
  assert (forall d2, Q p d2 -> (answered new (eq p) >> Q p) ([(new, p)] ++ d2)) as Hfirst by (intros d2 Hd2; exists [(new, p)], d2; split_and!; [done|by exists p|done]).
  unfold scoped. rewrite E. destruct (p =? 0); cbn [negb optionally] in *.
  - exists r, w1, v1, d1. split; [done|]. destruct r; [|done]. exists p. apply Hfirst. rewrite <- (app_nil_r d1). by apply HP.
  - unfold call_tls. cbn [fst snd]. cbn [tls Logged fst snd]. destruct (tls (free p) v1) as [x v2]. exists r, w1, v2, (d1 ++ [(free p, x)]). rewrite app_assoc.
    split; [done|]. destruct r; [|done]. exists p. apply Hfirst, HP. by exists x.
Qed.

(** Whatever is recorded on the way to an exception. *)
Lemma records_any {A B} (m : M S A) (k : A -> M S B) (Q : B -> log -> Prop) : records m (fun _ _ => True) -> (forall a, records (k a) (fun b _ => forall d, Q b d)) ->
  records (bind m k) Q.
Proof using Type. intros Hm Hk. eapply records_bind; [exact Hm|]. intros a d1 _. eapply records_weaken; [apply Hk|]. intros b d2 HQ. apply HQ. Qed.

Lemma records_some (c : tls_call) : records (call_tls c) (fun _ _ => True).
Proof using Type. by eapply records_weaken; [apply records_call|]. Qed.

Lemma records_certificate (cert : Z) : records (getCertificateInfo cert) (fun _ _ => True).
Proof using Type.
  unfold getCertificateInfo. destruct (cert =? 0); [by apply records_ret|].
  eapply records_weaken; [apply (records_scoped _ _ _ (fun _ _ => True))|done]. intros p. unfold leads.
  repeat (eapply records_any; [apply records_some|intros _]). by apply records_ret.
Qed.

Lemma records_error {A} (ssl : Z) (Q : A -> log -> Prop) : records (throwSSLError ssl) Q.
Proof using Type.
  unfold throwSSLError. eapply records_any; [apply records_some|intros _]. eapply records_any; [|intros _; apply records_throw].
  destruct (negb (ssl =? 0)); cbn [when]; [|by apply records_ret]. eapply records_any; [apply records_some|intros p]. destruct (p =? 0); [by apply records_ret|].
  eapply records_any; [apply records_some|intros st]. destruct (st =? TLS_ST_OK); [by apply records_ret|]. eapply records_any; [apply records_some|intros x].
  eapply records_weaken; [apply records_certificate|done].
Qed.

Lemma records_handle (ssl : Z) (c : tls_call) : records (handle_ssl_error ssl c) (fun _ => answered c positive_answer).
Proof using Type.
  unfold handle_ssl_error. eapply records_bind; [apply records_call|]. intros r d1 ->. destruct (Z.leb_spec r 0) as [Hr|Hr].
  - eapply records_any; [apply records_some|intros _; apply records_error].
  - apply records_ret. by exists r.
Qed.

Lemma records_when (b : bool) (m : M S unit) (P : log -> Prop) : records m (fun _ => P) -> records (when b m) (fun _ => optionally b P).
Proof using Type. intros Hm. destruct b; [done|]. by apply records_ret. Qed.

Lemma records_then_ret {A} (m : M S A) (P : log -> Prop) : records m (fun _ => P) -> records (m ;;; ret tt) (fun _ => P).
Proof using Type. intros Hm. eapply records_bind; [exact Hm|]. intros a d HP. apply records_ret. by rewrite app_nil_r. Qed.

Lemma records_commands (conf ssl : Z) (commands : list (bytes * option bytes)) :
  records (for_each (configure_command conf ssl) commands) (fun _ => commands_taken conf commands).
Proof using Type.
  induction commands as [|[command value] commands IH]; [by apply records_ret|]. cbn [for_each commands_taken]. apply records_before; [|intros _; exact IH].
  unfold configure_command. cbn [fst snd]. eapply records_bind; [apply records_call|]. intros r d ->.
  destruct ((r =? 2) || _) eqn:Er; [|destruct (r =? 0); [apply records_error|apply records_throw]].
  apply records_ret. exists r. split; [done|]. apply orb_prop in Er as [->%Z.eqb_eq|[->%Z.eqb_eq Hv]%andb_prop]; [by left|]. right. by destruct value.
Qed.

Lemma records_configure (ssl : Z) (commands : list (bytes * option bytes)) : ssl <> 0 ->
  records (configureSSL commands ssl 0) (fun _ => configured ssl commands).
Proof using Type.
  intros Hz. apply records_scoped. intros conf. rewrite (proj2 (Z.eqb_neq _ _) Hz). cbn [negb].
  repeat first [apply leads_last, records_commands|apply leads_step; [by auto using records_answered, records_then_ret|intros _]].
Qed.

(** The name the certificate is checked against. *)
Definition tls_host_name (host : bytes) (p : SSLParams) : bytes := c_str (if bool_decide (server_host_name p = []) then host else server_host_name p).

Lemma records_handshake (host : bytes) (p : SSLParams) (ctx fd ssl : Z) :
  records (SSLSocket_handshake host p fd ssl) (fun _ d => verified p (tls_host_name host p) ctx fd ssl ((SSL_new ctx, ssl) :: d)).
Proof using Type.
  unfold SSLSocket_handshake. destruct (Z.eqb_spec ssl 0) as [Hz|Hz]; [apply records_throw|]. fold (tls_host_name host p).
  eapply records_weaken; [apply (records_scoped _ _ _ (good_handshake p (tls_host_name host p) fd ssl)); intros ip; unfold good_handshake|].
  - repeat (apply leads_step; [by auto using records_handle, records_answered, records_when, records_then_ret, records_configure|intros _]).
    apply leads_last. eapply records_bind; [apply records_call|]. intros r d ->. destruct (negb (skip_verification p) && _) eqn:Ev.
    + eapply records_any; [apply records_some|intros cert]. eapply records_any; [apply records_certificate|intros _; apply records_throw].
    + apply records_ret. exists r. split; [done|]. destruct (skip_verification p); [by left|]. right. cbn in Ev. by apply negb_false_iff, Z.eqb_eq in Ev.
  - intros _ d [ip Hd]. exists ip, [(SSL_new ctx, ssl)], d. split_and!; [done|by exists ssl|exact Hd].
Qed.

Lemma records_system {A} (m : M W A) : records (on_system m) (fun _ d => d = []).
Proof using Type.
  intros w v l. unfold on_system, zoom. cbn [fst snd]. destruct (m w) as [r w']. exists r, w', v, []. rewrite app_nil_r. split; [done|]. by destruct r.
Qed.

Lemma records_on_success {A} (p : Z) (free : tls_call) (m : M S A) (P : A -> log -> Prop) : records m P -> records (kept_on_success p free m) P.
Proof using Type.
  intros Hm w v l. destruct (Hm w v l) as (r & w1 & v1 & d & E & HP). unfold kept_on_success. rewrite E. destruct r as [a|e]; [by exists (Ok a), w1, v1, d|].
  destruct (p =? 0); [by exists (Throw e), w1, v1, d|]. destruct (records_call free w1 v1 (l ++ d)) as (r & w2 & v2 & d2 & E2 & _). rewrite E2. cbn [snd].
  exists (Throw e), w2, v2, (d ++ d2). by rewrite app_assoc.
Qed.

Lemma records_closed {A} (x : Socket) (m : M S A) (P : A -> log -> Prop) : records m P -> records (closed_on_throw x m) P.
Proof using Type.
  intros Hm w v l. destruct (Hm w v l) as (r & w1 & v1 & d & E & HP). unfold closed_on_throw. rewrite E. destruct r as [a|e]; [by exists (Ok a), w1, v1, d|].
  destruct (records_system (Socket_Close x) w1 v1 (l ++ d)) as (r & w2 & v2 & d2 & E2 & _). rewrite E2. cbn [snd].
  exists (Throw e), w2, v2, (d ++ d2). by rewrite app_assoc.
Qed.

Definition history_of (f : SSLSocketFactory) (host : bytes) (x : SSLSocket) (d : log) : Prop :=
  verified (ssl_params_ f) (tls_host_name host (ssl_params_ f)) (context_ (ssl_context_ f)) (handle_ (base_ x)) (ssl_ x) d.

Lemma records_connect (f : SSLSocketFactory) (opts : SocketOptions) (e : Endpoint) : records (SSLSocketFactory_connect f opts e) (history_of f (ep_host e)).
Proof using Type.
  unfold SSLSocketFactory_connect. eapply records_bind; [apply records_system|]. intros info ? ->. cbn [app].
  assert (records (let* socket := SSLSocketFactory_doConnect f info (ep_host e) opts in on_system (setSocketOptions opts (base_ socket)) ;;; ret socket)
    (history_of f (ep_host e))) as Hc.
  { apply (records_bind _ _ (history_of f (ep_host e))); [|intros x d Hd; eapply records_bind; [apply records_system|intros _ d2 ->]; apply records_ret; by rewrite !app_nil_r].
    unfold SSLSocketFactory_doConnect, SSLSocket_new. eapply records_bind; [apply records_system|]. intros socket ? ->. apply records_closed.
    eapply records_bind; [apply records_call|]. intros ssl ? ->. apply records_on_success.
    eapply records_bind; [apply (records_handshake (ep_host e) (ssl_params_ f) (context_ (ssl_context_ f)))|]. intros u d Hd. apply records_ret. rewrite app_nil_r. exact Hd. }
  intros w v l. destruct (Hc w v l) as (r & w1 & v1 & d & E & HP). rewrite E.
  destruct (records_system (with_address info (ret tt)) w1 v1 (l ++ d)) as (r2 & w2 & v2 & d2 & E2 & _). rewrite E2. cbn [snd].
  unfold on_system, zoom in E2. cbn in E2. injection E2 as <- <- <- E2. rewrite <- (app_nil_r (l ++ d)) in E2 at 1. apply app_inv_head in E2. subst d2.
  exists r, (match info with [] => w1 | _ => sys_freeaddrinfo info w1 end), v1, d. by rewrite app_nil_r.
Qed.
End History.

(** *** A library that agrees *)
Section Agreeing.
Context {W : Type} `{SocketApi W} {V : Type} `{TlsApi V}.

Abbreviation S := (W * V)%type.

(** An answer the client can go on with. *)
Definition agreeable (p : SSLParams) (c : tls_call) (r : Z) : Prop :=
  match c with
  | SSL_new _ => r <> 0
  | SSL_set_fd _ _ | SSL_set_tlsext_host_name _ _ | SSL_set1_host _ _ | SSL_connect _ | SSL_set_mode _ _ => 0 < r
  | SSL_get_verify_result _ => skip_verification p = true \/ r = X509_V_OK
  | SSL_CONF_cmd _ _ value => command_taken value r
  | _ => True
  end.

Context (p : SSLParams) (agrees : forall c v, agreeable p c (fst (tls c v))).

(** [m] returns, and leaves the operating system alone. *)
Definition succeeds {A} (m : M S A) (P : A -> Prop) : Prop := forall w v, exists a v', m (w, v) = (Ok a, (w, v')) /\ P a.

Lemma succeeds_ret {A} (a : A) (P : A -> Prop) : P a -> succeeds (ret a) P.
Proof using Type. intros HP w v. by exists a, v. Qed.

Lemma succeeds_bind {A B} (m : M S A) (k : A -> M S B) (P : A -> Prop) (Q : B -> Prop) : succeeds m P -> (forall a, P a -> succeeds (k a) Q) -> succeeds (bind m k) Q.
Proof using Type. intros Hm Hk w v. destruct (Hm w v) as (a & v1 & E & HP). unfold bind. rewrite E. by apply Hk. Qed.

Lemma succeeds_call (c : tls_call) : succeeds (call_tls c) (agreeable p c).
Proof using agrees.
  intros w v. unfold call_tls. cbn [fst snd]. pose proof (agrees c v) as Ha. destruct (tls c v) as [r v']. by exists r, v'.
Qed.

Lemma succeeds_scoped {A} (x : Z) (free : tls_call) (m : M S A) (P : A -> Prop) : succeeds m P -> succeeds (scoped x free m) P.
Proof using Type.
  intros Hm w v. destruct (Hm w v) as (a & v1 & E & HP). unfold scoped. rewrite E. destruct (x =? 0); [by exists a, v1|]. unfold call_tls. cbn [fst snd].
  destruct (tls free v1) as [r v2]. by exists a, v2.
Qed.

Lemma succeeds_handle (ssl : Z) (c : tls_call) : (forall r, agreeable p c r -> 0 < r) -> succeeds (handle_ssl_error ssl c) (fun _ => True).
Proof using agrees.
  intros Hc. eapply succeeds_bind; [apply succeeds_call|]. intros r Hr. rewrite (proj2 (Z.leb_gt _ _) (Hc r Hr)). by apply succeeds_ret.
Qed.

Lemma succeeds_any (c : tls_call) : succeeds (call_tls c) (fun _ => True).
Proof using agrees. intros w v. destruct (succeeds_call c w v) as (a & v' & E & _). by exists a, v'. Qed.

Lemma succeeds_configure (commands : list (bytes * option bytes)) (ssl : Z) : succeeds (configureSSL commands ssl 0) (fun _ => True).
Proof using agrees.
  eapply succeeds_bind; [apply succeeds_any|intros conf _]. apply succeeds_scoped. do 2 (eapply succeeds_bind; [apply succeeds_any|intros _ _]).
  apply (succeeds_bind _ _ (fun _ => True)); [|intros _ _].
  - destruct (negb (ssl =? 0)); [|by apply succeeds_ret]. eapply succeeds_bind; [apply succeeds_any|intros _ _; by apply succeeds_ret].
  - induction commands as [|[c value] commands IH]; [by apply succeeds_ret|]. cbn [for_each]. apply (succeeds_bind _ _ (fun _ => True)); [|intros _ _; exact IH].
    unfold configure_command. cbn [fst snd]. eapply succeeds_bind; [apply succeeds_call|]. intros r Hr. destruct Hr as [-> | [-> Hv]]; [by apply succeeds_ret|].
    destruct value; [done|]. by apply succeeds_ret.
Qed.

Lemma succeeds_handshake (host : bytes) (fd ssl : Z) : ssl <> 0 -> succeeds (SSLSocket_handshake host p fd ssl) (fun _ => True).
Proof using agrees.
  intros Hz. unfold SSLSocket_handshake. rewrite (proj2 (Z.eqb_neq _ _) Hz). eapply succeeds_bind; [apply succeeds_any|intros ip _]. apply succeeds_scoped.
  assert (forall c, (forall r, agreeable p c r -> 0 < r) -> forall (k : Z -> M S unit), (forall r, succeeds (k r) (fun _ => True)) ->
    succeeds (let* r := handle_ssl_error ssl c in k r) (fun _ => True)) as Hstep by (intros c Hc k Hk; eapply succeeds_bind; [by apply succeeds_handle|intros r _; apply Hk]).
  assert (forall b m (k : M S unit), succeeds m (fun _ => True) -> succeeds k (fun _ => True) -> succeeds (when b m ;;; k) (fun _ => True)) as Hwhen
    by (intros b m k Hm Hk; apply (succeeds_bind _ _ (fun _ => True)); [destruct b; [exact Hm|by apply succeeds_ret]|intros _ _; exact Hk]).
  apply Hstep; [done|intros _]. apply Hwhen; [apply Hstep; [done|intros _; by apply succeeds_ret]|].
  apply Hwhen; [eapply succeeds_bind; [apply succeeds_any|intros _ _; by apply succeeds_ret]|]. apply Hstep; [done|intros _].
  apply Hwhen; [apply succeeds_configure|]. eapply succeeds_bind; [apply succeeds_any|intros _ _]. do 2 (apply Hstep; [done|intros _]).
  eapply succeeds_bind; [apply succeeds_call|]. intros r [-> | ->]; [|cbn; rewrite andb_false_r]; by apply succeeds_ret.
Qed.

(** TLS succeeds where the plain connection does. *)
Lemma connect_agreed (c : SSLContext) (opts : SocketOptions) (e : Endpoint) (w w' : W) (v : V) (socket : Socket) :
  NonSecureSocketFactory_connect opts e w = (Ok socket, w') ->
  exists ssl v', SSLSocketFactory_connect (mkSSLSocketFactory p c) opts e (w, v) = (Ok (mkSSLSocket socket ssl), (w', v')).
Proof using agrees.
  unfold NonSecureSocketFactory_connect, SSLSocketFactory_connect. intros (info & w1 & Ei & E)%bind_inv.
  unfold bind at 1, on_system at 1, zoom at 1. cbn [fst snd]. rewrite Ei. unfold with_address in E.
  destruct ((let* socket := doConnect info opts in setSocketOptions opts socket ;;; ret socket) w1) as [r w2] eqn:Ec. injection E as -> Ew.
  apply bind_inv in Ec as (x & w3 & Ex & Ec). apply bind_inv in Ec as ([] & w4 & Eo & Ec). injection Ec as -> ->.
  unfold SSLSocketFactory_doConnect, SSLSocket_new. cbn [ssl_params_ ssl_context_].
  unfold bind at 1 2, on_system at 1, zoom at 1. cbn [fst snd]. unfold doConnect in Ex. rewrite Ex. unfold closed_on_throw, bind at 1.
  destruct (succeeds_call (SSL_new (context_ c)) w3 v) as (ssl & v1 & -> & Hs). unfold kept_on_success, bind at 1.
  destruct (succeeds_handshake (ep_host e) (handle_ socket) ssl Hs w3 v1) as ([] & v2 & -> & _).
  cbn [ret]. unfold bind, on_system, zoom. cbn [fst snd base_]. rewrite Eo. cbn. exists ssl, v2. by rewrite Ew.
Qed.
End Agreeing.

(** ** A small library, for concrete runs *)

(** Objects in order of their making; the result of the verification is given. *)
Record TestTls := mkTls { t_held : references; t_next : Z; t_verify : Z }.

(** The calls that make an object. *)
Definition makes (c : tls_call) : bool :=
  match c with SSL_CTX_new | SSL_new _ | SSL_get_peer_certificate _ | SSL_CONF_CTX_new | BIO_new => true | _ => false end.

Definition test_answer (c : tls_call) (v : TestTls) : Z :=
  if makes c then Z.max 1 (t_next v)
  else match c with
       | SSL_get_verify_result _ => t_verify v
       | SSL_CONF_cmd _ _ _ => 2
       | SSL_get_session _ | a2i_IPADDRESS _ => 0
       | _ => 1
       end.

#[global] Instance TestTls_api : TlsApi TestTls := {|
  tls c v := let r := test_answer c v in (r, mkTls (effect c r (t_held v)) (if makes c then r + 1 else t_next v) (t_verify v));
|}.

#[global, refine] Instance TestTls_laws : TlsLaws TestTls := {| held := t_held |}.
Proof. intros c v r v' [= <- <-]. done. Defined.

Definition example_timeouts : SocketTimeoutParams := mkTimeouts 5000 0 0.

Definition example_socket_options : SocketOptions := mkSocketOptions example_timeouts false 60 5 3 true.

Definition example_endpoint : Endpoint := mkEndpoint (str "db.example") 9440.

Definition example_os : TestOS := mkOS {[0; 1; 2]} 0 NoSocket [Refused; Connected; Connected; Refused; Refused].

(** A certificate that does not verify is left behind by every attempt. *)
Lemma certificate_leaked :
  let f := mkSSLSocketFactory (GetSSLParams SSLOptions_new) (mkSSLContext 7) in
  let '(r, (_, v)) := SSLSocketFactory_connect f example_socket_options example_endpoint (example_os, mkTls ∅ 20 18) in
  r = Throw OpenSSLError /\ multiplicity (Certificate, 21) (held v) = 1%nat.
Proof. vm_compute. by split. Qed.

(** ** Properties *)

(** C13. Whatever a program does with factories and TLS connections, successfully or not - making factories with a context
    of their own or a given one, connecting, moving, destroying, validating options -, every reference to an object of the TLS
    library belongs to exactly one of the program's objects and every descriptor to exactly one connection, so that all
    are given back when the objects are destroyed, but for certificates left behind; and each attempt to connect either
    returns a connection with a new descriptor and a new object of the library, or throws a system error or an [OpenSSLError], closes
    the descriptor and gives everything back, but for at most the certificate that failed the verification. *)
Theorem tls_resources {W V : Type} {HW : SocketApi W} (LW : SocketApiLaws W) {HV : TlsApi V} (LV : TlsLaws V) (ops : list tls_op) (w : W) (v : V) :
  tls_owned (held v) (open_fds w) (fold_left (fun x o => run_tls o x) ops (mkObjects [] [], (w, v))) /\
  forall f opts e s, let '(r, s') := SSLSocketFactory_connect f opts e s in connected (ssl_params_ f) s r s'.
Proof.
  split; [|apply tls_connect_ok]. apply run_tls_all. split_and!.
  - exists ∅. split; [|intros o Ho; by apply gmultiset_not_elem_of_empty in Ho]. unfold factory_references, socket_references. cbn [foldr].
    by rewrite !(left_id_L ∅ (⊎)).
  - constructor.
  - by intros fd Hfd%elem_of_nil.
  - cbn. set_solver.
Qed.

(** C12. Every TLS connection that [connect] returns has this history, read off the calls it made of the library and their
    answers: it was made from the factory's context, given the descriptor of the new socket, told the host name the options or
    the endpoint give (for the extension exactly when asked to, and for the check of the certificate always), configured with all
    the commands in order, each of them taken, then connected, and the certificate was verified, unless the options skip
    that; nothing else was called.  Conversely, where the plain connection succeeds and the library agrees at each step, the TLS
    connection succeeds over the same socket. *)
Theorem tls_verified {W V : Type} {HW : SocketApi W} {HV : TlsApi V} (f : SSLSocketFactory) (opts : SocketOptions) (e : Endpoint) :
  (forall (w : W) (v : V) (l : log) x s', SSLSocketFactory_connect f opts e (w, (v, l)) = (Ok x, s') ->
     exists d, snd (snd s') = l ++ d /\ history_of f (ep_host e) x d) /\
  ((forall c (v : V), agreeable (ssl_params_ f) c (fst (tls c v))) ->
   forall (w w' : W) (v : V) socket, NonSecureSocketFactory_connect opts e w = (Ok socket, w') ->
     exists ssl v', SSLSocketFactory_connect f opts e (w, v) = (Ok (mkSSLSocket socket ssl), (w', v'))).
Proof.
  split.
  - intros w v l x s' E. destruct (records_connect f opts e w v l) as (r & w1 & v1 & d & E' & HP). rewrite E in E'. injection E' as <- ->. by exists d.
  - intros Ha w w' v socket E. destruct f as [p c]. by apply (connect_agreed p Ha c opts e w w' v socket).
Qed.

(** *** Witnesses *)

(** A factory, a connection, a move, a failed connection and the end of everything. *)
Lemma tls_resources_witness :
  let ops := [NewFactory SSLOptions_new; TlsConnect 0 example_socket_options example_endpoint; MoveSocket 0;
    TlsConnect 0 example_socket_options example_endpoint; TlsConnect 0 example_socket_options example_endpoint;
    DestroySocket 1; DestroySocket 0; DestroySocket 0; DestroyFactory 0] in
  let v := mkTls ∅ 20 0 in
  let x := fold_left (fun x o => run_tls o x) ops (mkObjects [] [], (example_os, v)) in
  tls_owned (held v) (open_fds example_os) x /\ fst x = mkObjects [] [] /\ open_fds (fst (snd x)) = {[0; 1; 2]}.
Proof.
  intros ops v x. split; [exact (proj1 (tls_resources TestOS_laws TestTls_laws ops example_os v))|]. split; [vm_compute; reflexivity|].
  apply (bool_decide_unpack _). vm_compute. reflexivity.
Defined.

Lemma tls_verified_witness :
  let f := mkSSLSocketFactory (GetSSLParams SSLOptions_new) (mkSSLContext 7) in
  exists x s' d, SSLSocketFactory_connect f example_socket_options example_endpoint (example_os, (mkTls ∅ 20 0, [])) = (Ok x, s') /\
    snd (snd s') = d /\ history_of f (str "db.example") x d.
Proof.
  intros f. destruct (SSLSocketFactory_connect f example_socket_options example_endpoint (example_os, (mkTls ∅ 20 0, []))) as [[x|e] s'] eqn:E.
  - destruct (proj1 (tls_verified f example_socket_options example_endpoint) example_os (mkTls ∅ 20 0) [] x s' E) as (d & Hd & Hh).
    exists x, s', d. split; [reflexivity|]. split; [exact Hd|exact Hh].
  - exfalso. vm_compute in E. discriminate E.
Defined.
